(* ===== verification/_CoqProject ===== *)
-Q . S2P
Prelude.v
Monad.v
Params.v
CString.v
Kalloc.v
ProcTable.v
Pipe.v
Ide.v
Bio.v
Lru.v
Block.v
Alloc.v
Inode.v
Bmap.v
Icache.v
Content.v
Itrunc.v
Dir.v
Path.v
Ends.v
Walk.v
File.v
Tags.v
TagSpec.v
TagCalls.v
Image.v
Vm.v
VmSpec.v
UserMem.v
Args.v
Sysfile.v
Exec.v
Proc.v
ProcInv.v
Sched.v
Userinit.v
X86.v
Seg.v
Entry.v
BootAsm.v
Boot.v
Mp.v
Smp.v
Spinlock.v
Console.v
Kbd.v
Intr.v
Start.v
Ulib.v
Grep.v
Utils.v
Umalloc.v
HeapUse.v
Sh.v
ShSpec.v
ShParse.v
ShCmd.v
ShRun.v
Mkfs.v
MkfsSpec.v
MkfsImage.v
MkfsTree.v
MkfsPath.v
Syscall.v
PropTags.v
PropFs.v
PropKernel.v
PropCpu.v
PropBoot.v
PropStart.v
PropVm.v
PropIo.v
PropUser.v
PropSh.v
PropMkfs.v
