(* ===== verification/Prelude.v ===== *)
(** * A verification development for the xv6 kernel with file tags

    The repository is xv6, a Unix-like teaching kernel in C, with one
    addition: system calls that attach key/value tags to files (kernel/fs.c
    from [searchKey] on).  This development models the kernel's components,
    the shell, the user library and the program that builds disk images as
    functions on explicit states and proves what they promise to each other
    and to their users.

    ** The program's parts and the files that model them

    Paths are relative to src/xv6.  "Calls" go downwards: each part uses those
    above it.

    - Foundations.  Prelude (machine integers, byte lists, loops' index
      lists), Monad (the kernel monad and its weakest preconditions), Params
      (the constants of include/ and the byte formats of superblock, disk
      inode and directory entry), CString (kernel/string.c).
    - Memory.  Kalloc (kernel/kalloc.c): the free list kept in the free pages
      themselves.  Vm (kernel/vm.c): page directories and page tables in
      physical memory, with [pte_of] the translation the hardware makes.
      VmSpec has the contracts of [walkpgdir], [mappages] and [setupkvm],
      UserMem those of [allocuvm], [deallocuvm], [freevm] and [copyuvm].
    - Processes.  ProcTable and Proc (kernel/proc.c): the table, [sleep],
      [wakeup], [kill], [fork], [exit] and [wait].  ProcInv has the invariant
      of the table over all interleavings of any number of processors, Sched
      the loop of [scheduler].
      Spinlock (kernel/spinlock.c): [acquire] and [release] at the grain of
      single memory accesses, interleaved over any number of processors.
    - Disk.  Ide (kernel/ide.c): the request queue, the task file and the
      interrupt handler.  Bio and Lru (kernel/bio.c): the buffer cache as a
      ring of links in an array, [binit], [bget], [bread], [bwrite],
      [brelse].
    - File system (kernel/fs.c).  Block: [readsb], [balloc], [bfree], with
      their contract in Alloc.  Inode: the inode cache and the operations on
      inodes, specified in Icache, Bmap (the block map of a file) and Itrunc.
      Content: [readi] and [writei].  Dir: [dirlookup], [dirlink].  Path:
      [skipelem], [namex].  Ends shows that none of these operations runs for
      ever, whatever is on the disk, and Walk that [namei] follows the entries
      of the directories.
    - Files and tags.  Pipe (kernel/pipe.c), File (kernel/file.c), Tags (the
      tag calls of kernel/fs.c), TagSpec (the tag block as a finite map),
      TagCalls (the calls on an open file).
    - System calls.  Args (fetching arguments, kernel/syscall.c), Sysfile
      (kernel/sysfile.c), Exec (kernel/exec.c), Syscall (kernel/sysproc.c,
      the dispatch of kernel/syscall.c and kernel/trap.c).
    - Machine level.  X86 (kernel/swtch.S, kernel/trapasm.S,
      kernel/vectors.pl): the instructions of the assembly files on registers
      and memory.  Seg: descriptors and gates as bits in memory (kernel/mmu.h),
      [seginit], [switchuvm] and [vmenable] of kernel/vm.c, [tvinit] and
      [idtinit] of kernel/trap.c, and the way of the processor through a gate.
      Entry: the two together, for traps and for the stack of a new process.
    - Devices.  Intr: the interrupt controllers, the timer and the serial port
      (kernel/picirq.c, kernel/ioapic.c, kernel/timer.c, kernel/uart.c), on
      models of the chips.
    - Start-up.  Boot (kernel/bootmain.c): the boot loader on a memory with
      32-bit addresses and a disk.  BootAsm (kernel/bootasm.S,
      kernel/bootother.S, kernel/multiboot.S): from real mode to C.  Mp
      (kernel/mp.c): the search for the multiprocessor tables and the walk
      over their entries.  Smp: the local APICs and the start of the other
      processors (kernel/lapic.c, [cinit], [mpmain] and [bootothers] of
      kernel/main.c).  Userinit: the contract of [userinit].  Start: [main],
      [jmpkstack] and [mainc] of kernel/main.c.
    - Console.  Console (kernel/console.c) and Kbd (kernel/kbd.c): output,
      line editing and the scan code tables.
    - User library.  Ulib (user/ulib.c and user/printf.c), Umalloc
      (user/umalloc.c: the circular list of free blocks), HeapUse (programs
      that allocate and free in any order), Grep (user/grep.c), Utils
      (user/cat.c, user/wc.c, user/echo.c and [fmtname] of user/ls.c).
    - Shell (user/sh.c).  Sh: tokens, the recursive descent parser over the
      line buffer and the command nodes it allocates.  ShSpec: the grammar and
      the trees of commands.  ShParse and ShCmd: the parser accepts the
      grammar.  ShRun: [runcmd] and [main] over the system calls as a program
      sees them, and the files every started program must have.
    - Image builder (tools/mkfs.c).  Mkfs: the program.  MkfsSpec: appending
      to a file, with the kernel's own reading of the block map.  MkfsImage:
      the image as a list of inodes with contents.  MkfsTree: the reference
      layout of a directory tree and the finished image.  MkfsPath: the entries
      on the way to a file.
    - Image has a concrete disk and kernel state, in which the witnesses of
      the properties run.

    ** How state and operations correspond

    Each component's state is a record: [bio] (cache, disk, process table),
    [fs] (that and the inode cache), [kern] (that and files, pipes, memory),
    [sys] (that and the clock); below C, [processor] (registers, tables,
    memory), [smp] (all processors with their APICs) and [io] (the chips); and
    [start], which has all parts for start-up.  A pointer to an element of a C array is its
    index; a pointer to physical memory is its address.  An operation is a
    function into the monad [M S A] with the outcomes return, [panic], sleep
    (the caller left the processor, on the channel in its slot) and [hang] (a
    loop that ran out of fuel).  A lens runs a component's operation inside
    the larger state, so that [zoom bio_of_kern (bread ...)] is the call of
    [bread] from code that sees the whole kernel.  32-, 16- and 8-bit
    integers are [Z] with the wrap-around written out ([u32], [s32], [u16],
    [u8]).  Locks that only guard a handler on one processor are left out of
    the handlers: Spinlock shows that they exclude the other processors.

    A call that sleeps ends in the state in which it left the processor.  The
    code after the sleep is the next round of the same loop, so the behaviour
    after a wakeup is that of the call run again from there (pipes, console,
    [wait], [bget], [ilock]).  [iderw]'s sleep is the exception: the model
    serves the disk queue with [ideintr] until the buffer is done.  The sectors
    for which the drive reports an error are part of the state ([bio_bad]); the
    invariant of the buffer cache says that there are none, and what the driver
    does otherwise is shown apart.

    In [smp] and [start] the bytes of the kernel's own data and of the stacks
    are in a memory with 32-bit addresses, and the contents of allocated pages
    in the page allocator's map.  A list of instructions stands for the code of
    an assembly file; the tables in these files are bytes in memory.  A
    processor that [bootothers] starts runs while the other one waits for it.

    The image of mkfs is the disk of the root device, so that the kernel's
    [slot], [fbyte] and [dirlookup] apply to what mkfs wrote.  The shell's
    system calls act on a table of descriptors and record each [exec]; a
    forked child runs before its parent goes on.

    ** What the theorems show

    The properties are in the files named Prop*, each with the number of its
    claim; everything else supports them.

    - PropTags: a tag call is insertion, deletion, lookup or listing of the
      finite map of a file's tags, through inode lock, block allocation,
      buffer cache and disk, which changes only by the tag block and the bit
      of the bitmap for it; invalid arguments change nothing; and where the
      code does something else than one would expect (the length returned
      for long buffers, the tag block inherited from a cache slot's previous
      inode).
    - PropFs: the buffer cache holds at most one copy of a sector, gives out
      exclusive buffers and replaces the least recently used one; [balloc]
      takes the lowest free block and [bfree] undoes it; [writei] then
      [readi] gives the bytes written and changes no other file; truncation
      gives back exactly the file's blocks; inodes and directory entries are
      read back as written; the walk along a path ends on every disk.
    - PropKernel: pipes are queues of bytes under every interleaving; the
      page allocator is a stack of distinct pages; the process table stays
      consistent on any number of processors and no parent misses a zombie
      child, with distinct pids until the 32-bit counter wraps around; a pass
      of the scheduler runs every runnable process; spin locks exclude, never
      panic and can be released; what the argument
      checks accept (also a buffer of negative size).
    - PropCpu: a trap from user mode, for every number, ends in [trap] on the
      kernel's stack with a trap frame of the user's registers, and the return
      loads them again; a thread that switches away continues where it was; a
      new process starts in [forkret] and then in user mode.
    - PropStart: [main] reaches the scheduler with all processors, tables,
      devices and the first process in place; interrupts of exactly the
      devices in use arrive at the right vectors; the serial port loses no
      byte.
    - PropBoot: the boot loader leaves the kernel's segments in memory although
      it reads whole sectors; the multiprocessor tables are read as they
      describe the machine, and an unknown entry stops the walk for ever.
    - PropVm: the kernel's mappings are the same in every process; growing a
      process gives it zeroed pages of its own or changes nothing; a child
      gets a copy and shares no page; an address space gives back all pages.
    - PropIo: the line discipline of the console, keyboard decoding, number
      formatting, overlapping copies.
    - PropUser: allocations never overlap, for requests below the size from
      which [sbrk] gets a negative number; the matcher of grep decides its
      regular expressions; wc counts words across the ends of its buffer.
    - PropSh: the parser decides the grammar of command lines; a session
      starts the programs its lines describe with the right files.
    - PropMkfs: the kernel finds a consistent file system on the image, and
      [namei] every file of the host under its path, if the names in a
      directory differ in their first 14 bytes.

    ** Bounds and fuel

    Loops over a counter run over the list of its values ([range], [seqZ]).
    Loops without one take fuel: [while_fuel] in [readi] and [writei] has one
    round per byte and one more, and the specifications prove that the loop
    ends before; [scan_fuel] for the buffer ring is its length and one more;
    [namex] has the length of the path and one more, and [namex_terminates]
    shows that this is enough and that no loop below it runs out either; the
    console's loops have the size of the input ring.  The parser's functions
    nest at most four deep per token, [runcmd] no deeper than the line is
    long, [malloc] goes round the free list at most twice, [iappend] has a
    round per byte, [readseg] one per sector and two more, [bootmain] one
    per program header and one more; their specifications prove that this is
    enough.  [mpinit] takes its fuel as an argument, since its loop need not
    end.  The wait for the local APIC has as many rounds as the chip needs
    and one more; [booted_wait] lets every started processor run once.
    [uartputc] polls 128 times, as in the source.  A model that runs out of
    fuel is [Hang], which every [wp] and [wpe] excludes.

    ** What is not modelled

    Caches, address translation of the kernel's own accesses (all its memory
    is mapped at its physical address, which [setupkvm_maps] shows) and the
    messages printed on the way.  On the process table the context switch is a
    step from one state to the next; its code is in X86.
    The disk has no end: a sector that was never written reads as zeros, also
    behind the last sector, whose numbers [balloc] can return.
    Debugging output of the tag calls, [procdump] and the call stacks
    recorded by the locks.  The other user programs are sequences of system
    calls without logic of their own, and usertests, forktest and stressfs
    are tests of the system.  In the shell and in mkfs messages are left out;
    mkfs reads a host directory that can be read, and the shell's memory for
    commands is not refused.

    The addresses of the kernel's end, data and entry points, which the linker
    provides,
    the device switch table, filled at run time, and for user programs what
    the kernel grants ([sbrk], [fork], [open]) are parameters of the
    definitions that use them. *)

From stdpp Require Export base tactics option list list_numbers numbers gmap strings.
From Stdlib Require Export ZArith Lia.

#[global] Open Scope Z_scope.

(** ** Scope of the development's notations *)

Declare Scope kernel_scope.
Delimit Scope kernel_scope with K.

(** ** Machine integers

    A C [uint] is an integer in [0, 2^32); arithmetic on it is the integer
    arithmetic followed by [u32].  A C [int] is the signed reading [s32] of
    the same 32 bits. *)

Definition u32 (x : Z) : Z := x mod 2 ^ 32.
Definition u16 (x : Z) : Z := x mod 2 ^ 16.
Definition u8 (x : Z) : Z := x mod 2 ^ 8.
Definition s32 (x : Z) : Z :=
  let y := u32 x in if y <? 2 ^ 31 then y else y - 2 ^ 32.
Definition s16 (x : Z) : Z :=
  let y := u16 x in if y <? 2 ^ 15 then y else y - 2 ^ 16.

Lemma u32_small x : 0 <= x < 2 ^ 32 -> u32 x = x.
Proof. intros. by apply Z.mod_small. Qed.

Lemma u32_range x : 0 <= u32 x < 2 ^ 32.
Proof. apply Z.mod_pos_bound. lia. Qed.

Lemma u32_u32 x : u32 (u32 x) = u32 x.
Proof. apply u32_small, u32_range. Qed.

Lemma u32_add_l x y : u32 (u32 x + y) = u32 (x + y).
Proof. apply Z.add_mod_idemp_l. lia. Qed.

Lemma u32_add_r x y : u32 (x + u32 y) = u32 (x + y).
Proof. apply Z.add_mod_idemp_r. lia. Qed.

Lemma u32_sub_r x y : u32 (x - u32 y) = u32 (x - y).
Proof. unfold u32. by rewrite Zminus_mod_idemp_r. Qed.

Lemma u32_sub_l x y : u32 (u32 x - y) = u32 (x - y).
Proof. unfold u32. by rewrite Zminus_mod_idemp_l. Qed.

Lemma u16_range x : 0 <= u16 x < 2 ^ 16.
Proof. apply Z.mod_pos_bound. lia. Qed.

Lemma u16_small x : 0 <= x < 2 ^ 16 -> u16 x = x.
Proof. intros. by apply Z.mod_small. Qed.

Lemma u8_range x : 0 <= u8 x < 256.
Proof. apply Z.mod_pos_bound. lia. Qed.

Lemma u8_small x : 0 <= x < 256 -> u8 x = x.
Proof. intros. by apply Z.mod_small. Qed.

Lemma s32_small x : - 2 ^ 31 <= x < 2 ^ 31 -> s32 x = x.
Proof.
  intros Hx. unfold s32, u32.
  destruct (Z.le_gt_cases 0 x).
  - rewrite Z.mod_small by lia. by rewrite (proj2 (Z.ltb_lt _ _)) by lia.
  - assert (x mod 2 ^ 32 = x + 2 ^ 32) as ->.
    { symmetry. apply Z.mod_unique with (-1); lia. }
    rewrite (proj2 (Z.ltb_ge _ _)) by lia. lia.
Qed.

Lemma s32_range x : - 2 ^ 31 <= s32 x < 2 ^ 31.
Proof.
  pose proof (u32_range x). unfold s32.
  destruct (Z.ltb_spec (u32 x) (2 ^ 31)); lia.
Qed.

Lemma u32_s32 x : u32 (s32 x) = u32 x.
Proof.
  unfold s32. destruct (_ <? _); [apply u32_u32|].
  unfold u32. rewrite <- (Z_mod_plus_full (x mod 2 ^ 32 - 2 ^ 32) 1 (2 ^ 32)).
  rewrite Z.mul_1_l, Z.sub_add. apply Z.mod_mod. lia.
Qed.

(** ** Bytes and byte buffers

    A buffer is a list of bytes.  Reading past its end gives 0, which is the
    byte a NUL-terminated string has there. *)

Definition is_byte (x : Z) : Prop := 0 <= x < 256.

Definition nthb (l : list Z) (i : Z) : Z := default 0 (l !! Z.to_nat i).

(** [memmove (buf + off, src, length src)] into a buffer. *)
Definition splice (off : Z) (src l : list Z) : list Z :=
  list_inserts (Z.to_nat off) src l.

(** The [n] bytes from offset [off]. *)
Definition slice (off n : Z) (l : list Z) : list Z :=
  (fun i => nthb l (off + i)) <$> seqZ 0 n.

(** [memset (buf + off, 0, n)] in a buffer. *)
Definition zeros (n : Z) : list Z := replicate (Z.to_nat n) 0.

#[global] Instance is_byte_dec x : Decision (is_byte x).
Proof. unfold is_byte. apply _. Defined.

Lemma is_byte_0 : is_byte 0.
Proof. unfold is_byte. lia. Qed.

Lemma nthb_byte l i : Forall is_byte l -> is_byte (nthb l i).
Proof.
  intros Hl. unfold nthb. destruct (l !! Z.to_nat i) eqn:E; simpl; [|apply is_byte_0].
  by eapply Forall_lookup_1.
Qed.

Lemma nthb_lookup l i x : l !! Z.to_nat i = Some x -> nthb l i = x.
Proof. unfold nthb. by intros ->. Qed.

Lemma nthb_ge l i : Z.of_nat (length l) <= i -> nthb l i = 0.
Proof. intros. unfold nthb. by rewrite lookup_ge_None_2 by lia. Qed.

Lemma lookup_nthb l i :
  0 <= i < Z.of_nat (length l) -> l !! Z.to_nat i = Some (nthb l i).
Proof.
  intros Hi. destruct (lookup_lt_is_Some_2 l (Z.to_nat i)) as [x Hx]; [lia|].
  by rewrite Hx, (nthb_lookup _ _ _ Hx).
Qed.

Lemma nthb_insert_eq l i x :
  0 <= i < Z.of_nat (length l) -> nthb (<[Z.to_nat i := x]> l) i = x.
Proof. intros. unfold nthb. rewrite list_lookup_insert_eq by lia. done. Qed.

Lemma nthb_insert_ne l i j x :
  0 <= i -> 0 <= j -> i <> j -> nthb (<[Z.to_nat i := x]> l) j = nthb l j.
Proof. intros. unfold nthb. rewrite list_lookup_insert_ne by lia. done. Qed.

Lemma length_splice off src l : length (splice off src l) = length l.
Proof. apply length_inserts. Qed.

Lemma nthb_splice_in off src l i :
  0 <= off -> off <= i < off + Z.of_nat (length src) ->
  off + Z.of_nat (length src) <= Z.of_nat (length l) ->
  nthb (splice off src l) i = nthb src (i - off).
Proof.
  intros. unfold nthb, splice. rewrite list_lookup_inserts by lia.
  by rewrite Z2Nat.inj_sub by lia.
Qed.

Lemma nthb_splice_out off src l i :
  0 <= off -> 0 <= i -> i < off \/ off + Z.of_nat (length src) <= i ->
  nthb (splice off src l) i = nthb l i.
Proof.
  intros ? ? [?|?]; unfold nthb, splice.
  - by rewrite list_lookup_inserts_lt by lia.
  - by rewrite list_lookup_inserts_ge by lia.
Qed.

Lemma nthb_zeros n i : nthb (zeros n) i = 0.
Proof.
  unfold nthb, zeros. destruct (replicate _ _ !! _) eqn:E; [|done].
  apply lookup_replicate in E as [-> _]. done.
Qed.

Lemma length_zeros n : length (zeros n) = Z.to_nat n.
Proof. apply length_replicate. Qed.

Lemma length_slice off n l : length (slice off n l) = Z.to_nat n.
Proof. unfold slice. by rewrite length_fmap, length_seqZ. Qed.

Lemma nthb_app (c q : list Z) o :
  0 <= o -> nthb (c ++ q) o = if o <? Z.of_nat (length c) then nthb c o else nthb q (o - Z.of_nat (length c)).
Proof.
  intros Ho. unfold nthb. destruct (Z.ltb_spec o (Z.of_nat (length c))).
  - by rewrite lookup_app_l by lia.
  - rewrite lookup_app_r by lia. do 2 f_equal. lia.
Qed.

Lemma nthb_slice off n l i :
  0 <= i < n -> nthb (slice off n l) i = nthb l (off + i).
Proof.
  intros. unfold slice. unfold nthb at 1. rewrite list_lookup_fmap.
  rewrite lookup_seqZ_lt by lia. simpl. by rewrite Z2Nat.id by lia.
Qed.

(** Two buffers of one length with the same bytes are equal. *)
Lemma nthb_ext l1 l2 :
  length l1 = length l2 ->
  (forall i, 0 <= i < Z.of_nat (length l1) -> nthb l1 i = nthb l2 i) -> l1 = l2.
Proof.
  intros Hlen H. apply list_eq_same_length with (length l1); [done..|].
  intros i x y Hi Hx Hy. specialize (H (Z.of_nat i) ltac:(lia)).
  unfold nthb in H. rewrite Nat2Z.id, Hx, Hy in H. done.
Qed.

Lemma Forall_splice P off src l :
  Forall P src -> Forall P l -> Forall P (splice off src l).
Proof.
  intros Hs Hl. apply Forall_lookup_2. intros i x Hx. unfold splice in Hx.
  apply list_lookup_inserts_Some in Hx.
  destruct Hx as [[_ Hx]|(_ & _ & Hx)];
    [exact (Forall_lookup_1 _ _ _ _ Hl Hx)|exact (Forall_lookup_1 _ _ _ _ Hs Hx)].
Qed.

Lemma Forall_slice off n l : Forall is_byte l -> Forall is_byte (slice off n l).
Proof. intros. apply Forall_fmap, Forall_true. intros. by apply nthb_byte. Qed.

Lemma Forall_zeros n : Forall is_byte (zeros n).
Proof. apply Forall_replicate, is_byte_0. Qed.

Lemma slice_splice_eq off src l :
  0 <= off -> off + Z.of_nat (length src) <= Z.of_nat (length l) ->
  slice off (Z.of_nat (length src)) (splice off src l) = src.
Proof.
  intros. apply nthb_ext; rewrite length_slice; [lia|].
  intros i Hi. rewrite nthb_slice, nthb_splice_in by lia. f_equal. lia.
Qed.

Lemma slice_splice_ne off src l a n :
  0 <= off -> 0 <= a ->
  a + n <= off \/ off + Z.of_nat (length src) <= a ->
  slice a n (splice off src l) = slice a n l.
Proof.
  intros. apply nthb_ext; rewrite !length_slice; [done|].
  intros i Hi. rewrite !nthb_slice, nthb_splice_out by lia. done.
Qed.

Lemma splice_all src l : length src = length l -> splice 0 src l = src.
Proof.
  intros Hl. apply nthb_ext; rewrite length_splice; [done|]. intros k Hk.
  rewrite nthb_splice_in by lia. f_equal. lia.
Qed.

Lemma slice_all l : slice 0 (Z.of_nat (length l)) l = l.
Proof.
  apply nthb_ext; rewrite length_slice; [lia|].
  intros i Hi. by rewrite nthb_slice by lia.
Qed.

Lemma slice_app_r (l1 l2 : list Z) off n :
  Z.of_nat (length l1) <= off -> slice off n (l1 ++ l2) = slice (off - Z.of_nat (length l1)) n l2.
Proof.
  intros Ho. unfold slice. apply list_fmap_ext. intros k x Hx. apply lookup_seqZ in Hx.
  unfold nthb. rewrite lookup_app_r by lia. do 2 f_equal. lia.
Qed.

Lemma slice_app_l (l1 l2 : list Z) n :
  Z.of_nat (length l1) = n -> slice 0 n (l1 ++ l2) = l1.
Proof.
  intros Hn. apply nthb_ext; rewrite length_slice; [lia|]. intros k Hk.
  rewrite nthb_slice by lia. unfold nthb. rewrite lookup_app_l by lia. done.
Qed.

(** Updating one element of a table whose value is known. *)
Lemma list_alter_Some {A} (f : A -> A) (l : list A) i x :
  l !! i = Some x -> alter f i l = <[i := f x]> l.
Proof.
  intros H. apply list_eq. intros j. destruct (decide (i = j)) as [->|Hne].
  - rewrite list_lookup_alter_eq, H. simpl.
    by rewrite list_lookup_insert_eq by (by eapply lookup_lt_Some).
  - by rewrite list_lookup_alter_ne, list_lookup_insert_ne.
Qed.

Lemma list_alter_insert_same {A} (f : A -> A) (l : list A) i x :
  (i < length l)%nat -> alter f i (<[i := x]> l) = <[i := f x]> l.
Proof.
  intros H. rewrite (list_alter_Some _ _ _ x) by (by apply list_lookup_insert_eq).
  by rewrite list_insert_insert_eq.
Qed.

(** ** Little-endian integers in byte buffers *)

Fixpoint le_enc (n : nat) (v : Z) : list Z :=
  match n with
  | O => []
  | S n => v mod 256 :: le_enc n (v / 256)
  end.

Fixpoint le_dec (l : list Z) : Z :=
  match l with
  | [] => 0
  | b :: l => b + 256 * le_dec l
  end.

Lemma length_le_enc n v : length (le_enc n v) = n.
Proof. revert v. induction n; intros; simpl; auto. Qed.

Lemma Forall_le_enc n v : Forall is_byte (le_enc n v).
Proof.
  revert v. induction n; intros; simpl; constructor; auto.
  apply Z.mod_pos_bound. lia.
Qed.

Lemma le_dec_enc n v : 0 <= v < 256 ^ Z.of_nat n -> le_dec (le_enc n v) = v.
Proof.
  revert v. induction n as [|n IH]; intros v Hv; simpl.
  - change (256 ^ Z.of_nat 0) with 1 in Hv. lia.
  - rewrite Nat2Z.inj_succ, Z.pow_succ_r in Hv by lia.
    rewrite IH by (split; [apply Z.div_pos; lia | apply Z.div_lt_upper_bound; lia]).
    pose proof (Z.div_mod v 256). lia.
Qed.

Lemma le_dec_range l :
  Forall is_byte l -> 0 <= le_dec l < 256 ^ Z.of_nat (length l).
Proof.
  induction 1 as [|b l Hb _ IH]; [simpl; lia|]. unfold is_byte in Hb.
  cbn [length le_dec]. rewrite Nat2Z.inj_succ, Z.pow_succ_r by lia. lia.
Qed.

Lemma le_enc_dec l : Forall is_byte l -> le_enc (length l) (le_dec l) = l.
Proof.
  induction 1 as [|b l Hb Hl IH]; [done|]. unfold is_byte in Hb.
  cbn [length le_dec le_enc]. f_equal.
  - symmetry. apply Z.mod_unique with (le_dec l); lia.
  - assert ((b + 256 * le_dec l) / 256 = le_dec l) as ->; [|done].
    symmetry. apply Z.div_unique with b; lia.
Qed.

(** The [uint] stored at byte [off] of a buffer and its assignment; the same
    at 16 bits. *)
Definition get32 (off : Z) (l : list Z) : Z := le_dec (slice off 4 l).
Definition put32 (off v : Z) (l : list Z) : list Z := splice off (le_enc 4 v) l.
Definition get16 (off : Z) (l : list Z) : Z := le_dec (slice off 2 l).
Definition put16 (off v : Z) (l : list Z) : list Z := splice off (le_enc 2 v) l.

Lemma length_put32 off v l : length (put32 off v l) = length l.
Proof. apply length_splice. Qed.

Lemma length_put16 off v l : length (put16 off v l) = length l.
Proof. apply length_splice. Qed.

Lemma get32_put32_eq off v l :
  0 <= off -> off + 4 <= Z.of_nat (length l) -> 0 <= v < 2 ^ 32 ->
  get32 off (put32 off v l) = v.
Proof.
  intros. unfold get32, put32.
  change 4 with (Z.of_nat (length (le_enc 4 v))) at 1.
  rewrite slice_splice_eq by (rewrite ?length_le_enc; lia).
  apply le_dec_enc. lia.
Qed.

(** Writing at the start. *)
Lemma splice_prefix src l : (length src <= length l)%nat -> splice 0 src l = src ++ drop (length src) l.
Proof.
  intros H. unfold splice. rewrite <- (take_drop (length src) l) at 1.
  apply list_inserts_0_r. rewrite length_take. lia.
Qed.

Lemma get32_splice_ne off src l a :
  0 <= off -> 0 <= a -> a + 4 <= off \/ off + Z.of_nat (length src) <= a ->
  get32 a (splice off src l) = get32 a l.
Proof. intros. unfold get32. by rewrite slice_splice_ne. Qed.

Lemma get16_splice_ne off src l a :
  0 <= off -> 0 <= a -> a + 2 <= off \/ off + Z.of_nat (length src) <= a ->
  get16 a (splice off src l) = get16 a l.
Proof. intros. unfold get16. by rewrite slice_splice_ne. Qed.

Lemma get32_put32_ne off v l a :
  0 <= off -> 0 <= a -> a + 4 <= off \/ off + 4 <= a ->
  get32 a (put32 off v l) = get32 a l.
Proof. intros. apply get32_splice_ne; rewrite ?length_le_enc; lia. Qed.

Lemma get32_zeros off n : get32 off (zeros n) = 0.
Proof.
  unfold get32. replace (slice off 4 (zeros n)) with (zeros 4); [done|].
  apply nthb_ext; rewrite length_zeros, ?length_slice; [done|]. intros k Hk.
  rewrite nthb_slice by lia. by rewrite !nthb_zeros.
Qed.

Lemma get32_range off l : Forall is_byte l -> 0 <= get32 off l < 2 ^ 32.
Proof.
  intros. unfold get32. pose proof (le_dec_range (slice off 4 l)) as H0.
  rewrite length_slice in H0. apply H0. by apply Forall_slice.
Qed.

Lemma get16_range off l : Forall is_byte l -> 0 <= get16 off l < 2 ^ 16.
Proof.
  intros. unfold get16. pose proof (le_dec_range (slice off 2 l)) as H0.
  rewrite length_slice in H0. apply H0. by apply Forall_slice.
Qed.

Lemma Forall_put32 off v l : Forall is_byte l -> Forall is_byte (put32 off v l).
Proof. intros. apply Forall_splice; [apply Forall_le_enc|done]. Qed.

Lemma Forall_put16 off v l : Forall is_byte l -> Forall is_byte (put16 off v l).
Proof. intros. apply Forall_splice; [apply Forall_le_enc|done]. Qed.

(** ** Counting loops

    [range lo hi step] lists the values the loop variable of
    [for (i = lo; i < hi; i += step)] takes. *)

Definition range (lo hi step : Z) : list Z :=
  (fun k => lo + k * step) <$> seqZ 0 ((hi - lo + step - 1) / step).

Lemma elem_of_range lo hi step x :
  0 < step ->
  x ∈ range lo hi step <-> exists k, 0 <= k /\ x = lo + k * step /\ x < hi.
Proof.
  intros Hs. unfold range. rewrite list_elem_of_fmap. setoid_rewrite elem_of_seqZ.
  split.
  - intros (k & -> & Hk1 & Hk2). exists k. repeat split; [lia|].
    assert (k + 1 <= (hi - lo + step - 1) / step) as Hle by lia.
    pose proof (Z.mul_div_le (hi - lo + step - 1) step Hs). nia.
  - intros (k & Hk & -> & Hlt). exists k. repeat split; [lia|].
    rewrite Z.add_0_l. apply Z.lt_le_trans with (k + 1); [lia|].
    apply Z.div_le_lower_bound; nia.
Qed.

(** The loop variable has taken all smaller values before. *)
Lemma range_before lo hi step pre x post y :
  0 < step -> range lo hi step = pre ++ x :: post -> y ∈ range lo hi step -> y < x -> y ∈ pre.
Proof.
  intros Hs Hl Hy Hlt. apply list_elem_of_lookup in Hy as [j Hj].
  assert (range lo hi step !! length pre = Some x) as Hx by (rewrite Hl; by apply list_lookup_middle).
  assert (j < length pre)%nat as Hlen.
  { unfold range in Hj, Hx. rewrite list_lookup_fmap in Hj, Hx.
    apply fmap_Some in Hj as (a & Ha & ->). apply fmap_Some in Hx as (c & Hc & ->).
    apply lookup_seqZ in Ha as [-> _]. apply lookup_seqZ in Hc as [-> _]. nia. }
  apply list_elem_of_lookup. exists j. by rewrite Hl, lookup_app_l in Hj by lia.
Qed.

Lemma seqZ_split n pre x post :
  seqZ 0 n = pre ++ x :: post -> x = Z.of_nat (length pre) /\ 0 <= x < n.
Proof.
  intros Hl. assert (seqZ 0 n !! length pre = Some x) as Hx by (rewrite Hl; by apply list_lookup_middle).
  apply lookup_seqZ in Hx. lia.
Qed.

Lemma range_at lo hi step pre x post :
  0 < step -> range lo hi step = pre ++ x :: post ->
  x = lo + Z.of_nat (length pre) * step /\ x < hi.
Proof.
  intros Hs Hl. assert (range lo hi step !! length pre = Some x) as Hx by (rewrite Hl; by apply list_lookup_middle).
  split; [|apply list_elem_of_lookup_2, elem_of_range in Hx as (? & ? & ? & ?); done].
  unfold range in Hx. rewrite list_lookup_fmap in Hx. apply fmap_Some in Hx as (k & Hk & ->).
  apply lookup_seqZ in Hk. lia.
Qed.

(** The C test for wrap-around: [off + n < off]. *)
Lemma wrap_test off n :
  0 <= off < 2 ^ 32 -> 0 <= n < 2 ^ 32 -> (u32 (off + n) <? off) = (2 ^ 32 <=? off + n).
Proof.
  intros Ho Hn. destruct (Z.leb_spec (2 ^ 32) (off + n)) as [H|H].
  - apply Z.ltb_lt. unfold u32.
    rewrite <- (Z.mod_add _ (-1)) by lia. rewrite Z.mod_small; lia.
  - apply Z.ltb_ge. rewrite u32_small; lia.
Qed.

(** The first result of [f] along a list: a loop that returns from inside. *)
Fixpoint first_some {A B} (f : A -> option B) (l : list A) : option B :=
  match l with
  | [] => None
  | x :: l => match f x with
              | Some b => Some b
              | None => first_some f l
              end
  end.

Lemma first_some_Some {A B} (f : A -> option B) l b :
  first_some f l = Some b <->
  exists pre x post, l = pre ++ x :: post /\ f x = Some b /\ Forall (fun y => f y = None) pre.
Proof.
  induction l as [|y l IH]; simpl.
  - split; [done|]. intros (pre & x & post & Hl & _). by destruct pre.
  - destruct (f y) as [c|] eqn:E.
    + split.
      * intros [= <-]. by exists [], y, l.
      * intros (pre & x & post & Hl & Hx & Hpre). destruct pre as [|z pre]; simplify_eq/=; try congruence.
        apply Forall_cons in Hpre as [Hz _]. congruence.
    + rewrite IH. split.
      * intros (pre & x & post & -> & Hx & Hpre). exists (y :: pre), x, post. split_and!; [done|done|by constructor].
      * intros (pre & x & post & Hl & Hx & Hpre). destruct pre as [|z pre]; simplify_eq/=; try congruence.
        apply Forall_cons in Hpre as [_ Hpre]. by exists pre, x, post.
Qed.

Lemma first_some_None {A B} (f : A -> option B) l :
  first_some f l = None <-> Forall (fun y => f y = None) l.
Proof.
  induction l as [|y l IH]; simpl; [done|]. rewrite Forall_cons.
  destruct (f y); [split; [done|by intros [? _]]|]. rewrite IH. tauto.
Qed.

Lemma first_some_app {A B} (f : A -> option B) l1 l2 :
  first_some f (l1 ++ l2) = match first_some f l1 with Some b => Some b | None => first_some f l2 end.
Proof. induction l1 as [|x l1 IH]; [done|]. cbn. by destruct (f x). Qed.

Lemma first_some_ext {A B} (f g : A -> option B) l :
  (forall x, x ∈ l -> f x = g x) -> first_some f l = first_some g l.
Proof.
  induction l as [|x l IH]; intros H; simpl; [done|]. rewrite <- H by left.
  destruct (f x); [done|]. apply IH. intros y Hy. apply H. by right.
Qed.

Lemma fmap_ext_in {A B} (f g : A -> B) (l : list A) : (forall x, x ∈ l -> f x = g x) -> f <$> l = g <$> l.
Proof.
  intros H. apply list_fmap_ext. intros k x Hx. apply H. by eapply list_elem_of_lookup_2.
Qed.

Lemma seqZ_1 m : seqZ m 1 = [m].
Proof. unfold seqZ. simpl. f_equal. Qed.

(** ** Functions on integers *)

(** Update of a function at one place. *)
Definition fupd {A} (k : Z) (v : A) (f : Z -> A) : Z -> A := fun x => if x =? k then v else f x.

Lemma fupd_eq {A} k (v : A) f : fupd k v f k = v.
Proof. unfold fupd. by rewrite Z.eqb_refl. Qed.
Lemma fupd_ne {A} k j (v : A) f : j <> k -> fupd k v f j = f j.
Proof. intros H. unfold fupd. by rewrite (proj2 (Z.eqb_neq j k)). Qed.
