(* ===== verification/Monad.v ===== *)
(** * The kernel monad

    Kernel code is modelled as functions of a component's state that return,
    stop the machine with [panic] or put the caller to sleep on a channel.
    The file holds the monad, the loops the C code is written with, the
    lenses that run a component's code inside a larger state, and the
    weakest-precondition calculus the proofs use. *)

From S2P Require Import Prelude.

(** ** Outcomes *)

(** A sleep channel of the kernel: the address passed to [sleep]/[wakeup]. *)
Inductive chan :=
| ChNone
| ChBuf (b : nat)        (* &bcache.buf[b] *)
| ChInode (ip : nat)     (* &icache.inode[ip] *)
| ChNread (p : Z)        (* &p->nread *)
| ChNwrite (p : Z)       (* &p->nwrite *)
| ChInput                (* &input.r *)
| ChTicks                (* &ticks *)
| ChProc (p : nat).      (* &ptable.proc[p] *)

#[global] Instance chan_eq_dec : EqDecision chan.
Proof. solve_decision. Defined.

(** [Sleep c s]: the caller went to sleep on [c] in state [s].  [Hang s]: a
    loop of the code that has no bound in its text ran past the bound the
    model gives it. *)
Inductive outcome (S A : Type) : Type :=
| Ret (a : A) (s : S)
| Panic (msg : string) (s : S)
| Sleep (c : chan) (s : S)
| Hang (s : S).
Arguments Ret {S A} a s.
Arguments Panic {S A} msg s.
Arguments Sleep {S A} c s.
Arguments Hang {S A} s.

Definition M (S A : Type) : Type := S -> outcome S A.

Definition ret {S A} (a : A) : M S A := fun s => Ret a s.

Definition bind {S A B} (m : M S A) (k : A -> M S B) : M S B := fun s =>
  match m s with
  | Ret a s' => k a s'
  | Panic msg s' => Panic msg s'
  | Sleep c s' => Sleep c s'
  | Hang s' => Hang s'
  end.

Definition panic {S A} (msg : string) : M S A := fun s => Panic msg s.
Definition sleep_on {S A} (c : chan) : M S A := fun s => Sleep c s.
Definition hang {S A} : M S A := fun s => Hang s.
Definition gets {S A} (f : S -> A) : M S A := fun s => Ret (f s) s.
Definition modify {S} (f : S -> S) : M S unit := fun s => Ret tt (f s).

Notation "'let!' x ':=' m 'in' k" := (bind m (fun x => k))
  (at level 200, x name, m at level 100, k at level 200,
   format "'let!'  x  ':='  m  'in' '//' k") : kernel_scope.
Notation "'let!' ' p ':=' m 'in' k" := (bind m (fun p => k))
  (at level 200, p strict pattern, m at level 100, k at level 200,
   format "'let!'  ' p  ':='  m  'in' '//' k") : kernel_scope.
Notation "m ';;;' k" := (bind m (fun _ => k))
  (at level 199, right associativity, format "m ';;;' '//' k") : kernel_scope.
#[global] Open Scope kernel_scope.

(** ** Loops *)

(** [for x in l: f x]. *)
Fixpoint for_each {S A} (l : list A) (f : A -> M S unit) : M S unit :=
  match l with
  | [] => ret tt
  | x :: l => f x;;; for_each l f
  end.

(** [for x in l: f x], left early when the body gives a result. *)
Fixpoint for_find {S A B} (l : list A) (f : A -> M S (option B)) : M S (option B) :=
  match l with
  | [] => ret None
  | x :: l =>
      let! r := f x in
      match r with
      | Some b => ret (Some b)
      | None => for_find l f
      end
  end.

(** [for x in l: acc = f acc x], left early when the body gives a result. *)
Fixpoint for_fold {S A B C} (l : list A) (f : B -> A -> M S (B + C)) (acc : B) : M S (B + C) :=
  match l with
  | [] => ret (inl acc)
  | x :: l =>
      let! r := f acc x in
      match r with
      | inl acc => for_fold l f acc
      | inr c => ret (inr c)
      end
  end.

(** A loop whose body either continues with a new value of the loop variable
    or leaves with a result, at most [fuel] rounds. *)
Fixpoint while_fuel {S A B} (fuel : nat) (f : A -> M S (A + B)) (x : A) : M S B :=
  match fuel with
  | O => hang
  | Datatypes.S fuel =>
      let! r := f x in
      match r with
      | inl x => while_fuel fuel f x
      | inr b => ret b
      end
  end.

(** ** Lenses: running a component inside a larger state *)

Record lens (S T : Type) := Lens { lget : S -> T; lset : T -> S -> S }.
Arguments Lens {S T} lget lset.
Arguments lget {S T} l s.
Arguments lset {S T} l t s.

(** The laws of a lens: what is put is what is read, putting back what was
    read changes nothing, and the last put wins. *)
Class LensLaws {S T} (l : lens S T) : Prop := {
  lget_lset : forall t s, lget l (lset l t s) = t;
  lset_lget : forall s, lset l (lget l s) s = s;
  lset_lset : forall t t' s, lset l t (lset l t' s) = lset l t s;
}.

Definition zoom {S T A} (l : lens S T) (m : M T A) : M S A := fun s =>
  match m (lget l s) with
  | Ret a t => Ret a (lset l t s)
  | Panic msg t => Panic msg (lset l t s)
  | Sleep c t => Sleep c (lset l t s)
  | Hang t => Hang (lset l t s)
  end.

Definition lens_comp {S T U} (l1 : lens S T) (l2 : lens T U) : lens S U :=
  Lens (fun s => lget l2 (lget l1 s))
       (fun u s => lset l1 (lset l2 u (lget l1 s)) s).

#[global] Instance lens_comp_laws {S T U} (l1 : lens S T) (l2 : lens T U) :
  LensLaws l1 -> LensLaws l2 -> LensLaws (lens_comp l1 l2).
Proof.
  intros L1 L2. split; simpl; intros.
  - by rewrite !lget_lset.
  - by rewrite !lset_lget.
  - by rewrite lget_lset, !lset_lset.
Qed.

(** ** Weakest preconditions (total: no panic and no sleep) *)

Definition wp {S A} (m : M S A) (Q : A -> S -> Prop) (s : S) : Prop :=
  match m s with
  | Ret a s' => Q a s'
  | _ => False
  end.

(** The partial form: a panic or a sleep ends the run, so nothing is
    promised after one. *)
Definition wlp {S A} (m : M S A) (Q : A -> S -> Prop) (s : S) : Prop :=
  match m s with
  | Ret a s' => Q a s'
  | _ => True
  end.

(** The exact form: what holds on return and what holds on a panic. *)
Definition wpe {S A} (m : M S A) (Q : A -> S -> Prop) (E : string -> S -> Prop) (s : S) : Prop :=
  match m s with
  | Ret a s' => Q a s'
  | Panic msg s' => E msg s'
  | _ => False
  end.

Lemma wp_Ret {S A} (m : M S A) (Q : A -> S -> Prop) s :
  wp m Q s <-> exists a s', m s = Ret a s' /\ Q a s'.
Proof.
  unfold wp. destruct (m s) as [a s'| | |]; naive_solver.
Qed.

Lemma wp_wlp {S A} (m : M S A) (Q : A -> S -> Prop) s : wp m Q s -> wlp m Q s.
Proof. unfold wp, wlp. by destruct (m s). Qed.

Section rules.
Context {S : Type}.
Implicit Types s : S.

Lemma wp_ret {A} (a : A) (Q : A -> S -> Prop) s : Q a s -> wp (ret a) Q s.
Proof. done. Qed.

Lemma wp_bind {A B} (m : M S A) (k : A -> M S B) Q s :
  wp m (fun a s' => wp (k a) Q s') s -> wp (bind m k) Q s.
Proof. unfold wp, bind. by destruct (m s). Qed.

Lemma wp_bind_iff {A B} (m : M S A) (k : A -> M S B) Q s :
  wp (bind m k) Q s <-> wp m (fun a s' => wp (k a) Q s') s.
Proof. unfold wp, bind. by destruct (m s). Qed.

Lemma wp_mono {A} (m : M S A) (Q R : A -> S -> Prop) s :
  wp m Q s -> (forall a s', Q a s' -> R a s') -> wp m R s.
Proof. unfold wp. destruct (m s); auto. Qed.

Lemma wp_gets {A} (f : S -> A) Q s : Q (f s) s -> wp (gets f) Q s.
Proof. done. Qed.

Lemma wp_modify (f : S -> S) (Q : unit -> S -> Prop) s :
  Q tt (f s) -> wp (modify f) Q s.
Proof. done. Qed.

Lemma wp_zoom {T A} (l : lens S T) (m : M T A) Q s :
  wp m (fun a t => Q a (lset l t s)) (lget l s) -> wp (zoom l m) Q s.
Proof. unfold wp, zoom. by destruct (m (lget l s)). Qed.

Lemma wlp_ret {A} (a : A) (Q : A -> S -> Prop) s : Q a s -> wlp (ret a) Q s.
Proof. done. Qed.

Lemma wlp_bind {A B} (m : M S A) (k : A -> M S B) Q s :
  wlp m (fun a s' => wlp (k a) Q s') s -> wlp (bind m k) Q s.
Proof. unfold wlp, bind. by destruct (m s). Qed.

Lemma wlp_mono {A} (m : M S A) (Q R : A -> S -> Prop) s :
  wlp m Q s -> (forall a s', Q a s' -> R a s') -> wlp m R s.
Proof. unfold wlp. destruct (m s); auto. Qed.

Lemma wlp_panic {A} msg (Q : A -> S -> Prop) s : wlp (panic msg) Q s.
Proof. done. Qed.

Lemma wlp_gets {A} (f : S -> A) Q s : Q (f s) s -> wlp (gets f) Q s.
Proof. done. Qed.

Lemma wlp_modify (f : S -> S) (Q : unit -> S -> Prop) s :
  Q tt (f s) -> wlp (modify f) Q s.
Proof. done. Qed.

Lemma wlp_zoom {T A} (l : lens S T) (m : M T A) Q s :
  wlp m (fun a t => Q a (lset l t s)) (lget l s) -> wlp (zoom l m) Q s.
Proof. unfold wlp, zoom. by destruct (m (lget l s)). Qed.

Lemma wpe_bind {A B} (m : M S A) (k : A -> M S B) Q E s :
  wpe m (fun a s' => wpe (k a) Q E s') E s -> wpe (bind m k) Q E s.
Proof. unfold wpe, bind. by destruct (m s). Qed.

Lemma wpe_assoc {A B C} (m : M S A) (k : A -> M S B) (k' : B -> M S C) Q E s :
  wpe (bind (bind m k) k') Q E s -> wpe (bind m (fun a => bind (k a) k')) Q E s.
Proof. unfold wpe, bind. by destruct (m s). Qed.

Lemma wpe_wp {A} (m : M S A) Q E s : wp m Q s -> wpe m Q E s.
Proof. unfold wp, wpe. by destruct (m s). Qed.

Lemma wpe_mono {A} (m : M S A) (Q Q' : A -> S -> Prop) (E E' : string -> S -> Prop) s :
  wpe m Q E s -> (forall a s', Q a s' -> Q' a s') -> (forall msg s', E msg s' -> E' msg s') ->
  wpe m Q' E' s.
Proof. unfold wpe. destruct (m s); auto. Qed.

Lemma wpe_panic {A} msg (Q : A -> S -> Prop) (E : string -> S -> Prop) s :
  E msg s -> wpe (panic msg) Q E s.
Proof. done. Qed.

Lemma wpe_zoom {T A} (l : lens S T) (m : M T A) Q E s :
  wpe m (fun a t => Q a (lset l t s)) (fun msg t => E msg (lset l t s)) (lget l s) ->
  wpe (zoom l m) Q E s.
Proof. unfold wpe, zoom. by destruct (m (lget l s)). Qed.

(** A run that cannot panic. *)
Lemma wpe_no_panic {A} (m : M S A) (Q : A -> S -> Prop) (E : string -> S -> Prop) s :
  wpe m Q E s -> (forall msg s', ~ E msg s') -> wp m Q s.
Proof. unfold wpe, wp. destruct (m s); naive_solver. Qed.

(** Loop rules: the invariant speaks of the elements already visited. *)
Lemma wp_for_each {A} (I : list A -> S -> Prop) (l : list A) f (Q : unit -> S -> Prop) s :
  I [] s ->
  (forall pre x post s', l = pre ++ x :: post -> I pre s' ->
     wp (f x) (fun _ s'' => I (pre ++ [x]) s'') s') ->
  (forall s', I l s' -> Q tt s') ->
  wp (for_each l f) Q s.
Proof.
  intros H0 Hstep Hend.
  assert (forall post pre s', l = pre ++ post -> I pre s' ->
            wp (for_each post f) (fun _ s'' => I l s'') s') as Hgen.
  { induction post as [|x post IH]; intros pre s' Hl Hi; simpl.
    - rewrite app_nil_r in Hl. subst. by apply wp_ret.
    - apply wp_bind. eapply wp_mono; [by eapply Hstep|]. simpl. intros _ s'' Hi'.
      apply (IH (pre ++ [x])); [by rewrite <- app_assoc|done]. }
  eapply wp_mono; [by apply (Hgen l [] s)|]. intros []. auto.
Qed.

Lemma wp_for_find {A B} (I : list A -> S -> Prop) (l : list A) (f : A -> M S (option B)) Q s :
  I [] s ->
  (forall pre x post s', l = pre ++ x :: post -> I pre s' ->
     wp (f x) (fun r s'' => match r with
                            | Some b => Q (Some b) s''
                            | None => I (pre ++ [x]) s''
                            end) s') ->
  (forall s', I l s' -> Q None s') ->
  wp (for_find l f) Q s.
Proof.
  intros H0 Hstep Hend.
  assert (forall post pre s', l = pre ++ post -> I pre s' ->
            wp (for_find post f) Q s') as Hgen.
  { induction post as [|x post IH]; intros pre s' Hl Hi; simpl.
    - rewrite app_nil_r in Hl. subst. by apply wp_ret, Hend.
    - apply wp_bind. eapply wp_mono; [by eapply Hstep|]. simpl. intros r s'' Hr.
      destruct r; [by apply wp_ret|].
      apply (IH (pre ++ [x])); [by rewrite <- app_assoc|done]. }
  by apply (Hgen l []).
Qed.

Lemma wpe_for_find {A B} (I : list A -> S -> Prop) (l : list A) (f : A -> M S (option B)) Q E s :
  I [] s ->
  (forall pre x post s', l = pre ++ x :: post -> I pre s' ->
     wpe (f x) (fun r s'' => match r with
                             | Some b => Q (Some b) s''
                             | None => I (pre ++ [x]) s''
                             end) E s') ->
  (forall s', I l s' -> Q None s') ->
  wpe (for_find l f) Q E s.
Proof.
  intros H0 Hstep Hend.
  assert (forall post pre s', l = pre ++ post -> I pre s' ->
            wpe (for_find post f) Q E s') as Hgen.
  { induction post as [|x post IH]; intros pre s' Hl Hi; simpl.
    - rewrite app_nil_r in Hl. subst. by apply wpe_wp, wp_ret, Hend.
    - apply wpe_bind. eapply wpe_mono; [by eapply Hstep| |done]. simpl. intros r s'' Hr.
      destruct r; [by apply wpe_wp, wp_ret|].
      apply (IH (pre ++ [x])); [by rewrite <- app_assoc|done]. }
  by apply (Hgen l []).
Qed.

(** A loop with a variant that starts below the fuel terminates. *)
Lemma wpe_while {A B} (I : A -> S -> Prop) (mu : A -> nat) fuel (f : A -> M S (A + B)) Q E x s :
  I x s -> (mu x < fuel)%nat ->
  (forall x s, I x s ->
     wpe (f x) (fun r s' => match r with
                            | inl x' => I x' s' /\ (mu x' < mu x)%nat
                            | inr b => Q b s'
                            end) E s) ->
  wpe (while_fuel fuel f x) Q E s.
Proof.
  intros HI Hlt Hstep. revert x s HI Hlt. induction fuel as [|fuel IH]; intros x s HI Hlt; [lia|].
  simpl. apply wpe_bind. eapply wpe_mono; [by apply Hstep| |done].
  intros [x'|b] s' Hr; cbv beta iota.
  - destruct Hr as [HI' Hmu]. apply IH; [done|lia].
  - by apply wpe_wp, wp_ret.
Qed.

Lemma while_fuel_S {A B} n (f : A -> M S (A + B)) x :
  while_fuel (Datatypes.S n) f x =
  let! r := f x in match r with inl x => while_fuel n f x | inr b => ret b end.
Proof. done. Qed.

(** A loop whose variant decreases does not depend on the fuel above it. *)
Lemma while_fuel_stable {A B} (mu : A -> nat) (f : A -> M S (A + B)) n m x s :
  (forall x s x' s', f x s = Ret (inl x') s' -> (mu x' < mu x)%nat) ->
  (mu x < n)%nat -> (mu x < m)%nat -> while_fuel n f x s = while_fuel m f x s.
Proof.
  intros Hmu. revert m x s. induction n as [|n IH]; intros m x s Hn Hm; [lia|]. destruct m as [|m]; [lia|].
  cbn [while_fuel]. unfold bind. destruct (f x s) as [[x'|b] s'| | |] eqn:E; try done.
  apply Hmu in E. apply IH; lia.
Qed.

End rules.

(** ** Proof automation

    [wstep] takes one step of the program in a [wp] or [wlp] goal; [wsteps]
    takes all the steps that need no specification of a callee. *)

Ltac wstep :=
  cbv beta iota;
  lazymatch goal with
  | |- wp (bind _ _) _ _ => apply wp_bind
  | |- wp (ret _) _ _ => apply wp_ret
  | |- wp (gets _) _ _ => apply wp_gets
  | |- wp (modify _) _ _ => apply wp_modify
  | |- wp (zoom _ _) _ _ => apply wp_zoom
  | |- wpe (bind _ _) _ _ _ => apply wpe_bind
  | |- wpe (ret _) _ _ _ => apply wpe_wp, wp_ret
  | |- wpe (gets _) _ _ _ => apply wpe_wp, wp_gets
  | |- wpe (modify _) _ _ _ => apply wpe_wp, wp_modify
  | |- wpe (panic _) _ _ _ => apply wpe_panic
  | |- wpe (zoom _ _) _ _ _ => apply wpe_zoom
  | |- wlp (bind _ _) _ _ => apply wlp_bind
  | |- wlp (ret _) _ _ => apply wlp_ret
  | |- wlp (panic _) _ _ => apply wlp_panic
  | |- wlp (gets _) _ _ => apply wlp_gets
  | |- wlp (modify _) _ _ => apply wlp_modify
  | |- wlp (zoom _ _) _ _ => apply wlp_zoom
  end.

Ltac wsteps := repeat wstep; cbv beta iota.

(** Use a callee's specification at the head of the goal. *)
Ltac wfocus :=
  repeat (lazymatch goal with
          | |- wp (bind _ _) _ _ => apply wp_bind
          | |- wpe (bind _ _) _ _ _ => apply wpe_bind
          | |- wlp (bind _ _) _ _ => apply wlp_bind
          end; cbv beta).

Tactic Notation "wcall" open_constr(H) :=
  wfocus;
  lazymatch goal with
  | |- wp _ _ _ => eapply wp_mono; [eapply H|]
  | |- wlp _ _ _ => eapply wlp_mono; [eapply H|]
  | |- wpe _ _ _ _ => apply wpe_wp; eapply wp_mono; [eapply H|]
  end.

(** Turn boolean integer tests in the context and the goal into
    propositions, case by case. *)
Ltac zbool :=
  repeat match goal with
  | H : (_ =? _) = true |- _ => apply Z.eqb_eq in H
  | H : (_ =? _) = false |- _ => apply Z.eqb_neq in H
  | H : (_ <? _) = true |- _ => apply Z.ltb_lt in H
  | H : (_ <? _) = false |- _ => apply Z.ltb_ge in H
  | H : (_ <=? _) = true |- _ => apply Z.leb_le in H
  | H : (_ <=? _) = false |- _ => apply Z.leb_gt in H
  | H : (_ && _) = true |- _ => apply andb_prop in H as [? ?]
  | H : (_ && _) = false |- _ => apply andb_false_iff in H
  | H : (_ || _) = true |- _ => apply orb_true_iff in H
  | H : (_ || _) = false |- _ => apply orb_false_elim in H as [? ?]
  | H : negb _ = true |- _ => apply negb_true_iff in H
  | H : negb _ = false |- _ => apply negb_false_iff in H
  end.

(** Case split on the first test of the goal. *)
Ltac zcase :=
  match goal with
  | |- context [if ?b then _ else _] =>
      let E := fresh "E" in destruct b eqn:E; zbool
  end.

Create HintDb kernel.
#[export] Hint Resolve is_byte_0 Forall_zeros Forall_slice Forall_splice
  Forall_put32 Forall_put16 Forall_le_enc : kernel.
#[export] Hint Rewrite length_splice length_slice length_zeros length_put32
  length_put16 length_le_enc : kernel.
