(* ===== verification/Params.v ===== *)
(** * Constants and data formats

    The constants of include/param.h, include/fs.h, include/stat.h,
    include/fcntl.h, include/traps.h, kernel/buf.h and kernel/file.h, and the
    byte layout of the structures that live in disk blocks: the superblock,
    the on-disk inode and the directory entry. *)

From S2P Require Import Prelude.

(** ** include/param.h *)

Definition NPROC : Z := 64.
Definition KSTACKSIZE : Z := 4096.
Definition NOFILE : Z := 16.
Definition NFILE : Z := 100.
Definition NBUF : Z := 10.
Definition NINODE : Z := 50.
Definition NDEV : Z := 10.
Definition ROOTDEV : Z := 1.
Definition USERTOP : Z := 0xA0000.
Definition PHYSTOP : Z := 0x1000000.
Definition MAXARG : Z := 32.

(** ** include/traps.h *)

Definition T_SYSCALL : Z := 64.
Definition T_IRQ0 : Z := 32.
Definition IRQ_TIMER : Z := 0.
Definition IRQ_KBD : Z := 1.
Definition IRQ_COM1 : Z := 4.
Definition IRQ_IDE : Z := 14.
Definition IRQ_ERROR : Z := 19.
Definition IRQ_SPURIOUS : Z := 31.

(** ** include/stat.h, include/fcntl.h *)

Definition T_DIR : Z := 1.
Definition T_FILE : Z := 2.
Definition T_DEV : Z := 3.

Definition O_RDONLY : Z := 0x000.
Definition O_WRONLY : Z := 0x001.
Definition O_RDWR : Z := 0x002.
Definition O_CREATE : Z := 0x200.

(** ** kernel/buf.h, kernel/file.h *)

Definition B_BUSY : Z := 0x1.
Definition B_VALID : Z := 0x2.
Definition B_DIRTY : Z := 0x4.

Definition I_BUSY : Z := 0x1.
Definition I_VALID : Z := 0x2.

(** ** include/fs.h *)

Definition ROOTINO : Z := 1.
Definition BSIZE : Z := 512.
Definition NDIRECT : Z := 11.
Definition NINDIRECT : Z := BSIZE / 4.
Definition MAXFILE : Z := NDIRECT + NINDIRECT.
Definition DIRSIZ : Z := 14.

Record superblock := Superblock {
  sb_size : Z;
  sb_nblocks : Z;
  sb_ninodes : Z;
}.

(** The bytes of a [struct superblock] at the start of a block. *)
Definition superblock_at (d : list Z) : superblock :=
  Superblock (get32 0 d) (get32 4 d) (get32 8 d).

(** On-disk inode: four shorts, the size, NDIRECT+1 addresses and the tag
    block, 64 bytes in all. *)
Record dinode := Dinode {
  di_type : Z;
  di_major : Z;
  di_minor : Z;
  di_nlink : Z;
  di_size : Z;
  di_addrs : list Z;
  di_tags : Z;
}.

Definition sizeof_dinode : Z := 2 + 2 + 2 + 2 + 4 + (NDIRECT + 1) * 4 + 4.

(** Inodes per block, the block of an inode, bitmap bits per block and the
    block of a block's bitmap bit. *)
Definition IPB : Z := BSIZE / sizeof_dinode.
Definition IBLOCK (i : Z) : Z := i / IPB + 2.
Definition BPB : Z := BSIZE * 8.
Definition BBLOCK (b ninodes : Z) : Z := b / BPB + ninodes / IPB + 3.

(** The address array stored at byte [off]. *)
Definition addrs_at (off : Z) (d : list Z) : list Z :=
  (fun k => get32 (off + 4 * k) d) <$> seqZ 0 (NDIRECT + 1).

(** The inode stored in slot [k] of an inode block. *)
Definition dinode_at (k : Z) (d : list Z) : dinode :=
  let o := k * sizeof_dinode in
  Dinode (s16 (get16 o d)) (s16 (get16 (o + 2) d)) (s16 (get16 (o + 4) d))
         (s16 (get16 (o + 6) d)) (get32 (o + 8) d) (addrs_at (o + 12) d)
         (get32 (o + 60) d).

(** A directory entry: a 16-bit inode number and DIRSIZ name bytes. *)
Record dirent := Dirent { de_inum : Z; de_name : list Z }.
Definition sizeof_dirent : Z := 2 + DIRSIZ.

Definition dirent_at (off : Z) (d : list Z) : dirent :=
  Dirent (get16 off d) (slice (off + 2) DIRSIZ d).

(** The bytes of a directory entry. *)
Definition dirent_bytes (de : dirent) : list Z :=
  le_enc 2 (de_inum de) ++ slice 0 DIRSIZ (de_name de).

(** ** A block of a disk *)

Definition is_block (d : list Z) : Prop :=
  length d = Z.to_nat BSIZE /\ Forall is_byte d.

Lemma is_block_zeros : is_block (zeros BSIZE).
Proof. split; [apply length_zeros|apply Forall_zeros]. Qed.

Lemma is_block_len d : is_block d -> Z.of_nat (length d) = BSIZE.
Proof. intros [-> _]. done. Qed.

Lemma is_block_splice off src d :
  is_block d -> Forall is_byte src -> is_block (splice off src d).
Proof.
  intros [H1 H2] ?. split; [by rewrite length_splice|by apply Forall_splice].
Qed.

Lemma dirent_at_bytes de d off :
  0 <= off -> off + sizeof_dirent <= Z.of_nat (length d) ->
  0 <= de_inum de < 2 ^ 16 -> length (de_name de) = Z.to_nat DIRSIZ ->
  dirent_at off (splice off (dirent_bytes de) d) = de.
Proof.
  intros Hoff Hlen Hi Hn.
  assert (length (dirent_bytes de) = 16%nat) as Hl.
  { unfold dirent_bytes. rewrite length_app, length_le_enc, length_slice. done. }
  change sizeof_dirent with 16 in *. change DIRSIZ with 14 in *.
  unfold dirent_at. destruct de as [i nm]; simpl in Hi, Hn. f_equal.
  - transitivity (le_dec (le_enc 2 i)); [|apply le_dec_enc; lia].
    unfold get16. f_equal.
    apply nthb_ext; rewrite length_slice; [by rewrite length_le_enc|].
    intros k Hk. rewrite nthb_slice by lia. rewrite nthb_splice_in by lia.
    replace (off + k - off) with k by lia. unfold nthb, dirent_bytes.
    rewrite lookup_app_l by (rewrite length_le_enc; lia). done.
  - apply nthb_ext; rewrite length_slice; [done|].
    change DIRSIZ with 14. intros k Hk. rewrite nthb_slice by lia.
    rewrite nthb_splice_in by lia.
    replace (off + 2 + k - off) with (2 + k) by lia.
    unfold nthb, dirent_bytes.
    rewrite lookup_app_r by (rewrite length_le_enc; lia).
    rewrite length_le_enc. simpl de_name.
    replace (Z.to_nat (2 + k) - 2)%nat with (Z.to_nat k) by lia.
    exact (nthb_slice 0 14 nm k ltac:(lia)).
Qed.
