(* ===== verification/CString.v ===== *)
(** * Strings and memory (kernel/string.c)

    A pointer into a string that is only moved forward is the list of bytes
    from it on; a byte past the end of the list is the terminating NUL.
    [memmove], whose direction matters, is on a flat memory. *)

From S2P Require Import Prelude.

(** ** Definitions *)

(** [*p] and [p + 1]. *)
Definition deref (p : list Z) : Z := default 0 (head p).

Fixpoint strlen (s : list Z) : Z :=
  match s with
  | [] => 0
  | c :: s => if c =? 0 then 0 else 1 + strlen s
  end.

Fixpoint strncmp (n : nat) (p q : list Z) : Z :=
  match n with
  | O => 0
  | S n =>
      if negb (deref p =? 0) && (deref p =? deref q) then strncmp n (tail p) (tail q)
      else u8 (deref p) - u8 (deref q)
  end.

(** The [n] bytes [strncpy] writes at [s]. *)
Fixpoint strncpy (n : nat) (t : list Z) : list Z :=
  match n with
  | O => []
  | S n => deref t :: (if deref t =? 0 then zeros (Z.of_nat n) else strncpy n (tail t))
  end.

(** The bytes [safestrcpy] writes at [s]. *)
Fixpoint safestrcpy_loop (n : nat) (t : list Z) : list Z :=
  match n with
  | O => [0]
  | S n => if deref t =? 0 then [0; 0] else deref t :: safestrcpy_loop n (tail t)
  end.

Fixpoint memcmp (n : nat) (s1 s2 : list Z) : Z :=
  match n with
  | O => 0
  | S n =>
      if deref s1 =? deref s2 then memcmp n (tail s1) (tail s2)
      else deref s1 - deref s2
  end.

(** The characters of a literal, without and with the NUL. *)
Definition bytes_of (s : string) : list Z :=
  (fun a => Z.of_nat (Ascii.nat_of_ascii a)) <$> String.list_ascii_of_string s.
Definition cbytes (s : string) : list Z := bytes_of s ++ [0].

(** A flat memory. *)
Definition mem : Type := Z -> Z.
Definition mset (a v : Z) (m : mem) : mem := fun x => if x =? a then v else m x.

(** Bytes from address [a] on; addresses have 32 bits. *)
Definition store_bytes (a : Z) (l : list Z) (m : mem) : mem := fun x =>
  if u32 (x - a) <? Z.of_nat (length l) then nthb l (u32 (x - a)) else m x.
Definition load_bytes (a n : Z) (m : mem) : list Z := (fun i => m (u32 (a + i))) <$> seqZ 0 n.

(** [while(n-- > 0) *d++ = *s++;] *)
Fixpoint copy_up (n : nat) (d s : Z) (m : mem) : mem :=
  match n with
  | O => m
  | S n => copy_up n (d + 1) (s + 1) (mset d (m s) m)
  end.

(** [while(n-- > 0) *--d = *--s;] *)
Fixpoint copy_down (n : nat) (d s : Z) (m : mem) : mem :=
  match n with
  | O => m
  | S n => copy_down n (d - 1) (s - 1) (mset (d - 1) (m (s - 1)) m)
  end.

Definition memmove (d s : Z) (n : nat) (m : mem) : mem :=
  if (s <? d) && (d <? s + Z.of_nat n)
  then copy_down n (d + Z.of_nat n) (s + Z.of_nat n) m
  else copy_up n d s m.

Fixpoint memset (d c : Z) (n : nat) (m : mem) : mem :=
  match n with
  | O => m
  | S n => memset (d + 1) c n (mset d (u8 c) m)
  end.

(** The bytes before the NUL. *)
Definition cstr (s : list Z) : list Z := take (Z.to_nat (strlen s)) s.

(** ** Runs of bytes *)

Lemma store_in a l m x :
  0 <= a -> a <= x < a + Z.of_nat (length l) -> x < 2 ^ 32 -> store_bytes a l m x = nthb l (x - a).
Proof. intros Ha Hx Hl. unfold store_bytes. rewrite u32_small by lia. by rewrite (proj2 (Z.ltb_lt _ _)) by lia. Qed.

Lemma store_out a l m x :
  0 <= a -> a + Z.of_nat (length l) <= 2 ^ 32 -> 0 <= x < 2 ^ 32 -> x < a \/ a + Z.of_nat (length l) <= x ->
  store_bytes a l m x = m x.
Proof.
  intros Ha Hl Hx Hout. unfold store_bytes. rewrite (proj2 (Z.ltb_ge _ _)); [done|]. destruct Hout as [Hlt|Hge].
  - unfold u32. rewrite <- (Z_mod_plus_full _ 1), Z.mod_small by lia. lia.
  - rewrite u32_small; lia.
Qed.

Lemma length_load_bytes a n m : length (load_bytes a n m) = Z.to_nat n.
Proof. unfold load_bytes. by rewrite length_fmap, length_seqZ. Qed.

Lemma load_bytes_ext a n m m' :
  (forall i, 0 <= i < n -> m' (u32 (a + i)) = m (u32 (a + i))) -> load_bytes a n m' = load_bytes a n m.
Proof.
  intros H. unfold load_bytes. apply list_fmap_ext. intros i k Hk. apply lookup_seqZ in Hk as [-> Hi].
  apply H. lia.
Qed.

Lemma load_store a l m :
  0 <= a -> a + Z.of_nat (length l) <= 2 ^ 32 -> load_bytes a (Z.of_nat (length l)) (store_bytes a l m) = l.
Proof.
  intros Ha Hl. rewrite <- (slice_all l) at 3. unfold load_bytes, slice. apply list_fmap_ext. intros i k Hk.
  apply lookup_seqZ in Hk as [-> Hi]. rewrite u32_small, store_in by lia. f_equal. lia.
Qed.

Lemma load_store_ne a n b l m :
  0 <= a -> a + n <= 2 ^ 32 -> 0 <= b -> b + Z.of_nat (length l) <= 2 ^ 32 ->
  a + n <= b \/ b + Z.of_nat (length l) <= a ->
  load_bytes a n (store_bytes b l m) = load_bytes a n m.
Proof. intros. apply load_bytes_ext. intros i Hi. rewrite u32_small, store_out by lia. done. Qed.

Lemma slice_load_bytes a n o k m :
  0 <= o -> o + k <= n -> slice o k (load_bytes a n m) = load_bytes (a + o) k m.
Proof.
  intros Ho Hk. unfold slice, load_bytes. apply list_fmap_ext. intros i x Hx.
  apply lookup_seqZ in Hx as [-> Hi]. unfold nthb. rewrite list_lookup_fmap, lookup_seqZ_lt by lia.
  simpl. f_equal. f_equal. lia.
Qed.

(** ** memmove and memset *)

Lemma mset_eq a v m : mset a v m a = v.
Proof. unfold mset. by rewrite Z.eqb_refl. Qed.

Lemma mset_ne a v m x : x <> a -> mset a v m x = m x.
Proof. unfold mset. intros. by rewrite (proj2 (Z.eqb_neq x a)). Qed.

Lemma copy_up_spec n d s m x :
  (s < d -> s + Z.of_nat n <= d) ->
  copy_up n d s m x = if (d <=? x) && (x <? d + Z.of_nat n) then m (s + (x - d)) else m x.
Proof.
  revert d s m. induction n as [|n IH]; intros d s m Hov; cbn [copy_up].
  { destruct (Z.leb_spec d x), (Z.ltb_spec x (d + Z.of_nat 0)); simpl; [lia|done..]. }
  rewrite IH by lia.
  destruct (Z.leb_spec (d + 1) x), (Z.ltb_spec x (d + 1 + Z.of_nat n)), (Z.leb_spec d x),
    (Z.ltb_spec x (d + Z.of_nat (S n))); simpl; try lia.
  - rewrite mset_ne by lia. f_equal. lia.
  - rewrite mset_ne by lia. done.
  - replace x with d by lia. rewrite mset_eq. f_equal. lia.
  - rewrite mset_ne by lia. done.
Qed.

Lemma copy_down_spec n d s m x :
  (d < s -> d <= s - Z.of_nat n) ->
  copy_down n d s m x =
  if (d - Z.of_nat n <=? x) && (x <? d) then m (s - (d - x)) else m x.
Proof.
  revert d s m. induction n as [|n IH]; intros d s m Hov; cbn [copy_down].
  { destruct (Z.leb_spec (d - Z.of_nat 0) x), (Z.ltb_spec x d); simpl; [lia|done..]. }
  rewrite IH by lia.
  destruct (Z.leb_spec (d - 1 - Z.of_nat n) x), (Z.ltb_spec x (d - 1)),
    (Z.leb_spec (d - Z.of_nat (S n)) x), (Z.ltb_spec x d); simpl; try lia.
  - rewrite mset_ne by lia. f_equal. lia.
  - replace x with (d - 1) by lia. rewrite mset_eq. f_equal. lia.
  - rewrite mset_ne by lia. done.
  - rewrite mset_ne by lia. done.
Qed.

(** [memmove] copies as if through a temporary, however the ranges
    overlap. *)
Lemma memmove_spec d s n m x :
  memmove d s n m x = if (d <=? x) && (x <? d + Z.of_nat n) then m (s + (x - d)) else m x.
Proof.
  unfold memmove. destruct (Z.ltb_spec s d), (Z.ltb_spec d (s + Z.of_nat n)); simpl.
  - rewrite copy_down_spec by lia. replace (d + Z.of_nat n - Z.of_nat n) with d by lia.
    destruct (_ && _); [f_equal; lia|done].
  - rewrite copy_up_spec by lia. done.
  - rewrite copy_up_spec by lia. done.
  - rewrite copy_up_spec by lia. done.
Qed.

Lemma memset_spec d c n m x :
  memset d c n m x = if (d <=? x) && (x <? d + Z.of_nat n) then u8 c else m x.
Proof.
  revert d m. induction n as [|n IH]; intros d m; cbn [memset].
  { destruct (Z.leb_spec d x), (Z.ltb_spec x (d + Z.of_nat 0)); simpl; [lia|done..]. }
  rewrite IH.
  destruct (Z.leb_spec (d + 1) x), (Z.ltb_spec x (d + 1 + Z.of_nat n)), (Z.leb_spec d x),
    (Z.ltb_spec x (d + Z.of_nat (S n))); simpl; try lia; try done.
  - rewrite mset_ne by lia. done.
  - replace x with d by lia. by rewrite mset_eq.
  - rewrite mset_ne by lia. done.
Qed.

(** ** Strings *)

Lemma deref_nthb p : deref p = nthb p 0.
Proof. by destruct p. Qed.

Lemma nthb_tail p k : 0 <= k -> nthb (tail p) k = nthb p (k + 1).
Proof.
  intros Hk. destruct p as [|c p]; [done|]. unfold nthb. simpl.
  by replace (Z.to_nat (k + 1)) with (S (Z.to_nat k)) by lia.
Qed.

Lemma nthb_cons c p k : 0 < k -> nthb (c :: p) k = nthb p (k - 1).
Proof.
  intros Hk. change p with (tail (c :: p)) at 2. rewrite nthb_tail by lia. f_equal. lia.
Qed.

Lemma strlen_nonneg s : 0 <= strlen s.
Proof. induction s as [|c s IH]; simpl; [lia|]. destruct (c =? 0); lia. Qed.

(** The index of the first NUL. *)
Lemma strlen_length l : strlen l <= Z.of_nat (length l).
Proof. induction l as [|c l IH]; simpl; [lia|]. destruct (c =? 0); lia. Qed.

Lemma strlen_spec s :
  nthb s (strlen s) = 0 /\ forall k, 0 <= k < strlen s -> nthb s k <> 0.
Proof.
  induction s as [|c s [IH1 IH2]]; simpl; [split; [done|lia]|].
  pose proof (strlen_nonneg s). destruct (Z.eqb_spec c 0) as [->|Hc]; [split; [done|lia]|].
  split.
  - rewrite nthb_cons by lia. by replace (1 + strlen s - 1) with (strlen s) by lia.
  - intros k Hk. destruct (Z.eq_dec k 0) as [->|]; [done|]. rewrite nthb_cons by lia. apply IH2. lia.
Qed.

Lemma strlen_unique s n :
  0 <= n -> nthb s n = 0 -> (forall k, 0 <= k < n -> nthb s k <> 0) -> strlen s = n.
Proof.
  intros Hn H0 Hk. destruct (strlen_spec s) as [E1 E2]. pose proof (strlen_nonneg s).
  destruct (Z.lt_trichotomy (strlen s) n) as [Hlt|[|Hlt]]; [|done|].
  - by destruct (Hk (strlen s)).
  - by destruct (E2 n).
Qed.

Lemma nthb_take l n k : 0 <= k -> nthb (take n l) k = if k <? Z.of_nat n then nthb l k else 0.
Proof.
  intros Hk. unfold nthb. destruct (Z.ltb_spec k (Z.of_nat n)).
  - by rewrite lookup_take_lt by lia.
  - by rewrite lookup_take_ge by lia.
Qed.

Lemma length_cstr l : Z.of_nat (length (cstr l)) = strlen l.
Proof.
  unfold cstr. rewrite length_take. pose proof (strlen_length l). pose proof (strlen_nonneg l). lia.
Qed.

Lemma nthb_cstr l k : 0 <= k -> nthb (cstr l) k = if k <? strlen l then nthb l k else 0.
Proof.
  intros Hk. unfold cstr. rewrite nthb_take by done. pose proof (strlen_nonneg l).
  by rewrite Z2Nat.id by lia.
Qed.

(** Two strings have the same bytes before the NUL when they agree up to and
    including the NUL of the first. *)
Lemma cstr_eq a b :
  cstr a = cstr b <-> forall x, 0 <= x <= strlen a -> nthb a x = nthb b x.
Proof.
  pose proof (strlen_spec a) as [A0 A1]. pose proof (strlen_spec b) as [B0 B1].
  pose proof (strlen_nonneg a). pose proof (strlen_nonneg b). split.
  - intros E x Hx. assert (strlen a = strlen b) as El by (rewrite <- !length_cstr; by rewrite E).
    destruct (Z.eq_dec x (strlen a)) as [->|].
    + rewrite A0. by rewrite El, B0.
    + apply (f_equal (fun l => nthb l x)) in E. rewrite !nthb_cstr in E by lia.
      rewrite (proj2 (Z.ltb_lt x (strlen a))), (proj2 (Z.ltb_lt x (strlen b))) in E by lia. done.
  - intros Hx. assert (strlen b = strlen a) as El.
    { apply strlen_unique; [lia|rewrite <- Hx by lia; done|].
      intros k Hk. rewrite <- Hx by lia. by apply A1. }
    apply nthb_ext; [apply Nat2Z.inj; by rewrite !length_cstr|].
    intros k Hk. rewrite length_cstr in Hk. rewrite !nthb_cstr, El by lia.
    destruct (Z.ltb_spec k (strlen a)); [apply Hx; lia|done].
Qed.

(** [strncmp] is 0 exactly when the strings agree up to the first NUL or
    [n] bytes. *)
Lemma strncmp_eq n p q :
  Forall is_byte p -> Forall is_byte q ->
  strncmp n p q = 0 <->
  forall k, 0 <= k < Z.of_nat n -> (forall j, 0 <= j < k -> nthb p j <> 0) -> nthb p k = nthb q k.
Proof.
  revert p q. induction n as [|n IH]; intros p q Hp Hq; cbn [strncmp]; [split; [lia|done]|].
  pose proof (nthb_byte p 0 Hp) as B1. pose proof (nthb_byte q 0 Hq) as B2.
  rewrite !deref_nthb. destruct (Z.eqb_spec (nthb p 0) 0) as [E0|E0]; simpl.
  - rewrite !u8_small by done. split.
    + intros E k Hk Hj. destruct (Z.eq_dec k 0) as [->|]; [lia|]. by destruct (Hj 0); [lia|].
    + intros Hk. rewrite (Hk 0); [lia|lia|lia].
  - destruct (Z.eqb_spec (nthb p 0) (nthb q 0)) as [E|E].
    + rewrite IH by (by apply Forall_tail). split; intros Hall k Hk Hj.
      * destruct (Z.eq_dec k 0) as [->|]; [done|].
        specialize (Hall (k - 1) ltac:(lia)). rewrite !nthb_tail in Hall by lia.
        replace (k - 1 + 1) with k in Hall by lia. apply Hall.
        intros j Hj'. rewrite nthb_tail by lia. apply Hj. lia.
      * rewrite !nthb_tail by lia. apply Hall; [lia|]. intros j Hj'.
        destruct (Z.eq_dec j 0) as [->|]; [done|]. specialize (Hj (j - 1) ltac:(lia)).
        rewrite nthb_tail in Hj by lia. by replace (j - 1 + 1) with j in Hj by lia.
    + rewrite !u8_small by done. split; [lia|]. intros Hall. destruct E. apply Hall; lia.
Qed.

(** [strncpy] writes exactly [n] bytes: the string, padded with NULs. *)
Lemma strncpy_spec n t k :
  0 <= k < Z.of_nat n ->
  nthb (strncpy n t) k = if k <? strlen t then nthb t k else 0.
Proof.
  revert t k. induction n as [|n IH]; intros t k Hk; [lia|]. cbn [strncpy].
  destruct t as [|c t]; cbn [deref head default tail strlen].
  { simpl. destruct (Z.ltb_spec k 0); [lia|]. destruct (Z.eq_dec k 0) as [->|]; [done|].
    rewrite nthb_cons by lia. apply nthb_zeros. }
  simpl. pose proof (strlen_nonneg t). destruct (Z.eqb_spec c 0) as [->|Hc].
  - destruct (Z.ltb_spec k 0); [lia|]. destruct (Z.eq_dec k 0) as [->|]; [done|].
    rewrite nthb_cons by lia. apply nthb_zeros.
  - destruct (Z.eq_dec k 0) as [->|].
    + by rewrite (proj2 (Z.ltb_lt 0 (1 + strlen t))) by lia.
    + rewrite !nthb_cons by lia. rewrite IH by lia.
      destruct (Z.ltb_spec (k - 1) (strlen t)), (Z.ltb_spec k (1 + strlen t)); (done || lia).
Qed.

Lemma length_strncpy n t : length (strncpy n t) = n.
Proof.
  revert t. induction n as [|n IH]; intros t; [done|]. cbn [strncpy]. simpl. f_equal.
  destruct (deref t =? 0); [rewrite length_zeros; lia|apply IH].
Qed.

Lemma Forall_strncpy n t : Forall is_byte t -> Forall is_byte (strncpy n t).
Proof.
  revert t. induction n as [|n IH]; intros t Ht; [constructor|]. cbn [strncpy]. constructor.
  - rewrite deref_nthb. by apply nthb_byte.
  - destruct (deref t =? 0); [apply Forall_zeros|]. apply IH. by apply Forall_tail.
Qed.

(** A name and its copy in a [DIRSIZ]-byte field compare equal. *)
Lemma strncmp_strncpy n t : Forall is_byte t -> strncmp n t (strncpy n t) = 0.
Proof.
  intros Ht. apply strncmp_eq; [done|by apply Forall_strncpy|]. intros k Hk Hj.
  rewrite strncpy_spec by done. destruct (Z.ltb_spec k (strlen t)); [done|].
  destruct (strlen_spec t) as [E _]. destruct (Z.eq_dec k (strlen t)) as [->|]; [done|].
  pose proof (strlen_nonneg t). by destruct (Hj (strlen t)); [lia|].
Qed.

(** [safestrcpy] with room for [S n] bytes ends in a NUL and never writes
    more. *)
Lemma safestrcpy_spec n t :
  (length (safestrcpy_loop n t) <= S n)%nat /\ last (safestrcpy_loop n t) = Some 0.
Proof.
  revert t. induction n as [|n IH]; intros t; cbn [safestrcpy_loop]; [done|].
  destruct (deref t =? 0); [split; [simpl; lia|done]|]. destruct (IH (tail t)) as [Hl Hz].
  split; [simpl; lia|]. destruct (safestrcpy_loop n (tail t)); [done|exact Hz].
Qed.

Lemma memcmp_eq n s1 s2 :
  memcmp n s1 s2 = 0 <-> forall k, 0 <= k < Z.of_nat n -> nthb s1 k = nthb s2 k.
Proof.
  revert s1 s2. induction n as [|n IH]; intros s1 s2; cbn [memcmp]; [split; [lia|done]|].
  rewrite !deref_nthb. destruct (Z.eqb_spec (nthb s1 0) (nthb s2 0)) as [E|E].
  - rewrite IH. split; intros Hall k Hk.
    + destruct (Z.eq_dec k 0) as [->|]; [done|]. specialize (Hall (k - 1) ltac:(lia)).
      rewrite !nthb_tail in Hall by lia. by replace (k - 1 + 1) with k in Hall by lia.
    + rewrite !nthb_tail by lia. apply Hall. lia.
  - split; [lia|]. intros Hall. destruct E. apply Hall. lia.
Qed.
