(* ===== verification/Kalloc.v ===== *)
(** * The physical page allocator (kernel/kalloc.c)

    Free pages are linked through their first word.  The definitions keep the
    list in the pages as the code does; [free_list] relates it to a list of
    addresses, and the allocator is shown to be a stack of distinct pages. *)

From S2P Require Import Prelude Monad Params.

(** ** Definitions *)

Definition PGSIZE : Z := 4096.

(** [PGROUNDUP] and [PGROUNDDOWN] on 32-bit addresses. *)
Definition PGROUNDDOWN (a : Z) : Z := Z.land (u32 a) (u32 (Z.lnot (PGSIZE - 1))).
Definition PGROUNDUP (a : Z) : Z := PGROUNDDOWN (a + PGSIZE - 1).

(** What [kfree] fills a page with. *)
Definition junk : list Z := replicate (Z.to_nat PGSIZE) 1.

(** Physical memory by page, and the head of [kmem.freelist] (0 is null). *)
Record kmem := Kmem {
  km_page : gmap Z (list Z);
  km_freelist : Z;
}.
Definition km_set_page v s := Kmem v (km_freelist s).
Definition km_set_freelist v s := Kmem (km_page s) v.

Definition page_at (p : Z) (s : kmem) : list Z := default [] (km_page s !! p).

Section kalloc.
(** [end]: the first address after the kernel, set by the linker. *)
Context (kend : Z).

Definition kfree (v : Z) : M kmem unit :=
  if negb (v mod PGSIZE =? 0) || (v <? kend) || (PHYSTOP <=? v) then panic "kfree"
  else
    modify (fun s => km_set_page (<[v := junk]> (km_page s)) s);;;
    modify (fun s => km_set_page (<[v := put32 0 (km_freelist s) (page_at v s)]> (km_page s)) s);;;
    modify (km_set_freelist v).

Definition kalloc : M kmem Z :=
  let! r := gets km_freelist in
  (if r =? 0 then ret tt
   else modify (fun s => km_set_freelist (get32 0 (page_at r s)) s));;;
  ret r.

(** The pages [kinit] frees, in order. *)
Definition kinit_pages : list Z :=
  range (PGROUNDUP kend) (PHYSTOP - PGSIZE + 1) PGSIZE.

Definition kinit : M kmem unit := for_each kinit_pages kfree.
End kalloc.

(** ** The free list *)

(** A page the allocator manages. *)
Definition valid_page (kend p : Z) : Prop := p mod PGSIZE = 0 /\ kend <= p < PHYSTOP.

#[global] Instance valid_page_dec kend p : Decision (valid_page kend p).
Proof. unfold valid_page. apply _. Defined.

(** The pages on the list from [h] are [l]. *)
Fixpoint chain (s : kmem) (h : Z) (l : list Z) : Prop :=
  match l with
  | [] => h = 0
  | p :: l => h = p /\ p <> 0 /\ chain s (get32 0 (page_at p s)) l
  end.

Record free_list (kend : Z) (s : kmem) (l : list Z) : Prop := {
  fl_chain : chain s (km_freelist s) l;
  fl_nodup : NoDup l;
  fl_valid : Forall (valid_page kend) l;
}.

Lemma chain_ext s s' h l :
  (forall p, p ∈ l -> page_at p s' = page_at p s) -> chain s h l -> chain s' h l.
Proof.
  revert h. induction l as [|p l IH]; intros h Hp Hc; simpl in *; [done|].
  destruct Hc as (-> & Hnz & Hc). split_and!; [done|done|].
  rewrite Hp by set_solver. apply IH; [set_solver|done].
Qed.

Lemma page_at_insert p q d s : page_at p (km_set_page (<[q := d]> (km_page s)) s) =
  if decide (p = q) then d else page_at p s.
Proof.
  unfold page_at. simpl. case_decide as E; [subst; by rewrite lookup_insert_eq|].
  by rewrite lookup_insert_ne.
Qed.

(** ** Specifications *)

Section specs.
Context (kend : Z) (Hkend : 0 < kend).

Lemma valid_range p : valid_page kend p -> 0 < p < 2 ^ 32.
Proof. intros [_ [? ?]]. assert (PHYSTOP < 2 ^ 32) by done. lia. Qed.

(** [kalloc] pops the list; an empty list gives 0. *)
Lemma kalloc_spec s l :
  free_list kend s l ->
  wp kalloc (fun r s' => km_page s' = km_page s /\ free_list kend s' (tail l) /\
    r = default 0 (head l)) s.
Proof.
  intros [Hc Hn Hv]. unfold kalloc. wsteps. destruct l as [|p l]; simpl in Hc.
  - rewrite Hc. simpl. wsteps. split_and!; [done|by split|done].
  - destruct Hc as (-> & Hnz & Hc). rewrite (proj2 (Z.eqb_neq p 0)) by done. wsteps.
    split_and!; [done| |done]. simpl. inversion_clear Hn. inversion_clear Hv.
    split; [|done..]. eapply chain_ext; [|done]. done.
Qed.

(** [kfree] pushes a page that is not on the list, and panics on an address
    that is no page of the allocator. *)
Lemma kfree_spec s l v :
  free_list kend s l -> valid_page kend v -> v ∉ l ->
  wp (kfree kend v) (fun _ s' => free_list kend s' (v :: l) /\
    length (page_at v s') = Z.to_nat PGSIZE /\
    forall p, p <> v -> page_at p s' = page_at p s) s.
Proof.
  intros [Hc Hn Hv] Hval Hni. pose proof (valid_range v Hval) as Hr. destruct Hval as [Hm [Hlo Hhi]].
  unfold kfree. rewrite Hm, (proj2 (Z.ltb_ge v kend)), (proj2 (Z.leb_gt PHYSTOP v)) by lia.
  cbn [negb orb Z.eqb].
  wsteps. rewrite page_at_insert, decide_True by done.
  set (s1 := km_set_page (<[v := junk]> (km_page s)) s). set (d := put32 0 (km_freelist s1) junk).
  assert (forall p, page_at p (km_set_freelist v (km_set_page (<[v := d]> (km_page s1)) s1)) =
    if decide (p = v) then d else page_at p s) as Hp.
  { intros p. etransitivity; [apply (page_at_insert p v d s1)|].
    case_decide; [done|]. unfold s1. rewrite page_at_insert. by rewrite decide_False. }
  split_and!.
  - split; [|by constructor|by constructor]. simpl. split_and!; [done|lia|].
    rewrite Hp, decide_True by done. unfold d. rewrite get32_put32_eq.
    + eapply chain_ext; [|done]. intros p Hin. rewrite Hp, decide_False; [done|]. by intros ->.
    + lia.
    + done.
    + cbn [km_freelist km_set_page s1]. destruct l as [|q l]; simpl in Hc; [lia|]. destruct Hc as [-> _].
      apply Forall_cons in Hv as [Hq _]. pose proof (valid_range q Hq). lia.
  - rewrite Hp, decide_True by done. unfold d. by rewrite length_put32.
  - intros p Hne. by rewrite Hp, decide_False.
Qed.

Lemma kfree_invalid s v :
  ~ valid_page kend v -> kfree kend v s = Panic "kfree" s.
Proof.
  intros Hv. unfold kfree. zcase; [done|]. destruct Hv. split; [done|lia].
Qed.

End specs.

(** ** Initialisation *)

Lemma PGROUNDDOWN_eq a : PGROUNDDOWN a = u32 a / PGSIZE * PGSIZE.
Proof.
  unfold PGROUNDDOWN. change (u32 (Z.lnot (PGSIZE - 1))) with (Z.ldiff (Z.ones 32) (Z.ones 12)).
  assert (Z.land (u32 a) (Z.ldiff (Z.ones 32) (Z.ones 12)) =
          Z.ldiff (Z.land (u32 a) (Z.ones 32)) (Z.ones 12)) as ->.
  { apply Z.bits_inj'. intros n Hn. rewrite !Z.land_spec, !Z.ldiff_spec, Z.land_spec.
    by rewrite andb_assoc. }
  rewrite Z.land_ones by lia. rewrite (Z.mod_small (u32 a)) by apply u32_range.
  rewrite Z.ldiff_ones_r, Z.shiftr_div_pow2, Z.shiftl_mul_pow2 by lia. done.
Qed.

Lemma PGROUNDUP_spec a :
  0 <= a -> a + PGSIZE <= 2 ^ 32 ->
  PGROUNDUP a mod PGSIZE = 0 /\ a <= PGROUNDUP a < a + PGSIZE.
Proof.
  intros Ha Hb. unfold PGROUNDUP. rewrite PGROUNDDOWN_eq, u32_small by (unfold PGSIZE in *; lia).
  split; [by apply Z.mod_mul|].
  pose proof (Z.div_mod (a + PGSIZE - 1) PGSIZE ltac:(done)).
  pose proof (Z.mod_pos_bound (a + PGSIZE - 1) PGSIZE ltac:(done)). lia.
Qed.

(** [kinit] frees every whole page between the kernel and PHYSTOP, once. *)
Lemma kinit_pages_spec kend p :
  0 < kend -> kend <= PHYSTOP ->
  p ∈ kinit_pages kend <-> valid_page kend p.
Proof.
  intros Hk Hle. assert (PHYSTOP + PGSIZE <= 2 ^ 32) by done.
  destruct (PGROUNDUP_spec kend) as [Hm [Hlo Hhi]]; [lia..|].
  unfold kinit_pages, valid_page. rewrite elem_of_range by done.
  set (b := PGROUNDUP kend) in *. assert (PHYSTOP mod PGSIZE = 0) as HP by done.
  split.
  - intros (k & Hk0 & -> & Hlt). split; [|unfold PGSIZE in *; lia].
    rewrite Z.mod_add by done. done.
  - intros (Hpm & Hp). exists ((p - b) / PGSIZE).
    assert ((p - b) mod PGSIZE = 0) as Hd by (rewrite Zminus_mod, Hpm, Hm; done).
    assert (b <= p) as Hbp.
    { pose proof (Z.div_mod p PGSIZE ltac:(done)). pose proof (Z.div_mod b PGSIZE ltac:(done)).
      destruct (Z.le_gt_cases b p); [done|].
      assert (p / PGSIZE < b / PGSIZE) by (unfold PGSIZE in *; nia). unfold PGSIZE in *; nia. }
    pose proof (Z.div_mod (p - b) PGSIZE ltac:(done)).
    pose proof (Z.div_mod p PGSIZE ltac:(done)). pose proof (Z.div_mod PHYSTOP PGSIZE ltac:(done)).
    split_and!; [apply Z.div_pos; [lia|done]|lia|].
    assert (p / PGSIZE < PHYSTOP / PGSIZE) by (unfold PGSIZE in *; nia). unfold PGSIZE in *. lia.
Qed.

Lemma kinit_pages_nodup kend : NoDup (kinit_pages kend).
Proof.
  unfold kinit_pages, range. apply NoDup_fmap_2_strong.
  - intros x y _ _ E. unfold PGSIZE in E. lia.
  - apply NoDup_seqZ.
Qed.

Lemma kinit_spec kend s :
  0 < kend -> kend <= PHYSTOP -> km_freelist s = 0 ->
  wp (kinit kend) (fun _ s' => free_list kend s' (reverse (kinit_pages kend))) s.
Proof.
  intros Hk Hle H0. unfold kinit.
  apply (wp_for_each (fun pre s' => free_list kend s' (reverse pre))).
  - by split; [|constructor|constructor].
  - intros pre p post s' Hl Hf.
    assert (p ∉ pre /\ valid_page kend p) as [Hni Hv].
    { pose proof (kinit_pages_nodup kend) as Hn. rewrite Hl in Hn.
      apply NoDup_app in Hn as (_ & Hd & _). split; [intros Hin; eapply Hd; [exact Hin|]; set_solver|].
      apply kinit_pages_spec; [done..|]. rewrite Hl. set_solver. }
    eapply wp_mono; [eapply kfree_spec; [done|exact Hf|done|by rewrite elem_of_reverse]|].
    cbv beta. intros _ s'' (Hf' & _). by rewrite reverse_snoc.
  - done.
Qed.
