(* ===== verification/ProcTable.v ===== *)
(** * The process table, sleep and wakeup (kernel/proc.h, kernel/proc.c)

    The process table is the state every blocking component of the kernel
    shares: [sleep] takes the calling process off its processor and
    [wakeup] makes the processes sleeping on a channel runnable.  This file
    has the table, [wakeup1], [wakeup], [kill] and the two halves of [sleep];
    process creation and exit, which also use memory and files, are in
    Proc. *)

From S2P Require Import Prelude Monad Params.

(** ** struct trapframe (include/x86.h), the registers of the user program *)

Record trapframe := Trapframe {
  tf_edi : Z; tf_esi : Z; tf_ebp : Z; tf_oesp : Z;
  tf_ebx : Z; tf_edx : Z; tf_ecx : Z; tf_eax : Z;
  tf_gs : Z; tf_fs : Z; tf_es : Z; tf_ds : Z;
  tf_trapno : Z; tf_err : Z; tf_eip : Z; tf_cs : Z;
  tf_eflags : Z; tf_esp : Z; tf_ss : Z;
}.

Definition zero_tf : trapframe :=
  Trapframe 0 0 0 0 0 0 0 0 0 0 0 0 0 0 0 0 0 0 0.

Definition tf_set_eax (v : Z) (t : trapframe) : trapframe :=
  Trapframe (tf_edi t) (tf_esi t) (tf_ebp t) (tf_oesp t) (tf_ebx t) (tf_edx t)
    (tf_ecx t) v (tf_gs t) (tf_fs t) (tf_es t) (tf_ds t) (tf_trapno t) (tf_err t)
    (tf_eip t) (tf_cs t) (tf_eflags t) (tf_esp t) (tf_ss t).

(** ** struct context, and where a kernel thread resumes *)

Inductive kcode := KZero | Kforkret | Ktrapret | Ksched.

Record context := Context {
  cx_edi : Z; cx_esi : Z; cx_ebx : Z; cx_ebp : Z; cx_eip : kcode;
}.

Definition zero_context : context := Context 0 0 0 0 KZero.

(** ** enum procstate, struct proc *)

Inductive procstate := UNUSED | EMBRYO | SLEEPING | RUNNABLE | RUNNING | ZOMBIE.

#[global] Instance procstate_eq_dec : EqDecision procstate.
Proof. solve_decision. Defined.

Record proc := Proc {
  p_sz : Z;
  p_pgdir : Z;
  p_kstack : Z;
  p_state : procstate;
  p_pid : Z;
  p_parent : option nat;
  p_tf : trapframe;
  p_context : context;
  p_chan : chan;
  p_killed : Z;
  p_ofile : list (option nat);
  p_cwd : option nat;
  p_name : list Z;
}.

Definition zero_proc : proc :=
  Proc 0 0 0 UNUSED 0 None zero_tf zero_context ChNone 0
       (replicate (Z.to_nat NOFILE) None) None (zeros 16).

(** Field assignments. *)
Definition p_set_sz v p := Proc v (p_pgdir p) (p_kstack p) (p_state p) (p_pid p) (p_parent p) (p_tf p) (p_context p) (p_chan p) (p_killed p) (p_ofile p) (p_cwd p) (p_name p).
Definition p_set_pgdir v p := Proc (p_sz p) v (p_kstack p) (p_state p) (p_pid p) (p_parent p) (p_tf p) (p_context p) (p_chan p) (p_killed p) (p_ofile p) (p_cwd p) (p_name p).
Definition p_set_kstack v p := Proc (p_sz p) (p_pgdir p) v (p_state p) (p_pid p) (p_parent p) (p_tf p) (p_context p) (p_chan p) (p_killed p) (p_ofile p) (p_cwd p) (p_name p).
Definition p_set_state v p := Proc (p_sz p) (p_pgdir p) (p_kstack p) v (p_pid p) (p_parent p) (p_tf p) (p_context p) (p_chan p) (p_killed p) (p_ofile p) (p_cwd p) (p_name p).
Definition p_set_pid v p := Proc (p_sz p) (p_pgdir p) (p_kstack p) (p_state p) v (p_parent p) (p_tf p) (p_context p) (p_chan p) (p_killed p) (p_ofile p) (p_cwd p) (p_name p).
Definition p_set_parent v p := Proc (p_sz p) (p_pgdir p) (p_kstack p) (p_state p) (p_pid p) v (p_tf p) (p_context p) (p_chan p) (p_killed p) (p_ofile p) (p_cwd p) (p_name p).
Definition p_set_tf v p := Proc (p_sz p) (p_pgdir p) (p_kstack p) (p_state p) (p_pid p) (p_parent p) v (p_context p) (p_chan p) (p_killed p) (p_ofile p) (p_cwd p) (p_name p).
Definition p_set_context v p := Proc (p_sz p) (p_pgdir p) (p_kstack p) (p_state p) (p_pid p) (p_parent p) (p_tf p) v (p_chan p) (p_killed p) (p_ofile p) (p_cwd p) (p_name p).
Definition p_set_chan v p := Proc (p_sz p) (p_pgdir p) (p_kstack p) (p_state p) (p_pid p) (p_parent p) (p_tf p) (p_context p) v (p_killed p) (p_ofile p) (p_cwd p) (p_name p).
Definition p_set_killed v p := Proc (p_sz p) (p_pgdir p) (p_kstack p) (p_state p) (p_pid p) (p_parent p) (p_tf p) (p_context p) (p_chan p) v (p_ofile p) (p_cwd p) (p_name p).
Definition p_set_ofile v p := Proc (p_sz p) (p_pgdir p) (p_kstack p) (p_state p) (p_pid p) (p_parent p) (p_tf p) (p_context p) (p_chan p) (p_killed p) v (p_cwd p) (p_name p).
Definition p_set_cwd v p := Proc (p_sz p) (p_pgdir p) (p_kstack p) (p_state p) (p_pid p) (p_parent p) (p_tf p) (p_context p) (p_chan p) (p_killed p) (p_ofile p) v (p_name p).
Definition p_set_name v p := Proc (p_sz p) (p_pgdir p) (p_kstack p) (p_state p) (p_pid p) (p_parent p) (p_tf p) (p_context p) (p_chan p) (p_killed p) (p_ofile p) (p_cwd p) v.

(** ** ptable, nextpid, initproc and the processor's [proc]

    [pt_cur] is the [proc] of the processor that runs the code. *)

Record ptable := Ptable {
  pt_proc : list proc;
  pt_nextpid : Z;
  pt_initproc : option nat;
  pt_cur : option nat;
}.

Definition pt_set_proc v t := Ptable v (pt_nextpid t) (pt_initproc t) (pt_cur t).
Definition pt_set_nextpid v t := Ptable (pt_proc t) v (pt_initproc t) (pt_cur t).
Definition pt_set_initproc v t := Ptable (pt_proc t) (pt_nextpid t) v (pt_cur t).
Definition pt_set_cur v t := Ptable (pt_proc t) (pt_nextpid t) (pt_initproc t) v.

(** The table in static storage: zeroed, [nextpid] 1. *)
Definition ptable0 : ptable :=
  Ptable (replicate (Z.to_nat NPROC) zero_proc) 1 None None.

Definition proc_at (i : nat) (t : ptable) : proc := default zero_proc (pt_proc t !! i).
Definition upd_proc (i : nat) (f : proc -> proc) (t : ptable) : ptable :=
  pt_set_proc (alter f i (pt_proc t)) t.

(** The current process's record and its update ([proc->f = v]); a null
    [proc] has no fields. *)
Definition cur_proc (t : ptable) : proc :=
  match pt_cur t with Some i => proc_at i t | None => zero_proc end.
Definition upd_cur (f : proc -> proc) (t : ptable) : ptable :=
  match pt_cur t with Some i => upd_proc i f t | None => t end.

(** ** wakeup1, wakeup, kill *)

Definition wakeup1 (c : chan) (t : ptable) : ptable :=
  pt_set_proc
    ((fun p => if decide (p_state p = SLEEPING /\ p_chan p = c)
               then p_set_state RUNNABLE p else p) <$> pt_proc t) t.

Definition wakeup (c : chan) : M ptable unit := modify (wakeup1 c).

(** The first process with the given pid gets [killed] and, if asleep, is
    made runnable. *)
Definition kill (pid : Z) : M ptable Z := fun t =>
  match list_find (fun p => p_pid p = pid) (pt_proc t) with
  | Some (i, p) =>
      let p1 := p_set_killed 1 p in
      let p2 := if decide (p_state p = SLEEPING) then p_set_state RUNNABLE p1 else p1 in
      Ret 0 (pt_set_proc (<[i := p2]> (pt_proc t)) t)
  | None => Ret (-1) t
  end.

(** ** sleep

    Everything up to the switch away from the process; the caller's run
    continues, after a wakeup, with [sleep_return]. *)
Definition sleep {A} (c : chan) : M ptable A := fun t =>
  match pt_cur t with
  | None => Panic "sleep" t
  | Some i => Sleep c (upd_proc i (fun p => p_set_state SLEEPING (p_set_chan c p)) t)
  end.

Definition sleep_return : M ptable unit := modify (upd_cur (p_set_chan ChNone)).

(** ** Lemmas *)

Lemma length_wakeup1 c t : length (pt_proc (wakeup1 c t)) = length (pt_proc t).
Proof. simpl. by rewrite length_fmap. Qed.

Lemma wakeup1_lookup c t i p :
  pt_proc t !! i = Some p ->
  pt_proc (wakeup1 c t) !! i =
    Some (if decide (p_state p = SLEEPING /\ p_chan p = c)
          then p_set_state RUNNABLE p else p).
Proof. intros H. simpl. by rewrite list_lookup_fmap, H. Qed.

Lemma cur_proc_wakeup1 c t :
  p_ofile (cur_proc (wakeup1 c t)) = p_ofile (cur_proc t) /\
  p_cwd (cur_proc (wakeup1 c t)) = p_cwd (cur_proc t) /\
  pt_cur (wakeup1 c t) = pt_cur t.
Proof.
  unfold cur_proc, proc_at. simpl. destruct (pt_cur t) as [i|]; [|done].
  rewrite list_lookup_fmap. destruct (pt_proc t !! i) as [p|]; [|done]. simpl.
  by destruct (decide _).
Qed.

(** ** What sleeping and waking leave alone

    Two tables agree up to the scheduling fields ([state] and [chan]). *)

Definition unsched (p : proc) : proc := p_set_state UNUSED (p_set_chan ChNone p).

Definition pt_frame (t t' : ptable) : Prop :=
  unsched <$> pt_proc t' = unsched <$> pt_proc t /\
  pt_nextpid t' = pt_nextpid t /\ pt_initproc t' = pt_initproc t /\
  pt_cur t' = pt_cur t.

#[global] Instance pt_frame_equiv : Equivalence pt_frame.
Proof.
  split.
  - done.
  - intros ?? (? & ? & ? & ?). by repeat split.
  - intros ??? (? & ? & ? & ?) (? & ? & ? & ?). repeat split; congruence.
Qed.

(** There is a current process and it is in the table. *)
Definition has_cur (t : ptable) : Prop :=
  exists i, pt_cur t = Some i /\ (i < length (pt_proc t))%nat.

Lemma pt_frame_length t t' :
  pt_frame t t' -> length (pt_proc t') = length (pt_proc t).
Proof.
  intros (H & _). apply (f_equal length) in H. by rewrite !length_fmap in H.
Qed.

Lemma pt_frame_proc_at t t' i :
  pt_frame t t' -> unsched (proc_at i t') = unsched (proc_at i t).
Proof.
  intros (H & _). apply (f_equal (fun l => l !! i)) in H.
  rewrite !list_lookup_fmap in H. unfold proc_at.
  destruct (pt_proc t' !! i), (pt_proc t !! i); simpl in *; congruence.
Qed.

Lemma pt_frame_cur t t' :
  pt_frame t t' -> unsched (cur_proc t') = unsched (cur_proc t).
Proof.
  intros H. unfold cur_proc. rewrite (proj2 (proj2 (proj2 H))).
  destruct (pt_cur t); [by apply pt_frame_proc_at|done].
Qed.

Lemma pt_frame_ofile t t' :
  pt_frame t t' -> p_ofile (cur_proc t') = p_ofile (cur_proc t).
Proof. intros H%pt_frame_cur. by injection H. Qed.

Lemma pt_frame_cwd t t' :
  pt_frame t t' -> p_cwd (cur_proc t') = p_cwd (cur_proc t).
Proof. intros H%pt_frame_cur. by injection H. Qed.

Lemma has_cur_frame t t' : pt_frame t t' -> has_cur t -> has_cur t'.
Proof.
  intros Hf (i & Hi & Hl). exists i. rewrite (pt_frame_length _ _ Hf).
  by rewrite (proj2 (proj2 (proj2 Hf))).
Qed.

Lemma pt_frame_upd_proc i f t :
  (forall p, unsched (f p) = unsched p) -> pt_frame t (upd_proc i f t).
Proof.
  intros Hf. repeat split. simpl. apply list_eq. intros j.
  rewrite !list_lookup_fmap. destruct (decide (i = j)) as [->|Hne].
  - rewrite list_lookup_alter_eq. destruct (pt_proc t !! j); simpl; [|done].
    by rewrite Hf.
  - by rewrite list_lookup_alter_ne.
Qed.

Lemma pt_frame_upd_cur f t :
  (forall p, unsched (f p) = unsched p) -> pt_frame t (upd_cur f t).
Proof.
  intros. unfold upd_cur. destruct (pt_cur t); [by apply pt_frame_upd_proc|done].
Qed.

Lemma pt_frame_wakeup1 c t : pt_frame t (wakeup1 c t).
Proof.
  repeat split. simpl. rewrite <- list_fmap_compose. apply list_fmap_ext.
  intros j p _. simpl. by destruct (decide _).
Qed.

#[export] Hint Resolve pt_frame_wakeup1 pt_frame_upd_cur pt_frame_upd_proc : kernel.

Lemma cur_proc_upd_cur f t : has_cur t -> cur_proc (upd_cur f t) = f (cur_proc t).
Proof.
  intros (i & Hi & Hl). unfold cur_proc, upd_cur. rewrite Hi. simpl. rewrite Hi.
  unfold proc_at, upd_proc. simpl. rewrite list_lookup_alter_eq.
  by destruct (lookup_lt_is_Some_2 _ _ Hl) as [p ->].
Qed.

(** A process that sleeps on [c] is runnable after [wakeup1 c]. *)
Lemma cur_state_wakeup1 c t :
  has_cur t -> p_state (cur_proc t) = SLEEPING -> p_chan (cur_proc t) = c ->
  p_state (cur_proc (wakeup1 c t)) = RUNNABLE.
Proof.
  intros (i & Hi & Hl). unfold cur_proc. simpl. rewrite Hi. unfold proc_at. simpl.
  rewrite list_lookup_fmap. destruct (lookup_lt_is_Some_2 _ _ Hl) as [p ->]. simpl.
  intros. rewrite decide_True by done. done.
Qed.
