(* ===== verification/Pipe.v ===== *)
(** * Pipes (kernel/pipe.c)

    A pipe is a ring of PIPESIZE bytes with free-running 32-bit counters.
    The definitions keep the counters and the array; [contents] is the queue
    of bytes they stand for, and writing and reading are shown to append to
    and take from that queue, through the wrap-around of the counters. *)

From S2P Require Import Prelude Monad Params ProcTable.

(** ** Definitions *)

Definition PIPESIZE : Z := 512.

Record pipe := Pipe {
  pp_data : list Z;
  pp_nread : Z;
  pp_nwrite : Z;
  pp_readopen : Z;
  pp_writeopen : Z;
}.
Definition pp_set_data v p := Pipe v (pp_nread p) (pp_nwrite p) (pp_readopen p) (pp_writeopen p).
Definition pp_set_nread v p := Pipe (pp_data p) v (pp_nwrite p) (pp_readopen p) (pp_writeopen p).
Definition pp_set_nwrite v p := Pipe (pp_data p) (pp_nread p) v (pp_readopen p) (pp_writeopen p).
Definition pp_set_readopen v p := Pipe (pp_data p) (pp_nread p) (pp_nwrite p) v (pp_writeopen p).
Definition pp_set_writeopen v p := Pipe (pp_data p) (pp_nread p) (pp_nwrite p) (pp_readopen p) v.

(** The assignments [pipealloc] makes to a fresh page with contents [d]. *)
Definition pipe_init (d : list Z) : pipe := Pipe d 0 0 1 1.

(** A pipe and the process table: what the code under [p->lock] sees. *)
Record pst := Pst { ps_pt : ptable; ps_pipe : pipe }.
Definition ps_set_pt v s := Pst v (ps_pipe s).
Definition ps_set_pipe v s := Pst (ps_pt s) v.
Definition pt_of_pst : lens pst ptable := Lens ps_pt ps_set_pt.
Definition upd_pipe (f : pipe -> pipe) (s : pst) : pst := ps_set_pipe (f (ps_pipe s)) s.

(** [p->data[p->nwrite++ % PIPESIZE] = c]. *)
Definition pipe_put (c : Z) (p : pipe) : pipe :=
  pp_set_nwrite (u32 (pp_nwrite p + 1))
    (pp_set_data (<[Z.to_nat (pp_nwrite p mod PIPESIZE) := c]> (pp_data p)) p).

(** [p->data[p->nread++ % PIPESIZE]]. *)
Definition pipe_get (p : pipe) : Z * pipe :=
  (nthb (pp_data p) (pp_nread p mod PIPESIZE), pp_set_nread (u32 (pp_nread p + 1)) p).

Definition pipe_full (p : pipe) : bool := pp_nwrite p =? u32 (pp_nread p + PIPESIZE).
Definition pipe_empty (p : pipe) : bool := pp_nread p =? pp_nwrite p.

Section pipe.
(** The pipe's address names its sleep channels. *)
Context (a : Z).

(** One round of [pipewrite]'s loop at index [i]; a process woken from the
    sleep runs the same round again. *)
Definition pipewrite_step (addr : list Z) (n i : Z) : M pst (Z + Z) :=
  if i <? n then
    let! p := gets ps_pipe in
    if pipe_full p then
      let! k := gets (fun s => p_killed (cur_proc (ps_pt s))) in
      if (pp_readopen p =? 0) || negb (k =? 0) then ret (inr (-1))
      else
        zoom pt_of_pst (wakeup (ChNread a));;;
        zoom pt_of_pst (sleep (ChNwrite a))
    else
      modify (upd_pipe (pipe_put (nthb addr i)));;;
      ret (inl (i + 1))
  else
    zoom pt_of_pst (wakeup (ChNread a));;;
    ret (inr n).

(** [pipewrite] from index [i] on. *)
Definition pipewrite_from (addr : list Z) (n i : Z) : M pst Z :=
  while_fuel (S (Z.to_nat (n - i))) (pipewrite_step addr n) i.

Definition pipewrite (addr : list Z) (n : Z) : M pst Z := pipewrite_from addr n 0.

(** One round of [piperead]'s copy loop. *)
Definition piperead_step (n : Z) '(i, addr) : M pst ((Z * list Z) + (Z * list Z)) :=
  if i <? n then
    let! p := gets ps_pipe in
    if pipe_empty p then ret (inr (i, addr))
    else
      let '(c, p') := pipe_get p in
      modify (ps_set_pipe p');;;
      ret (inl (i + 1, addr ++ [c]))
  else ret (inr (i, addr)).

Definition piperead (n : Z) : M pst (Z * list Z) :=
  let! p := gets ps_pipe in
  let! k := gets (fun s => p_killed (cur_proc (ps_pt s))) in
  if pipe_empty p && negb (pp_writeopen p =? 0) then
    if negb (k =? 0) then ret (-1, [])
    else zoom pt_of_pst (sleep (ChNread a))
  else
    let! r := while_fuel (S (Z.to_nat n)) (piperead_step n) (0, []) in
    zoom pt_of_pst (wakeup (ChNwrite a));;;
    ret r.

(** [pipeclose] up to the test whether the page is to be freed. *)
Definition pipeclose_end (writable : Z) : M pst bool :=
  (if negb (writable =? 0) then
     modify (upd_pipe (pp_set_writeopen 0));;;
     zoom pt_of_pst (wakeup (ChNread a))
   else
     modify (upd_pipe (pp_set_readopen 0));;;
     zoom pt_of_pst (wakeup (ChNwrite a)));;;
  gets (fun s => (pp_readopen (ps_pipe s) =? 0) && (pp_writeopen (ps_pipe s) =? 0)).

End pipe.

(** ** The queue in the ring *)

Definition pipe_len (p : pipe) : Z := u32 (pp_nwrite p - pp_nread p).

Definition contents (p : pipe) : list Z :=
  (fun k => nthb (pp_data p) (u32 (pp_nread p + k) mod PIPESIZE)) <$> seqZ 0 (pipe_len p).

Record pipe_ok (p : pipe) : Prop := {
  po_data : length (pp_data p) = Z.to_nat PIPESIZE;
  po_read : 0 <= pp_nread p < 2 ^ 32;
  po_write : 0 <= pp_nwrite p < 2 ^ 32;
  po_len : pipe_len p <= PIPESIZE;
}.

Lemma length_contents p : length (contents p) = Z.to_nat (pipe_len p).
Proof. unfold contents. by rewrite length_fmap, length_seqZ. Qed.

Lemma pipe_len_nonneg p : 0 <= pipe_len p.
Proof. unfold pipe_len. pose proof (u32_range (pp_nwrite p - pp_nread p)). lia. Qed.

Lemma u32_eq_mod a b : u32 a = u32 b <-> exists k, a = b + k * 2 ^ 32.
Proof.
  unfold u32. split.
  - intros E. exists ((a - b) / 2 ^ 32).
    assert ((a - b) mod 2 ^ 32 = 0) by (rewrite Zminus_mod, E, Z.sub_diag; done).
    pose proof (Z.div_mod (a - b) (2 ^ 32) ltac:(done)). lia.
  - intros [k ->]. by rewrite Z.mod_add.
Qed.

(** PIPESIZE divides 2^32, so the index is the counter's. *)
Lemma u32_mod_size x : u32 x mod PIPESIZE = x mod PIPESIZE.
Proof.
  unfold u32. apply Z.mod_mod_divide. by exists (2 ^ 23).
Qed.

Lemma pipe_full_len p : pipe_ok p -> pipe_full p = (pipe_len p =? PIPESIZE).
Proof.
  intros [_ Hr Hw Hl]. unfold pipe_full, pipe_len in *. apply eq_true_iff_eq.
  rewrite !Z.eqb_eq. split.
  - intros ->. rewrite u32_sub_l. replace (pp_nread p + PIPESIZE - pp_nread p) with PIPESIZE by lia. done.
  - intros E. rewrite <- (u32_small (pp_nwrite p)) by done. apply u32_eq_mod.
    change PIPESIZE with (u32 PIPESIZE) in E. apply u32_eq_mod in E as [k E]. exists k. lia.
Qed.

Lemma pipe_empty_len p : pipe_ok p -> pipe_empty p = (pipe_len p =? 0).
Proof.
  intros [_ Hr Hw _]. unfold pipe_empty, pipe_len. apply eq_true_iff_eq. rewrite !Z.eqb_eq. split.
  - intros ->. by rewrite Z.sub_diag.
  - intros E. change 0 with (u32 0) in E. apply u32_eq_mod in E as [k E].
    rewrite <- (u32_small (pp_nread p)), <- (u32_small (pp_nwrite p)) by done.
    apply u32_eq_mod. exists (- k). lia.
Qed.

(** ** Put appends, get takes from the front *)

Lemma contents_put p c :
  pipe_ok p -> pipe_len p < PIPESIZE ->
  pipe_ok (pipe_put c p) /\ contents (pipe_put c p) = contents p ++ [c].
Proof.
  intros [Hd Hr Hw Hl] Hlt. pose proof (pipe_len_nonneg p) as H0.
  assert (pipe_len (pipe_put c p) = pipe_len p + 1) as Hlen.
  { unfold pipe_len in *. simpl. rewrite u32_sub_l.
    replace (pp_nwrite p + 1 - pp_nread p) with (pp_nwrite p - pp_nread p + 1) by lia.
    rewrite <- u32_add_l. apply u32_small. unfold PIPESIZE in *. lia. }
  assert (u32 (pp_nread p + pipe_len p) = pp_nwrite p) as Hend.
  { unfold pipe_len. rewrite u32_add_r. rewrite <- (u32_small (pp_nwrite p)) at 2 by done.
    f_equal. lia. }
  split.
  - split; [simpl; by rewrite length_insert|done|simpl; apply u32_range|lia].
  - unfold contents. rewrite Hlen, seqZ_app, fmap_app by lia. f_equal.
    + apply list_fmap_ext. intros i k Hk. apply lookup_seqZ in Hk. cbn [pp_nread pp_data pipe_put pp_set_nwrite pp_set_data].
      apply nthb_insert_ne; [apply Z.mod_pos_bound; done|apply Z.mod_pos_bound; done|].
      rewrite <- Hend, !u32_mod_size. intros E.
      assert ((pipe_len p - k) mod PIPESIZE = 0) as Hz.
      { replace (pipe_len p - k) with (pp_nread p + pipe_len p - (pp_nread p + k)) by lia.
        rewrite Zminus_mod, E, Z.sub_diag. done. }
      rewrite Z.mod_small in Hz by lia. lia.
    + rewrite seqZ_1. cbn [fmap list_fmap pp_nread pp_data pipe_put pp_set_nwrite pp_set_data].
      rewrite Z.add_0_l, Hend. f_equal. apply nthb_insert_eq.
      rewrite Hd, Z2Nat.id by done. by apply Z.mod_pos_bound.
Qed.

Lemma contents_get p :
  pipe_ok p -> 0 < pipe_len p ->
  pipe_ok (pipe_get p).2 /\ contents p = (pipe_get p).1 :: contents (pipe_get p).2.
Proof.
  intros [Hd Hr Hw Hl] Hlt.
  assert (pipe_len (pipe_get p).2 = pipe_len p - 1) as Hlen.
  { unfold pipe_len in *. simpl. rewrite u32_sub_r.
    replace (pp_nwrite p - (pp_nread p + 1)) with (pp_nwrite p - pp_nread p - 1) by lia.
    rewrite <- u32_sub_l. apply u32_small. pose proof (u32_range (pp_nwrite p - pp_nread p)). lia. }
  split.
  - split; [done|simpl; apply u32_range|done|lia].
  - unfold contents at 1. replace (pipe_len p) with (1 + (pipe_len p - 1)) by lia.
    rewrite seqZ_app, fmap_app, seqZ_1 by lia. cbn [fmap list_fmap app]. f_equal.
    + by rewrite Z.add_0_r, u32_mod_size.
    + unfold contents. rewrite Hlen. pose proof (fmap_add_seqZ 1 0 (pipe_len p - 1)) as Es.
      change (0 + 1) with (1 + 0). rewrite <- Es, <- list_fmap_compose.
      apply list_fmap_ext. intros i k _. unfold compose. simpl. rewrite u32_add_l.
      do 3 f_equal. lia.
Qed.

(** ** [pipewrite] and [piperead] on every branch *)

(** The pipe holds the queue [q] and has the ends open that [p] has. *)
Definition holds_queue (p p' : pipe) (q : list Z) : Prop :=
  pipe_ok p' /\ contents p' = q /\ pp_readopen p' = pp_readopen p /\ pp_writeopen p' = pp_writeopen p.

Lemma slice_snoc off n l : 0 <= n -> slice off (n + 1) l = slice off n l ++ [nthb l (off + n)].
Proof.
  intros Hn. unfold slice. rewrite seqZ_app, fmap_app, seqZ_1 by lia. done.
Qed.

Section specs.
Context (a : Z).

(** [m] rounds of the loop with room for [m] bytes. *)
Lemma pipewrite_fill addr n f m i s :
  pipe_ok (ps_pipe s) -> i + Z.of_nat m <= n -> pipe_len (ps_pipe s) + Z.of_nat m <= PIPESIZE ->
  exists p', holds_queue (ps_pipe s) p' (contents (ps_pipe s) ++ slice i (Z.of_nat m) addr) /\
    while_fuel (m + f) (pipewrite_step a addr n) i s =
    while_fuel f (pipewrite_step a addr n) (i + Z.of_nat m) (ps_set_pipe p' s).
Proof.
  revert i s f. induction m as [|m IH]; intros i s f Hok Hi Hl.
  { exists (ps_pipe s). split; [|by destruct s; rewrite Z.add_0_r].
    split_and!; [done| |done|done]. by rewrite app_nil_r. }
  destruct (IH i s (S f) Hok ltac:(lia) ltac:(lia)) as (p1 & (Hok1 & Hc1 & Hr1 & Hw1) & E1).
  assert (pipe_len p1 = pipe_len (ps_pipe s) + Z.of_nat m) as Hlen.
  { pose proof (length_contents p1) as L1. rewrite Hc1, length_app, length_contents, length_slice in L1.
    pose proof (pipe_len_nonneg p1). pose proof (pipe_len_nonneg (ps_pipe s)). lia. }
  destruct (contents_put p1 (nthb addr (i + Z.of_nat m)) Hok1 ltac:(lia)) as [Hok2 Hc2].
  exists (pipe_put (nthb addr (i + Z.of_nat m)) p1). split.
  - split_and!; [done| |done|done].
    by rewrite Hc2, Hc1, Nat2Z.inj_succ, <- Z.add_1_r, slice_snoc, app_assoc by lia.
  - replace (S m + f)%nat with (m + S f)%nat by lia. rewrite E1. cbn [while_fuel].
    unfold pipewrite_step at 1. unfold bind at 1.
    rewrite (proj2 (Z.ltb_lt (i + Z.of_nat m) n)) by lia. unfold bind, gets. cbn [ps_pipe ps_set_pipe].
    rewrite pipe_full_len, (proj2 (Z.eqb_neq (pipe_len p1) PIPESIZE)) by (done || lia).
    unfold modify, ret, upd_pipe. cbn [ps_pipe ps_set_pipe].
    by replace (i + Z.of_nat m + 1) with (i + Z.of_nat (S m)) by lia.
Qed.

(** Enough room: all bytes are appended and the readers woken. *)
Lemma pipewrite_fit addr n i s :
  pipe_ok (ps_pipe s) -> i <= n -> pipe_len (ps_pipe s) + (n - i) <= PIPESIZE ->
  exists p', holds_queue (ps_pipe s) p' (contents (ps_pipe s) ++ slice i (n - i) addr) /\
    pipewrite_from a addr n i s = Ret n (Pst (wakeup1 (ChNread a) (ps_pt s)) p').
Proof.
  intros Hok Hi Hl.
  destruct (pipewrite_fill addr n 1 (Z.to_nat (n - i)) i s Hok) as (p' & Hq & E); [lia..|].
  rewrite Z2Nat.id in Hq, E by lia. exists p'. split; [done|].
  unfold pipewrite_from. replace (S (Z.to_nat (n - i))) with (Z.to_nat (n - i) + 1)%nat by lia.
  rewrite E. replace (i + (n - i)) with n by lia. cbn [while_fuel]. unfold pipewrite_step, bind.
  by rewrite Z.ltb_irrefl.
Qed.

(** The round of a writer that finds the pipe full. *)
Lemma step_full addr n i s :
  i < n -> pipe_full (ps_pipe s) = true ->
  pipewrite_step a addr n i s =
  if (pp_readopen (ps_pipe s) =? 0) || negb (p_killed (cur_proc (ps_pt s)) =? 0)
  then Ret (inr (-1)) s
  else zoom pt_of_pst (sleep (ChNwrite a)) (Pst (wakeup1 (ChNread a) (ps_pt s)) (ps_pipe s)).
Proof.
  intros Hi Hf. unfold pipewrite_step, bind, gets. rewrite (proj2 (Z.ltb_lt i n)), Hf by lia.
  by destruct (_ || _).
Qed.

(** Not enough room: the pipe is filled, and then the writer fails if the
    other end is closed or it was killed, and sleeps otherwise. *)
Lemma pipewrite_block addr n i s :
  pipe_ok (ps_pipe s) -> 0 <= i -> PIPESIZE < pipe_len (ps_pipe s) + (n - i) ->
  let room := PIPESIZE - pipe_len (ps_pipe s) in
  exists p', holds_queue (ps_pipe s) p' (contents (ps_pipe s) ++ slice i room addr) /\
    pipewrite_from a addr n i s =
    if (pp_readopen (ps_pipe s) =? 0) || negb (p_killed (cur_proc (ps_pt s)) =? 0)
    then Ret (-1) (Pst (ps_pt s) p')
    else zoom pt_of_pst (sleep (ChNwrite a)) (Pst (wakeup1 (ChNread a) (ps_pt s)) p').
Proof.
  intros Hok Hi Hl room. pose proof (po_len _ Hok). pose proof (pipe_len_nonneg (ps_pipe s)).
  destruct (pipewrite_fill addr n (S (Z.to_nat (n - i - room))) (Z.to_nat room) i s Hok)
    as (p' & Hq & E); [lia..|].
  rewrite Z2Nat.id in Hq, E by lia. exists p'. split; [done|].
  unfold pipewrite_from.
  replace (S (Z.to_nat (n - i))) with (Z.to_nat room + S (Z.to_nat (n - i - room)))%nat by lia.
  rewrite E. cbn [while_fuel]. destruct Hq as (Hok' & Hc & Hr & Hw).
  assert (pipe_len p' = PIPESIZE) as Hlen.
  { pose proof (length_contents p') as L1. rewrite Hc, length_app, length_contents, length_slice in L1.
    pose proof (pipe_len_nonneg p'). lia. }
  assert (pipe_full p' = true) as Hfull by (rewrite pipe_full_len by done; by apply Z.eqb_eq).
  unfold bind. rewrite step_full by (done || lia).
  cbn [ps_pt ps_pipe ps_set_pipe]. rewrite Hr. zcase; [done|].
  unfold zoom, sleep. cbn. by destruct (pt_cur (ps_pt s)).
Qed.

(** The copy loop of [piperead]. *)
Lemma piperead_copy n f m i acc s :
  pipe_ok (ps_pipe s) -> i + Z.of_nat m <= n -> Z.of_nat m <= pipe_len (ps_pipe s) ->
  exists p', holds_queue (ps_pipe s) p' (drop m (contents (ps_pipe s))) /\
    while_fuel (m + f) (piperead_step n) (i, acc) s =
    while_fuel f (piperead_step n) (i + Z.of_nat m, acc ++ take m (contents (ps_pipe s)))
      (ps_set_pipe p' s).
Proof.
  revert i acc s f. induction m as [|m IH]; intros i acc s f Hok Hi Hl.
  { exists (ps_pipe s). split; [by split_and!|]. rewrite Z.add_0_r, take_0, app_nil_r. by destruct s. }
  destruct (contents_get (ps_pipe s) Hok ltac:(lia)) as [Hok1 Hc1].
  destruct (pipe_get (ps_pipe s)) as [c p1] eqn:Eg. cbn [fst snd] in *.
  assert (pp_readopen p1 = pp_readopen (ps_pipe s) /\ pp_writeopen p1 = pp_writeopen (ps_pipe s))
    as [Hr1 Hw1] by (unfold pipe_get in Eg; by simplify_eq).
  assert (pipe_len p1 = pipe_len (ps_pipe s) - 1) as Hlen.
  { pose proof (length_contents (ps_pipe s)) as L. rewrite Hc1 in L. simpl in L.
    rewrite length_contents in L. pose proof (pipe_len_nonneg p1). lia. }
  destruct (IH (i + 1) (acc ++ [c]) (ps_set_pipe p1 s) f Hok1 ltac:(lia) ltac:(simpl; lia))
    as (p' & (Hok' & Hc' & Hr' & Hw') & E).
  exists p'. rewrite Hc1. split; [split_and!; [done|done|by rewrite Hr'|by rewrite Hw']|].
  cbn [Nat.add while_fuel]. unfold piperead_step at 1. unfold bind at 1.
  rewrite (proj2 (Z.ltb_lt i n)) by lia. unfold bind, gets at 1.
  rewrite pipe_empty_len, (proj2 (Z.eqb_neq (pipe_len (ps_pipe s)) 0)), Eg by (done || lia).
  unfold modify, ret. rewrite E. f_equal. f_equal; [lia|]. by rewrite <- app_assoc.
Qed.

(** It stops at [n] bytes or when the pipe is empty. *)
Lemma read_stop n i acc s :
  n <= i \/ pipe_empty (ps_pipe s) = true ->
  piperead_step n (i, acc) s = Ret (inr (i, acc)) s.
Proof.
  intros Hs. unfold piperead_step, bind, gets. destruct (Z.ltb_spec i n); [|done].
  destruct Hs as [|Hs]; [lia|]. by rewrite Hs.
Qed.

(** Nothing to read and a writer may come: fail if killed, else sleep. *)
Lemma piperead_wait n s :
  pipe_ok (ps_pipe s) -> contents (ps_pipe s) = [] -> pp_writeopen (ps_pipe s) <> 0 ->
  piperead a n s = if negb (p_killed (cur_proc (ps_pt s)) =? 0) then Ret (-1, []) s
                   else zoom pt_of_pst (sleep (ChNread a)) s.
Proof.
  intros Hok Hc Hw. unfold piperead, bind, gets. rewrite pipe_empty_len by done.
  pose proof (length_contents (ps_pipe s)) as L. rewrite Hc in L. simpl in L.
  pose proof (pipe_len_nonneg (ps_pipe s)).
  rewrite (proj2 (Z.eqb_eq (pipe_len (ps_pipe s)) 0)), (proj2 (Z.eqb_neq _ _) Hw) by lia.
  cbn [andb negb]. by zcase.
Qed.

(** Otherwise the first bytes of the queue, up to [n], and the writers are
    woken; with no writer left and an empty queue that is end of file. *)
Lemma piperead_spec n s :
  pipe_ok (ps_pipe s) -> 0 <= n ->
  contents (ps_pipe s) <> [] \/ pp_writeopen (ps_pipe s) = 0 ->
  let k := Nat.min (Z.to_nat n) (length (contents (ps_pipe s))) in
  exists p', holds_queue (ps_pipe s) p' (drop k (contents (ps_pipe s))) /\
    piperead a n s = Ret (Z.of_nat k, take k (contents (ps_pipe s)))
      (Pst (wakeup1 (ChNwrite a) (ps_pt s)) p').
Proof.
  intros Hok Hn Hne k. pose proof (length_contents (ps_pipe s)) as L.
  pose proof (pipe_len_nonneg (ps_pipe s)).
  assert (k <= Z.to_nat n /\ k <= length (contents (ps_pipe s)))%nat as [Hk1 Hk2] by lia.
  destruct (piperead_copy n (S (Z.to_nat n - k)) k 0 [] s Hok) as (p' & Hq & E); [lia..|].
  exists p'. split; [done|]. unfold piperead, bind, gets.
  assert (pipe_empty (ps_pipe s) && negb (pp_writeopen (ps_pipe s) =? 0) = false) as ->.
  { rewrite pipe_empty_len by done. destruct Hne as [Hne|Hne]; [|by rewrite Hne, andb_false_r].
    rewrite (proj2 (Z.eqb_neq _ _)); [done|]. intros E0. apply Hne, nil_length_inv. lia. }
  replace (S (Z.to_nat n)) with (k + S (Z.to_nat n - k))%nat by lia. rewrite E.
  cbn [while_fuel]. unfold bind. rewrite read_stop; [done|].
  destruct (Z.le_gt_cases n (Z.of_nat k)) as [|Hlt]; [left; lia|right].
  destruct Hq as (Hok' & Hc' & _). cbn [ps_pipe ps_set_pipe]. rewrite pipe_empty_len by done.
  apply Z.eqb_eq. pose proof (length_contents p') as L'. rewrite Hc', length_drop in L'.
  pose proof (pipe_len_nonneg p'). lia.
Qed.

End specs.

(** ** Interleavings

    Writers and readers take the lock in any order and move a byte at a time
    under it: [todo] is what is still to be written, [got] what was read. *)

Inductive pipe_step : list Z * pipe * list Z -> list Z * pipe * list Z -> Prop :=
| step_write c todo p got :
    pipe_full p = false -> pipe_step (c :: todo, p, got) (todo, pipe_put c p, got)
| step_read todo p got :
    pipe_empty p = false ->
    pipe_step (todo, p, got) (todo, (pipe_get p).2, got ++ [(pipe_get p).1]).

Definition in_order (x : list Z * pipe * list Z) : list Z :=
  let '(todo, p, got) := x in got ++ contents p ++ todo.

Lemma pipe_step_inv x y :
  pipe_ok x.1.2 -> pipe_step x y -> pipe_ok y.1.2 /\ in_order y = in_order x.
Proof.
  intros Hok Hs. destruct Hs as [c todo p got Hf|todo p got He]; cbn [fst snd] in *.
  - rewrite pipe_full_len in Hf by done. apply Z.eqb_neq in Hf. pose proof (po_len _ Hok).
    destruct (contents_put p c Hok ltac:(lia)) as [Hok' Hc]. split; [done|].
    unfold in_order. rewrite Hc, <- app_assoc. done.
  - rewrite pipe_empty_len in He by done. apply Z.eqb_neq in He. pose proof (pipe_len_nonneg p).
    destruct (contents_get p Hok ltac:(lia)) as [Hok' Hc]. split; [done|].
    unfold in_order. rewrite Hc, <- app_assoc. done.
Qed.

Lemma pipe_steps_inv x y :
  pipe_ok x.1.2 -> rtc pipe_step x y -> pipe_ok y.1.2 /\ in_order y = in_order x.
Proof.
  intros Hok Hr. revert Hok. induction Hr as [x|x y z Hs _ IH]; intros Hok; [done|].
  destruct (pipe_step_inv x y Hok Hs) as [Hok' E]. destruct (IH Hok') as [? ->]. done.
Qed.
