(* ===== verification/Ide.v ===== *)
(** * Disk buffers and the IDE driver (kernel/buf.h, kernel/ide.c)

    The driver keeps a queue of buffers linked through [qnext].  [iderw]
    appends a buffer, starts the disk when the queue was empty and sleeps
    until the interrupt handler [ideintr] has served the buffer.  The disk
    controller is the ATA task file the driver writes through its ports: the
    model keeps the registers and the two drives' sectors. *)

From S2P Require Import Prelude Monad Params ProcTable.

(** ** struct buf *)

Record buf := Buf {
  b_flags : Z;
  b_dev : Z;
  b_sector : Z;
  b_prev : nat;
  b_next : nat;
  b_qnext : option nat;
  b_data : list Z;
}.

Definition b_set_flags v b := Buf v (b_dev b) (b_sector b) (b_prev b) (b_next b) (b_qnext b) (b_data b).
Definition b_set_dev v b := Buf (b_flags b) v (b_sector b) (b_prev b) (b_next b) (b_qnext b) (b_data b).
Definition b_set_sector v b := Buf (b_flags b) (b_dev b) v (b_prev b) (b_next b) (b_qnext b) (b_data b).
Definition b_set_prev v b := Buf (b_flags b) (b_dev b) (b_sector b) v (b_next b) (b_qnext b) (b_data b).
Definition b_set_next v b := Buf (b_flags b) (b_dev b) (b_sector b) (b_prev b) v (b_qnext b) (b_data b).
Definition b_set_qnext v b := Buf (b_flags b) (b_dev b) (b_sector b) (b_prev b) (b_next b) v (b_data b).
Definition b_set_data v b := Buf (b_flags b) (b_dev b) (b_sector b) (b_prev b) (b_next b) (b_qnext b) v.

(** Static storage: a zeroed buffer. *)
Definition zero_buf : buf := Buf 0 0 0 0 0 None (zeros BSIZE).

(** ** The controller's registers (ports 0x1f2 to 0x1f7) *)

Record taskfile := Taskfile {
  r_nsect : Z;      (* 0x1f2 *)
  r_lba0 : Z;       (* 0x1f3 *)
  r_lba1 : Z;       (* 0x1f4 *)
  r_lba2 : Z;       (* 0x1f5 *)
  r_devhead : Z;    (* 0x1f6 *)
  r_cmd : Z;        (* 0x1f7 *)
}.

Definition zero_taskfile : taskfile := Taskfile 0 0 0 0 0 0.

(** The drive and the sector the controller decodes. *)
Definition ata_drive (r : taskfile) : Z := Z.land (Z.shiftr (r_devhead r) 4) 1.
Definition ata_lba (r : taskfile) : Z :=
  r_lba0 r + r_lba1 r * 2 ^ 8 + r_lba2 r * 2 ^ 16 + Z.land (r_devhead r) 15 * 2 ^ 24.

(** ** State of the block layer

    [bio_buf] holds [bcache.buf[0..NBUF-1]] and, at index NBUF,
    [bcache.head].  The drives are part of the state: the bytes of their
    sectors, and which sectors they answer for with an error status (damaged
    ones, or those past the end of the drive). *)

Record bio := Bio {
  bio_pt : ptable;
  bio_buf : list buf;
  bio_queue : option nat;            (* idequeue *)
  bio_havedisk1 : bool;
  bio_tf : taskfile;
  bio_disk : gmap (Z * Z) (list Z);  (* drive, sector -> 512 bytes *)
  bio_bad : Z * Z -> bool;           (* requests for this sector fail *)
}.

Definition bio_set_pt v s := Bio v (bio_buf s) (bio_queue s) (bio_havedisk1 s) (bio_tf s) (bio_disk s) (bio_bad s).
Definition bio_set_buf v s := Bio (bio_pt s) v (bio_queue s) (bio_havedisk1 s) (bio_tf s) (bio_disk s) (bio_bad s).
Definition bio_set_queue v s := Bio (bio_pt s) (bio_buf s) v (bio_havedisk1 s) (bio_tf s) (bio_disk s) (bio_bad s).
Definition bio_set_havedisk1 v s := Bio (bio_pt s) (bio_buf s) (bio_queue s) v (bio_tf s) (bio_disk s) (bio_bad s).
Definition bio_set_tf v s := Bio (bio_pt s) (bio_buf s) (bio_queue s) (bio_havedisk1 s) v (bio_disk s) (bio_bad s).
Definition bio_set_disk v s := Bio (bio_pt s) (bio_buf s) (bio_queue s) (bio_havedisk1 s) (bio_tf s) v (bio_bad s).

Definition bio_set_bad v s := Bio (bio_pt s) (bio_buf s) (bio_queue s) (bio_havedisk1 s) (bio_tf s) (bio_disk s) v.

Definition pt_of_bio : lens bio ptable := Lens bio_pt bio_set_pt.

#[global] Instance pt_of_bio_laws : LensLaws pt_of_bio.
Proof. split; [done|by intros []|done]. Qed.

Definition buf_at (i : nat) (s : bio) : buf := default zero_buf (bio_buf s !! i).
Definition upd_buf (i : nat) (f : buf -> buf) (s : bio) : bio :=
  bio_set_buf (alter f i (bio_buf s)) s.

(** Drives without errors. *)
Definition no_errors : Z * Z -> bool := fun _ => false.

(** A sector that was never written reads as zeros. *)
Definition disk_read (d : gmap (Z * Z) (list Z)) (k : Z * Z) : list Z :=
  default (zeros BSIZE) (d !! k).

(** ** ide.c *)

Definition IDE_CMD_READ : Z := 0x20.
Definition IDE_CMD_WRITE : Z := 0x30.

(** [ideinit]: disk 1 is present when the status port answers within 1000
    polls; [status] lists what the port answers. *)
Definition ideinit (status : list Z) : M bio unit :=
  modify (fun s =>
    if decide (Exists (fun r => r <> 0) (take 1000 status))
    then bio_set_havedisk1 true s else s).

(** The registers [idestart] writes for a buffer. *)
Definition ide_command (b : buf) : taskfile :=
  Taskfile 1 (Z.land (b_sector b) 0xff)
    (Z.land (Z.shiftr (b_sector b) 8) 0xff)
    (Z.land (Z.shiftr (b_sector b) 16) 0xff)
    (Z.lor (Z.lor 0xe0 (Z.shiftl (Z.land (b_dev b) 1) 4))
           (Z.land (Z.shiftr (b_sector b) 24) 0x0f))
    (if Z.land (b_flags b) B_DIRTY =? 0 then IDE_CMD_READ else IDE_CMD_WRITE).

(** Start the request for [b]; a write hands its 512 bytes to the
    controller, which stores them unless the request fails. *)
Definition idestart (ob : option nat) : M bio unit :=
  match ob with
  | None => panic "idestart"
  | Some i =>
      let! b := gets (buf_at i) in
      let r := ide_command b in
      modify (bio_set_tf r);;;
      if Z.land (b_flags b) B_DIRTY =? 0 then ret tt
      else modify (fun s =>
             let k := (ata_drive r, ata_lba r) in
             if bio_bad s k then s else bio_set_disk (<[k := b_data b]> (bio_disk s)) s)
  end.

(** The interrupt handler.  [ok] says whether the controller's status after
    the request is free of errors ([idewait(1) >= 0]). *)
Definition ideintr (ok : bool) : M bio unit :=
  let! q := gets bio_queue in
  match q with
  | None => ret tt
  | Some i =>
      let! b := gets (buf_at i) in
      modify (bio_set_queue (b_qnext b));;;
      (if (Z.land (b_flags b) B_DIRTY =? 0) && ok
       then modify (fun s =>
              let k := (ata_drive (bio_tf s), ata_lba (bio_tf s)) in
              upd_buf i (b_set_data (disk_read (bio_disk s) k)) s)
       else ret tt);;;
      modify (upd_buf i (fun b => b_set_flags (Z.lor (b_flags b) B_VALID) b));;;
      modify (upd_buf i (fun b => b_set_flags (Z.ldiff (b_flags b) B_DIRTY) b));;;
      zoom pt_of_bio (wakeup (ChBuf i));;;
      let! q' := gets bio_queue in
      match q' with
      | None => ret tt
      | Some _ => idestart q'
      end
  end.

(** The status of the request in the registers: no error. *)
Definition drive_ok (s : bio) : bool := negb (bio_bad s (ata_drive (bio_tf s), ata_lba (bio_tf s))).

(** The last buffer of the queue that starts at [i]. *)
Fixpoint queue_last (fuel : nat) (s : bio) (i : nat) : option nat :=
  match fuel with
  | O => None
  | S fuel =>
      match b_qnext (buf_at i s) with
      | None => Some i
      | Some j => queue_last fuel s j
      end
  end.

(** [iderw] up to the wait for the request: the checks, the append and the
    start of the disk. *)
Definition iderw_submit (i : nat) : M bio unit :=
  let! b := gets (buf_at i) in
  if Z.land (b_flags b) B_BUSY =? 0 then panic "iderw: buf not busy"
  else if Z.land (b_flags b) (Z.lor B_VALID B_DIRTY) =? B_VALID
  then panic "iderw: nothing to do"
  else
    let! h := gets bio_havedisk1 in
    if negb (b_dev b =? 0) && negb h then panic "iderw: ide disk 1 not present"
    else
      modify (upd_buf i (b_set_qnext None));;;
      let! q := gets bio_queue in
      match q with
      | None => modify (bio_set_queue (Some i));;; idestart (Some i)
      | Some j =>
          let! l := gets (fun s => queue_last (S (length (bio_buf s))) s j) in
          match l with
          | None => hang
          | Some l => modify (upd_buf l (b_set_qnext (Some i)))
          end
      end.

(** One round of the wait: the buffer is done, or the caller goes to sleep,
    the disk interrupts and, if that woke the caller, the scheduler runs it
    again. *)
Definition iderw_wait (i : nat) (_ : unit) : M bio (unit + unit) :=
  let! b := gets (buf_at i) in
  if Z.land (b_flags b) (Z.lor B_VALID B_DIRTY) =? B_VALID then ret (inr tt)
  else
    let! c := gets (fun s => pt_cur (bio_pt s)) in
    match c with
    | None => panic "sleep"
    | Some _ =>
        zoom pt_of_bio (modify (upd_cur (fun p => p_set_state SLEEPING (p_set_chan (ChBuf i) p))));;;
        let! ok := gets drive_ok in
        ideintr ok;;;
        let! st := gets (fun s => p_state (cur_proc (bio_pt s))) in
        if decide (st = RUNNABLE) then
          zoom pt_of_bio (modify (upd_cur (p_set_state RUNNING)));;;
          zoom pt_of_bio sleep_return;;;
          ret (inl tt)
        else sleep_on (ChBuf i)
    end.

(** [iderw] with the disk serving its interrupts while the caller sleeps. *)
Definition iderw (i : nat) : M bio unit :=
  iderw_submit i;;; while_fuel 2 (iderw_wait i) tt.

(** ** Registers and sectors *)

(** The disk sector a buffer's request addresses. *)
Definition ide_key (b : buf) : Z * Z :=
  (ata_drive (ide_command b), ata_lba (ide_command b)).

(** A device and sector number the driver can address: one of two drives, 28
    bits of sector. *)
Definition dev_sector_ok (dev sector : Z) : Prop :=
  (dev = 0 \/ dev = 1) /\ 0 <= sector < 2 ^ 28.

Lemma land_ff x : Z.land x 0xff = x mod 2 ^ 8.
Proof. change 0xff with (Z.ones 8). by rewrite Z.land_ones by lia. Qed.

Lemma land_0f x : Z.land x 0x0f = x mod 2 ^ 4.
Proof. change 0x0f with (Z.ones 4). by rewrite Z.land_ones by lia. Qed.

(** The drive/head register keeps the drive bit and the top sector bits
    apart. *)
Lemma devhead_fields d h :
  (d = 0 \/ d = 1) -> 0 <= h < 16 ->
  Z.land (Z.lor (Z.lor 0xe0 (Z.shiftl d 4)) h) 0x0f = h /\
  Z.land (Z.shiftr (Z.lor (Z.lor 0xe0 (Z.shiftl d 4)) h) 4) 1 = d.
Proof.
  intros Hd Hh.
  assert (h ∈ seqZ 0 16) as Hin by (apply elem_of_seqZ; lia).
  clear Hh. revert h Hin.
  apply (Forall_forall (fun h =>
    Z.land (Z.lor (Z.lor 0xe0 (Z.shiftl d 4)) h) 0x0f = h /\
    Z.land (Z.shiftr (Z.lor (Z.lor 0xe0 (Z.shiftl d 4)) h) 4) 1 = d)).
  destruct Hd as [-> | ->]; repeat constructor.
Qed.

Lemma ide_key_ok b :
  dev_sector_ok (b_dev b) (b_sector b) -> ide_key b = (b_dev b, b_sector b).
Proof.
  intros [Hd Hs]. unfold ide_key, ata_drive, ata_lba, ide_command. simpl.
  rewrite !land_ff, !Z.shiftr_div_pow2 by lia.
  assert (0 <= b_sector b / 2 ^ 24 < 16) as Hh.
  { split; [apply Z.div_pos; lia|apply Z.div_lt_upper_bound; lia]. }
  assert (Z.land (b_sector b / 2 ^ 24) 15 = b_sector b / 2 ^ 24) as ->.
  { rewrite land_0f. apply Z.mod_small. lia. }
  assert (Z.land (b_dev b) 1 = b_dev b) as -> by (destruct Hd as [-> | ->]; done).
  destruct (devhead_fields (b_dev b) (b_sector b / 2 ^ 24) Hd Hh) as [E1 E2].
  rewrite <- !Z.shiftr_div_pow2 in * by lia. rewrite E1, E2. f_equal.
  rewrite !Z.shiftr_div_pow2 in * by lia.
  pose proof (Z.div_mod (b_sector b) (2 ^ 8)).
  pose proof (Z.div_mod (b_sector b / 2 ^ 8) (2 ^ 8)).
  pose proof (Z.div_mod (b_sector b / 2 ^ 16) (2 ^ 8)).
  assert (b_sector b / 2 ^ 8 / 2 ^ 8 = b_sector b / 2 ^ 16) by (rewrite Z.div_div; done).
  assert (b_sector b / 2 ^ 16 / 2 ^ 8 = b_sector b / 2 ^ 24) by (rewrite Z.div_div; done).
  lia.
Qed.

(** ** Buffer updates *)

Lemma buf_at_lookup i s b : bio_buf s !! i = Some b -> buf_at i s = b.
Proof. unfold buf_at. by intros ->. Qed.

Lemma buf_at_upd_eq i f s :
  (i < length (bio_buf s))%nat -> buf_at i (upd_buf i f s) = f (buf_at i s).
Proof.
  intros Hi. unfold buf_at. simpl. rewrite list_lookup_alter_eq.
  by destruct (lookup_lt_is_Some_2 _ _ Hi) as [b ->].
Qed.

Lemma buf_at_upd_ne i j f s : i <> j -> buf_at j (upd_buf i f s) = buf_at j s.
Proof. intros. unfold buf_at. simpl. by rewrite list_lookup_alter_ne. Qed.

(** ** A request on an idle disk

    The caller's buffer comes back valid and clean, with the sector's bytes
    after a read and with the sector overwritten after a write; nothing but
    the scheduling state of processes changes otherwise.  If the drive reports
    an error the buffer comes back valid and clean as well, but with the bytes
    it had. *)

(** The disk and the buffer's bytes after a request for [b]. *)
Definition served_disk (b : buf) (bad : bool) (d : gmap (Z * Z) (list Z)) : gmap (Z * Z) (list Z) :=
  if (Z.land (b_flags b) B_DIRTY =? 0) || bad then d else <[ide_key b := b_data b]> d.
Definition served_data (b : buf) (bad : bool) (d : gmap (Z * Z) (list Z)) : list Z :=
  if (Z.land (b_flags b) B_DIRTY =? 0) && negb bad then disk_read d (ide_key b) else b_data b.

Lemma iderw_submit_idle pt bufs h r d bad i b :
  bufs !! i = Some b -> b_dev b = 0 \/ h = true ->
  b_flags b = B_BUSY \/ b_flags b = Z.lor B_BUSY (Z.lor B_VALID B_DIRTY) ->
  wp (iderw_submit i) (fun _ s' =>
    s' = Bio pt (<[i := b_set_qnext None b]> bufs) (Some i) h (ide_command b)
           (served_disk b (bad (ide_key b)) d) bad)
    (Bio pt bufs None h r d bad).
Proof.
  intros Hb Hdev Hfl. pose proof (lookup_lt_Some _ _ _ Hb) as Hlt.
  unfold iderw_submit. wsteps. rewrite (buf_at_lookup _ _ b) by done.
  assert ((Z.land (b_flags b) B_BUSY =? 0) = false) as ->
    by (destruct Hfl as [-> | ->]; done).
  assert ((Z.land (b_flags b) (Z.lor B_VALID B_DIRTY) =? B_VALID) = false) as ->
    by (destruct Hfl as [-> | ->]; done).
  wsteps. simpl bio_havedisk1.
  assert (negb (b_dev b =? 0) && negb h = false) as ->
    by (destruct Hdev as [-> | ->]; [done|by rewrite andb_false_r]).
  wsteps. unfold upd_buf. simpl. wsteps. unfold idestart. wsteps.
  rewrite (buf_at_lookup _ _ (b_set_qnext None b))
    by (simpl; by rewrite list_lookup_alter_eq, Hb).
  rewrite (list_alter_Some _ bufs i b) by done. unfold served_disk.
  simpl b_flags. destruct (Z.land (b_flags b) B_DIRTY =? 0); wsteps; [done|].
  change (ata_drive _, ata_lba _) with (ide_key b). simpl. by destruct (bad (ide_key b)).
Qed.

Lemma ideintr_last ok pt bufs h r d bad i b :
  bufs !! i = Some b -> b_qnext b = None ->
  wp (ideintr ok) (fun _ s' =>
    s' = Bio (wakeup1 (ChBuf i) pt)
           (<[i := b_set_flags (Z.ldiff (Z.lor (b_flags b) B_VALID) B_DIRTY)
                   (b_set_data (if (Z.land (b_flags b) B_DIRTY =? 0) && ok
                                then disk_read d (ata_drive r, ata_lba r)
                                else b_data b) b)]> bufs)
           None h r d bad)
    (Bio pt bufs (Some i) h r d bad).
Proof.
  intros Hb Hq. pose proof (lookup_lt_Some _ _ _ Hb) as Hlt.
  unfold ideintr. wsteps. cbn [bio_queue]. wsteps.
  rewrite (buf_at_lookup _ _ b) by done. rewrite Hq.
  destruct ((Z.land (b_flags b) B_DIRTY =? 0) && ok); wsteps; unfold upd_buf, wakeup;
    wsteps; simpl; wsteps; unfold bio_set_pt, bio_set_buf; simpl;
    rewrite (list_alter_Some _ bufs i b) by done;
    rewrite !list_alter_insert_same by done; [done|].
  by destruct b.
Qed.

(** Any request, whatever the drive answers. *)
Lemma iderw_run i s b (bad := bio_bad s (ide_key b)) :
  bio_queue s = None -> bio_buf s !! i = Some b -> has_cur (bio_pt s) ->
  b_dev b = 0 \/ bio_havedisk1 s = true ->
  b_flags b = B_BUSY \/ b_flags b = Z.lor B_BUSY (Z.lor B_VALID B_DIRTY) ->
  wp (iderw i) (fun _ s' =>
    bio_disk s' = served_disk b bad (bio_disk s) /\
    bio_buf s' = <[i := Buf (Z.lor B_BUSY B_VALID) (b_dev b) (b_sector b) (b_prev b)
      (b_next b) None (served_data b bad (bio_disk s))]> (bio_buf s) /\
    bio_queue s' = None /\ bio_havedisk1 s' = bio_havedisk1 s /\ bio_bad s' = bio_bad s /\
    pt_frame (bio_pt s) (bio_pt s')) s.
Proof.
  destruct s as [pt bufs q h tf d bd]. simpl in bad |- *. intros -> Hb Hcur Hdev Hfl.
  pose proof (lookup_lt_Some _ _ _ Hb) as Hlt.
  pose proof Hcur as (c & Hc & Hcl).
  set (t1 := upd_cur (fun p => p_set_state SLEEPING (p_set_chan (ChBuf i) p)) pt).
  set (t2 := wakeup1 (ChBuf i) t1).
  assert (pt_frame pt t1) as F1 by (by apply pt_frame_upd_cur).
  assert (pt_frame pt t2) as F2 by (etransitivity; [exact F1|apply pt_frame_wakeup1]).
  assert (pt_frame pt (upd_cur (p_set_chan ChNone) (upd_cur (p_set_state RUNNING) t2))) as F3.
  { etransitivity; [exact F2|]. etransitivity; by apply pt_frame_upd_cur. }
  assert (p_state (cur_proc t2) = RUNNABLE) as Hrun.
  { apply cur_state_wakeup1; [by eapply has_cur_frame|..];
      unfold t1; by rewrite cur_proc_upd_cur. }
  unfold iderw. wcall iderw_submit_idle; [exact Hb|done..|]. intros _ s1 ->.
  cbn [while_fuel]. wsteps. unfold iderw_wait at 1. wsteps.
  rewrite (buf_at_lookup _ _ (b_set_qnext None b)) by (by apply list_lookup_insert_eq).
  simpl b_flags.
  assert ((Z.land (b_flags b) (Z.lor B_VALID B_DIRTY) =? B_VALID) = false) as ->
    by (destruct Hfl as [-> | ->]; done).
  wsteps. simpl. rewrite Hc. wsteps. simpl.
  wcall ideintr_last; [by apply list_lookup_insert_eq|done|]. intros _ s2 ->. wsteps.
  simpl bio_pt. fold t1. fold t2. rewrite Hrun. rewrite decide_True by done.
  wsteps. simpl. unfold sleep_return. wsteps. cbn [while_fuel]. wsteps.
  unfold iderw_wait. wsteps.
  rewrite list_insert_insert_eq. erewrite buf_at_lookup by (by apply list_lookup_insert_eq).
  simpl b_flags.
  assert (Z.ldiff (Z.lor (b_flags b) B_VALID) B_DIRTY = Z.lor B_BUSY B_VALID) as ->
    by (destruct Hfl as [-> | ->]; done).
  change (Z.land (Z.lor B_BUSY B_VALID) (Z.lor B_VALID B_DIRTY) =? B_VALID) with true.
  wsteps. simpl. split_and!; try done. do 2 f_equal. unfold served_data, served_disk, drive_ok. cbn [bio_bad bio_tf].
  change (ata_drive _, ata_lba _) with (ide_key b). fold bad.
  destruct (Z.land (b_flags b) B_DIRTY =? 0); done.
Qed.

(** A request that the drive serves. *)
Lemma iderw_idle i s b :
  bio_queue s = None -> bio_buf s !! i = Some b -> has_cur (bio_pt s) ->
  b_dev b = 0 \/ bio_havedisk1 s = true ->
  b_flags b = B_BUSY \/ b_flags b = Z.lor B_BUSY (Z.lor B_VALID B_DIRTY) ->
  bio_bad s (ide_key b) = false ->
  wp (iderw i) (fun _ s' =>
    (if Z.land (b_flags b) B_DIRTY =? 0
     then bio_disk s' = bio_disk s /\
          bio_buf s' = <[i := Buf (Z.lor B_BUSY B_VALID) (b_dev b) (b_sector b) (b_prev b)
            (b_next b) None (disk_read (bio_disk s) (ide_key b))]> (bio_buf s)
     else bio_disk s' = <[ide_key b := b_data b]> (bio_disk s) /\
          bio_buf s' = <[i := Buf (Z.lor B_BUSY B_VALID) (b_dev b) (b_sector b) (b_prev b)
            (b_next b) None (b_data b)]> (bio_buf s)) /\
    bio_queue s' = None /\ bio_havedisk1 s' = bio_havedisk1 s /\ bio_bad s' = bio_bad s /\
    pt_frame (bio_pt s) (bio_pt s')) s.
Proof.
  intros Hq Hb Hc Hdev Hfl Hok. eapply wp_mono; [by apply (iderw_run i s b)|]. cbv beta zeta. rewrite Hok.
  intros _ s' (Hd & Hbf & Hrest). split; [|done]. unfold served_disk, served_data in *. cbn [negb] in *.
  rewrite andb_true_r in Hbf. rewrite orb_false_r in Hd. by destruct (Z.land (b_flags b) B_DIRTY =? 0).
Qed.
