(* ===== verification/Bio.v ===== *)
(** * The buffer cache (kernel/bio.c)

    [bcache] is an array of NBUF buffers on a ring through [prev] and [next],
    most recently used first, with [bcache.head] as the sentinel.  The
    definitions follow the pointers as the code does; [ring] relates them to
    a list, and the specifications at the end of the file say what the cache
    promises to the file system: [bread] gives the contents of the disk
    sector, [bwrite] puts the buffer on the disk, and a buffer in use is
    nobody else's. *)

From stdpp Require Import functions.
From S2P Require Import Prelude Monad Params ProcTable Ide.

(** ** Definitions *)

(** [&bcache.head]. *)
Definition HEAD : nat := Z.to_nat NBUF.

(** [b->dev = -1] of [binit]: no device. *)
Definition NODEV : Z := u32 (-1).

(** One round of [binit]'s loop: put [b] in front of the ring. *)
Definition binit_one (b : nat) : M bio unit :=
  let! hn := gets (fun s => b_next (buf_at HEAD s)) in
  modify (upd_buf b (b_set_next hn));;;
  modify (upd_buf b (b_set_prev HEAD));;;
  modify (upd_buf b (b_set_dev NODEV));;;
  let! hn := gets (fun s => b_next (buf_at HEAD s)) in
  modify (upd_buf hn (b_set_prev b));;;
  modify (upd_buf HEAD (b_set_next b)).

Definition binit : M bio unit :=
  modify (upd_buf HEAD (b_set_prev HEAD));;;
  modify (upd_buf HEAD (b_set_next HEAD));;;
  for_each (seq 0 HEAD) binit_one.

(** Follow [step] from [b] until the head or a buffer that satisfies [P];
    [None] when the fuel runs out. *)
Fixpoint scan (fuel : nat) (step : buf -> nat) (P : buf -> bool) (s : bio) (b : nat)
  : option (option nat) :=
  match fuel with
  | O => None
  | S fuel =>
      if decide (b = HEAD) then Some None
      else if P (buf_at b s) then Some (Some b)
      else scan fuel step P s (step (buf_at b s))
  end.

Definition scan_fuel : nat := S HEAD.

Definition bget (dev sector : Z) : M bio nat :=
  let! r := gets (fun s =>
    scan scan_fuel b_next
      (fun b => (b_dev b =? dev) && (b_sector b =? sector)) s (b_next (buf_at HEAD s))) in
  match r with
  | None => hang
  | Some (Some i) =>
      let! b := gets (buf_at i) in
      if Z.land (b_flags b) B_BUSY =? 0 then
        modify (upd_buf i (fun b => b_set_flags (Z.lor (b_flags b) B_BUSY) b));;;
        ret i
      else zoom pt_of_bio (sleep (ChBuf i))
  | Some None =>
      let! r := gets (fun s =>
        scan scan_fuel b_prev
          (fun b => Z.land (b_flags b) B_BUSY =? 0) s (b_prev (buf_at HEAD s))) in
      match r with
      | None => hang
      | Some (Some i) =>
          modify (upd_buf i (b_set_dev dev));;;
          modify (upd_buf i (b_set_sector sector));;;
          modify (upd_buf i (b_set_flags B_BUSY));;;
          ret i
      | Some None => panic "bget: no buffers"
      end
  end.

Definition bread (dev sector : Z) : M bio nat :=
  let! i := bget dev sector in
  let! b := gets (buf_at i) in
  (if Z.land (b_flags b) B_VALID =? 0 then iderw i else ret tt);;;
  ret i.

Definition bwrite (i : nat) : M bio unit :=
  let! b := gets (buf_at i) in
  if Z.land (b_flags b) B_BUSY =? 0 then panic "bwrite"
  else
    modify (upd_buf i (fun b => b_set_flags (Z.lor (b_flags b) B_DIRTY) b));;;
    iderw i.

Definition brelse (i : nat) : M bio unit :=
  let! b := gets (buf_at i) in
  if Z.land (b_flags b) B_BUSY =? 0 then panic "brelse"
  else
    let! b := gets (buf_at i) in
    modify (upd_buf (b_next b) (b_set_prev (b_prev b)));;;
    let! b := gets (buf_at i) in
    modify (upd_buf (b_prev b) (b_set_next (b_next b)));;;
    let! hn := gets (fun s => b_next (buf_at HEAD s)) in
    modify (upd_buf i (b_set_next hn));;;
    modify (upd_buf i (b_set_prev HEAD));;;
    let! hn := gets (fun s => b_next (buf_at HEAD s)) in
    modify (upd_buf hn (b_set_prev i));;;
    modify (upd_buf HEAD (b_set_next i));;;
    modify (upd_buf i (fun b => b_set_flags (Z.ldiff (b_flags b) B_BUSY) b));;;
    zoom pt_of_bio (wakeup (ChBuf i)).

(** [bp->data] and its assignment. *)
Definition bdata (i : nat) (s : bio) : list Z := b_data (buf_at i s).
Definition set_bdata (i : nat) (d : list Z) : M bio unit :=
  modify (upd_buf i (b_set_data d)).

(** ** The ring of buffers *)

(** [seg nx pv p l q]: following [nx] from [p] visits [l] and arrives at [q],
    and [pv] leads back. *)
Fixpoint seg (nx pv : nat -> nat) (p : nat) (l : list nat) (q : nat) : Prop :=
  match l with
  | [] => nx p = q /\ pv q = p
  | x :: l => nx p = x /\ pv x = p /\ seg nx pv x l q
  end.

Definition nxt (s : bio) (i : nat) : nat := b_next (buf_at i s).
Definition prv (s : bio) (i : nat) : nat := b_prev (buf_at i s).

Definition ring (s : bio) (order : list nat) : Prop :=
  order ≡ₚ seq 0 HEAD /\ seg (nxt s) (prv s) HEAD order HEAD.

Lemma seg_app nx pv p l1 x l2 q :
  seg nx pv p (l1 ++ x :: l2) q <-> seg nx pv p l1 x /\ seg nx pv x l2 q.
Proof.
  revert p. induction l1 as [|y l1 IH]; intros p; simpl; [tauto|].
  rewrite IH. tauto.
Qed.

Lemma seg_snoc nx pv p l x q :
  seg nx pv p (l ++ [x]) q <-> seg nx pv p l x /\ nx x = q /\ pv q = x.
Proof. apply seg_app. Qed.

(** The segment depends on [nx] before its end and on [pv] after its start. *)
Lemma seg_ext nx pv nx' pv' p l q :
  (forall x, x ∈ p :: l -> nx' x = nx x) -> (forall x, x ∈ l ++ [q] -> pv' x = pv x) ->
  seg nx pv p l q -> seg nx' pv' p l q.
Proof.
  revert p. induction l as [|y l IH]; intros p Hn Hp; simpl.
  - intros [? ?]. rewrite Hn by set_solver. by rewrite Hp by set_solver.
  - intros (? & ? & ?). rewrite Hn by set_solver. rewrite Hp by set_solver.
    split_and!; [done..|]. apply IH; [set_solver..|done].
Qed.

(** The neighbours of an element. *)
Lemma seg_last nx pv p l q : seg nx pv p l q -> pv q = default p (last l).
Proof.
  revert p. induction l as [|y l IH]; intros p; simpl; [tauto|].
  intros (_ & _ & H). rewrite (IH _ H). fold (last (y :: l)). rewrite last_cons.
  by destruct (last l).
Qed.

Lemma seg_head nx pv p l q : seg nx pv p l q -> nx p = default q (head l).
Proof. destruct l; simpl; tauto. Qed.

Lemma seg_reverse nx pv p l q : seg nx pv p l q -> seg pv nx q (reverse l) p.
Proof.
  revert p. induction l as [|x l IH]; intros p; simpl; [tauto|].
  intros (? & ? & ?). rewrite reverse_cons. apply seg_snoc. auto.
Qed.

(** Following [step] along a segment finds its first element that satisfies
    [P], when the fuel exceeds its length. *)
Lemma scan_seg fuel step P s nx pv p l :
  (forall i, step (buf_at i s) = nx i) -> seg nx pv p l HEAD -> HEAD ∉ l ->
  (length l < fuel)%nat ->
  scan fuel step P s (nx p) = Some (head (filter (fun i => P (buf_at i s) = true) l)).
Proof.
  intros Hstep. revert p fuel. induction l as [|x l IH]; intros p fuel Hs Hh Hf.
  - destruct fuel; simpl in *; [lia|]. destruct Hs as [-> _]. by rewrite decide_True.
  - destruct fuel as [|fuel]; simpl in *; [lia|]. destruct Hs as (-> & _ & Hs).
    rewrite decide_False by set_solver.
    rewrite filter_cons. destruct (P (buf_at x s)) eqn:E.
    + by rewrite decide_True.
    + rewrite decide_False by congruence. rewrite Hstep. apply IH; [done|set_solver|lia].
Qed.

Lemma default_last_in (p : nat) l : default p (last l) ∈ p :: l.
Proof.
  destruct (last l) as [a|] eqn:E; simpl.
  - right. by apply last_Some_elem_of.
  - left.
Qed.

(** Pointing the end of a segment at [b] instead of [x]. *)
Lemma seg_retarget nx pv p l x b :
  seg nx pv p l x -> NoDup (p :: l) -> b ∉ l ->
  let a := default p (last l) in
  seg (<[a := b]> nx) (<[b := a]> pv) p l b.
Proof.
  simpl. revert p. induction l as [|y l IH]; intros p Hs Hnd Hb; simpl.
  - by rewrite !fn_lookup_insert.
  - destruct Hs as (Hn & Hp & Hs). apply NoDup_cons in Hnd as [Hpl Hnd].
    fold (last (y :: l)). rewrite last_cons.
    replace (default p (match last l with Some y0 => Some y0 | None => Some y end))
      with (default y (last l)) by (by destruct (last l)).
    pose proof (default_last_in y l) as Ha.
    rewrite fn_lookup_insert_ne by (by intros <-).
    rewrite fn_lookup_insert_ne by set_solver.
    split_and!; [done..|]. apply IH; [done..|set_solver].
Qed.

(** Unlinking [x]: its neighbours point at each other. *)
Lemma seg_unlink nx pv l1 x l2 h :
  NoDup (h :: l1 ++ x :: l2) -> seg nx pv h (l1 ++ x :: l2) h ->
  seg (<[pv x := nx x]> nx) (<[nx x := pv x]> pv) h (l1 ++ l2) h.
Proof.
  intros Hnd [H1 H2]%seg_app.
  rewrite (seg_last _ _ _ _ _ H1), (seg_head _ _ _ _ _ H2).
  apply NoDup_cons in Hnd as [Hh Hnd]. apply NoDup_app in Hnd as (Hn1 & Hd & Hn2).
  assert (NoDup (h :: l1)) as Hnd1 by (apply NoDup_cons; set_solver).
  destruct l2 as [|b l2]; simpl.
  - rewrite app_nil_r. eapply seg_retarget; [done..|set_solver].
  - apply seg_app. split; [eapply seg_retarget; [done..|set_solver]|].
    destruct H2 as (_ & _ & H2). apply NoDup_cons in Hn2 as [Hx Hn2].
    apply NoDup_cons in Hn2 as [Hb Hn2].
    generalize (default_last_in h l1). generalize (default h (last l1)). intros a Ha.
    eapply seg_ext; [..|exact H2]; intros y Hy; apply fn_lookup_insert_ne; set_solver.
Qed.

(** Linking [x] in behind the head. *)
Lemma seg_link nx pv l x h :
  NoDup (h :: l) -> x ∉ h :: l -> seg nx pv h l h ->
  seg (<[h := x]> (<[x := nx h]> nx)) (<[nx h := x]> (<[x := h]> pv)) h (x :: l) h.
Proof.
  intros Hnd Hx Hs. apply NoDup_cons in Hnd as [Hh Hnd].
  simpl. rewrite fn_lookup_insert. split; [done|].
  destruct l as [|y l]; simpl in *.
  - destruct Hs as [-> _]. rewrite fn_lookup_insert_ne by set_solver.
    rewrite !fn_lookup_insert. rewrite fn_lookup_insert_ne by set_solver.
    by rewrite fn_lookup_insert.
  - destruct Hs as (-> & _ & Hs). apply NoDup_cons in Hnd as [Hy Hnd].
    rewrite fn_lookup_insert_ne by set_solver. rewrite !fn_lookup_insert.
    rewrite (fn_lookup_insert_ne _ h x) by set_solver. rewrite fn_lookup_insert.
    split_and!; [done..|].
    eapply seg_ext; [..|exact Hs]; intros z Hz; rewrite !fn_lookup_insert_ne; set_solver.
Qed.

(** ** Invariant

    Between operations every buffer is either unused or holds a valid copy of
    an addressable sector, no sector is cached twice, and a buffer that is
    not in use agrees with the disk.  The invariant is about drives that
    report no errors ([env_good]): after an error the code takes what is in
    the buffer for the sector's contents ([Ide.iderw_run]). *)

Definition BV : Z := Z.lor B_BUSY B_VALID.

Record bio_env (s : bio) : Prop := {
  env_len : length (bio_buf s) = S HEAD;
  env_queue : bio_queue s = None;
  env_cur : has_cur (bio_pt s);
  env_disk1 : bio_havedisk1 s = true;
  env_disk : forall k, is_block (disk_read (bio_disk s) k);
  env_good : forall k, bio_bad s k = false;
}.

Record bio_inv (s : bio) : Prop := {
  inv_env : bio_env s;
  inv_ring : exists order, ring s order;
  inv_block : forall i, (i < HEAD)%nat -> is_block (bdata i s);
  inv_state : forall i, (i < HEAD)%nat ->
    (b_flags (buf_at i s) = 0 /\ b_dev (buf_at i s) = NODEV) \/
    ((b_flags (buf_at i s) = B_VALID \/ b_flags (buf_at i s) = BV) /\
     dev_sector_ok (b_dev (buf_at i s)) (b_sector (buf_at i s)));
  inv_uniq : forall i j, (i < HEAD)%nat -> (j < HEAD)%nat -> b_dev (buf_at i s) <> NODEV ->
    b_dev (buf_at i s) = b_dev (buf_at j s) ->
    b_sector (buf_at i s) = b_sector (buf_at j s) -> i = j;
  inv_coh : forall i, (i < HEAD)%nat -> b_flags (buf_at i s) = B_VALID ->
    bdata i s = disk_read (bio_disk s) (b_dev (buf_at i s), b_sector (buf_at i s));
}.

(** [holds s H]: the invariant, with [H] the buffers in use and the device
    and sector each one holds. *)
Definition holds (s : bio) (H : gmap nat (Z * Z)) : Prop :=
  bio_inv s /\
  forall i k, H !! i = Some k <->
    (i < HEAD)%nat /\ b_flags (buf_at i s) = BV /\
    k = (b_dev (buf_at i s), b_sector (buf_at i s)).

(** The bytes of a disk sector. *)
Definition sector_of (s : bio) (dev sector : Z) : list Z :=
  disk_read (bio_disk s) (dev, sector).

Lemma dev_ok_NODEV dev sector : dev_sector_ok dev sector -> dev <> NODEV.
Proof. intros [[-> | ->] _]; done. Qed.

Lemma ring_same s s' order :
  (forall j, nxt s' j = nxt s j) -> (forall j, prv s' j = prv s j) ->
  ring s order -> ring s' order.
Proof.
  intros Hn Hp [Hperm Hs]. split; [done|]. eapply seg_ext; [..|exact Hs]; auto.
Qed.

Lemma ring_NoDup s order : ring s order -> NoDup (HEAD :: order).
Proof.
  intros [Hp _]. apply NoDup_cons. split.
  - rewrite Hp, elem_of_seq. lia.
  - rewrite Hp. apply NoDup_seq.
Qed.

Lemma ring_elem s order i : ring s order -> i ∈ order <-> (i < HEAD)%nat.
Proof. intros [Hp _]. rewrite Hp, elem_of_seq. lia. Qed.

(** One buffer [i] changes to a buffer in use; the others keep their
    fields. *)
Lemma holds_set s s' H i :
  holds s H -> (i < HEAD)%nat -> bio_env s' ->
  (forall j, j <> i -> buf_at j s' = buf_at j s) ->
  b_next (buf_at i s') = b_next (buf_at i s) ->
  b_prev (buf_at i s') = b_prev (buf_at i s) ->
  b_flags (buf_at i s') = BV ->
  dev_sector_ok (b_dev (buf_at i s')) (b_sector (buf_at i s')) ->
  is_block (bdata i s') ->
  (forall j, (j < HEAD)%nat -> j <> i -> b_dev (buf_at j s) <> NODEV ->
     (b_dev (buf_at j s), b_sector (buf_at j s)) <>
     (b_dev (buf_at i s'), b_sector (buf_at i s'))) ->
  (forall k, k <> (b_dev (buf_at i s'), b_sector (buf_at i s')) ->
     disk_read (bio_disk s') k = disk_read (bio_disk s) k) ->
  holds s' (<[i := (b_dev (buf_at i s'), b_sector (buf_at i s'))]> H).
Proof.
  intros [Hinv Hh] Hi Henv Hoth Hn Hp Hfl Hok Hblk Hfresh Hdk.
  assert (forall j, (j < HEAD)%nat -> b_flags (buf_at j s) = B_VALID -> j <> i ->
    (b_dev (buf_at j s), b_sector (buf_at j s)) <>
    (b_dev (buf_at i s'), b_sector (buf_at i s'))) as Hfv.
  { intros j Hj Hf Hne. apply Hfresh; [done..|].
    destruct (inv_state _ Hinv j Hj) as [[E _]|[_ E]]; [by rewrite Hf in E|].
    by eapply dev_ok_NODEV. }
  split.
  - split; [done|..].
    + destruct (inv_ring _ Hinv) as [o Ho]. exists o.
      eapply ring_same; [..|exact Ho]; intros j; unfold nxt, prv;
        (destruct (decide (j = i)) as [->|]; [done|by rewrite Hoth]).
    + intros j Hj. destruct (decide (j = i)) as [->|Hne]; [done|].
      unfold bdata. rewrite Hoth by done. by apply (inv_block _ Hinv).
    + intros j Hj. destruct (decide (j = i)) as [->|Hne]; [right; auto|].
      rewrite !Hoth by done. by apply (inv_state _ Hinv).
    + intros j k Hj Hk. destruct (decide (j = i)) as [->|Hji], (decide (k = i)) as [->|Hki];
        [done|..]; rewrite ?(Hoth _ Hji), ?(Hoth _ Hki); intros Hnd E1 E2.
      * destruct (Hfresh k Hk Hki); [by rewrite <- E1|by rewrite E1, E2].
      * destruct (Hfresh j Hj Hji); [done|by rewrite E1, E2].
      * by apply (inv_uniq _ Hinv).
    + intros j Hj. destruct (decide (j = i)) as [->|Hne]; [by rewrite Hfl|].
      unfold bdata. rewrite !Hoth by done. intros Hf.
      rewrite Hdk by (by apply Hfv). by apply (inv_coh _ Hinv).
  - intros j k. destruct (decide (j = i)) as [->|Hne].
    + rewrite lookup_insert_eq. naive_solver.
    + rewrite lookup_insert_ne by done. rewrite Hoth by done. apply Hh.
Qed.

(** ** Specifications of the cache's operations *)

Lemma buf_at_upd i j f s :
  (i < length (bio_buf s))%nat ->
  buf_at j (upd_buf i f s) = if decide (i = j) then f (buf_at i s) else buf_at j s.
Proof.
  intros. destruct (decide (i = j)) as [->|]; [by apply buf_at_upd_eq|by apply buf_at_upd_ne].
Qed.

Lemma length_upd_buf i f s : length (bio_buf (upd_buf i f s)) = length (bio_buf s).
Proof. simpl. apply length_alter. Qed.

Lemma lookup_buf_at i s :
  (i < length (bio_buf s))%nat -> bio_buf s !! i = Some (buf_at i s).
Proof.
  intros [b Hb]%lookup_lt_is_Some_2. unfold buf_at. by rewrite Hb.
Qed.

Lemma buf_at_insert i b s s' j :
  bio_buf s' = <[i := b]> (bio_buf s) -> (i < length (bio_buf s))%nat ->
  buf_at j s' = if decide (i = j) then b else buf_at j s.
Proof.
  intros E Hi. unfold buf_at. rewrite E. destruct (decide (i = j)) as [->|Hne].
  - by rewrite list_lookup_insert_eq.
  - by rewrite list_lookup_insert_ne.
Qed.

Lemma env_upd_buf i f s : bio_env s -> bio_env (upd_buf i f s).
Proof. intros []. split; try done. by rewrite length_upd_buf. Qed.

Lemma inv_len s i : bio_inv s -> (i < HEAD)%nat -> (i < length (bio_buf s))%nat.
Proof. intros Hinv. rewrite (env_len _ (inv_env _ Hinv)). lia. Qed.

(** The scans of [bget]: a hit is a buffer with the key; a miss means that no
    buffer has it. *)
Lemma scan_ring_next s order P :
  ring s order -> length order = HEAD ->
  scan scan_fuel b_next P s (b_next (buf_at HEAD s)) =
    Some (head (filter (fun i => P (buf_at i s) = true) order)).
Proof.
  intros Hr Hl. pose proof (ring_NoDup _ _ Hr) as Hnd. apply NoDup_cons in Hnd as [Hh _].
  destruct Hr as [_ Hs]. apply (scan_seg _ _ _ _ (nxt s) (prv s)); try done.
  rewrite Hl. unfold scan_fuel. lia.
Qed.

Lemma scan_ring_prev s order P :
  ring s order -> length order = HEAD ->
  scan scan_fuel b_prev P s (b_prev (buf_at HEAD s)) =
    Some (head (filter (fun i => P (buf_at i s) = true) (reverse order))).
Proof.
  intros Hr Hl. pose proof (ring_NoDup _ _ Hr) as Hnd. apply NoDup_cons in Hnd as [Hh _].
  destruct Hr as [_ Hs]. apply seg_reverse in Hs.
  apply (scan_seg _ _ _ _ (prv s) (nxt s)); [done|done|by rewrite elem_of_reverse|].
  rewrite length_reverse, Hl. unfold scan_fuel. lia.
Qed.

Lemma head_filter_Some {A} (P : A -> Prop) `{!forall x, Decision (P x)} l x :
  head (filter P l) = Some x -> P x /\ x ∈ l.
Proof.
  destruct (filter P l) as [|y l'] eqn:E; simpl; [done|]. intros [= ->].
  assert (x ∈ filter P l) as Hx by (rewrite E; left). by apply list_elem_of_filter in Hx.
Qed.

Lemma head_filter_None {A} (P : A -> Prop) `{!forall x, Decision (P x)} l x :
  head (filter P l) = None -> x ∈ l -> ~ P x.
Proof.
  destruct (filter P l) as [|y l'] eqn:E; simpl; [|done]. intros _ Hx HP.
  assert (x ∈ filter P l) as Hf by (by apply list_elem_of_filter). rewrite E in Hf.
  by apply elem_of_nil in Hf.
Qed.

(** With fewer than NBUF buffers in use, one is free. *)
Lemma free_buffer s H :
  holds s H -> (size H < HEAD)%nat -> exists i, (i < HEAD)%nat /\ b_flags (buf_at i s) <> BV.
Proof.
  intros [Hinv Hh] Hsz.
  destruct (decide (Exists (fun i => b_flags (buf_at i s) <> BV) (seq 0 HEAD))) as [He|He].
  - apply Exists_exists in He as (i & Hi%elem_of_seq & Hf). exists i. split; [lia|done].
  - apply not_Exists_Forall in He; [|apply _]. exfalso.
    assert (seq 0 HEAD ⊆ elements (dom H)) as Hsub.
    { intros i Hi. apply elem_of_elements, elem_of_dom.
      pose proof (proj1 (Forall_forall _ _) He i Hi) as Hf. simpl in Hf.
      apply dec_stable in Hf. apply elem_of_seq in Hi.
      exists (b_dev (buf_at i s), b_sector (buf_at i s)). apply Hh. split_and!; [lia|done..]. }
    assert (seq 0 HEAD ⊆+ elements (dom H)) as Hsm
      by (apply NoDup_submseteq; [apply NoDup_seq|done]).
    apply submseteq_length in Hsm. rewrite length_seq in Hsm.
    change (length (elements (dom H))) with (size (dom H)) in Hsm.
    rewrite size_dom in Hsm. lia.
Qed.

Lemma not_held s H i : holds s H -> b_flags (buf_at i s) <> BV -> H !! i = None.
Proof.
  intros [_ Hh] Hf. destruct (H !! i) as [k|] eqn:E; [|done].
  by apply Hh in E as (_ & ? & _).
Qed.

(** A cached sector that nobody uses: [bget] takes the buffer. *)
Lemma bread_hit s H dev sector i :
  holds s H -> dev_sector_ok dev sector -> (i < HEAD)%nat ->
  b_dev (buf_at i s) = dev -> b_sector (buf_at i s) = sector ->
  b_flags (buf_at i s) = B_VALID ->
  let s' := upd_buf i (fun b => b_set_flags (Z.lor (b_flags b) B_BUSY) b) s in
  holds s' (<[i := (dev, sector)]> H) /\ bdata i s' = sector_of s dev sector /\
  buf_at i s' = b_set_flags BV (buf_at i s).
Proof.
  intros Hh Hok Hi E1 E2 Hf s'. pose proof Hh as [Hinv HH].
  pose proof (inv_len _ _ Hinv Hi) as Hil.
  assert (buf_at i s' = b_set_flags BV (buf_at i s)) as Hbi.
  { unfold s'. rewrite buf_at_upd_eq by done. by rewrite Hf. }
  split_and!; [| |done].
  - assert (holds s' (<[i := (b_dev (buf_at i s'), b_sector (buf_at i s'))]> H)) as Hs'.
    { apply (holds_set s); unfold bdata; rewrite ?Hbi; simpl; try done.
      - by apply env_upd_buf, Hinv.
      - intros. by apply buf_at_upd_ne.
      - by rewrite E1, E2.
      - by apply Hinv.
      - intros j Hj Hne Hnd [= Q1 Q2]. apply Hne. by apply (inv_uniq _ Hinv). }
    rewrite Hbi in Hs'. simpl in Hs'. by rewrite E1, E2 in Hs'.
  - unfold bdata. rewrite Hbi. simpl. pose proof (inv_coh _ Hinv i Hi Hf) as Hc.
    unfold bdata in Hc. by rewrite Hc, E1, E2.
Qed.

(** A sector that is not cached: a free buffer is given to it and read. *)
Lemma bread_miss s H dev sector i :
  holds s H -> dev_sector_ok dev sector -> (i < HEAD)%nat ->
  (forall j, (j < HEAD)%nat -> (b_dev (buf_at j s), b_sector (buf_at j s)) <> (dev, sector)) ->
  b_flags (buf_at i s) <> BV ->
  wp (iderw i) (fun _ s' =>
    holds s' (<[i := (dev, sector)]> H) /\ bdata i s' = sector_of s dev sector /\
    bio_disk s' = bio_disk s /\ (forall j, j <> i -> buf_at j s' = buf_at j s) /\
    pt_frame (bio_pt s) (bio_pt s'))
    (upd_buf i (b_set_flags B_BUSY) (upd_buf i (b_set_sector sector)
      (upd_buf i (b_set_dev dev) s))).
Proof.
  intros Hh Hok Hi Hno Hf. pose proof Hh as [Hinv HH].
  pose proof (inv_len _ _ Hinv Hi) as Hil. pose proof (inv_env _ Hinv) as Henv.
  set (s1 := upd_buf i (b_set_flags B_BUSY) _).
  assert (buf_at i s1 = b_set_flags B_BUSY (b_set_sector sector (b_set_dev dev (buf_at i s)))) as Hb1.
  { unfold s1. rewrite !buf_at_upd_eq; rewrite ?length_upd_buf; done. }
  assert (bio_buf s1 !! i = Some (buf_at i s1)) as Hl1.
  { apply lookup_buf_at. unfold s1. by rewrite !length_upd_buf. }
  assert (forall j, j <> i -> buf_at j s1 = buf_at j s) as Hoth1.
  { intros. unfold s1. by rewrite !buf_at_upd_ne. }
  assert (bio_env s1) as Henv1 by (by repeat apply env_upd_buf).
  rewrite Hb1 in Hl1. eapply wp_mono; [eapply iderw_idle; [apply Henv1|exact Hl1|apply Henv1|..|apply Henv1]|].
  { right. apply Henv1. }
  { by left. }
  simpl. change (Z.land B_BUSY B_DIRTY =? 0) with true.
  rewrite ide_key_ok by done. simpl. intros _ s2 ([Hd Hb] & Hq & Hh1 & Hbd & Hfr).
  match type of Hb with _ = <[_ := _]> ?l => change l with (bio_buf s1) in Hb end.
  assert (length (bio_buf s1) = S HEAD) as Hlen1 by apply Henv1.
  assert (buf_at i s2 = Buf BV dev sector (b_prev (buf_at i s)) (b_next (buf_at i s)) None
            (sector_of s dev sector)) as Hb2.
  { rewrite (buf_at_insert _ _ _ _ _ Hb) by lia. by rewrite decide_True. }
  assert (forall j, j <> i -> buf_at j s2 = buf_at j s) as Hoth2.
  { intros j Hj. rewrite (buf_at_insert _ _ _ _ _ Hb) by lia.
    rewrite decide_False by done. by apply Hoth1. }
  split_and!; [| |done|done|done].
  - assert (holds s2 (<[i := (b_dev (buf_at i s2), b_sector (buf_at i s2))]> H)) as Hs'.
    { apply (holds_set s); unfold bdata; rewrite ?Hb2; simpl; try done.
      - split; try done.
        + rewrite Hb, length_insert. done.
        + eapply has_cur_frame; [done|apply Henv].
        + rewrite Hh1. apply Henv.
        + rewrite Hd. apply Henv.
        + rewrite Hbd. apply Henv.
      - apply Henv.
      - intros j Hj Hne _. by apply Hno.
      - intros k _. by rewrite Hd. }
    by rewrite Hb2 in Hs'.
  - unfold bdata. by rewrite Hb2.
Qed.

(** [bread] gives a buffer, not in use before, with the sector's bytes. *)
Lemma bread_spec s H dev sector :
  holds s H -> dev_sector_ok dev sector -> (size H < HEAD)%nat ->
  (forall i, H !! i <> Some (dev, sector)) ->
  wp (bread dev sector) (fun i s' =>
    H !! i = None /\ holds s' (<[i := (dev, sector)]> H) /\
    bdata i s' = sector_of s dev sector /\ bio_disk s' = bio_disk s /\
    (forall j, is_Some (H !! j) -> bdata j s' = bdata j s) /\
    pt_frame (bio_pt s) (bio_pt s')) s.
Proof.
  intros Hh Hok Hsz Hnot. pose proof Hh as [Hinv HH].
  destruct (inv_ring _ Hinv) as [order Hr].
  assert (length order = HEAD) as Hlo by (rewrite (proj1 Hr); apply length_seq).
  unfold bread, bget. wsteps. rewrite (scan_ring_next _ _ _ Hr Hlo).
  destruct (head _) as [i|] eqn:Ei.
  - apply head_filter_Some in Ei as [HP Hi]. apply (ring_elem _ _ _ Hr) in Hi.
    apply andb_prop in HP as [E1%Z.eqb_eq E2%Z.eqb_eq].
    assert (b_flags (buf_at i s) = B_VALID) as Hf.
    { destruct (inv_state _ Hinv i Hi) as [[_ E]|[[E|E] _]]; [|done|].
      - exfalso. eapply dev_ok_NODEV; [exact Hok|]. congruence.
      - exfalso. apply (Hnot i), HH. by rewrite E1, E2. }
    wsteps. rewrite Hf. change (Z.land B_VALID B_BUSY =? 0) with true. wsteps.
    destruct (bread_hit s H dev sector i) as (Hs' & Hd' & Hb'); [done..|].
    rewrite Hb'. change (Z.land (b_flags (b_set_flags BV (buf_at i s))) B_VALID =? 0) with false.
    wsteps. pose proof (not_held s H i Hh) as Hnh. rewrite Hf in Hnh.
    split_and!; [by apply Hnh|done..| |done].
    intros j [k Hk]. unfold bdata. rewrite buf_at_upd_ne; [done|].
    intros ->. rewrite Hnh in Hk; done.
  - destruct (free_buffer s H Hh Hsz) as (x & Hx & Hxf).
    wsteps. rewrite (scan_ring_prev _ _ _ Hr Hlo).
    destruct (head (filter _ (reverse order))) as [i|] eqn:Ep.
    2:{ exfalso. eapply (head_filter_None _ _ x Ep).
        - by rewrite elem_of_reverse, (ring_elem _ _ _ Hr).
        - destruct (inv_state _ Hinv x Hx) as [[-> _]|[[-> | E] _]]; done. }
    apply head_filter_Some in Ep as [HP Hi].
    rewrite elem_of_reverse, (ring_elem _ _ _ Hr) in Hi.
    assert (b_flags (buf_at i s) <> BV) as Hf by (intros E; by rewrite E in HP).
    wsteps.
    assert (buf_at i (upd_buf i (b_set_flags B_BUSY) (upd_buf i (b_set_sector sector)
      (upd_buf i (b_set_dev dev) s))) =
      b_set_flags B_BUSY (b_set_sector sector (b_set_dev dev (buf_at i s)))) as ->.
    { pose proof (inv_len _ _ Hinv Hi).
      rewrite !buf_at_upd_eq; rewrite ?length_upd_buf; done. }
    change (Z.land (b_flags _) B_VALID =? 0) with true.
    wcall bread_miss; [done..| |done|].
    + intros j Hj [= Q1 Q2]. eapply (head_filter_None _ _ j Ei).
      * by rewrite (ring_elem _ _ _ Hr).
      * by rewrite Q1, Q2, !Z.eqb_refl.
    + simpl. intros _ s' (Hs' & Hd & Hdk & Hoth & Hfr). wsteps.
      pose proof (not_held s H i Hh Hf) as Hnh.
      split_and!; [done..| |done].
      intros j [k Hk]. unfold bdata. rewrite Hoth; [done|]. by intros ->; rewrite Hnh in Hk.
Qed.

Lemma holds_lookup s H i dev sector :
  holds s H -> H !! i = Some (dev, sector) ->
  (i < HEAD)%nat /\ b_flags (buf_at i s) = BV /\ b_dev (buf_at i s) = dev /\
  b_sector (buf_at i s) = sector /\ dev_sector_ok dev sector.
Proof.
  intros [Hinv Hh] Hi. apply Hh in Hi as (Hi & Hf & [= -> ->]).
  split_and!; try done. destruct (inv_state _ Hinv i Hi) as [[E _]|[_ E]]; [|done].
  by rewrite Hf in E.
Qed.

Lemma holds_fresh s H i j dev sector :
  holds s H -> H !! i = Some (dev, sector) -> (j < HEAD)%nat -> j <> i ->
  b_dev (buf_at j s) <> NODEV ->
  (b_dev (buf_at j s), b_sector (buf_at j s)) <> (dev, sector).
Proof.
  intros Hh Hi Hj Hne Hnd [= E1 E2]. pose proof Hh as [Hinv _].
  destruct (holds_lookup _ _ _ _ _ Hh Hi) as (Hil & _ & E3 & E4 & _).
  apply Hne. apply (inv_uniq _ Hinv); congruence.
Qed.

(** Writing the buffer's bytes in memory leaves the rest alone. *)
Lemma set_bdata_spec s H i dev sector d :
  holds s H -> H !! i = Some (dev, sector) -> is_block d ->
  wp (set_bdata i d) (fun _ s' =>
    holds s' H /\ bdata i s' = d /\ bio_disk s' = bio_disk s /\
    (forall j, j <> i -> bdata j s' = bdata j s) /\ bio_pt s' = bio_pt s) s.
Proof.
  intros Hh Hi Hd. pose proof Hh as [Hinv _].
  destruct (holds_lookup _ _ _ _ _ Hh Hi) as (Hil & Hf & E1 & E2 & Hok).
  pose proof (inv_len _ _ Hinv Hil) as Hlen.
  unfold set_bdata. wsteps. set (s' := upd_buf i _ s).
  assert (buf_at i s' = b_set_data d (buf_at i s)) as Hb by (by apply buf_at_upd_eq).
  split_and!; [| |done| |done].
  - rewrite <- (insert_id H i (dev, sector)) by done.
    replace (dev, sector) with (b_dev (buf_at i s'), b_sector (buf_at i s'))
      by (rewrite Hb; simpl; congruence).
    apply (holds_set s); unfold bdata; rewrite ?Hb; simpl; try done.
    + by apply env_upd_buf, Hinv.
    + intros. by apply buf_at_upd_ne.
    + by rewrite E1, E2.
    + rewrite E1, E2. intros. by eapply holds_fresh.
  - unfold bdata. by rewrite Hb.
  - intros. unfold bdata, s'. by rewrite buf_at_upd_ne.
Qed.

(** [bwrite] puts the buffer's bytes on the disk. *)
Lemma bwrite_spec s H i dev sector :
  holds s H -> H !! i = Some (dev, sector) ->
  wp (bwrite i) (fun _ s' =>
    holds s' H /\ bio_disk s' = <[(dev, sector) := bdata i s]> (bio_disk s) /\
    (forall j, bdata j s' = bdata j s) /\ pt_frame (bio_pt s) (bio_pt s')) s.
Proof.
  intros Hh Hi. pose proof Hh as [Hinv _]. pose proof (inv_env _ Hinv) as Henv.
  destruct (holds_lookup _ _ _ _ _ Hh Hi) as (Hil & Hf & E1 & E2 & Hok).
  pose proof (inv_len _ _ Hinv Hil) as Hlen.
  unfold bwrite. wsteps. rewrite Hf. change (Z.land BV B_BUSY =? 0) with false. wsteps.
  set (s1 := upd_buf i _ s).
  assert (buf_at i s1 = b_set_flags (Z.lor B_BUSY (Z.lor B_VALID B_DIRTY)) (buf_at i s)) as Hb1.
  { unfold s1. rewrite buf_at_upd_eq by done. by rewrite Hf. }
  assert (bio_env s1) as Henv1 by (by apply env_upd_buf).
  assert (bio_buf s1 !! i = Some (buf_at i s1)) as Hl1.
  { apply lookup_buf_at. unfold s1. by rewrite length_upd_buf. }
  rewrite Hb1 in Hl1. eapply wp_mono; [eapply iderw_idle; [apply Henv1|exact Hl1|apply Henv1|..|apply Henv1]|].
  { right. apply Henv1. }
  { by right. }
  simpl. change (Z.land _ B_DIRTY =? 0) with false.
  rewrite ide_key_ok by (simpl; by rewrite E1, E2). simpl. rewrite E1, E2.
  intros _ s2 ([Hd Hb] & Hq & Hh1 & Hbd & Hfr).
  match type of Hb with _ = <[_ := _]> ?l => change l with (bio_buf s1) in Hb end.
  assert (length (bio_buf s1) = S HEAD) as Hlen1 by apply Henv1.
  assert (buf_at i s2 = b_set_qnext None (buf_at i s)) as Hb2.
  { rewrite (buf_at_insert _ _ _ _ _ Hb) by lia. rewrite decide_True by done.
    unfold b_set_qnext. by rewrite Hf, E1, E2. }
  assert (forall j, j <> i -> buf_at j s2 = buf_at j s) as Hoth2.
  { intros j Hj. rewrite (buf_at_insert _ _ _ _ _ Hb) by lia.
    rewrite decide_False by done. by apply buf_at_upd_ne. }
  split_and!; [| done| |done].
  - rewrite <- (insert_id H i (dev, sector)) by done.
    replace (dev, sector) with (b_dev (buf_at i s2), b_sector (buf_at i s2))
      by (rewrite Hb2; simpl; congruence).
    apply (holds_set s); unfold bdata; rewrite ?Hb2; simpl; try done.
    + split; try done.
      * by rewrite Hb, length_insert.
      * eapply has_cur_frame; [done|apply Henv].
      * rewrite Hh1. apply Henv.
      * intros k. rewrite Hd. unfold disk_read. destruct (decide (k = (dev, sector))) as [->|].
        -- rewrite lookup_insert_eq. by apply Hinv.
        -- rewrite lookup_insert_ne by done. apply Henv.
      * rewrite Hbd. apply Henv.
    + by rewrite E1, E2.
    + by apply Hinv.
    + rewrite E1, E2. intros. by eapply holds_fresh.
    + rewrite E1, E2. intros k Hk. rewrite Hd. unfold disk_read. by rewrite lookup_insert_ne.
  - intros j. unfold bdata. destruct (decide (j = i)) as [->|]; [by rewrite Hb2|by rewrite Hoth2].
Qed.

(** Pointer assignments as updates of [nxt] and [prv]. *)
Lemma nxt_set_next k v s j :
  (k < length (bio_buf s))%nat -> nxt (upd_buf k (b_set_next v) s) j = (<[k := v]> (nxt s)) j.
Proof.
  intros. unfold nxt. rewrite buf_at_upd by done. destruct (decide (k = j)) as [->|].
  - by rewrite fn_lookup_insert.
  - by rewrite fn_lookup_insert_ne.
Qed.

Lemma prv_set_prev k v s j :
  (k < length (bio_buf s))%nat -> prv (upd_buf k (b_set_prev v) s) j = (<[k := v]> (prv s)) j.
Proof.
  intros. unfold prv. rewrite buf_at_upd by done. destruct (decide (k = j)) as [->|].
  - by rewrite fn_lookup_insert.
  - by rewrite fn_lookup_insert_ne.
Qed.

Lemma buf_at_upd_field {A} (g : buf -> A) k f s j :
  (forall b, g (f b) = g b) -> g (buf_at j (upd_buf k f s)) = g (buf_at j s).
Proof.
  intros Hf. destruct (decide (k < length (bio_buf s))%nat) as [Hk|Hk].
  - rewrite buf_at_upd by done. destruct (decide (k = j)) as [->|]; [by rewrite Hf|done].
  - unfold buf_at. simpl. destruct (decide (k = j)) as [->|].
    + rewrite list_lookup_alter_eq, lookup_ge_None_2 by lia. done.
    + by rewrite list_lookup_alter_ne.
Qed.

(** The pointer part of [brelse]. *)
Definition move_front (i : nat) (s : bio) : bio :=
  let s1 := upd_buf (nxt s i) (b_set_prev (prv s i)) s in
  let s2 := upd_buf (prv s1 i) (b_set_next (nxt s1 i)) s1 in
  let s3 := upd_buf i (b_set_next (nxt s2 HEAD)) s2 in
  let s4 := upd_buf i (b_set_prev HEAD) s3 in
  let s5 := upd_buf (nxt s4 HEAD) (b_set_prev i) s4 in
  upd_buf HEAD (b_set_next i) s5.

Lemma seg_bounds nx pv p l q x :
  seg nx pv p l q -> x ∈ p :: l -> nx x ∈ l ++ [q].
Proof.
  revert p. induction l as [|y l IH]; intros p Hs Hx; simpl in *.
  - destruct Hs as [<- _]. assert (x = p) as -> by set_solver. left.
  - destruct Hs as (<- & _ & Hs). apply elem_of_cons in Hx as [->|Hx]; [left|].
    right. by apply IH with (nx p).
Qed.

(** The neighbours of a ring element: on the ring and different from it. *)
Lemma ring_neighbours s l1 i l2 :
  ring s (l1 ++ i :: l2) ->
  i <> HEAD /\ nxt s i <> i /\ prv s i <> i /\ (prv s i < S HEAD)%nat /\
  forall x, x ∈ HEAD :: l1 ++ i :: l2 -> (nxt s x < S HEAD)%nat.
Proof.
  intros Hr. pose proof (ring_NoDup _ _ Hr) as Hnd. destruct Hr as [Hperm Hs].
  assert (forall x, x ∈ HEAD :: l1 ++ i :: l2 -> (x < S HEAD)%nat) as Hb.
  { intros x [->|Hx]%elem_of_cons; [lia|]. rewrite Hperm, elem_of_seq in Hx. lia. }
  assert (prv s i ∈ HEAD :: l1 ++ i :: l2) as Hp.
  { pose proof (seg_bounds _ _ _ _ _ i (seg_reverse _ _ _ _ _ Hs)) as H.
    rewrite elem_of_app, elem_of_reverse in H. set_solver. }
  split_and!; [| | |by apply Hb|].
  - apply NoDup_cons in Hnd as [Hh _]. set_solver.
  - apply seg_app in Hs as [_ Hs2]. rewrite (seg_head _ _ _ _ _ Hs2).
    apply NoDup_cons in Hnd as [Hh Hnd]. apply NoDup_app in Hnd as (_ & _ & Hn2).
    apply NoDup_cons in Hn2 as [Hn2 _]. destruct l2; simpl; set_solver.
  - apply seg_app in Hs as [Hs1 _]. rewrite (seg_last _ _ _ _ _ Hs1).
    apply NoDup_cons in Hnd as [Hh Hnd]. apply NoDup_app in Hnd as (_ & Hd & _).
    pose proof (default_last_in HEAD l1) as Hl. intros E. rewrite E in Hl. set_solver.
  - intros x Hx. apply Hb. pose proof (seg_bounds _ _ _ _ _ _ Hs Hx). set_solver.
Qed.

(** The pointer assignments of [brelse], read as updates of the two maps. *)
Lemma move_front_links s l1 i l2 :
  length (bio_buf s) = S HEAD -> ring s (l1 ++ i :: l2) ->
  let nx1 := <[prv s i := nxt s i]> (nxt s) in
  let pv1 := <[nxt s i := prv s i]> (prv s) in
  (forall j, nxt (move_front i s) j = (<[HEAD := i]> (<[i := nx1 HEAD]> nx1)) j) /\
  (forall j, prv (move_front i s) j = (<[nx1 HEAD := i]> (<[i := HEAD]> pv1)) j).
Proof.
  intros Hlen Hr nx1 pv1.
  destruct (ring_neighbours _ _ _ _ Hr) as (Hih & Hni & Hpi & Hbp & Hbn).
  assert (i < S HEAD)%nat as Hi
    by (pose proof (proj1 (ring_elem _ _ i Hr)) as H; assert (i < HEAD)%nat; [set_solver|lia]).
  unfold move_front.
  set (s1 := upd_buf (nxt s i) _ s). set (s2 := upd_buf (prv s1 i) _ s1).
  set (s3 := upd_buf i _ s2). set (s4 := upd_buf i _ s3).
  set (s5 := upd_buf (nxt s4 HEAD) _ s4).
  assert (forall j, prv s1 j = pv1 j) as P1.
  { intros j. unfold s1. apply prv_set_prev. rewrite Hlen. apply Hbn. set_solver. }
  assert (forall j, nxt s1 j = nxt s j) as N1 by (intros; by apply buf_at_upd_field).
  assert (prv s1 i = prv s i) as Pi by (rewrite P1; by apply fn_lookup_insert_ne).
  assert (length (bio_buf s2) = S HEAD) as L2 by (unfold s2, s1; by rewrite !length_upd_buf).
  assert (forall j, nxt s2 j = nx1 j) as N2.
  { intros j. unfold s2. rewrite nxt_set_next by (rewrite Pi; unfold s1; rewrite length_upd_buf; lia).
    rewrite Pi, N1. unfold nx1. destruct (decide (j = prv s i)) as [->|];
      [by rewrite !fn_lookup_insert|by rewrite !fn_lookup_insert_ne, N1]. }
  assert (forall j, prv s2 j = pv1 j) as P2
    by (intros j; rewrite <- P1; by apply buf_at_upd_field).
  assert (forall j, nxt s4 j = (<[i := nx1 HEAD]> nx1) j) as N4.
  { intros j. transitivity (nxt s3 j); [by apply buf_at_upd_field|].
    unfold s3. rewrite nxt_set_next by lia. rewrite N2. destruct (decide (j = i)) as [->|];
      [by rewrite !fn_lookup_insert|by rewrite !fn_lookup_insert_ne, N2]. }
  assert (length (bio_buf s4) = S HEAD) as L4 by (unfold s4, s3; by rewrite !length_upd_buf).
  assert (forall j, prv s4 j = (<[i := HEAD]> pv1) j) as P4.
  { intros j. unfold s4. rewrite prv_set_prev by (unfold s3; rewrite length_upd_buf; lia).
    assert (forall x, prv s3 x = pv1 x) as P3
      by (intros x; rewrite <- P2; by apply buf_at_upd_field).
    destruct (decide (j = i)) as [->|];
      [by rewrite !fn_lookup_insert|by rewrite !fn_lookup_insert_ne, P3]. }
  assert (nxt s4 HEAD = nx1 HEAD) as H4 by (rewrite N4; by apply fn_lookup_insert_ne).
  assert (nx1 HEAD < S HEAD)%nat as Hnx.
  { unfold nx1. destruct (decide (HEAD = prv s i)) as [<-|];
      [rewrite fn_lookup_insert|rewrite fn_lookup_insert_ne by done]; apply Hbn; set_solver. }
  split; intros j.
  - rewrite nxt_set_next by (unfold s5; rewrite length_upd_buf; lia).
    assert (forall x, nxt s5 x = (<[i := nx1 HEAD]> nx1) x) as N5
      by (intros x; rewrite <- N4; by apply buf_at_upd_field).
    destruct (decide (j = HEAD)) as [->|];
      [by rewrite !fn_lookup_insert|by rewrite !(fn_lookup_insert_ne _ HEAD)].
  - transitivity (prv s5 j); [by apply buf_at_upd_field|].
    unfold s5. rewrite prv_set_prev by lia. rewrite H4.
    destruct (decide (j = nx1 HEAD)) as [->|];
      [by rewrite !fn_lookup_insert|by rewrite !(fn_lookup_insert_ne _ (nx1 HEAD))].
Qed.

Lemma ring_move_front s l1 i l2 :
  length (bio_buf s) = S HEAD -> ring s (l1 ++ i :: l2) ->
  ring (move_front i s) (i :: l1 ++ l2).
Proof.
  intros Hlen Hr. pose proof (ring_NoDup _ _ Hr) as Hnd.
  destruct (move_front_links _ _ _ _ Hlen Hr) as [Hn Hp]. destruct Hr as [Hperm Hs].
  split; [rewrite <- Hperm; by rewrite Permutation_middle|].
  pose proof (seg_unlink _ _ _ _ _ _ Hnd Hs) as Hu.
  eapply seg_ext; [intros x _; apply Hn|intros x _; apply Hp|].
  apply NoDup_cons in Hnd as [Hh Hnd].
  rewrite <- Permutation_middle in Hnd, Hh. apply NoDup_cons in Hnd as [Hi Hnd].
  apply seg_link; [apply NoDup_cons|..|exact Hu]; set_solver.
Qed.

Lemma move_front_fields {A} (g : buf -> A) i s j :
  (forall v b, g (b_set_next v b) = g b) -> (forall v b, g (b_set_prev v b) = g b) ->
  g (buf_at j (move_front i s)) = g (buf_at j s).
Proof. intros Hn Hp. unfold move_front. by rewrite !buf_at_upd_field. Qed.

Lemma env_move_front i s : bio_env s -> bio_env (move_front i s).
Proof. intros. unfold move_front. by repeat apply env_upd_buf. Qed.

(** What [brelse] computes. *)
Lemma brelse_eq s i :
  b_flags (buf_at i s) = BV ->
  brelse i s =
    let s' := upd_buf i (fun b => b_set_flags (Z.ldiff (b_flags b) B_BUSY) b) (move_front i s) in
    Ret tt (bio_set_pt (wakeup1 (ChBuf i) (bio_pt s')) s').
Proof. intros Hf. unfold brelse, bind, gets. by rewrite Hf. Qed.

(** Releasing buffer [i] leaves the invariant with [i] not in use. *)
Lemma holds_release s s' H i dev sector :
  holds s H -> H !! i = Some (dev, sector) -> bdata i s = sector_of s dev sector ->
  bio_env s' -> (exists order, ring s' order) -> bio_disk s' = bio_disk s ->
  (forall j, b_dev (buf_at j s') = b_dev (buf_at j s) /\
             b_sector (buf_at j s') = b_sector (buf_at j s) /\ bdata j s' = bdata j s) ->
  (forall j, j <> i -> b_flags (buf_at j s') = b_flags (buf_at j s)) ->
  b_flags (buf_at i s') = B_VALID ->
  holds s' (delete i H).
Proof.
  intros Hh Hi Hd Henv Hr Hdk Hfld Hoth Hfi. pose proof Hh as [Hinv HH].
  destruct (holds_lookup _ _ _ _ _ Hh Hi) as (Hil & Hf & E1 & E2 & Hok).
  assert (forall j, b_dev (buf_at j s') = b_dev (buf_at j s)) as Fd by apply Hfld.
  assert (forall j, b_sector (buf_at j s') = b_sector (buf_at j s)) as Fs by apply Hfld.
  assert (forall j, bdata j s' = bdata j s) as Fb by apply Hfld.
  split; [split; [done|done|..]|].
  - intros j Hj. rewrite Fb. by apply Hinv.
  - intros j Hj. rewrite Fd, Fs. destruct (decide (j = i)) as [->|].
    + right. split; [by left|]. by rewrite E1, E2.
    + rewrite Hoth by done. by apply Hinv.
  - intros j k Hj Hk. rewrite !Fd, !Fs. by apply Hinv.
  - intros j Hj. rewrite Fd, Fs, Fb, Hdk. destruct (decide (j = i)) as [->|].
    + intros _. by rewrite E1, E2.
    + rewrite Hoth by done. by apply Hinv.
  - intros j k. rewrite Fd, Fs. destruct (decide (j = i)) as [->|].
    + rewrite lookup_delete_eq, Hfi. naive_solver.
    + rewrite lookup_delete_ne by done. rewrite Hoth by done. apply HH.
Qed.

(** [brelse] of a buffer that agrees with the disk: it is free again and the
    most recently used. *)
Lemma brelse_spec s H i dev sector :
  holds s H -> H !! i = Some (dev, sector) -> bdata i s = sector_of s dev sector ->
  wp (brelse i) (fun _ s' =>
    holds s' (delete i H) /\ bio_disk s' = bio_disk s /\
    (forall j, bdata j s' = bdata j s) /\ pt_frame (bio_pt s) (bio_pt s')) s.
Proof.
  intros Hh Hi Hd. pose proof Hh as [Hinv HH]. pose proof (inv_env _ Hinv) as Henv.
  destruct (holds_lookup _ _ _ _ _ Hh Hi) as (Hil & Hf & E1 & E2 & Hok).
  unfold wp. rewrite brelse_eq by done. cbv zeta. set (s1 := upd_buf i _ _).
  set (s2 := bio_set_pt _ s1).
  assert (length (bio_buf (move_front i s)) = S HEAD) as Hl by apply (env_move_front i s Henv).
  destruct (inv_ring _ Hinv) as [order Hr].
  destruct (list_elem_of_split order i) as (l1 & l2 & ->);
    [by rewrite (ring_elem _ _ _ Hr)|].
  assert (forall {A} (g : buf -> A) j, (forall v b, g (b_set_next v b) = g b) ->
    (forall v b, g (b_set_prev v b) = g b) -> (forall v b, g (b_set_flags v b) = g b) ->
    g (buf_at j s2) = g (buf_at j s)) as Hg.
  { intros A g j ???. change (buf_at j s2) with (buf_at j s1). unfold s1.
    rewrite buf_at_upd_field by done. by apply move_front_fields. }
  split_and!; [|done|intros j; by apply (Hg _ b_data)|apply pt_frame_wakeup1].
  eapply holds_release; [done..| | |done| | |].
  - pose proof (env_upd_buf i (fun b => b_set_flags (Z.ldiff (b_flags b) B_BUSY) b) _
      (env_move_front i s Henv)) as []. split; try done.
    eapply has_cur_frame; [apply pt_frame_wakeup1|done].
  - exists (i :: l1 ++ l2). eapply ring_same;
      [..|apply ring_move_front; [apply Henv|exact Hr]]; intros j;
      [by apply (buf_at_upd_field b_next)|by apply (buf_at_upd_field b_prev)].
  - intros j. split_and!; by apply Hg.
  - intros j Hj. change (buf_at j s2) with (buf_at j s1). unfold s1.
    rewrite buf_at_upd_ne by done. by apply move_front_fields.
  - change (buf_at i s2) with (buf_at i s1). unfold s1.
    rewrite buf_at_upd_eq by (rewrite Hl; lia). simpl.
    rewrite (move_front_fields b_flags) by done. by rewrite Hf.
Qed.

(** ** Blocks as the file system uses them

    [keeps H s s']: the run from [s] to [s'] ends with the buffers [H] in use
    and did not touch their bytes, nor the processes beyond their
    scheduling. *)

Definition keeps (H : gmap nat (Z * Z)) (s s' : bio) : Prop :=
  holds s' H /\ (forall j, is_Some (H !! j) -> bdata j s' = bdata j s) /\
  pt_frame (bio_pt s) (bio_pt s').

Definition free_key (H : gmap nat (Z * Z)) (k : Z * Z) : Prop :=
  forall i, H !! i <> Some k.

Lemma keeps_refl H s : holds s H -> keeps H s s.
Proof. by intros. Qed.

Lemma keeps_trans H s1 s2 s3 : keeps H s1 s2 -> keeps H s2 s3 -> keeps H s1 s3.
Proof.
  intros (? & B1 & ?) (? & B2 & ?). split_and!; [done| |by etransitivity].
  intros j Hj. by rewrite B2, B1.
Qed.

Lemma keeps_holds H s s' : keeps H s s' -> holds s' H.
Proof. by intros (? & _). Qed.

(** From a state with one more buffer in use. *)
Lemma keeps_sub H i k s s' :
  H !! i = None -> keeps (<[i := k]> H) s s' ->
  (forall j, is_Some (H !! j) -> bdata j s' = bdata j s) /\ bdata i s' = bdata i s.
Proof.
  intros Hi (_ & B & _). split; [|apply B; rewrite lookup_insert_eq; eauto].
  intros j Hj. apply B. rewrite lookup_insert_ne; [done|]. intros ->. rewrite Hi in Hj.
  by destruct Hj.
Qed.

Lemma size_insert_lt (H : gmap nat (Z * Z)) i k n :
  H !! i = None -> (S (size H) < n)%nat -> (size (<[i := k]> H) < n)%nat.
Proof. intros. by rewrite map_size_insert_None. Qed.

Lemma free_key_insert H i k k' :
  free_key H k -> k' <> k -> free_key (<[i := k']> H) k.
Proof.
  intros Hf Hne j. destruct (decide (i = j)) as [->|].
  - rewrite lookup_insert_eq. congruence.
  - rewrite lookup_insert_ne by done. apply Hf.
Qed.

(** Between [s] and [s'] the buffer [i] was taken for the block [k], besides
    the buffers [H]. *)
Record opened (H : gmap nat (Z * Z)) (i : nat) (k : Z * Z) (s s' : bio) : Prop := {
  op_fresh : H !! i = None;
  op_holds : holds s' (<[i := k]> H);
  op_data : forall j, is_Some (H !! j) -> bdata j s' = bdata j s;
  op_pt : pt_frame (bio_pt s) (bio_pt s');
}.

Lemma opened_ne H i k s s' j : opened H i k s s' -> is_Some (H !! j) -> j <> i.
Proof. intros Ho Hj ->. rewrite (op_fresh _ _ _ _ _ Ho) in Hj. by destruct Hj. Qed.

(** A callee that keeps all the buffers in use. *)
Lemma opened_keeps H i k s s1 s2 :
  opened H i k s s1 -> keeps (<[i := k]> H) s1 s2 ->
  opened H i k s s2 /\ bdata i s2 = bdata i s1.
Proof.
  intros [Hi Hh D P] K. destruct (keeps_sub _ _ _ _ _ Hi K) as [D2 Di].
  destruct K as (? & _ & ?). split; [|done]. split; [done..| |by etransitivity].
  intros j Hj. by rewrite D2, D.
Qed.

Lemma keeps_opened H i k s0 s s1 : keeps H s0 s -> opened H i k s s1 -> opened H i k s0 s1.
Proof.
  intros (_ & D0 & P0) [Hi Hh D P]. split; [done..| |by etransitivity].
  intros j Hj. by rewrite D, D0.
Qed.

(** Look at a block: [bread], then the rest with the buffer in use. *)
Lemma wp_bread H dev sector (Q : nat -> bio -> Prop) s :
  holds s H -> dev_sector_ok dev sector -> (size H < HEAD)%nat -> free_key H (dev, sector) ->
  (forall i s', opened H i (dev, sector) s s' ->
     bdata i s' = sector_of s dev sector -> bio_disk s' = bio_disk s -> Q i s') ->
  wp (bread dev sector) Q s.
Proof.
  intros Hh Hok Hsz Hf HK.
  eapply wp_mono; [by eapply bread_spec|]. simpl.
  intros i s' (? & ? & ? & ? & ? & ?). by apply HK.
Qed.

(** Done with an unchanged block. *)
Lemma wp_brelse H i dev sector (Q : unit -> bio -> Prop) s0 s :
  opened H i (dev, sector) s0 s -> bdata i s = sector_of s dev sector ->
  (forall s', keeps H s0 s' -> bio_disk s' = bio_disk s -> Q tt s') ->
  wp (brelse i) Q s.
Proof.
  intros [Hi Hh D P] Hd HK.
  eapply wp_mono; [eapply brelse_spec; [done|apply lookup_insert_eq|done]|]. simpl.
  intros [] s' (Hh' & ? & O & ?). apply HK; try done.
  rewrite delete_insert_id in Hh' by done. split_and!; [done| |by etransitivity].
  intros j Hj. by rewrite O, D.
Qed.

(** Change a block: assign the buffer and [bwrite]. *)
Lemma wp_write H i dev sector d (Q : unit -> bio -> Prop) s0 s :
  opened H i (dev, sector) s0 s -> is_block d ->
  (forall s', opened H i (dev, sector) s0 s' -> bdata i s' = d ->
     bio_disk s' = <[(dev, sector) := d]> (bio_disk s) -> Q tt s') ->
  wp (set_bdata i d) (fun _ s1 => wp (bwrite i) Q s1) s.
Proof.
  intros Ho Hd HK. pose proof Ho as [Hi Hh D P].
  eapply wp_mono; [eapply set_bdata_spec; [done|apply lookup_insert_eq|done]|]. simpl.
  intros _ s1 (Hh1 & D1 & Dk1 & O1 & P1).
  eapply wp_mono; [eapply bwrite_spec; [done|apply lookup_insert_eq]|]. simpl.
  intros [] s2 (Hh2 & Dk2 & O2 & P2). apply HK.
  - split; [done..| |by etransitivity; [done|rewrite <- P1]].
    intros j Hj. rewrite O2, O1; [by apply D|by eapply opened_ne].
  - by rewrite O2, D1.
  - by rewrite Dk2, D1, Dk1.
Qed.

(** ... and [brelse]. *)
Lemma wp_commit_end H i dev sector d (Q : unit -> bio -> Prop) s0 s :
  opened H i (dev, sector) s0 s -> is_block d ->
  (forall s', keeps H s0 s' -> bio_disk s' = <[(dev, sector) := d]> (bio_disk s) -> Q tt s') ->
  wp (set_bdata i d) (fun _ s1 => wp (bwrite i;;; brelse i) Q s1) s.
Proof.
  intros Ho Hd HK.
  eapply wp_mono; [eapply (wp_write _ _ _ _ _ (fun _ s' => wp (brelse i) Q s')); [done..|]|].
  - intros s2 Ho2 B2 Dk2. eapply wp_brelse; [exact Ho2| |].
    + rewrite B2. unfold sector_of, disk_read. by rewrite Dk2, lookup_insert_eq.
    + intros s3 K3 Dk3. apply HK; [done|]. by rewrite Dk3, Dk2.
  - cbv beta. intros _ s1. apply wp_bind.
Qed.

Lemma wp_commit {A} H i dev sector d (K : unit -> M bio A) Q s0 s :
  opened H i (dev, sector) s0 s -> is_block d ->
  (forall s', keeps H s0 s' -> bio_disk s' = <[(dev, sector) := d]> (bio_disk s) ->
     wp (K tt) Q s') ->
  wp (set_bdata i d) (fun _ s1 => wp (bwrite i;;; bind (brelse i) K) Q s1) s.
Proof.
  intros Ho Hd HK.
  eapply wp_mono; [eapply (wp_commit_end _ _ _ _ _ (fun u s' => wp (K u) Q s')); done|].
  cbv beta. intros _ s1 Hw. apply wp_bind.
  apply (proj1 (wp_bind_iff (bwrite i) _ _ _)) in Hw.
  eapply wp_mono; [exact Hw|]. cbv beta. intros _ s2 Hw2. by apply wp_bind.
Qed.

Lemma wpe_commit_end H i dev sector d (Q : unit -> bio -> Prop) E s0 s :
  opened H i (dev, sector) s0 s -> is_block d ->
  (forall s', keeps H s0 s' -> bio_disk s' = <[(dev, sector) := d]> (bio_disk s) -> Q tt s') ->
  wpe (set_bdata i d) (fun _ s1 => wpe (bwrite i;;; brelse i) Q E s1) E s.
Proof.
  intros Ho Hd HQ. apply wpe_wp.
  eapply wp_mono; [eapply (wp_commit_end _ _ _ _ _ Q); done|]. cbv beta. intros _ s1. apply wpe_wp.
Qed.

(** A wakeup leaves the cache alone. *)
Lemma keeps_wakeup s H c :
  holds s H -> keeps H s (bio_set_pt (wakeup1 c (bio_pt s)) s).
Proof.
  intros [[[? ? Hc ? ? ?] ? ? ? ? ?] Hh]. split_and!; [|done|apply pt_frame_wakeup1].
  split; [|done]. split; [|done..]. split; [done|done| |done|done|done].
  eapply has_cur_frame; [apply pt_frame_wakeup1|done].
Qed.
