(* ===== verification/Lru.v ===== *)
(** * Initialisation and replacement order of the buffer cache (kernel/bio.c)

    [binit] builds the ring and establishes the cache's invariant.  The ring
    is in the order of use: [brelse] moves a buffer to the front, and [bget]
    takes the last buffer that is not busy for a sector that is not cached. *)

From stdpp Require Import functions.
From S2P Require Import Prelude Monad Params ProcTable Ide Bio.

(** ** [binit] *)

(** The state [binit] runs in: zeroed buffers, an idle disk. *)
Definition bio_start (pt : ptable) (tf : taskfile) (d : gmap (Z * Z) (list Z)) : bio :=
  Bio pt (replicate (S HEAD) zero_buf) None true tf d no_errors.

(** The state after the buffers [l] were put on the ring. *)
Record linked_in (s0 s : bio) (l : list nat) : Prop := {
  li_rest : s = bio_set_buf (bio_buf s) s0;
  li_len : length (bio_buf s) = S HEAD;
  li_ring : seg (nxt s) (prv s) HEAD (reverse l) HEAD;
  li_zero : forall j, b_flags (buf_at j s) = 0 /\ bdata j s = zeros BSIZE;
  li_dev : forall j, j ∈ l -> b_dev (buf_at j s) = NODEV;
}.

Lemma zero_fields s :
  bio_buf s = replicate (S HEAD) zero_buf -> forall j, buf_at j s = zero_buf.
Proof.
  intros E j. unfold buf_at. rewrite E. destruct (decide (j < S HEAD)%nat).
  - by rewrite lookup_replicate_2.
  - by rewrite (proj1 (lookup_replicate_None (S HEAD) zero_buf j)) by lia.
Qed.

(** The pointer assignments of one round, as updates of the two maps. *)
Lemma binit_one_links s b :
  length (bio_buf s) = S HEAD -> (b < HEAD)%nat -> (nxt s HEAD < S HEAD)%nat ->
  exists s', binit_one b s = Ret tt s' /\ s' = bio_set_buf (bio_buf s') s /\
    length (bio_buf s') = S HEAD /\
    (forall j, nxt s' j = (<[HEAD := b]> (<[b := nxt s HEAD]> (nxt s))) j) /\
    (forall j, prv s' j = (<[nxt s HEAD := b]> (<[b := HEAD]> (prv s))) j) /\
    (forall j, b_flags (buf_at j s') = b_flags (buf_at j s) /\ bdata j s' = bdata j s) /\
    (forall j, b_dev (buf_at j s') = if decide (b = j) then NODEV else b_dev (buf_at j s)).
Proof.
  intros Hlen Hb Hn. eexists. split; [reflexivity|]. cbv beta.
  set (s1 := upd_buf b (b_set_next (b_next (buf_at HEAD s))) s).
  set (s2 := upd_buf b (b_set_prev HEAD) s1). set (s3 := upd_buf b (b_set_dev NODEV) s2).
  set (s4 := upd_buf (b_next (buf_at HEAD s3)) (b_set_prev b) s3).
  assert (length (bio_buf s1) = S HEAD) as L1 by (unfold s1; by rewrite length_upd_buf).
  assert (length (bio_buf s3) = S HEAD) as L3 by (unfold s3, s2; by rewrite !length_upd_buf).
  assert (b_next (buf_at HEAD s3) = nxt s HEAD) as Hh.
  { unfold s3, s2, s1. rewrite !(buf_at_upd_field b_next) by done.
    unfold nxt. rewrite buf_at_upd by lia. by rewrite decide_False by lia. }
  split; [done|]. split; [unfold s4; by rewrite !length_upd_buf|]. split_and!.
  - intros j. rewrite nxt_set_next by (unfold s4; rewrite length_upd_buf; lia).
    assert (forall x, nxt s4 x = (<[b := nxt s HEAD]> (nxt s)) x) as N4.
    { intros x. unfold s4, s3, s2, nxt. rewrite !(buf_at_upd_field b_next) by done.
      apply nxt_set_next. lia. }
    destruct (decide (j = HEAD)) as [->|];
      [by rewrite !fn_lookup_insert|rewrite fn_lookup_insert_ne, N4 by done; symmetry; by apply fn_lookup_insert_ne].
  - intros j. transitivity (prv s4 j); [by apply buf_at_upd_field|]. unfold s4. rewrite Hh, prv_set_prev by lia.
    assert (forall x, prv s3 x = (<[b := HEAD]> (prv s)) x) as P3.
    { intros x. transitivity (prv s2 x); [by apply buf_at_upd_field|]. unfold s2. rewrite prv_set_prev by lia.
      assert (forall y, prv s1 y = prv s y) as P1 by (intros; by apply buf_at_upd_field).
      destruct (decide (x = b)) as [->|];
        [by rewrite !fn_lookup_insert|rewrite fn_lookup_insert_ne, P1 by done; symmetry; by apply fn_lookup_insert_ne]. }
    destruct (decide (j = nxt s HEAD)) as [->|];
      [by rewrite !fn_lookup_insert|rewrite fn_lookup_insert_ne, P3 by done; symmetry; by apply fn_lookup_insert_ne].
  - intros j. unfold bdata, s4, s3, s2, s1. by rewrite !(buf_at_upd_field b_flags), !(buf_at_upd_field b_data).
  - intros j. rewrite (buf_at_upd_field b_dev) by done. unfold s4. rewrite (buf_at_upd_field b_dev) by done.
    unfold s3. rewrite buf_at_upd by (unfold s2; rewrite length_upd_buf; lia).
    case_decide; [done|]. unfold s2, s1. by rewrite !(buf_at_upd_field b_dev).
Qed.

Lemma binit_round s0 s l b :
  linked_in s0 s l -> NoDup (l ++ [b]) -> Forall (fun j => (j < HEAD)%nat) (l ++ [b]) ->
  wp (binit_one b) (fun _ s' => linked_in s0 s' (l ++ [b])) s.
Proof.
  intros [Lr Ll Lg Lz Ld] Hnd Hlt. apply NoDup_app in Hnd as (Hnd & Hd & _).
  apply Forall_app in Hlt as [Hl Hb]. rewrite Forall_singleton in Hb.
  assert (forall x, x ∈ HEAD :: reverse l -> (x < S HEAD)%nat) as Hlt.
  { intros x [->|Hx]%elem_of_cons; [lia|]. rewrite elem_of_reverse in Hx.
    rewrite Forall_forall in Hl. specialize (Hl x Hx). lia. }
  assert (nxt s HEAD < S HEAD)%nat as Hn.
  { apply Hlt. pose proof (seg_bounds _ _ _ _ _ HEAD Lg ltac:(set_solver)). set_solver. }
  destruct (binit_one_links s b Ll Hb Hn) as (s' & E & Er & El & En & Ep & Ez & Ed).
  apply wp_Ret. exists tt, s'. split; [done|]. split.
  - rewrite Er, Lr. done.
  - done.
  - rewrite reverse_snoc. eapply seg_ext; [intros; apply En|intros; apply Ep|].
    apply seg_link; [| |done].
    + constructor; [|by rewrite reverse_Permutation]. intros Hin. rewrite elem_of_reverse in Hin.
      rewrite Forall_forall in Hl. specialize (Hl _ Hin). lia.
    + intros [->|Hin]%elem_of_cons; [lia|]. rewrite elem_of_reverse in Hin. apply (Hd b Hin). set_solver.
  - intros j. destruct (Ez j) as [-> ->]. apply Lz.
  - intros j Hj. rewrite Ed. case_decide; [done|]. apply Ld. set_solver.
Qed.

Lemma binit_spec pt tf d :
  has_cur pt -> (forall k, is_block (disk_read d k)) ->
  wp binit (fun _ s' => holds s' ∅ /\ ring s' (reverse (seq 0 HEAD)) /\
    bio_disk s' = d /\ bio_pt s' = pt) (bio_start pt tf d).
Proof.
  intros Hc Hd. unfold binit. wsteps.
  set (s0 := upd_buf HEAD _ _).
  apply (wp_for_each (fun pre s => linked_in s0 s pre)).
  - split; [done|done|done| |set_solver].
    intros j. unfold bdata, s0. rewrite !(buf_at_upd_field b_flags), !(buf_at_upd_field b_data) by done.
    by rewrite zero_fields.
  - intros pre b post s Hs Hl. assert (NoDup (seq 0 HEAD)) as Hnd by apply NoDup_seq.
    rewrite Hs in Hnd. apply (binit_round s0); [done| |].
    + replace (pre ++ b :: post) with ((pre ++ [b]) ++ post) in Hnd by by rewrite <- app_assoc.
      by apply NoDup_app in Hnd as [? _].
    + apply Forall_forall. intros x Hx. assert (x ∈ seq 0 HEAD) as Hin by (rewrite Hs; set_solver).
      apply elem_of_seq in Hin. lia.
  - intros s [Lr Ll Lg Lz Ld].
    assert (ring s (reverse (seq 0 HEAD))) as Hr by (split; [by rewrite reverse_Permutation|done]).
    assert (forall i, (i < HEAD)%nat -> b_dev (buf_at i s) = NODEV) as Hnd
      by (intros i Hi; apply Ld; apply elem_of_seq; lia).
    split_and!; [|done|by rewrite Lr|by rewrite Lr]. split; [split|].
    + split; rewrite Lr; [by rewrite <- Lr|done..].
    + by eexists.
    + intros i _. rewrite (proj2 (Lz i)). apply is_block_zeros.
    + intros i Hi. left. split; [apply Lz|by apply Hnd].
    + intros i j Hi _ Hne. by destruct Hne; apply Hnd.
    + intros i _ Hf. by rewrite (proj1 (Lz i)) in Hf.
    + intros i k. split; [done|]. intros (_ & Hf & _). by rewrite (proj1 (Lz i)) in Hf.
Qed.

(** ** Order of use *)

Definition busy (s : bio) (i : nat) : bool := negb (Z.land (b_flags (buf_at i s)) B_BUSY =? 0).
Definition caches (s : bio) (dev sector : Z) (i : nat) : bool :=
  (b_dev (buf_at i s) =? dev) && (b_sector (buf_at i s) =? sector).

(** The buffer given to [(dev, sector)]. *)
Definition recycle (dev sector : Z) (i : nat) (s : bio) : bio :=
  upd_buf i (b_set_flags B_BUSY) (upd_buf i (b_set_sector sector) (upd_buf i (b_set_dev dev) s)).

Lemma length_ring s order : ring s order -> length order = HEAD.
Proof. intros [Hp _]. by rewrite (Permutation_length Hp), length_seq. Qed.

(** [bget] on the ring: the buffer that caches the sector, or the least
    recently used one that is not busy. *)
Lemma bget_eq s order dev sector :
  ring s order ->
  bget dev sector s =
  match head (filter (fun i => caches s dev sector i = true) order) with
  | Some i =>
      if busy s i then zoom pt_of_bio (sleep (ChBuf i)) s
      else Ret i (upd_buf i (fun b => b_set_flags (Z.lor (b_flags b) B_BUSY) b) s)
  | None =>
      match head (filter (fun i => busy s i = false) (reverse order)) with
      | Some i => Ret i (recycle dev sector i s)
      | None => Panic "bget: no buffers" s
      end
  end.
Proof.
  intros Hr. pose proof (length_ring _ _ Hr) as Hl. unfold bget, bind at 1, gets.
  rewrite (scan_ring_next _ order) by done. unfold caches.
  destruct (head _) as [i|]; unfold bind, gets.
  - unfold busy. by destruct (Z.land _ _ =? 0).
  - rewrite (scan_ring_prev _ order) by done.
    rewrite (list_filter_iff (fun i => busy s i = false) (fun i => (Z.land (b_flags (buf_at i s)) B_BUSY =? 0) = true)).
    2:{ intros i. unfold busy. by destruct (_ =? 0). }
    by destruct (head _).
Qed.

Lemma head_filter_first {A} (P : A -> Prop) `{!forall x, Decision (P x)} (l1 l2 : list A) x :
  P x -> Forall (fun y => ~ P y) l1 -> head (filter P (l1 ++ x :: l2)) = Some x.
Proof.
  intros Hx Hl. rewrite filter_app, filter_cons_True by done.
  induction Hl as [|y l1 Hy _ IH]; [done|]. by rewrite filter_cons_False.
Qed.

Lemma head_filter_none {A} (P : A -> Prop) `{!forall x, Decision (P x)} (l : list A) :
  Forall (fun y => ~ P y) l -> head (filter P l) = None.
Proof. intros Hl. induction Hl as [|y l Hy _ IH]; [done|]. by rewrite filter_cons_False. Qed.

(** No operation of [bget] changes the order. *)
Lemma ring_upd_flags i f s order :
  (forall b, b_next (f b) = b_next b /\ b_prev (f b) = b_prev b) -> ring s order -> ring (upd_buf i f s) order.
Proof.
  intros Hf. apply ring_same; intros x; unfold nxt, prv.
  - apply buf_at_upd_field. intros. by apply Hf.
  - apply buf_at_upd_field. intros. by apply Hf.
Qed.

(** A hit: the buffer that caches the sector. *)
Lemma bget_hit s newer i older dev sector (order := newer ++ i :: older)
  (s' := upd_buf i (fun b => b_set_flags (Z.lor (b_flags b) B_BUSY) b) s) :
  ring s order -> Forall (fun j => caches s dev sector j = false) newer ->
  caches s dev sector i = true -> busy s i = false ->
  bget dev sector s = Ret i s' /\ ring s' order.
Proof.
  intros Hr Hn Hi Hb. split; [|by apply ring_upd_flags]. rewrite (bget_eq _ _ _ _ Hr).
  unfold order. rewrite head_filter_first; [by rewrite Hb|done|].
  eapply Forall_impl; [done|]. cbv beta. intros x Hx. by rewrite Hx.
Qed.

(** The victim of a miss: the last buffer of the order that is not busy. *)
Lemma bget_victim s newer i older dev sector (order := newer ++ i :: older) :
  ring s order -> Forall (fun j => caches s dev sector j = false) order ->
  busy s i = false -> Forall (fun j => busy s j = true) older ->
  bget dev sector s = Ret i (recycle dev sector i s) /\ ring (recycle dev sector i s) order.
Proof.
  intros Hr Hm Hb Ho. split; [|by repeat apply ring_upd_flags]. rewrite (bget_eq _ _ _ _ Hr), head_filter_none.
  2:{ eapply Forall_impl; [done|]. cbv beta. intros x Hx. by rewrite Hx. }
  unfold order. rewrite reverse_app, reverse_cons, <- app_assoc. cbn [app].
  rewrite head_filter_first; [done|done|]. apply Forall_reverse.
  eapply Forall_impl; [done|]. cbv beta. intros x Hx. by rewrite Hx.
Qed.

Lemma bget_none s order dev sector :
  ring s order -> Forall (fun j => caches s dev sector j = false) order ->
  Forall (fun j => busy s j = true) order -> bget dev sector s = Panic "bget: no buffers" s.
Proof.
  intros Hr Hm Hb. rewrite (bget_eq _ _ _ _ Hr), head_filter_none, head_filter_none; [done|..].
  - apply Forall_reverse. eapply Forall_impl; [exact Hb|]. cbv beta. intros x Hx. by rewrite Hx.
  - eapply Forall_impl; [exact Hm|]. cbv beta. intros x Hx. by rewrite Hx.
Qed.

(** [brelse] makes the buffer the most recently used one. *)
Lemma brelse_front s newer i older :
  length (bio_buf s) = S HEAD -> ring s (newer ++ i :: older) -> b_flags (buf_at i s) = BV ->
  wp (brelse i) (fun _ s' => ring s' (i :: newer ++ older)) s.
Proof.
  intros Hlen Hr Hf. unfold wp. rewrite brelse_eq by done.
  eapply ring_same; [..|by apply ring_move_front]; intros j; unfold nxt, prv; cbn [bio_set_pt];
    change (buf_at j (bio_set_pt ?t ?x)) with (buf_at j x);
    by rewrite ?(buf_at_upd_field b_next), ?(buf_at_upd_field b_prev).
Qed.

(** ** Drive errors *)

(** [bread] of a sector that is not cached and that the drive cannot read: the
    buffer comes back marked valid with the bytes that it held before for
    another sector. *)
Lemma bread_error s H dev sector bad :
  holds s H -> dev_sector_ok dev sector -> (size H < HEAD)%nat -> bad (dev, sector) = true ->
  (forall j, (j < HEAD)%nat -> caches s dev sector j = false) ->
  wp (bread dev sector) (fun i s' =>
    H !! i = None /\ b_flags (buf_at i s') = BV /\ caches s' dev sector i = true /\
    bdata i s' = bdata i s /\ bio_disk s' = bio_disk s) (bio_set_bad bad s).
Proof.
  intros Hh Hk Hsz Hbad Hno. pose proof Hh as [Hinv _]. destruct (inv_ring _ Hinv) as [order Hr].
  destruct (free_buffer s H Hh Hsz) as (x & Hx & Hxf). apply wp_bind. unfold wp at 1.
  rewrite (bget_eq (bio_set_bad bad s) order dev sector Hr), head_filter_none.
  2:{ apply Forall_forall. intros j Hj%(ring_elem _ _ _ Hr). change (caches (bio_set_bad bad s)) with (caches s). by rewrite Hno. }
  destruct (head (filter _ (reverse order))) as [i|] eqn:Ep.
  2:{ exfalso. eapply (head_filter_None _ _ x Ep).
      - by rewrite elem_of_reverse, (ring_elem _ _ _ Hr).
      - unfold busy. change (buf_at x (bio_set_bad bad s)) with (buf_at x s).
        destruct (inv_state _ Hinv x Hx) as [[-> _]|[[-> | E] _]]; done. }
  apply head_filter_Some in Ep as [HP Hi]. rewrite elem_of_reverse, (ring_elem _ _ _ Hr) in Hi.
  assert (b_flags (buf_at i s) <> BV) as Hf.
  { intros E. unfold busy in HP. change (buf_at i (bio_set_bad bad s)) with (buf_at i s) in HP. by rewrite E in HP. }
  pose proof (inv_len _ _ Hinv Hi) as Hil. set (s1 := recycle dev sector i (bio_set_bad bad s)).
  assert (buf_at i s1 = b_set_flags B_BUSY (b_set_sector sector (b_set_dev dev (buf_at i s)))) as Hb1.
  { unfold s1, recycle. rewrite !buf_at_upd_eq; rewrite ?length_upd_buf; done. }
  wsteps. rewrite Hb1. change (Z.land (b_flags _) B_VALID =? 0) with true. cbv iota.
  assert (bio_buf s1 !! i = Some (buf_at i s1)) as Hl1.
  { apply lookup_buf_at. unfold s1, recycle. by rewrite !length_upd_buf. }
  rewrite Hb1 in Hl1. wcall iderw_run; [apply Hinv|exact Hl1|apply Hinv|right; apply Hinv|by left|].
  cbv beta. rewrite ide_key_ok by done. cbn [b_dev b_sector b_set_flags b_set_sector b_set_dev].
  change (bio_bad s1 (dev, sector)) with (bad (dev, sector)). rewrite Hbad.
  intros _ s2 (Hd & Hb & _). wsteps.
  assert (buf_at i s2 = Buf BV dev sector (b_prev (buf_at i s)) (b_next (buf_at i s)) None (b_data (buf_at i s))) as Hb2.
  { rewrite (buf_at_insert _ _ _ _ _ Hb) by (unfold s1, recycle; by rewrite !length_upd_buf). by rewrite decide_True. }
  split_and!; [by apply (not_held s)|by rewrite Hb2| |unfold bdata; by rewrite Hb2|done].
  unfold caches. rewrite Hb2. cbn. by rewrite !Z.eqb_refl.
Qed.
