(* ===== verification/Block.v ===== *)
(** * The disk block allocator (kernel/fs.c, "Blocks")

    A bitmap on the disk, one bit per block, says which blocks are in use.
    [balloc] takes the first free block, [bfree] zeroes a block and gives it
    back. *)

From S2P Require Import Prelude Monad Params ProcTable Ide Bio.

(** ** Definitions *)

Definition readsb (dev : Z) : M bio superblock :=
  let! bp := bread dev 1 in
  let! sb := gets (fun s => superblock_at (bdata bp s)) in
  brelse bp;;;
  ret sb.

Definition bzero (dev bno : Z) : M bio unit :=
  let! bp := bread dev bno in
  let! d := gets (bdata bp) in
  set_bdata bp (splice 0 (zeros BSIZE) d);;;
  bwrite bp;;;
  brelse bp.

(** The scan of one bitmap block for a clear bit. *)
Definition balloc_block (bp : nat) (b : Z) : M bio (option Z) :=
  for_find (seqZ 0 BPB) (fun bi =>
    let m := Z.shiftl 1 (bi mod 8) in
    let! d := gets (bdata bp) in
    if Z.land (nthb d (bi / 8)) m =? 0 then
      set_bdata bp (<[Z.to_nat (bi / 8) := Z.lor (nthb d (bi / 8)) m]> d);;;
      bwrite bp;;;
      brelse bp;;;
      ret (Some (b + bi))
    else ret None).

(** The loop of [balloc] over the bitmap blocks. *)
Definition balloc_scan (dev : Z) (sb : superblock) : M bio (option Z) :=
  for_find (range 0 (sb_size sb) BPB) (fun b =>
    let! bp := bread dev (BBLOCK b (sb_ninodes sb)) in
    let! r := balloc_block bp b in
    match r with
    | Some x => ret (Some x)
    | None => brelse bp;;; ret None
    end).

Definition balloc (dev : Z) : M bio Z :=
  let! sb := readsb dev in
  let! r := balloc_scan dev sb in
  match r with
  | Some b => ret b
  | None => panic "balloc: out of blocks"
  end.

Definition bfree (dev b : Z) : M bio unit :=
  bzero dev b;;;
  let! sb := readsb dev in
  let! bp := bread dev (BBLOCK b (sb_ninodes sb)) in
  let bi := b mod BPB in
  let m := Z.shiftl 1 (bi mod 8) in
  let! d := gets (bdata bp) in
  if Z.land (nthb d (bi / 8)) m =? 0 then panic "freeing free block"
  else
    set_bdata bp (<[Z.to_nat (bi / 8) := Z.ldiff (nthb d (bi / 8)) m]> d);;;
    bwrite bp;;;
    brelse bp.

(** ** Bits of a bitmap block *)

Definition bit_of (d : list Z) (bi : Z) : bool := Z.testbit (nthb d (bi / 8)) (bi mod 8).

Definition set_bit (bi : Z) (d : list Z) : list Z :=
  <[Z.to_nat (bi / 8) := Z.lor (nthb d (bi / 8)) (Z.shiftl 1 (bi mod 8))]> d.

Definition clear_bit (bi : Z) (d : list Z) : list Z :=
  <[Z.to_nat (bi / 8) := Z.ldiff (nthb d (bi / 8)) (Z.shiftl 1 (bi mod 8))]> d.

Lemma testbit_shiftl1 k j : 0 <= k -> 0 <= j -> Z.testbit (Z.shiftl 1 k) j = (k =? j).
Proof.
  intros. rewrite Z.shiftl_1_l. rewrite Z.pow2_bits_eqb by lia. done.
Qed.

(** The test [(x & m) == 0] of the code reads the bit. *)
Lemma land_mask_zero x k : 0 <= k -> (Z.land x (Z.shiftl 1 k) =? 0) = negb (Z.testbit x k).
Proof.
  intros Hk. destruct (Z.testbit x k) eqn:E; simpl.
  - apply Z.eqb_neq. intros H. apply (f_equal (fun z => Z.testbit z k)) in H.
    rewrite Z.land_spec, E, testbit_shiftl1, Z.eqb_refl, Z.bits_0 in H by lia. done.
  - apply Z.eqb_eq. apply Z.bits_inj'. intros j Hj.
    rewrite Z.land_spec, testbit_shiftl1, Z.bits_0 by lia.
    destruct (Z.eqb_spec k j) as [->|]; [by rewrite E|apply andb_false_r].
Qed.

(** A byte is an integer with no bit above bit 7. *)
Lemma byte_bits x : is_byte x <-> forall n, 8 <= n -> Z.testbit x n = false.
Proof.
  unfold is_byte. split.
  - intros Hx n Hn. rewrite <- (Z.mod_small x (2 ^ 8)) by lia.
    by apply Z.mod_pow2_bits_high.
  - intros H. assert (x = x mod 2 ^ 8) as ->; [|apply Z.mod_pos_bound; lia].
    apply Z.bits_inj'. intros n Hn. rewrite Z.testbit_mod_pow2 by lia.
    destruct (Z.ltb_spec n 8); [done|by apply H].
Qed.

Lemma byte_lor x k : is_byte x -> 0 <= k < 8 -> is_byte (Z.lor x (Z.shiftl 1 k)).
Proof.
  rewrite !byte_bits. intros Hx Hk n Hn. rewrite Z.lor_spec, Hx by done.
  rewrite testbit_shiftl1 by lia. apply Z.eqb_neq. lia.
Qed.

Lemma byte_ldiff x m : is_byte x -> is_byte (Z.ldiff x m).
Proof. rewrite !byte_bits. intros Hx n Hn. by rewrite Z.ldiff_spec, Hx. Qed.

Lemma bit_index_range bi :
  0 <= bi < BPB -> 0 <= bi / 8 < BSIZE /\ 0 <= bi mod 8 < 8.
Proof.
  change BPB with (BSIZE * 8). intros. split; [|apply Z.mod_pos_bound; lia].
  split; [apply Z.div_pos; lia|apply Z.div_lt_upper_bound; lia].
Qed.

Lemma bit_index_inj a b : a / 8 = b / 8 -> a mod 8 = b mod 8 -> a = b.
Proof. intros. rewrite (Z.div_mod a 8), (Z.div_mod b 8) by lia. congruence. Qed.

Lemma is_block_insert d i x :
  is_block d -> is_byte x -> is_block (<[i := x]> d).
Proof. intros [? ?] ?. split; [by rewrite length_insert|by apply Forall_insert]. Qed.

Lemma is_block_set_bit bi d : is_block d -> 0 <= bi < BPB -> is_block (set_bit bi d).
Proof.
  intros Hd Hb. apply is_block_insert; [done|]. apply byte_lor; [|apply bit_index_range, Hb].
  by apply nthb_byte, Hd.
Qed.

Lemma is_block_clear_bit bi d : is_block d -> is_block (clear_bit bi d).
Proof. intros Hd. apply is_block_insert; [done|]. by apply byte_ldiff, nthb_byte, Hd. Qed.

(** [set_bit] sets its bit and no other; [clear_bit] clears its bit and no
    other. *)
Lemma bit_of_set_bit d a b :
  is_block d -> 0 <= a < BPB -> 0 <= b < BPB ->
  bit_of (set_bit a d) b = (a =? b) || bit_of d b.
Proof.
  intros Hd Ha Hb. destruct (bit_index_range a Ha), (bit_index_range b Hb).
  pose proof (is_block_len _ Hd). unfold bit_of, set_bit.
  destruct (Z.eq_dec (a / 8) (b / 8)) as [E|E].
  - rewrite <- E, nthb_insert_eq by lia. rewrite Z.lor_spec, testbit_shiftl1 by lia.
    rewrite orb_comm. f_equal. destruct (Z.eqb_spec a b) as [->|Hne]; [apply Z.eqb_refl|].
    apply Z.eqb_neq. intros ?. by apply Hne, bit_index_inj.
  - rewrite nthb_insert_ne by lia. destruct (Z.eqb_spec a b) as [->|]; done.
Qed.

Lemma bit_of_clear_bit d a b :
  is_block d -> 0 <= a < BPB -> 0 <= b < BPB ->
  bit_of (clear_bit a d) b = negb (a =? b) && bit_of d b.
Proof.
  intros Hd Ha Hb. destruct (bit_index_range a Ha), (bit_index_range b Hb).
  pose proof (is_block_len _ Hd). unfold bit_of, clear_bit.
  destruct (Z.eq_dec (a / 8) (b / 8)) as [E|E].
  - rewrite <- E, nthb_insert_eq by lia. rewrite Z.ldiff_spec, testbit_shiftl1 by lia.
    rewrite andb_comm. f_equal. f_equal.
    destruct (Z.eqb_spec a b) as [->|Hne]; [apply Z.eqb_refl|].
    apply Z.eqb_neq. intros ?. by apply Hne, bit_index_inj.
  - rewrite nthb_insert_ne by lia. destruct (Z.eqb_spec a b) as [->|]; done.
Qed.

(** ** Disk geometry

    The superblock's numbers are such that the bitmap and every block it
    covers are addressable sectors. *)

Definition geom (sb : superblock) : Prop :=
  0 <= sb_ninodes sb /\ 0 <= sb_size sb /\
  sb_size sb + BPB <= 2 ^ 28 /\
  sb_ninodes sb / IPB + 3 + (sb_size sb + BPB) / BPB <= 2 ^ 28.

(** The number of bits [balloc] scans: the size, up to a whole bitmap
    block. *)
Definition nbits (sb : superblock) : Z := (sb_size sb + BPB - 1) / BPB * BPB.

(** Is block [b] marked in use? *)
Definition used (s : bio) (dev : Z) (sb : superblock) (b : Z) : bool :=
  bit_of (sector_of s dev (BBLOCK b (sb_ninodes sb))) (b mod BPB).

(** The superblock of a device. *)
Definition sb_of (s : bio) (dev : Z) : superblock := superblock_at (sector_of s dev 1).

(** A device the allocator can work on while the buffers [H] are in use: none
    of them is the superblock or a bitmap block. *)
Record alloc_ok (s : bio) (H : gmap nat (Z * Z)) (dev : Z) : Prop := {
  ao_holds : holds s H;
  ao_dev : dev = 0 \/ dev = 1;
  ao_geom : geom (sb_of s dev);
  ao_size : (size H < HEAD)%nat;
  ao_sb : free_key H (dev, 1);
  ao_bitmap : forall b, 0 <= b < nbits (sb_of s dev) ->
    free_key H (dev, BBLOCK b (sb_ninodes (sb_of s dev)));
}.

Lemma BPB_pos : 0 < BPB.
Proof. done. Qed.

Lemma nbits_bound sb b :
  geom sb -> 0 <= b < nbits sb ->
  0 <= b < 2 ^ 28 /\ 1 < BBLOCK b (sb_ninodes sb) < 2 ^ 28.
Proof.
  intros (Hn & Hs & Hb & Hm) [Hb0 Hb1]. unfold nbits in Hb1. pose proof BPB_pos as HB.
  pose proof (Z.mul_div_le (sb_size sb + BPB - 1) BPB HB). split; [lia|].
  unfold BBLOCK.
  assert (0 <= sb_ninodes sb / IPB) by (apply Z.div_pos; [lia|done]).
  assert (0 <= b / BPB) by (apply Z.div_pos; lia).
  assert (b / BPB < (sb_size sb + BPB - 1) / BPB) by (apply Z.div_lt_upper_bound; lia).
  assert ((sb_size sb + BPB - 1) / BPB <= (sb_size sb + BPB) / BPB) by (apply Z.div_le_mono; lia).
  lia.
Qed.

Lemma bblock_add k bi n :
  0 <= bi < BPB -> BBLOCK (k * BPB + bi) n = BBLOCK (k * BPB) n /\ (k * BPB + bi) mod BPB = bi.
Proof.
  intros Hb. unfold BBLOCK. split.
  - rewrite Z.div_add_l by done. rewrite (Z.div_small bi) by lia.
    rewrite Z.div_mul by done. lia.
  - rewrite Z.add_comm, Z_mod_plus_full. apply Z.mod_small. lia.
Qed.

(** ** Specifications *)

Lemma readsb_spec s H dev :
  holds s H -> dev = 0 \/ dev = 1 -> (size H < HEAD)%nat -> free_key H (dev, 1) ->
  wp (readsb dev) (fun sb s' =>
    sb = sb_of s dev /\ keeps H s s' /\ bio_disk s' = bio_disk s) s.
Proof.
  intros Hh Hd Hsz Hf. unfold readsb. wsteps. eapply wp_bread; [done|by split|done..|].
  intros i s1 Ho B1 D1. wsteps.
  eapply wp_brelse; [exact Ho|by rewrite B1; unfold sector_of; rewrite D1|].
  intros s2 K2 D2. wsteps. rewrite B1. split_and!; [done..|congruence].
Qed.

(** [bzero] overwrites the block with zeros. *)
Lemma bzero_spec s H dev bno :
  holds s H -> dev_sector_ok dev bno -> (size H < HEAD)%nat -> free_key H (dev, bno) ->
  wp (bzero dev bno) (fun _ s' =>
    keeps H s s' /\ bio_disk s' = <[(dev, bno) := zeros BSIZE]> (bio_disk s)) s.
Proof.
  intros Hh Hok Hsz Hf. unfold bzero. wsteps. eapply wp_bread; [done..|].
  intros i s1 Ho B1 D1. wsteps.
  assert (is_block (bdata i s1)) as Hbl by (rewrite B1; apply Hh).
  assert (splice 0 (zeros BSIZE) (bdata i s1) = zeros BSIZE) as ->.
  { apply nthb_ext; rewrite length_splice; [by rewrite (proj1 Hbl)|].
    intros j Hj. rewrite (is_block_len _ Hbl) in Hj.
    rewrite nthb_splice_in; rewrite ?length_zeros, ?(is_block_len _ Hbl); try lia.
    f_equal. lia. }
  eapply wp_commit_end; [exact Ho|apply is_block_zeros|].
  intros s2 K2 D2. split; [done|by rewrite D2, D1].
Qed.

(** The scan of a bitmap block: the first clear bit is set on the disk, or
    all bits are set and nothing changes. *)
Lemma balloc_block_spec s0 s H i dev sector b :
  opened H i (dev, sector) s0 s -> bdata i s = sector_of s dev sector ->
  wp (balloc_block i b) (fun r s' =>
    match r with
    | Some x => exists bi, 0 <= bi < BPB /\ x = b + bi /\ bit_of (bdata i s) bi = false /\
        (forall k, 0 <= k < bi -> bit_of (bdata i s) k = true) /\ keeps H s0 s' /\
        bio_disk s' = <[(dev, sector) := set_bit bi (bdata i s)]> (bio_disk s)
    | None => s' = s /\ forall k, 0 <= k < BPB -> bit_of (bdata i s) k = true
    end) s.
Proof.
  intros Ho Hd. unfold balloc_block.
  apply (wp_for_find (fun pre s' => s' = s /\
    forall k, 0 <= k < Z.of_nat (length pre) -> bit_of (bdata i s) k = true)).
  - split; [done|]. simpl. lia.
  - intros pre bi post s' Hl [-> Hpre].
    assert (seqZ 0 BPB !! length pre = Some bi) as Hlk by (rewrite Hl; by apply list_lookup_middle).
    apply lookup_seqZ in Hlk as [-> Hbi].
    destruct (bit_index_range (0 + Z.of_nat (length pre))) as [_ Hm]; [lia|]. wsteps.
    rewrite land_mask_zero by lia. fold (bit_of (bdata i s) (0 + Z.of_nat (length pre))).
    destruct (bit_of (bdata i s) _) eqn:E; simpl negb; wsteps.
    + split; [done|]. intros k Hk. rewrite length_app in Hk. simpl in Hk.
      destruct (decide (k = 0 + Z.of_nat (length pre))) as [->|]; [done|]. apply Hpre. lia.
    + eapply wp_commit; [exact Ho| |].
      { apply is_block_set_bit; [|lia]. rewrite Hd. apply (op_holds _ _ _ _ _ Ho). }
      intros s1 K1 D1. wsteps. exists (0 + Z.of_nat (length pre)). split_and!; try done; try lia.
  - intros s' [-> Ha]. split; [done|]. intros k Hk. apply Ha.
    rewrite length_seqZ, Z2Nat.id by done. lia.
Qed.

(** The bitmap blocks [balloc] visits, in order. *)
Lemma range_split sb pre b post :
  0 <= sb_size sb -> range 0 (sb_size sb) BPB = pre ++ b :: post ->
  b = Z.of_nat (length pre) * BPB /\ 0 <= b /\ b + BPB <= nbits sb /\
  forall k, (k < length pre)%nat -> pre !! k = Some (Z.of_nat k * BPB).
Proof.
  intros Hsz Hl. unfold range in Hl.
  assert (forall k x, (pre ++ b :: post) !! k = Some x ->
            x = Z.of_nat k * BPB /\ Z.of_nat k < (sb_size sb - 0 + BPB - 1) / BPB) as Hk.
  { intros k x. rewrite <- Hl, list_lookup_fmap. intros (y & Hy & ->)%fmap_Some.
    apply lookup_seqZ in Hy. lia. }
  destruct (Hk (length pre) b) as [-> Hlt]; [by apply list_lookup_middle|].
  pose proof BPB_pos. split_and!; [done|lia| |].
  - unfold nbits. rewrite Z.sub_0_r in Hlt. nia.
  - intros k Hlk. destruct (lookup_lt_is_Some_2 pre k Hlk) as [x Hx].
    rewrite Hx. f_equal. by apply (Hk k x), lookup_app_l_Some.
Qed.

(** Every bit below the first block not yet visited belongs to a visited one. *)
Lemma bit_split k n : 0 <= k < n * BPB -> 0 <= k / BPB < n /\ k = k / BPB * BPB + k mod BPB.
Proof.
  intros Hk. pose proof BPB_pos. split; [|pose proof (Z.div_mod k BPB); lia].
  split; [apply Z.div_pos; lia|apply Z.div_lt_upper_bound; lia].
Qed.

Lemma used_add s dev sb k bi :
  0 <= bi < BPB ->
  used s dev sb (k * BPB + bi) = bit_of (sector_of s dev (BBLOCK (k * BPB) (sb_ninodes sb))) bi.
Proof. intros Hb. unfold used. by destruct (bblock_add k bi (sb_ninodes sb) Hb) as [-> ->]. Qed.

(** What the disk is after block [b] was marked in use. *)
Definition mark_used (s : bio) (dev : Z) (sb : superblock) (b : Z) : gmap (Z * Z) (list Z) :=
  let k := BBLOCK b (sb_ninodes sb) in
  <[(dev, k) := set_bit (b mod BPB) (sector_of s dev k)]> (bio_disk s).

(** The first free block, counting up. *)
Definition first_free (s : bio) (dev : Z) (sb : superblock) (b : Z) : Prop :=
  0 <= b < nbits sb /\ used s dev sb b = false /\
  forall k, 0 <= k < b -> used s dev sb k = true.

Lemma balloc_scan_spec s H dev sb :
  alloc_ok s H dev -> sb = sb_of s dev ->
  wp (balloc_scan dev sb) (fun r s' =>
    keeps H s s' /\
    match r with
    | Some b => first_free s dev sb b /\ bio_disk s' = mark_used s dev sb b
    | None => (forall k, 0 <= k < nbits sb -> used s dev sb k = true) /\
              bio_disk s' = bio_disk s
    end) s.
Proof.
  intros Ha ->. set (sb := sb_of s dev). unfold balloc_scan.
  pose proof (ao_geom _ _ _ Ha) as Hg. fold sb in Hg. assert (0 <= sb_size sb) as Hsz by apply Hg.
  apply (wp_for_find (fun pre s' => keeps H s s' /\ bio_disk s' = bio_disk s /\
    forall k, 0 <= k < Z.of_nat (length pre) * BPB -> used s dev sb k = true)).
  - split_and!; [apply keeps_refl, Ha|done|]. simpl. lia.
  - intros pre b post s0 Hl (K0 & D0 & Hpre).
    destruct (range_split sb pre b post Hsz Hl) as (Hb & Hb0 & Hbn & _).
    pose proof BPB_pos as HB.
    destruct (nbits_bound sb b Hg) as [_ Hbb]; [lia|]. wsteps.
    eapply wp_bread; [by eapply keeps_holds| |apply Ha|apply Ha; fold sb; lia|].
    { split; [apply Ha|lia]. }
    intros i s1 Ho B1 D1. apply (keeps_opened _ _ _ _ _ _ K0) in Ho.
    assert (bdata i s1 = sector_of s1 dev (BBLOCK b (sb_ninodes sb))) as Bs1
      by (rewrite B1; unfold sector_of; by rewrite D1).
    wcall balloc_block_spec; [exact Ho|exact Bs1|].
    replace (bdata i s1) with (sector_of s dev (BBLOCK b (sb_ninodes sb)))
      by (rewrite B1; unfold sector_of; by rewrite D0).
    rewrite Hb. cbv beta. intros [x|] s2.
    + intros (bi & Hbi & -> & Hfree & Hlow & K2 & D2). wsteps. split; [done|split].
      * split_and!; [lia..|by rewrite used_add|]. intros k Hk.
        destruct (decide (k < Z.of_nat (length pre) * BPB)); [apply Hpre; lia|].
        replace k with (Z.of_nat (length pre) * BPB + (k - Z.of_nat (length pre) * BPB)) by lia.
        rewrite used_add by lia. apply Hlow. lia.
      * unfold mark_used. destruct (bblock_add (Z.of_nat (length pre)) bi (sb_ninodes sb) Hbi) as [-> ->].
        by rewrite D2, D1, D0.
    + intros [-> Hall]. wsteps. eapply wp_brelse; [exact Ho|exact Bs1|].
      intros s2 K2 D2. wsteps. split_and!; [done|by rewrite D2, D1|].
      intros k Hk. rewrite length_app in Hk. simpl in Hk.
      destruct (decide (k < Z.of_nat (length pre) * BPB)); [apply Hpre; lia|].
      replace k with (Z.of_nat (length pre) * BPB + (k - Z.of_nat (length pre) * BPB)) by lia.
      rewrite used_add by lia. apply Hall. lia.
  - intros s' (K & D & Hall). split_and!; [done| |done]. intros k Hk. apply Hall.
    unfold range. rewrite length_fmap, length_seqZ, Z.sub_0_r.
    unfold nbits in Hk. pose proof BPB_pos.
    rewrite Z2Nat.id; [lia|]. apply Z.div_pos; lia.
Qed.

(** The allocator's view depends only on the disk. *)
Lemma same_disk s s' dev :
  bio_disk s' = bio_disk s ->
  sb_of s' dev = sb_of s dev /\
  (forall sb b, used s' dev sb b = used s dev sb b) /\
  (forall sb b, first_free s' dev sb b <-> first_free s dev sb b) /\
  (forall sb b, mark_used s' dev sb b = mark_used s dev sb b).
Proof.
  intros D. assert (forall k, sector_of s' dev k = sector_of s dev k) as Hs
    by (intros k; unfold sector_of; by rewrite D).
  assert (forall sb b, used s' dev sb b = used s dev sb b) as Hu
    by (intros; unfold used; by rewrite Hs).
  split_and!; [by unfold sb_of; rewrite Hs|done| |].
  - intros sb b. unfold first_free. rewrite Hu. by setoid_rewrite Hu.
  - intros sb b. unfold mark_used. by rewrite Hs, D.
Qed.

Lemma alloc_ok_keeps s s' H dev :
  alloc_ok s H dev -> keeps H s s' -> sb_of s' dev = sb_of s dev -> alloc_ok s' H dev.
Proof.
  intros [? ? ? ? ? ?] [? _] Hs. by split; rewrite ?Hs.
Qed.

(** [balloc] marks the first free block and returns it, and panics when
    there is none. *)
Lemma balloc_exact s H dev :
  alloc_ok s H dev ->
  let sb := sb_of s dev in
  wpe (balloc dev)
    (fun b s' => keeps H s s' /\ first_free s dev sb b /\ bio_disk s' = mark_used s dev sb b)
    (fun msg s' => msg = "balloc: out of blocks" /\ bio_disk s' = bio_disk s /\
       forall k, 0 <= k < nbits sb -> used s dev sb k = true) s.
Proof.
  intros Ha sb. unfold balloc.
  wcall readsb_spec; [apply Ha..|]. cbv beta. intros ? s1 (-> & K1 & D1).
  destruct (same_disk s s1 dev D1) as (Hsb & Hu & Hff & Hmk).
  wcall balloc_scan_spec; [by eapply alloc_ok_keeps|done|]. cbv beta.
  intros [b|] s2 (K2 & Hr & D2); wsteps.
  - split_and!; [by eapply keeps_trans|by apply Hff|]. by rewrite D2, Hmk.
  - split_and!; [done|congruence|]. intros k Hk. rewrite <- Hu. by apply Hr.
Qed.

(** So with a free block left it returns. *)
Lemma balloc_ok s H dev b0 :
  alloc_ok s H dev -> 0 <= b0 < nbits (sb_of s dev) -> used s dev (sb_of s dev) b0 = false ->
  wp (balloc dev) (fun b s' => keeps H s s' /\
    first_free s dev (sb_of s dev) b /\ bio_disk s' = mark_used s dev (sb_of s dev) b) s.
Proof.
  intros Ha Hb0 Hu. eapply wpe_no_panic; [by apply balloc_exact|].
  intros msg s' (_ & _ & Hall). by rewrite Hall in Hu.
Qed.

(** ** Freeing *)

(** The disk after block [b] was zeroed and marked free. *)
Definition mark_free (s : bio) (dev : Z) (sb : superblock) (b : Z) : gmap (Z * Z) (list Z) :=
  let k := BBLOCK b (sb_ninodes sb) in
  <[(dev, k) := clear_bit (b mod BPB) (sector_of s dev k)]>
    (<[(dev, b) := zeros BSIZE]> (bio_disk s)).

(** A data block: past the bitmap, so that zeroing it leaves the superblock,
    the inodes and the bitmap alone. *)
Definition data_block (sb : superblock) (b : Z) : Prop :=
  BBLOCK (nbits sb - 1) (sb_ninodes sb) < b < nbits sb.

Lemma data_block_ne sb b k :
  geom sb -> data_block sb b -> 0 <= k < nbits sb -> 1 < BBLOCK k (sb_ninodes sb) < b.
Proof.
  intros Hg [Hb Hbn] Hk. destruct (nbits_bound sb k Hg Hk) as [_ [? ?]]. split; [done|].
  assert (k / BPB <= (nbits sb - 1) / BPB) by (apply Z.div_le_mono; [done|lia]).
  unfold BBLOCK in *. lia.
Qed.

Lemma sector_of_insert s s' dev k k' d :
  bio_disk s' = <[(dev, k) := d]> (bio_disk s) ->
  sector_of s' dev k' = if decide (k = k') then d else sector_of s dev k'.
Proof.
  intros D. unfold sector_of, disk_read. rewrite D. case_decide as E.
  - subst. by rewrite lookup_insert_eq.
  - rewrite lookup_insert_ne; [done|congruence].
Qed.

Lemma bfree_exact s H dev b :
  alloc_ok s H dev -> data_block (sb_of s dev) b -> 0 <= b -> free_key H (dev, b) ->
  let sb := sb_of s dev in
  wpe (bfree dev b)
    (fun _ s' => keeps H s s' /\ used s dev sb b = true /\ bio_disk s' = mark_free s dev sb b)
    (fun msg s' => msg = "freeing free block" /\ used s dev sb b = false) s.
Proof.
  intros Ha Hb Hb0 Hfk sb. pose proof (ao_geom _ _ _ Ha) as Hg. pose proof (proj2 Hb) as Hbn.
  fold sb in Hb, Hg, Hbn. destruct (nbits_bound _ b Hg) as [Hb28 Hbb]; [lia|].
  pose proof (data_block_ne _ b b Hg Hb) as Hne. unfold bfree.
  wcall bzero_spec; [apply Ha|by split; [apply Ha|]|apply Ha|done|]. cbv beta. intros [] s1 (K1 & D1).
  assert (sb_of s1 dev = sb) as Hsb.
  { unfold sb_of. rewrite (sector_of_insert _ _ _ _ _ _ D1). case_decide; [lia|done]. }
  pose proof (alloc_ok_keeps _ _ _ _ Ha K1 Hsb) as Ha1.
  wcall readsb_spec; [apply Ha1..|]. cbv beta. rewrite Hsb. intros ? s2 (-> & K2 & D2). wsteps.
  apply wpe_wp. eapply wp_bread; [apply K2|by split; [apply Ha|lia]|apply Ha|apply Ha; fold sb; lia|].
  intros i s3 Ho B3 D3. wsteps.
  assert (bdata i s3 = sector_of s dev (BBLOCK b (sb_ninodes sb))) as ->.
  { rewrite B3. unfold sector_of at 1. rewrite D2.
    fold (sector_of s1 dev (BBLOCK b (sb_ninodes sb))).
    rewrite (sector_of_insert _ _ _ _ _ _ D1). case_decide; [lia|done]. }
  assert (0 <= b mod BPB < BPB) as Hm by by apply Z.mod_pos_bound.
  destruct (bit_index_range (b mod BPB) Hm) as [_ Hm8].
  rewrite land_mask_zero by lia. fold (bit_of (sector_of s dev (BBLOCK b (sb_ninodes sb))) (b mod BPB)).
  fold (used s dev sb b). destruct (used s dev sb b) eqn:E; simpl negb; cbv iota; [|by wsteps]. apply wpe_wp. wsteps.
  apply (keeps_opened _ _ _ _ _ _ (keeps_trans _ _ _ _ K1 K2)) in Ho.
  eapply wp_commit_end; [exact Ho| |].
  { apply is_block_clear_bit, Ha. }
  intros s4 K4 D4. split_and!; [done..|]. by rewrite D4, D3, D2, D1.
Qed.
