(* ===== verification/Alloc.v ===== *)
(** * The contract of the block allocator

    What [balloc] and [bfree] (kernel/fs.c) promise the inode layer: the
    metadata blocks are in use, every free block is filled with zeros (which
    is what lets [bmap] use a fresh block as an empty indirect block), a block
    taken was free, and nothing but the bitmap changes. *)

From S2P Require Import Prelude Monad Params ProcTable Ide Bio Block.

(** ** Invariant *)

(** The last block of the bitmap: data blocks lie behind it. *)
Definition last_meta (sb : superblock) : Z := BBLOCK (nbits sb - 1) (sb_ninodes sb).

Record alloc_inv (s : bio) (H : gmap nat (Z * Z)) (dev : Z) : Prop := {
  ai_ok : alloc_ok s H dev;
  ai_meta : forall b, 0 <= b < nbits (sb_of s dev) -> b <= last_meta (sb_of s dev) ->
    used s dev (sb_of s dev) b = true;
  ai_zero : forall b, 0 <= b < nbits (sb_of s dev) -> used s dev (sb_of s dev) b = false ->
    sector_of s dev b = zeros BSIZE;
}.

(** No block is free. *)
Definition full (s : bio) (dev : Z) : Prop :=
  forall k, 0 <= k < nbits (sb_of s dev) -> used s dev (sb_of s dev) k = true.

Definition is_bitmap (sb : superblock) (k : Z) : Prop :=
  BBLOCK 0 (sb_ninodes sb) <= k <= last_meta sb.

(** From [s] to [s'] the bits of the bitmap became [f] of what they were, and
    no block outside the bitmap and [X] changed. *)
Record rebit (s s' : bio) (dev : Z) (f : Z -> bool -> bool) (X : Z -> Prop) : Prop := {
  rb_sb : sb_of s' dev = sb_of s dev;
  rb_used : forall k, 0 <= k < nbits (sb_of s dev) ->
    used s' dev (sb_of s dev) k = f k (used s dev (sb_of s dev) k);
  rb_same : forall k, ~ is_bitmap (sb_of s dev) k -> ~ X k ->
    sector_of s' dev k = sector_of s dev k;
  rb_dev : forall dev' k, dev' <> dev -> sector_of s' dev' k = sector_of s dev' k;
}.

(** [balloc] took block [b]. *)
Definition grab (s s' : bio) (dev b : Z) : Prop :=
  data_block (sb_of s dev) b /\ used s dev (sb_of s dev) b = false /\
  rebit s s' dev (fun k u => (b =? k) || u) (fun _ => False).

(** [bfree] gave back block [b] and zeroed it. *)
Definition give (s s' : bio) (dev b : Z) : Prop :=
  sector_of s' dev b = zeros BSIZE /\
  rebit s s' dev (fun k u => negb (b =? k) && u) (fun k => k = b).

(** ** The bitmap after a change *)

Lemma bblock_inj a b n : BBLOCK a n = BBLOCK b n -> a / BPB = b / BPB.
Proof. unfold BBLOCK. lia. Qed.

Lemma mod_inj a b : a / BPB = b / BPB -> (a mod BPB =? b mod BPB) = (a =? b).
Proof.
  intros E. pose proof (Z.div_mod a BPB ltac:(done)). pose proof (Z.div_mod b BPB ltac:(done)).
  destruct (Z.eqb_spec a b) as [->|]; [apply Z.eqb_refl|]. apply Z.eqb_neq. lia.
Qed.

Lemma is_bitmap_bblock sb k : 0 <= k < nbits sb -> is_bitmap sb (BBLOCK k (sb_ninodes sb)).
Proof.
  intros Hk. unfold is_bitmap, last_meta, BBLOCK.
  assert (k / BPB <= (nbits sb - 1) / BPB) by (apply Z.div_le_mono; [done|lia]).
  assert (0 / BPB <= k / BPB) by (apply Z.div_le_mono; [done|lia]). lia.
Qed.

Lemma not_bitmap_sb sb : geom sb -> 0 < nbits sb -> ~ is_bitmap sb 1.
Proof.
  intros Hg Hn [Hb _]. destruct (nbits_bound sb 0 Hg) as [_ ?]; [lia|]. lia.
Qed.

Lemma data_not_bitmap sb b : data_block sb b -> ~ is_bitmap sb b.
Proof. unfold data_block, is_bitmap, last_meta. lia. Qed.

Lemma mark_used_rebit s s' H dev b :
  alloc_ok s H dev -> 0 <= b < nbits (sb_of s dev) ->
  bio_disk s' = mark_used s dev (sb_of s dev) b ->
  rebit s s' dev (fun k u => (b =? k) || u) (fun _ => False).
Proof.
  intros Ha Hb D. set (sb := sb_of s dev) in *. unfold mark_used in D.
  pose proof (ao_geom _ _ _ Ha) as Hg. fold sb in Hg.
  destruct (nbits_bound sb b Hg Hb) as [_ Hbb].
  assert (forall k, ~ is_bitmap sb k -> sector_of s' dev k = sector_of s dev k) as Hs.
  { intros k Hk. rewrite (sector_of_insert _ _ _ _ _ _ D). case_decide as E; [|done].
    subst k. destruct Hk. by apply is_bitmap_bblock. }
  split; fold sb; [|intros k Hk|auto|].
  - unfold sb_of at 1. rewrite Hs; [done|]. apply not_bitmap_sb; [done|lia].
  - unfold used at 1. rewrite (sector_of_insert _ _ _ _ _ _ D). case_decide as E.
    + rewrite bit_of_set_bit; [|apply Ha|by apply Z.mod_pos_bound..].
      rewrite mod_inj by (symmetry; eapply bblock_inj; eauto). f_equal.
      unfold used. by rewrite E.
    + destruct (Z.eqb_spec b k) as [->|]; [done|]. done.
  - intros dev' k Hd. unfold sector_of, disk_read. rewrite D, lookup_insert_ne; [done|congruence].
Qed.

Lemma mark_free_rebit s s' H dev b :
  alloc_ok s H dev -> data_block (sb_of s dev) b -> 0 <= b ->
  bio_disk s' = mark_free s dev (sb_of s dev) b ->
  give s s' dev b.
Proof.
  intros Ha Hd Hb0 D. set (sb := sb_of s dev) in *. unfold mark_free in D.
  pose proof (ao_geom _ _ _ Ha) as Hg. fold sb in Hg. pose proof (proj2 Hd) as Hbn.
  pose proof (data_block_ne sb b b Hg Hd) as Hne.
  assert (forall k, sector_of s' dev k =
    if decide (BBLOCK b (sb_ninodes sb) = k)
    then clear_bit (b mod BPB) (sector_of s dev (BBLOCK b (sb_ninodes sb)))
    else if decide (b = k) then zeros BSIZE else sector_of s dev k) as Hs.
  { intros k. unfold sector_of, disk_read. rewrite D. repeat case_decide; subst.
    - by rewrite lookup_insert_eq.
    - rewrite lookup_insert_ne by congruence. by rewrite lookup_insert_eq.
    - by rewrite !lookup_insert_ne by congruence. }
  split; [|split; fold sb].
  - rewrite Hs, decide_False, decide_True by lia. done.
  - unfold sb_of at 1. rewrite Hs, !decide_False by lia. done.
  - intros k Hk. unfold used at 1. rewrite Hs. case_decide as E.
    + rewrite bit_of_clear_bit; [|apply Ha|by apply Z.mod_pos_bound..].
      rewrite mod_inj by (by eapply bblock_inj). f_equal. unfold used. by rewrite E.
    + pose proof (data_block_ne sb b k Hg Hd Hk). rewrite decide_False by lia.
      destruct (Z.eqb_spec b k) as [->|]; [done|]. done.
  - intros k Hk Hx. rewrite Hs, !decide_False; [done|congruence|].
    intros <-. destruct Hk. apply is_bitmap_bblock. lia.
  - intros dev' k Hx. unfold sector_of, disk_read.
    rewrite D, !lookup_insert_ne by congruence. done.
Qed.

(** ** The invariant is kept *)

Lemma free_is_data s H dev b :
  alloc_inv s H dev -> 0 <= b < nbits (sb_of s dev) -> used s dev (sb_of s dev) b = false ->
  data_block (sb_of s dev) b.
Proof.
  intros Ha Hb Hu. split; [|lia].
  destruct (Z.lt_ge_cases (last_meta (sb_of s dev)) b) as [|Hle]; [done|].
  rewrite (ai_meta _ _ _ Ha) in Hu; done.
Qed.

Lemma alloc_inv_grab s s' H dev b :
  alloc_inv s H dev -> keeps H s s' -> grab s s' dev b -> alloc_inv s' H dev.
Proof.
  intros Ha K (Hd & Hu & Hr). pose proof Ha as [Ho Hm Hz]. pose proof (rb_sb _ _ _ _ _ Hr) as Hsb.
  split.
  - by eapply alloc_ok_keeps.
  - rewrite Hsb. intros k Hk Hl. rewrite (rb_used _ _ _ _ _ Hr), Hm by done. apply orb_true_r.
  - rewrite Hsb. intros k Hk. rewrite (rb_used _ _ _ _ _ Hr) by done.
    intros [Hne Hk0]%orb_false_iff. rewrite (rb_same _ _ _ _ _ Hr); [auto| |tauto].
    apply data_not_bitmap. by eapply free_is_data.
Qed.

Lemma alloc_inv_give s s' H dev b :
  alloc_inv s H dev -> data_block (sb_of s dev) b -> keeps H s s' -> give s s' dev b ->
  alloc_inv s' H dev.
Proof.
  intros Ha Hd K (Hz0 & Hr). pose proof Ha as [Ho Hm Hz]. pose proof (rb_sb _ _ _ _ _ Hr) as Hsb.
  split.
  - by eapply alloc_ok_keeps.
  - rewrite Hsb. intros k Hk Hl. rewrite (rb_used _ _ _ _ _ Hr), Hm by done.
    destruct Hd as [Hd _]. unfold last_meta in Hl.
    destruct (Z.eqb_spec b k); [lia|done].
  - rewrite Hsb. intros k Hk. rewrite (rb_used _ _ _ _ _ Hr) by done.
    destruct (Z.eqb_spec b k) as [->|Hne]; simpl; [done|]. intros Hu.
    rewrite (rb_same _ _ _ _ _ Hr); [auto| |congruence].
    apply data_not_bitmap. by eapply free_is_data.
Qed.

(** ** Client rules *)

Definition OOB : string := "balloc: out of blocks".

Lemma wpe_balloc_first s H dev (Q : Z -> bio -> Prop) (E : string -> bio -> Prop) :
  alloc_inv s H dev ->
  (forall b s', keeps H s s' -> grab s s' dev b -> alloc_inv s' H dev ->
     sector_of s' dev b = zeros BSIZE -> first_free s dev (sb_of s dev) b ->
     bio_disk s' = mark_used s dev (sb_of s dev) b -> Q b s') ->
  (forall s', full s' dev -> E OOB s') ->
  wpe (balloc dev) Q E s.
Proof.
  intros Ha HQ HE. pose proof (ai_ok _ _ _ Ha) as Ho.
  eapply wpe_mono; [by apply balloc_exact| |]; cbv beta.
  - intros b s' (K & Hf & D). pose proof Hf as (Hb & Hu & _).
    assert (grab s s' dev b) as Hg.
    { split_and!; [by eapply free_is_data|done|by eapply mark_used_rebit]. }
    apply HQ; [done..|by eapply alloc_inv_grab| |done|done]. destruct Hg as (Hd & _ & Hr).
    rewrite (rb_same _ _ _ _ _ Hr); [by apply Ha|by apply data_not_bitmap|tauto].
  - intros msg s' (-> & D & Hall). apply HE. intros k.
    destruct (same_disk s s' dev D) as (-> & Hu & _). rewrite Hu. apply Hall.
Qed.

Lemma wpe_balloc s H dev (Q : Z -> bio -> Prop) (E : string -> bio -> Prop) :
  alloc_inv s H dev ->
  (forall b s', keeps H s s' -> grab s s' dev b -> alloc_inv s' H dev ->
     sector_of s' dev b = zeros BSIZE -> Q b s') ->
  (forall s', full s' dev -> E OOB s') ->
  wpe (balloc dev) Q E s.
Proof. intros Ha HQ HE. eapply wpe_balloc_first; [exact Ha| |exact HE]. intros. by apply HQ. Qed.

Lemma wp_bfree s H dev b (Q : unit -> bio -> Prop) :
  alloc_inv s H dev -> data_block (sb_of s dev) b -> 0 <= b -> free_key H (dev, b) ->
  used s dev (sb_of s dev) b = true ->
  (forall s', keeps H s s' -> give s s' dev b -> alloc_inv s' H dev -> Q tt s') ->
  wp (bfree dev b) Q s.
Proof.
  intros Ha Hd Hb Hf Hu HQ. pose proof (ai_ok _ _ _ Ha) as Ho.
  eapply wpe_no_panic.
  - eapply wpe_mono; [by apply bfree_exact| |intros msg s' Hx; exact Hx]; cbv beta.
    intros [] s' (K & _ & D). assert (give s s' dev b) as Hg by by eapply mark_free_rebit.
    apply HQ; [done..|by eapply alloc_inv_give].
  - cbv beta. intros msg s' [_ Hx]. congruence.
Qed.

(** A block taken and given back leaves the bitmap as it was. *)
Lemma grab_give s s1 s2 dev b k :
  grab s s1 dev b -> give s1 s2 dev b -> 0 <= k < nbits (sb_of s dev) ->
  used s2 dev (sb_of s dev) k = used s dev (sb_of s dev) k.
Proof.
  intros (_ & Hu & H1) (_ & H2) Hk. pose proof (rb_sb _ _ _ _ _ H1) as Hsb.
  pose proof (rb_used _ _ _ _ _ H2 k) as Hk2. rewrite Hsb in Hk2. rewrite Hk2 by done.
  rewrite (rb_used _ _ _ _ _ H1) by done. destruct (Z.eqb_spec b k) as [->|]; [by rewrite Hu|done].
Qed.

(** The allocator while one more buffer, of a data block, is in use. *)
Lemma alloc_inv_open s s' H dev i b :
  alloc_inv s H dev -> opened H i (dev, b) s s' -> bio_disk s' = bio_disk s ->
  data_block (sb_of s dev) b -> (S (size H) < HEAD)%nat -> 0 < nbits (sb_of s dev) ->
  alloc_inv s' (<[i := (dev, b)]> H) dev.
Proof.
  intros [[? ? Hg ? ? Hbm] Hm Hz] Ho D Hd Hsz Hn. destruct (same_disk s s' dev D) as (Hsb & Hu & _).
  assert (1 < BBLOCK 0 (sb_ninodes (sb_of s dev)) < b) as H0 by (apply data_block_ne; [done..|lia]).
  split; [split; rewrite ?Hsb|rewrite Hsb; intros k; rewrite Hu; auto|].
  - apply Ho.
  - done.
  - done.
  - apply size_insert_lt; [apply Ho|done].
  - apply free_key_insert; [done|]. intros [=]. lia.
  - intros k Hk. pose proof (data_block_ne _ b k Hg Hd Hk).
    apply free_key_insert; [auto|]. intros Heq. apply (f_equal snd) in Heq. cbn [snd] in Heq. lia.
  - rewrite Hsb. intros k Hk. rewrite Hu. unfold sector_of. rewrite D. by apply Hz.
Qed.

(** ... and after it is given back. *)
Lemma alloc_inv_close s s' H i k dev :
  alloc_inv s (<[i := k]> H) dev -> H !! i = None -> holds s' H ->
  bio_disk s' = bio_disk s -> alloc_inv s' H dev.
Proof.
  intros [[? ? Hg Hsz Hs1 Hbm] Hm Hz] Hi Hh D. destruct (same_disk s s' dev D) as (Hsb & Hu & _).
  assert (forall key, free_key (<[i := k]> H) key -> free_key H key) as Hfk.
  { intros key Hf j Hj. apply (Hf j). rewrite lookup_insert_ne; congruence. }
  rewrite map_size_insert_None in Hsz by done.
  split; [split; rewrite ?Hsb; auto; lia|rewrite Hsb; intros b; rewrite Hu; auto|].
  rewrite Hsb. intros b Hb. rewrite Hu. unfold sector_of. rewrite D. by apply Hz.
Qed.

(** Writing a data block that is in use. *)
Lemma write_data s s' dev b d :
  geom (sb_of s dev) -> data_block (sb_of s dev) b -> 0 < nbits (sb_of s dev) ->
  bio_disk s' = <[(dev, b) := d]> (bio_disk s) ->
  sb_of s' dev = sb_of s dev /\
  (forall k, 0 <= k < nbits (sb_of s dev) ->
     used s' dev (sb_of s dev) k = used s dev (sb_of s dev) k) /\
  (forall k, b <> k -> sector_of s' dev k = sector_of s dev k) /\
  (forall dev' k, dev' <> dev -> sector_of s' dev' k = sector_of s dev' k) /\
  sector_of s' dev b = d.
Proof.
  intros Hg Hd Hn D.
  assert (forall k, b <> k -> sector_of s' dev k = sector_of s dev k) as Hs.
  { intros k Hk. rewrite (sector_of_insert _ _ _ _ _ _ D). by rewrite decide_False. }
  pose proof (data_block_ne _ b 0 Hg Hd ltac:(lia)). split_and!; [|intros k Hk|done| |].
  - unfold sb_of at 1. rewrite Hs; [done|lia].
  - pose proof (data_block_ne _ b k Hg Hd Hk). unfold used. by rewrite Hs by lia.
  - intros dev' k Hx. unfold sector_of, disk_read. rewrite D, lookup_insert_ne; congruence.
  - rewrite (sector_of_insert _ _ _ _ _ _ D). by rewrite decide_True.
Qed.

Lemma alloc_inv_write s s' H dev b d :
  alloc_inv s H dev -> holds s' H -> data_block (sb_of s dev) b -> 0 < nbits (sb_of s dev) ->
  used s dev (sb_of s dev) b = true -> bio_disk s' = <[(dev, b) := d]> (bio_disk s) ->
  alloc_inv s' H dev.
Proof.
  intros [[? ? Hg ? ? ?] Hm Hz] Hh Hd Hn Hu D.
  destruct (write_data s s' dev b d Hg Hd Hn D) as (Hsb & Hus & Hs & _).
  split; [by split; rewrite ?Hsb|rewrite Hsb; intros k ? ?; rewrite Hus; auto|].
  rewrite Hsb. intros k Hk Huk. rewrite Hus in Huk by done. rewrite Hs; [auto|]. congruence.
Qed.

(** The allocator only looks at the disk. *)
Lemma grab_same_disk s0 s s' dev b : bio_disk s = bio_disk s0 -> grab s s' dev b -> grab s0 s' dev b.
Proof.
  intros D (Hd & Hu & [Hsb Hus Hs Hdv]). destruct (same_disk s0 s dev D) as (Hsb0 & Hu0 & _).
  assert (forall d k, sector_of s d k = sector_of s0 d k) as Hs0
    by (intros; unfold sector_of; by rewrite D).
  rewrite Hsb0 in *. rewrite Hu0 in Hu. split_and!; [done..|]. split.
  - done.
  - intros k Hk. rewrite Hus, Hu0; done.
  - intros k Hk Hx. rewrite Hs; auto.
  - intros d k Hd'. rewrite Hdv; auto.
Qed.

Lemma alloc_inv_same s s' H dev :
  alloc_inv s H dev -> holds s' H -> bio_disk s' = bio_disk s -> alloc_inv s' H dev.
Proof.
  intros [[? ? ? ? ? ?] Hm Hz] Hh D. destruct (same_disk s s' dev D) as (Hsb & Hu & _).
  split; [by split; rewrite ?Hsb|..]; rewrite Hsb; intros b ?; rewrite Hu; [auto|].
  unfold sector_of. rewrite D. by apply Hz.
Qed.
