(* ===== verification/Inode.v ===== *)
(** * Inodes (kernel/fs.c, "Inodes" and "Inode contents"; kernel/file.h)

    The inode cache [icache] and the operations on inodes: allocation,
    reference counts, locking, the copies to and from the disk, and the block
    map of a file.  Pointers to cached inodes are indices into the table. *)

From S2P Require Import Prelude Monad Params ProcTable Ide Bio Block.

(** ** State *)

Record inode := Inode {
  i_dev : Z;
  i_inum : Z;
  i_ref : Z;
  i_flags : Z;
  i_type : Z;
  i_major : Z;
  i_minor : Z;
  i_nlink : Z;
  i_size : Z;
  i_addrs : list Z;
  i_tags : Z;
}.

Definition i_set_dev v i := Inode v (i_inum i) (i_ref i) (i_flags i) (i_type i) (i_major i) (i_minor i) (i_nlink i) (i_size i) (i_addrs i) (i_tags i).
Definition i_set_inum v i := Inode (i_dev i) v (i_ref i) (i_flags i) (i_type i) (i_major i) (i_minor i) (i_nlink i) (i_size i) (i_addrs i) (i_tags i).
Definition i_set_ref v i := Inode (i_dev i) (i_inum i) v (i_flags i) (i_type i) (i_major i) (i_minor i) (i_nlink i) (i_size i) (i_addrs i) (i_tags i).
Definition i_set_flags v i := Inode (i_dev i) (i_inum i) (i_ref i) v (i_type i) (i_major i) (i_minor i) (i_nlink i) (i_size i) (i_addrs i) (i_tags i).
Definition i_set_type v i := Inode (i_dev i) (i_inum i) (i_ref i) (i_flags i) v (i_major i) (i_minor i) (i_nlink i) (i_size i) (i_addrs i) (i_tags i).
Definition i_set_major v i := Inode (i_dev i) (i_inum i) (i_ref i) (i_flags i) (i_type i) v (i_minor i) (i_nlink i) (i_size i) (i_addrs i) (i_tags i).
Definition i_set_minor v i := Inode (i_dev i) (i_inum i) (i_ref i) (i_flags i) (i_type i) (i_major i) v (i_nlink i) (i_size i) (i_addrs i) (i_tags i).
Definition i_set_nlink v i := Inode (i_dev i) (i_inum i) (i_ref i) (i_flags i) (i_type i) (i_major i) (i_minor i) v (i_size i) (i_addrs i) (i_tags i).
Definition i_set_size v i := Inode (i_dev i) (i_inum i) (i_ref i) (i_flags i) (i_type i) (i_major i) (i_minor i) (i_nlink i) v (i_addrs i) (i_tags i).
Definition i_set_addrs v i := Inode (i_dev i) (i_inum i) (i_ref i) (i_flags i) (i_type i) (i_major i) (i_minor i) (i_nlink i) (i_size i) v (i_tags i).
Definition i_set_tags v i := Inode (i_dev i) (i_inum i) (i_ref i) (i_flags i) (i_type i) (i_major i) (i_minor i) (i_nlink i) (i_size i) (i_addrs i) v.

(** [icache.inode] in static storage. *)
Definition zero_inode : inode := Inode 0 0 0 0 0 0 0 0 0 (zeros (NDIRECT + 1)) 0.

(** The file system's state: the buffer cache with the disk and the
    processes, and the inode cache. *)
Record fs := Fs { fs_bio : bio; fs_inode : list inode }.
Definition fs_set_bio v s := Fs v (fs_inode s).
Definition fs_set_inode v s := Fs (fs_bio s) v.

Definition bio_of_fs : lens fs bio := Lens fs_bio fs_set_bio.
Definition pt_of_fs : lens fs ptable := lens_comp bio_of_fs pt_of_bio.

#[global] Instance bio_of_fs_laws : LensLaws bio_of_fs.
Proof. split; [done|by intros []|done]. Qed.

Definition inode_at (ip : nat) (s : fs) : inode := default zero_inode (fs_inode s !! ip).
Definition upd_inode (ip : nat) (f : inode -> inode) (s : fs) : fs :=
  fs_set_inode (alter f ip (fs_inode s)) s.

(** [ip->addrs[k] = v]. *)
Definition i_set_addr (k v : Z) (i : inode) : inode :=
  i_set_addrs (<[Z.to_nat k := v]> (i_addrs i)) i.

(** ** Inodes on the disk *)

(** The assignments of [iupdate] to the disk inode in slot [k] of its block:
    the first 60 bytes; the tag block's address is not among them. *)
Definition dinode_bytes (i : inode) : list Z :=
  le_enc 2 (i_type i) ++ le_enc 2 (i_major i) ++ le_enc 2 (i_minor i) ++
  le_enc 2 (i_nlink i) ++ le_enc 4 (i_size i) ++ mjoin (le_enc 4 <$> i_addrs i).

Definition put_dinode (k : Z) (i : inode) (d : list Z) : list Z :=
  splice (k * sizeof_dinode) (dinode_bytes i) d.

(** The assignments of [ilock] from the disk inode. *)
Definition i_load (di : dinode) (i : inode) : inode :=
  Inode (i_dev i) (i_inum i) (i_ref i) (i_flags i) (di_type di) (di_major di)
    (di_minor di) (di_nlink di) (di_size di) (di_addrs di) (i_tags i).

Definition iupdate (ip : nat) : M fs unit :=
  let! i := gets (inode_at ip) in
  let! bp := zoom bio_of_fs (bread (i_dev i) (IBLOCK (i_inum i))) in
  let! d := gets (fun s => bdata bp (fs_bio s)) in
  zoom bio_of_fs (
    set_bdata bp (put_dinode (i_inum i mod IPB) i d);;;
    bwrite bp;;;
    brelse bp).

(** ** The inode cache *)

(** The loop of [iget] over the table from slot [k]: the cached inode, or the
    first empty slot. *)
Fixpoint iget_scan (dev inum : Z) (l : list inode) (k : nat) (empty : option nat)
  : nat + option nat :=
  match l with
  | [] => inr empty
  | i :: l =>
      if (0 <? i_ref i) && (i_dev i =? dev) && (i_inum i =? inum) then inl k
      else
        let empty := match empty with
                     | None => if i_ref i =? 0 then Some k else None
                     | Some e => Some e
                     end in
        iget_scan dev inum l (S k) empty
  end.

Definition iget (dev inum : Z) : M fs nat :=
  let! r := gets (fun s => iget_scan dev inum (fs_inode s) 0 None) in
  match r with
  | inl ip =>
      modify (upd_inode ip (fun i => i_set_ref (i_ref i + 1) i));;;
      ret ip
  | inr None => panic "iget: no inodes"
  | inr (Some ip) =>
      modify (upd_inode ip (i_set_dev dev));;;
      modify (upd_inode ip (i_set_inum inum));;;
      modify (upd_inode ip (i_set_ref 1));;;
      modify (upd_inode ip (i_set_flags 0));;;
      ret ip
  end.

Definition idup (ip : nat) : M fs nat :=
  modify (upd_inode ip (fun i => i_set_ref (i_ref i + 1) i));;;
  ret ip.

(** A free inode of the disk: its slot is cleared and given the type. *)
Definition clear_dinode (k type : Z) (d : list Z) : list Z :=
  put16 (k * sizeof_dinode) type (splice (k * sizeof_dinode) (zeros sizeof_dinode) d).

Definition ialloc (dev type : Z) : M fs nat :=
  let! sb := zoom bio_of_fs (readsb dev) in
  let! r := for_find (range 1 (sb_ninodes sb) 1) (fun inum =>
    let! bp := zoom bio_of_fs (bread dev (IBLOCK inum)) in
    let! d := gets (fun s => bdata bp (fs_bio s)) in
    if di_type (dinode_at (inum mod IPB) d) =? 0 then
      zoom bio_of_fs (
        set_bdata bp (clear_dinode (inum mod IPB) type d);;;
        bwrite bp;;;
        brelse bp);;;
      let! ip := iget dev inum in
      ret (Some ip)
    else
      zoom bio_of_fs (brelse bp);;;
      ret None) in
  match r with
  | Some ip => ret ip
  | None => panic "ialloc: no inodes"
  end.

Definition ilock (oip : option nat) : M fs unit :=
  match oip with
  | None => panic "ilock"
  | Some ip =>
      let! i := gets (inode_at ip) in
      if i_ref i <? 1 then panic "ilock"
      else if negb (Z.land (i_flags i) I_BUSY =? 0)
      then zoom pt_of_fs (sleep (ChInode ip))
      else
        modify (upd_inode ip (fun i => i_set_flags (Z.lor (i_flags i) I_BUSY) i));;;
        let! i := gets (inode_at ip) in
        if Z.land (i_flags i) I_VALID =? 0 then
          let! bp := zoom bio_of_fs (bread (i_dev i) (IBLOCK (i_inum i))) in
          let! d := gets (fun s => bdata bp (fs_bio s)) in
          modify (upd_inode ip (i_load (dinode_at (i_inum i mod IPB) d)));;;
          zoom bio_of_fs (brelse bp);;;
          modify (upd_inode ip (fun i => i_set_flags (Z.lor (i_flags i) I_VALID) i));;;
          let! i := gets (inode_at ip) in
          if i_type i =? 0 then panic "ilock: no type" else ret tt
        else ret tt
  end.

Definition iunlock (oip : option nat) : M fs unit :=
  match oip with
  | None => panic "iunlock"
  | Some ip =>
      let! i := gets (inode_at ip) in
      if (Z.land (i_flags i) I_BUSY =? 0) || (i_ref i <? 1) then panic "iunlock"
      else
        modify (upd_inode ip (fun i => i_set_flags (Z.ldiff (i_flags i) I_BUSY) i));;;
        zoom pt_of_fs (wakeup (ChInode ip))
  end.

(** ** Inode contents *)

Definition bmap (ip : nat) (bn : Z) : M fs Z :=
  let! i := gets (inode_at ip) in
  if bn <? NDIRECT then
    if nthb (i_addrs i) bn =? 0 then
      let! addr := zoom bio_of_fs (balloc (i_dev i)) in
      modify (upd_inode ip (i_set_addr bn addr));;;
      ret addr
    else ret (nthb (i_addrs i) bn)
  else
    let bn := bn - NDIRECT in
    if bn <? NINDIRECT then
      let! addr :=
        (if nthb (i_addrs i) NDIRECT =? 0 then
           let! addr := zoom bio_of_fs (balloc (i_dev i)) in
           modify (upd_inode ip (i_set_addr NDIRECT addr));;;
           ret addr
         else ret (nthb (i_addrs i) NDIRECT)) in
      let! bp := zoom bio_of_fs (bread (i_dev i) addr) in
      let! a := gets (fun s => bdata bp (fs_bio s)) in
      let! addr :=
        (if get32 (4 * bn) a =? 0 then
           let! addr := zoom bio_of_fs (balloc (i_dev i)) in
           zoom bio_of_fs (
             set_bdata bp (put32 (4 * bn) addr a);;;
             bwrite bp);;;
           ret addr
         else ret (get32 (4 * bn) a)) in
      zoom bio_of_fs (brelse bp);;;
      ret addr
    else panic "bmap: out of range".

(** [itrunc]'s loop over the direct blocks. *)
Definition itrunc_dir (ip : nat) : M fs unit :=
  for_each (seqZ 0 NDIRECT) (fun k =>
    let! i := gets (inode_at ip) in
    if nthb (i_addrs i) k =? 0 then ret tt
    else
      zoom bio_of_fs (bfree (i_dev i) (nthb (i_addrs i) k));;;
      modify (upd_inode ip (i_set_addr k 0))).

(** Its loop over the entries of the indirect block, in buffer [bp]. *)
Definition itrunc_entries (dev : Z) (bp : nat) : M fs unit :=
  for_each (seqZ 0 NINDIRECT) (fun j =>
    let! a := gets (fun s => bdata bp (fs_bio s)) in
    if get32 (4 * j) a =? 0 then ret tt
    else zoom bio_of_fs (bfree dev (get32 (4 * j) a))).

Definition itrunc_ind (ip : nat) : M fs unit :=
  let! i := gets (inode_at ip) in
  if nthb (i_addrs i) NDIRECT =? 0 then ret tt
  else
    let! bp := zoom bio_of_fs (bread (i_dev i) (nthb (i_addrs i) NDIRECT)) in
    itrunc_entries (i_dev i) bp;;;
    zoom bio_of_fs (brelse bp);;;
    zoom bio_of_fs (bfree (i_dev i) (nthb (i_addrs i) NDIRECT));;;
    modify (upd_inode ip (i_set_addr NDIRECT 0)).

Definition itrunc (ip : nat) : M fs unit :=
  itrunc_dir ip;;;
  itrunc_ind ip;;;
  modify (upd_inode ip (i_set_size 0));;;
  iupdate ip.

(** ** Dropping references *)

Definition iput (ip : nat) : M fs unit :=
  let! i := gets (inode_at ip) in
  (if (i_ref i =? 1) && negb (Z.land (i_flags i) I_VALID =? 0) && (i_nlink i =? 0) then
     if negb (Z.land (i_flags i) I_BUSY =? 0) then panic "iput busy"
     else
       modify (upd_inode ip (fun i => i_set_flags (Z.lor (i_flags i) I_BUSY) i));;;
       itrunc ip;;;
       modify (upd_inode ip (i_set_type 0));;;
       iupdate ip;;;
       modify (upd_inode ip (i_set_flags 0));;;
       zoom pt_of_fs (wakeup (ChInode ip))
   else ret tt);;;
  modify (upd_inode ip (fun i => i_set_ref (i_ref i - 1) i)).

Definition iunlockput (ip : nat) : M fs unit :=
  iunlock (Some ip);;; iput ip.

(** ** stat *)

Record stat := Stat {
  st_type : Z;
  st_dev : Z;
  st_ino : Z;
  st_nlink : Z;
  st_size : Z;
}.

Definition stati (ip : nat) : M fs stat :=
  gets (fun s => let i := inode_at ip s in
                 Stat (i_type i) (i_dev i) (i_inum i) (i_nlink i) (i_size i)).

(** ** Lemmas on the table *)

(** Reduce the projections of file system states. *)
Ltac fsimpl :=
  cbn [lget lset bio_of_fs];
  unfold upd_inode, fs_set_bio, fs_set_inode;
  cbn [fs_bio fs_inode].

Lemma inode_at_lookup ip s i : fs_inode s !! ip = Some i -> inode_at ip s = i.
Proof. intros H. unfold inode_at. by rewrite H. Qed.

Lemma upd_inode_insert ip f s i :
  fs_inode s !! ip = Some i -> upd_inode ip f s = fs_set_inode (<[ip := f i]> (fs_inode s)) s.
Proof. intros H. unfold upd_inode. by rewrite (list_alter_Some f _ ip i). Qed.

Lemma lookup_set_inode (l : list inode) ip i i' :
  l !! ip = Some i -> <[ip := i']> l !! ip = Some i'.
Proof. intros H. apply list_lookup_insert_eq. by eapply lookup_lt_Some. Qed.
