(* ===== verification/Bmap.v ===== *)
(** * The block map of a file (kernel/fs.c, [bmap])

    An inode names its blocks in NDIRECT direct slots, one slot for the
    indirect block and the slots inside it.  [file_ok] is the invariant of
    that structure: every block named is an allocated data block and no block
    is named twice.  [bmap] keeps it, and the bytes of the file as well. *)

From S2P Require Import Prelude Monad Params ProcTable Ide Bio Block Alloc Inode.

(** ** The slots of an inode *)

(** The direct blocks, the indirect block and the entries of the indirect
    block, 0 where there is none. *)
Definition NSLOT : Z := NDIRECT + 1 + NINDIRECT.

Definition slot (s : bio) (i : inode) (k : Z) : Z :=
  if k <? NDIRECT + 1 then nthb (i_addrs i) k
  else if nthb (i_addrs i) NDIRECT =? 0 then 0
  else get32 (4 * (k - (NDIRECT + 1))) (sector_of s (i_dev i) (nthb (i_addrs i) NDIRECT)).

(** The slot of the file's block [bn]. *)
Definition pos (bn : Z) : Z := if bn <? NDIRECT then bn else bn + 1.

(** The byte at offset [o] of the file; a block not there reads as zeros. *)
Definition fbyte (s : bio) (i : inode) (o : Z) : Z :=
  let b := slot s i (pos (o / BSIZE)) in
  if b =? 0 then 0 else nthb (sector_of s (i_dev i) b) (o mod BSIZE).

(** ** Invariant *)

Record file_ok (s : bio) (i : inode) : Prop := {
  fo_len : length (i_addrs i) = Z.to_nat (NDIRECT + 1);
  fo_block : forall k, 0 <= k < NSLOT -> slot s i k <> 0 ->
    data_block (sb_of s (i_dev i)) (slot s i k) /\
    used s (i_dev i) (sb_of s (i_dev i)) (slot s i k) = true;
  fo_inj : forall k k', 0 <= k < NSLOT -> 0 <= k' < NSLOT -> slot s i k <> 0 ->
    slot s i k = slot s i k' -> k = k';
}.

(** What an operation on a file leaves alone: the superblock and the inodes,
    and the blocks in use other than those [own] allows. *)
Record fext (s s' : bio) (dev : Z) (own : Z -> Prop) : Prop := {
  fe_sb : sb_of s' dev = sb_of s dev;
  fe_used : forall k, 0 <= k < nbits (sb_of s dev) ->
    used s dev (sb_of s dev) k = true -> used s' dev (sb_of s dev) k = true;
  fe_same : forall k, data_block (sb_of s dev) k -> used s dev (sb_of s dev) k = true ->
    ~ own k -> sector_of s' dev k = sector_of s dev k;
  fe_meta : forall k, k < BBLOCK 0 (sb_ninodes (sb_of s dev)) ->
    sector_of s' dev k = sector_of s dev k;
  fe_dev : forall dev' k, dev' <> dev -> sector_of s' dev' k = sector_of s dev' k;
}.

(** A step of a file operation that keeps the file's bytes: blocks may be
    added to the file and the indirect block may gain entries. *)
Record bstep (s s' : bio) (i i' : inode) : Prop := {
  bs_inode : i' = i_set_addrs (i_addrs i') i;
  bs_alloc : alloc_inv s' ∅ (i_dev i);
  bs_file : file_ok s' i';
  bs_bytes : forall o, 0 <= o < MAXFILE * BSIZE -> fbyte s' i' o = fbyte s i o;
  bs_slots : forall k, 0 <= k < NSLOT -> slot s i k <> 0 -> slot s' i' k = slot s i k;
  bs_fresh : forall k, 0 <= k < NSLOT -> slot s i k = 0 -> slot s' i' k <> 0 ->
    used s (i_dev i) (sb_of s (i_dev i)) (slot s' i' k) = false;
  bs_ext : fext s s' (i_dev i) (fun b => b <> 0 /\ b = slot s i NDIRECT);
  bs_pt : pt_frame (bio_pt s) (bio_pt s');
}.

(** ** Lemmas *)

Lemma nbits_nonneg sb : geom sb -> 0 <= nbits sb.
Proof.
  intros (_ & Hs & _). apply Z.mul_nonneg_nonneg; [|done]. apply Z.div_pos; [|done].
  pose proof BPB_pos. lia.
Qed.

Lemma data_block_pos sb b : geom sb -> data_block sb b -> 1 < b /\ 0 < nbits sb.
Proof.
  intros Hg Hd. assert (0 < nbits sb) as Hn.
  { destruct Hd as [H1 H2]. pose proof (nbits_nonneg sb Hg). unfold BBLOCK in H1.
    assert (0 <= sb_ninodes sb / IPB) by (apply Z.div_pos; [apply Hg|done]).
    destruct (Z.eq_dec (nbits sb) 0) as [E|]; [|lia].
    rewrite E in *. change ((0 - 1) / BPB) with (-1) in H1. lia. }
  split; [|done]. pose proof (data_block_ne sb b 0 Hg Hd ltac:(lia)). lia.
Qed.

Lemma pos_range bn : 0 <= bn < MAXFILE -> 0 <= pos bn < NSLOT /\ pos bn <> NDIRECT.
Proof.
  unfold pos, MAXFILE, NSLOT. intros Hb. destruct (Z.ltb_spec bn NDIRECT); lia.
Qed.

Lemma off_block o : 0 <= o < MAXFILE * BSIZE -> 0 <= o / BSIZE < MAXFILE.
Proof.
  intros Ho. split; [apply Z.div_pos; [lia|done]|apply Z.div_lt_upper_bound; [done|lia]].
Qed.

(** Attaching a fresh block [b] to the empty slot [k]. *)
Lemma attach_ok s s' i i' k b :
  file_ok s i -> i_dev i' = i_dev i -> length (i_addrs i') = Z.to_nat (NDIRECT + 1) ->
  slot s i k = 0 ->
  (forall j, 0 <= j < NSLOT -> slot s' i' j = if j =? k then b else slot s i j) ->
  data_block (sb_of s (i_dev i)) b -> used s (i_dev i) (sb_of s (i_dev i)) b = false ->
  sb_of s' (i_dev i) = sb_of s (i_dev i) ->
  (forall j, 0 <= j < nbits (sb_of s (i_dev i)) ->
     used s' (i_dev i) (sb_of s (i_dev i)) j = (b =? j) || used s (i_dev i) (sb_of s (i_dev i)) j) ->
  geom (sb_of s (i_dev i)) ->
  file_ok s' i'.
Proof.
  intros [Hl Hb Hi] Hdev Hl' Hk Hs Hd Hu Hsb Hu' Hg. split; [done| |].
  - intros j Hj. rewrite Hs by done. rewrite Hdev, Hsb.
    destruct (Z.eqb_spec j k) as [->|Hne]; intros Hnz.
    + split; [done|]. rewrite Hu', Z.eqb_refl; [done|].
      destruct (data_block_pos _ _ Hg Hd), Hd. lia.
    + destruct (Hb j Hj Hnz) as [Hdj Huj]. split; [done|]. rewrite Hu', Huj, orb_true_r; [done|].
      destruct (data_block_pos _ _ Hg Hdj), Hdj. lia.
  - intros j j' Hj Hj'. rewrite !Hs by done.
    assert (forall x, 0 <= x < NSLOT -> slot s i x <> 0 -> slot s i x <> b) as Hfresh.
    { intros x Hx Hnz Heq. destruct (Hb x Hx Hnz) as [_ Hux]. rewrite Heq in Hux. congruence. }
    destruct (Z.eqb_spec j k) as [->|], (Z.eqb_spec j' k) as [->|]; intros Hnz Heq; [done|..].
    + destruct (Hfresh j'); congruence.
    + destruct (Hfresh j); congruence.
    + by apply Hi.
Qed.

Lemma attach_bytes s s' i i' k b :
  i_dev i' = i_dev i -> slot s i k = 0 ->
  (forall j, 0 <= j < NSLOT -> slot s' i' j = if j =? k then b else slot s i j) ->
  (k <> NDIRECT -> sector_of s' (i_dev i) b = zeros BSIZE) ->
  (forall j, 0 <= j < NSLOT -> j <> NDIRECT -> slot s i j <> 0 ->
     sector_of s' (i_dev i) (slot s i j) = sector_of s (i_dev i) (slot s i j)) ->
  forall o, 0 <= o < MAXFILE * BSIZE -> fbyte s' i' o = fbyte s i o.
Proof.
  intros Hdev Hk Hs Hz Hsame o Ho. destruct (pos_range _ (off_block o Ho)) as [Hp Hpn].
  unfold fbyte. rewrite Hs, Hdev by done.
  destruct (Z.eqb_spec (pos (o / BSIZE)) k) as [Hpk|Hne].
  - rewrite Hpk, Hk. simpl. destruct (b =? 0); [done|].
    rewrite Hz by congruence. apply nthb_zeros.
  - destruct (Z.eqb_spec (slot s i (pos (o / BSIZE))) 0); [done|]. by rewrite Hsame.
Qed.

(** The slots after an address of the inode is set. *)
Lemma slot_set_addr s s' i k b :
  length (i_addrs i) = Z.to_nat (NDIRECT + 1) -> 0 <= k < NDIRECT + 1 -> slot s i k = 0 -> b <> 0 ->
  sector_of s' (i_dev i) b = zeros BSIZE ->
  (slot s i NDIRECT <> 0 -> sector_of s' (i_dev i) (slot s i NDIRECT) = sector_of s (i_dev i) (slot s i NDIRECT)) ->
  forall j, 0 <= j < NSLOT -> slot s' (i_set_addr k b i) j = if j =? k then b else slot s i j.
Proof.
  intros Hl Hk H0 Hbnz Hz Hsame j Hj. unfold slot, i_set_addr. simpl.
  destruct (Z.ltb_spec j (NDIRECT + 1)) as [Hlt|Hge12].
  - destruct (Z.eqb_spec j k) as [->|Hne]; [apply nthb_insert_eq|apply nthb_insert_ne]; lia.
  - destruct (Z.eqb_spec j k) as [|Hne]; [lia|].
    destruct (Z.eq_dec k NDIRECT) as [->|HkN].
    + rewrite nthb_insert_eq by lia. rewrite (proj2 (Z.eqb_neq b 0)) by done.
      unfold slot in H0. simpl in H0. rewrite Hz, H0. apply get32_zeros.
    + rewrite nthb_insert_ne by lia. destruct (Z.eqb_spec (nthb (i_addrs i) NDIRECT) 0); [done|].
      f_equal. by apply Hsame.
Qed.

(** The slots after an entry of the indirect block is set. *)
Lemma slot_put_entry s s' i e b (ind := nthb (i_addrs i) NDIRECT) :
  is_block (sector_of s (i_dev i) ind) -> ind <> 0 -> 0 <= e < NINDIRECT -> 0 <= b < 2 ^ 32 ->
  sector_of s' (i_dev i) ind = put32 (4 * e) b (sector_of s (i_dev i) ind) ->
  forall j, 0 <= j < NSLOT -> slot s' i j = if j =? NDIRECT + 1 + e then b else slot s i j.
Proof.
  intros Hblk Hind He Hb Hs j Hj. unfold slot. fold ind. change NSLOT with 140 in Hj. change NDIRECT with 11.
  change NINDIRECT with 128 in He. rewrite (proj2 (Z.eqb_neq ind 0) Hind), Hs.
  pose proof (is_block_len _ Hblk) as Hlen. change BSIZE with 512 in Hlen.
  destruct (Z.ltb_spec j (11 + 1)), (Z.eqb_spec j (11 + 1 + e)) as [->|Hne]; try lia.
  - replace (11 + 1 + e - (11 + 1)) with e by lia. apply get32_put32_eq; lia.
  - apply get32_put32_ne; lia.
Qed.

Lemma fext_refl s dev own : fext s s dev own.
Proof. done. Qed.

Lemma fext_trans s s1 s2 dev own own1 :
  fext s s1 dev own -> fext s1 s2 dev own1 -> geom (sb_of s dev) ->
  (forall k, own1 k -> used s dev (sb_of s dev) k = true -> own k) ->
  fext s s2 dev own.
Proof.
  intros [Hsb Hu Hs Hm Hd] [Hsb1 Hu1 Hs1 Hm1 Hd1] Hg Hown. rewrite Hsb in *. split.
  - done.
  - auto.
  - intros k Hk Hk1 Hno. rewrite Hs1; [auto|done| |auto].
    apply Hu; [|done]. destruct (data_block_pos _ _ Hg Hk), Hk. lia.
  - intros k Hk. rewrite Hm1; auto.
  - intros dev' k Hk. rewrite Hd1; auto.
Qed.

Lemma fext_grab s s' dev b own : grab s s' dev b -> fext s s' dev own.
Proof.
  intros (_ & _ & [Hsb Hu Hs Hd]). split; [done| | | |done].
  - intros k Hk Hk1. rewrite Hu, Hk1 by done. apply orb_true_r.
  - intros k Hk _ _. apply Hs; [by apply data_not_bitmap|tauto].
  - intros k Hk. apply Hs; [unfold is_bitmap; lia|tauto].
Qed.

Lemma bstep_refl s i :
  alloc_inv s ∅ (i_dev i) -> file_ok s i -> bstep s s i i.
Proof.
  intros. split; try done. by destruct i.
Qed.

Lemma bstep_trans s s1 s2 i i1 i2 :
  bstep s s1 i i1 -> bstep s1 s2 i1 i2 -> geom (sb_of s (i_dev i)) -> bstep s s2 i i2.
Proof.
  intros [I1 A1 F1 B1 S1 N1 E1 P1] [I2 A2 F2 B2 S2 N2 E2 P2] Hg.
  assert (i_dev i1 = i_dev i) as Hd1 by (by rewrite I1).
  assert (i_dev i2 = i_dev i) as Hd2 by (by rewrite I2). rewrite Hd1 in *.
  pose proof (fe_sb _ _ _ _ E1) as Hsb1. pose proof (fe_sb _ _ _ _ E2) as Hsb2.
  rewrite Hsb1 in Hsb2, N2.
  assert (forall k, 0 <= k < NSLOT -> slot s i k = 0 -> slot s1 i1 k = 0 -> slot s2 i2 k <> 0 ->
    used s (i_dev i) (sb_of s (i_dev i)) (slot s2 i2 k) = false) as Hnew.
  { intros k Hk H0 H1 Hnz. apply not_true_is_false. intros Hu.
    destruct (fo_block _ _ F2 k Hk Hnz) as [Hd _]. rewrite Hd2, Hsb2 in Hd.
    apply (fe_used _ _ _ _ E1) in Hu; [rewrite N2 in Hu; done|].
    destruct (data_block_pos _ _ Hg Hd), Hd. lia. }
  split; [rewrite I2, I1; done|done|done| | | | |by etransitivity].
  - intros o Ho. by rewrite B2, B1.
  - intros k Hk Hnz. rewrite S2 by (done || by rewrite S1). by apply S1.
  - intros k Hk H0 Hnz. destruct (Z.eq_dec (slot s1 i1 k) 0) as [E|E]; [by apply Hnew|].
    rewrite (S2 k Hk E). by apply N1.
  - eapply fext_trans; [exact E1|exact E2|done|]. cbv beta. intros b [Hb ->] Hu. split; [done|].
    destruct (Z.eq_dec (slot s i NDIRECT) 0) as [E|E]; [|by apply S1].
    rewrite (N1 NDIRECT) in Hu; done.
Qed.

(** A step that changes nothing on the disk. *)
Lemma bstep_same s s' i :
  alloc_inv s ∅ (i_dev i) -> file_ok s i -> keeps ∅ s s' -> bio_disk s' = bio_disk s ->
  bstep s s' i i.
Proof.
  intros Ha Hf K D. destruct (same_disk s s' (i_dev i) D) as (Hsb & Hu & _).
  assert (forall d k, sector_of s' d k = sector_of s d k) as Hs
    by (intros; unfold sector_of; by rewrite D).
  assert (forall k, slot s' i k = slot s i k) as Hsl by (intros; unfold slot; by rewrite Hs).
  pose proof Ha as [Ho Hm Hz]. pose proof Hf as [Hl Hb Hi]. split.
  - by destruct i.
  - split; [by eapply alloc_ok_keeps|..]; rewrite Hsb; intros b ?; rewrite Hu, ?Hs; auto.
  - split; [done|..].
    + intros k. rewrite Hsl, Hsb, Hu. auto.
    + intros k k'. rewrite !Hsl. auto.
  - intros o Ho'. unfold fbyte. by rewrite Hsl, Hs.
  - done.
  - intros k _ H0. rewrite Hsl. done.
  - split; auto. intros k Hk. by rewrite Hu.
  - apply K.
Qed.

(** Taking a block for a slot of the inode itself. *)
Lemma bstep_direct s s' i k b :
  alloc_inv s ∅ (i_dev i) -> file_ok s i -> 0 <= k < NDIRECT + 1 -> slot s i k = 0 ->
  keeps ∅ s s' -> grab s s' (i_dev i) b -> alloc_inv s' ∅ (i_dev i) ->
  sector_of s' (i_dev i) b = zeros BSIZE ->
  bstep s s' i (i_set_addr k b i) /\ slot s' (i_set_addr k b i) k = b /\ b <> 0.
Proof.
  intros Ha Hf Hk H0 K Hg Ha' Hz. pose proof Hf as [Hl Hb _].
  assert (geom (sb_of s (i_dev i))) as Hge by apply Ha.
  assert (b <> 0) as Hbnz by (destruct (data_block_pos _ _ Hge (proj1 Hg)); lia).
  assert (forall j, 0 <= j < NSLOT -> slot s i j <> 0 ->
    sector_of s' (i_dev i) (slot s i j) = sector_of s (i_dev i) (slot s i j)) as Hsame.
  { intros j Hj Hnz. destruct Hg as (_ & _ & Hr). apply (rb_same _ _ _ _ _ Hr); [|tauto].
    by apply data_not_bitmap, Hb. }
  assert (forall j, 0 <= j < NSLOT ->
    slot s' (i_set_addr k b i) j = if j =? k then b else slot s i j) as Hs.
  { apply slot_set_addr; [done..|]. apply Hsame. done. }
  split_and!; [|by rewrite Hs, Z.eqb_refl by (unfold NSLOT in *; change NINDIRECT with 128; lia)|done].
  split.
  - by destruct i.
  - done.
  - eapply (attach_ok s s' i _ k b); try done; [simpl; by rewrite length_insert|apply Hg..].
  - eapply (attach_bytes s s' i _ k b); try done. intros j Hj _. by apply Hsame.
  - intros j Hj Hnz. rewrite Hs by done. destruct (Z.eqb_spec j k); congruence.
  - intros j Hj Hj0. rewrite Hs by done. destruct (Z.eqb_spec j k); [|congruence].
    intros _. apply Hg.
  - by eapply fext_grab.
  - apply K.
Qed.

(** Taking a block for entry [j] of the indirect block. *)
Lemma bstep_indirect s s1 s2 i j b (ind := nthb (i_addrs i) NDIRECT) :
  alloc_inv s ∅ (i_dev i) -> file_ok s i -> 0 <= j < NINDIRECT -> ind <> 0 ->
  slot s i (NDIRECT + 1 + j) = 0 -> grab s s1 (i_dev i) b ->
  sector_of s1 (i_dev i) b = zeros BSIZE ->
  bio_disk s2 = <[(i_dev i, ind) := put32 (4 * j) b (sector_of s (i_dev i) ind)]> (bio_disk s1) ->
  alloc_inv s2 ∅ (i_dev i) -> pt_frame (bio_pt s) (bio_pt s2) ->
  bstep s s2 i i /\ slot s2 i (NDIRECT + 1 + j) = b /\ b <> 0.
Proof.
  intros Ha Hf Hj Hind H0 Hg Hz D2 Ha2 P2. pose proof Hf as [Hl Hb Hinj].
  set (dev := i_dev i) in *. set (sb := sb_of s dev) in *.
  assert (geom sb) as Hge by apply Ha. pose proof Hg as (Hdb & Hub & Hr).
  pose proof (rb_sb _ _ _ _ _ Hr) as Hsb1. fold sb in Hdb, Hub, Hsb1.
  destruct (data_block_pos _ _ Hge Hdb) as [Hb1 Hn]. change NINDIRECT with 128 in Hj.
  assert (slot s i NDIRECT = ind) as Hsi by done.
  destruct (Hb NDIRECT) as [Hdi Hui]; [done|by rewrite Hsi|]. rewrite Hsi in Hdi, Hui.
  destruct (write_data s1 s2 dev ind _ ltac:(by rewrite Hsb1) ltac:(by rewrite Hsb1)
    ltac:(by rewrite Hsb1) D2) as (Hsb2 & Hu2 & Hs2 & Hd2 & Hi2). rewrite Hsb1 in Hsb2, Hu2.
  assert (forall k, data_block sb k -> ind <> k -> sector_of s2 dev k = sector_of s dev k) as Hsame.
  { intros k Hk Hne. rewrite Hs2 by done. apply (rb_same _ _ _ _ _ Hr); [|tauto].
    by apply data_not_bitmap. }
  assert (is_block (sector_of s dev ind)) as Hblk by apply Ha.
  assert (b < 2 ^ 32) as Hb32.
  { destruct (nbits_bound sb b Hge) as [? _]; [destruct Hdb; lia|lia]. }
  assert (forall k, 0 <= k < NSLOT ->
    slot s2 i k = if k =? NDIRECT + 1 + j then b else slot s i k) as Hs.
  { apply slot_put_entry; fold ind dev; [done..|change NINDIRECT with 128; lia|lia|done]. }
  assert (0 <= NDIRECT + 1 + j < NSLOT) as Hjr by (change NSLOT with 140; change NDIRECT with 11; lia).
  split_and!; [|by rewrite Hs, Z.eqb_refl by done|lia]. split; fold dev sb.
  - by destruct i.
  - done.
  - eapply (attach_ok s s2 i i (NDIRECT + 1 + j) b); try done. intros k Hk.
    fold dev sb. fold dev sb in Hk. rewrite Hu2 by done. by apply (rb_used _ _ _ _ _ Hr).
  - eapply (attach_bytes s s2 i i (NDIRECT + 1 + j) b); try done; fold dev.
    + intros _. rewrite Hs2; [done|]. congruence.
    + intros k Hk Hne Hnz. apply Hsame; [by apply Hb|]. rewrite <- Hsi. intros Heq.
      apply Hne. symmetry. apply Hinj; [done..|congruence|done].
  - intros k Hk Hnz. rewrite Hs by done. destruct (Z.eqb_spec k (NDIRECT + 1 + j)); congruence.
  - intros k Hk Hk0. rewrite Hs by done. destruct (Z.eqb_spec k (NDIRECT + 1 + j)); congruence.
  - rewrite Hsi. eapply fext_trans; [by eapply (fext_grab s s1)| |done|intros ? Hx ?; exact Hx].
    split; rewrite ?Hsb1; fold sb; try done.
    + intros k Hk. by rewrite Hu2.
    + intros k Hk _ Hno. apply Hs2. intros <-. by apply Hno.
    + intros k Hk. apply Hs2. pose proof (data_block_ne sb ind 0 Hge Hdi ltac:(lia)). lia.
  - done.
Qed.

(** ** [bmap] *)

(** The disk is full. *)
Definition no_space (dev : Z) (msg : string) (s : fs) : Prop :=
  msg = OOB /\ full (fs_bio s) dev.

(** A block for an empty slot of the inode. *)
Lemma bmap_slot s ip i k (Q : Z -> fs -> Prop) :
  fs_inode s !! ip = Some i -> alloc_inv (fs_bio s) ∅ (i_dev i) -> file_ok (fs_bio s) i ->
  0 <= k < NDIRECT + 1 ->
  (forall i' s', fs_inode s' = <[ip := i']> (fs_inode s) ->
     bstep (fs_bio s) (fs_bio s') i i' -> nthb (i_addrs i') k <> 0 ->
     Q (nthb (i_addrs i') k) s') ->
  wpe (if nthb (i_addrs i) k =? 0 then
         let! addr := zoom bio_of_fs (balloc (i_dev i)) in
         modify (upd_inode ip (i_set_addr k addr));;;
         ret addr
       else ret (nthb (i_addrs i) k)) Q (no_space (i_dev i)) s.
Proof.
  intros Hip Ha Hf Hk HQ.
  assert (forall b i, slot b i k = nthb (i_addrs i) k) as Hsl.
  { intros b i0. unfold slot. destruct (Z.ltb_spec k (NDIRECT + 1)); [done|lia]. }
  destruct (Z.eqb_spec (nthb (i_addrs i) k) 0) as [H0|H0]; wsteps.
  - eapply wpe_balloc; [exact Ha| |intros s' Hfull; by split]. intros b s1 K G Ha1 Hz. wsteps.
    destruct (bstep_direct (fs_bio s) s1 i k b) as (Hb & Hs & Hnz); try done; [by rewrite Hsl|].
    rewrite Hsl in Hs. rewrite (upd_inode_insert ip _ _ i) by done.
    pose proof (HQ (i_set_addr k b i)) as HQ'. rewrite Hs in HQ'. by apply HQ'.
  - apply (HQ i); [by rewrite list_insert_id|by apply bstep_refl|done].
Qed.

(** The entry of the indirect block. *)
Lemma bmap_entry s i j (dev := i_dev i) (ind := nthb (i_addrs i) NDIRECT) :
  alloc_inv (fs_bio s) ∅ dev -> file_ok (fs_bio s) i -> 0 <= j < NINDIRECT -> ind <> 0 ->
  wpe (let! bp := zoom bio_of_fs (bread dev ind) in
       let! a := gets (fun s => bdata bp (fs_bio s)) in
       let! addr :=
         (if get32 (4 * j) a =? 0 then
            let! addr := zoom bio_of_fs (balloc dev) in
            zoom bio_of_fs (
              set_bdata bp (put32 (4 * j) addr a);;;
              bwrite bp);;;
            ret addr
          else ret (get32 (4 * j) a)) in
       zoom bio_of_fs (brelse bp);;;
       ret addr)
    (fun b s' => fs_inode s' = fs_inode s /\ bstep (fs_bio s) (fs_bio s') i i /\
       b = slot (fs_bio s') i (NDIRECT + 1 + j) /\ b <> 0) (no_space dev) s.
Proof.
  intros Ha Hf Hj Hnz. pose proof Hf as [_ Hb _].
  assert (geom (sb_of (fs_bio s) dev)) as Hg by apply Ha.
  destruct (Hb NDIRECT) as [Hdi Hui]; [done|done|]. change (slot (fs_bio s) i NDIRECT) with ind in *.
  fold dev in Hdi, Hui. destruct (data_block_pos _ _ Hg Hdi) as [Hi1 Hn].
  assert (forall b, slot b i (NDIRECT + 1 + j) = get32 (4 * j) (sector_of b dev ind)) as Hsl.
  { intros b. unfold slot. fold ind dev. rewrite (proj2 (Z.eqb_neq ind 0)) by done.
    rewrite (proj2 (Z.ltb_ge (NDIRECT + 1 + j) (NDIRECT + 1))) by lia. do 2 f_equal. lia. }
  wsteps. apply wpe_wp. cbn [lget bio_of_fs].
  eapply wp_bread; [apply Ha|split; [apply Ha|]|apply Ha|intros x; by rewrite lookup_empty|].
  { destruct (nbits_bound _ ind Hg) as [? _]; [destruct Hdi; lia|lia]. }
  intros bp s1 Ho B1 D1. wsteps. cbn [lset bio_of_fs fs_set_bio fs_bio]. rewrite B1.
  assert (bdata bp s1 = sector_of s1 dev ind) as Bs by (rewrite B1; unfold sector_of; by rewrite D1).
  destruct (Z.eqb_spec (get32 (4 * j) (sector_of (fs_bio s) dev ind)) 0) as [H0|H0]; wsteps.
  - eapply wpe_balloc.
    { eapply alloc_inv_open; [exact Ha|exact Ho|exact D1|exact Hdi| |exact Hn].
      rewrite map_size_empty. by apply Nat.ltb_lt. }
    2: { intros s' Hfull. by split. }
    intros b s2 K G2 Ha2 Hz. apply wpe_bind, wpe_zoom, wpe_wp. apply wp_bind. cbn [lget lset bio_of_fs fs_set_bio fs_bio].
    destruct (opened_keeps _ _ _ _ _ _ Ho K) as [Ho2 B2].
    assert (grab (fs_bio s) s2 dev b) as G by (by eapply grab_same_disk).
    assert (is_block (sector_of (fs_bio s) dev ind)) as Hblk by apply Ha.
    eapply wp_write; [exact Ho2|by apply is_block_splice, Forall_le_enc|].
    intros s3 Ho3 B3 D3. apply wpe_wp, wp_ret. apply wpe_bind.
    apply wpe_zoom, wpe_wp. cbn [lget lset bio_of_fs fs_set_bio fs_bio].
    eapply wp_brelse; [exact Ho3| |].
    { rewrite B3. unfold sector_of, disk_read. by rewrite D3, lookup_insert_eq. }
    intros s4 K4 D4. wsteps. cbn [lset bio_of_fs fs_set_bio fs_bio fs_inode].
    destruct (bstep_indirect (fs_bio s) s2 s4 i j b) as (Hbs & Hslot & Hbnz); try done.
    + by rewrite Hsl.
    + by rewrite D4.
    + eapply alloc_inv_close; [|apply Ho3|apply K4|exact D4].
      destruct G as (_ & _ & [Hsb2 Hu2 _ _]).
      eapply alloc_inv_write; [exact Ha2|apply Ho3| | | |exact D3]; fold dev; rewrite ?Hsb2; try done.
      rewrite Hu2, Hui, orb_true_r; [done|]. destruct Hdi. lia.
    + apply K4.
  - apply wpe_wp. eapply wp_brelse; [exact Ho|exact Bs|]. intros s2 K2 D2. wsteps.
    cbn [lset bio_of_fs fs_set_bio fs_bio fs_inode].
    assert (bio_disk s2 = bio_disk (fs_bio s)) as D20 by (etransitivity; [exact D2|exact D1]). split_and!; [done| | |done].
    + by apply bstep_same.
    + rewrite Hsl. unfold sector_of. by rewrite D20.
Qed.

Lemma bmap_spec s ip i bn :
  fs_inode s !! ip = Some i -> alloc_inv (fs_bio s) ∅ (i_dev i) -> file_ok (fs_bio s) i ->
  0 <= bn < MAXFILE ->
  wpe (bmap ip bn) (fun b s' => exists i',
      fs_inode s' = <[ip := i']> (fs_inode s) /\ bstep (fs_bio s) (fs_bio s') i i' /\
      b = slot (fs_bio s') i' (pos bn) /\ b <> 0) (no_space (i_dev i)) s.
Proof.
  intros Hip Ha Hf Hbn. unfold bmap. wsteps. rewrite (inode_at_lookup ip s i Hip).
  assert (geom (sb_of (fs_bio s) (i_dev i))) as Hg by apply Ha.
  destruct (Z.ltb_spec bn NDIRECT) as [Hlt|Hge].
  { eapply bmap_slot; [done..|lia|]. intros i' s' Hl Hb Hnz. exists i'. split_and!; try done.
    unfold pos. rewrite (proj2 (Z.ltb_lt bn NDIRECT)) by done.
    unfold slot. by rewrite (proj2 (Z.ltb_lt bn (NDIRECT + 1))) by lia. }
  assert (pos bn = NDIRECT + 1 + (bn - NDIRECT)) as Hpos.
  { unfold pos. destruct (Z.ltb_spec bn NDIRECT); lia. }
  set (j := bn - NDIRECT) in *. assert (0 <= j < NINDIRECT) as Hj by (unfold j, MAXFILE in *; lia).
  rewrite (proj2 (Z.ltb_lt j NINDIRECT)) by lia. wsteps.
  eapply bmap_slot; [done..|done|]. intros i1 s1 Hl1 Hb1 Hnz.
  assert (i_dev i1 = i_dev i) as Hdev by (by rewrite (bs_inode _ _ _ _ Hb1)). rewrite <- Hdev.
  pose proof (bs_alloc _ _ _ _ Hb1) as Ha1. rewrite <- Hdev in Ha1.
  eapply wpe_mono; [apply bmap_entry; [done|apply Hb1|done..]| |done]. cbv beta.
  intros b s2 (Hl2 & Hb2 & Hslot & Hbnz). exists i1. rewrite Hl2, Hpos.
  split_and!; [done|by eapply bstep_trans|done..].
Qed.

(** ** Writing a block of the file *)

(** A step of a file operation that may change the file's own blocks. *)
Record frel (s s' : bio) (i i' : inode) : Prop := {
  fr_inode : i' = i_set_addrs (i_addrs i') i;
  fr_alloc : alloc_inv s' ∅ (i_dev i);
  fr_file : file_ok s' i';
  fr_slots : forall k, 0 <= k < NSLOT -> slot s i k <> 0 -> slot s' i' k = slot s i k;
  fr_fresh : forall k, 0 <= k < NSLOT -> slot s i k = 0 -> slot s' i' k <> 0 ->
    used s (i_dev i) (sb_of s (i_dev i)) (slot s' i' k) = false;
  fr_ext : fext s s' (i_dev i) (fun b => b <> 0 /\ exists k, 0 <= k < NSLOT /\ b = slot s i k);
  fr_pt : pt_frame (bio_pt s) (bio_pt s');
}.

Lemma bstep_frel s s' i i' : bstep s s' i i' -> frel s s' i i'.
Proof.
  intros [I A F B S N [E1 E2 E3 E4 E5] P]. split; try done. split; try done.
  intros k Hk Hu Hno. apply E3; [done..|]. intros [Hnz ->]. apply Hno. split; [done|].
  exists NDIRECT. by split.
Qed.

Lemma frel_refl s i : alloc_inv s ∅ (i_dev i) -> file_ok s i -> frel s s i i.
Proof. intros. by apply bstep_frel, bstep_refl. Qed.

Lemma frel_dev s s' i i' : frel s s' i i' -> i_dev i' = i_dev i.
Proof. intros [-> _ _ _ _ _ _]. done. Qed.

Lemma frel_trans s s1 s2 i i1 i2 :
  frel s s1 i i1 -> frel s1 s2 i1 i2 -> geom (sb_of s (i_dev i)) -> frel s s2 i i2.
Proof.
  intros R1 R2 Hg. pose proof (frel_dev _ _ _ _ R1) as Hd1. pose proof (frel_dev _ _ _ _ R2) as Hd2.
  destruct R1 as [I1 A1 F1 S1 N1 E1 P1], R2 as [I2 A2 F2 S2 N2 E2 P2]. rewrite Hd1 in *.
  pose proof (fe_sb _ _ _ _ E1) as Hsb1. pose proof (fe_sb _ _ _ _ E2) as Hsb2.
  rewrite Hsb1 in Hsb2, N2.
  split; [rewrite I2, I1; done|done|done| | | |by etransitivity].
  - intros k Hk Hnz. rewrite S2 by (done || by rewrite S1). by apply S1.
  - intros k Hk H0 Hnz. destruct (Z.eq_dec (slot s1 i1 k) 0) as [E|E]; [|rewrite (S2 k Hk E); by apply N1].
    apply not_true_is_false. intros Hu.
    destruct (fo_block _ _ F2 k Hk Hnz) as [Hd _]. rewrite Hd2, Hsb2 in Hd.
    apply (fe_used _ _ _ _ E1) in Hu; [rewrite N2 in Hu; done|].
    destruct (data_block_pos _ _ Hg Hd), Hd. lia.
  - eapply fext_trans; [exact E1|exact E2|done|]. cbv beta. intros b (Hb & k & Hk & ->) Hu.
    split; [done|]. exists k. split; [done|].
    destruct (Z.eq_dec (slot s i k) 0) as [E|E]; [|by apply S1].
    rewrite (N1 k) in Hu; done.
Qed.

Lemma pos_inj a b : pos a = pos b -> a = b.
Proof. unfold pos. destruct (Z.ltb_spec a NDIRECT), (Z.ltb_spec b NDIRECT); lia. Qed.

(** The bytes after the file's block [bn] is overwritten. *)
Lemma fbyte_write s s' i bn b d :
  0 <= bn < MAXFILE -> slot s i (pos bn) = b -> b <> 0 ->
  (forall k, 0 <= k < NSLOT -> slot s' i k = slot s i k) ->
  (forall k k', 0 <= k < NSLOT -> 0 <= k' < NSLOT -> slot s i k <> 0 -> slot s i k = slot s i k' -> k = k') ->
  sector_of s' (i_dev i) b = d -> (forall k, b <> k -> sector_of s' (i_dev i) k = sector_of s (i_dev i) k) ->
  forall o, 0 <= o < MAXFILE * BSIZE ->
    fbyte s' i o = if o / BSIZE =? bn then nthb d (o mod BSIZE) else fbyte s i o.
Proof.
  intros Hbn Hb Hnz Hsl Hinj Hbd Hs o Ho. destruct (pos_range _ (off_block o Ho)) as [Hq _]. unfold fbyte.
  rewrite Hsl by done. destruct (pos_range bn Hbn) as [Hp _]. destruct (Z.eqb_spec (o / BSIZE) bn) as [->|Hne].
  - rewrite Hb, (proj2 (Z.eqb_neq b 0)), Hbd by done. done.
  - destruct (Z.eqb_spec (slot s i (pos (o / BSIZE))) 0); [done|]. rewrite Hs; [done|].
    intros Heq. apply Hne, pos_inj, Hinj; try done. by rewrite Hb.
Qed.

(** Overwriting the file's block [bn]. *)
Lemma frel_write s s' i bn b d :
  alloc_inv s ∅ (i_dev i) -> file_ok s i -> 0 <= bn < MAXFILE -> slot s i (pos bn) = b ->
  b <> 0 -> bio_disk s' = <[(i_dev i, b) := d]> (bio_disk s) -> keeps ∅ s s' ->
  frel s s' i i /\
  forall o, 0 <= o < MAXFILE * BSIZE ->
    fbyte s' i o = if o / BSIZE =? bn then nthb d (o mod BSIZE) else fbyte s i o.
Proof.
  intros Ha Hf Hbn Hb Hnz D K. pose proof Hf as [Hl Hbl Hinj].
  destruct (pos_range bn Hbn) as [Hp HpN].
  assert (geom (sb_of s (i_dev i))) as Hg by apply Ha.
  destruct (Hbl (pos bn)) as [Hd Hu]; [done|congruence|]. rewrite Hb in Hd, Hu.
  destruct (data_block_pos _ _ Hg Hd) as [Hb1 Hn].
  destruct (write_data s s' (i_dev i) b d Hg Hd Hn D) as (Hsb & Hus & Hs & Hdev & Hbd).
  assert (forall k, 0 <= k < NSLOT -> slot s' i k = slot s i k) as Hsl.
  { intros k Hk. unfold slot. destruct (k <? NDIRECT + 1); [done|].
    destruct (Z.eqb_spec (nthb (i_addrs i) NDIRECT) 0) as [|Hi]; [done|].
    rewrite Hs; [done|]. intros Heq. apply HpN. apply Hinj; [done..|congruence|]. by rewrite Hb. }
  split.
  - split; try done.
    + by destruct i.
    + eapply alloc_inv_write; [done|apply K|done..].
    + split; [done|intros k Hk|intros k k' Hk Hk'; rewrite !Hsl by done; auto].
      rewrite Hsl, Hsb by done. intros Hk0. destruct (Hbl k Hk Hk0) as [Hdk Huk].
      split; [done|]. rewrite Hus; [done|]. destruct (data_block_pos _ _ Hg Hdk), Hdk. lia.
    + intros k Hk _. by apply Hsl.
    + intros k Hk H0. rewrite Hsl by done. congruence.
    + split; try done; [intros k Hk; by rewrite Hus|intros k Hk _ Hno|intros k Hk].
      * apply Hs. intros <-. apply Hno. split; [done|]. by exists (pos bn).
      * apply Hs. pose proof (data_block_ne _ b 0 Hg Hd ltac:(lia)). lia.
    + apply K.
  - by apply (fbyte_write s s' i bn b d).
Qed.
