(* ===== verification/Icache.v ===== *)
(** * The inode cache and the inodes on the disk (kernel/fs.c)

    Specifications of [iupdate], [ilock], [iunlock], [iget], [idup], [ialloc]
    and the reference-dropping half of [iput]: the disk inode written by
    [iupdate] is the one [ilock] reads back, a (device, inode number) pair has
    at most one cache entry, and the entry found has the pair asked for. *)

From S2P Require Import Prelude Monad Params ProcTable Ide Bio Block Alloc Inode Bmap.

(** ** Disk inodes round trip *)

Lemma le_dec_enc_mod n v : le_dec (le_enc n v) = v mod 256 ^ Z.of_nat n.
Proof.
  revert v. induction n as [|n IH]; intros v; [by rewrite Z.mod_1_r|].
  simpl le_enc. simpl le_dec. rewrite IH.
  rewrite Nat2Z.inj_succ, Z.pow_succ_r, Z.rem_mul_r by lia. done.
Qed.

(** The bytes spliced in, read back. *)
Lemma slice_in_splice off src l a n :
  0 <= off -> 0 <= a -> 0 <= n -> a + n <= Z.of_nat (length src) ->
  off + Z.of_nat (length src) <= Z.of_nat (length l) ->
  slice (off + a) n (splice off src l) = slice a n src.
Proof.
  intros. unfold slice. apply list_fmap_ext. intros k x Hx. apply lookup_seqZ in Hx.
  rewrite nthb_splice_in by lia. f_equal. lia.
Qed.

(** A short and its two bytes. *)
Lemma s16_le v : - 2 ^ 15 <= v < 2 ^ 15 -> s16 (le_dec (le_enc 2 v)) = v.
Proof.
  intros Hv. rewrite le_dec_enc_mod. change (256 ^ Z.of_nat 2) with (2 ^ 16).
  unfold s16, u16. rewrite Z.mod_mod by done.
  destruct (Z.leb_spec 0 v).
  - rewrite Z.mod_small by lia. destruct (Z.ltb_spec v (2 ^ 15)); lia.
  - rewrite <- (Z.mod_add v 1), Z.mod_small by lia.
    destruct (Z.ltb_spec (v + 1 * 2 ^ 16) (2 ^ 15)); lia.
Qed.

Definition is_short (v : Z) : Prop := - 2 ^ 15 <= v < 2 ^ 15.
Definition is_uint (v : Z) : Prop := 0 <= v < 2 ^ 32.

(** The fields of an inode have their C ranges. *)
Record inode_wf (i : inode) : Prop := {
  iw_type : is_short (i_type i);
  iw_major : is_short (i_major i);
  iw_minor : is_short (i_minor i);
  iw_nlink : is_short (i_nlink i);
  iw_size : is_uint (i_size i);
  iw_len : length (i_addrs i) = Z.to_nat (NDIRECT + 1);
  iw_addrs : Forall is_uint (i_addrs i);
}.

Lemma addr_bytes_cons x l :
  mjoin (le_enc 4 <$> x :: l) = le_enc 4 x ++ mjoin (le_enc 4 <$> l).
Proof. done. Qed.

Lemma length_addr_bytes l : length (mjoin (le_enc 4 <$> l)) = (4 * length l)%nat.
Proof.
  induction l as [|x l IH]; [done|].
  rewrite addr_bytes_cons, length_app, IH, length_le_enc. simpl. lia.
Qed.

Lemma length_dinode_bytes i : inode_wf i -> length (dinode_bytes i) = 60%nat.
Proof.
  intros Hw. unfold dinode_bytes. rewrite !length_app, !length_le_enc, length_addr_bytes, (iw_len _ Hw).
  done.
Qed.

Lemma Forall_dinode_bytes i : Forall is_byte (dinode_bytes i).
Proof.
  unfold dinode_bytes. repeat (apply Forall_app_2; [apply Forall_le_enc|]).
  induction (i_addrs i) as [|x l IH]; [done|]. rewrite addr_bytes_cons.
  apply Forall_app_2; [apply Forall_le_enc|done].
Qed.

(** The [k]-th address of the array. *)
Lemma addr_bytes_lookup l k x :
  l !! k = Some x -> 0 <= x < 2 ^ 32 ->
  le_dec (slice (4 * Z.of_nat k) 4 (mjoin (le_enc 4 <$> l))) = x.
Proof.
  revert k. induction l as [|y l IH]; intros k Hk Hx; [done|].
  rewrite addr_bytes_cons. destruct k as [|k].
  - injection Hk as ->. rewrite slice_app_l by (by rewrite length_le_enc). apply le_dec_enc. lia.
  - rewrite slice_app_r by (rewrite length_le_enc; lia). rewrite length_le_enc.
    replace (4 * Z.of_nat (S k) - Z.of_nat 4) with (4 * Z.of_nat k) by lia. by apply IH.
Qed.

(** Where each field is. *)
Lemma dinode_bytes_fields i :
  inode_wf i ->
  slice 0 2 (dinode_bytes i) = le_enc 2 (i_type i) /\
  slice 2 2 (dinode_bytes i) = le_enc 2 (i_major i) /\
  slice 4 2 (dinode_bytes i) = le_enc 2 (i_minor i) /\
  slice 6 2 (dinode_bytes i) = le_enc 2 (i_nlink i) /\
  slice 8 4 (dinode_bytes i) = le_enc 4 (i_size i) /\
  (forall k, 0 <= k < NDIRECT + 1 ->
     le_dec (slice (12 + 4 * k) 4 (dinode_bytes i)) = nthb (i_addrs i) k).
Proof.
  intros Hw. unfold dinode_bytes. split_and!.
  1-5: repeat (rewrite slice_app_r by (rewrite length_le_enc; lia); rewrite length_le_enc);
    by apply slice_app_l.
  intros k Hk. change (NDIRECT + 1) with 12 in Hk.
  repeat (rewrite slice_app_r by (rewrite length_le_enc; lia); rewrite length_le_enc).
  assert (length (i_addrs i) = 12%nat) as Hl by apply Hw.
  destruct (lookup_lt_is_Some_2 (i_addrs i) (Z.to_nat k)) as [x Hx]; [lia|].
  assert (is_uint x) as Hr by (eapply Forall_lookup_1; [apply (iw_addrs _ Hw)|done]).
  unfold nthb. rewrite Hx. simpl.
  replace (12 + 4 * k - Z.of_nat 2 - Z.of_nat 2 - Z.of_nat 2 - Z.of_nat 2 - Z.of_nat 4)
    with (4 * Z.of_nat (Z.to_nat k)) by lia.
  by apply addr_bytes_lookup.
Qed.

(** [dip] written by [iupdate] and read by [ilock]. *)
Lemma dinode_at_put k i d :
  inode_wf i -> 0 <= k < IPB -> is_block d ->
  dinode_at k (put_dinode k i d) =
  Dinode (i_type i) (i_major i) (i_minor i) (i_nlink i) (i_size i) (i_addrs i)
    (di_tags (dinode_at k d)).
Proof.
  intros Hw Hk Hd. pose proof (is_block_len _ Hd) as Hl. change BSIZE with 512 in Hl.
  change IPB with 8 in Hk. pose proof (length_dinode_bytes i Hw) as Hlb.
  destruct (dinode_bytes_fields i Hw) as (E1 & E2 & E3 & E4 & E5 & E6).
  unfold dinode_at, put_dinode. change sizeof_dinode with 64.
  assert (forall a n, 0 <= a -> 0 <= n -> a + n <= 60 ->
    slice (k * 64 + a) n (splice (k * 64) (dinode_bytes i) d) = slice a n (dinode_bytes i)) as Hs.
  { intros. apply slice_in_splice; lia. }
  unfold get16, get32. rewrite <- (Z.add_0_r (k * 64)) at 1. rewrite !Hs, E1, E2, E3, E4, E5 by lia.
  rewrite !s16_le by apply Hw. rewrite le_dec_enc by apply (iw_size _ Hw). f_equal.
  - rewrite <- (slice_all (i_addrs i)), (iw_len _ Hw). unfold addrs_at, slice.
    apply list_fmap_ext. intros j x Hx. apply lookup_seqZ in Hx. change (NDIRECT + 1) with 12 in Hx.
    unfold get32. rewrite <- Z.add_assoc, Hs by lia. apply E6. change (NDIRECT + 1) with 12. lia.
  - cbn [di_tags]. by rewrite slice_splice_ne by lia.
Qed.

Lemma is_block_put_dinode k i d : is_block d -> is_block (put_dinode k i d).
Proof. intros. apply is_block_splice; [done|apply Forall_dinode_bytes]. Qed.

(** The other inodes of the block are not touched. *)
Lemma dinode_at_put_ne k k' i d :
  inode_wf i -> 0 <= k -> 0 <= k' -> k <> k' ->
  dinode_at k' (put_dinode k i d) = dinode_at k' d.
Proof.
  intros Hw Hk Hk' Hne. pose proof (length_dinode_bytes i Hw) as Hlb.
  unfold dinode_at, put_dinode. change sizeof_dinode with 64.
  assert (forall a n, 0 <= a -> 0 <= n -> a + n <= 64 ->
    slice (k' * 64 + a) n (splice (k * 64) (dinode_bytes i) d) = slice (k' * 64 + a) n d) as Hs.
  { intros. apply slice_splice_ne; lia. }
  unfold get16, get32. rewrite <- (Z.add_0_r (k' * 64)) at 1. rewrite !Hs by lia.
  f_equal; [by rewrite Z.add_0_r|]. apply list_fmap_ext. intros j x Hx. apply lookup_seqZ in Hx. change (NDIRECT + 1) with 12 in Hx.
  unfold get32. by rewrite <- !Z.add_assoc, Hs by lia.
Qed.

(** ** Writing an inode block *)

(** An inode of the device. *)
Definition inum_ok (sb : superblock) (inum : Z) : Prop := 0 <= inum < sb_ninodes sb.

Lemma iblock_range sb inum :
  inum_ok sb inum -> 1 < IBLOCK inum < BBLOCK 0 (sb_ninodes sb).
Proof.
  intros [H0 H1]. unfold IBLOCK, BBLOCK. change (0 / BPB) with 0.
  assert (0 <= inum / IPB) by (by apply Z.div_pos).
  assert (inum / IPB <= sb_ninodes sb / IPB) by (apply Z.div_le_mono; [done|lia]). lia.
Qed.

Lemma write_inode_block s s' dev k d :
  1 < k < BBLOCK 0 (sb_ninodes (sb_of s dev)) ->
  bio_disk s' = <[(dev, k) := d]> (bio_disk s) ->
  sb_of s' dev = sb_of s dev /\
  (forall b, 0 <= b -> used s' dev (sb_of s dev) b = used s dev (sb_of s dev) b) /\
  (forall b, k <> b -> sector_of s' dev b = sector_of s dev b) /\
  (forall dev' b, dev' <> dev -> sector_of s' dev' b = sector_of s dev' b) /\
  sector_of s' dev k = d.
Proof.
  intros Hk D.
  assert (forall b, k <> b -> sector_of s' dev b = sector_of s dev b) as Hs.
  { intros b Hb. rewrite (sector_of_insert _ _ _ _ _ _ D). by rewrite decide_False. }
  split_and!; [|intros b Hb|done| |].
  - unfold sb_of at 1. rewrite Hs; [done|lia].
  - unfold used. rewrite Hs; [done|]. unfold BBLOCK in *.
    assert (0 <= b / BPB) by (apply Z.div_pos; [lia|done]). change (0 / BPB) with 0 in Hk. lia.
  - intros dev' b Hx. unfold sector_of, disk_read. rewrite D, lookup_insert_ne; congruence.
  - rewrite (sector_of_insert _ _ _ _ _ _ D). by rewrite decide_True.
Qed.

(** It changes neither the allocator nor any file's bytes. *)
Lemma alloc_inv_inode s s' H dev k d :
  alloc_inv s H dev -> holds s' H -> 1 < k < BBLOCK 0 (sb_ninodes (sb_of s dev)) ->
  bio_disk s' = <[(dev, k) := d]> (bio_disk s) -> alloc_inv s' H dev.
Proof.
  intros Ha Hh Hk D. pose proof Ha as [[? ? Hg ? ? ?] Hm Hz].
  destruct (write_inode_block s s' dev k d Hk D) as (Hsb & Hu & Hs & _).
  split; [by split; rewrite ?Hsb|rewrite Hsb; intros b ? ?; rewrite Hu by lia; auto|].
  rewrite Hsb. intros b Hb. rewrite Hu by lia. intros Hub. rewrite Hs; [auto|].
  pose proof (free_is_data _ _ _ b Ha Hb Hub) as Hd.
  pose proof (data_block_ne _ b 0 Hg Hd ltac:(lia)). lia.
Qed.

Lemma file_inode_block s s' i k d :
  geom (sb_of s (i_dev i)) -> file_ok s i -> 1 < k < BBLOCK 0 (sb_ninodes (sb_of s (i_dev i))) ->
  bio_disk s' = <[(i_dev i, k) := d]> (bio_disk s) ->
  file_ok s' i /\ (forall j, 0 <= j < NSLOT -> slot s' i j = slot s i j) /\
  (forall o, 0 <= o < MAXFILE * BSIZE -> fbyte s' i o = fbyte s i o).
Proof.
  intros Hg [Hl Hb Hi] Hk D.
  destruct (write_inode_block s s' _ k d Hk D) as (Hsb & Hu & Hs & _).
  assert (forall j, 0 <= j < NSLOT -> slot s i j <> 0 ->
    sector_of s' (i_dev i) (slot s i j) = sector_of s (i_dev i) (slot s i j)) as Hss.
  { intros j Hj Hnz. destruct (Hb j Hj Hnz) as [Hd _]. apply Hs.
    destruct (data_block_pos _ _ Hg Hd). pose proof (data_block_ne _ _ 0 Hg Hd ltac:(lia)). lia. }
  assert (forall j, 0 <= j < NSLOT -> slot s' i j = slot s i j) as Hsl.
  { intros j Hj. unfold slot. destruct (j <? NDIRECT + 1); [done|].
    destruct (Z.eqb_spec (nthb (i_addrs i) NDIRECT) 0); [done|].
    f_equal. by apply (Hss NDIRECT). }
  split_and!; [split; [done|intros j Hj|intros j j' Hj Hj'; rewrite !Hsl by done; auto]|done|].
  - rewrite Hsl, Hsb by done. intros Hnz. destruct (Hb j Hj Hnz) as [Hd Huj]. split; [done|].
    destruct (data_block_pos _ _ Hg Hd). by rewrite Hu by lia.
  - intros o Ho. destruct (pos_range _ (off_block o Ho)) as [Hp _]. unfold fbyte.
    rewrite Hsl by done. destruct (Z.eqb_spec (slot s i (pos (o / BSIZE))) 0); [done|].
    by rewrite Hss.
Qed.

Lemma iblock_addressable sb inum : geom sb -> inum_ok sb inum -> 0 <= IBLOCK inum < 2 ^ 28.
Proof.
  intros Hg Hi. pose proof (iblock_range _ _ Hi) as Hr. destruct Hg as (_ & Hs & _ & Hm).
  unfold BBLOCK in Hr. change (0 / BPB) with 0 in Hr.
  assert (0 <= (sb_size sb + BPB) / BPB); [|lia]. apply Z.div_pos; [|done]. pose proof BPB_pos. lia.
Qed.

(** ** [iupdate] *)

Lemma iupdate_spec s ip i :
  fs_inode s !! ip = Some i -> holds (fs_bio s) ∅ -> i_dev i = 0 \/ i_dev i = 1 ->
  geom (sb_of (fs_bio s) (i_dev i)) -> inum_ok (sb_of (fs_bio s) (i_dev i)) (i_inum i) ->
  wp (iupdate ip) (fun _ s' => fs_inode s' = fs_inode s /\
    keeps ∅ (fs_bio s) (fs_bio s') /\
    let k := IBLOCK (i_inum i) in
    bio_disk (fs_bio s') = <[(i_dev i, k) :=
      put_dinode (i_inum i mod IPB) i (sector_of (fs_bio s) (i_dev i) k)]> (bio_disk (fs_bio s))) s.
Proof.
  intros Hip Hh Hdev Hg Hi. unfold iupdate. wsteps. rewrite (inode_at_lookup ip s i Hip). fsimpl.
  eapply wp_bread; [done|split; [done|]|by apply Nat.ltb_lt|intros x; by rewrite lookup_empty|].
  { by eapply iblock_addressable. }
  intros bp s1 Ho B1 D1. wsteps. fsimpl. rewrite B1.
  eapply wp_commit_end; [exact Ho|apply is_block_put_dinode, Hh|].
  intros s2 K2 D2. split_and!; [done..|]. fsimpl. by rewrite D2, D1.
Qed.

(** ** Locking *)

(** The flags of an inode between operations. *)
Definition i_locked (i : inode) : Prop := i_flags i = Z.lor I_BUSY I_VALID /\ 1 <= i_ref i.

(** The in-memory copy agrees with the disk. *)
Definition di_of (s : bio) (dev inum : Z) : dinode :=
  dinode_at (inum mod IPB) (sector_of s dev (IBLOCK inum)).

(** [ilock] on an inode nobody holds: the first time it reads the disk
    inode, later it uses the copy; a free inode is an error.  The tag block's
    address is taken from neither. *)
Lemma ilock_spec s ip i :
  fs_inode s !! ip = Some i -> holds (fs_bio s) ∅ -> i_dev i = 0 \/ i_dev i = 1 ->
  geom (sb_of (fs_bio s) (i_dev i)) -> inum_ok (sb_of (fs_bio s) (i_dev i)) (i_inum i) ->
  1 <= i_ref i -> i_flags i = 0 \/ i_flags i = I_VALID ->
  let di := di_of (fs_bio s) (i_dev i) (i_inum i) in
  let i' := i_set_flags (Z.lor I_BUSY I_VALID) (if i_flags i =? 0 then i_load di i else i) in
  wpe (ilock (Some ip)) (fun _ s' =>
      fs_inode s' = <[ip := i']> (fs_inode s) /\ keeps ∅ (fs_bio s) (fs_bio s') /\
      bio_disk (fs_bio s') = bio_disk (fs_bio s) /\ (i_flags i = 0 -> di_type di <> 0))
    (fun msg _ => msg = "ilock: no type" /\ i_flags i = 0 /\ di_type di = 0) s.
Proof.
  intros Hip Hh Hdev Hg Hi Href Hfl di i'. destruct s as [b l]. cbn [fs_bio fs_inode] in *.
  assert (ip < length l)%nat as Hlen by (by eapply lookup_lt_Some).
  assert (forall b' x, inode_at ip (Fs b' (<[ip := x]> l)) = x) as Hat.
  { intros. apply inode_at_lookup. by apply list_lookup_insert_eq. }
  unfold ilock. wsteps.
  rewrite (inode_at_lookup ip (Fs b l) i Hip), (proj2 (Z.ltb_ge (i_ref i) 1)) by lia.
  assert (negb (Z.land (i_flags i) I_BUSY =? 0) = false) as -> by (by destruct Hfl as [-> | ->]).
  wsteps. fsimpl. rewrite (list_alter_Some _ _ _ i), Hat by done. cbn [i_flags i_set_flags i_dev i_inum].
  assert ((Z.land (Z.lor (i_flags i) I_BUSY) I_VALID =? 0) = (i_flags i =? 0)) as ->
    by (by destruct Hfl as [-> | ->]).
  unfold i'. destruct (Z.eqb_spec (i_flags i) 0) as [Hf0|Hf0]; wsteps; fsimpl.
  - apply wpe_wp.
    eapply wp_bread; [done|split; [done|]|by apply Nat.ltb_lt|intros x; by rewrite lookup_empty|].
    { by eapply iblock_addressable. }
    intros bp s2 Ho B2 D2. wsteps. fsimpl. rewrite B2, list_alter_insert_same by done.
    fold (di_of b (i_dev i) (i_inum i)). fold di. apply wpe_wp.
    eapply wp_brelse; [exact Ho|rewrite B2; unfold sector_of; by rewrite D2|].
    intros s3 K3 D3. wsteps. fsimpl. rewrite list_alter_insert_same, Hat by done.
    cbn [i_type i_load i_set_flags i_flags]. rewrite Hf0.
    destruct (Z.eqb_spec (di_type di) 0); wsteps; [done|]. fsimpl.
    split_and!; [|done|by rewrite D3, D2|done]. by destruct i.
  - split_and!; [|by apply keeps_refl|done|done]. by destruct Hfl as [Hz | ->].
Qed.

(** [iunlock] of a locked inode: it is free again and the waiters are
    woken. *)
Lemma iunlock_eq s ip i :
  fs_inode s !! ip = Some i -> i_flags i = Z.lor I_BUSY I_VALID -> 1 <= i_ref i ->
  iunlock (Some ip) s =
  Ret tt (Fs (bio_set_pt (wakeup1 (ChInode ip) (bio_pt (fs_bio s))) (fs_bio s))
             (<[ip := i_set_flags I_VALID i]> (fs_inode s))).
Proof.
  intros Hip Hf Hr. destruct s as [b l]. unfold iunlock, bind, gets.
  rewrite (inode_at_lookup ip (Fs b l) i Hip), Hf, (proj2 (Z.ltb_ge (i_ref i) 1)) by lia.
  simpl. unfold modify. rewrite (upd_inode_insert ip _ (Fs b l) i) by done. by rewrite Hf.
Qed.

(** ** [iget] *)

(** A cache slot in use for the given inode. *)
Definition i_match (dev inum : Z) (i : inode) : Prop :=
  0 < i_ref i /\ i_dev i = dev /\ i_inum i = inum.

#[global] Instance i_match_dec dev inum i : Decision (i_match dev inum i).
Proof. unfold i_match. apply _. Defined.

Lemma i_match_test dev inum i :
  (0 <? i_ref i) && (i_dev i =? dev) && (i_inum i =? inum) = bool_decide (i_match dev inum i).
Proof.
  unfold i_match. apply eq_true_iff_eq. rewrite bool_decide_eq_true, !andb_true_iff, Z.ltb_lt, !Z.eqb_eq.
  tauto.
Qed.

(** The loop finds the cached inode; if there is none, the first empty
    slot. *)
Lemma iget_scan_spec dev inum l k e :
  match iget_scan dev inum l k e with
  | inl j => exists j' i, j = (k + j')%nat /\ l !! j' = Some i /\ i_match dev inum i
  | inr e' => Forall (fun i => ~ i_match dev inum i) l /\
      e' = match e with
           | Some j => Some j
           | None => (fun '(j, _) => (k + j)%nat) <$> list_find (fun i => i_ref i = 0) l
           end
  end.
Proof.
  revert k e. induction l as [|i l IH]; intros k e; simpl.
  { split; [done|]. by destruct e. }
  rewrite i_match_test. destruct (bool_decide_reflect (i_match dev inum i)) as [Hm|Hm].
  { exists 0%nat, i. split_and!; [lia|done|apply Hm..]. }
  set (e1 := match e with Some e0 => Some e0 | None => if i_ref i =? 0 then Some k else None end).
  specialize (IH (S k) e1). destruct (iget_scan dev inum l (S k) e1) as [j|e'].
  { destruct IH as (j' & i' & -> & ? & ?). exists (S j'), i'. split_and!; [lia|done..]. }
  destruct IH as [Hl ->]. split; [by constructor|]. unfold e1. destruct e as [e|]; [done|].
  case_decide as H0.
  - rewrite (proj2 (Z.eqb_eq _ _) H0). simpl. f_equal. lia.
  - rewrite (proj2 (Z.eqb_neq _ _) H0). destruct (list_find _ l) as [[j' i']|]; simpl; [f_equal; lia|done].
Qed.

(** No two slots in use hold the same inode. *)
Definition icache_ok (l : list inode) : Prop :=
  forall j k i i', l !! j = Some i -> l !! k = Some i' -> 0 < i_ref i ->
    i_match (i_dev i) (i_inum i) i' -> j = k.

Lemma icache_ok_insert l ip i' :
  icache_ok l ->
  (forall k x, k <> ip -> l !! k = Some x -> ~ (0 < i_ref i' /\ i_match (i_dev i') (i_inum i') x)) ->
  icache_ok (<[ip := i']> l).
Proof.
  intros Hok Hnew j k x y Hj Hk Hx Hy.
  apply list_lookup_insert_Some in Hj as [(-> & -> & _)|[Hj1 Hj2]];
    apply list_lookup_insert_Some in Hk as [(-> & -> & _)|[Hk1 Hk2]]; [done|..].
  - by destruct (Hnew k y).
  - destruct (Hnew j x); [done..|]. split; [apply Hy|]. destruct Hy as (? & -> & ->). done.
  - by eapply Hok.
Qed.

(** What [iget] does to a slot: one more reference, or a fresh start that
    keeps everything but the device, the number, the count and the flags. *)
Definition i_fresh (dev inum : Z) (i : inode) : inode :=
  i_set_flags 0 (i_set_ref 1 (i_set_inum inum (i_set_dev dev i))).

Lemma iget_spec s dev inum :
  icache_ok (fs_inode s) ->
  wpe (iget dev inum) (fun ip s' => fs_bio s' = fs_bio s /\ icache_ok (fs_inode s') /\
      exists i i', fs_inode s !! ip = Some i /\ fs_inode s' = <[ip := i']> (fs_inode s) /\
        i_match dev inum i' /\
        ((i_match dev inum i /\ i' = i_set_ref (i_ref i + 1) i) \/
         (Forall (fun x => ~ i_match dev inum x) (fs_inode s) /\ i_ref i = 0 /\
          i' = i_fresh dev inum i)))
    (fun msg s' => msg = "iget: no inodes" /\ s' = s /\
       Forall (fun i => i_ref i <> 0 /\ ~ i_match dev inum i) (fs_inode s)) s.
Proof.
  intros Hok. unfold iget. wsteps.
  pose proof (iget_scan_spec dev inum (fs_inode s) 0 None) as Hs.
  destruct (iget_scan dev inum (fs_inode s) 0 None) as [ip|[ip|]].
  - destruct Hs as (j' & i & -> & Hip & Hm). simpl. wsteps. rewrite (upd_inode_insert j' _ s i Hip).
    fsimpl. split_and!; [done| |].
    + apply icache_ok_insert; [done|]. intros k x Hk Hkx [_ Hx]. apply Hk. symmetry.
      eapply Hok; [exact Hip|exact Hkx|apply Hm|done].
    + exists i, (i_set_ref (i_ref i + 1) i). split_and!; [done|done| |by left].
      destruct Hm as (? & ? & ?). split_and!; simpl; [lia|done..].
  - destruct Hs as [Hno He]. symmetry in He. apply fmap_Some in He as ([j i] & Hf & ->).
    apply list_find_Some in Hf as (Hip & Href & _). simpl. wsteps. fsimpl.
    rewrite (list_alter_Some _ (fs_inode s) j i) by done.
    rewrite !list_alter_insert_same by (by eapply lookup_lt_Some).
    split_and!; [done| |].
    + apply icache_ok_insert; [done|]. intros k x _ Hkx [_ Hx].
      by eapply (Forall_lookup_1 _ _ _ _ Hno) in Hkx.
    + exists i, (i_fresh dev inum i). split_and!; [done|done|done|by right].
  - destruct Hs as [Hno He]. wsteps. split_and!; [done|done|].
    symmetry in He. apply fmap_None, list_find_None in He.
    apply Forall_and. by split.
Qed.
