(* ===== verification/Content.v ===== *)
(** * Reading and writing files (kernel/fs.c, [readi] and [writei])

    The bytes of a file as the block map gives them: [readi] returns them and
    [writei] replaces them, across block boundaries and with new blocks
    allocated on the way. *)

From S2P Require Import Prelude Monad Params ProcTable Ide Bio Block Alloc Inode Bmap Icache.

(** ** Definitions *)

(** The device switch: the read and write function of each major number.  A
    read gives its result and the bytes it put at [dst]. *)
Class Devsw := {
  devsw_read : Z -> option (nat -> Z -> M fs (Z * list Z));
  devsw_write : Z -> option (nat -> list Z -> Z -> M fs Z);
}.

Section content.
Context {DV : Devsw}.

(** One round of [readi]'s loop, with [tot], [off] and the bytes copied so
    far. *)
Definition readi_step (ip : nat) (n : Z) '(tot, off, dst)
  : M fs ((Z * Z * list Z) + list Z) :=
  if tot <? n then
    let! b := bmap ip (off / BSIZE) in
    let! i := gets (inode_at ip) in
    let! bp := zoom bio_of_fs (bread (i_dev i) b) in
    let m := Z.min (n - tot) (BSIZE - off mod BSIZE) in
    let! d := gets (fun s => bdata bp (fs_bio s)) in
    zoom bio_of_fs (brelse bp);;;
    ret (inl (u32 (tot + m), u32 (off + m), dst ++ slice (off mod BSIZE) m d))
  else ret (inr dst).

Definition loop_fuel (n : Z) : nat := Z.to_nat (n / BSIZE + 3).

Definition readi (ip : nat) (off n : Z) : M fs (Z * list Z) :=
  let! i := gets (inode_at ip) in
  if i_type i =? T_DEV then
    if (i_major i <? 0) || (NDEV <=? i_major i) then ret (-1, [])
    else
      match devsw_read (i_major i) with
      | None => ret (-1, [])
      | Some f => f ip (s32 n)
      end
  else if (i_size i <? off) || (u32 (off + n) <? off) then ret (-1, [])
  else
    let n := if i_size i <? u32 (off + n) then u32 (i_size i - off) else n in
    let! dst := while_fuel (loop_fuel n) (readi_step ip n) (0, off, []) in
    ret (s32 n, dst).

(** One round of [writei]'s loop. *)
Definition writei_step (ip : nat) (src : list Z) (n : Z) '(tot, off) : M fs ((Z * Z) + Z) :=
  if tot <? n then
    let! b := bmap ip (off / BSIZE) in
    let! i := gets (inode_at ip) in
    let! bp := zoom bio_of_fs (bread (i_dev i) b) in
    let m := Z.min (n - tot) (BSIZE - off mod BSIZE) in
    let! d := gets (fun s => bdata bp (fs_bio s)) in
    zoom bio_of_fs (
      set_bdata bp (splice (off mod BSIZE) (slice tot m src) d);;;
      bwrite bp;;;
      brelse bp);;;
    ret (inl (u32 (tot + m), u32 (off + m)))
  else ret (inr off).

Definition writei (ip : nat) (src : list Z) (off n : Z) : M fs Z :=
  let! i := gets (inode_at ip) in
  if i_type i =? T_DEV then
    if (i_major i <? 0) || (NDEV <=? i_major i) then ret (-1)
    else
      match devsw_write (i_major i) with
      | None => ret (-1)
      | Some f => f ip src (s32 n)
      end
  else if (i_size i <? off) || (u32 (off + n) <? off) then ret (-1)
  else
    let n := if MAXFILE * BSIZE <? u32 (off + n) then u32 (MAXFILE * BSIZE - off) else n in
    let! off := while_fuel (loop_fuel n) (writei_step ip src n) (0, off) in
    let! i := gets (inode_at ip) in
    (if (0 <? n) && (i_size i <? off) then
       modify (upd_inode ip (i_set_size off));;;
       iupdate ip
     else ret tt);;;
    ret (s32 n).

End content.

(** ** Chunks of a file

    A round of the loops moves [m] bytes inside one block. *)

Definition chunk (tot off n : Z) : Z := Z.min (n - tot) (BSIZE - off mod BSIZE).

(** Rounds left. *)
Definition rounds (n tot off : Z) : nat :=
  if tot <? n then Z.to_nat ((n - tot + off mod BSIZE + BSIZE - 1) / BSIZE) else 0.

Lemma off_mod o : 0 <= o mod BSIZE < BSIZE.
Proof. by apply Z.mod_pos_bound. Qed.

Lemma chunk_pos tot off n : tot < n -> 0 < chunk tot off n <= n - tot.
Proof. pose proof (off_mod off). unfold chunk. lia. Qed.

Lemma chunk_block tot off n x :
  0 <= x < chunk tot off n ->
  (off + x) / BSIZE = off / BSIZE /\ (off + x) mod BSIZE = off mod BSIZE + x.
Proof.
  pose proof (off_mod off). unfold chunk. intros Hx.
  pose proof (Z.div_mod off BSIZE ltac:(done)) as Hd.
  assert (off + x = BSIZE * (off / BSIZE) + (off mod BSIZE + x)) as E by lia.
  split.
  - symmetry. apply (Z.div_unique _ _ _ (off mod BSIZE + x)); [lia|done].
  - symmetry. apply (Z.mod_unique _ _ (off / BSIZE)); [lia|done].
Qed.

Lemma rounds_fuel n off : 0 <= n -> (rounds n 0 off < loop_fuel n)%nat.
Proof.
  intros Hn. unfold rounds, loop_fuel. pose proof (off_mod off).
  assert (0 <= n / BSIZE) by (apply Z.div_pos; [lia|done]).
  destruct (0 <? n); [|lia]. apply Z2Nat.inj_lt; [apply Z.div_pos; [lia|done]|lia|].
  apply Z.div_lt_upper_bound; [done|]. pose proof (Z.mul_succ_div_gt n BSIZE ltac:(done)).
  change BSIZE with 512 in *. lia.
Qed.

Lemma rounds_step n tot off :
  0 <= tot < n -> (rounds n (tot + chunk tot off n) (off + chunk tot off n) < rounds n tot off)%nat.
Proof.
  intros Ht. pose proof (chunk_pos tot off n ltac:(lia)) as Hc. pose proof (off_mod off) as Hm.
  unfold rounds. rewrite (proj2 (Z.ltb_lt tot n)) by lia.
  assert (0 < (n - tot + off mod BSIZE + BSIZE - 1) / BSIZE) by
    (apply Z.div_str_pos; change BSIZE with 512 in *; lia).
  destruct (Z.ltb_spec (tot + chunk tot off n) n) as [Hlt|]; [|lia].
  assert (chunk tot off n = BSIZE - off mod BSIZE) as Ec by (unfold chunk in *; lia).
  assert ((off + chunk tot off n) mod BSIZE = 0) as ->.
  { rewrite Ec. pose proof (Z.div_mod off BSIZE ltac:(done)).
    symmetry. apply (Z.mod_unique _ _ (off / BSIZE + 1)); change BSIZE with 512 in *; lia. }
  apply Z2Nat.inj_lt; [apply Z.div_pos; [lia|done]|lia|].
  rewrite Ec. replace (n - tot + off mod BSIZE + BSIZE - 1) with
    (n - (tot + (BSIZE - off mod BSIZE)) + 0 + BSIZE - 1 + 1 * BSIZE) by lia.
  rewrite Z.div_add by done. lia.
Qed.

(** The bytes of a chunk, read from the block. *)
Lemma fbyte_chunk s i tot off n b :
  slot s i (pos (off / BSIZE)) = b -> b <> 0 ->
  slice (off mod BSIZE) (chunk tot off n) (sector_of s (i_dev i) b) =
  fbyte s i <$> seqZ off (chunk tot off n).
Proof.
  intros Hb Hnz. unfold slice.
  pose proof (fmap_add_seqZ off 0 (chunk tot off n)) as Es. rewrite Z.add_0_r in Es.
  rewrite <- Es, <- list_fmap_compose. apply list_fmap_ext. intros k x Hk.
  apply lookup_seqZ in Hk. destruct (chunk_block tot off n x ltac:(lia)) as [E1 E2].
  unfold compose, fbyte. rewrite E1, E2, Hb, (proj2 (Z.eqb_neq b 0)) by done. done.
Qed.

(** A chunk written into the block. *)
Lemma splice_chunk d src tot off n o :
  is_block d -> 0 <= tot < n -> o / BSIZE = off / BSIZE ->
  nthb (splice (off mod BSIZE) (slice tot (chunk tot off n) src) d) (o mod BSIZE) =
  if (off <=? o) && (o <? off + chunk tot off n) then nthb src (tot + (o - off))
  else nthb d (o mod BSIZE).
Proof.
  intros Hd Ht Heq. pose proof (chunk_pos tot off n ltac:(lia)) as Hc.
  pose proof (off_mod off). pose proof (off_mod o). pose proof (is_block_len _ Hd).
  assert (off mod BSIZE + chunk tot off n <= BSIZE) by (unfold chunk; lia).
  pose proof (Z.div_mod off BSIZE ltac:(done)) as Ed. rewrite <- Heq in Ed.
  pose proof (Z.div_mod o BSIZE ltac:(done)).
  destruct (Z.leb_spec off o), (Z.ltb_spec o (off + chunk tot off n)); simpl andb; cbv iota.
  1: rewrite nthb_splice_in by (rewrite ?length_slice; lia); rewrite nthb_slice by lia; f_equal; lia.
  all: apply nthb_splice_out; rewrite ?length_slice; lia.
Qed.

(** A block of the file can be opened. *)
Lemma wp_bread_file s i b k (Q : nat -> bio -> Prop) :
  alloc_inv s ∅ (i_dev i) -> file_ok s i -> 0 <= k < NSLOT -> slot s i k = b -> b <> 0 ->
  (forall bp s', opened ∅ bp (i_dev i, b) s s' -> bdata bp s' = sector_of s (i_dev i) b ->
     bio_disk s' = bio_disk s -> Q bp s') ->
  wp (bread (i_dev i) b) Q s.
Proof.
  intros Ha Hf Hk Hs Hnz HQ. assert (geom (sb_of s (i_dev i))) as Hg by apply Ha.
  destruct (fo_block _ _ Hf k Hk) as [Hd _]; [congruence|]. rewrite Hs in Hd.
  eapply wp_bread; [apply Ha|split; [apply Ha|]|apply Ha|intros x; by rewrite lookup_empty|done].
  destruct (data_block_pos _ _ Hg Hd), (nbits_bound _ b Hg); [destruct Hd; lia|lia].
Qed.

Lemma readi_round s ip i n tot off dst :
  fs_inode s !! ip = Some i -> alloc_inv (fs_bio s) ∅ (i_dev i) -> file_ok (fs_bio s) i ->
  0 <= tot < n -> 0 <= off -> off + (n - tot) <= MAXFILE * BSIZE -> n < 2 ^ 32 ->
  wpe (readi_step ip n (tot, off, dst)) (fun r s' =>
    let c := chunk tot off n in
    r = inl (tot + c, off + c, dst ++ (fbyte (fs_bio s) i <$> seqZ off c)) /\
    exists i', fs_inode s' = <[ip := i']> (fs_inode s) /\ bstep (fs_bio s) (fs_bio s') i i')
    (no_space (i_dev i)) s.
Proof.
  intros Hip Ha Hf Htot Hoff Hmax Hn. unfold readi_step.
  rewrite (proj2 (Z.ltb_lt tot n)) by lia. pose proof (chunk_pos tot off n ltac:(lia)) as Hc.
  assert (geom (sb_of (fs_bio s) (i_dev i))) as Hg by apply Ha.
  assert (MAXFILE * BSIZE < 2 ^ 32) as Hm by done.
  wsteps. eapply wpe_mono; [apply bmap_spec; [done..|apply off_block; lia]| |done].
  cbv beta. intros b s1 (i1 & Hl1 & Hb1 & Hb & Hnz). wsteps.
  assert (fs_inode s1 !! ip = Some i1) as Hip1 by (rewrite Hl1; by eapply lookup_set_inode).
  rewrite (inode_at_lookup ip s1 i1 Hip1). apply wpe_wp. fsimpl.
  assert (i_dev i1 = i_dev i) as Hdev by (by rewrite (bs_inode _ _ _ _ Hb1)).
  pose proof (bs_alloc _ _ _ _ Hb1) as Ha1. rewrite <- Hdev in Ha1.
  apply (wp_bread_file _ i1 b (pos (off / BSIZE))); [exact Ha1|apply Hb1|apply pos_range, off_block; lia|by symmetry|done|].
  intros bp s2 Ho B2 D2. wsteps. apply wpe_wp.
  eapply wp_brelse; [exact Ho|fsimpl; rewrite B2; unfold sector_of; by rewrite D2|].
  intros s3 K3 D3. wsteps. fsimpl. fold (chunk tot off n). split.
  - rewrite !u32_small by lia. do 3 f_equal. rewrite B2, (fbyte_chunk (fs_bio s1) i1) by done.
    apply list_fmap_ext. intros k x Hk. apply lookup_seqZ in Hk. apply (bs_bytes _ _ _ _ Hb1). lia.
  - exists i1. split; [done|]. eapply bstep_trans; [exact Hb1| |done].
    apply bstep_same; [done|apply Hb1|done|]. etransitivity; [exact D3|exact D2].
Qed.

(** ** [readi] *)

(** What a read of [n] bytes at [off] returns. *)
Definition read_result (s : bio) (i : inode) (off n : Z) : Z * list Z :=
  if (i_size i <? off) || (2 ^ 32 <=? off + n) then (-1, [])
  else let n' := Z.min n (i_size i - off) in (n', fbyte s i <$> seqZ off n').

Section specs.
Context {DV : Devsw}.

Lemma readi_spec s ip i off n :
  fs_inode s !! ip = Some i -> alloc_inv (fs_bio s) ∅ (i_dev i) -> file_ok (fs_bio s) i ->
  i_type i <> T_DEV -> 0 <= i_size i <= MAXFILE * BSIZE ->
  0 <= off < 2 ^ 32 -> 0 <= n < 2 ^ 32 ->
  wpe (readi ip off n) (fun r s' => r = read_result (fs_bio s) i off n /\
    exists i', fs_inode s' = <[ip := i']> (fs_inode s) /\ bstep (fs_bio s) (fs_bio s') i i')
    (no_space (i_dev i)) s.
Proof.
  intros Hip Ha Hf Ht Hsz Ho Hn. unfold readi, read_result. wsteps.
  rewrite (inode_at_lookup ip s i Hip), (proj2 (Z.eqb_neq _ _) Ht), wrap_test by done.
  assert (MAXFILE * BSIZE < 2 ^ 31) as Hm by done.
  assert (geom (sb_of (fs_bio s) (i_dev i))) as Hg by apply Ha.
  assert (exists i', fs_inode s = <[ip := i']> (fs_inode s) /\ bstep (fs_bio s) (fs_bio s) i i')
    as H0 by (exists i; split; [by rewrite list_insert_id|by apply bstep_refl]).
  zcase; [by wsteps|]. rewrite u32_small by lia.
  set (n' := if i_size i <? off + n then u32 (i_size i - off) else n).
  assert (n' = Z.min n (i_size i - off)) as Hn'.
  { unfold n'. destruct (Z.ltb_spec (i_size i) (off + n)); [rewrite u32_small|]; lia. }
  clearbody n'. rewrite <- Hn'. wsteps.
  apply (wpe_while (fun '(tot, o, dst) s' => 0 <= tot <= n' /\ o = off + tot /\
      dst = fbyte (fs_bio s) i <$> seqZ off tot /\
      exists i', fs_inode s' = <[ip := i']> (fs_inode s) /\ bstep (fs_bio s) (fs_bio s') i i')
    (fun '(tot, o, _) => rounds n' tot o)).
  - split_and!; [lia|lia|lia|done|done].
  - apply rounds_fuel. lia.
  - intros [[tot o] dst] s1 (Htot & -> & -> & i1 & Hl1 & Hb1).
    destruct (Z.lt_ge_cases tot n') as [Hlt|Hge].
    + assert (i_dev i1 = i_dev i) as Hdev by (by rewrite (bs_inode _ _ _ _ Hb1)).
      pose proof (bs_alloc _ _ _ _ Hb1) as Ha1. rewrite <- Hdev in Ha1 |- *.
      eapply wpe_mono; [eapply readi_round; [rewrite Hl1; by eapply lookup_set_inode|done|apply Hb1|lia..]| |done].
      cbv beta zeta. pose proof (chunk_pos tot (off + tot) n' ltac:(lia)) as Hc.
      set (c := chunk tot (off + tot) n') in *.
      intros ? s2 (-> & i2 & Hl2 & Hb2). cbv iota beta. split; [|apply rounds_step; lia].
      split_and!; [lia|lia|lia| |].
      * rewrite seqZ_app, fmap_app by lia. f_equal. apply list_fmap_ext. intros k x Hk.
        apply lookup_seqZ in Hk. apply (bs_bytes _ _ _ _ Hb1). lia.
      * exists i2. split; [by rewrite Hl2, Hl1, list_insert_insert_eq|by eapply bstep_trans].
    + unfold readi_step. rewrite (proj2 (Z.ltb_ge tot n')) by lia. wsteps.
      replace tot with n' by lia. rewrite s32_small by lia. split; [done|by exists i1].
Qed.

(** ** [writei] *)

(** The bytes after [n] bytes of [src] from [tot] on were written at [off]. *)
Definition patched (s s' : bio) (i i' : inode) (src : list Z) (tot off n : Z) : Prop :=
  forall o, 0 <= o < MAXFILE * BSIZE ->
    fbyte s' i' o =
    if (off <=? o) && (o <? off + n) then nthb src (tot + (o - off)) else fbyte s i o.

Lemma writei_round s ip i src n tot off :
  fs_inode s !! ip = Some i -> alloc_inv (fs_bio s) ∅ (i_dev i) -> file_ok (fs_bio s) i ->
  0 <= tot < n -> 0 <= off -> off + (n - tot) <= MAXFILE * BSIZE -> n < 2 ^ 32 ->
  Forall is_byte src ->
  wpe (writei_step ip src n (tot, off)) (fun r s' =>
    let c := chunk tot off n in
    r = inl (tot + c, off + c) /\
    exists i', fs_inode s' = <[ip := i']> (fs_inode s) /\
      frel (fs_bio s) (fs_bio s') i i' /\ patched (fs_bio s) (fs_bio s') i i' src tot off c)
    (no_space (i_dev i)) s.
Proof.
  intros Hip Ha Hf Htot Hoff Hmax Hn Hsrc. unfold writei_step.
  rewrite (proj2 (Z.ltb_lt tot n)) by lia. pose proof (chunk_pos tot off n ltac:(lia)) as Hc.
  assert (geom (sb_of (fs_bio s) (i_dev i))) as Hg by apply Ha.
  assert (MAXFILE * BSIZE < 2 ^ 32) as Hm by done.
  assert (0 <= off / BSIZE < MAXFILE) as Hblk by (apply off_block; lia).
  wsteps. eapply wpe_mono; [by apply bmap_spec| |done].
  cbv beta. intros b s1 (i1 & Hl1 & Hb1 & Hb & Hnz). wsteps.
  assert (fs_inode s1 !! ip = Some i1) as Hip1 by (rewrite Hl1; by eapply lookup_set_inode).
  rewrite (inode_at_lookup ip s1 i1 Hip1). apply wpe_wp. fsimpl.
  assert (i_dev i1 = i_dev i) as Hdev by (by rewrite (bs_inode _ _ _ _ Hb1)).
  pose proof (bs_alloc _ _ _ _ Hb1) as Ha1. rewrite <- Hdev in Ha1.
  apply (wp_bread_file _ i1 b (pos (off / BSIZE)));
    [exact Ha1|apply Hb1|by apply pos_range|by symmetry|done|].
  intros bp s2 Ho B2 D2. wsteps. fsimpl. rewrite B2. fold (chunk tot off n).
  set (d := sector_of (fs_bio s1) (i_dev i1) b).
  assert (is_block d) as Hd by apply Ha1.
  eapply wpe_commit_end; [exact Ho|apply is_block_splice; [done|by apply Forall_slice]|].
  intros s3 K3 D3. wsteps. fsimpl. split; [by rewrite !u32_small by lia|].
  exists i1. split; [done|]. rewrite D2 in D3.
  destruct (frel_write (fs_bio s1) s3 i1 (off / BSIZE) b _ Ha1 (bs_file _ _ _ _ Hb1) Hblk
    ltac:(by symmetry) Hnz D3 K3) as [Hr Hby].
  split; [eapply frel_trans; [by apply bstep_frel|done|done]|].
  intros o Hor. rewrite Hby, <- (bs_bytes _ _ _ _ Hb1) by done.
  destruct (Z.eqb_spec (o / BSIZE) (off / BSIZE)) as [Heq|Hne].
  - rewrite splice_chunk by (done || lia). zcase; [done|]. unfold fbyte.
    rewrite Heq, <- Hb, (proj2 (Z.eqb_neq b 0)) by done. done.
  - destruct (Z.leb_spec off o), (Z.ltb_spec o (off + chunk tot off n)); simpl andb; try done.
    exfalso. apply Hne. destruct (chunk_block tot off n (o - off)) as [E _]; [lia|].
    by replace (off + (o - off)) with o in E by lia.
Qed.

(** What a write of [n] bytes at [off] leaves behind: the file's bytes are
    patched and its size covers them; no other block in use changed, and of
    the inodes at most this one's copy on the disk, which is up to date if the
    file grew. *)
Record written (s s' : bio) (i i' : inode) (src : list Z) (off n : Z) : Prop := {
  wr_inode : i' = i_set_size (Z.max (i_size i) (off + n)) (i_set_addrs (i_addrs i') i);
  wr_alloc : alloc_inv s' ∅ (i_dev i);
  wr_file : file_ok s' i';
  wr_bytes : patched s s' i i' src 0 off n;
  wr_sb : sb_of s' (i_dev i) = sb_of s (i_dev i);
  wr_same : forall k, data_block (sb_of s (i_dev i)) k ->
    used s (i_dev i) (sb_of s (i_dev i)) k = true ->
    (forall j, 0 <= j < NSLOT -> slot s i j <> k) ->
    sector_of s' (i_dev i) k = sector_of s (i_dev i) k;
  wr_inodes : forall k, k < BBLOCK 0 (sb_ninodes (sb_of s (i_dev i))) -> k <> IBLOCK (i_inum i) ->
    sector_of s' (i_dev i) k = sector_of s (i_dev i) k;
  wr_dinode : sector_of s' (i_dev i) (IBLOCK (i_inum i)) =
    let d := sector_of s (i_dev i) (IBLOCK (i_inum i)) in
    if i_size i <? off + n then put_dinode (i_inum i mod IPB) i' d else d;
  wr_pt : pt_frame (bio_pt s) (bio_pt s');
}.

(** The loop. *)
Lemma writei_loop s ip i src off n :
  fs_inode s !! ip = Some i -> alloc_inv (fs_bio s) ∅ (i_dev i) -> file_ok (fs_bio s) i ->
  0 <= off -> 0 <= n -> off + n <= MAXFILE * BSIZE -> Forall is_byte src ->
  wpe (while_fuel (loop_fuel n) (writei_step ip src n) (0, off)) (fun o s' => o = off + n /\
    exists i', fs_inode s' = <[ip := i']> (fs_inode s) /\
      frel (fs_bio s) (fs_bio s') i i' /\ patched (fs_bio s) (fs_bio s') i i' src 0 off n)
    (no_space (i_dev i)) s.
Proof.
  intros Hip Ha Hf Ho Hn Hmax Hsrc. assert (MAXFILE * BSIZE < 2 ^ 31) as Hm by done.
  assert (geom (sb_of (fs_bio s) (i_dev i))) as Hg by apply Ha.
  apply (wpe_while (fun '(tot, o) s' => 0 <= tot <= n /\ o = off + tot /\
      exists i', fs_inode s' = <[ip := i']> (fs_inode s) /\
        frel (fs_bio s) (fs_bio s') i i' /\ patched (fs_bio s) (fs_bio s') i i' src 0 off tot)
    (fun '(tot, o) => rounds n tot o)).
  - split_and!; [lia..|]. exists i. split_and!; [by rewrite list_insert_id|by apply frel_refl|].
    intros o _. destruct (Z.leb_spec off o), (Z.ltb_spec o (off + 0)); [lia|done..].
  - by apply rounds_fuel.
  - intros [tot o] s1 (Htot & -> & i1 & Hl1 & Hr1 & Hp1).
    destruct (Z.lt_ge_cases tot n) as [Hlt|Hge].
    + pose proof (frel_dev _ _ _ _ Hr1) as Hdev.
      pose proof (fr_alloc _ _ _ _ Hr1) as Ha1. rewrite <- Hdev in Ha1 |- *.
      eapply wpe_mono; [eapply writei_round; [rewrite Hl1; by eapply lookup_set_inode|done|apply Hr1|lia..|done]| |done].
      cbv beta zeta. pose proof (chunk_pos tot (off + tot) n ltac:(lia)) as Hc.
      set (c := chunk tot (off + tot) n) in *.
      intros ? s2 (-> & i2 & Hl2 & Hr2 & Hp2). cbv iota beta. split; [|apply rounds_step; lia].
      split_and!; [lia..|]. exists i2.
      split_and!; [by rewrite Hl2, Hl1, list_insert_insert_eq|by eapply frel_trans|].
      intros o Hor. rewrite Hp2, Hp1 by done.
      destruct (Z.leb_spec (off + tot) o), (Z.ltb_spec o (off + tot + c)), (Z.leb_spec off o),
        (Z.ltb_spec o (off + tot)), (Z.ltb_spec o (off + (tot + c))); simpl andb; try lia; try done.
      f_equal. lia.
    + unfold writei_step. rewrite (proj2 (Z.ltb_ge tot n)) by lia. wsteps.
      replace tot with n in * by lia. split; [done|]. by exists i1.
Qed.

(** The file after the loop, if it need not grow. *)
Lemma written_same s s' i i' src off n :
  frel s s' i i' -> patched s s' i i' src 0 off n -> off + n <= i_size i ->
  inum_ok (sb_of s (i_dev i)) (i_inum i) -> written s s' i i' src off n.
Proof.
  intros Hr Hp Hsz Hi. pose proof (iblock_range _ _ Hi) as Hb.
  destruct Hr as [I A F S N [E1 E2 E3 E4 E5] P]. split; try done.
  - rewrite Z.max_l by lia. rewrite I. by destruct i.
  - intros k Hk Hu Hno. apply E3; [done..|]. intros (_ & j & Hj & ->). by apply (Hno j).
  - intros k Hk _. by apply E4.
  - rewrite (proj2 (Z.ltb_ge _ _)) by lia. apply E4. lia.
Qed.

(** ... and after the size and the disk inode are updated. *)
Lemma written_grow s s1 s2 i i1 src off n (i2 := i_set_size (off + n) i1) :
  frel s s1 i i1 -> patched s s1 i i1 src 0 off n -> i_size i < off + n ->
  geom (sb_of s (i_dev i)) -> inum_ok (sb_of s (i_dev i)) (i_inum i) -> keeps ∅ s1 s2 ->
  bio_disk s2 = <[(i_dev i, IBLOCK (i_inum i)) := put_dinode (i_inum i mod IPB) i2
     (sector_of s1 (i_dev i) (IBLOCK (i_inum i)))]> (bio_disk s1) ->
  written s s2 i i2 src off n.
Proof.
  intros Hr Hp Hsz Hg Hi K D. pose proof (iblock_range _ _ Hi) as Hb.
  pose proof (frel_dev _ _ _ _ Hr) as Hdev.
  destruct Hr as [I A F S N [E1 E2 E3 E4 E5] P].
  assert (file_ok s1 i2) as F2 by (by destruct F).
  rewrite <- E1 in Hb, Hg. assert (i_dev i2 = i_dev i) as Hd2 by done. rewrite <- Hd2 in Hb, Hg, D.
  destruct (file_inode_block s1 s2 i2 _ _ Hg F2 Hb D) as (F2' & Hsl & Hby).
  destruct (write_inode_block s1 s2 _ _ _ Hb D) as (Hsb & Hu & Hs & _ & Hd).
  split; try rewrite Hd2 in *.
  - rewrite Z.max_r by lia. unfold i2. rewrite I. by destruct i.
  - eapply alloc_inv_inode; [exact A|apply K|exact Hb|exact D].
  - done.
  - intros o Ho. rewrite Hby by done. by apply Hp.
  - congruence.
  - intros k Hk Hu1 Hno. rewrite Hs.
    + apply E3; [done..|]. intros (_ & j & Hj & ->). by apply (Hno j).
    + rewrite <- E1 in Hk. destruct (data_block_pos _ _ Hg Hk).
      pose proof (data_block_ne _ k 0 Hg Hk ltac:(lia)). lia.
  - intros k Hk Hne. rewrite Hs by done. by apply E4.
  - rewrite Hd, (proj2 (Z.ltb_lt _ _)) by lia. cbv zeta. f_equal. apply E4. rewrite <- E1. lia.
  - etransitivity; [exact P|apply K].
Qed.

Lemma writei_spec s ip i src off n :
  fs_inode s !! ip = Some i -> alloc_inv (fs_bio s) ∅ (i_dev i) -> file_ok (fs_bio s) i ->
  i_type i <> T_DEV -> 0 <= i_size i <= MAXFILE * BSIZE ->
  inum_ok (sb_of (fs_bio s) (i_dev i)) (i_inum i) ->
  0 <= off < 2 ^ 32 -> 0 <= n < 2 ^ 32 -> Forall is_byte src ->
  wpe (writei ip src off n) (fun r s' =>
    if (i_size i <? off) || (2 ^ 32 <=? off + n) then r = -1 /\ s' = s
    else let n' := Z.min n (MAXFILE * BSIZE - off) in
      r = n' /\ exists i', fs_inode s' = <[ip := i']> (fs_inode s) /\
        written (fs_bio s) (fs_bio s') i i' src off n')
    (no_space (i_dev i)) s.
Proof.
  intros Hip Ha Hf Ht Hsz Hi Ho Hn Hsrc. unfold writei. wsteps.
  rewrite (inode_at_lookup ip s i Hip), (proj2 (Z.eqb_neq _ _) Ht), wrap_test by done.
  assert (MAXFILE * BSIZE < 2 ^ 31) as Hm by done.
  assert (geom (sb_of (fs_bio s) (i_dev i))) as Hg by apply Ha.
  zcase; [by wsteps|]. rewrite u32_small by lia.
  set (n' := if MAXFILE * BSIZE <? off + n then u32 (MAXFILE * BSIZE - off) else n).
  assert (n' = Z.min n (MAXFILE * BSIZE - off)) as Hn'.
  { unfold n'. destruct (Z.ltb_spec (MAXFILE * BSIZE) (off + n)); [rewrite u32_small|]; lia. }
  clearbody n'. cbv zeta. rewrite <- Hn'. wsteps.
  eapply wpe_mono; [eapply writei_loop; [done..|lia|lia|lia|done]| |done]. cbv beta.
  intros o s1 (-> & i1 & Hl1 & Hr1 & Hp1).
  assert (fs_inode s1 !! ip = Some i1) as Hip1 by (rewrite Hl1; by eapply lookup_set_inode).
  wsteps. rewrite (inode_at_lookup ip s1 i1 Hip1).
  assert (i_size i1 = i_size i) as Hs1 by (by rewrite (fr_inode _ _ _ _ Hr1)).
  assert (i_inum i1 = i_inum i) as Hi1 by (by rewrite (fr_inode _ _ _ _ Hr1)).
  pose proof (frel_dev _ _ _ _ Hr1) as Hd1. pose proof (fe_sb _ _ _ _ (fr_ext _ _ _ _ Hr1)) as Hsb.
  rewrite Hs1. destruct (Z.ltb_spec (i_size i) (off + n')) as [Hgrow|Hgrow].
  - rewrite (proj2 (Z.ltb_lt 0 n')) by lia. cbn [andb]. wsteps.
    rewrite (upd_inode_insert ip _ s1 i1) by done.
    wcall iupdate_spec; [by eapply lookup_set_inode|apply Hr1|cbn [i_dev i_set_size i_inum fs_bio fs_set_inode]; rewrite ?Hd1, ?Hi1, ?Hsb; try done..|].
    { by apply Ha. }
    cbv beta. cbn [fs_inode fs_bio fs_set_inode i_inum i_dev i_set_size]. rewrite Hd1, Hi1.
    intros _ s2 (Hl2 & K2 & D2). wsteps. rewrite s32_small by lia. split; [done|].
    exists (i_set_size (off + n') i1). split; [by rewrite Hl2, Hl1, list_insert_insert_eq|].
    by eapply written_grow.
  - rewrite andb_false_r. wsteps. rewrite s32_small by lia. split; [done|].
    exists i1. split; [done|]. by apply written_same.
Qed.

End specs.
