(* ===== verification/Itrunc.v ===== *)
(** * Truncation and the last reference (kernel/fs.c, [itrunc] and [iput])

    [itrunc] gives back every block of a file, the indirect block included,
    and clears the inode; [iput] drops a reference and, when it was the last
    one to an inode no directory names, truncates the file and frees the
    inode on the disk. *)

From S2P Require Import Prelude Monad Params ProcTable Ide Bio Block Alloc Inode Bmap Icache.
From S2P Require Import Content.

(** ** Giving back a list of blocks *)

Definition gave (s s' : bio) (dev : Z) (L : list Z) : Prop :=
  rebit s s' dev (fun k u => negb (bool_decide (k ∈ L)) && u) (fun k => k ∈ L) /\
  forall k, k ∈ L -> sector_of s' dev k = zeros BSIZE.

Lemma gave_same s s' dev : bio_disk s' = bio_disk s -> gave s s' dev [].
Proof.
  intros D. destruct (same_disk s s' dev D) as (Hsb & Hu & _).
  split; [|intros k Hk; by apply not_elem_of_nil in Hk]. split; [done| | |].
  - intros k _. rewrite Hu, bool_decide_false by apply not_elem_of_nil. done.
  - intros. unfold sector_of. by rewrite D.
  - intros. unfold sector_of. by rewrite D.
Qed.

Lemma gave_snoc s s1 s2 dev L b :
  gave s s1 dev L -> give s1 s2 dev b -> data_block (sb_of s dev) b ->
  (forall k, k ∈ L -> data_block (sb_of s dev) k) ->
  gave s s2 dev (L ++ [b]).
Proof.
  intros [[Hsb Hu Hs Hd] Hz] [Hzb [Hsb1 Hu1 Hs1 Hd1]] Hb HL. rewrite Hsb in *.
  split; [split|].
  - congruence.
  - intros k Hk. rewrite Hu1, Hu by done.
    destruct (Z.eqb_spec b k) as [->|Hne].
    + rewrite (bool_decide_true (k ∈ L ++ [k])) by set_solver. done.
    + rewrite (bool_decide_ext (k ∈ L ++ [b]) (k ∈ L)) by set_solver. done.
  - intros k Hk Hx. rewrite Hs1 by set_solver. apply Hs; set_solver.
  - intros dev' k Hx. rewrite Hd1; auto.
  - intros k Hk. destruct (Z.eq_dec k b) as [->|Hne]; [done|].
    assert (k ∈ L) as HkL by set_solver. rewrite Hs1; [auto| |done].
    by apply data_not_bitmap, HL.
Qed.

Lemma gave_trans_same s s1 s2 dev L :
  gave s s1 dev L -> bio_disk s2 = bio_disk s1 -> gave s s2 dev L.
Proof.
  intros [[Hsb Hu Hs Hd] Hz] D. destruct (same_disk s1 s2 dev D) as (Hsb1 & Hu1 & _).
  assert (forall d k, sector_of s2 d k = sector_of s1 d k) as Hs1
    by (intros; unfold sector_of; by rewrite D).
  split; [split|].
  - congruence.
  - intros k Hk. by rewrite Hu1, Hu.
  - intros k Hk Hx. rewrite Hs1. auto.
  - intros d k Hx. rewrite Hs1. auto.
  - intros k Hk. rewrite Hs1. auto.
Qed.

(** A block of the file that was not given back yet is still in use and
    intact. *)
Lemma gave_other s s' i L k :
  file_ok s i -> geom (sb_of s (i_dev i)) -> gave s s' (i_dev i) L -> 0 <= k < NSLOT ->
  slot s i k <> 0 -> slot s i k ∉ L ->
  data_block (sb_of s' (i_dev i)) (slot s i k) /\
  used s' (i_dev i) (sb_of s' (i_dev i)) (slot s i k) = true /\ 0 <= slot s i k /\
  sector_of s' (i_dev i) (slot s i k) = sector_of s (i_dev i) (slot s i k).
Proof.
  intros Hf Hg [[Hsb Hu Hs Hd] _] Hk Hnz HL. destruct (fo_block _ _ Hf k Hk Hnz) as [Hdb Hub].
  destruct (data_block_pos _ _ Hg Hdb). rewrite Hsb. split_and!; [done| |lia|].
  - rewrite Hu by (destruct Hdb; lia). by rewrite bool_decide_false, Hub by done.
  - apply Hs; [by apply data_not_bitmap|done].
Qed.

(** ** The direct blocks *)

(** The addresses with the first [k] cleared. *)
Definition cleared (k : Z) (i i' : inode) : Prop :=
  i' = i_set_addrs (i_addrs i') i /\ length (i_addrs i') = length (i_addrs i) /\
  forall j, 0 <= j -> nthb (i_addrs i') j = if j <? k then 0 else nthb (i_addrs i) j.

Lemma cleared_step k i i' :
  cleared k i i' -> 0 <= k < Z.of_nat (length (i_addrs i)) -> cleared (k + 1) i (i_set_addr k 0 i').
Proof.
  intros (E & Hl & Hn) Hk. split_and!.
  - rewrite E. done.
  - simpl. by rewrite length_insert.
  - intros j Hj. simpl. destruct (Z.eq_dec j k) as [->|Hne].
    + rewrite nthb_insert_eq by lia. by rewrite (proj2 (Z.ltb_lt k (k + 1))) by lia.
    + rewrite nthb_insert_ne, Hn by lia.
      destruct (Z.ltb_spec j k), (Z.ltb_spec j (k + 1)); (done || lia).
Qed.

Lemma cleared_skip k i i' : cleared k i i' -> 0 <= k -> nthb (i_addrs i) k = 0 -> cleared (k + 1) i i'.
Proof.
  intros (E & Hl & Hn) Hk H0. split_and!; [done..|]. intros j Hj. rewrite Hn by done.
  destruct (Z.ltb_spec j k), (Z.ltb_spec j (k + 1)); [done|lia| |done].
  by replace j with k by lia.
Qed.

(** The blocks given back so far: those of the slots below [k]. *)
Definition freed_below (s : bio) (i : inode) (L : list Z) (P : Z -> Prop) : Prop :=
  forall b, b ∈ L <-> b <> 0 /\ exists j, 0 <= j < NSLOT /\ P j /\ slot s i j = b.

Lemma freed_step s i L (P P' : Z -> Prop) k :
  freed_below s i L P -> 0 <= k < NSLOT -> slot s i k <> 0 ->
  (forall j, P' j <-> P j \/ j = k) ->
  freed_below s i (L ++ [slot s i k]) P'.
Proof.
  intros HL Hk Hnz HP b. rewrite elem_of_app, list_elem_of_singleton, (HL b).
  setoid_rewrite HP. split.
  - intros [(Hb & j & Hj & Hp & E)| ->]; [split; [done|]; exists j; tauto|].
    split; [done|]. exists k. tauto.
  - intros (Hb & j & Hj & [Hp| ->] & E); [left; split; [done|]; by exists j|by right].
Qed.

Lemma freed_skip s i L (P P' : Z -> Prop) k :
  freed_below s i L P -> slot s i k = 0 -> (forall j, P' j <-> P j \/ j = k) ->
  freed_below s i L P'.
Proof.
  intros HL H0 HP b. rewrite (HL b). setoid_rewrite HP. split.
  - intros (Hb & j & Hj & Hp & E). split; [done|]. exists j. tauto.
  - intros (Hb & j & Hj & [Hp| ->] & E); [|congruence]. split; [done|]. by exists j.
Qed.

(** A slot that is still to be freed is not among the freed blocks. *)
Lemma freed_not s i L (P : Z -> Prop) k :
  file_ok s i -> freed_below s i L P -> 0 <= k < NSLOT -> slot s i k <> 0 -> ~ P k ->
  slot s i k ∉ L.
Proof.
  intros Hf HL Hk Hnz HP Hin. apply HL in Hin as (_ & j & Hj & Hp & E).
  assert (j = k) as ->; [|done]. apply (fo_inj _ _ Hf); [done..|congruence|done].
Qed.

Lemma freed_data s i L P k :
  file_ok s i -> freed_below s i L P -> k ∈ L -> data_block (sb_of s (i_dev i)) k.
Proof.
  intros Hf HL Hin. apply HL in Hin as (Hb & j & Hj & _ & <-). by apply (fo_block _ _ Hf).
Qed.

(** Giving back the block of one more slot. *)
Lemma wp_free_slot s0 i s H L (P P' : Z -> Prop) k (Q : unit -> bio -> Prop) :
  file_ok s0 i -> geom (sb_of s0 (i_dev i)) -> gave s0 s (i_dev i) L ->
  freed_below s0 i L P -> 0 <= k < NSLOT -> slot s0 i k <> 0 -> ~ P k ->
  (forall j, P' j <-> P j \/ j = k) ->
  alloc_inv s H (i_dev i) -> free_key H (i_dev i, slot s0 i k) ->
  (forall s', keeps H s s' -> gave s0 s' (i_dev i) (L ++ [slot s0 i k]) ->
     freed_below s0 i (L ++ [slot s0 i k]) P' -> alloc_inv s' H (i_dev i) -> Q tt s') ->
  wp (bfree (i_dev i) (slot s0 i k)) Q s.
Proof.
  intros Hf Hg HG HL Hk Hnz HP HP' Ha Hfk HQ.
  pose proof (freed_not _ _ _ _ _ Hf HL Hk Hnz HP) as Hni.
  destruct (gave_other _ _ _ _ k Hf Hg HG Hk Hnz Hni) as (Hd & Hu & H0 & _).
  eapply wp_bfree; [done..|]. intros s' K Hgv Ha'. apply HQ; [done| | |done].
  - eapply gave_snoc; [done|done|by apply (fo_block _ _ Hf)|intros; by eapply freed_data].
  - by eapply freed_step.
Qed.

(** An element of [seqZ 0 n] is the number of elements before it. *)
(** The state after some slots were freed. *)
Record trunc_st (s s' : fs) (ip : nat) (i i' : inode) (L : list Z) (P : Z -> Prop) : Prop := {
  ts_inode : fs_inode s' = <[ip := i']> (fs_inode s);
  ts_gave : gave (fs_bio s) (fs_bio s') (i_dev i) L;
  ts_freed : freed_below (fs_bio s) i L P;
  ts_alloc : alloc_inv (fs_bio s') ∅ (i_dev i);
  ts_pt : pt_frame (bio_pt (fs_bio s)) (bio_pt (fs_bio s'));
}.

Lemma itrunc_dir_spec s ip i :
  fs_inode s !! ip = Some i -> alloc_inv (fs_bio s) ∅ (i_dev i) -> file_ok (fs_bio s) i ->
  wp (itrunc_dir ip)
    (fun _ s' => exists i' L, cleared NDIRECT i i' /\ trunc_st s s' ip i i' L (fun j => j < NDIRECT)) s.
Proof.
  intros Hip Ha Hf. assert (geom (sb_of (fs_bio s) (i_dev i))) as Hg by apply Ha.
  unfold itrunc_dir. apply (wp_for_each (fun pre s' => exists i' L, cleared (Z.of_nat (length pre)) i i' /\
    trunc_st s s' ip i i' L (fun j => j < Z.of_nat (length pre)))).
  - exists i, []. split.
    + split_and!; [by destruct i|done|]. intros j Hj. destruct (Z.ltb_spec j (Z.of_nat (length (@nil Z)))); [simpl in *; lia|done].
    + split; [by rewrite list_insert_id|by apply gave_same| |done|done].
      intros b. split; [intros Hb; by apply not_elem_of_nil in Hb|].
      intros (_ & j & Hj & Hp & _). simpl in Hp. lia.
  - intros pre k post s1 Hl (i1 & L & Hc & [Hi1 HG HL Ha1 P1]).
    destruct (seqZ_split _ _ _ _ Hl) as [Hk Hkr]. rewrite length_app. simpl length.
    rewrite Nat2Z.inj_add. change (Z.of_nat 1) with 1. rewrite <- Hk in *.
    assert (fs_inode s1 !! ip = Some i1) as Hip1 by (rewrite Hi1; by eapply lookup_set_inode).
    wsteps. rewrite (inode_at_lookup ip s1 i1 Hip1).
    pose proof Hc as (Ei & _ & Hn). rewrite (Hn k), (proj2 (Z.ltb_ge k k)) by lia.
    assert (nthb (i_addrs i) k = slot (fs_bio s) i k) as Hsk.
    { unfold slot. by rewrite (proj2 (Z.ltb_lt k (NDIRECT + 1))) by lia. }
    assert (0 <= k < NSLOT) as Hks by (change NSLOT with 140; change NDIRECT with 11 in Hkr; lia).
    rewrite Hsk. assert (forall j, j < k + 1 <-> j < k \/ j = k) as HP by lia.
    destruct (Z.eqb_spec (slot (fs_bio s) i k) 0) as [H0|H0]; wsteps.
    + exists i1, L. split; [apply cleared_skip; [done|lia|congruence]|].
      split; [done..|by eapply freed_skip|done|done].
    + rewrite Ei. cbn [i_dev i_set_addrs]. fsimpl.
      eapply wp_free_slot; [done|done|done|exact HL|done|done|cbv beta; lia|exact HP|done| |].
      { intros x. by rewrite lookup_empty. }
      intros s2 K2 G2 L2 A2. wsteps. exists (i_set_addr k 0 i1), (L ++ [slot (fs_bio s) i k]).
      split.
      * apply cleared_step; [done|]. rewrite (fo_len _ _ Hf).
        change NDIRECT with 11 in *. lia.
      * split; fsimpl; [|done..|by etransitivity; [|apply K2]].
        rewrite Hi1. rewrite list_alter_insert_same by (by eapply lookup_lt_Some). done.
  - intros s' (i' & L & H1 & H2). rewrite length_seqZ in H1, H2. by exists i', L.
Qed.

(** ** The indirect block *)

(** The slots freed after [m] entries of the indirect block. *)
Definition ind_done (m j : Z) : Prop := j < NDIRECT \/ NDIRECT + 1 <= j < NDIRECT + 1 + m.

Lemma slot_entry s i j :
  nthb (i_addrs i) NDIRECT <> 0 -> 0 <= j ->
  slot s i (NDIRECT + 1 + j) = get32 (4 * j) (sector_of s (i_dev i) (nthb (i_addrs i) NDIRECT)).
Proof.
  intros Hnz Hj. unfold slot. rewrite (proj2 (Z.eqb_neq _ _)) by done.
  rewrite (proj2 (Z.ltb_ge _ _)) by lia. do 2 f_equal. lia.
Qed.

Lemma itrunc_entries_spec s i s1 bp L (dev := i_dev i) (ind := nthb (i_addrs i) NDIRECT) :
  file_ok (fs_bio s) i -> geom (sb_of (fs_bio s) dev) -> ind <> 0 ->
  gave (fs_bio s) (fs_bio s1) dev L -> freed_below (fs_bio s) i L (ind_done 0) ->
  alloc_inv (fs_bio s1) (<[bp := (dev, ind)]> ∅) dev ->
  bdata bp (fs_bio s1) = sector_of (fs_bio s) dev ind ->
  wp (itrunc_entries dev bp)
    (fun _ s' => exists L', fs_inode s' = fs_inode s1 /\
       keeps (<[bp := (dev, ind)]> ∅) (fs_bio s1) (fs_bio s') /\
       gave (fs_bio s) (fs_bio s') dev L' /\ freed_below (fs_bio s) i L' (ind_done NINDIRECT) /\
       alloc_inv (fs_bio s') (<[bp := (dev, ind)]> ∅) dev) s1.
Proof.
  intros Hf Hg Hnz HG HL Ha HB. unfold itrunc_entries.
  apply (wp_for_each (fun pre s' => exists L', fs_inode s' = fs_inode s1 /\
    keeps (<[bp := (dev, ind)]> ∅) (fs_bio s1) (fs_bio s') /\
    gave (fs_bio s) (fs_bio s') dev L' /\
    freed_below (fs_bio s) i L' (ind_done (Z.of_nat (length pre))) /\
    alloc_inv (fs_bio s') (<[bp := (dev, ind)]> ∅) dev)).
  - exists L. split_and!; [done|apply keeps_refl, Ha|done..].
  - intros pre j post s2 Hl (L2 & Hi2 & K2 & G2 & F2 & A2).
    destruct (seqZ_split _ _ _ _ Hl) as [Hj Hjr]. rewrite length_app. simpl length.
    rewrite Nat2Z.inj_add. change (Z.of_nat 1) with 1. rewrite <- Hj in *.
    assert (bdata bp (fs_bio s2) = sector_of (fs_bio s) dev ind) as HB2.
    { rewrite (proj1 (proj2 K2)); [done|]. rewrite lookup_insert_eq. eauto. }
    wsteps. rewrite HB2. unfold dev, ind. rewrite <- slot_entry by (done || lia).
    set (k := NDIRECT + 1 + j).
    assert (0 <= k < NSLOT) as Hk by (unfold k, NSLOT; change NDIRECT with 11; lia).
    assert (forall x, ind_done (j + 1) x <-> ind_done j x \/ x = k) as HP
      by (intros; unfold ind_done, k; lia).
    destruct (Z.eqb_spec (slot (fs_bio s) i k) 0) as [H0|H0]; wsteps.
    + exists L2. split_and!; [done..|by eapply freed_skip|done].
    + eapply wp_free_slot; [done|done|exact G2|exact F2|done|done|unfold ind_done, k; lia|exact HP|exact A2| |].
      { apply free_key_insert; [intros x; by rewrite lookup_empty|]. intros [= Hx].
        assert (NDIRECT = k); [|unfold k in *; lia].
        apply (fo_inj _ _ Hf); [done|done|exact Hnz|exact Hx]. }
      intros s3 K3 G3 F3 A3. exists (L2 ++ [slot (fs_bio s) i k]). fsimpl.
      split_and!; [done|by eapply keeps_trans|done..].
  - intros s' (L' & H1 & H2 & H3 & H4 & H5). rewrite length_seqZ in H4. by exists L'.
Qed.

Lemma freed_all s i L P :
  file_ok s i -> freed_below s i L P -> (forall j, 0 <= j < NSLOT -> slot s i j <> 0 -> P j) ->
  freed_below s i L (fun _ => True).
Proof.
  intros Hf HL HP b. rewrite (HL b). cbv beta. split.
  - intros (Hb & j & Hj & _ & E). split; [done|]. by exists j.
  - intros (Hb & j & Hj & _ & E). split; [done|]. exists j.
    split_and!; [lia|lia|apply HP; [done|congruence]|done].
Qed.

Lemma itrunc_ind_spec s s1 ip i i1 L :
  fs_inode s !! ip = Some i -> file_ok (fs_bio s) i -> geom (sb_of (fs_bio s) (i_dev i)) ->
  cleared NDIRECT i i1 -> trunc_st s s1 ip i i1 L (fun j => j < NDIRECT) ->
  wp (itrunc_ind ip)
    (fun _ s' => exists i' L', cleared (NDIRECT + 1) i i' /\
       trunc_st s s' ip i i' L' (fun _ => True)) s1.
Proof.
  intros Hip Hf Hg Hc [Hi1 HG HL Ha1 P1]. pose proof Hc as (Ei & Hlen & Hn).
  assert (fs_inode s1 !! ip = Some i1) as Hip1 by (rewrite Hi1; by eapply lookup_set_inode).
  assert (i_dev i1 = i_dev i) as Hd1 by (by rewrite Ei).
  unfold itrunc_ind. wsteps. rewrite (inode_at_lookup ip s1 i1 Hip1), Hd1, (Hn NDIRECT) by done.
  rewrite (proj2 (Z.ltb_ge NDIRECT NDIRECT)) by lia. set (ind := nthb (i_addrs i) NDIRECT).
  assert (slot (fs_bio s) i NDIRECT = ind) as Hsi by done.
  destruct (Z.eqb_spec ind 0) as [H0|H0]; wsteps.
  { exists i1, L. split; [by apply cleared_skip|]. split; [done|done| |done|done].
    eapply freed_all; [done|exact HL|]. intros j Hj Hnz. unfold slot in Hnz.
    destruct (Z.ltb_spec j (NDIRECT + 1)); [|fold ind in Hnz; by rewrite H0 in Hnz].
    destruct (Z.eq_dec j NDIRECT) as [->|]; [done|lia]. }
  assert (freed_below (fs_bio s) i L (ind_done 0)) as HL0.
  { intros b. rewrite (HL b). unfold ind_done. cbv beta.
    split; intros (Hb & j & Hj & Hp & E); (split; [done|]); exists j; (split_and!; (lia || done)). }
  assert (ind ∉ L) as Hni.
  { rewrite <- Hsi. eapply freed_not; [done|exact HL|done|by rewrite Hsi|cbv beta; lia]. }
  destruct (gave_other _ _ _ _ NDIRECT Hf Hg HG ltac:(done) ltac:(done) Hni) as (Hdi & Hui & Hp0 & Hsec).
  rewrite Hsi in Hdi, Hui, Hp0, Hsec. assert (geom (sb_of (fs_bio s1) (i_dev i))) as Hg1 by apply Ha1.
  destruct (data_block_pos _ _ Hg1 Hdi) as [_ Hnb]. fsimpl.
  eapply wp_bread; [apply Ha1|split; [apply Ha1|]|apply Ha1|intros x; by rewrite lookup_empty|].
  { destruct (nbits_bound _ ind Hg1) as [? _]; [destruct Hdi; lia|lia]. }
  intros bp s2 Ho B2 D2. wsteps. fsimpl.
  wcall (itrunc_entries_spec s i (Fs s2 (fs_inode s1)) bp L); [done|done|exact H0| |exact HL0| | |].
  { fsimpl. by eapply gave_trans_same. }
  { fsimpl. eapply alloc_inv_open; [exact Ha1|exact Ho|done..| |done].
    rewrite map_size_empty. by apply Nat.ltb_lt. }
  { fsimpl. by rewrite B2. }
  cbv beta. fsimpl. intros _ s3 (L3 & Hi3 & K3 & G3 & F3 & A3). wsteps. fsimpl.
  fold ind in K3, A3. destruct (opened_keeps _ _ _ _ _ _ Ho K3) as [Ho3 B3].
  assert (ind ∉ L3) as Hni3.
  { rewrite <- Hsi. eapply freed_not; [done|exact F3|done|by rewrite Hsi|unfold ind_done; lia]. }
  destruct (gave_other _ _ _ _ NDIRECT Hf Hg G3 ltac:(done) ltac:(done) Hni3) as (_ & _ & _ & Hsec3).
  rewrite Hsi in Hsec3.
  eapply wp_brelse; [exact Ho3|by rewrite B3, B2, Hsec, Hsec3|].
  intros s4 K4 D4. wsteps. fsimpl. rewrite <- Hsi.
  eapply (wp_free_slot _ i s4 ∅ L3 (ind_done NINDIRECT) (fun j => ind_done NINDIRECT j \/ j = NDIRECT));
    [done|done|by eapply gave_trans_same|exact F3|done|by rewrite Hsi|unfold ind_done; lia|done| | |].
  { eapply alloc_inv_close; [exact A3|apply Ho3|apply K4|exact D4]. }
  { intros x. by rewrite lookup_empty. }
  intros s5 K5 G5 F5 A5. wsteps. fsimpl.
  exists (i_set_addr NDIRECT 0 i1), (L3 ++ [slot (fs_bio s) i NDIRECT]). split.
  - apply cleared_step; [done|]. by rewrite (fo_len _ _ Hf).
  - split; fsimpl; [|done| |done|].
    + rewrite Hi3, Hi1, list_alter_insert_same by (by eapply lookup_lt_Some). done.
    + eapply freed_all; [done|exact F5|]. intros j Hj _. unfold ind_done.
      change NSLOT with 140 in Hj. change NDIRECT with 11. change NINDIRECT with 128. lia.
    + etransitivity; [exact P1|]. etransitivity; [apply K4|apply K5].
Qed.

(** ** [itrunc] *)

(** The inode after truncation. *)
Definition empty_inode (i : inode) : inode :=
  i_set_size 0 (i_set_addrs (zeros (NDIRECT + 1)) i).

Record truncated (s s' : bio) (i : inode) (L : list Z) : Prop := {
  tr_blocks : freed_below s i L (fun _ => True);
  tr_rebit : rebit s s' (i_dev i) (fun k u => negb (bool_decide (k ∈ L)) && u)
    (fun k => k ∈ L \/ k = IBLOCK (i_inum i));
  tr_zero : forall k, k ∈ L -> sector_of s' (i_dev i) k = zeros BSIZE;
  tr_dinode : sector_of s' (i_dev i) (IBLOCK (i_inum i)) =
    put_dinode (i_inum i mod IPB) (empty_inode i) (sector_of s (i_dev i) (IBLOCK (i_inum i)));
  tr_alloc : alloc_inv s' ∅ (i_dev i);
  tr_pt : pt_frame (bio_pt s) (bio_pt s');
}.

Lemma cleared_all i i' :
  cleared (NDIRECT + 1) i i' -> length (i_addrs i) = Z.to_nat (NDIRECT + 1) ->
  i' = i_set_addrs (zeros (NDIRECT + 1)) i.
Proof.
  intros (E & Hl & Hn) Hlen. rewrite E. f_equal.
  apply nthb_ext; [by rewrite Hl, Hlen, length_zeros|]. intros j Hj. rewrite nthb_zeros, Hn by lia.
  rewrite (proj2 (Z.ltb_lt _ _)); [done|]. rewrite Hl, Hlen in Hj. lia.
Qed.

Lemma itrunc_spec s ip i :
  fs_inode s !! ip = Some i -> alloc_inv (fs_bio s) ∅ (i_dev i) -> file_ok (fs_bio s) i ->
  inum_ok (sb_of (fs_bio s) (i_dev i)) (i_inum i) ->
  wp (itrunc ip) (fun _ s' => exists L,
    fs_inode s' = <[ip := empty_inode i]> (fs_inode s) /\
    truncated (fs_bio s) (fs_bio s') i L) s.
Proof.
  intros Hip Ha Hf Hi. assert (geom (sb_of (fs_bio s) (i_dev i))) as Hg by apply Ha.
  unfold itrunc. wcall itrunc_dir_spec; [done..|]. cbv beta. intros _ s1 (i1 & L1 & Hc1 & T1).
  wcall itrunc_ind_spec; [done..|]. cbv beta.
  intros _ s2 (i2 & L & Hc2 & [Hi2 HG HL Ha2 P2]).
  apply cleared_all in Hc2; [|apply Hf]. subst i2. destruct HG as [[Hsb Hu Hs Hdv] Hz].
  wsteps. rewrite (upd_inode_insert ip _ s2 (i_set_addrs (zeros (NDIRECT + 1)) i))
    by (rewrite Hi2; by eapply lookup_set_inode).
  fold (empty_inode i). pose proof (iblock_range _ _ Hi) as Hb.
  assert (~ is_bitmap (sb_of (fs_bio s) (i_dev i)) (IBLOCK (i_inum i))) as Hnb
    by (unfold is_bitmap; lia).
  assert (IBLOCK (i_inum i) ∉ L) as HnL.
  { intros Hin. pose proof (freed_data _ _ _ _ _ Hf HL Hin) as Hd.
    destruct (data_block_pos _ _ Hg Hd). pose proof (data_block_ne _ _ 0 Hg Hd ltac:(lia)). lia. }
  wcall iupdate_spec; [rewrite Hi2; eapply lookup_set_inode, lookup_set_inode; done|apply Ha2|apply Ha2|..].
  { cbn [fs_bio fs_set_inode i_dev empty_inode i_set_size i_set_addrs]. by rewrite Hsb. }
  { cbn [fs_bio fs_set_inode i_dev i_inum empty_inode i_set_size i_set_addrs]. by rewrite Hsb. }
  cbn [fs_bio fs_inode fs_set_inode i_dev i_inum empty_inode i_set_size i_set_addrs].
  intros _ s3 (Hi3 & K3 & D3). exists L. split; [by rewrite Hi3, Hi2, list_insert_insert_eq|].
  rewrite <- Hsb in Hb. rewrite Hs in D3 by done.
  destruct (write_inode_block _ _ _ _ _ Hb D3) as (Hsb3 & Hu3 & Hs3 & Hdv3 & Hd3).
  rewrite Hsb in Hsb3, Hu3. split.
  - done.
  - split; [done|..].
    + intros k Hk. rewrite Hu3 by lia. by apply Hu.
    + intros k Hk Hx. rewrite Hs3 by set_solver. apply Hs; set_solver.
    + intros d k Hx. rewrite Hdv3; auto.
  - intros k Hk. rewrite Hs3 by congruence. auto.
  - done.
  - eapply alloc_inv_inode; [exact Ha2|apply K3|exact Hb|exact D3].
  - etransitivity; [exact P2|apply K3].
Qed.

(** ** [iput] *)

(** Dropping a reference that is not the last one to an unlinked inode. *)
Lemma iput_drop s ip i :
  fs_inode s !! ip = Some i ->
  (i_ref i =? 1) && negb (Z.land (i_flags i) I_VALID =? 0) && (i_nlink i =? 0) = false ->
  iput ip s = Ret tt (fs_set_inode (<[ip := i_set_ref (i_ref i - 1) i]> (fs_inode s)) s).
Proof.
  intros Hip Hc. unfold iput, bind, gets. rewrite (inode_at_lookup ip s i Hip), Hc.
  unfold ret, modify. by rewrite (upd_inode_insert ip _ s i).
Qed.

(** The last reference to an unlinked inode: the blocks are free, the disk
    inode is free (type 0) and so is the cache slot. *)
Lemma iput_last s ip i :
  fs_inode s !! ip = Some i -> alloc_inv (fs_bio s) ∅ (i_dev i) -> file_ok (fs_bio s) i ->
  inum_ok (sb_of (fs_bio s) (i_dev i)) (i_inum i) -> inode_wf i ->
  i_ref i = 1 -> i_flags i = I_VALID -> i_nlink i = 0 ->
  wp (iput ip) (fun _ s' => exists L,
    fs_inode s' = <[ip := i_set_ref 0 (i_set_flags 0 (i_set_type 0 (empty_inode i)))]> (fs_inode s) /\
    freed_below (fs_bio s) i L (fun _ => True) /\
    rebit (fs_bio s) (fs_bio s') (i_dev i) (fun k u => negb (bool_decide (k ∈ L)) && u)
      (fun k => k ∈ L \/ k = IBLOCK (i_inum i)) /\
    (forall k, k ∈ L -> sector_of (fs_bio s') (i_dev i) k = zeros BSIZE) /\
    di_type (di_of (fs_bio s') (i_dev i) (i_inum i)) = 0 /\
    alloc_inv (fs_bio s') ∅ (i_dev i)) s.
Proof.
  intros Hip Ha Hf Hi Hw Href Hfl Hnl. pose proof (iblock_range _ _ Hi) as Hb.
  assert (ip < length (fs_inode s))%nat as Hlen by (by eapply lookup_lt_Some).
  unfold iput. wsteps. rewrite (inode_at_lookup ip s i Hip), Href, Hfl, Hnl.
  change ((1 =? 1) && negb (Z.land I_VALID I_VALID =? 0) && (0 =? 0)) with true.
  change (negb (Z.land I_VALID I_BUSY =? 0)) with false. cbv iota. wsteps.
  rewrite (upd_inode_insert ip _ s i) by done. set (i1 := i_set_flags _ i).
  wcall (itrunc_spec (fs_set_inode (<[ip := i1]> (fs_inode s)) s) ip i1);
    [by eapply lookup_set_inode|done|by destruct Hf|done|].
  cbv beta. cbn [fs_inode fs_bio fs_set_inode]. intros _ s1 (L & Hi1 & [TL [Hsb Hu Hs Hdv] Hz Hdi Ha1 P1]).
  cbn [i_dev i_inum i1 i_set_flags] in *. rewrite list_insert_insert_eq in Hi1.
  wsteps. rewrite (upd_inode_insert ip _ s1 (empty_inode i1)) by (rewrite Hi1; by eapply lookup_set_inode).
  set (i2 := i_set_type 0 (empty_inode i1)).
  wcall (iupdate_spec _ ip i2); [rewrite Hi1; eapply lookup_set_inode, lookup_set_inode; done|apply Ha1|apply Ha1|
    cbn [fs_bio fs_set_inode i_dev i_inum i2 empty_inode i_set_type i_set_size i_set_addrs i1 i_set_flags]; rewrite Hsb; first [apply Ha|exact Hi]..|].
  cbn [fs_bio fs_inode fs_set_inode i_dev i_inum i2 empty_inode i_set_type i_set_size i_set_addrs i1 i_set_flags].
  intros _ s2 (Hi2 & K2 & D2). rewrite <- Hsb in Hb.
  destruct (write_inode_block _ _ _ _ _ Hb D2) as (Hsb2 & Hu2 & Hs2 & Hdv2 & Hd2).
  wsteps. exists L. unfold pt_of_fs, lens_comp. cbn [lset lget bio_of_fs pt_of_bio]. fsimpl.
  assert (alloc_inv (fs_bio s2) ∅ (i_dev i)) as Ha2
    by (eapply alloc_inv_inode; [exact Ha1|apply K2|exact Hb|exact D2]).
  rewrite Hsb in Hsb2, Hu2. split_and!.
  - rewrite Hi2, Hi1, list_insert_insert_eq, !list_alter_insert_same by done. f_equal.
    change (i_ref (i_set_flags 0 i2)) with (i_ref i). by rewrite Href.
  - done.
  - split; [done|..].
    + intros k Hk. etransitivity; [apply Hu2; lia|by apply Hu].
    + intros k Hk Hx. rewrite <- Hs by done. apply Hs2. set_solver.
    + intros d k Hx. rewrite <- Hdv by done. by apply Hdv2.
  - intros k Hk. rewrite <- (Hz k Hk). apply Hs2. intros <-.
    pose proof (freed_data _ _ _ _ _ Hf TL Hk) as Hd.
    assert (geom (sb_of (fs_bio s) (i_dev i))) as Hg by apply Ha.
    destruct (data_block_pos _ _ Hg Hd). rewrite Hsb in Hb.
    pose proof (data_block_ne _ _ 0 Hg Hd ltac:(lia)). lia.
  - change (di_type (di_of (fs_bio s2) (i_dev i) (i_inum i)) = 0). unfold di_of.
    rewrite Hd2, dinode_at_put; [done| |by apply Z.mod_pos_bound|apply Ha1].
    destruct Hw. split; try done. apply Forall_replicate. done.
  - eapply alloc_inv_same; [exact Ha2|apply keeps_wakeup, K2|done].
Qed.
