(* ===== verification/Dir.v ===== *)
(** * Directories (kernel/fs.c, [namecmp], [dirlookup] and [dirlink])

    A directory is a file of 16-byte entries.  [dirlookup] finds the first
    live entry with a name and [dirlink] adds an entry in the first free
    place. *)

From S2P Require Import Prelude Monad Params CString ProcTable Ide Bio Block Alloc Inode Bmap.
From S2P Require Import Icache Content Itrunc.

(** ** Definitions *)

Definition namecmp (s t : list Z) : Z := strncmp (Z.to_nat DIRSIZ) s t.

(** Does the entry match the path element? *)
Definition de_match (name : list Z) (de : dirent) : bool :=
  negb (de_inum de =? 0) && (namecmp name (de_name de) =? 0).

(** The scan of the directory block at [off]: the inode number and the offset
    of the first matching entry. *)
Definition dir_block (dp : nat) (name : list Z) (off : Z) : M fs (option (Z * Z)) :=
  let! b := bmap dp (off / BSIZE) in
  let! i := gets (inode_at dp) in
  let! bp := zoom bio_of_fs (bread (i_dev i) b) in
  let! d := gets (fun s => bdata bp (fs_bio s)) in
  zoom bio_of_fs (brelse bp);;;
  ret (first_some (fun o => let de := dirent_at o d in
         if de_match name de then Some (de_inum de, off + o) else None)
       (range 0 BSIZE sizeof_dirent)).

(** The result is the inode and [*poff]. *)
Definition dirlookup (dp : nat) (name : list Z) : M fs (option (nat * Z)) :=
  let! i := gets (inode_at dp) in
  if negb (i_type i =? T_DIR) then panic "dirlookup not DIR"
  else
    let! r := for_find (range 0 (i_size i) BSIZE) (dir_block dp name) in
    match r with
    | None => ret None
    | Some (inum, off) =>
        let! ip := iget (i_dev i) inum in
        ret (Some (ip, off))
    end.

Section dirlink.
Context {DV : Devsw}.

(** The search for an empty entry. *)
Definition dirlink_slot (dp : nat) (off : Z) : M fs (option Z) :=
  let! r := readi dp off sizeof_dirent in
  if negb (fst r =? sizeof_dirent) then panic "dirlink read"
  else if de_inum (dirent_at 0 (snd r)) =? 0 then ret (Some off)
  else ret None.

Definition dirlink (dp : nat) (name : list Z) (inum : Z) : M fs Z :=
  let! r := dirlookup dp name in
  match r with
  | Some (ip, _) => iput ip;;; ret (-1)
  | None =>
      let! i := gets (inode_at dp) in
      let! o := for_find (range 0 (i_size i) sizeof_dirent) (dirlink_slot dp) in
      (* the loop runs out at the first multiple of the entry size *)
      let off := default ((i_size i + sizeof_dirent - 1) / sizeof_dirent * sizeof_dirent) o in
      let de := Dirent (u16 inum) (strncpy (Z.to_nat DIRSIZ) name) in
      let! n := writei dp (dirent_bytes de) off sizeof_dirent in
      if negb (n =? sizeof_dirent) then panic "dirlink"
      else ret 0
  end.

End dirlink.

(** ** The entries of a directory *)

(** The entry at byte [o] of the directory. *)
Definition dent (s : bio) (i : inode) (o : Z) : dirent :=
  dirent_at 0 (fbyte s i <$> seqZ o sizeof_dirent).

(** The bytes the scan covers: whole blocks. *)
Definition dir_end (size : Z) : Z := (size + BSIZE - 1) / BSIZE * BSIZE.

Definition dent_match (s : bio) (i : inode) (name : list Z) (o : Z) : option (Z * Z) :=
  if de_match name (dent s i o) then Some (de_inum (dent s i o), o) else None.

(** [r] is the first match among the entries below [lim]. *)
Definition first_match (s : bio) (i : inode) (name : list Z) (lim : Z) (r : option (Z * Z)) : Prop :=
  match r with
  | None => forall k, 0 <= k -> k * sizeof_dirent < lim -> dent_match s i name (k * sizeof_dirent) = None
  | Some (inum, off) =>
      dent_match s i name off = Some (inum, off) /\
      exists k, 0 <= k /\ off = k * sizeof_dirent /\ off < lim /\
      forall j, 0 <= j < k -> dent_match s i name (j * sizeof_dirent) = None
  end.

(** ** Lemmas *)

Lemma nthb_fmap_seqZ (f : Z -> Z) o n k : 0 <= k < n -> nthb (f <$> seqZ o n) k = f (o + k).
Proof.
  intros Hk. unfold nthb. rewrite list_lookup_fmap, lookup_seqZ_lt by lia. simpl. f_equal. lia.
Qed.

Lemma slice_fbytes (f : Z -> Z) o m x n :
  0 <= x -> x + n <= m -> slice x n (f <$> seqZ o m) = f <$> seqZ (o + x) n.
Proof.
  intros Hx Hn. apply nthb_ext.
  - rewrite length_slice, length_fmap, length_seqZ. done.
  - rewrite length_slice. intros k Hk. rewrite nthb_slice by lia. rewrite !nthb_fmap_seqZ by lia.
    f_equal. lia.
Qed.

Lemma dirent_at_bytes_of (f : Z -> Z) off m x :
  0 <= x -> x + sizeof_dirent <= m ->
  dirent_at x (f <$> seqZ off m) = dirent_at 0 (f <$> seqZ (off + x) sizeof_dirent).
Proof.
  intros Hx Hm. change sizeof_dirent with 16 in *. unfold dirent_at, get16. change DIRSIZ with 14.
  rewrite !slice_fbytes by lia. f_equal; [|f_equal; f_equal; lia]. do 3 f_equal. lia.
Qed.

Lemma dent_bytes s s' i i' o :
  (forall x, 0 <= x < sizeof_dirent -> fbyte s' i' (o + x) = fbyte s i (o + x)) ->
  dent s' i' o = dent s i o.
Proof.
  intros Hb. unfold dent. f_equal. apply list_fmap_ext. intros k x Hk. apply lookup_seqZ in Hk as [-> Hk].
  apply Hb. lia.
Qed.

(** The scan of one block. *)
Lemma dir_block_spec s dp i name off :
  fs_inode s !! dp = Some i -> alloc_inv (fs_bio s) ∅ (i_dev i) -> file_ok (fs_bio s) i ->
  0 <= off -> off mod BSIZE = 0 -> off + BSIZE <= MAXFILE * BSIZE ->
  wpe (dir_block dp name off) (fun r s' =>
    r = first_some (fun o => dent_match (fs_bio s) i name (off + o)) (range 0 BSIZE sizeof_dirent) /\
    exists i', fs_inode s' = <[dp := i']> (fs_inode s) /\ bstep (fs_bio s) (fs_bio s') i i')
    (no_space (i_dev i)) s.
Proof.
  intros Hip Ha Hf Ho Hmod Hmax. unfold dir_block.
  assert (geom (sb_of (fs_bio s) (i_dev i))) as Hg by apply Ha.
  assert (0 <= off / BSIZE < MAXFILE) as Hblk by (apply off_block; change BSIZE with 512 in *; lia).
  wsteps. eapply wpe_mono; [apply bmap_spec; done| |done].
  cbv beta. intros b s1 (i1 & Hl1 & Hb1 & Hb & Hnz). wsteps.
  assert (fs_inode s1 !! dp = Some i1) as Hip1 by (rewrite Hl1; by eapply lookup_set_inode).
  rewrite (inode_at_lookup dp s1 i1 Hip1). apply wpe_wp. fsimpl.
  assert (i_dev i1 = i_dev i) as Hdev by (by rewrite (bs_inode _ _ _ _ Hb1)).
  pose proof (bs_alloc _ _ _ _ Hb1) as Ha1. rewrite <- Hdev in Ha1.
  apply (wp_bread_file _ i1 b (pos (off / BSIZE))); [exact Ha1|apply Hb1|by apply pos_range|by symmetry|done|].
  intros bp s2 Hop B2 D2. wsteps. apply wpe_wp.
  eapply wp_brelse; [exact Hop|fsimpl; rewrite B2; unfold sector_of; by rewrite D2|].
  intros s3 K3 D3. wsteps. fsimpl. split.
  - rewrite B2. assert (is_block (sector_of (fs_bio s1) (i_dev i1) b)) as Hd by apply Ha1.
    pose proof (fbyte_chunk (fs_bio s1) i1 0 off BSIZE b (eq_sym Hb) Hnz) as Hc. unfold chunk in Hc.
    rewrite Hmod in Hc. change (Z.min (BSIZE - 0) (BSIZE - 0)) with BSIZE in Hc.
    rewrite <- (is_block_len _ Hd), slice_all in Hc at 1. rewrite Hc.
    apply first_some_ext. intros o (k & Hk & -> & Hlt)%elem_of_range; [|done].
    unfold dent_match, dent. rewrite dirent_at_bytes_of by (change sizeof_dirent with 16 in *; change BSIZE with 512 in *; lia).
    assert (forall x, x ∈ seqZ (off + (0 + k * sizeof_dirent)) sizeof_dirent ->
      fbyte (fs_bio s1) i1 x = fbyte (fs_bio s) i x) as E.
    { intros x Hx%elem_of_seqZ. apply (bs_bytes _ _ _ _ Hb1).
      change sizeof_dirent with 16 in *. change BSIZE with 512 in *. lia. }
    rewrite (fmap_ext_in _ _ _ E). done.
  - exists i1. split; [done|]. eapply bstep_trans; [exact Hb1| |done].
    apply bstep_same; [done|apply Hb1|done|]. etransitivity; [exact D3|exact D2].
Qed.

Lemma dent_match_bytes s s' i i' name o :
  (forall x, 0 <= x < MAXFILE * BSIZE -> fbyte s' i' x = fbyte s i x) ->
  0 <= o -> o + sizeof_dirent <= MAXFILE * BSIZE -> dent_match s' i' name o = dent_match s i name o.
Proof. intros Hb Ho Hm. unfold dent_match. rewrite (dent_bytes s s' i i'); [done|]. intros x Hx. apply Hb. lia. Qed.

(** An entry of a block, from the block's offset. *)
Lemma dent_offset k :
  0 <= k -> exists x y, x = (k * sizeof_dirent) / BSIZE * BSIZE /\ y ∈ range 0 BSIZE sizeof_dirent /\
    k * sizeof_dirent = x + y /\ 0 <= y < BSIZE.
Proof.
  intros Hk. change sizeof_dirent with 16. change BSIZE with 512. exists (k * 16 / 512 * 512), (k * 16 mod 512).
  pose proof (Z.div_mod (k * 16) 512 ltac:(lia)) as E. pose proof (Z.mod_pos_bound (k * 16) 512 ltac:(lia)).
  split_and!; [done| |lia|lia|lia]. apply elem_of_range; [lia|]. exists (k - k * 16 / 512 * 32). lia.
Qed.

(** The first match of a block is the first match of the directory when the
    blocks before have none. *)
Lemma first_match_block s i name lim x y inum off :
  0 <= x -> x mod BSIZE = 0 ->
  dent_match s i name (x + y) = Some (inum, off) -> y ∈ range 0 BSIZE sizeof_dirent -> x + y < lim ->
  (forall k, 0 <= k -> k * sizeof_dirent < x + y -> dent_match s i name (k * sizeof_dirent) = None) ->
  first_match s i name lim (Some (inum, off)).
Proof.
  intros Hx Hm E Hy Hlim Hno. assert (off = x + y) as ->.
  { unfold dent_match in E. destruct (de_match _ _); [|done]. by injection E. }
  split; [done|]. apply elem_of_range in Hy as (k & Hk & -> & Hlt); [|done].
  pose proof (Z.div_mod x BSIZE ltac:(done)) as Ex. change sizeof_dirent with 16 in *. change BSIZE with 512 in *.
  exists (x / 512 * 32 + k). assert (0 <= x / 512) by (apply Z.div_pos; lia).
  split_and!; [lia|lia|lia|]. intros j Hj. apply Hno; lia.
Qed.

Lemma block_below size x y :
  0 <= size -> x ∈ range 0 size BSIZE -> 0 <= y < BSIZE -> x + y < dir_end size /\ 0 <= x /\ x mod BSIZE = 0.
Proof.
  intros Hs (k & Hk & -> & Hlt)%elem_of_range Hy; [|done]. unfold dir_end.
  rewrite Z.add_0_l, Z.mod_mul by done. change BSIZE with 512 in *. split_and!; [|lia|done].
  assert (k + 1 <= (size + 512 - 1) / 512) by (apply Z.div_le_lower_bound; lia). lia.
Qed.

Lemma dir_end_max size : 0 <= size <= MAXFILE * BSIZE -> dir_end size <= MAXFILE * BSIZE.
Proof.
  intros Hs. unfold dir_end. apply Z.mul_le_mono_nonneg_r; [done|].
  apply Z.lt_succ_r, Z.div_lt_upper_bound; [done|]. change BSIZE with 512 in *. change MAXFILE with 139 in *. lia.
Qed.

(** The blocks of the scan cover the entries ... *)
Lemma blocks_cover size k :
  0 <= size -> 0 <= k -> k * sizeof_dirent < dir_end size ->
  exists x y, x ∈ range 0 size BSIZE /\ y ∈ range 0 BSIZE sizeof_dirent /\ k * sizeof_dirent = x + y /\
    0 <= y < BSIZE.
Proof.
  intros Hs Hk Hlt. destruct (dent_offset k Hk) as (x & y & Hx & Hy & E & Hyb). exists x, y.
  split_and!; [|done|done|lia|lia]. rewrite E in Hlt. apply elem_of_range; [done|].
  exists (k * sizeof_dirent / BSIZE).
  assert (0 <= k * sizeof_dirent / BSIZE) by (apply Z.div_pos; [change sizeof_dirent with 16; lia|done]).
  split_and!; [lia|lia|]. unfold dir_end in Hlt.
  pose proof (Z.mul_div_le (size + BSIZE - 1) BSIZE ltac:(done)). change BSIZE with 512 in *. nia.
Qed.

(** ... in order. *)
Lemma blocks_before size pre x post y k :
  0 <= size -> range 0 size BSIZE = pre ++ x :: post -> 0 <= y < BSIZE -> 0 <= k ->
  k * sizeof_dirent < x + y ->
  exists x' y', y' ∈ range 0 BSIZE sizeof_dirent /\ k * sizeof_dirent = x' + y' /\
    (x' ∈ pre \/ x' = x /\ y' < y).
Proof.
  intros Hs Hl Hy Hk Hlt. assert (x ∈ range 0 size BSIZE) as Hx by (rewrite Hl; set_solver).
  destruct (block_below size x y Hs Hx Hy) as (Hxe & Hx0 & Hxm).
  destruct (blocks_cover size k Hs Hk ltac:(lia)) as (x' & y' & Hx' & Hy' & E & Hyb).
  destruct (block_below size x' y' Hs Hx' Hyb) as (_ & Hx0' & Hxm').
  exists x', y'. split_and!; [done|done|].
  pose proof (Z.div_mod x BSIZE ltac:(done)) as Dx. pose proof (Z.div_mod x' BSIZE ltac:(done)) as Dx'.
  rewrite Hxm in Dx. rewrite Hxm' in Dx'.
  destruct (Z.eq_dec x' x) as [->|Hne]; [right; split; [done|lia]|]. left.
  eapply (range_before 0 size BSIZE); [done|exact Hl|done|]. change BSIZE with 512 in *. lia.
Qed.

Lemma dir_find_spec s dp i name :
  fs_inode s !! dp = Some i -> alloc_inv (fs_bio s) ∅ (i_dev i) -> file_ok (fs_bio s) i ->
  0 <= i_size i <= MAXFILE * BSIZE ->
  wpe (for_find (range 0 (i_size i) BSIZE) (dir_block dp name)) (fun r s' =>
    first_match (fs_bio s) i name (dir_end (i_size i)) r /\
    exists i', fs_inode s' = <[dp := i']> (fs_inode s) /\ bstep (fs_bio s) (fs_bio s') i i')
    (no_space (i_dev i)) s.
Proof.
  intros Hip Ha Hf Hsz. assert (geom (sb_of (fs_bio s) (i_dev i))) as Hg by apply Ha.
  pose proof (dir_end_max _ Hsz) as Hend. set (size := i_size i) in *.
  apply (wpe_for_find (fun pre s' =>
    (forall x y, x ∈ pre -> y ∈ range 0 BSIZE sizeof_dirent -> dent_match (fs_bio s) i name (x + y) = None) /\
    exists i', fs_inode s' = <[dp := i']> (fs_inode s) /\ bstep (fs_bio s) (fs_bio s') i i')).
  - split; [intros x y Hx; by apply elem_of_nil in Hx|]. exists i. by rewrite list_insert_id by done; auto using bstep_refl.
  - intros pre x post s1 Hl (Hno & i1 & Hl1 & Hb1).
    assert (x ∈ range 0 size BSIZE) as Hx by (rewrite Hl; set_solver).
    destruct (block_below size x (BSIZE - 1) ltac:(lia) Hx ltac:(done)) as (Hxe & Hx0 & Hxm).
    assert (i_dev i1 = i_dev i) as Hdev by (by rewrite (bs_inode _ _ _ _ Hb1)).
    pose proof (bs_alloc _ _ _ _ Hb1) as Ha1. rewrite <- Hdev in Ha1 |- *.
    eapply wpe_mono; [apply (dir_block_spec s1 dp i1); [rewrite Hl1; by eapply lookup_set_inode|done|apply Hb1|done..|lia]| |done].
    cbv beta. intros r s2 (-> & i2 & Hl2 & Hb2).
    assert (exists i', fs_inode s2 = <[dp := i']> (fs_inode s) /\ bstep (fs_bio s) (fs_bio s2) i i') as Hs2.
    { exists i2. split; [by rewrite Hl2, Hl1, list_insert_insert_eq|by eapply bstep_trans]. }
    rewrite (first_some_ext _ (fun o => dent_match (fs_bio s) i name (x + o))).
    2:{ intros o (k & Hk & -> & Hlt)%elem_of_range; [|done]. change sizeof_dirent with 16 in *. change BSIZE with 512 in *.
        apply dent_match_bytes; [apply Hb1|lia|]. change sizeof_dirent with 16. change BSIZE with 512. lia. }
    destruct (first_some _ _) as [[inum off]|] eqn:E.
    + apply first_some_Some in E as (pre' & y & post' & Hl' & Ey & Hpre'). split; [|done].
      assert (y ∈ range 0 BSIZE sizeof_dirent) as Hy by (rewrite Hl'; set_solver).
      assert (0 <= y < BSIZE) as Hyb.
      { apply elem_of_range in Hy as (ky & ? & -> & ?); [|done]. change sizeof_dirent with 16 in *. lia. }
      apply (first_match_block _ _ _ _ x y); [done|done|done|done|lia|].
      intros k Hk Hlt. destruct (blocks_before size pre x post y k ltac:(lia) Hl Hyb Hk Hlt)
        as (x' & y' & Hy' & -> & [Hp|[-> Hlt']]); [by apply Hno|].
      rewrite Forall_forall in Hpre'. apply Hpre'. by eapply (range_before 0 BSIZE sizeof_dirent).
    + split; [|done]. intros x' y' Hx' Hy'. apply elem_of_app in Hx' as [Hx'|Hx']; [by apply Hno|].
      apply list_elem_of_singleton in Hx' as ->. apply first_some_None in E. rewrite Forall_forall in E. by apply E.
  - intros s' (Hno & Hs'). split; [|done]. intros k Hk Hlt.
    destruct (blocks_cover size k ltac:(lia) Hk Hlt) as (x & y & Hx & Hy & -> & _). by apply Hno.
Qed.

(** ** [dirlookup] *)

(** What [iget] of [inum] does to the cache [l]. *)
Definition got (dev inum : Z) (l l' : list inode) (ip : nat) : Prop :=
  icache_ok l' /\ exists i i', l !! ip = Some i /\ l' = <[ip := i']> l /\ i_match dev inum i' /\
    ((i_match dev inum i /\ i' = i_set_ref (i_ref i + 1) i) \/
     (Forall (fun x => ~ i_match dev inum x) l /\ i_ref i = 0 /\ i' = i_fresh dev inum i)).

Lemma icache_ok_addrs l dp i i' :
  icache_ok l -> l !! dp = Some i -> i' = i_set_addrs (i_addrs i') i -> icache_ok (<[dp := i']> l).
Proof.
  intros Hok Hi E. apply icache_ok_insert; [done|]. intros k x Hk Hx [Hr Hm]. apply Hk. symmetry.
  rewrite E in Hr, Hm. by eapply Hok.
Qed.

(** The directory's entry for [name] and a reference to its inode, or
    nothing. *)
Lemma dirlookup_spec s dp i name :
  fs_inode s !! dp = Some i -> alloc_inv (fs_bio s) ∅ (i_dev i) -> file_ok (fs_bio s) i ->
  0 <= i_size i <= MAXFILE * BSIZE -> i_type i = T_DIR -> icache_ok (fs_inode s) ->
  wpe (dirlookup dp name) (fun r s' => exists i',
    bstep (fs_bio s) (fs_bio s') i i' /\
    match r with
    | None => first_match (fs_bio s) i name (dir_end (i_size i)) None /\
        fs_inode s' = <[dp := i']> (fs_inode s)
    | Some (ip, off) => exists inum, first_match (fs_bio s) i name (dir_end (i_size i)) (Some (inum, off)) /\
        got (i_dev i) inum (<[dp := i']> (fs_inode s)) (fs_inode s') ip
    end)
    (fun msg s' => no_space (i_dev i) msg s' \/
       msg = "iget: no inodes" /\ Forall (fun x => i_ref x <> 0) (fs_inode s')) s.
Proof.
  intros Hip Ha Hf Hsz Ht Hok. unfold dirlookup. wsteps. rewrite (inode_at_lookup dp s i Hip), Ht.
  change (negb (T_DIR =? T_DIR)) with false. wsteps.
  eapply wpe_mono; [by apply dir_find_spec| |by left]. cbv beta. intros r s1 (Hm & i1 & Hl1 & Hb1).
  destruct r as [[inum off]|]; wsteps; [|by eauto].
  assert (icache_ok (fs_inode s1)) as Hok1 by (rewrite Hl1; eapply icache_ok_addrs; [done..|apply Hb1]).
  eapply wpe_mono; [by apply iget_spec| |].
  - cbv beta. intros ip s2 (Eb & Hok2 & Hg). wsteps. exists i1. rewrite Eb. split; [done|].
    exists inum. split; [done|]. rewrite <- Hl1. by split.
  - cbv beta. intros msg s2 (-> & -> & Hall). right. split; [done|].
    eapply Forall_impl; [exact Hall|]. by intros x [? _].
Qed.

(** ** [dirlink] *)

(** The place [dirlink] uses: the first entry not in use, or the end. *)
Definition free_entry (s : bio) (i : inode) (off : Z) : Prop :=
  exists k, 0 <= k /\ off = k * sizeof_dirent /\ off <= i_size i /\
    (off < i_size i -> de_inum (dent s i off) = 0) /\
    forall j, 0 <= j < k -> de_inum (dent s i (j * sizeof_dirent)) <> 0.

(** The directory after [(name, inum)] was added at [off]. *)
Record linked (s s' : bio) (i i' : inode) (name : list Z) (inum off : Z) : Prop := {
  lk_free : free_entry s i off;
  lk_room : off + sizeof_dirent <= MAXFILE * BSIZE;
  lk_inode : i' = i_set_size (Z.max (i_size i) (off + sizeof_dirent)) (i_set_addrs (i_addrs i') i);
  lk_alloc : alloc_inv s' ∅ (i_dev i);
  lk_file : file_ok s' i';
  lk_new : dent s' i' off = Dirent (u16 inum) (strncpy (Z.to_nat DIRSIZ) name);
  lk_old : forall k, 0 <= k -> k * sizeof_dirent + sizeof_dirent <= MAXFILE * BSIZE ->
    k * sizeof_dirent <> off -> dent s' i' (k * sizeof_dirent) = dent s i (k * sizeof_dirent);
  lk_pt : pt_frame (bio_pt s) (bio_pt s');
}.

Section dirlink_specs.
Context {DV : Devsw}.

Lemma dirlink_slot_spec s dp i off :
  fs_inode s !! dp = Some i -> alloc_inv (fs_bio s) ∅ (i_dev i) -> file_ok (fs_bio s) i ->
  0 <= i_size i <= MAXFILE * BSIZE -> i_type i <> T_DEV ->
  0 <= off -> off + sizeof_dirent <= i_size i ->
  wpe (dirlink_slot dp off) (fun r s' =>
    r = (if de_inum (dent (fs_bio s) i off) =? 0 then Some off else None) /\
    exists i', fs_inode s' = <[dp := i']> (fs_inode s) /\ bstep (fs_bio s) (fs_bio s') i i')
    (no_space (i_dev i)) s.
Proof.
  intros Hip Ha Hf Hsz Ht Ho Hlt. assert (MAXFILE * BSIZE < 2 ^ 31) as Hm by done.
  change sizeof_dirent with 16 in *. unfold dirlink_slot. wsteps.
  eapply wpe_mono; [apply readi_spec; [done..|lia|done]| |done]. cbv beta.
  change sizeof_dirent with 16. intros r s' (-> & Hs'). unfold read_result.
  rewrite (proj2 (Z.ltb_ge _ _)), (proj2 (Z.leb_gt _ _)) by lia. cbn [orb]. cbv zeta.
  rewrite Z.min_l by lia. cbn [fst snd]. change (negb (16 =? 16)) with false. cbv iota.
  unfold dent. change sizeof_dirent with 16. destruct (de_inum _ =? 0); by wsteps.
Qed.

(** The search for the place. *)
Lemma dirlink_place s dp i :
  fs_inode s !! dp = Some i -> alloc_inv (fs_bio s) ∅ (i_dev i) -> file_ok (fs_bio s) i ->
  0 <= i_size i <= MAXFILE * BSIZE -> i_type i <> T_DEV -> (sizeof_dirent | i_size i) ->
  wpe (for_find (range 0 (i_size i) sizeof_dirent) (dirlink_slot dp)) (fun r s' =>
    free_entry (fs_bio s) i
      (default ((i_size i + sizeof_dirent - 1) / sizeof_dirent * sizeof_dirent) r) /\
    exists i', fs_inode s' = <[dp := i']> (fs_inode s) /\ bstep (fs_bio s) (fs_bio s') i i')
    (no_space (i_dev i)) s.
Proof.
  intros Hip Ha Hf Hsz Ht [m Hm]. assert (geom (sb_of (fs_bio s) (i_dev i))) as Hg by apply Ha.
  assert ((i_size i + sizeof_dirent - 1) / sizeof_dirent * sizeof_dirent = i_size i) as ->.
  { rewrite Hm. change sizeof_dirent with 16 in *. replace (m * 16 + 16 - 1) with (15 + m * 16) by lia.
    rewrite Z.div_add by lia. change (15 / 16) with 0. lia. }
  apply (wpe_for_find (fun pre s' => (forall o, o ∈ pre -> de_inum (dent (fs_bio s) i o) <> 0) /\
    exists i', fs_inode s' = <[dp := i']> (fs_inode s) /\ bstep (fs_bio s) (fs_bio s') i i')).
  - split; [intros o Ho; by apply elem_of_nil in Ho|]. exists i. by rewrite list_insert_id by done; auto using bstep_refl.
  - intros pre x post s1 Hl (Hno & i1 & Hl1 & Hb1).
    assert (x ∈ range 0 (i_size i) sizeof_dirent) as Hx by (rewrite Hl; set_solver).
    pose proof Hx as (k & Hk & Ex & Hlt)%elem_of_range; [|done].
    assert (0 <= x /\ x + sizeof_dirent <= i_size i) as [Hx0 Hxe]
      by (change sizeof_dirent with 16 in *; lia).
    assert (i_dev i1 = i_dev i /\ i_size i1 = i_size i /\ i_type i1 = i_type i) as (Hdev & Es & Et)
      by (by rewrite (bs_inode _ _ _ _ Hb1)).
    pose proof (bs_alloc _ _ _ _ Hb1) as Ha1. rewrite <- Hdev in Ha1 |- *.
    eapply wpe_mono; [apply (dirlink_slot_spec s1 dp i1);
      [rewrite Hl1; by eapply lookup_set_inode|done|apply Hb1|rewrite ?Es, ?Et; done..|rewrite Es; done]| |done].
    cbv beta. intros r s2 (-> & i2 & Hl2 & Hb2).
    assert (dent (fs_bio s1) i1 x = dent (fs_bio s) i x) as ->.
    { apply dent_bytes. intros y Hy. apply (bs_bytes _ _ _ _ Hb1). lia. }
    assert (exists i', fs_inode s2 = <[dp := i']> (fs_inode s) /\ bstep (fs_bio s) (fs_bio s2) i i') as Hs2.
    { exists i2. split; [by rewrite Hl2, Hl1, list_insert_insert_eq|by eapply bstep_trans]. }
    destruct (Z.eqb_spec (de_inum (dent (fs_bio s) i x)) 0) as [E0|E0]; (split; [|done]).
    + exists k. cbn [default from_option id]. split_and!; [done|lia|lia|done|]. intros j Hj. apply Hno.
      eapply (range_before 0 (i_size i) sizeof_dirent); [done|exact Hl| |change sizeof_dirent with 16 in *; lia].
      apply elem_of_range; [done|]. exists j. change sizeof_dirent with 16 in *. split_and!; lia.
    + intros o [Ho| ->%list_elem_of_singleton]%elem_of_app; [by apply Hno|done].
  - intros s' (Hno & Hs'). split; [|done]. change sizeof_dirent with 16 in *. exists m. cbn [default from_option id].
    split_and!; [lia|done|lia|lia|]. intros j Hj. apply Hno. apply elem_of_range; [done|]. exists j.
    change sizeof_dirent with 16 in *. split_and!; lia.
Qed.

Lemma free_entry_bytes s s' i i' off :
  (forall o, 0 <= o < MAXFILE * BSIZE -> fbyte s' i' o = fbyte s i o) -> i_size i' = i_size i ->
  (sizeof_dirent | i_size i) -> i_size i <= MAXFILE * BSIZE ->
  free_entry s' i' off -> free_entry s i off.
Proof.
  intros Hb Hs [m Hd] Hm (k & Hk & Eo & Hle & H0 & Hj). rewrite Hs in *.
  assert (forall j, 0 <= j -> j * sizeof_dirent < i_size i ->
    dent s' i' (j * sizeof_dirent) = dent s i (j * sizeof_dirent)) as E.
  { intros j ? ?. apply dent_bytes. intros x Hx. apply Hb. change sizeof_dirent with 16 in *. nia. }
  exists k. split_and!; [done|done|done| |].
  - intros Hlt. rewrite Eo in *. rewrite <- E by done. by apply H0.
  - intros j Hjk. rewrite <- E; [by apply Hj|lia|]. change sizeof_dirent with 16 in *. lia.
Qed.

Lemma free_entry_bytes' s s' i i' off :
  bstep s s' i i' -> (sizeof_dirent | i_size i) -> i_size i <= MAXFILE * BSIZE ->
  free_entry s i off -> free_entry s' i' off.
Proof.
  intros Hb Hd Hm. assert (i_size i' = i_size i) as Es by (by rewrite (bs_inode _ _ _ _ Hb)).
  apply free_entry_bytes; [|done|by rewrite Es|by rewrite Es].
  intros o Ho. symmetry. by apply (bs_bytes _ _ _ _ Hb).
Qed.

Lemma dirent_at_enc de :
  0 <= de_inum de < 2 ^ 16 -> length (de_name de) = Z.to_nat DIRSIZ -> dirent_at 0 (dirent_bytes de) = de.
Proof.
  intros Hi Hn. pose proof (dirent_at_bytes de (zeros 16) 0 ltac:(done) ltac:(done) Hi Hn) as H.
  rewrite splice_all in H; [done|]. unfold dirent_bytes. by rewrite length_app, length_le_enc, length_slice.
Qed.

Lemma linked_intro s s2 s3 i i2 i3 name inum off :
  bstep s s2 i i2 -> (sizeof_dirent | i_size i) -> 0 <= i_size i <= MAXFILE * BSIZE ->
  free_entry s2 i2 off -> off + sizeof_dirent <= MAXFILE * BSIZE -> Forall is_byte name ->
  written s2 s3 i2 i3 (dirent_bytes (Dirent (u16 inum) (strncpy (Z.to_nat DIRSIZ) name))) off sizeof_dirent ->
  linked s s3 i i3 name inum off.
Proof.
  intros Hb Hdv Hsz Hfe Hroom Hnb [Wi Wa Wf Wb _ _ _ _ Wp].
  assert (i_size i2 = i_size i /\ i_dev i2 = i_dev i) as [Es2 Ed2] by (by rewrite (bs_inode _ _ _ _ Hb)).
  pose proof (free_entry_bytes s s2 i i2 off (bs_bytes _ _ _ _ Hb) Es2 Hdv ltac:(lia) Hfe) as Hfe'.
  destruct Hfe' as (k & Hk & Eo & Hle & H0 & Hj). rewrite Ed2 in Wa. split.
  - by exists k.
  - done.
  - rewrite Es2 in Wi. rewrite Wi, (bs_inode _ _ _ _ Hb). by destruct i.
  - done.
  - done.
  - unfold dent. set (de := Dirent _ _) in *.
    transitivity (dirent_at 0 (dirent_bytes de)).
    + f_equal. apply nthb_ext; [by rewrite length_fmap, length_seqZ; unfold dirent_bytes;
        rewrite length_app, length_le_enc, length_slice|].
      rewrite length_fmap, length_seqZ. intros x Hx. change sizeof_dirent with 16 in *.
      rewrite nthb_fmap_seqZ by lia. rewrite Wb by lia.
      rewrite (proj2 (Z.leb_le _ _)), (proj2 (Z.ltb_lt _ _)) by lia. cbn [andb]. f_equal. lia.
    + apply dirent_at_enc; [apply u16_range|apply length_strncpy].
  - intros j Hjn Hjm Hne. rewrite <- (dent_bytes s s2 i i2).
    2:{ intros x Hx. apply (bs_bytes _ _ _ _ Hb). change sizeof_dirent with 16 in *. lia. }
    apply dent_bytes. intros x Hx. change sizeof_dirent with 16 in *. rewrite Wb by lia.
    destruct (Z.leb_spec off (j * 16 + x)), (Z.ltb_spec (j * 16 + x) (off + 16)); cbn [andb]; try done. lia.
  - etransitivity; [apply Hb|exact Wp].
Qed.

(** A reference [dirlookup] took is dropped without further effect. *)
Lemma iput_got dev inum s l ip :
  got dev inum l (fs_inode s) ip -> Forall (fun i => 0 <= i_ref i) l ->
  wp (iput ip) (fun _ s' => fs_bio s' = fs_bio s /\
    forall k x, l !! k = Some x -> i_ref x <> 0 -> fs_inode s' !! k = Some x) s.
Proof.
  intros (_ & i & i' & Hi & Hl & Hm & Hc) Hall.
  assert (fs_inode s !! ip = Some i') as Hi' by (rewrite Hl; by eapply lookup_set_inode).
  unfold wp. rewrite (iput_drop s ip i') by
    (done || (destruct Hc as [[(? & ? & ?) ->]|(_ & _ & ->)]; cbn;
       [rewrite (proj2 (Z.eqb_neq (i_ref i + 1) 1)) by lia; done|done])).
  cbn [fs_bio fs_inode fs_set_inode]. split; [done|]. intros k x Hk Hx. rewrite Hl, list_insert_insert_eq.
  destruct (decide (k = ip)) as [->|Hne]; [|by rewrite list_lookup_insert_ne].
  assert (x = i) as -> by congruence. rewrite list_lookup_insert_eq by (by eapply lookup_lt_Some).
  destruct Hc as [[_ ->]|(_ & H0 & _)]; [|done]. f_equal.
  cbn [i_ref i_set_ref]. rewrite Z.add_simpl_r. by destruct i.
Qed.

(** The last step of [dirlink]: the entry is written. *)
Lemma dirlink_write s0 s dp i0 i name inum off :
  fs_inode s !! dp = Some i -> alloc_inv (fs_bio s) ∅ (i_dev i) ->
  bstep (fs_bio s0) (fs_bio s) i0 i -> i_type i <> T_DEV ->
  0 <= i_size i0 <= MAXFILE * BSIZE -> (sizeof_dirent | i_size i0) ->
  inum_ok (sb_of (fs_bio s) (i_dev i)) (i_inum i) -> Forall is_byte name ->
  free_entry (fs_bio s) i off ->
  wpe (let! n := writei dp (dirent_bytes (Dirent (u16 inum) (strncpy (Z.to_nat DIRSIZ) name))) off sizeof_dirent in
       if negb (n =? sizeof_dirent) then panic "dirlink" else ret 0)
    (fun r s' => r = 0 /\ exists i', fs_inode s' = <[dp := i']> (fs_inode s) /\
       linked (fs_bio s0) (fs_bio s') i0 i' name inum off)
    (fun msg s' => no_space (i_dev i) msg s' \/
       msg = "dirlink" /\ free_entry (fs_bio s0) i0 off /\ MAXFILE * BSIZE < off + sizeof_dirent) s.
Proof.
  intros Hip Ha Hb Ht Hsz Hdv Hi Hnb Hfe. assert (MAXFILE * BSIZE < 2 ^ 31) as Hm31 by done.
  assert (i_size i = i_size i0) as Es by (by rewrite (bs_inode _ _ _ _ Hb)).
  pose proof Hfe as (k & Hk & Eo & Hle & _). wfocus.
  assert (0 <= off) as Hoff by (rewrite Eo; change sizeof_dirent with 16; lia).
  eapply wpe_mono; [apply (writei_spec s dp i); [done|done|apply Hb|done|lia|done|lia|done|]| |by left].
  { unfold dirent_bytes. apply Forall_app. split; [apply Forall_le_enc|by apply Forall_slice, Forall_strncpy]. }
  cbv beta. rewrite (proj2 (Z.ltb_ge _ _)) by done. change sizeof_dirent with 16 in *.
  rewrite (proj2 (Z.leb_gt _ _)) by lia. cbn [orb]. cbv zeta. intros n s' (-> & i' & Hl & Hw).
  destruct (Z.eqb_spec (Z.min 16 (MAXFILE * BSIZE - off)) 16) as [E|E]; cbn [negb]; wsteps.
  - rewrite E in Hw. split; [done|]. exists i'. split; [done|].
    eapply linked_intro; [done|done|done|done|change sizeof_dirent with 16; lia|done|done].
  - right. split; [done|]. split; [|lia].
    eapply free_entry_bytes; [apply (bs_bytes _ _ _ _ Hb)|done|done|lia|done].
Qed.

(** [dirlink]: -1 if the name is there; otherwise the entry is added in the
    first free place. *)
Lemma dirlink_spec s dp i name inum :
  fs_inode s !! dp = Some i -> alloc_inv (fs_bio s) ∅ (i_dev i) -> file_ok (fs_bio s) i ->
  0 <= i_size i <= MAXFILE * BSIZE -> i_type i = T_DIR -> (sizeof_dirent | i_size i) ->
  inum_ok (sb_of (fs_bio s) (i_dev i)) (i_inum i) -> Forall is_byte name ->
  icache_ok (fs_inode s) -> Forall (fun i => 0 <= i_ref i) (fs_inode s) ->
  wpe (dirlink dp name inum) (fun r s' => exists i',
    (r = -1 /\ (exists m, first_match (fs_bio s) i name (dir_end (i_size i)) (Some m)) /\
     bstep (fs_bio s) (fs_bio s') i i' /\
     forall k x, <[dp := i']> (fs_inode s) !! k = Some x -> i_ref x <> 0 -> fs_inode s' !! k = Some x) \/
    (r = 0 /\ first_match (fs_bio s) i name (dir_end (i_size i)) None /\
     fs_inode s' = <[dp := i']> (fs_inode s) /\
     exists off, linked (fs_bio s) (fs_bio s') i i' name inum off))
    (fun msg s' => no_space (i_dev i) msg s' \/ msg = "iget: no inodes" \/
       msg = "dirlink" /\ exists off, free_entry (fs_bio s) i off /\ MAXFILE * BSIZE < off + sizeof_dirent) s.
Proof.
  intros Hip Ha Hf Hsz Ht Hdv Hi Hnb Hok Hrefs. unfold dirlink. wfocus.
  eapply wpe_mono; [by apply dirlookup_spec| |by intros msg s' [?|[? _]]; auto].
  cbv beta. intros r s1 (i1 & Hb1 & Hr).
  assert (i_dev i1 = i_dev i /\ i_size i1 = i_size i /\ i_type i1 = T_DIR /\ i_inum i1 = i_inum i /\ i_ref i1 = i_ref i)
    as (Ed & Es & Et & Ei & Er) by (by rewrite (bs_inode _ _ _ _ Hb1)).
  destruct r as [[ip off]|].
  { destruct Hr as (n & Hm & Hg). wfocus. apply wpe_wp. eapply wp_mono; [eapply iput_got; [exact Hg|]|].
    - apply Forall_insert; [done|]. rewrite Er. by eapply Forall_lookup_1 in Hrefs.
    - cbv beta. intros [] s2 (Eb & Hk). wsteps. exists i1. left. rewrite Eb. eauto. }
  destruct Hr as [Hm Hl1]. wsteps.
  assert (fs_inode s1 !! dp = Some i1) as Hip1 by (rewrite Hl1; by eapply lookup_set_inode).
  rewrite (inode_at_lookup dp s1 i1 Hip1).
  pose proof (bs_alloc _ _ _ _ Hb1) as Ha1. rewrite <- Ed in Ha1 |- *.
  rewrite <- Es in Hsz, Hdv. eapply wpe_mono; [apply dirlink_place; [done|done|apply Hb1|done|by rewrite Et|done]| |by left].
  cbv beta. intros r s2 (Hfe & i2 & Hl2 & Hb2). cbv beta zeta. set (off := default _ _) in *.
  assert (bstep (fs_bio s) (fs_bio s2) i i2) as Hb by (eapply bstep_trans; [done|done|apply Ha]).
  assert (i_dev i2 = i_dev i1 /\ i_size i2 = i_size i1 /\ i_type i2 = T_DIR /\ i_inum i2 = i_inum i)
    as (Ed2 & Es2 & Et2 & Ei2) by (rewrite (bs_inode _ _ _ _ Hb2), <- Et, <- Ei; done).
  pose proof (bs_alloc _ _ _ _ Hb2) as Ha2. rewrite <- Ed2 in Ha2.
  eapply wpe_mono; [eapply (dirlink_write s s2 dp i i2);
    [rewrite Hl2; by eapply lookup_set_inode|done|done|by rewrite Et2|by rewrite <- Es|by rewrite <- Es| |done|]| |].
  - rewrite Ed2, Ei2, Ed. by rewrite (fe_sb _ _ _ _ (bs_ext _ _ _ _ Hb)).
  - exact (free_entry_bytes' _ _ _ _ _ Hb2 Hdv ltac:(lia) Hfe).
  - cbv beta. intros r3 s3 (-> & i3 & Hl3 & Hlk). exists i3. right. split_and!; [done|done| |by exists off].
    by rewrite Hl3, Hl2, Hl1, !list_insert_insert_eq.
  - cbv beta. rewrite Ed2. intros msg s3 [Hn|(-> & Hfe' & Hlt)]; [by left|]. right. right. eauto.
Qed.

End dirlink_specs.

(** The new entry is the one a lookup of the name finds. *)
Lemma linked_lookup s s' i i' name inum off :
  linked s s' i i' name inum off -> Forall is_byte name -> u16 inum <> 0 -> 0 <= i_size i <= MAXFILE * BSIZE ->
  first_match s i name (dir_end (i_size i)) None ->
  first_match s' i' name (dir_end (i_size i')) (Some (u16 inum, off)).
Proof.
  intros [(k & Hk & -> & Hle & _) Hroom Hi _ _ Hnew Hold _] Hnb H0 Hsz Hno.
  assert (forall x, 0 <= x -> x <= dir_end x) as Hend.
  { intros x Hx. unfold dir_end. pose proof (Z.mul_succ_div_gt (x + BSIZE - 1) BSIZE ltac:(done)).
    change BSIZE with 512 in *. lia. }
  split.
  - unfold dent_match. rewrite Hnew. unfold de_match, namecmp. cbn [de_inum de_name].
    rewrite (proj2 (Z.eqb_neq _ _) H0), strncmp_strncpy by done. done.
  - exists k. split_and!; [done|done| |].
    + rewrite Hi. cbn [i_size i_set_size]. pose proof (Hend (Z.max (i_size i) (k * sizeof_dirent + sizeof_dirent))).
      change sizeof_dirent with 16 in *. lia.
    + intros j Hj. unfold dent_match. rewrite Hold; [|lia|change sizeof_dirent with 16 in *; lia..].
      apply (Hno j); [lia|]. pose proof (Hend (i_size i)). change sizeof_dirent with 16 in *. lia.
Qed.
