(* ===== verification/Path.v ===== *)
(** * Path names (kernel/fs.c, [skipelem], [namex], [namei], [nameiparent])

    A path is taken apart one element at a time; [namex] follows the elements
    through the directories. *)

From S2P Require Import Prelude Monad Params CString ProcTable Ide Bio Block Inode Bmap Content.
From S2P Require Import Itrunc Dir.

(** ** Definitions *)

Definition SLASH : Z := 47.

(** [while( *path == '/') path++;] *)
Fixpoint skip_slashes (p : list Z) : list Z :=
  match p with
  | c :: p' => if c =? SLASH then skip_slashes p' else p
  | [] => []
  end.

(** [while( *path != '/' && *path != 0) path++;]: the bytes passed and the
    rest. *)
Fixpoint span_elem (p : list Z) : list Z * list Z :=
  match p with
  | c :: p' => if (c =? SLASH) || (c =? 0) then ([], p)
               else let '(e, r) := span_elem p' in (c :: e, r)
  | [] => ([], [])
  end.

(** The buffer [name] after the element [e] was copied into it. *)
Definition put_name (e name : list Z) : list Z :=
  if DIRSIZ <=? Z.of_nat (length e) then splice 0 (slice 0 DIRSIZ e) name
  else splice 0 (e ++ [0]) name.

(** The rest of the path and the buffer [name]; [None] is the null
    pointer. *)
Definition skipelem (path name : list Z) : option (list Z * list Z) :=
  let s := skip_slashes path in
  if deref s =? 0 then None
  else let '(e, p) := span_elem s in Some (skip_slashes p, put_name e name).

(** One round of the loop of [namex]. *)
Definition namex_step (parent : bool) '(path, ip, name)
  : M fs ((list Z * option nat * list Z) + (option nat * list Z)) :=
  match skipelem path name with
  | None =>
      match ip with
      | Some i => if parent then iput i;;; ret (inr (None, name)) else ret (inr (ip, name))
      | None => ret (inr (None, name))
      end
  | Some (path, name) =>
      ilock ip;;;
      match ip with
      | None => panic "ilock"
      | Some dp =>
          let! i := gets (inode_at dp) in
          if negb (i_type i =? T_DIR) then iunlockput dp;;; ret (inr (None, name))
          else if parent && (deref path =? 0) then
            iunlock (Some dp);;; ret (inr (Some dp, name))
          else
            let! next := dirlookup dp name in
            match next with
            | None => iunlockput dp;;; ret (inr (None, name))
            | Some (nx, _) => iunlockput dp;;; ret (inl (path, Some nx, name))
            end
      end
  end.

Definition namex_loop (fuel : nat) (path : list Z) (parent : bool) (ip : option nat) (name : list Z) :=
  while_fuel fuel (namex_step parent) (path, ip, name).

(** The start of the walk: the root or the working directory. *)
Definition namex_start (path : list Z) : M fs (option nat) :=
  if deref path =? SLASH then
    let! ip := iget ROOTDEV ROOTINO in ret (Some ip)
  else
    let! cwd := gets (fun s => p_cwd (cur_proc (lget pt_of_fs s))) in
    match cwd with
    | Some ip => let! ip := idup ip in ret (Some ip)
    | None => ret None
    end.

(** The inode and the last element.  Every round of the loop shortens the
    path. *)
Definition namex (path : list Z) (parent : bool) (name : list Z) : M fs (option nat * list Z) :=
  let! ip := namex_start path in
  namex_loop (S (length path)) path parent ip name.

Definition namei (path : list Z) : M fs (option nat) :=
  let! r := namex path false (zeros DIRSIZ) in ret (fst r).

Definition nameiparent (path name : list Z) : M fs (option nat * list Z) := namex path true name.

(** ** The elements of a path *)

(** The specification: the nonempty strings between the slashes. *)
Fixpoint split_slash (p : list Z) : list (list Z) :=
  match p with
  | [] => [[]]
  | c :: p => if c =? SLASH then [] :: split_slash p
              else match split_slash p with
                   | e :: es => (c :: e) :: es
                   | [] => [[c]]
                   end
  end.

Definition elems (path : list Z) : list (list Z) := filter (fun e => e <> []) (split_slash (cstr path)).

Lemma elems_bytes (path : list Z) : Forall is_byte path -> Forall (Forall is_byte) (elems path).
Proof.
  intros Hp. unfold elems. assert (Forall is_byte (cstr path)) as Hc by by apply Forall_take.
  assert (Forall (Forall is_byte) (split_slash (cstr path))) as Hs.
  2:{ rewrite Forall_forall in Hs |- *. intros e [_ He]%list_elem_of_filter. auto. }
  induction Hc as [|c p Hb Hc IH]; cbn [split_slash]; [by repeat constructor|].
  destruct (c =? SLASH); [by constructor|]. destruct (split_slash p) as [|e es]; [by apply Forall_singleton, Forall_singleton|].
  apply Forall_cons in IH as [He Hes]. apply Forall_cons_2; [by apply Forall_cons_2|done].
Qed.

Lemma split_slash_nonempty p : split_slash p <> [].
Proof. destruct p as [|c p]; simpl; [done|]. destruct (c =? SLASH); [done|]. by destruct (split_slash p). Qed.

Lemma cstr_cons c p : cstr (c :: p) = if c =? 0 then [] else c :: cstr p.
Proof.
  unfold cstr. simpl. destruct (c =? 0); [done|]. pose proof (strlen_nonneg p).
  replace (Z.to_nat (1 + strlen p)) with (S (Z.to_nat (strlen p))) by lia. done.
Qed.

Lemma elems_slash p : elems (SLASH :: p) = elems p.
Proof. unfold elems. rewrite cstr_cons. simpl. done. Qed.

Lemma elems_skip p : elems (skip_slashes p) = elems p.
Proof.
  induction p as [|c p IH]; [done|]. simpl. destruct (Z.eqb_spec c SLASH) as [->|]; [|done].
  by rewrite IH, elems_slash.
Qed.

Lemma skip_slashes_head p : deref (skip_slashes p) <> SLASH.
Proof.
  induction p as [|c p IH]; [done|]. simpl. by destruct (Z.eqb_spec c SLASH) as [->|].
Qed.

Lemma skip_slashes_length p : (length (skip_slashes p) <= length p)%nat.
Proof. induction p as [|c p IH]; simpl; [done|]. destruct (c =? SLASH); simpl; lia. Qed.

Lemma span_elem_app p : p = (span_elem p).1 ++ (span_elem p).2.
Proof.
  induction p as [|c p IH]; [done|]. simpl. destruct ((c =? SLASH) || (c =? 0)); [done|].
  destruct (span_elem p) as [e r]. simpl in *. by rewrite <- IH.
Qed.

(** The first string up to a slash, with its rest. *)
Lemma split_span p :
  let '(e, r) := span_elem p in
  split_slash (cstr p) = e :: (if deref r =? SLASH then split_slash (cstr (tail r)) else []).
Proof.
  induction p as [|c p IH]; [done|]. cbn [span_elem]. rewrite cstr_cons.
  destruct (Z.eqb_spec c 0) as [->|H0]; [by rewrite orb_true_r|].
  destruct (Z.eqb_spec c SLASH) as [->|Hs]; [done|]. cbn [orb].
  destruct (span_elem p) as [e r]. cbn [split_slash]. rewrite (proj2 (Z.eqb_neq c SLASH)), IH by done. done.
Qed.

Lemma span_elem_rest p : deref (span_elem p).2 = SLASH \/ deref (span_elem p).2 = 0.
Proof.
  induction p as [|c p IH]; [by right|]. simpl.
  destruct (Z.eqb_spec c SLASH) as [->|]; [by left|]. destruct (Z.eqb_spec c 0) as [->|]; [by right|].
  simpl. by destruct (span_elem p).
Qed.

(** [skipelem] takes off the first element. *)
Lemma skipelem_spec path name :
  match elems path with
  | [] => skipelem path name = None
  | e :: es => exists rest, skipelem path name = Some (rest, put_name e name) /\
      elems rest = es /\ deref rest <> SLASH /\ (length rest < length path)%nat
  end.
Proof.
  unfold skipelem. rewrite <- elems_skip. pose proof (skip_slashes_head path) as Hh.
  pose proof (skip_slashes_length path) as Hlen. set (s := skip_slashes path) in *. clearbody s.
  destruct s as [|c s]; [done|]. simpl in Hh. cbn [deref head default from_option id].
  destruct (Z.eqb_spec c 0) as [->|H0].
  { unfold elems. by rewrite cstr_cons. }
  pose proof (split_span (c :: s)) as Hsp. pose proof (span_elem_app (c :: s)) as Happ.
  pose proof (span_elem_rest (c :: s)) as Hr.
  unfold elems at 1. cbn [span_elem] in *. rewrite (proj2 (Z.eqb_neq c SLASH)), (proj2 (Z.eqb_neq c 0)) in * by done.
  cbn [orb] in *. destruct (span_elem s) as [e r]. rewrite Hsp, filter_cons_True by done. cbn [fst snd] in *.
  exists (skip_slashes r). split; [done|]. split_and!.
  - destruct Hr as [Hr|Hr]; rewrite Hr; cbn [Z.eqb].
    + rewrite Z.eqb_refl. destruct r as [|x r]; [done|]. cbn in Hr. subst x.
      by rewrite elems_skip, elems_slash.
    + change (0 =? SLASH) with false. destruct r as [|x r]; [done|]. cbn in Hr. subst x. simpl.
      unfold elems. by rewrite cstr_cons.
  - apply skip_slashes_head.
  - pose proof (skip_slashes_length r). apply (f_equal length) in Happ. rewrite length_app in Happ. cbn in *. lia.
Qed.

(** Each round of the walk shortens the path, so the loop ends. *)
Lemma namex_step_shorter parent path ip name s x s' :
  namex_step parent (path, ip, name) s = Ret (inl x) s' -> (length x.1.1 < length path)%nat.
Proof.
  unfold namex_step. pose proof (skipelem_spec path name) as Hs. destruct (elems path) as [|e es].
  - rewrite Hs. destruct ip as [i|]; [destruct parent|]; unfold bind, ret; try done. by destruct (iput i s).
  - destruct Hs as (rest & -> & _ & _ & Hlt). unfold bind, ret, panic, gets.
    repeat case_match; intros; simplify_eq; exact Hlt.
Qed.

Lemma namex_fuel fuel path parent ip name s :
  (length path < fuel)%nat ->
  namex_loop fuel path parent ip name s = namex_loop (S (length path)) path parent ip name s.
Proof.
  intros Hf. apply (while_fuel_stable (fun x => length x.1.1)); [|done|by simpl; lia].
  intros [[p i] n] s0 x' s' Hx. by eapply namex_step_shorter.
Qed.
