(* ===== verification/Ends.v ===== *)
(** * The file system's operations end

    Whatever is on the disk and in the inode cache, the operations of
    kernel/bio.c and kernel/fs.c that a path name's walk uses return, panic or
    go to sleep to wait for another process: none of their loops runs for
    ever.  All they need is that the buffers of the cache are on the ring and
    that the disk has no request pending. *)

From S2P Require Import Prelude Monad Params CString ProcTable Ide Bio Lru Block Inode Dir Path.

(** ** Programs that end *)

(** [m] ends when started in a state of [I]: on return the state is again in
    [I] and the result in [R]; a panic and a sleep are ends as well. *)
Definition nohang {S A} (m : M S A) (Q : A -> S -> Prop) (s : S) : Prop :=
  match m s with Ret a s' => Q a s' | Hang _ => False | _ => True end.

Definition ends {S A} (I : S -> Prop) (R : A -> Prop) (m : M S A) : Prop :=
  forall s, I s -> nohang m (fun a s' => I s' /\ R a) s.

Definition any {A} (_ : A) : Prop := True.

Section rules.
Context {S : Type} (I : S -> Prop).

Lemma nohang_bind {A B} (m : M S A) (k : A -> M S B) Q s :
  nohang m (fun a s' => nohang (k a) Q s') s -> nohang (bind m k) Q s.
Proof. unfold nohang, bind. by destruct (m s). Qed.

Lemma nohang_ret {A} (a : A) (Q : A -> S -> Prop) s : Q a s -> nohang (ret a) Q s.
Proof. done. Qed.
Lemma nohang_gets {A} (f : S -> A) Q s : Q (f s) s -> nohang (gets f) Q s.
Proof. done. Qed.
Lemma nohang_modify f (Q : unit -> S -> Prop) s : Q tt (f s) -> nohang (modify f) Q s.
Proof. done. Qed.
Lemma nohang_zoom {T A} (l : lens S T) (m : M T A) Q s :
  nohang m (fun a t => Q a (lset l t s)) (lget l s) -> nohang (zoom l m) Q s.
Proof. unfold nohang, zoom. by destruct (m (lget l s)). Qed.

Lemma nohang_wp {A} (m : M S A) (P Q : A -> S -> Prop) s :
  wp m P s -> (forall a s', P a s' -> Q a s') -> nohang m Q s.
Proof. unfold wp, nohang. intros Hm HQ. destruct (m s); [by apply HQ|done..]. Qed.

Lemma ends_bind {A B} (R : A -> Prop) (R' : B -> Prop) (m : M S A) (k : A -> M S B) :
  ends I R m -> (forall a, R a -> ends I R' (k a)) -> ends I R' (bind m k).
Proof.
  intros Hm Hk s Hs. specialize (Hm s Hs). apply nohang_bind. revert Hm. unfold nohang at 1 2.
  destruct (m s) as [a s'| | |]; [|done..]. intros [Hs' Ha]. by apply Hk.
Qed.

Lemma ends_weaken {A} (R R' : A -> Prop) (m : M S A) : ends I R m -> (forall a, R a -> R' a) -> ends I R' m.
Proof.
  intros Hm HR s Hs. specialize (Hm s Hs). revert Hm. unfold nohang.
  destruct (m s); [|done..]. intros [? ?]. auto.
Qed.

Lemma ends_any {A} (R : A -> Prop) (m : M S A) : ends I R m -> ends I any m.
Proof. intros Hm. by eapply ends_weaken. Qed.

Lemma ends_ret {A} (R : A -> Prop) a : R a -> ends I R (ret a).
Proof. intros Ha s Hs. by split. Qed.

Lemma ends_gets {A} (f : S -> A) : ends I any (gets f).
Proof. intros s Hs. by split. Qed.

Lemma ends_modify f : (forall s, I s -> I (f s)) -> ends I any (modify f).
Proof. intros Hf s Hs. split; [by apply Hf|done]. Qed.

Lemma ends_panic {A} (R : A -> Prop) msg : ends I R (panic msg).
Proof. intros s Hs. exact Logic.I. Qed.

Lemma ends_zoom {T A} (l : lens S T) (J : T -> Prop) (R : A -> Prop) (m : M T A) :
  (forall s, I s -> J (lget l s)) -> (forall s t, I s -> J t -> I (lset l t s)) ->
  ends J R m -> ends I R (zoom l m).
Proof.
  intros H1 H2 Hm s Hs. specialize (Hm _ (H1 s Hs)). revert Hm. unfold nohang, zoom.
  destruct (m (lget l s)); [|done..]. intros [? ?]. split; [by apply H2|done].
Qed.

Lemma ends_for_each {A} (l : list A) (f : A -> M S unit) :
  (forall x, ends I any (f x)) -> ends I any (for_each l f).
Proof.
  intros Hf. induction l as [|x l IH]; [by apply ends_ret|]. cbn [for_each].
  eapply ends_bind; [apply Hf|]. by intros.
Qed.

Lemma ends_for_find {A B} (l : list A) (f : A -> M S (option B)) :
  (forall x, ends I any (f x)) -> ends I any (for_find l f).
Proof.
  intros Hf. induction l as [|x l IH]; [by apply ends_ret|]. cbn [for_find].
  eapply ends_bind; [apply Hf|]. intros [b|] _; [by apply ends_ret|done].
Qed.

(** A loop whose variant decreases in every round that goes on, with enough
    fuel for it. *)
Lemma ends_while {A B} (mu : A -> nat) fuel (f : A -> M S (A + B)) x :
  (forall x, ends I any (f x)) ->
  (forall x s x' s', f x s = Ret (inl x') s' -> (mu x' < mu x)%nat) ->
  (mu x < fuel)%nat -> ends I any (while_fuel fuel f x).
Proof.
  intros Hf Hmu. revert x. induction fuel as [|fuel IH]; intros x Hlt; [lia|]. intros s Hs. cbn [while_fuel].
  apply nohang_bind. specialize (Hf x s Hs). specialize (Hmu x s). revert Hf Hmu. unfold nohang at 1 2.
  destruct (f x s) as [[x'|b] s'| | |]; [|done..]. intros [Hs' _] Hmu. specialize (Hmu x' s' eq_refl).
  apply IH; [lia|done].
Qed.
End rules.

Create HintDb ends.
#[export] Hint Resolve ends_ret ends_gets ends_panic ends_for_each ends_for_find : ends.

(** Take a program apart; callees are in the hint database. *)
Ltac ends_step :=
  cbv beta zeta; lazymatch goal with
  | |- ends _ _ (bind _ _) => eapply ends_bind; [|intros ? ?]
  | |- ends _ _ (if ?b then _ else _) => destruct b
  | |- ends _ _ (match ?x with _ => _ end) => destruct x
  | |- ends _ _ (gets _) => apply ends_gets
  | |- ends _ _ (ret _) => apply ends_ret
  | |- ends _ _ (panic _) => apply ends_panic
  | |- any _ => exact Logic.I
  | |- ends _ _ (zoom _ (bind _ _)) => eapply ends_zoom; [done|done|]
  | |- ends _ _ (for_each _ _) => apply ends_for_each; intros ?
  | |- ends _ _ (for_find _ _) => apply ends_for_find; intros ?
  end.
Ltac ends_auto := repeat first [ends_step | by eauto with ends | done]; try exact Logic.I.

(** ** The buffer cache *)

(** The buffers are on the ring and no request is pending. *)
Record ring_ok (s : bio) : Prop := {
  ro_len : length (bio_buf s) = S HEAD;
  ro_queue : bio_queue s = None;
  ro_ring : exists order, ring s order;
}.

Definition is_buf (i : nat) : Prop := (i < HEAD)%nat.

Lemma holds_ring_ok s H : holds s H -> ring_ok s.
Proof. intros [[[] ? ? ? ? ?] _]. by split. Qed.

Lemma ring_ok_upd i f s :
  (forall b, b_next (f b) = b_next b /\ b_prev (f b) = b_prev b) -> ring_ok s -> ring_ok (upd_buf i f s).
Proof.
  intros Hf [Hl Hq [order Hr]]. split; [by rewrite length_upd_buf|done|]. exists order. by apply ring_upd_flags.
Qed.

Lemma ring_ok_insert i b s s' :
  ring_ok s -> is_buf i -> bio_buf s' = <[i := b]> (bio_buf s) -> bio_queue s' = None ->
  b_next b = nxt s i -> b_prev b = prv s i -> ring_ok s'.
Proof.
  intros [Hl Hq [order Hr]] Hi E Eq En Ep. unfold is_buf in Hi. assert (i < length (bio_buf s))%nat as Hlt by lia.
  split; [by rewrite E, length_insert|done|]. exists order. revert Hr. unfold nxt, prv in *.
  apply ring_same; intros j; unfold nxt, prv; rewrite (buf_at_insert i b s s' j E Hlt); case_decide as Ej; congruence.
Qed.

Lemma ends_bget dev sector : ends ring_ok is_buf (bget dev sector).
Proof.
  intros s Hs. pose proof Hs as [Hl Hq [order Hr]]. unfold nohang. rewrite (bget_eq s order dev sector Hr).
  destruct (head (filter _ order)) as [i|] eqn:Ei.
  - apply head_filter_Some in Ei as [_ Hi%(ring_elem _ _ _ Hr)]. destruct (busy s i).
    + unfold zoom, sleep. by destruct (pt_cur _).
    + split; [by apply ring_ok_upd|done].
  - destruct (head (filter _ (reverse order))) as [i|] eqn:Ep; [|done].
    apply head_filter_Some in Ep as [_ Hi]. rewrite elem_of_reverse, (ring_elem _ _ _ Hr) in Hi.
    split; [|done]. by repeat apply ring_ok_upd.
Qed.

(** The flags after a request: valid and clean. *)
Lemma served_flags f : Z.land (Z.ldiff (Z.lor f B_VALID) B_DIRTY) (Z.lor B_VALID B_DIRTY) = B_VALID.
Proof.
  apply Z.bits_inj'. intros n Hn. rewrite Z.land_spec, Z.ldiff_spec, Z.lor_spec.
  change B_VALID with (2 ^ 1). change B_DIRTY with (2 ^ 2). rewrite Z.lor_spec, !Z.pow2_bits_eqb by lia.
  destruct (Z.eqb_spec 1 n), (Z.eqb_spec 2 n); subst; try lia; by rewrite ?orb_true_r, ?andb_false_r.
Qed.

Ltac nstep :=
  cbv beta iota;
  lazymatch goal with
  | |- nohang (bind _ _) _ _ => apply nohang_bind
  | |- nohang (ret _) _ _ => apply nohang_ret
  | |- nohang (gets _) _ _ => apply nohang_gets
  | |- nohang (modify _) _ _ => apply nohang_modify
  | |- nohang (zoom _ _) _ _ => apply nohang_zoom
  | |- nohang (panic _) _ _ => exact Logic.I
  | |- nohang (sleep_on _) _ _ => exact Logic.I
  end.
Ltac nsteps := repeat nstep; cbv beta iota.

Lemma iderw_submit_nohang i s (Q : unit -> bio -> Prop) :
  ring_ok s -> is_buf i ->
  (forall tf d, let b := buf_at i s in
     (Z.land (b_flags b) (Z.lor B_VALID B_DIRTY) =? B_VALID) = false ->
     Q tt (Bio (bio_pt s) (<[i := b_set_qnext None b]> (bio_buf s)) (Some i) (bio_havedisk1 s) tf d (bio_bad s))) ->
  nohang (iderw_submit i) Q s.
Proof.
  intros [Hl Hq _] Hi HQ. assert (bio_buf s !! i = Some (buf_at i s)) as Hb by (apply lookup_buf_at; unfold is_buf in Hi; lia).
  destruct s as [pt bufs q h tf d bad]. cbn [bio_pt bio_buf bio_queue bio_havedisk1 bio_bad] in *. subst q.
  set (b := buf_at i _) in *. unfold iderw_submit. nsteps. fold b.
  destruct (Z.land (b_flags b) B_BUSY =? 0); [nsteps|].
  destruct (Z.land (b_flags b) (Z.lor B_VALID B_DIRTY) =? B_VALID) eqn:Ef; [nsteps|].
  nsteps. destruct (negb (b_dev b =? 0) && negb _); nsteps. cbn [bio_queue upd_buf bio_set_buf]. nsteps.
  unfold idestart. nsteps. unfold upd_buf. cbn [bio_set_buf bio_set_queue bio_buf].
  rewrite (list_alter_Some _ bufs i b) by done.
  destruct (Z.land _ B_DIRTY =? 0); nsteps; [by apply HQ|]. destruct (bio_bad _ _); by apply HQ.
Qed.

Lemma ends_iderw i : is_buf i -> ends ring_ok any (iderw i).
Proof.
  intros Hi s Hs. unfold iderw. apply nohang_bind, iderw_submit_nohang; [done|done|]. intros tf d b Ef.
  set (bufs := <[i := b_set_qnext None b]> (bio_buf s)).
  assert (i < length (bio_buf s))%nat as Hlt by (rewrite (ro_len s Hs); unfold is_buf in Hi; lia).
  assert (bufs !! i = Some (b_set_qnext None b)) as Hb by (by apply list_lookup_insert_eq).
  cbn [while_fuel]. nstep. unfold iderw_wait at 1. nsteps. rewrite (buf_at_lookup _ _ (b_set_qnext None b)) by done.
  cbn [b_flags b_set_qnext]. rewrite Ef. nsteps. cbn [bio_pt].
  destruct (pt_cur (bio_pt s)) as [c|]; [|nsteps]. nsteps. cbn [lset lget pt_of_bio bio_set_pt bio_pt].
  eapply nohang_wp; [by apply ideintr_last|]. cbv beta. intros _ s1 ->. nsteps.
  destruct (decide _); [|nsteps]. nsteps. unfold sleep_return. nsteps. unfold iderw_wait. nsteps.
  cbn [lset lget pt_of_bio bio_set_pt bio_pt bio_buf bio_queue bio_havedisk1 bio_tf bio_disk bio_bad].
  erewrite buf_at_lookup by (cbn [bio_buf]; apply list_lookup_insert_eq; unfold bufs; by rewrite length_insert).
  cbn [b_flags b_set_flags]. rewrite served_flags, Z.eqb_refl. nsteps. split; [|done].
  unfold bufs. rewrite list_insert_insert_eq. by eapply (ring_ok_insert i _ s).
Qed.

Lemma ends_bread dev sector : ends ring_ok is_buf (bread dev sector).
Proof.
  unfold bread. eapply ends_bind; [apply ends_bget|]. intros i Hi. ends_step; [apply ends_gets|].
  eapply (ends_bind _ any); [|intros _ _; by apply ends_ret].
  destruct (_ =? 0); [by apply ends_iderw|by apply ends_ret].
Qed.

Lemma ends_bwrite i : is_buf i -> ends ring_ok any (bwrite i).
Proof.
  intros Hi. unfold bwrite. ends_step; [apply ends_gets|]. ends_step; [apply ends_panic|].
  eapply (ends_bind _ any); [|intros _ _; by apply ends_iderw]. apply ends_modify. intros s. by apply ring_ok_upd.
Qed.

Lemma ends_set_bdata i d : ends ring_ok any (set_bdata i d).
Proof. apply ends_modify. intros s. by apply ring_ok_upd. Qed.

Lemma ends_brelse i : is_buf i -> ends ring_ok any (brelse i).
Proof.
  intros Hi s Hs. pose proof Hs as [Hl Hq [order Hr]]. unfold nohang, brelse at 1, bind at 1, gets at 1.
  destruct (Z.land (b_flags (buf_at i s)) B_BUSY =? 0) eqn:Ef; [done|].
  assert (i ∈ order) as (l1 & l2 & ->)%list_elem_of_split by (by apply (ring_elem _ _ _ Hr)).
  cbv [bind gets modify zoom wakeup]. cbn [lget lset pt_of_bio].
  split; [|done]. change (ring_ok (bio_set_pt (wakeup1 (ChBuf i) (bio_pt s))
    (upd_buf i (fun b => b_set_flags (Z.ldiff (b_flags b) B_BUSY) b) (move_front i s)))).
  assert (ring_ok (move_front i s)) as Hm.
  { split; [unfold move_front; by rewrite !length_upd_buf|done|]. exists (i :: l1 ++ l2). by apply ring_move_front. }
  apply (ring_ok_upd i (fun b => b_set_flags (Z.ldiff (b_flags b) B_BUSY) b)) in Hm as [? ? [o Ho]]; [|done].
  split; [done|done|]. exists o. exact Ho.
Qed.

#[export] Hint Resolve ends_bread ends_bwrite ends_set_bdata ends_brelse : ends.

(** ** The block allocator *)

Lemma ends_readsb dev : ends ring_ok any (readsb dev).
Proof. unfold readsb. ends_auto. Qed.
#[export] Hint Resolve ends_readsb : ends.

Lemma ends_balloc dev : ends ring_ok any (balloc dev).
Proof. unfold balloc, balloc_scan, balloc_block. ends_auto. Qed.

Lemma ends_bfree dev b : ends ring_ok any (bfree dev b).
Proof. unfold bfree, bzero. ends_auto. Qed.
#[export] Hint Resolve ends_balloc ends_bfree : ends.

(** ** Inodes *)

(** The inode cache is arbitrary. *)
Definition fs_ring_ok (s : fs) : Prop := ring_ok (fs_bio s).

Lemma ends_bio {A} (R : A -> Prop) (m : M bio A) : ends ring_ok R m -> ends fs_ring_ok R (zoom bio_of_fs m).
Proof. by apply ends_zoom. Qed.

Lemma ends_upd_inode ip f : ends fs_ring_ok any (modify (upd_inode ip f)).
Proof. by apply ends_modify. Qed.

Lemma ends_pt {A} (R : A -> Prop) (m : M ptable A) :
  ends (fun _ => True) R m -> ends fs_ring_ok R (zoom pt_of_fs m).
Proof.
  apply ends_zoom; [done|]. intros s t [? ? [o Ho]] _. split; [done|done|]. exists o. exact Ho.
Qed.

Lemma ends_sleep {A} (R : A -> Prop) c : ends (fun _ => True) R (sleep (A := A) c).
Proof. intros t _. unfold nohang, sleep. by destruct (pt_cur t). Qed.

Lemma ends_wakeup c : ends (fun _ : ptable => True) any (wakeup c).
Proof. by apply ends_modify. Qed.

#[export] Hint Resolve ends_bio ends_upd_inode ends_pt ends_sleep ends_wakeup : ends.

Lemma ends_iget dev inum : ends fs_ring_ok any (iget dev inum).
Proof. unfold iget. ends_auto. Qed.

Lemma ends_idup ip : ends fs_ring_ok any (idup ip).
Proof. unfold idup. ends_auto. Qed.

Lemma ends_ilock oip : ends fs_ring_ok any (ilock oip).
Proof. unfold ilock. ends_auto. Qed.

Lemma ends_iunlock oip : ends fs_ring_ok any (iunlock oip).
Proof. unfold iunlock. ends_auto. Qed.

Lemma ends_iupdate ip : ends fs_ring_ok any (iupdate ip).
Proof. unfold iupdate. ends_auto. Qed.
#[export] Hint Resolve ends_iget ends_idup ends_ilock ends_iunlock ends_iupdate : ends.

Lemma ends_bmap ip bn : ends fs_ring_ok any (bmap ip bn).
Proof. unfold bmap. ends_auto. Qed.

Lemma ends_itrunc ip : ends fs_ring_ok any (itrunc ip).
Proof. unfold itrunc, itrunc_dir, itrunc_ind, itrunc_entries. ends_auto. Qed.
#[export] Hint Resolve ends_bmap ends_itrunc : ends.

Lemma ends_iput ip : ends fs_ring_ok any (iput ip).
Proof. unfold iput. ends_auto. Qed.
#[export] Hint Resolve ends_iput : ends.

Lemma ends_iunlockput ip : ends fs_ring_ok any (iunlockput ip).
Proof. unfold iunlockput. ends_auto. Qed.
#[export] Hint Resolve ends_iunlockput : ends.

(** ** Directories and paths *)

Lemma ends_dirlookup dp name : ends fs_ring_ok any (dirlookup dp name).
Proof. unfold dirlookup, dir_block. ends_auto. Qed.
#[export] Hint Resolve ends_dirlookup : ends.

Lemma ends_namex_step parent x : ends fs_ring_ok any (namex_step parent x).
Proof. unfold namex_step. ends_auto. Qed.

Lemma ends_namex_start path : ends fs_ring_ok any (namex_start path).
Proof. unfold namex_start. ends_auto. Qed.

(** Each round takes an element off the path. *)
Lemma ends_namex path parent name : ends fs_ring_ok any (namex path parent name).
Proof.
  unfold namex. eapply ends_bind; [apply ends_namex_start|]. intros ip _. unfold namex_loop.
  apply (ends_while _ (fun x => length x.1.1)); [apply ends_namex_step| |cbn; lia].
  intros [[p i] n] s x' s' Hx. by eapply namex_step_shorter.
Qed.
