(* ===== verification/Walk.v ===== *)
(** * Following a path to a file (kernel/fs.c, [namei])

    On a file system that nobody else is changing, [namei] returns the inode
    that the entries of the directories on the path lead to, with one
    reference more than before; no other reference is left behind and nothing
    on the disk changes. *)

From S2P Require Import Prelude Monad Params CString ProcTable Ide Bio Block Alloc Inode Bmap.
From S2P Require Import Icache Content Itrunc Dir Path.

(** ** Reading a directory whose blocks are all there *)

(** The disk and the cached inodes are what they were. *)
Definition same_fs (s s' : fs) : Prop :=
  fs_inode s' = fs_inode s /\ keeps ∅ (fs_bio s) (fs_bio s') /\ bio_disk (fs_bio s') = bio_disk (fs_bio s).

Lemma same_fs_trans s s1 s2 : same_fs s s1 -> same_fs s1 s2 -> same_fs s s2.
Proof. intros (E1 & K1 & D1) (E2 & K2 & D2). split_and!; [congruence|by eapply keeps_trans|congruence]. Qed.

Lemma wp_both {S A} (m : M S A) (P : A -> S -> Prop) (Q : A -> S -> Prop) E s :
  wp m P s -> wpe m Q E s -> wp m (fun a s' => P a s' /\ Q a s') s.
Proof. unfold wp, wpe. by destruct (m s). Qed.

(** The file's blocks and bytes are on the disk. *)
Lemma slot_on_disk s s' i k : bio_disk s' = bio_disk s -> slot s' i k = slot s i k.
Proof. intros D. unfold slot, sector_of. by rewrite D. Qed.

Lemma dent_match_disk s s' i name o : bio_disk s' = bio_disk s -> dent_match s' i name o = dent_match s i name o.
Proof. intros D. unfold dent_match, dent, fbyte, slot, sector_of. by rewrite D. Qed.

(** [iget] when a slot is free. *)
Lemma iget_present s dev inum :
  icache_ok (fs_inode s) -> Exists (fun x => i_ref x = 0) (fs_inode s) ->
  wp (iget dev inum) (fun ip s' => fs_bio s' = fs_bio s /\ got dev inum (fs_inode s) (fs_inode s') ip) s.
Proof.
  intros Hok Hfree. pose proof (iget_spec s dev inum Hok) as Hw. unfold wp, wpe in *.
  destruct (iget dev inum s) as [ip s'|msg s'| |]; try done.
  destruct Hw as (_ & _ & Hall). apply Exists_exists in Hfree as (x & Hx & Hr). rewrite Forall_forall in Hall.
  by destruct (Hall x Hx).
Qed.

(** [bmap] of a block that is there. *)
Lemma bmap_present s ip i bn :
  fs_inode s !! ip = Some i -> alloc_inv (fs_bio s) ∅ (i_dev i) -> file_ok (fs_bio s) i ->
  0 <= bn < MAXFILE -> slot (fs_bio s) i (pos bn) <> 0 ->
  wp (bmap ip bn) (fun b s' => b = slot (fs_bio s) i (pos bn) /\ same_fs s s') s.
Proof.
  intros Hip Ha Hf Hbn Hs. unfold bmap. wsteps. rewrite (inode_at_lookup ip s i Hip). revert Hs. unfold pos.
  destruct (Z.ltb_spec bn NDIRECT) as [Hlt|Hge]; intros Hs.
  - assert (slot (fs_bio s) i bn = nthb (i_addrs i) bn) as E.
    { unfold slot. by rewrite (proj2 (Z.ltb_lt bn (NDIRECT + 1))) by lia. }
    rewrite E in *. rewrite (proj2 (Z.eqb_neq _ 0) Hs). wsteps. split; [done|].
    split_and!; [done|apply keeps_refl, Ha|done].
  - assert (0 <= bn - NDIRECT < NINDIRECT) as Hj by (unfold MAXFILE in Hbn; lia).
    rewrite (proj2 (Z.ltb_lt (bn - NDIRECT) NINDIRECT)) by lia.
    assert (nthb (i_addrs i) NDIRECT <> 0 /\ slot (fs_bio s) i (bn + 1) =
      get32 (4 * (bn - NDIRECT)) (sector_of (fs_bio s) (i_dev i) (nthb (i_addrs i) NDIRECT))) as [Hind E].
    { revert Hs. unfold slot. rewrite (proj2 (Z.ltb_ge (bn + 1) (NDIRECT + 1))) by lia.
      destruct (Z.eqb_spec (nthb (i_addrs i) NDIRECT) 0); [done|]. split; [done|]. do 2 f_equal. lia. }
    rewrite (proj2 (Z.eqb_neq _ 0) Hind). wsteps. fsimpl.
    apply (wp_bread_file _ i _ NDIRECT); [done|done|done|done|done|]. intros bp s1 Ho B1 D1. wsteps. fsimpl.
    rewrite B1, <- E, (proj2 (Z.eqb_neq _ 0) Hs). wsteps.
    eapply wp_brelse; [exact Ho|fsimpl; rewrite B1; unfold sector_of; by rewrite D1|].
    intros s2 K2 D2. wsteps. fsimpl. split; [done|]. split_and!; [done|done|]. etransitivity; [exact D2|exact D1].
Qed.

Lemma dir_block_present s dp i name off :
  fs_inode s !! dp = Some i -> alloc_inv (fs_bio s) ∅ (i_dev i) -> file_ok (fs_bio s) i ->
  0 <= off -> off mod BSIZE = 0 -> off + BSIZE <= MAXFILE * BSIZE -> slot (fs_bio s) i (pos (off / BSIZE)) <> 0 ->
  wp (dir_block dp name off) (fun r s' =>
    r = first_some (fun o => dent_match (fs_bio s) i name (off + o)) (range 0 BSIZE sizeof_dirent) /\
    same_fs s s') s.
Proof.
  intros Hip Ha Hf Ho Hmod Hmax Hs. assert (0 <= off / BSIZE < MAXFILE) as Hblk by (apply off_block; change BSIZE with 512 in *; lia).
  eapply wp_mono; [eapply (wp_both _ (fun _ s' => same_fs s s')); [|by apply dir_block_spec]|].
  2:{ cbv beta. intros r s' (Hsame & -> & _). done. }
  unfold dir_block. wsteps. eapply wp_mono; [by apply bmap_present|]. cbv beta. intros b s1 (-> & El & K1 & D1). wsteps.
  rewrite (inode_at_lookup dp s1 i) by congruence. fsimpl.
  destruct (bstep_same (fs_bio s) (fs_bio s1) i Ha Hf K1 D1) as [_ Ha1 Hf1].
  apply (wp_bread_file _ i _ (pos (off / BSIZE))); [exact Ha1|exact Hf1|by apply pos_range|by apply slot_on_disk|done|].
  intros bp s2 Hop B2 D2. wsteps.
  eapply wp_brelse; [exact Hop|fsimpl; rewrite B2; unfold sector_of; by rewrite D2|].
  intros s3 K3 D3. wsteps. fsimpl. split_and!; [done|by eapply keeps_trans|etransitivity; [exact D3|]; etransitivity; [exact D2|exact D1]].
Qed.

(** What the scan of a block finds when the directory's first match is at
    [off]. *)
Lemma block_first_match s i name lim inum off x :
  first_match s i name lim (Some (inum, off)) -> 0 <= x <= off -> x mod BSIZE = 0 ->
  match first_some (fun o => dent_match s i name (x + o)) (range 0 BSIZE sizeof_dirent) with
  | Some r => r = (inum, off)
  | None => x + BSIZE <= off
  end.
Proof.
  intros (Hm & k & Hk & Ek & _ & Hno) Hx Hmod. pose proof (Z.div_mod x BSIZE ltac:(done)) as Dx. rewrite Hmod in Dx.
  assert (forall y, y < off - x -> y ∈ range 0 BSIZE sizeof_dirent -> dent_match s i name (x + y) = None) as Hlt.
  { intros y Hy (j & Hj & -> & _)%elem_of_range; [|done]. change sizeof_dirent with 16 in *. change BSIZE with 512 in *.
    replace (x + (0 + j * 16)) with ((x / 512 * 32 + j) * 16) by lia. apply Hno.
    assert (0 <= x / 512) by (apply Z.div_pos; lia). lia. }
  assert (off < x + BSIZE -> off - x ∈ range 0 BSIZE sizeof_dirent) as Hin.
  { intros Hb. apply elem_of_range; [done|]. change sizeof_dirent with 16 in *. change BSIZE with 512 in *.
    exists (k - x / 512 * 32). lia. }
  destruct (first_some _ _) as [r|] eqn:E.
  - apply first_some_Some in E as (pre & y & post & El & Ey & Hpre).
    assert (y ∈ range 0 BSIZE sizeof_dirent) as Hy by (rewrite El; set_solver).
    destruct (Z.lt_trichotomy y (off - x)) as [Hl|[->|Hg]].
    + by rewrite Hlt in Ey.
    + replace (x + (off - x)) with off in Ey by lia. congruence.
    + pose proof Hy as (j & _ & _ & Hyb)%elem_of_range; [|done].
      assert (off - x ∈ pre) as Hp by (eapply (range_before 0 BSIZE sizeof_dirent); [done|exact El|apply Hin; lia|lia]).
      rewrite Forall_forall in Hpre. specialize (Hpre _ Hp). cbv beta in Hpre.
      replace (x + (off - x)) with off in Hpre by lia. congruence.
  - destruct (Z.lt_ge_cases off (x + BSIZE)) as [Hb|]; [|done]. apply first_some_None in E. rewrite Forall_forall in E.
    specialize (E _ (Hin Hb)). cbv beta in E. replace (x + (off - x)) with off in E by lia. congruence.
Qed.

(** All blocks up to the match are there. *)
Definition blocks_to (s : bio) (i : inode) (off : Z) : Prop :=
  forall bn, 0 <= bn -> bn * BSIZE <= off -> slot s i (pos bn) <> 0.

Lemma dir_find_present s dp i name inum off :
  fs_inode s !! dp = Some i -> alloc_inv (fs_bio s) ∅ (i_dev i) -> file_ok (fs_bio s) i ->
  0 <= i_size i <= MAXFILE * BSIZE -> first_match (fs_bio s) i name (dir_end (i_size i)) (Some (inum, off)) ->
  blocks_to (fs_bio s) i off ->
  wp (for_find (range 0 (i_size i) BSIZE) (dir_block dp name)) (fun r s' => r = Some (inum, off) /\ same_fs s s') s.
Proof.
  intros Hip Ha Hf Hsz Hm Hb. pose proof (dir_end_max _ Hsz) as Hend. pose proof Hm as (_ & k & Hk & Ek & Hlim & _).
  destruct (blocks_cover (i_size i) k) as (x0 & y0 & Hx0 & _ & E0 & Hy0); [lia|done|lia|]. rewrite <- Ek in E0.
  apply (wp_for_find (fun pre s' => same_fs s s' /\ forall x, x ∈ pre -> x + BSIZE <= off)).
  - split; [split_and!; [done|apply keeps_refl, Ha|done]|]. intros x Hx. by apply elem_of_nil in Hx.
  - intros pre x post s1 El [Hs1 Hpre]. pose proof Hs1 as (El1 & K1 & D1).
    assert (x ∈ range 0 (i_size i) BSIZE) as Hx by (rewrite El; set_solver).
    destruct (block_below (i_size i) x (BSIZE - 1) ltac:(lia) Hx ltac:(done)) as (Hxe & Hxp & Hxm).
    assert (x <= off) as Hxo.
    { destruct (Z.le_gt_cases x off) as [|Hg]; [done|]. assert (x0 ∈ pre) as Hp.
      { eapply (range_before 0 (i_size i) BSIZE); [done|exact El|done|lia]. }
      specialize (Hpre _ Hp). lia. }
    destruct (bstep_same (fs_bio s) (fs_bio s1) i Ha Hf K1 D1) as [_ Ha1 Hf1].
    eapply wp_mono; [apply (dir_block_present s1 dp i name x)|].
    + by rewrite El1.
    + done.
    + done.
    + done.
    + done.
    + lia.
    + rewrite (slot_on_disk _ _ _ _ D1). apply Hb; [by apply Z.div_pos|].
      pose proof (Z.div_mod x BSIZE ltac:(done)). lia.
    + cbv beta. intros r s2 [-> Hs2]. pose proof (same_fs_trans _ _ _ Hs1 Hs2) as Hs.
      rewrite (first_some_ext _ (fun o => dent_match (fs_bio s) i name (x + o))) by (intros; by apply dent_match_disk).
      pose proof (block_first_match _ _ _ _ _ _ x Hm ltac:(lia) Hxm) as Hr.
      destruct (first_some _ _) as [r|]; [by rewrite Hr|]. split; [done|]. intros x' Hx'. apply elem_of_app in Hx' as [Hx'|Hx']; [auto|]. by apply list_elem_of_singleton in Hx' as ->.
  - intros s' [_ Hno]. specialize (Hno x0 Hx0). lia.
Qed.

Lemma dirlookup_present s dp i name inum off :
  fs_inode s !! dp = Some i -> alloc_inv (fs_bio s) ∅ (i_dev i) -> file_ok (fs_bio s) i ->
  0 <= i_size i <= MAXFILE * BSIZE -> i_type i = T_DIR -> icache_ok (fs_inode s) ->
  Exists (fun x => i_ref x = 0) (fs_inode s) ->
  first_match (fs_bio s) i name (dir_end (i_size i)) (Some (inum, off)) -> blocks_to (fs_bio s) i off ->
  wp (dirlookup dp name) (fun r s' => exists ip, r = Some (ip, off) /\ got (i_dev i) inum (fs_inode s) (fs_inode s') ip /\
    keeps ∅ (fs_bio s) (fs_bio s') /\ bio_disk (fs_bio s') = bio_disk (fs_bio s)) s.
Proof.
  intros Hip Ha Hf Hsz Ht Hok Hfree Hm Hb. unfold dirlookup. wsteps. rewrite (inode_at_lookup dp s i Hip), Ht.
  change (negb (T_DIR =? T_DIR)) with false. wsteps. eapply wp_mono; [by apply dir_find_present|].
  cbv beta. intros r s1 (-> & El & K & D). wsteps. eapply wp_mono; [apply iget_present; by rewrite El|].
  cbv beta. intros ip s2 [Eb Hg]. wsteps. exists ip. rewrite El in Hg. by rewrite Eb.
Qed.

(** ** The name buffer *)

(** [strncmp] looks at its first string up to the NUL. *)
Lemma strncmp_upto n p p' q :
  (forall k, 0 <= k < Z.of_nat n -> (forall j, 0 <= j < k -> nthb p j <> 0) -> nthb p' k = nthb p k) ->
  strncmp n p' q = strncmp n p q.
Proof.
  revert p p' q. induction n as [|n IH]; intros p p' q Hp; cbn [strncmp]; [done|]. rewrite !deref_nthb.
  rewrite (Hp 0) by lia. destruct (Z.eqb_spec (nthb p 0) 0) as [|E0]; [done|]. cbn [negb andb].
  destruct (_ =? _); [|done]. apply IH. intros k Hk Hj. rewrite !nthb_tail by lia. apply Hp; [lia|].
  intros j Hj'. destruct (Z.eq_dec j 0) as [->|]; [done|]. specialize (Hj (j - 1) ltac:(lia)).
  rewrite nthb_tail in Hj by lia. by replace (j - 1 + 1) with j in Hj by lia.
Qed.

Lemma put_name_len e buf : Z.of_nat (length buf) = DIRSIZ -> Z.of_nat (length (put_name e buf)) = DIRSIZ.
Proof. intros Hb. unfold put_name, splice. by destruct (_ <=? _); rewrite length_inserts. Qed.

(** The buffer holds the element. *)
Lemma put_name_match s i e buf o :
  Z.of_nat (length buf) = DIRSIZ -> dent_match s i (put_name e buf) o = dent_match s i e o.
Proof.
  intros Hb. unfold dent_match, de_match, namecmp. rewrite (strncmp_upto _ e (put_name e buf)); [done|].
  intros k Hk Hj. unfold put_name. change (Z.of_nat (Z.to_nat DIRSIZ)) with DIRSIZ in Hk. destruct (Z.leb_spec DIRSIZ (Z.of_nat (length e))) as [Hl|Hl].
  - rewrite nthb_splice_in, nthb_slice by (rewrite ?length_slice; lia). f_equal. lia.
  - assert (k <= Z.of_nat (length e)) as Hke.
    { destruct (Z.le_gt_cases k (Z.of_nat (length e))) as [|Hg]; [done|]. destruct (Hj (Z.of_nat (length e))); [lia|].
      apply nthb_ge. lia. }
    rewrite nthb_splice_in by (rewrite ?length_app; cbn [length]; lia). rewrite nthb_app, Z.sub_0_r by lia.
    destruct (Z.ltb_spec k (Z.of_nat (length e))); [done|]. rewrite (nthb_ge e) by lia. by replace (k - Z.of_nat (length e)) with 0 by lia.
Qed.

Lemma first_match_ext s s' i i' name name' lim r :
  (forall o, dent_match s' i' name' o = dent_match s i name o) -> first_match s i name lim r -> first_match s' i' name' lim r.
Proof.
  intros E. destruct r as [[inum off]|]; cbn [first_match].
  - intros (Hm & k & ? & ? & ? & Hno). split; [by rewrite E|]. exists k. split_and!; [done..|]. intros j Hj. rewrite E. by apply Hno.
  - intros Hno k Hk Hl. rewrite E. by apply Hno.
Qed.

(** ** Directories on the disk *)

(** The inode number [n] as [ilock] reads it from the root device. *)
Definition disk_inode (s : bio) (n : Z) : inode :=
  i_load (di_of s ROOTDEV n) (i_set_inum n (i_set_dev ROOTDEV zero_inode)).

Record dir_at (s : bio) (n : Z) : Prop := {
  da_inum : inum_ok (sb_of s ROOTDEV) n;
  da_type : i_type (disk_inode s n) = T_DIR;
  da_nlink : i_nlink (disk_inode s n) <> 0;
  da_file : file_ok s (disk_inode s n);
  da_size : 0 <= i_size (disk_inode s n) <= MAXFILE * BSIZE;
}.

(** The first entry of directory [n] for [name] is inode [n']. *)
Definition leads (s : bio) (n : Z) (name : list Z) (n' : Z) : Prop :=
  exists off, first_match s (disk_inode s n) name (dir_end (i_size (disk_inode s n))) (Some (n', off)) /\
    blocks_to s (disk_inode s n) off.

(** Following the entries for the elements of [path] leads from inode [n] to
    inode [m]. *)
Fixpoint reach (s : bio) (n : Z) (path : list (list Z)) (m : Z) : Prop :=
  match path with
  | [] => n = m
  | name :: path => dir_at s n /\ exists n', leads s n name n' /\ reach s n' path m
  end.

(** All of this is on the disk. *)
Lemma disk_inode_disk s s' n : bio_disk s' = bio_disk s -> disk_inode s' n = disk_inode s n.
Proof. intros D. unfold disk_inode, di_of, sector_of. by rewrite D. Qed.

Lemma file_ok_disk s s' i j :
  bio_disk s' = bio_disk s -> i_dev j = i_dev i -> i_addrs j = i_addrs i -> file_ok s i -> file_ok s' j.
Proof.
  intros D Ed Ea [Hl Hb Hi]. destruct (same_disk s s' (i_dev i) D) as (Hsb & Hu & _).
  assert (forall k, slot s' j k = slot s i k) as Hs by (intros k; unfold slot, sector_of; by rewrite D, Ed, Ea).
  split; [by rewrite Ea|..].
  - intros k Hk. rewrite Ed, Hsb, Hs. intros Hn. rewrite Hu. by apply Hb.
  - intros k k' Hk Hk'. rewrite !Hs. by apply Hi.
Qed.

Lemma dent_match_inode s i j name o :
  i_dev j = i_dev i -> i_addrs j = i_addrs i -> dent_match s j name o = dent_match s i name o.
Proof. intros Ed Ea. unfold dent_match, dent, fbyte, slot. by rewrite Ed, Ea. Qed.

Lemma reach_disk s s' path m : bio_disk s' = bio_disk s -> forall n, reach s n path m -> reach s' n path m.
Proof.
  intros D. induction path as [|name path IH]; intros n; [done|]. cbn [reach].
  intros ([H1 H2 H3 H4 H5] & n' & (off & Hm & Hb) & Hr). pose proof (disk_inode_disk s s' n D) as Ei.
  destruct (same_disk s s' ROOTDEV D) as (Hsb & _). split.
  - split; rewrite ?Hsb, ?Ei; [done..|by eapply file_ok_disk|done].
  - exists n'. split; [|by apply IH]. exists off. rewrite Ei. split.
    + eapply first_match_ext; [|exact Hm]. intros o. by apply dent_match_disk.
    + intros bn H6 H7. rewrite (slot_on_disk s s') by done. by apply Hb.
Qed.

(** ** The inode cache *)

(** The cached inode has what the disk has. *)
Definition loaded (s : bio) (i : inode) : Prop := i_load (di_of s (i_dev i) (i_inum i)) i = i.

Lemma loaded_same s s' i r f :
  bio_disk s' = bio_disk s -> loaded s i -> loaded s' (i_set_flags f (i_set_ref r i)).
Proof.
  unfold loaded, i_load, di_of, sector_of. intros ->. destruct i as [dev inum ref fl ty ma mi nl sz ad tg].
  cbn [i_dev i_inum i_ref i_flags i_tags i_set_flags i_set_ref].
  intros E. injection E. intros. unfold i_set_flags, i_set_ref. cbn. by f_equal.
Qed.

Lemma loaded_disk s i n :
  loaded s i -> i_match ROOTDEV n i ->
  let j := disk_inode s n in i_dev j = i_dev i /\ i_type j = i_type i /\ i_nlink j = i_nlink i /\ i_size j = i_size i /\
    i_addrs j = i_addrs i.
Proof. intros Hl (_ & Ed & En). unfold loaded in Hl. rewrite Ed, En in Hl. cbv zeta. unfold disk_inode. revert Hl.
  generalize (di_of s ROOTDEV n). intros di <-. split_and!; done. Qed.

(** Nobody but us uses an inode of the root device: none is locked, except
    [o], and the copies in the cache are those of the disk. *)
Record quiet (s : bio) (l : list inode) (o : option nat) : Prop := {
  qt_ok : icache_ok l;
  qt_disk : forall k i, l !! k = Some i -> Some k <> o -> 0 < i_ref i -> i_dev i = ROOTDEV ->
    i_flags i = 0 \/ i_flags i = I_VALID /\ loaded s i;
}.

(** The references of the cache [l] are those of [l0] and [d k] more for slot
    [k]. *)
Definition held (l0 l : list inode) (d : nat -> Z) : Prop :=
  length l = length l0 /\
  forall k i0, l0 !! k = Some i0 -> exists i, l !! k = Some i /\ i_ref i = i_ref i0 + d k /\
    (0 < i_ref i0 -> i_dev i = i_dev i0 /\ i_inum i = i_inum i0).

Definition one (ip k : nat) : Z := if decide (k = ip) then 1 else 0.

Lemma one_nonneg ip k : 0 <= one ip k.
Proof. unfold one. case_decide; lia. Qed.

Definition two_free (l : list inode) : Prop :=
  exists j k i i', j <> k /\ l !! j = Some i /\ i_ref i = 0 /\ l !! k = Some i' /\ i_ref i' = 0.

Lemma held_ext l0 l d d' : (forall k, d k = d' k) -> held l0 l d -> held l0 l d'.
Proof.
  intros E [Hl Hk]. split; [done|]. intros k i0 H0. destruct (Hk k i0 H0) as (i & Hi & Hr & Hs). exists i. by rewrite <- E.
Qed.

Lemma held_refl l : held l l (fun _ => 0).
Proof. split; [done|]. intros k i0 H0. exists i0. split_and!; [done|lia|done]. Qed.

Lemma held_upd l0 l d ip i i' x :
  held l0 l d -> 0 <= d ip -> l !! ip = Some i -> i_ref i' = i_ref i + x ->
  (0 < i_ref i -> i_dev i' = i_dev i /\ i_inum i' = i_inum i) ->
  held l0 (<[ip := i']> l) (fun k => d k + x * one ip k).
Proof.
  intros [Hl Hk] Hd Hi Hr Hs. split; [by rewrite length_insert|]. intros k i0 H0.
  destruct (Hk k i0 H0) as (i1 & Hi1 & Hr1 & Hs1). unfold one. case_decide as E.
  - subst k. assert (i1 = i) as -> by congruence. exists i'. split_and!; [by eapply lookup_set_inode|lia|].
    intros Hp. destruct (Hs1 Hp) as [<- <-]. apply Hs. lia.
  - exists i1. split_and!; [by rewrite list_lookup_insert_ne|lia|done].
Qed.

Lemma held_free l0 l d : held l0 l d -> two_free l0 -> (exists ip, forall k, k <> ip -> d k = 0) ->
  Exists (fun x => i_ref x = 0) l.
Proof.
  intros [_ Hk] (j & k & i & i' & Hne & Hj & Hr & Hk' & Hr') [ip Hd]. apply Exists_exists. destruct (decide (j = ip)) as [->|Hj'].
  - destruct (Hk _ _ Hk') as (x & Hx & Ex & _). exists x. split; [by eapply list_elem_of_lookup_2|]. rewrite Hd in Ex by done. lia.
  - destruct (Hk _ _ Hj) as (x & Hx & Ex & _). exists x. split; [by eapply list_elem_of_lookup_2|]. rewrite Hd in Ex by done. lia.
Qed.

Lemma held_got l0 l l' d dev n ip :
  held l0 l d -> 0 <= d ip -> got dev n l l' ip -> held l0 l' (fun k => d k + one ip k).
Proof.
  intros Hh Hd (_ & i & i' & Hi & -> & _ & Hc).
  eapply held_ext; [|apply (held_upd l0 l d ip i i' 1 Hh Hd Hi)]; [intros; cbv beta; lia|..].
  - destruct Hc as [[_ ->]|(_ & Hr & ->)]; cbn; lia.
  - destruct Hc as [[_ ->]|(_ & Hr & ->)]; cbn; [done|lia].
Qed.

Lemma quiet_got s l l' o dev n ip : quiet s l o -> got dev n l l' ip -> quiet s l' o.
Proof.
  intros [Hok Hq] (Hok' & i & i' & Hi & -> & Hm & Hc). split; [done|]. intros k x Hx Ho Hr Hd.
  apply list_lookup_insert_Some in Hx as [(-> & -> & _)|[_ Hx]]; [|by eauto].
  destruct Hc as [[(Hp & _) ->]|(_ & _ & ->)]; [|by left]. cbn in *. destruct (Hq _ _ Hi Ho Hp Hd) as [|[Hf Hl]]; [by left|right].
  split; [done|]. by apply (loaded_same s s i (i_ref i + 1) (i_flags i) eq_refl) in Hl.
Qed.

(** A slot in use keeps its inode. *)
Lemma got_lookup dev n l l' ip k i :
  got dev n l l' ip -> l !! k = Some i -> 0 < i_ref i -> l' !! k = Some (i_set_ref (i_ref i + one ip k) i).
Proof.
  intros (_ & j & j' & Hj & -> & _ & Hc) Hk Hr. unfold one. case_decide as E.
  - subst k. assert (j = i) as -> by congruence. erewrite lookup_set_inode by done. destruct Hc as [[_ ->]|(_ & H0 & _)]; [done|lia].
  - rewrite list_lookup_insert_ne by done. rewrite Z.add_0_r. by destruct i.
Qed.

(** The lock is given back and one reference with it. *)
Lemma quiet_unlock s l ip i r :
  quiet s l (Some ip) -> l !! ip = Some i -> loaded s i -> r <= i_ref i ->
  quiet s (<[ip := i_set_ref r (i_set_flags I_VALID i)]> l) None.
Proof.
  intros [Hok Hq] Hi Hl Hr. split.
  - apply icache_ok_insert; [done|]. cbn. intros k x Hk Hx [Hp Hm]. apply Hk. symmetry. eapply Hok; [done|done|lia|done].
  - intros k x Hx _ Hp Hd. apply list_lookup_insert_Some in Hx as [(-> & <- & _)|[Hk Hx]].
    + right. split; [done|]. exact (loaded_same s s i r I_VALID eq_refl Hl).
    + apply (Hq k); [done|congruence|done|done].
Qed.

(** ** One step *)

(** The walk is at inode [n], in slot [ip]. *)
Record walking (l0 : list inode) (ip : nat) (n : Z) (s : fs) : Prop := {
  wk_alloc : alloc_inv (fs_bio s) ∅ ROOTDEV;
  wk_quiet : quiet (fs_bio s) (fs_inode s) None;
  wk_held : held l0 (fs_inode s) (one ip);
  wk_ip : exists i, fs_inode s !! ip = Some i /\ i_match ROOTDEV n i;
}.

Lemma quiet_disk s s' l o : bio_disk s' = bio_disk s -> quiet s l o -> quiet s' l o.
Proof. intros D [Hok Hq]. split; [done|]. unfold loaded, di_of, sector_of in *. by rewrite D. Qed.

Lemma ilock_dir l0 ip n s :
  walking l0 ip n s -> dir_at (fs_bio s) n ->
  wp (ilock (Some ip)) (fun _ s' => exists i, fs_inode s' !! ip = Some i /\ i_match ROOTDEV n i /\
    i_flags i = Z.lor I_BUSY I_VALID /\ loaded (fs_bio s') i /\
    quiet (fs_bio s') (fs_inode s') (Some ip) /\ held l0 (fs_inode s') (one ip) /\
    keeps ∅ (fs_bio s) (fs_bio s') /\ bio_disk (fs_bio s') = bio_disk (fs_bio s)) s.
Proof.
  intros [Ha [Hok Hq] Hh (i & Hi & Hm)] Hd. pose proof Hm as (Hr & Ed & En).
  assert (i_flags i = 0 \/ i_flags i = I_VALID /\ loaded (fs_bio s) i) as Hf by (by eapply Hq).
  pose proof (ilock_spec s ip i Hi) as Hw. rewrite Ed, En in Hw. cbv zeta in Hw.
  specialize (Hw ltac:(apply Ha) ltac:(by right) ltac:(apply Ha) ltac:(apply Hd) ltac:(lia) ltac:(tauto)). unfold wp. unfold wpe in Hw.
  set (i' := i_set_flags (Z.lor I_BUSY I_VALID) (if i_flags i =? 0 then i_load (di_of (fs_bio s) ROOTDEV n) i else i)) in *.
  assert (i_ref i' = i_ref i /\ i_dev i' = ROOTDEV /\ i_inum i' = n) as (Er' & Ed' & En') by (unfold i'; destruct (_ =? 0); done).
  assert (loaded (fs_bio s) i') as Hl'.
  { unfold i'. destruct Hf as [->|[-> Hl]]; cbn; [unfold loaded; cbn; by rewrite Ed, En|].
    by apply (loaded_same _ _ i (i_ref i) (Z.lor I_BUSY I_VALID) eq_refl) in Hl. }
  destruct (ilock (Some ip) s) as [u s'|msg s'| |]; try done.
  - destruct Hw as (El & K & D & _). exists i'. rewrite El. split_and!; try done.
    + by eapply lookup_set_inode.
    + unfold i_match. by rewrite Er', Ed', En'.
    + by apply (loaded_same _ _ i' (i_ref i') (i_flags i') D) in Hl'.
    + apply (quiet_disk (fs_bio s)); [done|]. split.
      * apply icache_ok_insert; [done|]. rewrite Ed', En'. intros k x Hk Hx [_ Hx']. apply Hk. symmetry.
        eapply Hok; [exact Hi|exact Hx|done|by rewrite Ed, En].
      * intros k x Hx Hk Hp. apply list_lookup_insert_Some in Hx as [(-> & -> & _)|[_ Hx]]; [done|]. by eapply Hq.
    + eapply held_ext; [|apply (held_upd l0 _ (one ip) ip i i' 0); [done|apply one_nonneg|done|lia|]].
      * intros. cbv beta. lia.
      * by rewrite Ed, En, Ed', En'.
  - destruct Hw as (_ & _ & Ht). destruct Hd as [_ Ht' _ _ _]. change (di_type (di_of (fs_bio s) ROOTDEV n) = T_DIR) in Ht'. by rewrite Ht in Ht'.
Qed.

(** The directory is unlocked and dropped once the next inode is held. *)
Lemma walk_unlock l0 ip nx n' i s1 s2 (Q : unit -> fs -> Prop) :
  fs_inode s1 !! ip = Some i -> 0 < i_ref i -> i_flags i = Z.lor I_BUSY I_VALID -> i_nlink i <> 0 -> loaded (fs_bio s1) i ->
  quiet (fs_bio s1) (fs_inode s1) (Some ip) -> held l0 (fs_inode s1) (one ip) -> alloc_inv (fs_bio s1) ∅ ROOTDEV ->
  got ROOTDEV n' (fs_inode s1) (fs_inode s2) nx -> keeps ∅ (fs_bio s1) (fs_bio s2) ->
  bio_disk (fs_bio s2) = bio_disk (fs_bio s1) ->
  (forall s3, walking l0 nx n' s3 -> keeps ∅ (fs_bio s1) (fs_bio s3) -> bio_disk (fs_bio s3) = bio_disk (fs_bio s1) -> Q tt s3) ->
  wp (iunlockput ip) Q s2.
Proof.
  intros Hi Hr Hf Hnl Hl Hq Hh Ha Hg K D HQ. pose proof (got_lookup _ _ _ _ _ _ _ Hg Hi Hr) as Hj. pose proof (one_nonneg nx ip) as H1.
  set (j := i_set_ref (i_ref i + one nx ip) i) in *. unfold iunlockput. apply wp_bind. unfold wp at 1.
  rewrite (iunlock_eq s2 ip j) by (done || (cbn; lia)).
  set (b3 := bio_set_pt _ _). set (l3 := <[ip := _]> (fs_inode s2)). unfold wp.
  assert (l3 !! ip = Some (i_set_flags I_VALID j)) as Hj3 by (by eapply lookup_set_inode).
  rewrite (iput_drop (Fs b3 l3) ip (i_set_flags I_VALID j) Hj3).
  2:{ change (i_nlink (i_set_flags I_VALID j)) with (i_nlink i). rewrite (proj2 (Z.eqb_neq (i_nlink i) 0)) by done. apply andb_false_r. }
  assert (keeps ∅ (fs_bio s1) b3) as K3 by (eapply keeps_trans; [exact K|apply keeps_wakeup, K]).
  apply HQ; [|exact K3|exact D]. fsimpl. unfold l3. rewrite list_insert_insert_eq.
  split; fsimpl.
  - eapply alloc_inv_same; [exact Ha|apply K3|exact D].
  - apply (quiet_disk (fs_bio s2)); [done|]. apply (quiet_unlock _ _ _ j); [|done| |cbn; lia].
    + apply (quiet_disk (fs_bio s1)); [done|]. by eapply quiet_got.
    + exact (loaded_same _ _ i (i_ref i + one nx ip) (i_flags i) D Hl).
  - eapply held_ext; [|apply (held_upd l0 _ (fun k => one ip k + one nx k) ip j _ (-1))].
    + intros k. cbv beta. lia.
    + by eapply held_got; [exact Hh|apply one_nonneg|exact Hg].
    + pose proof (one_nonneg ip ip). cbv beta. lia.
    + done.
    + cbn. lia.
    + done.
  - destruct Hg as (_ & x & x' & Hx & El & Hm & _).
    destruct (decide (nx = ip)) as [->|Hne].
    + exists (i_set_ref (i_ref (i_set_flags I_VALID j) - 1) (i_set_flags I_VALID j)). split; [by eapply lookup_set_inode|].
      assert (x' = j) as ->. { rewrite El in Hj. erewrite lookup_set_inode in Hj by exact Hx. congruence. }
      destruct Hm as (_ & Hd & Hn). split; [|done]. cbn. unfold one. rewrite decide_True by done. lia.
    + exists x'. split; [|done]. rewrite list_lookup_insert_ne by done. rewrite El. by eapply lookup_set_inode.
Qed.

(** One round of the loop follows one entry. *)
Lemma walk_step l0 ip n s path buf rest e n' :
  walking l0 ip n s -> two_free l0 -> dir_at (fs_bio s) n -> leads (fs_bio s) n e n' ->
  Z.of_nat (length buf) = DIRSIZ -> skipelem path buf = Some (rest, put_name e buf) ->
  wp (namex_step false (path, Some ip, buf)) (fun r s' => exists ip', r = inl (rest, Some ip', put_name e buf) /\
    walking l0 ip' n' s' /\ keeps ∅ (fs_bio s) (fs_bio s') /\ bio_disk (fs_bio s') = bio_disk (fs_bio s)) s.
Proof.
  intros Hw Hfree Hd (off & Hfm & Hblk) Hbuf Hsk. unfold namex_step. rewrite Hsk. wsteps.
  eapply wp_mono; [by apply (ilock_dir l0 ip n)|]. cbv beta. intros _ s1 (i & Hi & Hm & Hf & Hl & Hq1 & Hh1 & K1 & D1). wsteps.
  rewrite (inode_at_lookup ip s1 i Hi). pose proof (disk_inode_disk (fs_bio s) (fs_bio s1) n D1) as Ei.
  destruct (loaded_disk _ i n Hl Hm) as (E1 & E2 & E3 & E4 & E5). rewrite Ei in *. destruct Hd as [_ Ht Hnl Hfo Hsz].
  rewrite E2 in Ht. rewrite E3 in Hnl. rewrite E4 in Hsz, Hfm. rewrite Ht. change (negb (T_DIR =? T_DIR)) with false. cbn [andb]. wsteps.
  pose proof Hm as (Hr & Ed & En). pose proof (alloc_inv_same _ _ _ _ (wk_alloc _ _ _ _ Hw) (proj1 K1) D1) as Ha1.
  eapply wp_mono; [apply (dirlookup_present s1 ip i (put_name e buf) n' off)|].
  - done.
  - by rewrite Ed.
  - by eapply file_ok_disk.
  - done.
  - done.
  - apply Hq1.
  - eapply held_free; [exact Hh1|done|]. exists ip. intros k Hk. unfold one. by rewrite decide_False.
  - eapply first_match_ext; [|exact Hfm]. intros o. rewrite put_name_match by done. rewrite (dent_match_disk (fs_bio s) (fs_bio s1)) by done.
    by apply dent_match_inode.
  - intros bn H1 H2. rewrite (slot_on_disk (fs_bio s)) by done. specialize (Hblk bn H1 H2). revert Hblk. unfold slot. by rewrite E1, E5.
  - cbv beta. intros r s2 (nx & -> & Hg & K2 & D2). rewrite Ed in Hg. wsteps.
    apply (walk_unlock l0 ip nx n' i s1 s2); try done. intros s3 Hw3 K3 D3. wsteps. exists nx.
    split_and!; [done|done|by eapply keeps_trans|congruence].
Qed.

(** ** The walk *)

Lemma walk_loop l0 m : two_free l0 -> forall es fuel path ip n buf s,
  elems path = es -> (length path < fuel)%nat -> Z.of_nat (length buf) = DIRSIZ ->
  walking l0 ip n s -> reach (fs_bio s) n es m ->
  wp (namex_loop fuel path false (Some ip) buf) (fun r s' => exists ip', r.1 = Some ip' /\
    walking l0 ip' m s' /\ keeps ∅ (fs_bio s) (fs_bio s') /\ bio_disk (fs_bio s') = bio_disk (fs_bio s)) s.
Proof.
  intros Hfree. induction es as [|e es IH]; intros fuel path ip n buf s He Hfuel Hbuf Hw Hr;
    (destruct fuel as [|fuel]; [lia|]); pose proof (skipelem_spec path buf) as Hsk; rewrite He in Hsk; unfold namex_loop; cbn [while_fuel].
  - cbn in Hr. subst m. unfold namex_step. rewrite Hsk. wsteps. exists ip. split_and!; [done|done|apply keeps_refl, Hw|done].
  - destruct Hsk as (rest & Hsk & Hrest & _ & Hlt). destruct Hr as (Hd & n' & Hl & Hr). wsteps.
    eapply wp_mono; [by apply (walk_step l0 ip n s path buf rest e n')|].
    cbv beta. intros r s1 (ip1 & -> & Hw1 & K1 & D1). wsteps.
    eapply wp_mono; [apply (IH fuel rest ip1 n' (put_name e buf) s1)|].
    + done.
    + lia.
    + by apply put_name_len.
    + done.
    + by eapply reach_disk.
    + cbv beta. intros r s2 (ip2 & E & Hw2 & K2 & D2). exists ip2. split_and!; [done|done|by eapply keeps_trans|congruence].
Qed.

(** [namei] of an absolute path. *)
Lemma namei_walk b l p m :
  alloc_inv b ∅ ROOTDEV -> quiet b l None -> two_free l -> deref p = SLASH -> reach b ROOTINO (elems p) m ->
  wp (namei p) (fun r s' => exists ip i, r = Some ip /\ fs_inode s' !! ip = Some i /\ i_match ROOTDEV m i /\
    held l (fs_inode s') (one ip) /\ quiet (fs_bio s') (fs_inode s') None /\
    keeps ∅ b (fs_bio s') /\ bio_disk (fs_bio s') = bio_disk b) (Fs b l).
Proof.
  intros Ha Hq Hfree Hp Hr. unfold namei, namex, namex_start. rewrite Hp, Z.eqb_refl. wsteps.
  eapply wp_mono; [apply iget_present; [apply Hq|]|].
  { eapply held_free; [apply held_refl|done|]. by exists 0%nat. }
  cbv beta. intros ip s1 [Eb Hg]. cbn [fs_bio fs_inode] in *. wsteps.
  eapply wp_mono; [apply (walk_loop l m Hfree (elems p) _ p ip ROOTINO (zeros DIRSIZ) s1)|].
  - done.
  - lia.
  - done.
  - split; rewrite ?Eb; [done|by eapply quiet_got| |].
    + eapply held_ext; [|eapply (held_got _ _ _ _ _ _ _ (held_refl l)); [|exact Hg]]; [done|done].
    + destruct Hg as (_ & i & i' & Hi & El & Hm & _). exists i'. split; [rewrite El; by eapply lookup_set_inode|done].
  - by rewrite Eb.
  - rewrite Eb. cbv beta. intros [r nm] s2 (ip2 & E & [_ Hq2 Hh2 (i & Hi & Hm)] & K & D). wsteps.
    exists ip2, i. by split_and!.
Qed.
