(* ===== verification/File.v ===== *)
(** * Open files (kernel/file.c, kernel/file.h, and [pipealloc] and
    [pipeclose] of kernel/pipe.c)

    The table of open files above the inode layer and the pipes. *)

From S2P Require Import Prelude Monad Params Kalloc ProcTable Pipe Ide Bio Block Inode Content.

(** ** State *)

Inductive ftype := FD_NONE | FD_PIPE | FD_INODE.

#[global] Instance ftype_eq_dec : EqDecision ftype.
Proof. solve_decision. Defined.

Record file := File {
  f_type : ftype;
  f_ref : Z;
  f_readable : Z;
  f_writable : Z;
  f_pipe : Z;
  f_ip : option nat;
  f_off : Z;
}.
Definition f_set_type v f := File v (f_ref f) (f_readable f) (f_writable f) (f_pipe f) (f_ip f) (f_off f).
Definition f_set_ref v f := File (f_type f) v (f_readable f) (f_writable f) (f_pipe f) (f_ip f) (f_off f).
Definition f_set_readable v f := File (f_type f) (f_ref f) v (f_writable f) (f_pipe f) (f_ip f) (f_off f).
Definition f_set_writable v f := File (f_type f) (f_ref f) (f_readable f) v (f_pipe f) (f_ip f) (f_off f).
Definition f_set_pipe v f := File (f_type f) (f_ref f) (f_readable f) (f_writable f) v (f_ip f) (f_off f).
Definition f_set_ip v f := File (f_type f) (f_ref f) (f_readable f) (f_writable f) (f_pipe f) v (f_off f).
Definition f_set_off v f := File (f_type f) (f_ref f) (f_readable f) (f_writable f) (f_pipe f) (f_ip f) v.

Definition zero_file : file := File FD_NONE 0 0 0 0 None 0.

(** The file system, [ftable], the pipes by address and the page
    allocator. *)
Record kern := Kern {
  k_fs : fs;
  k_file : list file;
  k_pipe : gmap Z pipe;
  k_mem : kmem;
}.
Definition k_set_fs v s := Kern v (k_file s) (k_pipe s) (k_mem s).
Definition k_set_file v s := Kern (k_fs s) v (k_pipe s) (k_mem s).
Definition k_set_pipe v s := Kern (k_fs s) (k_file s) v (k_mem s).
Definition k_set_mem v s := Kern (k_fs s) (k_file s) (k_pipe s) v.

Definition fs_of_kern : lens kern fs := Lens k_fs k_set_fs.
Definition bio_of_kern : lens kern bio := lens_comp fs_of_kern bio_of_fs.
Definition pt_of_kern : lens kern ptable := lens_comp fs_of_kern pt_of_fs.
Definition mem_of_kern : lens kern kmem := Lens k_mem k_set_mem.

#[global] Instance fs_of_kern_laws : LensLaws fs_of_kern.
Proof. split; [done|by intros []|done]. Qed.

(** The pipe at address [a], with the processes. *)
Definition pipe_at (a : Z) (s : kern) : pipe := default (pipe_init []) (k_pipe s !! a).
Definition pst_of_kern (a : Z) : lens kern pst :=
  Lens (fun s => Pst (lget pt_of_kern s) (pipe_at a s))
       (fun t s => k_set_pipe (<[a := ps_pipe t]> (k_pipe s)) (lset pt_of_kern (ps_pt t) s)).

(** Reduce the projections of kernel states. *)
Ltac ksimpl :=
  unfold pt_of_kern, bio_of_kern, pt_of_fs, lens_comp;
  cbn [lget lset fs_of_kern mem_of_kern bio_of_fs pt_of_bio];
  unfold k_set_fs, k_set_file, k_set_pipe, k_set_mem, upd_inode, fs_set_bio, fs_set_inode;
  cbn [k_fs k_file k_pipe k_mem fs_bio fs_inode].

Definition file_at (f : nat) (s : kern) : file := default zero_file (k_file s !! f).
Definition upd_file (f : nat) (g : file -> file) (s : kern) : kern :=
  k_set_file (alter g f (k_file s)) s.

(** ** file.c *)

(** The first slot with no reference. *)
Definition filealloc : M kern (option nat) :=
  let! l := gets k_file in
  match list_find (fun f => f_ref f = 0) l with
  | Some (f, _) => modify (upd_file f (f_set_ref 1));;; ret (Some f)
  | None => ret None
  end.

Definition filedup (f : nat) : M kern nat :=
  let! ff := gets (file_at f) in
  if f_ref ff <? 1 then panic "filedup"
  else modify (upd_file f (f_set_ref (f_ref ff + 1)));;; ret f.

(** A pointer the code dereferences: a null one ends in [ilock]'s panic. *)
Definition nonnull {A} (p : option nat) (k : nat -> M kern A) : M kern A :=
  match p with
  | None => panic "ilock"
  | Some ip => k ip
  end.

Section file.
Context {DV : Devsw} (kend : Z).

(** [pipeclose]: close one end, and free the page with the last one. *)
Definition pipeclose (a writable : Z) : M kern unit :=
  let! dead := zoom (pst_of_kern a) (pipeclose_end a writable) in
  if (dead : bool) then
    zoom mem_of_kern (kfree kend a);;;
    modify (fun s => k_set_pipe (delete a (k_pipe s)) s)
  else ret tt.

Definition fileclose (f : nat) : M kern unit :=
  let! ff := gets (file_at f) in
  if f_ref ff <? 1 then panic "fileclose"
  else
    modify (upd_file f (f_set_ref (f_ref ff - 1)));;;
    if 0 <? f_ref ff - 1 then ret tt
    else
      modify (upd_file f (f_set_ref 0));;;
      modify (upd_file f (f_set_type FD_NONE));;;
      if decide (f_type ff = FD_PIPE) then pipeclose (f_pipe ff) (f_writable ff)
      else if decide (f_type ff = FD_INODE) then
        nonnull (f_ip ff) (fun ip => zoom fs_of_kern (iput ip))
      else ret tt.

(** [None] for the -1 of a file that is no inode. *)
Definition filestat (f : nat) : M kern (option stat) :=
  let! ff := gets (file_at f) in
  if decide (f_type ff = FD_INODE) then
    zoom fs_of_kern (ilock (f_ip ff));;;
    nonnull (f_ip ff) (fun ip =>
      let! st := zoom fs_of_kern (stati ip) in
      zoom fs_of_kern (iunlock (Some ip));;;
      ret (Some st))
  else ret None.

Definition fileread (f : nat) (n : Z) : M kern (Z * list Z) :=
  let! ff := gets (file_at f) in
  if f_readable ff =? 0 then ret (-1, [])
  else if decide (f_type ff = FD_PIPE) then
    zoom (pst_of_kern (f_pipe ff)) (piperead (f_pipe ff) n)
  else if decide (f_type ff = FD_INODE) then
    zoom fs_of_kern (ilock (f_ip ff));;;
    nonnull (f_ip ff) (fun ip =>
      let! r := zoom fs_of_kern (readi ip (f_off ff) (u32 n)) in
      (if 0 <? fst r then modify (upd_file f (fun g => f_set_off (u32 (f_off g + fst r)) g))
       else ret tt);;;
      zoom fs_of_kern (iunlock (Some ip));;;
      ret r)
  else panic "fileread".

Definition filewrite (f : nat) (addr : list Z) (n : Z) : M kern Z :=
  let! ff := gets (file_at f) in
  if f_writable ff =? 0 then ret (-1)
  else if decide (f_type ff = FD_PIPE) then
    zoom (pst_of_kern (f_pipe ff)) (pipewrite (f_pipe ff) addr n)
  else if decide (f_type ff = FD_INODE) then
    zoom fs_of_kern (ilock (f_ip ff));;;
    nonnull (f_ip ff) (fun ip =>
      let! r := zoom fs_of_kern (writei ip addr (f_off ff) (u32 n)) in
      (if 0 <? r then modify (upd_file f (fun g => f_set_off (u32 (f_off g + r)) g))
       else ret tt);;;
      zoom fs_of_kern (iunlock (Some ip));;;
      ret r)
  else panic "filewrite".

(** ** pipealloc *)

(** [sizeof(struct spinlock)]: the pipe's data starts behind its lock. *)
Definition sizeof_spinlock : Z := 4 + 4 + 4 + 10 * 4.

(** The failure exit: close what was opened.  It is reached with no page
    allocated. *)
Definition pipealloc_bad (f0 f1 : option nat) : M kern (option (nat * nat)) :=
  match f0 with Some f => fileclose f | None => ret tt end;;;
  match f1 with Some f => fileclose f | None => ret tt end;;;
  ret None.

Definition pipe_file (readable writable p : Z) (f : file) : file :=
  f_set_pipe p (f_set_writable writable (f_set_readable readable (f_set_type FD_PIPE f))).

Definition pipealloc : M kern (option (nat * nat)) :=
  let! f0 := filealloc in
  match f0 with
  | None => pipealloc_bad None None
  | Some r =>
      let! f1 := filealloc in
      match f1 with
      | None => pipealloc_bad f0 None
      | Some w =>
          let! p := zoom mem_of_kern kalloc in
          if p =? 0 then pipealloc_bad f0 f1
          else
            modify (fun s => k_set_pipe
              (<[p := pipe_init (slice sizeof_spinlock PIPESIZE (page_at p (k_mem s)))]> (k_pipe s)) s);;;
            modify (upd_file r (pipe_file 1 0 p));;;
            modify (upd_file w (pipe_file 0 1 p));;;
            ret (Some (r, w))
      end
  end.

End file.
