(* ===== verification/Tags.v ===== *)
(** * File tags (kernel/fs.c, from [searchKey] on)

    A file may own one more block, its tag block: sixteen slots of 32 bytes,
    each with a key of up to nine characters and its NUL, and a value of up to
    eighteen bytes.  The system calls add, change, remove and look up tags
    and list the files of the root directory that carry a given tag.

    Debugging output ([cprintf]) is left out. *)

From S2P Require Import Prelude Monad Params CString ProcTable Ide Bio Block Inode File.

(** ** Searching a tag block *)

(** The inner loop of [searchKey] at slot [i], from index [j]. *)
Fixpoint key_scan (fuel : nat) (key str : list Z) (keyLength i j : Z) : option Z :=
  match fuel with
  | O => None
  | S fuel =>
      if (j <? 10) && (i + j <? BSIZE) && (nthb key j =? nthb str (i + j)) then
        if (j =? keyLength) && (nthb key j =? 0) && (nthb str (i + j) =? 0)
        then Some (i + j - keyLength)
        else key_scan fuel key str keyLength i (j + 1)
      else None
  end.

Definition searchKey (key str : list Z) : Z :=
  default (-1)
    (first_some (fun i => key_scan 11 key str (strlen key) i 0) (range 0 BSIZE 32)).

(** The loop of [searchEnd]: [str[i]] is read before [i] is compared, so a
    full block reads one byte past its end; the result does not depend on
    that byte. *)
Definition searchEnd (str : list Z) : Z :=
  let i := default BSIZE
    (first_some (fun i => if nthb str i =? 0 then Some i else None) (range 0 BSIZE 32)) in
  if i =? BSIZE then -1 else i.

(** ** Arguments *)

(** A [char] pointer: its value and the bytes from there on. *)
Record cptr := Cptr { c_addr : Z; c_mem : list Z }.
Definition isnull (p : cptr) : bool := c_addr p =? 0.

(** The open file of a descriptor: [fd] in range and in use. *)
Definition fd_lookup (fd : Z) (s : kern) : option nat :=
  if (fd <? 0) || (NOFILE <=? fd) then None
  else default None (p_ofile (cur_proc (lget pt_of_kern s)) !! Z.to_nat fd).
Definition fd_file (fd : Z) : M kern (option nat) := gets (fd_lookup fd).

(** [f->type != FD_INODE || !f->xxxable || !f->ip], as the inode on
    success. *)
Definition inode_of (mode : file -> Z) (f : file) : option nat :=
  if decide (f_type f = FD_INODE) then if mode f =? 0 then None else f_ip f else None.

(** [keyLength < 1 || keyLength > 9] or a null key. *)
Definition bad_key (key : cptr) : bool :=
  isnull key || (strlen (c_mem key) <? 1) || (9 <? strlen (c_mem key)).

Definition i_of (ip : nat) (s : kern) : inode := inode_at ip (k_fs s).
Definition kdata (bp : nat) (s : kern) : list Z := bdata bp (fs_bio (k_fs s)).

(** [brelse(buftag); iunlock(f->ip);] *)
Definition release (bp ip : nat) : M kern unit :=
  zoom bio_of_kern (brelse bp);;;
  zoom fs_of_kern (iunlock (Some ip)).

(** [if(!f->ip->tags) f->ip->tags = balloc(f->ip->dev);] *)
Definition tag_block (ip : nat) : M kern unit :=
  let! i := gets (i_of ip) in
  if i_tags i =? 0 then
    let! b := zoom bio_of_kern (balloc (i_dev i)) in
    zoom fs_of_kern (modify (upd_inode ip (i_set_tags b)))
  else ret tt.

(** [buftag = bread(f->ip->dev, f->ip->tags)]. *)
Definition bread_tags (ip : nat) : M kern nat :=
  let! i := gets (i_of ip) in
  zoom bio_of_kern (bread (i_dev i) (i_tags i)).

(** ** tagFile *)

(** The block with a new slot at [e]. *)
Definition tag_new (e : Z) (key value : list Z) (valueLength : Z) (str : list Z) : list Z :=
  splice (e + 10) (slice 0 valueLength value)
    (splice e (slice 0 (strlen key) key)
      (splice e (zeros 28) str)).

(** The block with the value of the slot at [p] replaced. *)
Definition tag_update (p : Z) (value : list Z) (valueLength : Z) (str : list Z) : list Z :=
  splice (p + 10) (slice 0 valueLength value) (splice (p + 10) (zeros 18) str).

Definition tagFile (fd : Z) (key value : cptr) (valueLength : Z) : M kern Z :=
  let! fo := fd_file fd in
  match fo with
  | None => ret (-1)
  | Some f =>
      let! ff := gets (file_at f) in
      match inode_of f_writable ff with
      | None => ret (-1)
      | Some ip =>
          if bad_key key then ret (-1)
          else if isnull value || (valueLength <? 0) || (18 <? valueLength) then ret (-1)
          else
            zoom fs_of_kern (ilock (Some ip));;;
            tag_block ip;;;
            let! bp := bread_tags ip in
            let! str := gets (kdata bp) in
            let keyPosition := searchKey (c_mem key) str in
            let endPosition := searchEnd str in
            if (keyPosition <? 0) && (endPosition <? 0) then
              release bp ip;;; ret (-1)
            else
              zoom bio_of_kern (set_bdata bp
                (if keyPosition <? 0
                 then tag_new endPosition (c_mem key) (c_mem value) valueLength str
                 else tag_update keyPosition (c_mem value) valueLength str));;;
              zoom bio_of_kern (bwrite bp);;;
              release bp ip;;;
              ret 1
      end
  end.

(** ** removeFileTag *)

Definition tag_remove (p : Z) (str : list Z) : list Z := splice p (zeros 28) str.

Definition removeFileTag (fd : Z) (key : cptr) : M kern Z :=
  let! fo := fd_file fd in
  match fo with
  | None => ret (-1)
  | Some f =>
      let! ff := gets (file_at f) in
      match inode_of f_writable ff with
      | None => ret (-1)
      | Some ip =>
          let! i := gets (i_of ip) in
          if i_tags i =? 0 then ret (-1)
          else if bad_key key then ret (-1)
          else
            zoom fs_of_kern (ilock (Some ip));;;
            let! bp := bread_tags ip in
            let! str := gets (kdata bp) in
            let keyPosition := searchKey (c_mem key) str in
            if keyPosition <? 0 then
              release bp ip;;; ret (-1)
            else
              zoom bio_of_kern (set_bdata bp (tag_remove keyPosition str));;;
              zoom bio_of_kern (bwrite bp);;;
              release bp ip;;;
              ret 1
      end
  end.

(** ** getFileTag *)

(** [for(i = 0; (i < 18) && ((i < length) || found_key[i]); i++);] *)
Fixpoint value_len (fuel : nat) (v : list Z) (length i : Z) : Z :=
  match fuel with
  | O => i
  | S fuel =>
      if (i <? 18) && ((i <? length) || negb (nthb v i =? 0))
      then value_len fuel v length (i + 1)
      else i
  end.

(** The result and the bytes copied to [buffer]. *)
Definition getFileTag (fd : Z) (key : cptr) (length : Z) : M kern (Z * list Z) :=
  let! fo := fd_file fd in
  match fo with
  | None => ret (-1, [])
  | Some f =>
      let! ff := gets (file_at f) in
      match inode_of f_writable ff with
      | None => ret (-1, [])
      | Some ip =>
          if bad_key key then ret (-1, [])
          else
            zoom fs_of_kern (ilock (Some ip));;;
            let! i := gets (i_of ip) in
            if i_tags i =? 0 then
              zoom fs_of_kern (iunlock (Some ip));;; ret (-1, [])
            else
              let! bp := bread_tags ip in
              let! str := gets (kdata bp) in
              let keyPosition := searchKey (c_mem key) str in
              if keyPosition <? 0 then
                release bp ip;;; ret (-1, [])
              else
                let v := slice (keyPosition + 10) 18 str in
                let i := value_len 19 v length 0 in
                release bp ip;;;
                ret (i, if length <? i then [] else slice 0 i v)
      end
  end.

(** ** getAllTags *)

(** The loop over the slots: the keys copied so far, and -1 or their
    number. *)
Fixpoint list_tags (slots : list Z) (str : list Z) (maxTag : Z) (keys : list (list Z))
  : Z * list (list Z) :=
  match slots with
  | [] => (Z.of_nat (length keys), keys)
  | i :: slots =>
      if nthb str i =? 0 then list_tags slots str maxTag keys
      else if maxTag <=? Z.of_nat (length keys) then (-1, keys)
      else
        let s := drop (Z.to_nat i) str in
        list_tags slots str maxTag (keys ++ [slice 0 (strlen s + 1) s])
  end.

Definition getAllTags (fd keys maxTag : Z) : M kern (Z * list (list Z)) :=
  let! fo := fd_file fd in
  match fo with
  | None => ret (-1, [])
  | Some f =>
      let! ff := gets (file_at f) in
      match inode_of f_readable ff with
      | None => ret (-1, [])
      | Some ip =>
          if (keys =? 0) || (maxTag <? 0) then ret (-1, [])
          else
            zoom fs_of_kern (ilock (Some ip));;;
            tag_block ip;;;
            let! bp := bread_tags ip in
            let! str := gets (kdata bp) in
            release bp ip;;;
            ret (list_tags (range 0 BSIZE 32) str maxTag [])
      end
  end.

(** ** getFilesByTag *)

(** One more than the index of the last nonzero byte among the first [n]. *)
Fixpoint last_nonzero (n : nat) (l : list Z) : Z :=
  match n with
  | O => 0
  | S n => if nthb l (Z.of_nat n) =? 0 then last_nonzero n l else Z.of_nat n + 1
  end.

(** Does the value in the slot at [p] have [valueLength] bytes, those of
    [value]? *)
Definition value_match (p : Z) (str value : list Z) (valueLength : Z) : bool :=
  let v := drop (Z.to_nat (p + 10)) str in
  (last_nonzero 18 v =? valueLength) &&
  forallb (fun j => nthb v j =? nthb value j) (seqZ 0 valueLength).

(** Append the NUL-terminated [name] to the names in [results]; [None] when
    it does not fit. *)
Definition add_result (name results : list Z) (resultsLength : Z) : option (list Z) :=
  let k := last_nonzero (Z.to_nat resultsLength) results in
  let k := if k =? 0 then k else k + 1 in
  let n := strlen name in
  if n <=? resultsLength - k
  then Some (<[Z.to_nat (k + n) := 0]> (splice k (slice 0 (n + 1) name) results))
  else None.

(** The body of the loop over the entries of a directory block: the entry at
    byte [o] of the block in buffer [bp].  The inode reference [iget] takes
    is not given back. *)
Definition files_entry (key value : cptr) (valueLength resultsLength : Z) (root bp : nat)
    (acc : Z * list Z) (o : Z) : M kern ((Z * list Z) + list Z) :=
  let '(count, results) := acc in
  let! d := gets (kdata bp) in
  let de := dirent_at o d in
  if de_inum de =? 0 then ret (inl (count, results))
  else
    let! r := gets (i_of root) in
    let! each := zoom fs_of_kern (iget (i_dev r) (de_inum de)) in
    let! e := gets (i_of each) in
    if i_tags e =? 0 then ret (inl (count, results))
    else
      let! tagbf := zoom bio_of_kern (bread (i_dev r) (i_tags e)) in
      let! str := gets (kdata tagbf) in
      zoom bio_of_kern (brelse tagbf);;;
      let tag_pos := searchKey (c_mem key) str in
      if (0 <=? tag_pos) && value_match tag_pos str (c_mem value) valueLength then
        match add_result (drop (Z.to_nat (o + 2)) d) results resultsLength with
        | Some results => ret (inl (count + 1, results))
        | None => zoom bio_of_kern (brelse bp);;; ret (inr results)
        end
      else ret (inl (count, results)).

(** The loop over the blocks of the root directory. *)
Definition files_block (key value : cptr) (valueLength resultsLength : Z) (root : nat)
    (acc : Z * list Z) (off : Z) : M kern ((Z * list Z) + list Z) :=
  let! b := zoom fs_of_kern (bmap root (off / BSIZE)) in
  let! r := gets (i_of root) in
  let! bp := zoom bio_of_kern (bread (i_dev r) b) in
  let! x := for_fold (range 0 BSIZE sizeof_dirent)
              (files_entry key value valueLength resultsLength root bp) acc in
  match x with
  | inr results => ret (inr results)
  | inl acc => zoom bio_of_kern (brelse bp);;; ret (inl acc)
  end.

(** The result and the new contents of [results].  The root inode's size does
    not change in the loop. *)
Definition getFilesByTag (key value : cptr) (valueLength : Z) (results : list Z)
    (resultsLength : Z) : M kern (Z * list Z) :=
  let! root := zoom fs_of_kern (iget ROOTDEV ROOTINO) in
  let! r := gets (i_of root) in
  let! x := for_fold (range 0 (i_size r) BSIZE)
              (files_block key value valueLength resultsLength root) (0, results) in
  match x with
  | inl (count, results) => ret (count, results)
  | inr results => ret (-1, results)
  end.
