(* ===== verification/TagSpec.v ===== *)
(** * The tag block as a map from keys to values

    What the sixteen slots of a tag block mean, and that the searches and the
    updates of kernel/fs.c implement lookup, insertion, overwriting and
    deletion of that map. *)

From S2P Require Import Prelude Monad Params CString ProcTable Ide Bio Block Inode File Tags.

(** ** Slots *)

Definition NTAG : Z := 16.

Definition t_used (str : list Z) (k : Z) : Prop := nthb str (32 * k) <> 0.
Definition t_name (str : list Z) (k : Z) : list Z := cstr (slice (32 * k) 10 str).
Definition t_value (str : list Z) (k : Z) : list Z := slice (32 * k + 10) 18 str.

#[global] Instance t_used_dec str k : Decision (t_used str k).
Proof. unfold t_used. apply _. Defined.

(** Keys are NUL-terminated inside their slot and occur once. *)
Record tag_wf (str : list Z) : Prop := {
  tw_block : is_block str;
  tw_name : forall k, 0 <= k < NTAG -> t_used str k -> strlen (slice (32 * k) 10 str) <= 9;
  tw_uniq : forall k k', 0 <= k < NTAG -> 0 <= k' < NTAG -> t_used str k -> t_used str k' ->
    t_name str k = t_name str k' -> k = k';
}.

(** The tags of a block. *)
Definition tags_of (str : list Z) : gmap (list Z) (list Z) :=
  list_to_map ((fun k => (t_name str k, t_value str k)) <$>
    filter (fun k => t_used str k) (seqZ 0 NTAG)).

(** A key the system calls accept, as the bytes before the NUL. *)
Definition key_ok (key : list Z) : Prop := 1 <= strlen key <= 9.

(** The value as it is stored: padded with zeros to 18 bytes. *)
Definition pad18 (value : list Z) (n : Z) : list Z := slice 0 n value ++ zeros (18 - n).

(** ** Strings in a slot *)

(** The name of a slot is the given key. *)
Lemma t_name_key str key k :
  key_ok key -> 0 <= k < NTAG ->
  t_name str k = cstr key <-> forall x, 0 <= x <= strlen key -> nthb key x = nthb str (32 * k + x).
Proof.
  intros Hk Hr. unfold t_name. split.
  - intros E. symmetry in E. rewrite cstr_eq in E. intros x Hx. rewrite E by done.
    destruct Hk. by rewrite nthb_slice by lia.
  - intros E. symmetry. apply cstr_eq. intros x Hx. destruct Hk. rewrite nthb_slice by lia. by apply E.
Qed.

Lemma t_used_key str key k :
  key_ok key -> 0 <= k < NTAG -> t_name str k = cstr key -> t_used str k.
Proof.
  intros Hk Hr E. rewrite t_name_key in E by done. unfold t_used.
  rewrite <- (Z.add_0_r (32 * k)), <- E by (destruct Hk; lia).
  destruct (strlen_spec key) as [_ Hnz]. apply Hnz. destruct Hk. lia.
Qed.

(** ** [searchKey] *)

Lemma key_scan_spec fuel key str k j :
  key_ok key -> 0 <= k < NTAG -> 0 <= j <= strlen key -> strlen key - j < Z.of_nat fuel ->
  key_scan fuel key str (strlen key) (32 * k) j =
  if decide (Forall (fun x => nthb key x = nthb str (32 * k + x)) (seqZ j (strlen key - j + 1)))
  then Some (32 * k) else None.
Proof.
  intros [Hk1 Hk9] Hk. revert j. induction fuel as [|fuel IH]; intros j Hj Hf; [lia|]. cbn [key_scan].
  destruct (strlen_spec key) as [H0 Hnz]. change NTAG with 16 in Hk.
  rewrite (proj2 (Z.ltb_lt j 10)), (proj2 (Z.ltb_lt (32 * k + j) BSIZE)) by (change BSIZE with 512; lia).
  cbn [andb]. destruct (Z.eqb_spec (nthb key j) (nthb str (32 * k + j))) as [E|E].
  - destruct (Z.eqb_spec j (strlen key)) as [->|Hne].
    + rewrite <- E, H0. cbn [andb Z.eqb]. rewrite decide_True; [f_equal; lia|].
      apply Forall_forall. intros x Hx. apply elem_of_seqZ in Hx. by replace x with (strlen key) by lia.
    + cbn [andb]. rewrite IH by lia. apply decide_ext. rewrite !Forall_forall. setoid_rewrite elem_of_seqZ. split.
      * intros Hx x Hr. destruct (Z.eq_dec x j) as [->|]; [done|]. apply Hx. lia.
      * intros Hx x Hr. apply Hx. lia.
  - rewrite decide_False; [done|]. rewrite Forall_forall. intros Hx. apply E, Hx, elem_of_seqZ. lia.
Qed.

Lemma elem_of_slots i : i ∈ range 0 BSIZE 32 <-> exists k, 0 <= k < NTAG /\ i = 32 * k.
Proof.
  rewrite elem_of_range by done. change BSIZE with 512. change NTAG with 16. split.
  - intros (k & Hk & -> & Hlt). exists k. lia.
  - intros (k & Hk & ->). exists k. lia.
Qed.

(** One slot: its key or nothing. *)
Lemma key_scan_slot key str k :
  key_ok key -> 0 <= k < NTAG ->
  key_scan 11 key str (strlen key) (32 * k) 0 =
  if decide (t_name str k = cstr key) then Some (32 * k) else None.
Proof.
  intros Hk Hr. rewrite key_scan_spec; [|done|done|destruct Hk; lia|destruct Hk; lia].
  apply decide_ext. rewrite t_name_key, Forall_forall by done. setoid_rewrite elem_of_seqZ.
  split; intros Hx x Hxr; apply Hx; lia.
Qed.

Lemma searchKey_spec key str :
  key_ok key ->
  (exists k, 0 <= k < NTAG /\ t_name str k = cstr key /\ searchKey key str = 32 * k) \/
  ((forall k, 0 <= k < NTAG -> t_name str k <> cstr key) /\ searchKey key str = -1).
Proof.
  intros Hk. unfold searchKey.
  destruct (first_some _ _) as [i|] eqn:E.
  - left. apply first_some_Some in E as (pre & x & post & Hl & Hx & _).
    assert (x ∈ range 0 BSIZE 32) as Hin by (rewrite Hl; set_solver).
    apply elem_of_slots in Hin as (k & Hr & ->). rewrite key_scan_slot in Hx by done.
    case_decide as Hn; simplify_eq. by exists k.
  - right. split; [|done]. intros k Hr Hn. apply first_some_None in E.
    rewrite Forall_forall in E. specialize (E (32 * k)). rewrite key_scan_slot, decide_True in E by done.
    assert (32 * k ∈ range 0 BSIZE 32) as Hin by (apply elem_of_slots; eauto).
    by apply E in Hin.
Qed.

(** [searchEnd]: the first slot whose key is empty, or -1. *)
Lemma searchEnd_spec str :
  (exists k, 0 <= k < NTAG /\ ~ t_used str k /\ searchEnd str = 32 * k) \/
  ((forall k, 0 <= k < NTAG -> t_used str k) /\ searchEnd str = -1).
Proof.
  unfold searchEnd, t_used. destruct (first_some _ _) as [i|] eqn:E.
  - left. apply first_some_Some in E as (pre & x & post & Hl & Hx & _).
    assert (x ∈ range 0 BSIZE 32) as Hin by (rewrite Hl; set_solver).
    apply elem_of_slots in Hin as (k & Hr & ->).
    destruct (Z.eqb_spec (nthb str (32 * k)) 0); simplify_eq. exists k. simpl. split_and!; [lia..|tauto|].
    rewrite (proj2 (Z.eqb_neq (32 * k) BSIZE)); [done|]. change NTAG with 16 in Hr.
    change BSIZE with 512. lia.
  - right. split; [|done]. intros k Hr. apply first_some_None in E. rewrite Forall_forall in E.
    specialize (E (32 * k)). cbv beta in E. destruct (Z.eqb_spec (nthb str (32 * k)) 0); [|done].
    assert (32 * k ∈ range 0 BSIZE 32) as Hin by (apply elem_of_slots; eauto).
    by apply E in Hin.
Qed.

(** ** The map *)

Lemma tags_lookup str n v :
  tag_wf str ->
  tags_of str !! n = Some v <->
  exists k, 0 <= k < NTAG /\ t_used str k /\ t_name str k = n /\ t_value str k = v.
Proof.
  intros Hw. unfold tags_of.
  assert (NoDup ((fun k => (t_name str k, t_value str k)) <$>
    filter (fun k => t_used str k) (seqZ 0 NTAG)).*1) as Hnd.
  { rewrite <- list_fmap_compose. apply NoDup_fmap_2_strong.
    - intros x y Hx Hy E. unfold compose in E. simpl in E.
      apply list_elem_of_filter in Hx as [Hx Hx'], Hy as [Hy Hy'].
      apply elem_of_seqZ in Hx', Hy'. apply (tw_uniq _ Hw); (lia || done).
    - apply NoDup_filter, NoDup_seqZ. }
  rewrite <- elem_of_list_to_map by done. rewrite list_elem_of_fmap.
  setoid_rewrite list_elem_of_filter. setoid_rewrite elem_of_seqZ. split.
  - intros (k & [= -> ->] & Hu & Hr). exists k. split_and!; [lia..|done|done|done].
  - intros (k & Hr & Hu & <- & <-). exists k. split_and!; [done|done|lia..].
Qed.

Lemma tags_lookup_None str n :
  tag_wf str -> (forall k, 0 <= k < NTAG -> t_used str k -> t_name str k <> n) ->
  tags_of str !! n = None.
Proof.
  intros Hw Hn. destruct (tags_of str !! n) as [v|] eqn:E; [|done].
  apply tags_lookup in E as (k & Hr & Hu & Hk & _); [|done]. by destruct (Hn k).
Qed.

(** Slot [j] reads the same in both blocks. *)
Definition slot_same (str str' : list Z) (j : Z) : Prop :=
  forall x, 0 <= x < 28 -> nthb str' (32 * j + x) = nthb str (32 * j + x).

Lemma slot_same_fields str str' j :
  slot_same str str' j ->
  (t_used str' j <-> t_used str j) /\ t_name str' j = t_name str j /\ t_value str' j = t_value str j /\
  strlen (slice (32 * j) 10 str') = strlen (slice (32 * j) 10 str).
Proof.
  intros Hs.
  assert (slice (32 * j) 10 str' = slice (32 * j) 10 str) as E1.
  { apply list_fmap_ext. intros i x Hx. apply lookup_seqZ in Hx. apply Hs. lia. }
  assert (slice (32 * j + 10) 18 str' = slice (32 * j + 10) 18 str) as E2.
  { apply list_fmap_ext. intros i x Hx. apply lookup_seqZ in Hx.
    rewrite <- !Z.add_assoc. apply Hs. lia. }
  unfold t_name, t_value, t_used. rewrite E1, E2. split_and!; [|done..].
  rewrite <- (Z.add_0_r (32 * j)), Hs by lia. done.
Qed.

(** One slot holds a given key and value, the others are as before. *)
Lemma tag_set str str' k name v :
  tag_wf str -> is_block str' -> 0 <= k < NTAG ->
  (forall j, 0 <= j < NTAG -> j <> k -> slot_same str str' j) ->
  t_used str' k -> t_name str' k = name -> t_value str' k = v ->
  strlen (slice (32 * k) 10 str') <= 9 ->
  (forall j, 0 <= j < NTAG -> j <> k -> t_used str j -> t_name str j <> name) ->
  (t_used str k -> t_name str k = name) ->
  tag_wf str' /\ tags_of str' = <[name := v]> (tags_of str).
Proof.
  intros Hw Hb Hk Hsame Hu Hn Hv Hl Hfresh Hold.
  assert (forall j, 0 <= j < NTAG -> j <> k -> (t_used str' j <-> t_used str j) /\
    t_name str' j = t_name str j /\ t_value str' j = t_value str j /\
    strlen (slice (32 * j) 10 str') = strlen (slice (32 * j) 10 str)) as Hf
    by (intros; by apply slot_same_fields, Hsame).
  assert (tag_wf str') as Hw'.
  { split; [done| |].
    - intros j Hj Huj. destruct (Z.eq_dec j k) as [->|Hne]; [done|].
      destruct (Hf j Hj Hne) as (Hu1 & _ & _ & ->). apply (tw_name _ Hw); tauto.
    - intros j j' Hj Hj' Huj Huj' E.
      destruct (Z.eq_dec j k) as [->|Hne], (Z.eq_dec j' k) as [->|Hne']; [done|..].
      + destruct (Hf j' Hj' Hne') as (Hu1 & Hn1 & _). destruct (Hfresh j'); [done..|tauto|congruence].
      + destruct (Hf j Hj Hne) as (Hu1 & Hn1 & _). destruct (Hfresh j); [done..|tauto|congruence].
      + destruct (Hf j Hj Hne) as (Hu1 & Hn1 & _), (Hf j' Hj' Hne') as (Hu2 & Hn2 & _).
        apply (tw_uniq _ Hw); [done|done|tauto|tauto|congruence]. }
  split; [done|]. apply map_eq. intros n. apply option_eq. intros w.
  rewrite lookup_insert_Some, !tags_lookup by done. split.
  - intros (j & Hj & Huj & Hnj & Hvj). destruct (Z.eq_dec j k) as [->|Hne].
    + left. split; congruence.
    + destruct (Hf j Hj Hne) as (Hu1 & Hn1 & Hv1 & _). right. split.
      * intros <-. destruct (Hfresh j); [done..|tauto|congruence].
      * exists j. split_and!; [lia..|tauto|congruence|congruence].
  - intros [[<- <-]|[Hne (j & Hj & Huj & Hnj & Hvj)]]; [by exists k|].
    destruct (Z.eq_dec j k) as [->|Hnk]; [by rewrite Hold in Hnj|].
    destruct (Hf j Hj Hnk) as (Hu1 & Hn1 & Hv1 & _).
    exists j. split_and!; [lia..|tauto|congruence|congruence].
Qed.

(** One slot becomes free, the others are as before. *)
Lemma tag_unset str str' k :
  tag_wf str -> is_block str' -> 0 <= k < NTAG ->
  (forall j, 0 <= j < NTAG -> j <> k -> slot_same str str' j) ->
  ~ t_used str' k -> t_used str k ->
  tag_wf str' /\ tags_of str' = delete (t_name str k) (tags_of str).
Proof.
  intros Hw Hb Hk Hsame Hu Huk.
  assert (forall j, 0 <= j < NTAG -> t_used str' j -> j <> k /\ t_used str j /\
    t_name str' j = t_name str j /\ t_value str' j = t_value str j /\
    strlen (slice (32 * j) 10 str') = strlen (slice (32 * j) 10 str)) as Hf.
  { intros j Hj Huj. assert (j <> k) as Hne by (by intros ->).
    destruct (slot_same_fields _ _ _ (Hsame j Hj Hne)) as (? & ? & ? & ?). tauto. }
  assert (tag_wf str') as Hw'.
  { split; [done| |].
    - intros j Hj Huj. destruct (Hf j Hj Huj) as (? & ? & _ & _ & ->). by apply (tw_name _ Hw).
    - intros j j' Hj Hj' Huj Huj' E. destruct (Hf j Hj Huj) as (? & ? & E1 & _).
      destruct (Hf j' Hj' Huj') as (? & ? & E2 & _). apply (tw_uniq _ Hw); (done || congruence). }
  split; [done|]. apply map_eq. intros n. apply option_eq. intros w.
  rewrite lookup_delete_Some, !tags_lookup by done. split.
  - intros (j & Hj & Huj & Hnj & Hvj). destruct (Hf j Hj Huj) as (Hne & Huj' & E1 & E2 & _). split.
    + intros E. apply Hne. apply (tw_uniq _ Hw); (done || congruence).
    + exists j. split_and!; [lia..|done|congruence|congruence].
  - intros (Hne & j & Hj & Huj & Hnj & Hvj). assert (j <> k) as Hjk by congruence.
    destruct (slot_same_fields _ _ _ (Hsame j Hj Hjk)) as (? & ? & ? & _).
    exists j. split_and!; [lia..|tauto|congruence|congruence].
Qed.

(** ** The updates of the block *)

Lemma pad18_nthb value n x :
  0 <= n <= 18 -> 0 <= x < 18 -> nthb (pad18 value n) x = if x <? n then nthb value x else 0.
Proof.
  intros Hn Hx. unfold pad18. destruct (Z.ltb_spec x n).
  - transitivity (nthb (slice 0 n value) x); [|by rewrite nthb_slice by lia].
    unfold nthb. rewrite lookup_app_l by (rewrite length_slice; lia). done.
  - unfold nthb. rewrite lookup_app_r by (rewrite length_slice; lia).
    rewrite length_slice.
    pose proof (nthb_zeros (18 - n) (Z.of_nat (Z.to_nat x - Z.to_nat n))) as E.
    unfold nthb in E. by rewrite Nat2Z.id in E.
Qed.

Lemma length_pad18 value n : 0 <= n <= 18 -> length (pad18 value n) = 18%nat.
Proof. intros Hn. unfold pad18. rewrite length_app, length_slice, length_zeros. lia. Qed.

(** The value field is [pad18] when its bytes are. *)
Lemma t_value_pad str k value n :
  0 <= n <= 18 ->
  (forall x, 0 <= x < 18 -> nthb str (32 * k + 10 + x) = if x <? n then nthb value x else 0) ->
  t_value str k = pad18 value n.
Proof.
  intros Hn Hx. unfold t_value. apply nthb_ext; [by rewrite length_slice, length_pad18|].
  rewrite length_slice. intros x Hr. rewrite nthb_slice by lia. rewrite pad18_nthb by lia. apply Hx. lia.
Qed.

Section updates.
Context (str key value : list Z) (k n : Z).
Hypothesis Hw : tag_wf str.
Hypothesis Hk : key_ok key.
Hypothesis Hr : 0 <= k < NTAG.
Hypothesis Hn : 0 <= n <= 18.
Hypothesis Hkb : Forall is_byte key.
Hypothesis Hvb : Forall is_byte value.

Lemma str_len : Z.of_nat (length str) = 512.
Proof. apply is_block_len, (tw_block _ Hw). Qed.

Lemma tag_new_bytes x :
  0 <= x < 28 ->
  nthb (tag_new (32 * k) key value n str) (32 * k + x) =
  if x <? strlen key then nthb key x
  else if (10 <=? x) && (x <? 10 + n) then nthb value (x - 10) else 0.
Proof.
  intros Hx. pose proof str_len as Hl. destruct Hk as [Hk1 Hk9]. change NTAG with 16 in Hr. unfold tag_new.
  destruct (Z.ltb_spec x (strlen key)).
  - rewrite nthb_splice_out by lia.
    rewrite nthb_splice_in by (rewrite ?length_slice, ?length_splice; lia).
    rewrite nthb_slice by lia. f_equal. lia.
  - destruct (Z.leb_spec 10 x), (Z.ltb_spec x (10 + n)); cbn [andb]; try lia.
    1: { rewrite nthb_splice_in by (rewrite ?length_slice, ?length_splice; lia).
         rewrite nthb_slice by lia. f_equal. lia. }
    all: rewrite !nthb_splice_out by (rewrite ?length_slice; lia).
    all: rewrite nthb_splice_in by (rewrite ?length_zeros; lia); apply nthb_zeros.
Qed.

Lemma tag_new_other j : 0 <= j < NTAG -> j <> k -> slot_same str (tag_new (32 * k) key value n str) j.
Proof.
  intros Hj Hne x Hx. destruct Hk as [Hk1 Hk9]. change NTAG with 16 in *. unfold tag_new.
  rewrite !nthb_splice_out by (rewrite ?length_slice, ?length_zeros; lia). done.
Qed.

Lemma is_block_tag_new : is_block (tag_new (32 * k) key value n str).
Proof.
  unfold tag_new. repeat apply is_block_splice; auto using tw_block with kernel.
Qed.

(** A new tag in a free slot. *)
Lemma tag_new_spec :
  ~ t_used str k -> (forall j, 0 <= j < NTAG -> t_name str j <> cstr key) ->
  tag_wf (tag_new (32 * k) key value n str) /\
  tags_of (tag_new (32 * k) key value n str) = <[cstr key := pad18 value n]> (tags_of str).
Proof.
  intros Hfree Hno. set (str' := tag_new (32 * k) key value n str).
  pose proof Hk as [Hk1 Hk9]. destruct (strlen_spec key) as [Hz Hnz].
  assert (t_name str' k = cstr key) as Hname.
  { apply t_name_key; [done..|]. intros x Hx. unfold str'. rewrite tag_new_bytes by lia.
    destruct (Z.ltb_spec x (strlen key)); [done|]. replace x with (strlen key) by lia.
    destruct (Z.leb_spec 10 (strlen key)); [lia|done]. }
  apply (tag_set str str' k); try done.
  - apply is_block_tag_new.
  - intros. by apply tag_new_other.
  - by apply (t_used_key str' key k).
  - apply t_value_pad; [done|]. intros x Hx. unfold str'. rewrite <- Z.add_assoc, tag_new_bytes by lia.
    destruct (Z.ltb_spec (10 + x) (strlen key)); [lia|].
    destruct (Z.leb_spec 10 (10 + x)), (Z.ltb_spec (10 + x) (10 + n)), (Z.ltb_spec x n); try lia;
      cbn [andb]; [f_equal; lia|done].
  - unfold t_name in Hname. rewrite <- length_cstr, Hname, length_cstr. lia.
  - intros j Hj _ _. by apply Hno.
Qed.

(** A new value for an existing tag. *)
Lemma tag_update_spec :
  t_name str k = cstr key ->
  tag_wf (tag_update (32 * k) value n str) /\
  tags_of (tag_update (32 * k) value n str) = <[cstr key := pad18 value n]> (tags_of str).
Proof.
  intros Hname. pose proof str_len as Hl. pose proof (t_used_key str key k Hk Hr Hname) as Hu.
  set (str' := tag_update (32 * k) value n str).
  assert (forall y, 0 <= y < 10 -> nthb str' (32 * k + y) = nthb str (32 * k + y)) as Hlow.
  { intros y Hy. unfold str', tag_update.
    rewrite !nthb_splice_out by (rewrite ?length_slice, ?length_zeros; lia). done. }
  assert (slice (32 * k) 10 str' = slice (32 * k) 10 str) as Esl.
  { apply list_fmap_ext. intros i x Hx. apply lookup_seqZ in Hx. apply Hlow. lia. }
  assert (t_name str' k = cstr key) as Hname' by (unfold t_name; by rewrite Esl).
  apply (tag_set str str' k); try done.
  - unfold str', tag_update. repeat apply is_block_splice; auto using tw_block with kernel.
  - intros j Hj Hne x Hx. unfold str', tag_update. change NTAG with 16 in *.
    rewrite !nthb_splice_out by (rewrite ?length_slice, ?length_zeros; lia). done.
  - by apply (t_used_key str' key k).
  - apply t_value_pad; [done|]. intros x Hx. unfold str', tag_update. change NTAG with 16 in *.
    destruct (Z.ltb_spec x n).
    + rewrite nthb_splice_in by (rewrite ?length_slice, ?length_splice; lia).
      rewrite nthb_slice by lia. f_equal. lia.
    + rewrite nthb_splice_out by (rewrite ?length_slice; lia).
      rewrite nthb_splice_in by (rewrite ?length_zeros; lia). apply nthb_zeros.
  - rewrite Esl. by apply (tw_name _ Hw).
  - intros j Hj Hne Huj E. apply Hne. apply (tw_uniq _ Hw); (done || congruence).
Qed.

(** Removing a tag. *)
Lemma tag_remove_spec :
  t_name str k = cstr key ->
  tag_wf (tag_remove (32 * k) str) /\
  tags_of (tag_remove (32 * k) str) = delete (cstr key) (tags_of str).
Proof.
  intros Hname. pose proof str_len as Hl. pose proof (t_used_key str key k Hk Hr Hname) as Hu.
  rewrite <- Hname. change NTAG with 16 in Hr. apply tag_unset; try done.
  - unfold tag_remove. apply is_block_splice; auto using tw_block with kernel.
  - intros j Hj Hne x Hx. unfold tag_remove. change NTAG with 16 in *.
    apply nthb_splice_out; rewrite ?length_zeros; lia.
  - unfold t_used, tag_remove. rewrite nthb_splice_in by (rewrite ?length_zeros; lia).
    rewrite nthb_zeros. tauto.
Qed.

End updates.

(** A fresh block has no tags. *)
Lemma tag_wf_zeros : tag_wf (zeros BSIZE) /\ tags_of (zeros BSIZE) = ∅.
Proof.
  assert (tag_wf (zeros BSIZE)) as Hw.
  { split; [apply is_block_zeros| |]; intros k; unfold t_used; rewrite nthb_zeros; done. }
  split; [done|]. apply map_eq. intros n. rewrite lookup_empty.
  apply tags_lookup_None; [done|]. intros k _ Hu. unfold t_used in Hu. by rewrite nthb_zeros in Hu.
Qed.

(** ** The updates the calls make *)

Lemma length_filter_all {A} (P : A -> Prop) `{!forall x, Decision (P x)} (l : list A) :
  (forall x, x ∈ l -> P x) -> filter P l = l.
Proof.
  induction l as [|x l IH]; [done|]. intros Hall. rewrite filter_cons_True by (apply Hall; left).
  f_equal. apply IH. intros y Hy. apply Hall. by right.
Qed.

(** A block whose slots are all used has 16 tags. *)
Lemma tags_full str :
  tag_wf str -> (forall k, 0 <= k < NTAG -> t_used str k) -> size (tags_of str) = Z.to_nat NTAG.
Proof.
  intros Hw Hu. unfold tags_of.
  rewrite length_filter_all by (intros k Hk; apply elem_of_seqZ in Hk; apply Hu; lia).
  rewrite map_size_list_to_map; [by rewrite length_fmap, length_seqZ|].
  rewrite <- list_fmap_compose. apply NoDup_fmap_2_strong; [|apply NoDup_seqZ].
  intros a b Ha Hb. rewrite elem_of_seqZ in Ha, Hb. cbn. intros E. apply (tw_uniq str); auto; lia.
Qed.

(** What [tagFile] stores in the block. *)
Definition tag_store (key value : list Z) (n : Z) (str : list Z) : list Z :=
  if searchKey key str <? 0 then tag_new (searchEnd str) key value n str
  else tag_update (searchKey key str) value n str.

Lemma tag_store_spec str key value n :
  tag_wf str -> key_ok key -> 0 <= n <= 18 -> Forall is_byte key -> Forall is_byte value ->
  if (searchKey key str <? 0) && (searchEnd str <? 0)
  then size (tags_of str) = Z.to_nat NTAG /\ tags_of str !! cstr key = None
  else tag_wf (tag_store key value n str) /\
       tags_of (tag_store key value n str) = <[cstr key := pad18 value n]> (tags_of str).
Proof.
  intros Hw Hk Hn Hkb Hvb. unfold tag_store.
  destruct (searchKey_spec key str Hk) as [(k & Hr & Ek & ->)|[Hno ->]].
  - rewrite (proj2 (Z.ltb_ge (32 * k) 0)) by lia. by apply tag_update_spec.
  - destruct (searchEnd_spec str) as [(k & Hr & Ek & ->)|[Hall ->]].
    + rewrite (proj2 (Z.ltb_ge (32 * k) 0)) by lia. by apply tag_new_spec.
    + split; [by apply tags_full|]. apply tags_lookup_None; auto.
Qed.

(** What [removeFileTag] does to the block. *)
Lemma tag_remove_search str key :
  tag_wf str -> key_ok key ->
  if searchKey key str <? 0 then tags_of str !! cstr key = None
  else tag_wf (tag_remove (searchKey key str) str) /\ is_Some (tags_of str !! cstr key) /\
       tags_of (tag_remove (searchKey key str) str) = delete (cstr key) (tags_of str).
Proof.
  intros Hw Hk. destruct (searchKey_spec key str Hk) as [(k & Hr & Ek & ->)|[Hno ->]].
  - rewrite (proj2 (Z.ltb_ge (32 * k) 0)) by lia.
    destruct (tag_remove_spec str key k 0 Hw Hk Hr ltac:(lia) Ek) as [? ?]. split_and!; [done| |done].
    exists (t_value str k). apply tags_lookup; [done|]. exists k.
    split; [done|]. split; [by eapply t_used_key|done].
  - simpl. apply tags_lookup_None; auto.
Qed.

(** The value [getFileTag] finds. *)
Lemma searchKey_value str key :
  tag_wf str -> key_ok key ->
  if searchKey key str <? 0 then tags_of str !! cstr key = None
  else tags_of str !! cstr key = Some (slice (searchKey key str + 10) 18 str).
Proof.
  intros Hw Hk. destruct (searchKey_spec key str Hk) as [(k & Hr & Ek & ->)|[Hno ->]].
  - rewrite (proj2 (Z.ltb_ge (32 * k) 0)) by lia.
    apply tags_lookup; [done|]. exists k. split; [done|]. split; [by eapply t_used_key|done].
  - simpl. apply tags_lookup_None; auto.
Qed.

(** ** Listing and reading tags *)

Definition t_entry (str : list Z) (i : Z) : list Z :=
  let s := drop (Z.to_nat i) str in slice 0 (strlen s + 1) s.

(** The loop of [getAllTags]. *)
Lemma list_tags_spec slots str maxTag keys :
  Z.of_nat (length keys) <= maxTag ->
  list_tags slots str maxTag keys =
  let found := t_entry str <$> filter (fun i => nthb str i <> 0) slots in
  if Z.of_nat (length keys) + Z.of_nat (length found) <=? maxTag
  then (Z.of_nat (length (keys ++ found)), keys ++ found)
  else (-1, keys ++ take (Z.to_nat maxTag - length keys) found).
Proof.
  revert keys. induction slots as [|i slots IH]; intros keys Hm; cbn [list_tags].
  - cbn. rewrite app_nil_r, (proj2 (Z.leb_le _ _)) by lia. done.
  - destruct (Z.eqb_spec (nthb str i) 0) as [E|E].
    + rewrite filter_cons_False by auto. by apply IH.
    + rewrite filter_cons_True by done. cbn [fmap list_fmap length].
      destruct (Z.leb_spec maxTag (Z.of_nat (length keys))) as [Hge|Hlt].
      * rewrite (proj2 (Z.leb_gt _ _)) by lia. replace (Z.to_nat maxTag - length keys)%nat with 0%nat by lia.
        by rewrite take_0, app_nil_r.
      * rewrite IH by (rewrite length_app; cbn; lia). cbv zeta. rewrite <- !app_assoc, !length_app. cbn [app length].
        replace (Z.to_nat maxTag - length keys)%nat with (S (Z.to_nat maxTag - (length keys + 1)))%nat by lia.
        set (found := t_entry str <$> filter _ slots).
        replace (Z.of_nat (length keys + 1) + Z.of_nat (length found))
          with (Z.of_nat (length keys) + Z.of_nat (S (length found))) by lia.
        done.
Qed.

(** In a well-formed block the entry of a used slot is its key and a NUL. *)
Lemma t_entry_name str k :
  tag_wf str -> 0 <= k < NTAG -> t_used str k -> t_entry str (32 * k) = t_name str k ++ [0].
Proof.
  intros Hw Hk Hu. pose proof (tw_name str Hw k Hk Hu) as H9. unfold t_entry, t_name.
  change NTAG with 16 in Hk. destruct (tw_block str Hw) as [Hl _]. change BSIZE with 512 in Hl.
  set (a := slice (32 * k) 10 str) in *. set (s := drop _ str).
  assert (forall x, 0 <= x < 10 -> nthb s x = nthb a x) as Hs.
  { intros x Hx. subst a s. rewrite nthb_slice by lia. unfold nthb.
    rewrite lookup_drop. do 2 f_equal. lia. }
  pose proof (strlen_spec a) as [A0 A1]. pose proof (strlen_nonneg a).
  assert (strlen s = strlen a) as El.
  { apply strlen_unique; [lia|rewrite Hs by lia; done|]. intros x Hx. rewrite Hs by lia. auto. }
  apply nthb_ext.
  - rewrite length_slice, length_app, El. pose proof (length_cstr a). cbn. lia.
  - rewrite length_slice. intros x Hx. rewrite nthb_slice, Z.add_0_l, Hs by lia.
    pose proof (length_cstr a). destruct (Z.eq_dec x (strlen a)) as [->|Hne].
    + rewrite A0. unfold nthb. rewrite lookup_app_r by lia.
      by replace (Z.to_nat (strlen a) - length (cstr a))%nat with 0%nat by lia.
    + transitivity (nthb (cstr a) x).
      * rewrite nthb_cstr by lia. by rewrite (proj2 (Z.ltb_lt x (strlen a))) by lia.
      * unfold nthb. by rewrite lookup_app_l by lia.
Qed.

(** The names in use, in the order of the slots. *)
Definition t_names (str : list Z) : list (list Z) :=
  t_name str <$> filter (fun k => t_used str k) (seqZ 0 NTAG).

Lemma t_names_spec str :
  tag_wf str ->
  NoDup (t_names str) /\ length (t_names str) = size (tags_of str) /\
  list_to_set (t_names str) = dom (tags_of str).
Proof.
  intros Hw. unfold t_names, tags_of. set (us := filter _ _).
  assert (forall k, k ∈ us -> 0 <= k < NTAG /\ t_used str k) as Hus.
  { intros k. unfold us. rewrite list_elem_of_filter, elem_of_seqZ. intros [? ?]. split; [lia|done]. }
  assert (NoDup (t_name str <$> us)) as Hnd.
  { apply NoDup_fmap_2_strong; [|apply NoDup_filter, NoDup_seqZ].
    intros x y [? ?]%Hus [? ?]%Hus E. by apply (tw_uniq str). }
  split_and!; [done| |].
  - rewrite map_size_list_to_map; [by rewrite !length_fmap|]. by rewrite <- list_fmap_compose.
  - rewrite dom_list_to_map_L. by rewrite <- list_fmap_compose.
Qed.

Lemma filter_fmap {A B} (f : A -> B) (P : B -> Prop) `{!forall x, Decision (P x)} (l : list A) :
  filter P (f <$> l) = f <$> filter (fun x => P (f x)) l.
Proof.
  induction l as [|x l IH]; [done|]. cbn [fmap list_fmap]. rewrite !filter_cons, IH.
  by destruct (decide (P (f x))).
Qed.

Lemma found_names str :
  tag_wf str ->
  t_entry str <$> filter (fun i => nthb str i <> 0) (range 0 BSIZE 32) =
  (fun n => n ++ [0]) <$> t_names str.
Proof.
  intros Hw. replace (range 0 BSIZE 32) with ((fun k => 32 * k) <$> seqZ 0 NTAG) by (by vm_compute).
  unfold t_names. rewrite filter_fmap, <- !list_fmap_compose.
  apply list_fmap_ext. intros j k Hk. apply list_elem_of_lookup_2 in Hk.
  apply list_elem_of_filter in Hk as [Hu Hk]. apply elem_of_seqZ in Hk. cbn. apply t_entry_name; [done|lia|done].
Qed.

(** The listing of a well-formed block: all its names, NUL-terminated, and
    their number; or -1 and the first [maxTag] of them. *)
Lemma list_tags_names str maxTag :
  tag_wf str -> 0 <= maxTag ->
  list_tags (range 0 BSIZE 32) str maxTag [] =
  let ns := (fun n => n ++ [0]) <$> t_names str in
  if Z.of_nat (size (tags_of str)) <=? maxTag then (Z.of_nat (size (tags_of str)), ns)
  else (-1, take (Z.to_nat maxTag) ns).
Proof.
  intros Hw Hm. rewrite list_tags_spec by done. cbv zeta. rewrite found_names by done.
  destruct (t_names_spec str Hw) as (_ & <- & _). rewrite !app_nil_l, !length_fmap. cbn [length].
  rewrite Nat.sub_0_r. done.
Qed.

(** [value_len]: at least [min length 18] bytes; beyond [length], up to the
    first NUL. *)
Lemma value_len_spec fuel v n i (r := value_len fuel v n i) :
  0 <= i <= 18 -> 18 - i < Z.of_nat fuel ->
  i <= r <= 18 /\ (i <= n -> Z.min n 18 <= r) /\
  (forall j, i <= j < r -> n <= j -> nthb v j <> 0) /\
  (r < 18 -> n <= r /\ nthb v r = 0).
Proof.
  revert i r. induction fuel as [|fuel IH]; intros i r Hi Hf; [lia|]. subst r. cbn [value_len].
  destruct (Z.ltb_spec i 18) as [H18|H18]; cbn [andb].
  - destruct ((i <? n) || negb (nthb v i =? 0)) eqn:E.
    + destruct (IH (i + 1)) as (H1 & H2 & H3 & H4); [lia..|]. split_and!; [lia|lia|lia| |done].
      intros j Hj Hn. destruct (Z.eq_dec j i) as [->|]; [|apply H3; lia].
      apply orb_true_iff in E as [E|E]; zbool; [lia|done].
    + zbool. split_and!; [lia|lia|lia|lia|]. intros _. by split; [lia|].
  - split_and!; [lia|lia|lia|lia|lia].
Qed.

(** A stored string without NULs is found with its length, as long as no more
    bytes are asked for; otherwise with the number of bytes asked for. *)
Lemma value_len_pad value n m :
  0 <= n <= 18 -> (forall j, 0 <= j < n -> nthb value j <> 0) ->
  value_len 19 (pad18 value n) m 0 = if m <=? n then n else Z.min m 18.
Proof.
  intros Hn Hnz. destruct (value_len_spec 19 (pad18 value n) m 0) as (H1 & H2 & H3 & H4); [lia..|].
  set (r := value_len 19 (pad18 value n) m 0) in *.
  assert (r < 18 -> n <= r) as Hlo.
  { intros Hr. destruct (H4 Hr) as [_ H0]. rewrite pad18_nthb in H0 by lia.
    destruct (Z.ltb_spec r n); [by destruct (Hnz r); [lia|]|lia]. }
  assert (forall j, n <= j < r -> j < m) as Hhi.
  { intros j Hj. destruct (Z.lt_ge_cases j m) as [|Hm]; [done|]. destruct (H3 j); [lia..|].
    rewrite pad18_nthb, (proj2 (Z.ltb_ge j n)) by lia. done. }
  destruct (Z.leb_spec m n) as [Hm|Hm].
  - destruct (Z.lt_ge_cases n r) as [Hlt|]; [|lia]. specialize (Hhi n). lia.
  - destruct (Z.lt_ge_cases (Z.min m 18) r) as [Hlt|]; [|lia]. specialize (Hhi (Z.min m 18)). lia.
Qed.

(** What [getFileTag] makes of a stored value. *)
Lemma value_len_result value n m (v := pad18 value n) (r := value_len 19 v m 0)
  (res := (r, if m <? r then [] else slice 0 r v)) :
  0 <= n <= 18 ->
  exists len, res = (len, if m <? len then [] else slice 0 len v) /\
    0 <= len <= 18 /\ Z.min m 18 <= len /\
    (forall j, 0 <= j < len -> m <= j -> nthb v j <> 0) /\ (len < 18 -> nthb v len = 0) /\
    ((forall j, 0 <= j < n -> nthb value j <> 0) ->
     res = if m <=? n then (n, if m <? n then [] else slice 0 n value)
           else (Z.min m 18, slice 0 (Z.min m 18) v)).
Proof.
  intros Hn. exists r. destruct (value_len_spec 19 v m 0) as (H1 & H2 & H3 & H4); [lia..|]. fold r in H1, H2, H3, H4.
  split; [done|]. split_and!; [lia|lia|lia|done|intros Hr; by apply H4|].
  intros Hnz. unfold res, r. unfold v. rewrite value_len_pad by done. destruct (Z.leb_spec m n) as [Hm|Hm].
  - f_equal. destruct (m <? n); [done|]. unfold pad18. apply slice_app_l. rewrite length_slice. lia.
  - by rewrite (proj2 (Z.ltb_ge m (Z.min m 18))) by lia.
Qed.
