(* ===== verification/TagCalls.v ===== *)
(** * The tag system calls on an open file

    [tagFile], [removeFileTag], [getFileTag] and [getAllTags] (kernel/fs.c) as
    operations on the map of the file's tags, with the locking, the buffer
    cache and the block allocator underneath. *)

From S2P Require Import Prelude Monad Params CString ProcTable Ide Bio Block Alloc Inode Bmap.
From S2P Require Import Icache Content File Tags TagSpec.

(** ** State *)

(** The tags of a cached inode. *)
Definition tag_map (b : bio) (i : inode) : gmap (list Z) (list Z) :=
  if i_tags i =? 0 then ∅ else tags_of (sector_of b (i_dev i) (i_tags i)).

(** The tag block of an inode, if there is one, is a well-formed data
    block. *)
Definition tag_block_ok (b : bio) (i : inode) : Prop :=
  i_tags i <> 0 ->
  data_block (sb_of b (i_dev i)) (i_tags i) /\
  used b (i_dev i) (sb_of b (i_dev i)) (i_tags i) = true /\
  tag_wf (sector_of b (i_dev i) (i_tags i)).

(** A cached inode [i] that nobody has locked. *)
Record tag_inode (b : bio) (i : inode) : Prop := {
  ti_alloc : alloc_inv b ∅ (i_dev i);
  ti_inum : inum_ok (sb_of b (i_dev i)) (i_inum i);
  ti_ref : 1 <= i_ref i;
  ti_flags : i_flags i = 0 \/ i_flags i = I_VALID;
  ti_type : i_flags i = 0 -> di_type (di_of b (i_dev i) (i_inum i)) <> 0;
  ti_tags : tag_block_ok b i;
}.

(** What [ilock] makes of it. *)
Definition loaded (b : bio) (i : inode) : inode :=
  i_set_flags (Z.lor I_BUSY I_VALID)
    (if i_flags i =? 0 then i_load (di_of b (i_dev i) (i_inum i)) i else i).

(** The disk [d'] is [d] but for sector [k]. *)
Definition only_sector (d d' : gmap (Z * Z) (list Z)) (k : Z * Z) : Prop :=
  d' = d \/ exists x, d' = <[k := x]> d.

(** The disk after a call on a file whose tag block was [old] (0: none) and is
    [tb]: a file that had a tag block keeps it, and no other sector changes,
    the bitmap included; a file that had none still has none and the disk is
    what it was, or it has the lowest free block, and but for that block's
    sector the disk is what it was with the one bit of the block set in the
    bitmap. *)
Definition tag_disk (b b' : bio) (dev old tb : Z) : Prop :=
  if old =? 0 then
    (tb = 0 /\ bio_disk b' = bio_disk b) \/
    (first_free b dev (sb_of b dev) tb /\
     only_sector (mark_used b dev (sb_of b dev) tb) (bio_disk b') (dev, tb))
  else tb = old /\ only_sector (bio_disk b) (bio_disk b') (dev, tb).

(** What a call on such a file leaves alone.  It follows that blocks in use
    keep their contents and stay in use ([fext]), and of the process table
    only what a wakeup changes is touched. *)
Definition tag_frame (b b' : bio) (dev old tb : Z) : Prop :=
  fext b b' dev (fun k => k = tb) /\ pt_frame (bio_pt b) (bio_pt b') /\ tag_disk b b' dev old tb.

Lemma only_sector_refl d k : only_sector d d k.
Proof. by left. Qed.

Lemma only_sector_insert d d' k x : only_sector d d' k -> only_sector d (<[k := x]> d') k.
Proof.
  intros [->|[y ->]]; right; exists x; [done|]. apply insert_insert_eq.
Qed.

Lemma tag_disk_refl b dev old : tag_disk b b dev old old.
Proof.
  unfold tag_disk. destruct (Z.eqb_spec old 0) as [->|]; [by left|]. split; [done|apply only_sector_refl].
Qed.

(** The frame of the disk under a state with the same disk, on either side. *)
Lemma tag_disk_same b b1 b2 b3 dev old tb :
  tag_disk b1 b2 dev old tb -> bio_disk b1 = bio_disk b -> bio_disk b3 = bio_disk b2 ->
  tag_disk b b3 dev old tb.
Proof.
  intros Ht D1 D3. destruct (same_disk b b1 dev D1) as (Hsb & _ & Hff & Hmk). revert Ht.
  unfold tag_disk. rewrite D3, <- D1, Hsb, Hmk. specialize (Hff (sb_of b dev) tb). destruct (old =? 0); tauto.
Qed.

(** ... and after a write of the tag block. *)
Lemma tag_disk_write b b2 b3 dev old tb x :
  tag_disk b b2 dev old tb -> tb <> 0 -> bio_disk b3 = <[(dev, tb) := x]> (bio_disk b2) ->
  tag_disk b b3 dev old tb.
Proof.
  unfold tag_disk. intros Ht H0 ->. destruct (old =? 0).
  - destruct Ht as [[? _]|[Hf Ho]]; [done|right]. split; [done|by apply only_sector_insert].
  - destruct Ht as [-> Ho]. split; [done|by apply only_sector_insert].
Qed.

Lemma loaded_fields b i :
  i_dev (loaded b i) = i_dev i /\ i_inum (loaded b i) = i_inum i /\ i_ref (loaded b i) = i_ref i /\
  i_tags (loaded b i) = i_tags i /\ i_flags (loaded b i) = Z.lor I_BUSY I_VALID.
Proof. unfold loaded. by destruct (i_flags i =? 0). Qed.

(** ** Steps of the calls *)

Section steps.
Context (F : list file) (P : gmap Z Pipe.pipe) (Mm : Kalloc.kmem).

Lemma lock_step b l ip i (Q : unit -> kern -> Prop) E :
  l !! ip = Some i -> tag_inode b i ->
  (forall b', keeps ∅ b b' -> bio_disk b' = bio_disk b ->
     Q tt (Kern (Fs b' (<[ip := loaded b i]> l)) F P Mm)) ->
  wpe (zoom fs_of_kern (ilock (Some ip))) Q E (Kern (Fs b l) F P Mm).
Proof.
  intros Hip [Ha Hi Hr Hf Ht Hb] HQ. apply wpe_zoom. ksimpl.
  eapply wpe_mono; [apply (ilock_spec (Fs b l) ip i); try done; apply Ha| |].
  - cbv beta. cbn [fs_bio fs_inode]. intros [] [b' l'] (Hl & K & D & _). cbn [fs_bio fs_inode] in *.
    subst l'. by apply HQ.
  - cbv beta. intros msg s' (_ & H0 & H1). by destruct Ht.
Qed.

Lemma unlock_step b l ip i (Q : unit -> kern -> Prop) :
  l !! ip = Some i -> holds b ∅ -> i_flags i = Z.lor I_BUSY I_VALID -> 1 <= i_ref i ->
  (forall b', keeps ∅ b b' -> bio_disk b' = bio_disk b ->
     Q tt (Kern (Fs b' (<[ip := i_set_flags I_VALID i]> l)) F P Mm)) ->
  wp (zoom fs_of_kern (iunlock (Some ip))) Q (Kern (Fs b l) F P Mm).
Proof.
  intros Hip Hh Hf Hr HQ. apply wp_zoom. ksimpl. unfold wp. rewrite (iunlock_eq (Fs b l) ip i) by done.
  ksimpl. apply HQ; [by apply keeps_wakeup|done].
Qed.

(** The tag block, allocated if there was none. *)
Lemma tag_block_step b l ip i (Q : unit -> kern -> Prop) E :
  l !! ip = Some i -> alloc_inv b ∅ (i_dev i) -> tag_block_ok b i ->
  (forall b' tb, alloc_inv b' ∅ (i_dev i) -> tag_block_ok b' (i_set_tags tb i) -> tb <> 0 ->
     tag_map b' (i_set_tags tb i) = tag_map b i -> tag_frame b b' (i_dev i) (i_tags i) tb ->
     Q tt (Kern (Fs b' (<[ip := i_set_tags tb i]> l)) F P Mm)) ->
  (forall s', full (fs_bio (k_fs s')) (i_dev i) -> E OOB s') ->
  wpe (tag_block ip) Q E (Kern (Fs b l) F P Mm).
Proof.
  intros Hip Ha Hb HQ HE. unfold tag_block. wsteps.
  unfold i_of. cbn [k_fs]. rewrite (inode_at_lookup ip (Fs b l) i Hip).
  destruct (Z.eqb_spec (i_tags i) 0) as [H0|H0]; wsteps; ksimpl.
  - eapply wpe_balloc_first; [exact Ha| |intros s' Hs'; by apply HE]. intros tb b' K G Ha' Hz Hff D. wsteps. ksimpl.
    rewrite (list_alter_Some _ l ip i) by done. destruct tag_wf_zeros as [Hw He].
    assert (geom (sb_of b (i_dev i))) as Hg by apply Ha. destruct G as (Hd & Hu & [Hsb Hus Hs Hdv]).
    destruct (data_block_pos _ _ Hg Hd) as [Htb Hnb].
    apply HQ; [done| |lia| |].
    + intros _. cbn [i_dev i_tags i_set_tags]. rewrite Hsb, Hz. split_and!; [done| |done].
      rewrite Hus, Z.eqb_refl; [done|]. destruct Hd. lia.
    + unfold tag_map. cbn [i_dev i_tags i_set_tags]. rewrite (proj2 (Z.eqb_neq tb 0)), Hz, He by lia.
      by rewrite H0.
    + split; [|split; [apply K|]].
      * eapply fext_grab. split_and!; [exact Hd|exact Hu|by split].
      * unfold tag_disk. rewrite H0. right. split; [done|by left].
  - assert (i_set_tags (i_tags i) i = i) as E1 by (by destruct i).
    rewrite <- (list_insert_id l ip i Hip). rewrite <- E1 at 1. apply HQ; rewrite ?E1; try done.
    split; [apply fext_refl|]. split; [done|apply tag_disk_refl].
Qed.

(** Opening it. *)
Lemma open_step b l ip i (Q : nat -> kern -> Prop) :
  l !! ip = Some i -> alloc_inv b ∅ (i_dev i) -> tag_block_ok b i -> i_tags i <> 0 ->
  (forall bp b', opened ∅ bp (i_dev i, i_tags i) b b' ->
     bdata bp b' = sector_of b (i_dev i) (i_tags i) -> bio_disk b' = bio_disk b ->
     Q bp (Kern (Fs b' l) F P Mm)) ->
  wp (bread_tags ip) Q (Kern (Fs b l) F P Mm).
Proof.
  intros Hip Ha Hb H0 HQ. unfold bread_tags. wsteps. unfold i_of. cbn [k_fs].
  rewrite (inode_at_lookup ip (Fs b l) i Hip). ksimpl. destruct (Hb H0) as (Hd & _ & _).
  assert (geom (sb_of b (i_dev i))) as Hg by apply Ha. destruct (data_block_pos _ _ Hg Hd).
  eapply wp_bread; [apply Ha|split; [apply Ha|]|apply Ha|intros x; by rewrite lookup_empty|].
  { destruct (nbits_bound _ (i_tags i) Hg) as [? _]; [destruct Hd; lia|lia]. }
  intros bp b' Ho B D. by apply HQ.
Qed.

(** [brelse] and [iunlock] at the end of a call that only read. *)
Lemma release_step b0 b l bp ip i (Q : unit -> kern -> Prop) :
  opened ∅ bp (i_dev i, i_tags i) b0 b -> bdata bp b = sector_of b (i_dev i) (i_tags i) ->
  l !! ip = Some i -> i_flags i = Z.lor I_BUSY I_VALID -> 1 <= i_ref i ->
  (forall b', keeps ∅ b0 b' -> bio_disk b' = bio_disk b ->
     Q tt (Kern (Fs b' (<[ip := i_set_flags I_VALID i]> l)) F P Mm)) ->
  wp (release bp ip) Q (Kern (Fs b l) F P Mm).
Proof.
  intros Ho B Hip Hf Hr HQ. unfold release. wsteps. ksimpl.
  eapply wp_brelse; [exact Ho|exact B|]. intros b1 K1 D1.
  eapply unlock_step; [done|apply K1|done..|]. intros b2 K2 D2.
  apply HQ; [by eapply keeps_trans|congruence].
Qed.

(** ... and of one that wrote the block. *)
Lemma write_step b0 b l bp ip i d (Q : unit -> kern -> Prop) :
  opened ∅ bp (i_dev i, i_tags i) b0 b -> is_block d ->
  l !! ip = Some i -> i_flags i = Z.lor I_BUSY I_VALID -> 1 <= i_ref i ->
  (forall b', keeps ∅ b0 b' -> bio_disk b' = <[(i_dev i, i_tags i) := d]> (bio_disk b) ->
     Q tt (Kern (Fs b' (<[ip := i_set_flags I_VALID i]> l)) F P Mm)) ->
  wp (zoom bio_of_kern (set_bdata bp d);;; zoom bio_of_kern (bwrite bp);;; release bp ip) Q
    (Kern (Fs b l) F P Mm).
Proof.
  intros Ho Hd Hip Hf Hr HQ. apply wp_bind, wp_zoom. ksimpl.
  eapply wp_mono; [eapply (wp_write _ _ _ _ _ (fun _ b1 => wp (release bp ip) Q (Kern (Fs b1 l) F P Mm)));
    [exact Ho|exact Hd|]|].
  - intros b1 Ho1 B1 D1. eapply release_step; [exact Ho1| |done..|].
    + rewrite B1. unfold sector_of, disk_read. by rewrite D1, lookup_insert_eq.
    + intros b2 K2 D2. apply HQ; [done|congruence].
  - cbv beta. intros _ b1 Hw. apply wp_bind, wp_zoom. ksimpl. exact Hw.
Qed.

End steps.

(** ** The calls *)

(** The state after a call on inode [ip], which had the state [i]: the inode
    is unlocked, its tags are [T], and of the disk only its tag block changed,
    and the bit of the bitmap for it if it was allocated ([tag_disk]). *)
Definition tag_done (ip : nat) (i : inode) (T : gmap (list Z) (list Z)) (s s' : kern) : Prop :=
  exists b' i',
    s' = Kern (Fs b' (<[ip := i']> (fs_inode (k_fs s)))) (k_file s) (k_pipe s) (k_mem s) /\
    i' = i_set_flags I_VALID (i_set_tags (i_tags i') (loaded (fs_bio (k_fs s)) i)) /\
    tag_inode b' i' /\ tag_map b' i' = T /\
    tag_frame (fs_bio (k_fs s)) b' (i_dev i) (i_tags i) (i_tags i').


(** The state [b2] in the middle of a call: the inode is locked and has the
    tag block [tb], with the tags it had before the call. *)
Record tag_stage (b : bio) (i : inode) (b2 : bio) (tb : Z) : Prop := {
  tg_alloc : alloc_inv b2 ∅ (i_dev i);
  tg_block : tag_block_ok b2 (i_set_tags tb i);
  tg_map : tag_map b2 (i_set_tags tb i) = tag_map b i;
  tg_frame : tag_frame b b2 (i_dev i) (i_tags i) tb;
}.

Lemma sector_same b b' dev k : bio_disk b' = bio_disk b -> sector_of b' dev k = sector_of b dev k.
Proof. intros D. unfold sector_of. by rewrite D. Qed.

Lemma tag_same b b' i :
  bio_disk b' = bio_disk b ->
  tag_map b' i = tag_map b i /\ (tag_block_ok b i -> tag_block_ok b' i).
Proof.
  intros D. unfold tag_map, tag_block_ok. rewrite (sector_same b b') by done.
  destruct (same_disk b b' (i_dev i) D) as (-> & -> & _). done.
Qed.

Lemma fext_same b b' dev own : bio_disk b' = bio_disk b -> fext b b' dev own.
Proof.
  intros D. destruct (same_disk b b' dev D) as (Hsb & Hu & _).
  split; [done|intros k _; by rewrite Hu|intros; by apply sector_same..].
Qed.

(** The stage survives a state change that keeps the disk. *)
Lemma tag_stage_same b i b2 b3 tb :
  tag_stage b i b2 tb -> keeps ∅ b2 b3 -> bio_disk b3 = bio_disk b2 -> geom (sb_of b (i_dev i)) ->
  tag_stage b i b3 tb.
Proof.
  intros [Ha Hb Hm (Hf & Hp & Ht)] K D Hg. destruct (tag_same b2 b3 (i_set_tags tb i) D) as [Em Hok].
  split; [by eapply alloc_inv_same; [done|apply K|]|auto|congruence|]. split_and!.
  - eapply fext_trans; [exact Hf|by apply fext_same|done|]. intros k Hk _. exact Hk.
  - etransitivity; [exact Hp|apply K].
  - by eapply tag_disk_same.
Qed.

(** [ilock], and the tag block if there is none: the start of [tagFile] and
    [getAllTags]. *)
Lemma enter_step F P Mm b l ip i (Q : unit -> kern -> Prop) E :
  l !! ip = Some i -> tag_inode b i ->
  (forall b2 tb, tag_stage b i b2 tb -> tb <> 0 ->
     Q tt (Kern (Fs b2 (<[ip := i_set_tags tb (loaded b i)]> l)) F P Mm)) ->
  (forall s', full (fs_bio (k_fs s')) (i_dev i) -> E OOB s') ->
  wpe (zoom fs_of_kern (ilock (Some ip))) (fun _ => wpe (tag_block ip) Q E) E
    (Kern (Fs b l) F P Mm).
Proof.
  intros Hip Hi HQ HE. apply lock_step with i; [done..|]. intros b1 K1 D1.
  destruct (loaded_fields b i) as (Ed & _ & _ & Et & _).
  destruct (tag_same b b1 i D1) as [Em Hok].
  assert (tag_map b1 (loaded b i) = tag_map b i) as Eml
    by (rewrite <- Em; unfold tag_map; by rewrite Ed, Et).
  eapply tag_block_step.
  - apply list_lookup_insert_eq. by eapply lookup_lt_Some.
  - rewrite Ed. eapply alloc_inv_same; [apply Hi|apply K1|done].
  - unfold tag_block_ok. rewrite Ed, Et. by apply Hok, Hi.
  - rewrite Ed. rewrite Et. intros b2 tb Ha2 Hok2 H0 Em2 (Hf2 & Hp2 & Ht2). rewrite list_insert_insert_eq.
    apply HQ; [|done]. split; [done|..].
    + revert Hok2. unfold tag_block_ok. cbn [i_dev i_tags i_set_tags]. by rewrite Ed.
    + rewrite <- Eml, <- Em2. unfold tag_map. cbn [i_dev i_tags i_set_tags]. by rewrite Ed.
    + split; [|split; [etransitivity; [apply K1|exact Hp2]|by eapply tag_disk_same]].
      eapply fext_trans; [by apply fext_same|exact Hf2|apply Hi|]. intros k Hk _. exact Hk.
  - rewrite Ed. exact HE.
Qed.

Lemma tag_stage_start b i :
  tag_inode b i -> tag_stage b i b (i_tags i).
Proof.
  intros Hi. assert (i_set_tags (i_tags i) i = i) as E by (by destruct i).
  split; rewrite ?E; try apply Hi; [done|].
  split; [apply fext_refl|]. split; [done|apply tag_disk_refl].
Qed.

(** Writing the tag block. *)
Lemma tag_stage_write b i b2 b3 tb d T :
  tag_stage b i b2 tb -> tb <> 0 -> keeps ∅ b2 b3 -> geom (sb_of b (i_dev i)) ->
  bio_disk b3 = <[(i_dev i, tb) := d]> (bio_disk b2) -> tag_wf d -> tags_of d = T ->
  alloc_inv b3 ∅ (i_dev i) /\ tag_block_ok b3 (i_set_tags tb i) /\
  tag_map b3 (i_set_tags tb i) = T /\ tag_frame b b3 (i_dev i) (i_tags i) tb.
Proof.
  intros [Ha Hb Hm (Hf & Hp & Ht)] H0 K Hg D Hw <-. destruct (Hb H0) as (Hd & Hu & _).
  cbn [i_dev i_tags i_set_tags] in *. pose proof (fe_sb _ _ _ _ Hf) as Hsb. rewrite Hsb in *.
  destruct (data_block_pos _ _ Hg Hd) as [Htb Hn]. rewrite <- Hsb in Hg, Hd, Hn, Hu.
  destruct (write_data b2 b3 (i_dev i) tb d Hg Hd Hn D) as (Hsb3 & Hu3 & Hs3 & Hdv3 & Ed).
  split_and!.
  - by eapply alloc_inv_write; [exact Ha|apply K| | | |].
  - intros _. cbn [i_dev i_tags i_set_tags]. rewrite Hsb3, Ed, Hu3 by (destruct Hd; lia). done.
  - unfold tag_map. cbn [i_dev i_tags i_set_tags]. rewrite (proj2 (Z.eqb_neq tb 0)), Ed by done. done.
  - split; [|split; [etransitivity; [exact Hp|apply K]|by eapply tag_disk_write]]. rewrite Hsb in *.
    eapply fext_trans; [exact Hf| |done|intros k Hk _; exact Hk]. rewrite <- Hsb in *. split; try done.
    + intros k Hk Hk1. by rewrite Hu3.
    + intros k _ _ Hne. apply Hs3. auto.
    + intros k Hk. apply Hs3. pose proof (data_block_ne _ tb 0 Hg Hd ltac:(lia)). lia.
Qed.

(** The end of a call. *)
Lemma tag_done_intro s b3 ip i tb T :
  tag_inode (fs_bio (k_fs s)) i -> alloc_inv b3 ∅ (i_dev i) -> tag_block_ok b3 (i_set_tags tb i) ->
  tag_map b3 (i_set_tags tb i) = T -> tag_frame (fs_bio (k_fs s)) b3 (i_dev i) (i_tags i) tb ->
  tag_done ip i T s
    (Kern (Fs b3 (<[ip := i_set_flags I_VALID (i_set_tags tb (loaded (fs_bio (k_fs s)) i))]>
                    (fs_inode (k_fs s)))) (k_file s) (k_pipe s) (k_mem s)).
Proof.
  intros Hi Ha Hb Hm Hf. eexists b3, _. split; [done|]. cbn [i_tags i_set_flags i_set_tags].
  destruct (loaded_fields (fs_bio (k_fs s)) i) as (Ed & Ei & Er & _ & _).
  split; [done|]. split; [|split; [|done]].
  - split; cbn [i_dev i_inum i_ref i_flags i_tags i_set_flags i_set_tags]; rewrite ?Ed, ?Ei, ?Er.
    + done.
    + rewrite (fe_sb _ _ _ _ (proj1 Hf)). apply Hi.
    + apply Hi.
    + by right.
    + done.
    + revert Hb. unfold tag_block_ok. cbn [i_dev i_tags i_set_flags i_set_tags]. by rewrite Ed.
  - rewrite <- Hm. unfold tag_map. cbn [i_dev i_tags i_set_flags i_set_tags]. by rewrite Ed.
Qed.

Lemma kdata_kern bp b l F P Mm : kdata bp (Kern (Fs b l) F P Mm) = bdata bp b.
Proof. done. Qed.

Section calls.
Context (s : kern) (fd : Z) (ip : nat) (i : inode) (key : cptr).
Notation b := (fs_bio (k_fs s)).
Notation mid b2 tb := (Kern (Fs b2 (<[ip := i_set_tags tb (loaded b i)]> (fs_inode (k_fs s))))
  (k_file s) (k_pipe s) (k_mem s)) (only parsing).
Hypothesis Hip : fs_inode (k_fs s) !! ip = Some i.
Hypothesis Hi : tag_inode b i.

Lemma mid_lookup tb :
  (<[ip := i_set_tags tb (loaded b i)]> (fs_inode (k_fs s)) : list inode) !! ip =
  Some (i_set_tags tb (loaded b i)).
Proof. apply list_lookup_insert_eq. by eapply lookup_lt_Some. Qed.

Lemma tag_geom : geom (sb_of b (i_dev i)).
Proof. apply Hi. Qed.

Lemma open_stage b2 tb (Q : nat -> kern -> Prop) :
  tag_stage b i b2 tb -> tb <> 0 ->
  (forall bp b3 str, opened ∅ bp (i_dev i, tb) b2 b3 -> bio_disk b3 = bio_disk b2 ->
     bdata bp b3 = str -> str = sector_of b2 (i_dev i) tb -> tag_wf str -> tags_of str = tag_map b i ->
     Q bp (mid b3 tb)) ->
  wp (bread_tags ip) Q (mid b2 tb).
Proof.
  intros [Ha Hb Hm Hf] H0 HQ. destruct (loaded_fields b i) as (Ed & _ & _ & _ & _).
  eapply open_step.
  - apply mid_lookup.
  - cbn [i_dev i_set_tags]. by rewrite Ed.
  - revert Hb. unfold tag_block_ok. cbn [i_dev i_tags i_set_tags]. by rewrite Ed.
  - done.
  - cbn [i_dev i_tags i_set_tags]. rewrite Ed. intros bp b3 Ho B D.
    eapply HQ; [done|done|exact B|done|by apply Hb|].
    rewrite <- Hm. unfold tag_map. cbn [i_dev i_tags i_set_tags]. by rewrite (proj2 (Z.eqb_neq tb 0)).
Qed.

Lemma release_stage b2 b3 tb bp (Q : unit -> kern -> Prop) :
  tag_stage b i b2 tb -> opened ∅ bp (i_dev i, tb) b2 b3 -> bio_disk b3 = bio_disk b2 ->
  bdata bp b3 = sector_of b2 (i_dev i) tb ->
  (forall s', tag_done ip i (tag_map b i) s s' -> Q tt s') ->
  wp (release bp ip) Q (mid b3 tb).
Proof.
  intros Hst Ho D B HQ. destruct (loaded_fields b i) as (Ed & _ & Er & _ & Efl).
  eapply (release_step _ _ _ b2 b3 _ bp ip (i_set_tags tb (loaded b i))); [cbn [i_dev i_tags i_set_tags]; rewrite Ed; exact Ho| |apply mid_lookup|done|cbn [i_ref i_set_tags]; rewrite Er; apply Hi|].
  { cbn [i_dev i_tags i_set_tags]. rewrite Ed, B. symmetry. by apply sector_same. }
  intros b4 K D4. rewrite list_insert_insert_eq. apply HQ.
  assert (bio_disk b4 = bio_disk b2) as D' by congruence.
  destruct (tag_stage_same b i b2 b4 tb Hst K D' tag_geom) as [? ? ? ?]. by apply tag_done_intro.
Qed.

Lemma write_stage b2 b3 tb bp d T (Q : unit -> kern -> Prop) :
  tag_stage b i b2 tb -> tb <> 0 -> opened ∅ bp (i_dev i, tb) b2 b3 -> bio_disk b3 = bio_disk b2 ->
  tag_wf d -> tags_of d = T ->
  (forall s', tag_done ip i T s s' -> Q tt s') ->
  wp (zoom bio_of_kern (set_bdata bp d);;; zoom bio_of_kern (bwrite bp);;; release bp ip) Q (mid b3 tb).
Proof.
  intros Hst H0 Ho D Hw HT HQ. destruct (loaded_fields b i) as (Ed & _ & Er & _ & Efl).
  eapply (write_step _ _ _ b2 b3 _ bp ip (i_set_tags tb (loaded b i))); [cbn [i_dev i_tags i_set_tags]; rewrite Ed; exact Ho|apply Hw|apply mid_lookup|done|cbn [i_ref i_set_tags]; rewrite Er; apply Hi|].
  cbn [i_dev i_tags i_set_tags]. rewrite Ed. intros b4 K D4. rewrite list_insert_insert_eq. apply HQ.
  rewrite D in D4.
  destruct (tag_stage_write b i b2 b4 tb d T Hst H0 K tag_geom D4 Hw HT) as (? & ? & ? & ?).
  by apply tag_done_intro.
Qed.

Lemma bad_key_ok : bad_key key = false -> key_ok (c_mem key).
Proof. unfold bad_key, key_ok. rewrite !orb_false_iff, !Z.ltb_ge. lia. Qed.

Lemma kern_eta :
  Kern (Fs b (fs_inode (k_fs s))) (k_file s) (k_pipe s) (k_mem s) = s.
Proof. by destruct s as [[] ? ? ?]. Qed.

(** The starts and the end of the calls. *)
Lemma wpe_enter {A} (k : M kern A) Q (E : string -> kern -> Prop) :
  (forall b2 tb, tag_stage b i b2 tb -> tb <> 0 -> wpe k Q E (mid b2 tb)) ->
  (forall s', full (fs_bio (k_fs s')) (i_dev i) -> E OOB s') ->
  wpe (zoom fs_of_kern (ilock (Some ip));;; tag_block ip;;; k) Q E s.
Proof.
  intros HQ HE. apply wpe_bind. rewrite <- kern_eta.
  eapply wpe_mono; [apply (enter_step _ _ _ _ _ ip i (fun _ => wpe k Q E) E); auto| |done].
  intros [] s1 W. by apply wpe_bind.
Qed.

Lemma wpe_lock {A} (k : M kern A) Q (E : string -> kern -> Prop) :
  (forall b2, tag_stage b i b2 (i_tags i) -> wpe k Q E (mid b2 (i_tags i))) ->
  wpe (zoom fs_of_kern (ilock (Some ip));;; k) Q E s.
Proof.
  intros HQ. apply wpe_bind. rewrite <- kern_eta. eapply lock_step; [done..|].
  intros b1 K1 D1.
  replace (loaded b i) with (i_set_tags (i_tags i) (loaded b i)).
  - apply HQ. eapply tag_stage_same; [by apply tag_stage_start|done..|apply tag_geom].
  - destruct (loaded_fields b i) as (_ & _ & _ & <- & _). by destruct (loaded b i).
Qed.

Lemma wpe_store {A} b2 b3 tb bp d (k : M kern A) Q E :
  tag_stage b i b2 tb -> tb <> 0 -> opened ∅ bp (i_dev i, tb) b2 b3 -> bio_disk b3 = bio_disk b2 ->
  tag_wf d ->
  (forall s', tag_done ip i (tags_of d) s s' -> wpe k Q E s') ->
  wpe (zoom bio_of_kern (set_bdata bp d);;; zoom bio_of_kern (bwrite bp);;; release bp ip;;; k) Q E
    (mid b3 tb).
Proof.
  intros Hst H0 Ho D Hw HQ.
  pose proof (write_stage b2 b3 tb bp d _ (fun _ => wpe k Q E) Hst H0 Ho D Hw eq_refl HQ) as W.
  apply (wpe_wp _ _ E) in W. revert W. unfold wpe, bind.
  destruct (zoom bio_of_kern (set_bdata bp d) _) as [? s1| | |]; try done.
  destruct (zoom bio_of_kern (bwrite bp) s1) as [? s2| | |]; try done.
  by destruct (release bp ip s2).
Qed.

(** [tagFile]: the tag is added or its value replaced; only a file that has
    16 other tags is refused, and only a full disk panics. *)
Lemma tagFile_run f value n :
  fd_lookup fd s = Some f -> inode_of f_writable (file_at f s) = Some ip ->
  bad_key key = false -> isnull value = false -> 0 <= n <= 18 ->
  Forall is_byte (c_mem key) -> Forall is_byte (c_mem value) ->
  wpe (tagFile fd key value n)
    (fun r s' =>
       (r = 1 /\
        tag_done ip i (<[cstr (c_mem key) := pad18 (c_mem value) n]> (tag_map b i)) s s') \/
       (r = -1 /\ size (tag_map b i) = Z.to_nat NTAG /\ tag_map b i !! cstr (c_mem key) = None /\
        tag_done ip i (tag_map b i) s s'))
    (fun msg s' => msg = OOB /\ full (fs_bio (k_fs s')) (i_dev i)) s.
Proof.
  intros Hfd Hf Hk Hv Hn Hkb Hvb. unfold tagFile, fd_file. wsteps. rewrite Hfd. wsteps.
  rewrite Hf, Hk, Hv. rewrite (proj2 (Z.ltb_ge n 0)), (proj2 (Z.ltb_ge 18 n)) by lia. cbn [orb].
  apply wpe_enter; [|by intros]. intros b2 tb Hst H0. wfocus. apply wpe_wp.
  eapply open_stage; [done..|]. intros bp b3 str Ho D B Es Hw HT.
  wsteps. rewrite kdata_kern, B.
  pose proof (tag_store_spec str (c_mem key) (c_mem value) n Hw (bad_key_ok Hk) Hn Hkb Hvb) as Hts.
  destruct ((searchKey (c_mem key) str <? 0) && (searchEnd str <? 0)).
  - wfocus. apply wpe_wp. eapply release_stage; [exact Hst|exact Ho|exact D|congruence|].
    intros s' Hd. wsteps. rewrite <- HT in *. right. tauto.
  - destruct Hts as [Hw' HT']. apply (wpe_store b2 b3 tb bp (tag_store (c_mem key) (c_mem value) n str));
      [done..|]. intros s' Hd. wsteps. rewrite HT', HT in Hd. by left.
Qed.

(** [removeFileTag]: the tag is deleted, or the file did not have it. *)
Lemma removeFileTag_run f :
  fd_lookup fd s = Some f -> inode_of f_writable (file_at f s) = Some ip -> bad_key key = false ->
  wpe (removeFileTag fd key)
    (fun r s' =>
       (r = 1 /\ is_Some (tag_map b i !! cstr (c_mem key)) /\
        tag_done ip i (delete (cstr (c_mem key)) (tag_map b i)) s s') \/
       (r = -1 /\ tag_map b i !! cstr (c_mem key) = None /\
        (s' = s \/ tag_done ip i (tag_map b i) s s')))
    (fun _ _ => False) s.
Proof.
  intros Hfd Hf Hk. unfold removeFileTag, fd_file. wsteps. rewrite Hfd. wsteps. rewrite Hf. wsteps.
  unfold i_of. rewrite (inode_at_lookup ip (k_fs s) i Hip).
  destruct (Z.eqb_spec (i_tags i) 0) as [H0|H0].
  { wsteps. right. unfold tag_map. rewrite H0. split_and!; auto. }
  rewrite Hk. apply wpe_lock. intros b2 Hst. wfocus. apply wpe_wp.
  eapply open_stage; [done..|]. intros bp b3 str Ho D B Es Hw HT. wsteps. rewrite kdata_kern, B.
  pose proof (tag_remove_search str (c_mem key) Hw (bad_key_ok Hk)) as Hts.
  destruct (searchKey (c_mem key) str <? 0).
  - wfocus. eapply release_stage; [exact Hst|exact Ho|exact D|congruence|].
    intros s' Hd. wsteps. rewrite <- HT in *. right. tauto.
  - destruct Hts as (Hw' & Hin & HT').
    apply (wpe_store b2 b3 (i_tags i) bp (tag_remove (searchKey (c_mem key) str) str)); [done..|].
    intros s' Hd. wsteps. rewrite HT', HT in Hd. rewrite HT in Hin. by left.
Qed.

(** [getFileTag]: the value is found in the map, cut by [value_len]. *)
Lemma getFileTag_run f n :
  fd_lookup fd s = Some f -> inode_of f_writable (file_at f s) = Some ip -> bad_key key = false ->
  wpe (getFileTag fd key n)
    (fun r s' =>
       r = match tag_map b i !! cstr (c_mem key) with
           | None => (-1, [])
           | Some v => let len := value_len 19 v n 0 in
                       (len, if n <? len then [] else slice 0 len v)
           end /\
       tag_done ip i (tag_map b i) s s')
    (fun _ _ => False) s.
Proof.
  intros Hfd Hf Hk. unfold getFileTag, fd_file. wsteps. rewrite Hfd. wsteps. rewrite Hf, Hk.
  apply wpe_lock. intros b2 Hst. wsteps. unfold i_of. cbn [k_fs].
  rewrite (inode_at_lookup ip (Fs b2 _) _ (mid_lookup (i_tags i))). cbn [i_tags i_set_tags].
  destruct (loaded_fields b i) as (_ & _ & Er & _ & Efl).
  destruct (Z.eqb_spec (i_tags i) 0) as [H0|H0].
  - wfocus. apply wpe_wp. eapply unlock_step; [apply mid_lookup|apply (tg_alloc _ _ _ _ Hst)|done| |].
    { cbn [i_ref i_set_tags]. rewrite Er. apply Hi. }
    intros b3 K D. wsteps. split; [unfold tag_map; by rewrite H0|]. rewrite list_insert_insert_eq.
    destruct (tag_stage_same b i b2 b3 (i_tags i) Hst K D tag_geom) as [? ? ? ?]. by apply tag_done_intro.
  - wfocus. apply wpe_wp. eapply open_stage; [done..|]. intros bp b3 str Ho D B Es Hw HT. wsteps.
    rewrite kdata_kern, B. pose proof (searchKey_value str (c_mem key) Hw (bad_key_ok Hk)) as Hv.
    rewrite HT in Hv. destruct (searchKey (c_mem key) str <? 0); rewrite Hv.
    + wfocus. eapply release_stage; [exact Hst|exact Ho|exact D|congruence|]. intros s' Hd. by wsteps.
    + wfocus. eapply release_stage; [exact Hst|exact Ho|exact D|congruence|]. intros s' Hd. by wsteps.
Qed.

(** [getAllTags]: the listing of the tag block, which is allocated first when
    there is none. *)
Lemma getAllTags_run f keys maxTag :
  fd_lookup fd s = Some f -> inode_of f_readable (file_at f s) = Some ip -> keys <> 0 -> 0 <= maxTag ->
  wpe (getAllTags fd keys maxTag)
    (fun r s' => exists str, tag_wf str /\ tags_of str = tag_map b i /\
       r = list_tags (range 0 BSIZE 32) str maxTag [] /\ tag_done ip i (tag_map b i) s s')
    (fun msg s' => msg = OOB /\ full (fs_bio (k_fs s')) (i_dev i)) s.
Proof.
  intros Hfd Hf Hk Hm. unfold getAllTags, fd_file. wsteps. rewrite Hfd. wsteps. rewrite Hf.
  rewrite (proj2 (Z.eqb_neq keys 0)), (proj2 (Z.ltb_ge maxTag 0)) by done. cbn [orb].
  apply wpe_enter; [|by intros]. intros b2 tb Hst H0. wfocus. apply wpe_wp.
  eapply open_stage; [done..|]. intros bp b3 str Ho D B Es Hw HT.
  wstep. wstep. cbv beta. rewrite kdata_kern, B. wfocus. apply wpe_wp.
  eapply release_stage; [exact Hst|exact Ho|exact D|congruence|]. intros s' Hd. wsteps. eauto.
Qed.

End calls.
