(* ===== verification/Image.v ===== *)
(** * A small disk and kernel

    A concrete state that satisfies the invariants of the file system: a disk
    with a root directory that holds one tagged file, the buffer cache as
    [binit] leaves it, and a process that has the file open.  The witnesses of
    the properties run in it. *)

From S2P Require Import Prelude Monad Params CString Kalloc ProcTable Ide Bio Lru Block Alloc.
From S2P Require Import Inode Bmap Icache Content Dir File Tags TagSpec TagCalls.

(** ** Directory entries *)

Definition dirent_of (inum : Z) (name : string) : list Z :=
  dirent_bytes (Dirent inum (strncpy (Z.to_nat DIRSIZ) (bytes_of name))).

(** ** Inodes *)

Definition img_root : inode :=
  Inode 1 1 1 I_VALID T_DIR 0 0 1 48 (6 :: zeros 11) 0.
Definition img_file : inode :=
  Inode 1 2 1 I_VALID T_FILE 0 0 1 5 (7 :: zeros 11) 8.

(** ** The disk: 1024 blocks, 16 inodes

    Block 1 is the superblock, blocks 2 to 4 hold the inodes, block 5 is the
    bitmap; block 6 is the root directory's, block 7 the file's and block 8
    its tag block. *)

Definition img_sb : list Z := splice 0 (le_enc 4 1024 ++ le_enc 4 1018 ++ le_enc 4 16) (zeros BSIZE).
Definition img_inodes : list Z := put_dinode 2 img_file (put_dinode 1 img_root (zeros BSIZE)).
Definition img_bitmap : list Z := splice 0 [0xff; 0x01] (zeros BSIZE).
Definition img_dir : list Z :=
  splice 0 (dirent_of 1 "." ++ dirent_of 1 ".." ++ dirent_of 2 "note") (zeros BSIZE).
Definition img_data : list Z := splice 0 (bytes_of "hello") (zeros BSIZE).
Definition img_tags : list Z := tag_new 0 (cbytes "color") (bytes_of "red") 3 (zeros BSIZE).

Definition img_disk : gmap (Z * Z) (list Z) :=
  <[(1, 1) := img_sb]> (<[(1, 2) := img_inodes]> (<[(1, 5) := img_bitmap]>
    (<[(1, 6) := img_dir]> (<[(1, 7) := img_data]> (<[(1, 8) := img_tags]> ∅))))).

(** ** The kernel *)

Definition img_proc : proc :=
  Proc 8192 0 0 RUNNING 1 None zero_tf zero_context ChNone 0
    (Some 0%nat :: replicate 15 None) (Some 0%nat) (zeros 16).
Definition img_pt : ptable :=
  Ptable (img_proc :: replicate 63 zero_proc) 2 (Some 0%nat) (Some 0%nat).

Definition bio_after (r : outcome bio unit) : bio :=
  match r with Ret _ s => s | Panic _ s => s | Sleep _ s => s | Hang s => s end.
Definition bio_of_disk (d : gmap (Z * Z) (list Z)) : bio :=
  bio_after (binit (bio_start img_pt zero_taskfile d)).
Definition img_bio : bio := bio_of_disk img_disk.

Definition img_fs : fs := Fs img_bio (img_root :: img_file :: replicate 48 zero_inode).

(** The file open for reading and writing, at its start. *)
Definition img_ofile : file := File FD_INODE 1 1 1 0 (Some 1%nat) 0.
Definition img_kern : kern :=
  Kern img_fs (img_ofile :: replicate 99 zero_file) ∅ (Kmem ∅ 0).

(** ** The invariants hold *)

Lemma disk_insert d k b :
  is_block b -> (forall x, is_block (disk_read d x)) -> forall x, is_block (disk_read (<[k := b]> d) x).
Proof.
  intros Hb Hd x. unfold disk_read. destruct (decide (k = x)) as [->|].
  - by rewrite lookup_insert_eq.
  - rewrite lookup_insert_ne by done. apply Hd.
Qed.

Lemma bytes_test l : forallb (fun x => (0 <=? x) && (x <? 256)) l = true -> Forall is_byte l.
Proof.
  rewrite forallb_forall. intros Hf. apply Forall_forall. intros x Hx.
  specialize (Hf x (proj1 (list_elem_of_In _ _) Hx)). unfold is_byte. lia.
Qed.

Lemma block_test d :
  Nat.eqb (length d) (Z.to_nat BSIZE) && forallb (fun x => (0 <=? x) && (x <? 256)) d = true ->
  is_block d.
Proof. rewrite andb_true_iff, Nat.eqb_eq. intros [Hl Hf]. split; [done|by apply bytes_test]. Qed.

Lemma img_disk_ok k : is_block (disk_read img_disk k).
Proof.
  revert k. unfold img_disk.
  repeat (apply disk_insert; [apply block_test; by vm_compute|]). intros x. apply is_block_zeros.
Qed.

Lemma img_has_cur : has_cur img_pt.
Proof. exists 0%nat. split; [done|]. by vm_compute; lia. Qed.

Lemma wp_after (m : M bio unit) Q s : wp m Q s -> Q tt (bio_after (m s)).
Proof. unfold wp. destruct (m s) as [[] s'| | |]; [by intros|done..]. Qed.

Lemma bio_of_disk_ok d :
  (forall k, is_block (disk_read d k)) ->
  holds (bio_of_disk d) ∅ /\ bio_disk (bio_of_disk d) = d /\ bio_pt (bio_of_disk d) = img_pt.
Proof.
  intros Hk. unfold bio_of_disk.
  destruct (wp_after _ _ _ (binit_spec img_pt zero_taskfile d img_has_cur Hk))
    as (Hh & _ & Hd & Hp). split; [exact Hh|]. split; [exact Hd|exact Hp].
Qed.

Lemma img_ring : ring img_bio (reverse (seq 0 HEAD)).
Proof.
  unfold img_bio, bio_of_disk.
  destruct (wp_after _ _ _ (binit_spec img_pt zero_taskfile img_disk img_has_cur img_disk_ok))
    as (_ & Hr & _). exact Hr.
Qed.

#[global] Opaque bio_of_disk.

Lemma img_bio_ok :
  holds img_bio ∅ /\ bio_disk img_bio = img_disk /\ bio_pt img_bio = img_pt.
Proof. apply bio_of_disk_ok, img_disk_ok. Qed.

Lemma img_sector dev k : sector_of img_bio dev k = disk_read img_disk (dev, k).
Proof. destruct img_bio_ok as (_ & E & _). unfold sector_of. by rewrite E. Qed.

Lemma img_sb_of : sb_of img_bio 1 = Superblock 1024 1018 16.
Proof. unfold sb_of. rewrite img_sector. by vm_compute. Qed.

(** The bitmap: the blocks 0 to 8 are in use. *)
Lemma img_used b : 0 <= b < 4096 -> used img_bio 1 (Superblock 1024 1018 16) b = (b <? 9).
Proof.
  intros Hb.
  assert (used img_bio 1 (Superblock 1024 1018 16) b = bit_of img_bitmap b) as ->.
  { unfold used. rewrite img_sector. unfold BBLOCK. change BPB with 4096.
    rewrite Z.div_small, Z.mod_small by lia. done. }
  assert (forallb (fun b => Bool.eqb (bit_of img_bitmap b) (b <? 9)) (seqZ 0 4096) = true) as Hf
    by by vm_compute.
  rewrite forallb_forall in Hf. apply Bool.eqb_prop, Hf, list_elem_of_In, elem_of_seqZ. lia.
Qed.

Lemma img_free b : 9 <= b -> sector_of img_bio 1 b = zeros BSIZE.
Proof.
  intros Hb. rewrite img_sector. unfold img_disk, disk_read.
  rewrite !lookup_insert_ne by (intros [=]; lia). done.
Qed.

Lemma img_alloc : alloc_inv img_bio ∅ 1.
Proof.
  assert (nbits (Superblock 1024 1018 16) = 4096) as En by by vm_compute.
  split; [split| |]; rewrite ?img_sb_of.
  - apply img_bio_ok.
  - by right.
  - unfold geom. cbn [sb_ninodes sb_size]. by vm_compute.
  - rewrite map_size_empty. by vm_compute; lia.
  - done.
  - done.
  - intros b Hb Hm. rewrite En in *. rewrite img_used by done. change (last_meta _) with 5 in Hm. lia.
  - intros b Hb Hu. rewrite En in *. rewrite img_used in Hu by done. apply img_free. lia.
Qed.

(** A file with one direct block. *)
Lemma one_block_slot s i b k :
  i_addrs i = b :: zeros 11 -> 0 <= k -> slot s i k = if k =? 0 then b else 0.
Proof.
  intros E Hk. unfold slot. rewrite E. change (nthb (b :: zeros 11) NDIRECT) with 0. cbn [Z.eqb].
  change (NDIRECT + 1) with 12. destruct (Z.ltb_spec k 12) as [Hl|Hl].
  - destruct (Z.eqb_spec k 0) as [->|]; [done|]. rewrite nthb_cons by lia. apply nthb_zeros.
  - by destruct (Z.eqb_spec k 0); [lia|].
Qed.

Lemma one_block_ok i b :
  i_dev i = 1 -> i_addrs i = b :: zeros 11 -> 5 < b < 9 -> file_ok img_bio i.
Proof.
  intros Ed E Hb. split.
  - by rewrite E.
  - intros k Hk. rewrite (one_block_slot _ _ b) by (done || lia). intros Hn.
    destruct (k =? 0); [|done]. rewrite Ed, img_sb_of. split.
    + unfold data_block. change (nbits _) with 4096. change (BBLOCK _ _) with 5. lia.
    + rewrite img_used by lia. lia.
  - intros k k' Hk Hk'. rewrite !(one_block_slot _ _ b) by (done || lia).
    destruct (Z.eqb_spec k 0), (Z.eqb_spec k' 0); lia.
Qed.

Lemma img_root_ok : file_ok img_bio img_root.
Proof. by apply (one_block_ok _ 6). Qed.

Lemma img_file_ok : file_ok img_bio img_file.
Proof. by apply (one_block_ok _ 7). Qed.

Lemma img_inum i : i_dev i = 1 -> 0 <= i_inum i < 16 -> inum_ok (sb_of img_bio (i_dev i)) (i_inum i).
Proof. intros -> Hi. by rewrite img_sb_of. Qed.

Lemma img_wf : inode_wf img_file.
Proof.
  split; [by split; vm_compute..|done|]. unfold img_file. cbn [i_addrs].
  constructor; [unfold is_uint; lia|]. apply Forall_replicate. unfold is_uint. lia.
Qed.

Lemma img_icache : icache_ok (fs_inode img_fs).
Proof.
  intros j k i i' Hj Hk Hr (Hr' & Hd & Hi).
  assert (forall n x, fs_inode img_fs !! n = Some x -> 0 < i_ref x -> Z.of_nat n = i_inum x - 1) as Hn.
  { intros n x Hx Hx'. destruct n as [|[|n]]; [by injection Hx as <-..|]. cbn in Hx.
    apply (lookup_replicate_1 48 zero_inode) in Hx as [-> _]. by cbn in Hx'. }
  pose proof (Hn _ _ Hj Hr). pose proof (Hn _ _ Hk Hr'). lia.
Qed.

Lemma img_refs : Forall (fun i => 0 <= i_ref i) (fs_inode img_fs).
Proof. unfold img_fs. cbn [fs_inode]. do 2 (constructor; [done|]). by apply Forall_replicate. Qed.

(** The tag block. *)
Lemma img_tag_wf : tag_wf img_tags.
Proof.
  destruct tag_wf_zeros as [Hw _]. assert (key_ok (cbytes "color")) as Hk by by vm_compute.
  apply (tag_new_spec (zeros BSIZE) (cbytes "color") (bytes_of "red") 0 3);
    [done..|by apply bytes_test|by apply bytes_test| |].
  - unfold t_used. rewrite nthb_zeros. by intros Hn.
  - intros j Hj E. apply (t_used_key _ _ _ Hk Hj) in E. unfold t_used in E. by rewrite nthb_zeros in E.
Qed.

Lemma img_tag_inode : tag_inode img_bio img_file.
Proof.
  split.
  - apply img_alloc.
  - by apply img_inum.
  - done.
  - by right.
  - intros Hf. cbn in Hf. discriminate Hf.
  - intros _. change (i_dev img_file) with 1. change (i_tags img_file) with 8. rewrite img_sb_of. split_and!.
    + unfold data_block. change (nbits _) with 4096. change (BBLOCK _ _) with 5. lia.
    + by rewrite img_used.
    + rewrite img_sector. exact img_tag_wf.
Qed.
