(* ===== verification/Vm.v ===== *)
(** * Virtual memory (kernel/vm.c, kernel/mmu.h)

    Page directories and page tables are pages of physical memory, read and
    written as arrays of 32-bit entries.  [pte_of] is the translation the
    hardware makes of them, and the functions of vm.c are specified by what
    they do to it. *)

From S2P Require Import Prelude Monad Params Kalloc.

(** ** kernel/mmu.h *)

Definition PDX (la : Z) : Z := Z.land (Z.shiftr (u32 la) 22) 0x3FF.
Definition PTX (la : Z) : Z := Z.land (Z.shiftr (u32 la) 12) 0x3FF.
Definition PTE_P : Z := 0x001.
Definition PTE_W : Z := 0x002.
Definition PTE_U : Z := 0x004.
Definition PTE_ADDR (pte : Z) : Z := Z.land (u32 pte) (u32 (Z.lnot 0xFFF)).
Definition NPDENTRIES : Z := 1024.

(** ** Page table entries *)

(** A pointer to an entry: the page and the index in it. *)
Definition pteptr : Type := Z * Z.
Definition pte_get (p : pteptr) (m : kmem) : Z := get32 (4 * p.2) (page_at p.1 m).
Definition pte_set (p : pteptr) (v : Z) (m : kmem) : kmem :=
  km_set_page (<[p.1 := put32 (4 * p.2) (u32 v) (page_at p.1 m)]> (km_page m)) m.

(** [memset(p, 0, PGSIZE)] on a whole page. *)
Definition clear_page (p : Z) (m : kmem) : kmem :=
  km_set_page (<[p := zeros PGSIZE]> (km_page m)) m.

Definition walkpgdir (pgdir va : Z) (create : bool) : M kmem (option pteptr) :=
  let pde := (pgdir, PDX va) in
  let! e := gets (pte_get pde) in
  if negb (Z.land e PTE_P =? 0) then ret (Some (PTE_ADDR e, PTX va))
  else if negb create then ret None
  else
    let! pgtab := kalloc in
    if pgtab =? 0 then ret None
    else
      modify (clear_page pgtab);;;
      modify (pte_set pde (Z.lor (Z.lor (Z.lor pgtab PTE_P) PTE_W) PTE_U));;;
      ret (Some (pgtab, PTX va)).

(** One round of the loop of [mappages]: [Some (-1)] leaves it. *)
Definition map_page (pgdir a pa perm : Z) : M kmem (option Z) :=
  let! pte := walkpgdir pgdir a true in
  match pte with
  | None => ret (Some (-1))
  | Some p =>
      let! e := gets (pte_get p) in
      if negb (Z.land e PTE_P =? 0) then panic "remap"
      else modify (pte_set p (Z.lor (Z.lor pa perm) PTE_P));;; ret None
  end.

(** The loop runs for [a], [a + PGSIZE], ..., [last], modulo 2^32. *)
Definition mappages (pgdir la size pa perm : Z) : M kmem Z :=
  let a := PGROUNDDOWN la in
  let last := PGROUNDDOWN (la + size - 1) in
  let! r := for_find (seqZ 0 (u32 (last - a) / PGSIZE + 1))
    (fun k => map_page pgdir (u32 (a + k * PGSIZE)) (u32 (pa + k * PGSIZE)) perm) in
  ret (default 0 r).

Section vm.
(** [end] and [data], set by the linker. *)
Context (kend kdata : Z).

Definition kmap : list (Z * Z * Z) :=
  [(USERTOP, 0x100000, PTE_W);
   (0x100000, kdata, 0);
   (kdata, PHYSTOP, PTE_W);
   (0xFE000000, 0, PTE_W)].

(** A failure leaves the pages allocated so far behind. *)
Definition setupkvm : M kmem Z :=
  let! pgdir := kalloc in
  if pgdir =? 0 then ret 0
  else
    modify (clear_page pgdir);;;
    let! r := for_find kmap (fun '(p, e, perm) =>
      let! r := mappages pgdir p (u32 (e - p)) p perm in
      ret (if r <? 0 then Some 0 else None)) in
    ret (default pgdir r).

Definition inituvm (pgdir : Z) (init : list Z) (sz : Z) : M kmem unit :=
  if PGSIZE <=? sz then panic "inituvm: more than a page"
  else
    let! mem := kalloc in
    modify (clear_page mem);;;
    let! _ := mappages pgdir 0 PGSIZE mem (Z.lor PTE_W PTE_U) in
    modify (fun m => km_set_page (<[mem := splice 0 (slice 0 sz init) (page_at mem m)]> (km_page m)) m).

(** The loop of [deallocuvm]: the page of [a] is freed and unmapped. *)
Definition dealloc_page (pgdir a : Z) : M kmem unit :=
  let! pte := walkpgdir pgdir a false in
  match pte with
  | None => ret tt
  | Some p =>
      let! e := gets (pte_get p) in
      if Z.land e PTE_P =? 0 then ret tt
      else if PTE_ADDR e =? 0 then panic "kfree"
      else kfree kend (PTE_ADDR e);;; modify (pte_set p 0)
  end.

Definition deallocuvm (pgdir oldsz newsz : Z) : M kmem Z :=
  if oldsz <=? newsz then ret oldsz
  else
    for_each (range (PGROUNDUP newsz) oldsz PGSIZE) (dealloc_page pgdir);;;
    ret newsz.

(** The loop of [allocuvm]: [Some 0] leaves it.  The result of [mappages] is
    not looked at. *)
Definition alloc_page (pgdir oldsz newsz a : Z) : M kmem (option Z) :=
  let! mem := kalloc in
  if mem =? 0 then
    let! _ := deallocuvm pgdir newsz oldsz in ret (Some 0)
  else
    modify (clear_page mem);;;
    let! _ := mappages pgdir a PGSIZE mem (Z.lor PTE_W PTE_U) in
    ret None.

Definition allocuvm (pgdir oldsz newsz : Z) : M kmem Z :=
  if USERTOP <? newsz then ret 0
  else if newsz <? oldsz then ret oldsz
  else
    let! r := for_find (range (PGROUNDUP oldsz) newsz PGSIZE) (alloc_page pgdir oldsz newsz) in
    ret (default newsz r).

Definition freevm (pgdir : Z) : M kmem unit :=
  if pgdir =? 0 then panic "freevm: no pgdir"
  else
    let! _ := deallocuvm pgdir USERTOP 0 in
    for_each (seqZ 0 NPDENTRIES) (fun i =>
      let! e := gets (pte_get (pgdir, i)) in
      if Z.land e PTE_P =? 0 then ret tt else kfree kend (PTE_ADDR e));;;
    kfree kend pgdir.

(** The loop of [copyuvm]: [Some tt] is the jump to [bad]. *)
Definition copy_page (pgdir d i : Z) : M kmem (option unit) :=
  let! pte := walkpgdir pgdir i false in
  match pte with
  | None => panic "copyuvm: pte should exist"
  | Some p =>
      let! e := gets (pte_get p) in
      if Z.land e PTE_P =? 0 then panic "copyuvm: page not present"
      else
        let! mem := kalloc in
        if mem =? 0 then ret (Some tt)
        else
          modify (fun m => km_set_page (<[mem := page_at (PTE_ADDR e) m]> (km_page m)) m);;;
          let! r := mappages d i PGSIZE mem (Z.lor PTE_W PTE_U) in
          ret (if r <? 0 then Some tt else None)
  end.

Definition copyuvm (pgdir sz : Z) : M kmem Z :=
  let! d := setupkvm in
  if d =? 0 then ret 0
  else
    let! r := for_find (range 0 sz PGSIZE) (copy_page pgdir d) in
    match r with
    | Some _ => freevm d;;; ret 0
    | None => ret d
    end.

End vm.

(** [None] where the code dereferences the null entry pointer. *)
Definition uva2ka (pgdir uva : Z) : M kmem (option Z) :=
  let! pte := walkpgdir pgdir uva false in
  match pte with
  | None => ret None
  | Some p =>
      let! e := gets (pte_get p) in
      if Z.land e PTE_P =? 0 then ret (Some 0)
      else if Z.land e PTE_U =? 0 then ret (Some 0)
      else ret (Some (PTE_ADDR e))
  end.

(** One round of [copyout], with [va], [buf] and [len]. *)
Definition copyout_step (pgdir : Z) '(va, buf, len) : M kmem ((Z * list Z * Z) + Z) :=
  if 0 <? len then
    let va0 := PGROUNDDOWN va in
    let! pa := uva2ka pgdir va0 in
    match pa with
    | None => panic "trap"
    | Some pa0 =>
        if pa0 =? 0 then ret (inr (-1))
        else
          let n := Z.min (PGSIZE - (va - va0)) len in
          modify (fun m => km_set_page
            (<[pa0 := splice (va - va0) (slice 0 n buf) (page_at pa0 m)]> (km_page m)) m);;;
          ret (inl (u32 (va0 + PGSIZE), drop (Z.to_nat n) buf, len - n))
    end
  else ret (inr 0).

(** Every round ends a page or the copy. *)
Definition copyout (pgdir va : Z) (p : list Z) (len : Z) : M kmem Z :=
  while_fuel (Z.to_nat (len / PGSIZE + 3)) (copyout_step pgdir) (va, p, len).

(** ** The translation *)

(** The entry for [va], 0 where there is no page table. *)
Definition pte_of (m : kmem) (pgdir va : Z) : Z :=
  let e := pte_get (pgdir, PDX va) m in
  if Z.land e PTE_P =? 0 then 0 else pte_get (PTE_ADDR e, PTX va) m.

(** The byte at a user address, [None] where the page is not present. *)
Definition user_byte (m : kmem) (pgdir va : Z) : option Z :=
  let e := pte_of m pgdir va in
  if Z.land e PTE_P =? 0 then None else Some (nthb (page_at (PTE_ADDR e) m) (va mod PGSIZE)).
