(* ===== verification/VmSpec.v ===== *)
(** * Page tables (kernel/vm.c): specifications

    What [walkpgdir], [mappages] and [setupkvm] do to the translation [pte_of]
    of an address space, and which pages they use: the directory, its tables
    and the free list are distinct pages, and a new table comes off the free
    list. *)

From S2P Require Import Prelude Monad Params Kalloc Vm.

(** ** Addresses and entries *)

Definition va_ok (va : Z) : Prop := 0 <= va < 2 ^ 32.

(** The entry [mappages] writes. *)
Definition entry (pa perm : Z) : Z := Z.lor (Z.lor pa perm) PTE_P.
Definition present (e : Z) : bool := negb (Z.land e PTE_P =? 0).

(** The first address of a page. *)
Definition page_base (va : Z) : Z := va / PGSIZE * PGSIZE.

Lemma PTE_ADDR_eq e : PTE_ADDR e = u32 e / PGSIZE * PGSIZE.
Proof. apply PGROUNDDOWN_eq. Qed.

Lemma PDX_eq va : va_ok va -> PDX va = va / 2 ^ 22.
Proof.
  intros H. unfold PDX. rewrite u32_small, Z.shiftr_div_pow2 by done.
  change 0x3FF with (Z.ones 10). rewrite Z.land_ones by done. apply Z.mod_small.
  split; [apply Z.div_pos; unfold va_ok in *; lia|].
  apply Z.div_lt_upper_bound; [done|]. unfold va_ok in H. lia.
Qed.

Lemma PTX_eq va : va_ok va -> PTX va = va / PGSIZE mod 1024.
Proof.
  intros H. unfold PTX. rewrite u32_small, Z.shiftr_div_pow2 by done.
  change 0x3FF with (Z.ones 10). by rewrite Z.land_ones by done.
Qed.

Lemma PDX_range va : va_ok va -> 0 <= PDX va < NPDENTRIES.
Proof.
  intros H. rewrite PDX_eq by done. unfold va_ok, NPDENTRIES in *.
  split; [apply Z.div_pos; lia|]. apply Z.div_lt_upper_bound; lia.
Qed.

Lemma PTX_range va : va_ok va -> 0 <= PTX va < 1024.
Proof. intros H. rewrite PTX_eq by done. by apply Z.mod_pos_bound. Qed.

(** Two addresses are in one page when they have the same indices. *)
Lemma same_page va va' :
  va_ok va -> va_ok va' -> page_base va = page_base va' <-> PDX va = PDX va' /\ PTX va = PTX va'.
Proof.
  intros H H'. unfold page_base. rewrite !PDX_eq, !PTX_eq by done.
  change (2 ^ 22) with (PGSIZE * 1024). rewrite <- !Z.div_div by done.
  pose proof (Z.div_mod (va / PGSIZE) 1024 ltac:(done)).
  pose proof (Z.div_mod (va' / PGSIZE) 1024 ltac:(done)). unfold PGSIZE in *.
  split; [intros E; assert (va / 4096 = va' / 4096) as -> by lia; done|intros [E1 E2]; lia].
Qed.

(** A page-aligned address with flags in its low bits. *)
Lemma lor_flags pa x : pa mod PGSIZE = 0 -> 0 <= x < PGSIZE -> Z.lor pa x = pa + x.
Proof.
  intros Hpa Hx. assert (Z.land pa x = 0) as Hl.
  { apply Z.bits_inj'. intros n Hn. rewrite Z.land_spec, Z.bits_0.
    destruct (Z.le_gt_cases 12 n) as [Hge|Hlt].
    - assert (Z.testbit x n = false) as ->; [|apply andb_false_r].
      rewrite Z.testbit_false by lia. rewrite Z.div_small; [done|].
      split; [lia|]. eapply Z.lt_le_trans; [apply Hx|]. change PGSIZE with (2 ^ 12).
      by apply Z.pow_le_mono_r.
    - assert (Z.testbit pa n = false) as ->; [|done].
      rewrite (Z.div_mod pa PGSIZE), Hpa, Z.add_0_r, Z.mul_comm by done.
      by apply (Z.mul_pow2_bits_low (pa / PGSIZE) 12 n). }
  by rewrite Z.add_nocarry_lxor, Z.lxor_lor by done.
Qed.

Lemma lor_range x y : 0 <= x < PGSIZE -> 0 <= y < PGSIZE -> 0 <= Z.lor x y < PGSIZE.
Proof.
  intros Hx Hy. split; [apply Z.lor_nonneg; lia|].
  destruct (Z.eq_dec (Z.lor x y) 0) as [->|Hne]; [done|].
  change PGSIZE with (2 ^ 12). apply Z.log2_lt_pow2.
  - pose proof (Z.lor_nonneg x y). lia.
  - rewrite Z.log2_lor by lia. apply Z.max_lub_lt.
    + destruct (Z.eq_dec x 0) as [->|]; [done|]. apply Z.log2_lt_pow2; [lia|]. apply Hx.
    + destruct (Z.eq_dec y 0) as [->|]; [done|]. apply Z.log2_lt_pow2; [lia|]. apply Hy.
Qed.

Lemma land_low e y : 0 <= y < PGSIZE -> Z.land e y = Z.land (e mod PGSIZE) y.
Proof.
  intros Hy. change PGSIZE with (2 ^ 12) in *. rewrite <- Z.land_ones by done.
  rewrite <- Z.land_assoc. f_equal. rewrite Z.land_comm, Z.land_ones by done.
  by rewrite Z.mod_small.
Qed.

Lemma entry_spec pa perm :
  pa mod PGSIZE = 0 -> 0 <= pa < 2 ^ 32 -> 0 <= perm < PGSIZE ->
  0 <= entry pa perm < 2 ^ 32 /\ PTE_ADDR (entry pa perm) = pa /\ present (entry pa perm) = true /\
  Z.land (entry pa perm) PTE_U = Z.land perm PTE_U.
Proof.
  intros Ha Hpa Hp. unfold entry. rewrite <- Z.lor_assoc.
  assert (0 <= PTE_P < PGSIZE) as Hf by done. pose proof (lor_range _ _ Hp Hf) as Hr.
  rewrite lor_flags by done. set (x := Z.lor perm PTE_P) in *.
  assert (pa + x < 2 ^ 32) as Hlt.
  { pose proof (Z.div_mod pa PGSIZE ltac:(done)). rewrite Ha, Z.add_0_r in *.
    assert (pa / PGSIZE < 2 ^ 20) by (apply Z.div_lt_upper_bound; [done|apply Hpa]).
    unfold PGSIZE in *. lia. }
  assert ((pa + x) mod PGSIZE = x) as Hm.
  { rewrite Zplus_mod, Ha, Z.add_0_l, Z.mod_mod by done. by apply Z.mod_small. }
  split; [lia|]. split; [|split].
  - rewrite PTE_ADDR_eq, u32_small by lia.
    pose proof (Z.div_mod (pa + x) PGSIZE ltac:(done)). lia.
  - unfold present. rewrite land_low, Hm by done. subst x. rewrite Z.land_lor_distr_l.
    change (Z.land PTE_P PTE_P) with 1. destruct (Z.lor (Z.land perm PTE_P) 1 =? 0) eqn:E; [|done].
    zbool. apply Z.lor_eq_0_iff in E. lia.
  - rewrite land_low, Hm by done. subst x. rewrite Z.land_lor_distr_l.
    change (Z.land PTE_P PTE_U) with 0. apply Z.lor_0_r.
Qed.

(** ** An address space in memory *)

(** A whole page of bytes. *)
Definition is_page (m : kmem) (p : Z) : Prop :=
  length (page_at p m) = Z.to_nat PGSIZE /\ Forall is_byte (page_at p m).

(** The page table in entry [i] of the directory, and all of them. *)
Definition tab_of (m : kmem) (pgdir i : Z) : option Z :=
  let e := pte_get (pgdir, i) m in if Z.land e PTE_P =? 0 then None else Some (PTE_ADDR e).
Definition tabs (m : kmem) (pgdir : Z) : list Z := omap (tab_of m pgdir) (seqZ 0 NPDENTRIES).

#[local] Strategy expand [tabs].

(** The tables are in entries of [I] only. *)
Definition tabs_in (I : list Z) (m : kmem) (pgdir : Z) : Prop :=
  forall i, 0 <= i < NPDENTRIES -> is_Some (tab_of m pgdir i) -> i ∈ I.

(** Two memories have the same pages except those in [l]. *)
Definition same_but (l : list Z) (m m' : kmem) : Prop := forall p, p ∉ l -> page_at p m' = page_at p m.

(** The directory, its tables and the free pages [l] are distinct pages of the
    allocator. *)
Record pgdir_ok (kend : Z) (m : kmem) (pgdir : Z) (l : list Z) : Prop := {
  pd_free : free_list kend m l;
  pd_valid : Forall (valid_page kend) (pgdir :: tabs m pgdir);
  pd_page : Forall (is_page m) (pgdir :: tabs m pgdir);
  pd_nodup : NoDup (pgdir :: tabs m pgdir ++ l);
}.

(** A change of the function at one point of a list. *)
Lemma omap_update {A B} (f g : A -> option B) l x y :
  NoDup l -> x ∈ l -> f x = None -> g x = Some y -> (forall z, z ∈ l -> z <> x -> g z = f z) ->
  omap g l ≡ₚ y :: omap f l.
Proof.
  intros Hnd Hx Hf Hg Heq. induction Hnd as [|z l Hz Hnd IH]; [by apply elem_of_nil in Hx|].
  cbn. apply elem_of_cons in Hx as [->|Hx].
  - rewrite Hf, Hg. cbn. constructor. erewrite list_omap_ext; [done|].
    apply Forall2_same_length_lookup_2; [done|]. intros i a b Ha Hb. simplify_eq.
    apply list_elem_of_lookup_2 in Ha. apply Heq; [by right|]. by intros ->.
  - rewrite Heq by (by left || (intros ->; done)).
    assert (omap g l ≡ₚ y :: omap f l) as IH' by (apply IH; [done|]; intros; apply Heq; [by right|done]).
    destruct (f z); cbn; rewrite IH'; [constructor|done].
Qed.

Lemma omap_inj {A B} (f : A -> option B) l x y b :
  NoDup (omap f l) -> x ∈ l -> y ∈ l -> f x = Some b -> f y = Some b -> x = y.
Proof.
  intros Hnd Hx Hy Ex Ey. induction l as [|z l IH]; [by apply elem_of_nil in Hx|].
  apply elem_of_cons in Hx as [->|Hx], Hy as [->|Hy]; [done|..|]; cbn in Hnd.
  - rewrite Ex in Hnd. apply NoDup_cons in Hnd as [Hn _]. destruct Hn. apply list_elem_of_omap. eauto.
  - rewrite Ey in Hnd. apply NoDup_cons in Hnd as [Hn _]. destruct Hn. apply list_elem_of_omap. eauto.
  - apply IH; [|done..]. destruct (f z); [by apply NoDup_cons in Hnd as [_ ?]|done].
Qed.

Lemma free_list_ext kend m m' l :
  free_list kend m l -> km_freelist m' = km_freelist m ->
  (forall p, p ∈ l -> page_at p m' = page_at p m) -> free_list kend m' l.
Proof.
  intros [Hc Hn Hv] Hf Hp. split; [|done..]. rewrite Hf. by apply (chain_ext m).
Qed.

Section translation.
Context (kend : Z) (Hkend : 0 < kend).

Lemma pte_get_same m m' p : page_at p.1 m' = page_at p.1 m -> pte_get p m' = pte_get p m.
Proof. intros H. unfold pte_get. by rewrite H. Qed.

Lemma elem_of_tabs m pgdir t :
  t ∈ tabs m pgdir <-> exists i, 0 <= i < NPDENTRIES /\ tab_of m pgdir i = Some t.
Proof.
  unfold tabs. rewrite list_elem_of_omap.
  split; intros (i & Hi & Ht); exists i; (split; [|done]).
  - apply elem_of_seqZ in Hi. lia.
  - apply elem_of_seqZ. lia.
Qed.

Lemma tab_of_same m m' pgdir i :
  page_at pgdir m' = page_at pgdir m -> tab_of m' pgdir i = tab_of m pgdir i.
Proof. intros H. unfold tab_of. by rewrite (pte_get_same m m'). Qed.

Lemma tabs_same m m' pgdir : page_at pgdir m' = page_at pgdir m -> tabs m' pgdir = tabs m pgdir.
Proof.
  intros H. unfold tabs. apply list_omap_ext, Forall2_same_length_lookup_2; [done|].
  intros i a b Ha Hb. simplify_eq. by apply tab_of_same.
Qed.

Lemma tab_in m pgdir va t : va_ok va -> tab_of m pgdir (PDX va) = Some t -> t ∈ tabs m pgdir.
Proof. intros H Ht. apply elem_of_tabs. exists (PDX va). split; [by apply PDX_range|done]. Qed.

Lemma pte_of_tab m pgdir va :
  pte_of m pgdir va = match tab_of m pgdir (PDX va) with Some t => pte_get (t, PTX va) m | None => 0 end.
Proof. unfold pte_of, tab_of. by destruct (Z.land _ _ =? 0). Qed.

(** The translation depends on the directory and its tables only. *)
Lemma pte_of_same m m' pgdir va :
  va_ok va -> page_at pgdir m' = page_at pgdir m ->
  (forall t, t ∈ tabs m pgdir -> page_at t m' = page_at t m) ->
  pte_of m' pgdir va = pte_of m pgdir va.
Proof.
  intros Hva Hd Ht. rewrite !pte_of_tab. rewrite (tab_of_same m m') by done.
  destruct (tab_of m pgdir (PDX va)) as [t|] eqn:E; [|done].
  apply pte_get_same, Ht. by eapply tab_in.
Qed.

Lemma tabs_omap m pgdir : tabs m pgdir = omap (tab_of m pgdir) (seqZ 0 NPDENTRIES).
Proof. reflexivity. Qed.

Lemma tabs_length I m pgdir : tabs_in I m pgdir -> (length (tabs m pgdir) <= length I)%nat.
Proof.
  intros HI. rewrite tabs_omap.
  assert (forall L, (forall i, i ∈ L -> 0 <= i < NPDENTRIES) -> NoDup L ->
    exists J, length (omap (tab_of m pgdir) L) = length J /\ NoDup J /\
      forall i, i ∈ J -> i ∈ L /\ is_Some (tab_of m pgdir i)) as H.
  { induction L as [|i L IH]; intros HL Hnd; [by exists []; split_and!; [|constructor|set_solver]|].
    apply NoDup_cons in Hnd as [Hi Hnd]. destruct IH as (J & Hlen & HJ & Hin); [set_solver|done|].
    cbn. destruct (tab_of m pgdir i) as [t|] eqn:E.
    - exists (i :: J). cbn. rewrite Hlen. split; [done|]. split; [constructor; [set_solver|done]|].
      intros j [->|Hj]%elem_of_cons; [split; [by left|by eexists]|]. split; [right|]; by apply Hin.
    - exists J. split; [done|]. split; [done|]. intros j Hj. split; [right|]; by apply Hin. }
  destruct (H (seqZ 0 NPDENTRIES)) as (J & -> & HJ & Hin); [by intros i Hi%elem_of_seqZ|apply NoDup_seqZ|].
  apply submseteq_length, NoDup_submseteq; [done|]. intros i Hi. destruct (Hin i Hi) as [Hs Ht].
  apply HI; [by apply elem_of_seqZ in Hs|done].
Qed.

Lemma tabs_length_lt I m pgdir j :
  tabs_in I m pgdir -> j ∈ I -> tab_of m pgdir j = None -> (length (tabs m pgdir) < length I)%nat.
Proof.
  intros HI Hj Hn. apply list_elem_of_split in Hj as (I1 & I2 & ->).
  assert (tabs_in (I1 ++ I2) m pgdir) as H%tabs_length.
  { intros i Hi Hs. specialize (HI i Hi Hs). assert (i <> j) by (intros ->; rewrite Hn in Hs; by destruct Hs).
    set_solver. }
  rewrite length_app in *. cbn. lia.
Qed.

Lemma tabs_inj m pgdir i j t :
  NoDup (tabs m pgdir) -> 0 <= i < NPDENTRIES -> 0 <= j < NPDENTRIES ->
  tab_of m pgdir i = Some t -> tab_of m pgdir j = Some t -> i = j.
Proof.
  intros Hnd Hi Hj Ei Ej. unfold tabs in Hnd.
  apply (omap_inj (tab_of m pgdir) (seqZ 0 NPDENTRIES) i j t Hnd); [..|done|done];
    apply elem_of_seqZ; rewrite Z.add_0_l; assumption.
Qed.

#[local] Opaque tabs.

(** Two tables are different pages. *)
Lemma tab_inj m pgdir l i j t :
  pgdir_ok kend m pgdir l -> 0 <= i < NPDENTRIES -> 0 <= j < NPDENTRIES ->
  tab_of m pgdir i = Some t -> tab_of m pgdir j = Some t -> i = j.
Proof.
  intros [_ _ _ Hnd]. apply tabs_inj. apply NoDup_cons in Hnd as [_ Hnd]. by apply NoDup_app in Hnd as [? _].
Qed.

(** Assigning the entry of [va] changes the translation of its page only. *)
Lemma pte_set_spec m pgdir l va t v :
  pgdir_ok kend m pgdir l -> va_ok va -> tab_of m pgdir (PDX va) = Some t ->
  let m' := pte_set (t, PTX va) v m in
  pgdir_ok kend m' pgdir l /\ tabs m' pgdir = tabs m pgdir /\ same_but [t] m m' /\
  forall va', va_ok va' ->
    pte_of m' pgdir va' = if decide (page_base va' = page_base va) then u32 v else pte_of m pgdir va'.
Proof.
  intros Hok Hva Ht m'. pose proof (tab_in _ _ _ _ Hva Ht) as Hin. pose proof (PTX_range va Hva) as Hx.
  destruct (Hok) as [Hf Hv Hpg Hnd]. apply NoDup_cons in Hnd as [Hd Hnd].
  apply NoDup_app in Hnd as (Hnd & Hdis & _).
  assert (pgdir <> t) as Hne by (intros ->; apply Hd, elem_of_app; by left).
  assert (same_but [t] m m') as Hs.
  { intros p Hp. unfold m', pte_set. rewrite page_at_insert, decide_False; [done|]. set_solver. }
  assert (page_at t m' = put32 (4 * PTX va) (u32 v) (page_at t m)) as Ept.
  { unfold m', pte_set. by rewrite page_at_insert, decide_True. }
  assert (page_at pgdir m' = page_at pgdir m) as Ed by (apply Hs; set_solver).
  assert (tabs m' pgdir = tabs m pgdir) as Et by by apply tabs_same.
  assert (forall p, is_page m p -> is_page m' p) as Hip.
  { intros p [Hl Hb]. destruct (decide (p = t)) as [->|Hp].
    - unfold is_page. rewrite Ept, length_put32. split; [done|by apply Forall_put32].
    - unfold is_page. by rewrite Hs by set_solver. }
  assert (is_page m t) as [Hlen _] by (eapply Forall_forall; [exact Hpg|by right]).
  split; [split|split; [done|split; [done|]]].
  - eapply free_list_ext; [done..|]. intros p Hp. apply Hs. intros ->%list_elem_of_singleton. by apply (Hdis t).
  - by rewrite Et.
  - rewrite Et. eapply Forall_impl; [exact Hpg|done].
  - rewrite Et. by destruct Hok.
  - intros va' Hva'. rewrite !pte_of_tab, (tab_of_same m m') by done. case_decide as Hb.
    + apply same_page in Hb as [-> ->]; [|done..]. rewrite Ht. unfold pte_get. cbn [fst snd]. rewrite Ept.
      apply get32_put32_eq; [lia| |apply u32_range]. rewrite Hlen. change PGSIZE with 4096. lia.
    + destruct (tab_of m pgdir (PDX va')) as [t'|] eqn:Et'; [|done].
      destruct (decide (t' = t)) as [->|Hn].
      * assert (PTX va' <> PTX va) as Hp.
        { intros Hp. apply Hb, same_page; [done..|]. split; [|done].
          eapply tab_inj; [done|by apply PDX_range..|done|done]. }
        pose proof (PTX_range va' Hva'). unfold pte_get. cbn [fst snd]. rewrite Ept.
        apply get32_put32_ne; lia.
      * apply pte_get_same. cbn. apply Hs. set_solver.
Qed.

(** A step of the address space [pgdir]: pages [k] of the free list have
    become page tables, everything else but the directory and its tables is
    as it was. *)
Record vm_step (pgdir : Z) (m : kmem) (l : list Z) (m' : kmem) (l' : list Z) : Prop := {
  vs_ok : pgdir_ok kend m' pgdir l';
  vs_pages : exists k, l = k ++ l' /\ tabs m' pgdir ≡ₚ k ++ tabs m pgdir;
  vs_same : same_but (pgdir :: tabs m' pgdir) m m';
}.

Lemma vm_step_refl pgdir m l : pgdir_ok kend m pgdir l -> vm_step pgdir m l m l.
Proof. intros H. split; [done| |done]. by exists []. Qed.

Lemma vm_step_trans pgdir m l m1 l1 m2 l2 :
  vm_step pgdir m l m1 l1 -> vm_step pgdir m1 l1 m2 l2 -> vm_step pgdir m l m2 l2.
Proof.
  intros [H1 (k1 & -> & P1) S1] [H2 (k2 & -> & P2) S2]. split; [done|..].
  - exists (k1 ++ k2). split; [by rewrite app_assoc|]. rewrite P2, P1. solve_Permutation.
  - intros p Hp. rewrite S2 by done. apply S1. rewrite P2 in Hp. set_solver.
Qed.

(** [kalloc] for an address space. *)
Lemma kalloc_pgdir m pgdir l :
  pgdir_ok kend m pgdir l ->
  wp kalloc (fun r m' => km_page m' = km_page m /\ pgdir_ok kend m' pgdir (tail l) /\
    r = default 0 (head l)) m.
Proof.
  intros [Hf Hv Hpg Hnd]. wcall (kalloc_spec kend); [done|]. intros r m' (Hp & Hf' & ->).
  assert (forall p, page_at p m' = page_at p m) as Hs by (intros; unfold page_at; by rewrite Hp).
  split; [done|]. split; [|done].
  assert (tabs m' pgdir = tabs m pgdir) as Et by by apply tabs_same.
  split; [done|by rewrite Et|..]; rewrite Et.
  - eapply Forall_impl; [exact Hpg|]. intros p. unfold is_page. by rewrite Hs.
  - destruct l as [|x l]; [done|]. cbn. rewrite <- Permutation_middle in Hnd.
    rewrite Permutation_swap in Hnd. by apply NoDup_cons in Hnd as [_ ?].
Qed.

(** ** walkpgdir *)

(** A fresh, cleared page [t] becomes the table of entry [i]. *)
Definition add_table (pgdir i t : Z) (m : kmem) : kmem :=
  pte_set (pgdir, i) (Z.lor (Z.lor (Z.lor t PTE_P) PTE_W) PTE_U) (clear_page t m).

Lemma add_table_fields m pgdir i t :
  is_page m pgdir -> 0 <= i < 1024 -> valid_page kend t -> t <> pgdir ->
  (forall p, page_at p (add_table pgdir i t m) =
     if decide (p = pgdir) then put32 (4 * i) (entry t (Z.lor PTE_W PTE_U)) (page_at pgdir m)
     else if decide (p = t) then zeros PGSIZE else page_at p m) /\
  forall j, 0 <= j < 1024 ->
    tab_of (add_table pgdir i t m) pgdir j = if decide (j = i) then Some t else tab_of m pgdir j.
Proof.
  intros [Hlen Hby] Hi Hvt Hne.
  assert (0 <= t < 2 ^ 32) as Htr by (pose proof (valid_range kend Hkend _ Hvt); lia).
  destruct (entry_spec t (Z.lor PTE_W PTE_U)) as (Her & Hea & Hep & _); [apply Hvt|done..|].
  assert (forall p, page_at p (add_table pgdir i t m) =
     if decide (p = pgdir) then put32 (4 * i) (entry t (Z.lor PTE_W PTE_U)) (page_at pgdir m)
     else if decide (p = t) then zeros PGSIZE else page_at p m) as Epg.
  { intros p. unfold add_table, pte_set. cbn [fst snd]. rewrite page_at_insert.
    unfold clear_page. rewrite !page_at_insert, (decide_False (P := pgdir = t)) by done.
    assert (Z.lor (Z.lor (Z.lor t PTE_P) PTE_W) PTE_U = entry t (Z.lor PTE_W PTE_U)) as ->.
    { unfold entry. rewrite <- !Z.lor_assoc. f_equal. }
    by rewrite (u32_small (entry _ _)). }
  split; [done|]. intros j Hj. unfold tab_of, pte_get. cbn [fst snd]. rewrite Epg, decide_True by done.
  case_decide as Hd.
  - subst j. rewrite get32_put32_eq by (try rewrite Hlen; unfold PGSIZE in *; lia).
    unfold present in Hep. apply negb_true_iff in Hep. by rewrite Hep, Hea.
  - by rewrite get32_put32_ne by lia.
Qed.

Lemma tabs_add m m' pgdir i t :
  0 <= i < 1024 -> tab_of m pgdir i = None ->
  (forall j, 0 <= j < 1024 -> tab_of m' pgdir j = if decide (j = i) then Some t else tab_of m pgdir j) ->
  tabs m' pgdir ≡ₚ t :: tabs m pgdir.
Proof.
  intros Hi Hn Ht. Transparent tabs. unfold tabs.
  apply omap_update with i.
  - apply NoDup_seqZ.
  - apply elem_of_seqZ. unfold NPDENTRIES. lia.
  - done.
  - rewrite Ht by done. by rewrite decide_True.
  - intros z Hz Hne. apply elem_of_seqZ in Hz. rewrite Ht by (unfold NPDENTRIES in Hz; lia).
    by rewrite decide_False.
Qed.
#[local] Opaque tabs.

Lemma new_table m pgdir l va t :
  pgdir_ok kend m pgdir l -> va_ok va -> tab_of m pgdir (PDX va) = None ->
  valid_page kend t -> t ∉ pgdir :: tabs m pgdir ++ l ->
  let m' := add_table pgdir (PDX va) t m in
  vm_step pgdir m (t :: l) m' l /\ tab_of m' pgdir (PDX va) = Some t /\
  (forall i, 0 <= i < NPDENTRIES -> i <> PDX va -> tab_of m' pgdir i = tab_of m pgdir i) /\
  forall va', va_ok va' -> pte_of m' pgdir va' = pte_of m pgdir va'.
Proof.
  intros Hok Hva Hn Hvt Ht m'. pose proof (PDX_range va Hva) as Hx.
  destruct Hok as [Hf Hv Hpg Hnd]. apply not_elem_of_cons in Ht as [Hne Ht].
  apply not_elem_of_app in Ht as [Ht Htl].
  assert (is_page m pgdir) as Hip by by inv Hpg.
  destruct (add_table_fields m pgdir (PDX va) t) as [Epg Etab]; [done..|]. fold m' in Epg, Etab.
  pose proof (tabs_add m m' pgdir (PDX va) t Hx Hn Etab) as Hperm.
  assert (same_but [pgdir; t] m m') as Hs.
  { intros p Hp. rewrite Epg, !decide_False; [done|set_solver..]. }
  apply NoDup_cons in Hnd as [Hd Hnd]. apply not_elem_of_app in Hd as [Hdt Hdl].
  assert (forall p, p ∈ tabs m pgdir -> page_at p m' = page_at p m) as Hst.
  { intros p Hp. apply Hs. set_solver. }
  split; [split|split; [|split]].
  - split.
    + eapply free_list_ext; [done..|]. intros p Hp. apply Hs. set_solver.
    + inv Hv. constructor; [done|]. rewrite Hperm. by constructor.
    + apply Forall_cons in Hpg as [_ Hpt]. constructor; [|rewrite Hperm; constructor].
      * split; rewrite Epg, decide_True by done; [rewrite length_put32; apply Hip|].
        apply Forall_put32, Hip.
      * split; rewrite Epg, decide_False, decide_True by done; [apply length_zeros|apply Forall_zeros].
      * apply Forall_forall. intros p Hp. unfold is_page. rewrite Hst by done.
        rewrite Forall_forall in Hpt. by apply Hpt.
    + rewrite Hperm. cbn. rewrite NoDup_cons, NoDup_cons. set_solver.
  - exists [t]. split; [done|]. cbn. done.
  - intros p Hp. apply Hs. rewrite Hperm in Hp. set_solver.
  - rewrite Etab by done. by rewrite decide_True.
  - intros i Hi Hne'. by rewrite Etab, decide_False.
  - intros va' Hva'. rewrite !pte_of_tab, Etab by by apply PDX_range. case_decide as Hd.
    + rewrite Hd, Hn. unfold pte_get. cbn [fst snd]. rewrite Epg, decide_False, decide_True by done.
      apply get32_zeros.
    + destruct (tab_of m pgdir (PDX va')) as [t'|] eqn:Et'; [|done]. apply pte_get_same, Hst.
      by eapply tab_in.
Qed.

Lemma vm_step_pages pgdir m1 m l m' l' :
  km_page m1 = km_page m -> vm_step pgdir m1 l m' l' -> vm_step pgdir m l m' l'.
Proof.
  intros Hp. assert (forall p, page_at p m1 = page_at p m) as Hs by (intros; unfold page_at; by rewrite Hp).
  intros [H1 (k & -> & P) S]. split; [done|..].
  - exists k. by rewrite (tabs_same m m1) in P by done.
  - intros p Hp'. by rewrite S, Hs.
Qed.

Lemma walkpgdir_find m pgdir va :
  wp (walkpgdir pgdir va false) (fun r m' => m' = m /\
    r = (fun t => (t, PTX va)) <$> tab_of m pgdir (PDX va)) m.
Proof.
  unfold walkpgdir, tab_of. wsteps. destruct (Z.land _ _ =? 0); by wsteps.
Qed.

(** With [create], a missing table is made; there is none only when memory
    has run out. *)
Lemma walkpgdir_create m pgdir l va :
  pgdir_ok kend m pgdir l -> va_ok va ->
  wp (walkpgdir pgdir va true) (fun r m' => exists l',
    vm_step pgdir m l m' l' /\
    (forall va', va_ok va' -> pte_of m' pgdir va' = pte_of m pgdir va') /\
    (forall i, 0 <= i < NPDENTRIES -> i <> PDX va -> tab_of m' pgdir i = tab_of m pgdir i) /\
    match r with
    | None => l' = [] /\ tab_of m' pgdir (PDX va) = None
    | Some p => exists t, p = (t, PTX va) /\ tab_of m' pgdir (PDX va) = Some t
    end) m.
Proof.
  intros Hok Hva. unfold walkpgdir. wstep. wstep.
  destruct (Z.land (pte_get (pgdir, PDX va) m) PTE_P =? 0) eqn:E; cbn [negb].
  2: { wsteps. exists l. split; [by apply vm_step_refl|]. split; [done|]. split; [done|].
       eexists. split; [done|]. unfold tab_of. by rewrite E. }
  assert (tab_of m pgdir (PDX va) = None) as Hn by (unfold tab_of; by rewrite E).
  wcall kalloc_pgdir; [done|]. cbn. intros t m1 (Hp & Hok1 & ->).
  assert (forall p, page_at p m1 = page_at p m) as Hs by (intros; unfold page_at; by rewrite Hp).
  destruct (pd_free _ _ _ _ Hok) as [_ _ Hv]. destruct l as [|t l]; cbn in *.
  - wsteps. exists []. split; [|split; [|split; [|split; [done|]]]].
    + eapply vm_step_pages; [done|]. by apply vm_step_refl.
    + intros va' Hva'. by apply pte_of_same.
    + intros i _ _. by apply tab_of_same.
    + by rewrite (tab_of_same m m1).
  - apply Forall_cons in Hv as [Hvt _].
    assert (t <> 0) as Hnz by (pose proof (valid_range kend Hkend _ Hvt); lia).
    apply Z.eqb_neq in Hnz as ->. wsteps.
    destruct (new_table m1 pgdir l va t) as (Hst & Ht & Hto & Hpte); [done|done|by rewrite (tab_of_same m m1)|done| |].
    { rewrite (tabs_same m m1) by done. destruct Hok as [_ _ _ Hnd].
      rewrite <- Permutation_middle, Permutation_swap in Hnd. by apply NoDup_cons in Hnd as [? _]. }
    exists l. split; [by eapply vm_step_pages|]. split; [|split; [|by exists t]].
    + intros va' Hva'. rewrite Hpte by done. by apply pte_of_same.
    + intros i Hi Hne. rewrite Hto by done. by apply tab_of_same.
Qed.

(** ** mappages *)

Lemma map_page_spec m pgdir l a pa perm :
  pgdir_ok kend m pgdir l -> va_ok a -> present (pte_of m pgdir a) = false ->
  wp (map_page pgdir a pa perm) (fun r m' => exists l', vm_step pgdir m l m' l' /\
    (forall i, 0 <= i < NPDENTRIES -> i <> PDX a -> tab_of m' pgdir i = tab_of m pgdir i) /\
    match r with
    | Some x => x = -1 /\ l' = [] /\ tab_of m' pgdir (PDX a) = None /\ forall va, va_ok va -> pte_of m' pgdir va = pte_of m pgdir va
    | None => forall va, va_ok va ->
        pte_of m' pgdir va =
        if decide (page_base va = page_base a) then u32 (entry pa perm) else pte_of m pgdir va
    end) m.
Proof.
  intros Hok Ha Hnp. unfold map_page. wcall walkpgdir_create; [done..|]. cbn.
  intros [p|] m1 (l1 & Hst & Hpte & Hto & Hr); [|destruct Hr as [-> Hr]; wsteps; by exists []].
  destruct Hr as (t & -> & Ht). wstep. wstep.
  assert (pte_get (t, PTX a) m1 = pte_of m pgdir a) as -> by (rewrite <- Hpte, pte_of_tab by done; by rewrite Ht).
  unfold present in Hnp. rewrite Hnp. wsteps.
  change (Z.lor (Z.lor pa perm) PTE_P) with (entry pa perm).
  destruct (pte_set_spec m1 pgdir l1 a t (entry pa perm)) as (Hok' & Et & Hs & Hp');
    [apply Hst|done..|].
  pose proof (tab_in _ _ _ _ Ha Ht) as Htin. exists l1. split; [|split].
  - eapply vm_step_trans; [done|]. split; [done|exists []; by rewrite Et|].
    intros q Hq. apply Hs. rewrite Et in Hq. set_solver.
  - intros i Hi Hne. rewrite <- Hto by done. apply tab_of_same, Hs.
    destruct Hst as [[_ _ _ Hnd] _ _]. rewrite NoDup_cons in Hnd. set_solver.
  - intros va Hva. rewrite Hp' by done. by rewrite Hpte.
Qed.

(** A page-aligned address is the base of its page. *)
Lemma page_base_aligned a : a mod PGSIZE = 0 -> page_base a = a.
Proof. intros H. unfold page_base. pose proof (Z.div_mod a PGSIZE ltac:(done)). lia. Qed.

Lemma page_base_bounds va : page_base va <= va < page_base va + PGSIZE.
Proof.
  unfold page_base. pose proof (Z.div_mod va PGSIZE ltac:(done)).
  pose proof (Z.mod_pos_bound va PGSIZE ltac:(done)). lia.
Qed.

Lemma aligned_add a k : a mod PGSIZE = 0 -> (a + k * PGSIZE) mod PGSIZE = 0.
Proof. intros. by rewrite Z.mod_add by done. Qed.

(** The page with base [b] holds exactly the addresses from [b] on. *)
Lemma page_base_iff b va : b mod PGSIZE = 0 -> page_base va = b <-> b <= va < b + PGSIZE.
Proof.
  intros Hb. split; [intros <-; apply page_base_bounds|]. intros H. unfold page_base.
  pose proof (Z.div_mod b PGSIZE ltac:(done)) as E. rewrite Hb, Z.add_0_r in E.
  rewrite <- (Z.div_unique_pos va PGSIZE (b / PGSIZE) (va - b)); lia.
Qed.

Lemma tabs_in_step I m m' pgdir j :
  tabs_in I m pgdir ->
  (forall i, 0 <= i < NPDENTRIES -> i <> j -> tab_of m' pgdir i = tab_of m pgdir i) -> j ∈ I ->
  tabs_in I m' pgdir.
Proof.
  intros HI Ho Hj i Hi Hs. destruct (decide (i = j)) as [->|Hne]; [done|]. apply HI; [done|]. by rewrite <- Ho.
Qed.

(** What [mappages] makes of the entry [e] of [va]. *)
Definition mapped_pte (la n pa perm va e : Z) : Z :=
  if decide (la <= va < la + n * PGSIZE) then entry (pa + (page_base va - la)) perm else e.

(** [n] pages at [la] are mapped to the pages at [pa]; when memory runs out,
    only the first [k] of them are. *)
Lemma mappages_spec m pgdir l la n pa perm :
  pgdir_ok kend m pgdir l -> la mod PGSIZE = 0 -> pa mod PGSIZE = 0 -> 0 < n ->
  0 <= la -> la + n * PGSIZE <= 2 ^ 32 -> 0 <= pa -> pa + n * PGSIZE <= 2 ^ 32 -> 0 <= perm < PGSIZE ->
  (forall va, la <= va < la + n * PGSIZE -> present (pte_of m pgdir va) = false) ->
  wp (mappages pgdir la (n * PGSIZE) pa perm) (fun r m' => exists l' k,
    vm_step pgdir m l m' l' /\ (r = 0 /\ k = n \/ r = -1 /\ 0 <= k < n /\ l' = []) /\
    (forall I, tabs_in I m pgdir -> (forall va, la <= va < la + n * PGSIZE -> PDX va ∈ I) ->
       tabs_in I m' pgdir /\ (r = -1 -> (length (tabs m' pgdir) < length I)%nat)) /\
    forall va, va_ok va -> pte_of m' pgdir va = mapped_pte la k pa perm va (pte_of m pgdir va)) m.
Proof.
  intros Hok Hla Hpa Hn Hla0 Hla1 Hpa0 Hpa1 Hperm Hfree. unfold mappages. rewrite !PGROUNDDOWN_eq.
  fold (page_base (u32 la)). fold (page_base (u32 (la + n * PGSIZE - 1))). unfold PGSIZE in Hla1, Hpa1.
  rewrite (u32_small la), (u32_small (la + n * PGSIZE - 1)) by (unfold PGSIZE; lia).
  rewrite (page_base_aligned la) by done.
  assert (page_base (la + n * PGSIZE - 1) = la + (n - 1) * PGSIZE) as ->.
  { apply page_base_iff; [by apply aligned_add|]. unfold PGSIZE. lia. }
  rewrite u32_small by (unfold PGSIZE; lia).
  replace ((la + (n - 1) * PGSIZE - la) / PGSIZE + 1) with n
    by (replace (la + (n - 1) * PGSIZE - la) with ((n - 1) * PGSIZE) by lia; rewrite Z.div_mul by done; lia).
  set (fits := fun I : list Z => forall va, la <= va < la + n * PGSIZE -> PDX va ∈ I).
  wfocus. apply (wp_for_find (fun pre m' => exists l', vm_step pgdir m l m' l' /\
    (forall I, tabs_in I m pgdir -> fits I -> tabs_in I m' pgdir) /\
    forall va, va_ok va -> pte_of m' pgdir va =
      mapped_pte la (Z.of_nat (length pre)) pa perm va (pte_of m pgdir va))).
  - exists l. split; [by apply vm_step_refl|]. split; [done|]. intros va _. unfold mapped_pte. rewrite decide_False; [done|].
    cbn. lia.
  - intros pre x post m1 Hl (l1 & Hst & Hti & Hpte). apply seqZ_split in Hl as [-> Hx].
    set (k := Z.of_nat (length pre)) in *.
    rewrite (u32_small (la + k * PGSIZE)), (u32_small (pa + k * PGSIZE)) by (unfold PGSIZE; nia).
    assert (va_ok (la + k * PGSIZE)) as Hva by (unfold va_ok, PGSIZE; nia).
    eapply wp_mono; [apply (map_page_spec m1 pgdir l1); [apply Hst|done|]|].
    { rewrite Hpte by done. unfold mapped_pte. rewrite decide_False by lia. apply Hfree. unfold PGSIZE. nia. }
    assert (forall I, fits I -> PDX (la + k * PGSIZE) ∈ I) as HP by (intros I HI; apply HI; unfold PGSIZE; nia).
    cbv beta. intros [r|] m2 (l2 & Hst2 & Hto & Hr);
      pose proof (fun I H1 H2 => tabs_in_step I m1 m2 pgdir _ (Hti I H1 H2) Hto (HP I H2)) as Hti2.
    + destruct Hr as (-> & -> & Hno & Hp2). wstep. cbn [from_option id]. exists [], k.
      split; [by eapply vm_step_trans|]. split; [right; split; [done|]; split; [lia|done]|].
      split; [intros I H1 H2; split; [auto|intros _; by apply (tabs_length_lt I m2 pgdir (PDX (la + k * PGSIZE))); auto]|].
      intros va Hv. by rewrite Hp2, Hpte.
    + exists l2. split; [by eapply vm_step_trans|]. split; [done|]. intros va Hv. rewrite length_app. cbn [length].
      replace (Z.of_nat (length pre + 1)) with (k + 1) by lia. rewrite Hr, Hpte by done.
      rewrite (page_base_aligned (la + k * PGSIZE)) by by apply aligned_add.
      unfold mapped_pte. destruct (decide (page_base va = _)) as [Hb|Hb].
      * rewrite decide_True by (apply page_base_iff in Hb; [unfold PGSIZE in *; lia|by apply aligned_add]). rewrite Hb.
        replace (pa + (la + k * PGSIZE - la)) with (pa + k * PGSIZE) by lia.
        apply u32_small, entry_spec; [by apply aligned_add|unfold PGSIZE; nia|done].
      * rewrite page_base_iff in Hb by by apply aligned_add.
        destruct (decide (la <= va < la + k * PGSIZE)) as [Hd|Hd]; [rewrite decide_True|rewrite decide_False]; unfold PGSIZE in *; done || lia.
  - intros m' (l' & Hst & Hti & Hpte). wstep. cbn [from_option id]. exists l', n. split; [done|]. split; [by left|].
    split; [intros I H1 H2; split; [by apply Hti|done]|].
    rewrite length_seqZ, Z2Nat.id in Hpte by lia. done.
Qed.

(** ** setupkvm *)

(** A cleared page is an empty directory. *)
Lemma empty_dir m l d :
  free_list kend m l -> valid_page kend d -> d ∉ l ->
  let m' := clear_page d m in
  pgdir_ok kend m' d l /\ tabs m' d = [] /\ same_but [d] m m' /\ forall va, pte_of m' d va = 0.
Proof.
  intros Hf Hv Hd m'.
  assert (forall p, page_at p m' = if decide (p = d) then zeros PGSIZE else page_at p m) as Epg.
  { intros p. unfold m', clear_page. by rewrite page_at_insert. }
  assert (forall i, tab_of m' d i = None) as Ht.
  { intros i. unfold tab_of, pte_get. cbn [fst snd]. by rewrite Epg, decide_True, get32_zeros. }
  assert (tabs m' d = []) as Et.
  { destruct (tabs m' d) as [|t L] eqn:E; [done|]. assert (t ∈ tabs m' d) as Hin by (rewrite E; by left).
    apply elem_of_tabs in Hin as (i & _ & Hi). by rewrite Ht in Hi. }
  assert (same_but [d] m m') as Hs by (intros p Hp; rewrite Epg, decide_False; [done|set_solver]).
  split; [split|split; [done|split; [done|]]].
  - eapply free_list_ext; [done..|]. intros p Hp. apply Hs. set_solver.
  - rewrite Et. by constructor.
  - rewrite Et. constructor; [|done]. unfold is_page. rewrite Epg, decide_True by done.
    split; [apply length_zeros|apply Forall_zeros].
  - rewrite Et. cbn. constructor; [done|]. apply Hf.
  - intros va. by rewrite pte_of_tab, Ht.
Qed.

Section kernel_map.
(** [data] is page-aligned (kernel/data.S) and lies between the kernel's text
    and the end of memory. *)
Context (kdata : Z) (Hkd : kdata mod PGSIZE = 0) (Hkd2 : 0x100000 < kdata < PHYSTOP).

(** The entry the regions [L] of [kmap] give an address. *)
Definition in_region (va : Z) (r : Z * Z * Z) : option Z :=
  let '(p, e, perm) := r in
  if (p <=? va) && (va <? p + u32 (e - p)) then Some (entry (page_base va) perm) else None.
Definition kmap_pte (L : list (Z * Z * Z)) (va : Z) : Z := default 0 (first_some (in_region va) L).

(** The directory entries the kernel's mappings need. *)
Definition kmap_tabs : list Z := seqZ 0 4 ++ seqZ 1016 8.

Lemma kmap_PDX va : 0 <= va < PHYSTOP \/ 0xFE000000 <= va < 2 ^ 32 -> PDX va ∈ kmap_tabs.
Proof.
  intros H. assert (va_ok va) as Hva by (unfold va_ok, PHYSTOP in *; lia). rewrite PDX_eq by done.
  unfold kmap_tabs. rewrite elem_of_app, !elem_of_seqZ. destruct H as [H|H]; [left|right].
  - split; [apply Z.div_pos; lia|]. apply Z.div_lt_upper_bound; [done|]. unfold PHYSTOP in H. lia.
  - split; [apply Z.div_le_lower_bound; lia|]. apply Z.div_lt_upper_bound; lia.
Qed.

(** The regions are aligned, do not wrap around and do not overlap. *)
Lemma kmap_region pre p e perm post :
  kmap kdata = pre ++ (p, e, perm) :: post ->
  p mod PGSIZE = 0 /\ 0 <= perm < PGSIZE /\ 0 < p /\
  exists n, 0 < n /\ u32 (e - p) = n * PGSIZE /\ p + n * PGSIZE <= 2 ^ 32 /\
    forall va, p <= va < p + n * PGSIZE ->
      first_some (in_region va) pre = None /\ PDX va ∈ kmap_tabs.
Proof.
  intros Hl. unfold kmap in Hl.
  assert (forall a b, a mod PGSIZE = 0 -> b mod PGSIZE = 0 -> exists k, a - b = k * PGSIZE) as Hdiv.
  { intros a b Ha Hb. exists (a / PGSIZE - b / PGSIZE).
    pose proof (Z.div_mod a PGSIZE ltac:(done)). pose proof (Z.div_mod b PGSIZE ltac:(done)). lia. }
  destruct pre as [|r0 [|r1 [|r2 [|r3 pre]]]]; simplify_list_eq.
  - repeat split; try done. exists 96. repeat split; try done. apply kmap_PDX. left.
    unfold USERTOP, PGSIZE, PHYSTOP in *. lia.
  - repeat split; try done. destruct (Hdiv e 0x100000) as [n En]; [done..|]. exists n.
    unfold PHYSTOP, PGSIZE in *. rewrite u32_small by lia. repeat split; try lia.
    + cbn. change (u32 (1048576 - USERTOP)) with 393216. unfold USERTOP.
      replace (va <? 655360 + 393216) with false by (symmetry; apply Z.ltb_ge; lia). by rewrite andb_false_r.
    + apply kmap_PDX. left. unfold PHYSTOP. lia.
  - repeat split; try done; [lia|]. destruct (Hdiv PHYSTOP p) as [n En]; [done..|]. exists n.
    unfold PHYSTOP, PGSIZE in *. rewrite u32_small by lia. repeat split; try lia.
    + cbn. change (u32 (1048576 - USERTOP)) with 393216. unfold USERTOP. rewrite u32_small by lia.
      replace (va <? 655360 + 393216) with false by (symmetry; apply Z.ltb_ge; lia).
      replace (va <? 1048576 + (p - 1048576)) with false by (symmetry; apply Z.ltb_ge; lia).
      by rewrite !andb_false_r.
    + apply kmap_PDX. left. unfold PHYSTOP. lia.
  - repeat split; try done. exists 8192. repeat split; try done.
    + cbn. change (u32 (1048576 - USERTOP)) with 393216. unfold USERTOP, PHYSTOP in *. rewrite !u32_small by lia.
      replace (va <? 655360 + 393216) with false by (symmetry; apply Z.ltb_ge; lia).
      replace (va <? 1048576 + (kdata - 1048576)) with false by (symmetry; apply Z.ltb_ge; lia).
      replace (va <? kdata + (16777216 - kdata)) with false by (symmetry; apply Z.ltb_ge; lia).
      by rewrite !andb_false_r.
    + apply kmap_PDX. right. unfold PGSIZE in *. lia.
  - by destruct pre.
Qed.

(** [setupkvm] makes a directory with the kernel's mappings out of free pages,
    or memory runs out. *)
Lemma setupkvm_spec m l :
  free_list kend m l ->
  wp (setupkvm kdata) (fun d m' =>
    d = 0 /\ free_list kend m' [] /\ same_but l m m' /\ (length l <= 12)%nat \/
    d <> 0 /\ exists k l', l = d :: k ++ l' /\ (length k <= 12)%nat /\ tabs m' d ≡ₚ k /\ pgdir_ok kend m' d l' /\
      same_but (d :: k) m m' /\ forall va, va_ok va -> pte_of m' d va = kmap_pte (kmap kdata) va) m.
Proof.
  intros Hf. unfold setupkvm. wcall (kalloc_spec kend); [done|]. cbv beta. intros d m1 (Hp & Hf1 & ->).
  assert (forall p, page_at p m1 = page_at p m) as Hs1 by (intros; unfold page_at; by rewrite Hp).
  destruct l as [|d l]; cbn [head tail from_option id] in *.
  { wsteps; left; split; [done|]; split; [done|]; split; [by intros p _|cbn; lia]. }
  destruct (Hf) as [_ Hnd Hv]. apply NoDup_cons in Hnd as [Hdl Hnd]. apply Forall_cons in Hv as [Hvd _].
  assert (d <> 0) as Hnz by (pose proof (valid_range kend Hkend _ Hvd); lia).
  assert ((d =? 0) = false) as -> by by apply Z.eqb_neq.
  destruct (empty_dir m1 l d) as (Hok & Et & Hs & Hpte); [done..|]. wstep. wstep. wfocus.
  assert (forall m' l', vm_step d (clear_page d m1) l m' l' -> exists k,
    l = k ++ l' /\ tabs m' d ≡ₚ k /\ same_but (d :: k) m m') as Hsum.
  { intros m' l' [_ (k & -> & P) S]. rewrite Et, app_nil_r in P. exists k. split; [done|]. split; [done|].
    intros p Hpp. rewrite S by (by rewrite P). rewrite Hs by set_solver. apply Hs1. }
  apply (wp_for_find (fun pre m' => exists l', vm_step d (clear_page d m1) l m' l' /\
    tabs_in kmap_tabs m' d /\ forall va, va_ok va -> pte_of m' d va = kmap_pte pre va)).
  - exists l. split; [by apply vm_step_refl|]. split; [|intros va _; apply Hpte].
    intros i Hi [t Ht]. assert (t ∈ tabs (clear_page d m1) d) as Hin by (apply elem_of_tabs; eauto).
    rewrite Et in Hin. set_solver.
  - intros pre [[p e] perm] post m2 Hl (l2 & Hst & Hti & Hp2).
    destruct (kmap_region _ _ _ _ _ Hl) as (Ha & Hperm & Hp0 & n & Hn & En & Hlim & Hnone). rewrite En.
    wcall (mappages_spec m2 d l2 p n p perm); [apply Hst|done|done|done|lia|lia|lia|lia|done|..].
    { intros va Hva. rewrite Hp2 by (unfold va_ok; lia). unfold kmap_pte. by rewrite (proj1 (Hnone va Hva)). }
    cbv beta. intros r m3 (l3 & k & Hst3 & Hr & Hti3 & Hp3). wstep.
    destruct (Hti3 kmap_tabs Hti) as [Hti4 Hshort]; [intros va Hva; by apply Hnone|].
    pose proof (vm_step_trans _ _ _ _ _ _ _ Hst Hst3) as Hst'.
    destruct Hr as [[-> ->]|(-> & Hk & ->)]; cbn [Z.ltb Z.compare].
    + exists l3. split; [done|]. split; [done|]. intros va Hva. rewrite Hp3, Hp2 by done. unfold kmap_pte, mapped_pte.
      rewrite first_some_app. cbn [first_some in_region]. rewrite En. case_decide as Hd.
      * rewrite (proj1 (Hnone va Hd)). replace ((p <=? va) && _) with true by (symmetry; apply andb_true_iff; lia).
        cbn. f_equal. lia.
      * replace ((p <=? va) && _) with false by (symmetry; apply andb_false_iff; lia).
        by destruct (first_some _ pre).
    + wstep. left. split; [done|]. split; [apply Hst'|]. destruct (Hsum _ _ Hst') as (k' & -> & P & Hsame).
      rewrite app_nil_r. split; [done|]. cbn. rewrite <- P. specialize (Hshort eq_refl).
      change (length kmap_tabs) with 12%nat in Hshort. lia.
  - intros m' (l' & Hst & Hti & Hp'). wstep. right. split; [done|]. destruct (Hsum _ _ Hst) as (k & -> & P & S).
    exists k, l'. split_and!; try done; [|apply Hst]. rewrite <- P. by apply (tabs_length kmap_tabs).
Qed.
End kernel_map.
End translation.
