(* ===== verification/UserMem.v ===== *)
(** * User memory (kernel/vm.c): specifications

    What [deallocuvm], [freevm], [allocuvm] and [copyuvm] do to the user part
    of an address space.  The directory, the page tables, the frames of user
    memory and the free list are distinct pages, and the operations move pages
    between them without sharing one. *)

From S2P Require Import Prelude Monad Params Kalloc Vm VmSpec.

#[local] Strategy expand [tabs].

Section user.
Context (kend : Z) (Hkend : 0 < kend).

Definition frame_of (m : kmem) (pgdir va : Z) : option Z :=
  let e := pte_of m pgdir va in if present e then Some (PTE_ADDR e) else None.

(** The user pages by address, and the frames that hold them. *)
Definition upages : list Z := range 0 USERTOP PGSIZE.
Definition frames (m : kmem) (pgdir : Z) : list Z := omap (frame_of m pgdir) upages.
#[local] Strategy expand [frames].

Lemma elem_of_upages a : a ∈ upages <-> a mod PGSIZE = 0 /\ 0 <= a < USERTOP.
Proof.
  unfold upages. rewrite elem_of_range by done. split.
  - intros (k & Hk & -> & Hlt). split; [by apply (aligned_add 0)|]. unfold PGSIZE in *. lia.
  - intros [Ha Hr]. exists (a / PGSIZE). pose proof (Z.div_mod a PGSIZE ltac:(done)).
    split; [apply Z.div_pos; [lia|done]|]. lia.
Qed.

Lemma upage_ok a : a ∈ upages -> va_ok a /\ page_base a = a.
Proof.
  intros [Ha Hr]%elem_of_upages. split; [unfold va_ok, USERTOP in *; lia|by apply page_base_aligned].
Qed.

Lemma NoDup_upages : NoDup upages.
Proof. by apply (bool_decide_unpack _); vm_compute. Qed.

Lemma elem_of_frames m pgdir fr :
  fr ∈ frames m pgdir <-> exists a, a ∈ upages /\ frame_of m pgdir a = Some fr.
Proof. unfold frames. apply list_elem_of_omap. Qed.

Lemma frames_omap m pgdir : frames m pgdir = omap (frame_of m pgdir) upages.
Proof. reflexivity. Qed.

Lemma frames_same m m' pgdir :
  (forall va, va_ok va -> pte_of m' pgdir va = pte_of m pgdir va) -> frames m' pgdir = frames m pgdir.
Proof.
  intros H. unfold frames. apply list_omap_ext, Forall2_same_length_lookup_2; [done|].
  intros i a b Ha Hb. simplify_eq. apply list_elem_of_lookup_2, upage_ok in Ha as [Ha _].
  unfold frame_of. by rewrite H.
Qed.

(** One user page gets the frame [fr]; read the other way, it loses it. *)
Lemma frames_add m m' pgdir a fr :
  a ∈ upages -> frame_of m pgdir a = None -> frame_of m' pgdir a = Some fr ->
  (forall va, va_ok va -> page_base va <> a -> pte_of m' pgdir va = pte_of m pgdir va) ->
  frames m' pgdir ≡ₚ fr :: frames m pgdir.
Proof.
  intros Ha Hn Hs Ho. unfold frames. apply omap_update with a; [apply NoDup_upages|done..|].
  intros z Hz Hne. apply upage_ok in Hz as [Hz Hb]. unfold frame_of. rewrite Ho; [done..|]. by rewrite Hb.
Qed.

(** The directory, its tables, the frames and the free pages [l] are distinct
    pages of the allocator.  The table of user memory exists: [setupkvm] makes
    it, because the first mapping of the kernel is in the same 4 MB. *)
Record uspace (m : kmem) (pgdir : Z) (l : list Z) : Prop := {
  us_ok : pgdir_ok kend m pgdir l;
  us_tab : is_Some (tab_of m pgdir 0);
  us_valid : Forall (valid_page kend) (frames m pgdir);
  us_page : Forall (is_page m) (frames m pgdir);
  us_nodup : NoDup (pgdir :: tabs m pgdir ++ frames m pgdir ++ l);
}.
#[local] Opaque tabs frames.

(** Dropping pages from the middle of a list of distinct pages. *)
Lemma nodup_drop {A} (x k y : list A) : NoDup (x ++ k ++ y) -> NoDup (x ++ y).
Proof. rewrite !NoDup_app. intros (Hx & Hxy & _ & _ & Hy). split_and!; [done| |done]. set_solver. Qed.

(** A change of memory that keeps the directory, its tables and the frames. *)
Lemma uspace_same m m' pgdir l l' :
  uspace m pgdir l -> free_list kend m' l' -> (exists k, l = k ++ l') ->
  (forall p, p ∈ pgdir :: tabs m pgdir ++ frames m pgdir -> page_at p m' = page_at p m) ->
  uspace m' pgdir l' /\ tabs m' pgdir = tabs m pgdir /\ frames m' pgdir = frames m pgdir /\
  forall va, va_ok va -> pte_of m' pgdir va = pte_of m pgdir va.
Proof.
  intros [[Hf Hv Hp Hn] Htab Hfv Hfp Hnd] Hf' [k ->] Hs.
  assert (page_at pgdir m' = page_at pgdir m) as Hd by (apply Hs; set_solver).
  assert (tabs m' pgdir = tabs m pgdir) as Et by by apply tabs_same.
  assert (forall va, va_ok va -> pte_of m' pgdir va = pte_of m pgdir va) as Hpte.
  { intros va Hva. apply pte_of_same; [done..|]. intros t Ht. apply Hs. set_solver. }
  assert (frames m' pgdir = frames m pgdir) as Ef by by apply frames_same.
  assert (forall P, Forall (is_page m) P -> (forall p, p ∈ P -> p ∈ pgdir :: tabs m pgdir ++ frames m pgdir) ->
            Forall (is_page m') P) as Hip.
  { intros P HP Hin. rewrite Forall_forall in HP |- *. intros p Hpp. unfold is_page.
    rewrite Hs by by apply Hin. by apply HP. }
  split; [|split; [done|split; [done|done]]]. split; [split|..]; rewrite ?Et, ?Ef; try done.
  - apply Hip; [done|set_solver].
  - by apply (nodup_drop (pgdir :: tabs m pgdir) k).
  - by rewrite (tab_of_same m m').
  - apply Hip; [done|set_solver].
  - rewrite app_assoc in Hnd |- *. rewrite app_comm_cons in Hnd |- *. by apply nodup_drop in Hnd.
Qed.

(** A page off the free list is nobody's. *)
Lemma kalloc_user m pgdir l :
  uspace m pgdir l ->
  wp kalloc (fun r m' => km_page m' = km_page m /\ uspace m' pgdir (tail l) /\ r = default 0 (head l)) m.
Proof.
  intros Hu. wcall (kalloc_spec kend); [apply Hu|]. cbv beta. intros r m' (Hp & Hf & ->).
  split; [done|]. split; [|done]. eapply uspace_same; [done|done| |].
  - destruct l as [|x l]; [by exists []|by exists [x]].
  - intros p _. unfold page_at. by rewrite Hp.
Qed.

Lemma kalloc_empty m : free_list kend m [] -> wp kalloc (fun r m' => r = 0 /\ m' = m) m.
Proof. intros [Hc _ _]. cbn in Hc. unfold kalloc. wstep. wstep. rewrite Hc. by repeat wstep. Qed.

Lemma uspace_head m pgdir x l :
  uspace m pgdir (x :: l) ->
  x <> 0 /\ valid_page kend x /\ x ∉ pgdir :: tabs m pgdir ++ frames m pgdir ++ l.
Proof.
  intros [[[_ _ Hv] _ _ _] _ _ _ Hnd]. apply Forall_cons in Hv as [Hv _].
  split; [pose proof (valid_range kend Hkend _ Hv); lia|]. split; [done|].
  rewrite app_assoc, <- Permutation_middle, Permutation_swap, NoDup_cons in Hnd.
  destruct Hnd as [Hnd _]. by rewrite <- app_assoc in Hnd.
Qed.

(** ** deallocuvm *)

(** Frames [k] of the user memory have gone to the free list. *)
Record shrink (pgdir : Z) (m : kmem) (l : list Z) (m' : kmem) (l' : list Z) : Prop := {
  sh_ok : uspace m' pgdir l';
  sh_tabs : tabs m' pgdir = tabs m pgdir;
  sh_frames : exists k, l' = k ++ l /\ frames m pgdir ≡ₚ k ++ frames m' pgdir /\
    same_but (tabs m pgdir ++ k) m m';
}.

Lemma shrink_refl pgdir m l : uspace m pgdir l -> shrink pgdir m l m l.
Proof. intros H. split; [done|done|by exists []]. Qed.

Lemma shrink_trans pgdir m l m1 l1 m2 l2 :
  shrink pgdir m l m1 l1 -> shrink pgdir m1 l1 m2 l2 -> shrink pgdir m l m2 l2.
Proof.
  intros [U1 T1 (k1 & -> & P1 & S1)] [U2 T2 (k2 & -> & P2 & S2)]. split; [done|by rewrite T2|].
  exists (k2 ++ k1). split; [by rewrite app_assoc|]. split; [rewrite P1, P2; solve_Permutation|].
  intros p Hp. rewrite S2, S1 by (rewrite ?T1; set_solver). done.
Qed.

(** Unmapping the page [a] with frame [fr], which has been freed. *)
Lemma unmap_frame m pgdir l m1 a t fr :
  uspace m pgdir l -> a ∈ upages -> tab_of m pgdir (PDX a) = Some t ->
  frame_of m pgdir a = Some fr -> free_list kend m1 (fr :: l) -> same_but [fr] m m1 ->
  let m' := pte_set (t, PTX a) 0 m1 in
  shrink pgdir m l m' (fr :: l) /\ frame_of m' pgdir a = None /\
  forall va, va_ok va -> page_base va <> a -> pte_of m' pgdir va = pte_of m pgdir va.
Proof.
  intros Hu Ha Ht Hfr Hf Hs m'. pose proof (upage_ok _ Ha) as [Hva Hba].
  assert (fr ∈ frames m pgdir) as Hin by (apply elem_of_frames; eauto).
  destruct (Hu) as [[Hf0 Hv Hp Hn] Htab Hfv Hfp Hnd].
  assert (fr ∉ pgdir :: tabs m pgdir) as Hnt.
  { rewrite app_comm_cons, NoDup_app in Hnd. destruct Hnd as (_ & Hnd & _). intros Hx.
    apply (Hnd fr Hx). set_solver. }
  assert (page_at pgdir m1 = page_at pgdir m) as Hd by (apply Hs; set_solver).
  assert (tabs m1 pgdir = tabs m pgdir) as Et by by apply tabs_same.
  assert (forall va, va_ok va -> pte_of m1 pgdir va = pte_of m pgdir va) as Hpte1.
  { intros va Hv'. apply pte_of_same; [done..|]. intros x Hx. apply Hs. set_solver. }
  assert (pgdir_ok kend m1 pgdir (fr :: l)) as Hok1.
  { split; [done|by rewrite Et|..]; rewrite Et.
    - rewrite Forall_forall in Hp |- *. intros p Hpp. unfold is_page. rewrite Hs by set_solver. by apply Hp.
    - destruct Hf as [_ [Hl _]%NoDup_cons _]. rewrite app_comm_cons in Hn |- *.
      rewrite <- Permutation_middle. constructor; [set_solver|done]. }
  destruct (pte_set_spec kend Hkend m1 pgdir (fr :: l) a t 0) as (Hok & Et' & Hs' & Hpte'); [done|done|by rewrite (tab_of_same m m1)|].
  fold m' in Hok, Et', Hs', Hpte'.
  assert (frame_of m' pgdir a = None) as Hfn.
  { unfold frame_of. by rewrite Hpte', decide_True. }
  assert (forall va, va_ok va -> page_base va <> a -> pte_of m' pgdir va = pte_of m pgdir va) as Hpo.
  { intros va Hv' Hb. rewrite Hpte', decide_False by (done || by rewrite Hba). by apply Hpte1. }
  assert (frames m pgdir ≡ₚ fr :: frames m' pgdir) as Hperm.
  { apply frames_add with a; [done..|]. intros. symmetry. by apply Hpo. }
  assert (t ∈ tabs m pgdir) as Htin by by apply (tab_in m pgdir a).
  rewrite Hperm in Hfv, Hfp, Hnd. apply Forall_cons in Hfv as [_ Hfv], Hfp as [_ Hfp].
  assert (NoDup (pgdir :: tabs m pgdir ++ frames m' pgdir ++ fr :: l)) as Hnd'.
  { by rewrite <- (Permutation_middle (frames m' pgdir)). }
  split; [|by split]. split; [|by rewrite Et'|].
  - split; rewrite ?Et', ?Et; [done| |done| |done].
    { rewrite (tab_of_same m1 m'), (tab_of_same m m1); [done|done|]. apply Hs'.
      rewrite NoDup_cons in Hn. set_solver. }
    rewrite Forall_forall in Hfp |- *. intros p Hpp.
    assert (p ≠ fr /\ p ≠ t) as [Hp1 Hp2].
    { cbn in Hnd. rewrite NoDup_cons, NoDup_app in Hnd. destruct Hnd as (_ & _ & Hd1 & Hd2).
      rewrite NoDup_cons in Hd2. destruct Hd2 as [Hd2 _]. split; [intros ->; set_solver|].
      intros ->. apply (Hd1 t); set_solver. }
    unfold is_page. rewrite Hs', Hs by set_solver. by apply Hfp.
  - exists [fr]. split; [done|]. split; [done|]. intros p Hpp. rewrite Hs', Hs by set_solver. done.
Qed.

Lemma dealloc_page_spec m pgdir l a :
  uspace m pgdir l -> a ∈ upages ->
  wp (dealloc_page kend pgdir a) (fun _ m' => exists l', shrink pgdir m l m' l' /\
    frame_of m' pgdir a = None /\
    forall va, va_ok va -> page_base va <> a -> pte_of m' pgdir va = pte_of m pgdir va) m.
Proof.
  intros Hu Ha. unfold dealloc_page. wcall walkpgdir_find. cbv beta. intros r m1 [-> ->].
  destruct (tab_of m pgdir (PDX a)) as [t|] eqn:Et; cbn [fmap option_fmap option_map].
  2: { wsteps. exists l. split; [by apply shrink_refl|]. split; [|done].
       unfold frame_of. by rewrite pte_of_tab, Et. }
  assert (pte_get (t, PTX a) m = pte_of m pgdir a) as Ee by by rewrite pte_of_tab, Et.
  wstep. wstep. rewrite Ee. destruct (Z.land (pte_of m pgdir a) PTE_P =? 0) eqn:E.
  { wsteps. exists l. split; [by apply shrink_refl|]. split; [|done]. unfold frame_of, present. by rewrite E. }
  assert (frame_of m pgdir a = Some (PTE_ADDR (pte_of m pgdir a))) as Hfr.
  { unfold frame_of, present. by rewrite E. }
  set (fr := PTE_ADDR _) in *. assert (fr ∈ frames m pgdir) as Hin by (apply elem_of_frames; eauto).
  destruct (Hu) as [Hok _ Hfv _ Hnd]. assert (valid_page kend fr) as Hv by (rewrite Forall_forall in Hfv; by apply Hfv).
  assert ((fr =? 0) = false) as -> by (pose proof (valid_range kend Hkend _ Hv); apply Z.eqb_neq; lia).
  wcall (kfree_spec kend Hkend m l fr); [apply Hok|done|..].
  { rewrite NoDup_cons, !NoDup_app in Hnd. destruct Hnd as (_ & _ & _ & _ & Hd & _). by apply Hd. }
  cbv beta. intros _ m1 (Hf & _ & Hs). wsteps.
  destruct (unmap_frame m pgdir l m1 a t fr) as (Hsh & Hn & Hpte); try done.
  { intros p Hp. apply Hs. set_solver. }
  exists (fr :: l). done.
Qed.

(** The translation is the same all over a page. *)
Lemma pte_of_base m pgdir va : va_ok va -> pte_of m pgdir (page_base va) = pte_of m pgdir va.
Proof.
  intros Hva. assert (va_ok (page_base va)) as Hb.
  { unfold va_ok, page_base in *. pose proof (page_base_bounds va). split; [|unfold page_base in *; lia].
    apply Z.mul_nonneg_nonneg; [apply Z.div_pos; [lia|done]|done]. }
  destruct (same_page (page_base va) va Hb Hva) as [H _].
  destruct H as [H1 H2]; [apply page_base_aligned, (aligned_add 0); done|].
  unfold pte_of. by rewrite H1, H2.
Qed.

Lemma PGROUNDUP_eq a : 0 <= a -> a + PGSIZE <= 2 ^ 32 -> PGROUNDUP a = (a + PGSIZE - 1) / PGSIZE * PGSIZE.
Proof. intros H0 H1. unfold PGROUNDUP. rewrite PGROUNDDOWN_eq, u32_small; [done|]. unfold PGSIZE in *. lia. Qed.

(** The pages from the end of [lo] to that of [hi]. *)
Lemma range_up lo hi :
  0 <= lo <= hi -> hi + PGSIZE <= 2 ^ 32 ->
  PGROUNDUP lo + Z.of_nat (length (range (PGROUNDUP lo) hi PGSIZE)) * PGSIZE = PGROUNDUP hi.
Proof.
  intros Hlo Hhi. unfold range. rewrite length_fmap, length_seqZ, !PGROUNDUP_eq by lia.
  set (q := (lo + PGSIZE - 1) / PGSIZE).
  replace (hi - q * PGSIZE + PGSIZE - 1) with (hi + PGSIZE - 1 + (- q) * PGSIZE) by lia.
  rewrite Z.div_add by done. assert (q <= (hi + PGSIZE - 1) / PGSIZE) by (apply Z.div_le_mono; [done|lia]).
  rewrite Z2Nat.id by lia. ring.
Qed.

Lemma upage_range lo hi pre x post :
  0 <= lo -> hi <= USERTOP -> range (PGROUNDUP lo) hi PGSIZE = pre ++ x :: post ->
  x = PGROUNDUP lo + Z.of_nat (length pre) * PGSIZE /\ x ∈ upages /\ x < hi.
Proof.
  intros Hlo Hhi Hl. destruct (range_at (PGROUNDUP lo) hi PGSIZE pre x post) as [Hx Hlt]; [done..|].
  split; [done|]. split; [|done]. apply elem_of_upages.
  assert (0 <= PGROUNDUP lo /\ PGROUNDUP lo mod PGSIZE = 0) as [H0 Ha].
  { unfold PGROUNDUP. rewrite PGROUNDDOWN_eq. pose proof (u32_range (lo + PGSIZE - 1)).
    split; [apply Z.mul_nonneg_nonneg; [apply Z.div_pos; [lia|done]|done]|]. by apply Z.mod_mul. }
  subst x. split; [by apply aligned_add|]. unfold PGSIZE in *. lia.
Qed.

Lemma deallocuvm_spec m pgdir l oldsz newsz :
  uspace m pgdir l -> 0 <= newsz < oldsz -> oldsz <= USERTOP ->
  wp (deallocuvm kend pgdir oldsz newsz) (fun r m' => r = newsz /\ exists l', shrink pgdir m l m' l' /\
    forall va, va_ok va ->
      (PGROUNDUP newsz <= va < PGROUNDUP oldsz -> frame_of m' pgdir va = None) /\
      (~ (PGROUNDUP newsz <= va < PGROUNDUP oldsz) -> pte_of m' pgdir va = pte_of m pgdir va)) m.
Proof.
  intros Hu Hsz Htop. unfold deallocuvm. assert ((oldsz <=? newsz) = false) as -> by (apply Z.leb_gt; lia).
  wfocus. apply (wp_for_each (fun pre m' => exists l', shrink pgdir m l m' l' /\
    let hi := PGROUNDUP newsz + Z.of_nat (length pre) * PGSIZE in
    forall va, va_ok va ->
      (PGROUNDUP newsz <= va < hi -> frame_of m' pgdir va = None) /\
      (~ (PGROUNDUP newsz <= va < hi) -> pte_of m' pgdir va = pte_of m pgdir va))).
  - exists l. split; [by apply shrink_refl|]. cbn. intros va _. split; [lia|done].
  - intros pre x post m1 Hl (l1 & Hsh & Hpte). apply upage_range in Hl as (Hx & Hux & _); [|lia..].
    wcall (dealloc_page_spec m1 pgdir l1 x); [apply Hsh|done|]. cbv beta.
    intros _ m2 (l2 & Hsh2 & Hn & Hpo). exists l2. split; [by eapply shrink_trans|].
    cbv zeta in *. rewrite length_app. cbn [length].
    replace (PGROUNDUP newsz + Z.of_nat (length pre + 1) * PGSIZE) with (x + PGSIZE) by (subst x; unfold PGSIZE; lia).
    rewrite <- Hx in Hpte. intros va Hva. specialize (Hpte va Hva) as [Hin Hout].
    pose proof (elem_of_upages x) as [HH _]. specialize (HH Hux) as [Hax Hrx].
    destruct (decide (page_base va = x)) as [Hb|Hb].
    + split; [intros _; rewrite <- Hb in Hn; unfold frame_of in *; by rewrite pte_of_base in Hn|].
      intros Hno. apply page_base_iff in Hb; [|done]. exfalso. apply Hno. split; [|lia].
      assert (PGROUNDUP newsz <= x) by (subst x; unfold PGSIZE in *; lia). lia.
    + pose proof Hb as Hb'. rewrite page_base_iff in Hb' by done.
      split; [intros Hr; unfold frame_of in *; rewrite Hpo by done; apply Hin; lia|].
      intros Hr. rewrite Hpo by done. apply Hout. unfold PGSIZE in *. lia.
  - intros m' (l' & Hsh & Hpte). wstep. split; [done|]. exists l'. split; [done|].
    cbv zeta in Hpte. rewrite range_up in Hpte; [done|lia|]. unfold USERTOP, PGSIZE in *. lia.
Qed.

(** ** freevm *)

(** The loop of [freevm] over the directory gives back the page tables. *)
Lemma free_tables m pgdir l :
  pgdir_ok kend m pgdir l ->
  wp (for_each (seqZ 0 NPDENTRIES) (fun i =>
        let! e := gets (pte_get (pgdir, i)) in
        if Z.land e PTE_P =? 0 then ret tt else kfree kend (PTE_ADDR e)))
     (fun _ m' => free_list kend m' (reverse (tabs m pgdir) ++ l) /\ same_but (tabs m pgdir) m m') m.
Proof.
  intros [Hf Hv Hp Hnd].
  apply (wp_for_each (fun pre m' => free_list kend m' (reverse (omap (tab_of m pgdir) pre) ++ l) /\
    same_but (tabs m pgdir) m m')); [by split| |by rewrite <- tabs_omap].
  intros pre i post m1 Hl (Hf1 & Hs). assert (0 <= i < NPDENTRIES) as Hi.
  { assert (i ∈ seqZ 0 NPDENTRIES) as H by (rewrite Hl; set_solver). by apply elem_of_seqZ in H. }
  assert (pgdir ∉ tabs m pgdir) as Hd by (apply NoDup_cons in Hnd as [H _]; set_solver).
  wstep. wstep. rewrite (pte_get_same m m1) by by apply Hs.
  rewrite omap_app. cbn [omap list_omap]. destruct (Z.land (pte_get (pgdir, i) m) PTE_P =? 0) eqn:E.
  - assert (tab_of m pgdir i = None) as -> by (unfold tab_of; by rewrite E). rewrite app_nil_r. by wstep.
  - assert (tab_of m pgdir i = Some (PTE_ADDR (pte_get (pgdir, i) m))) as Ht by (unfold tab_of; by rewrite E).
    rewrite Ht. set (t := PTE_ADDR _) in *.
    assert (t ∈ tabs m pgdir) as Hin by (apply elem_of_tabs; eauto).
    apply Forall_cons in Hv as [_ Hv]. rewrite Forall_forall in Hv.
    wcall (kfree_spec kend Hkend); [done|by apply Hv| |].
    + apply NoDup_cons in Hnd as [_ Hnd]. rewrite NoDup_app in Hnd. destruct Hnd as (Hnd & Hdl & _).
      rewrite elem_of_app, elem_of_reverse. intros [Ho|Ho]; [|by apply (Hdl t)].
      rewrite tabs_omap, Hl, omap_app, NoDup_app in Hnd. destruct Hnd as (_ & Hdis & _).
      apply (Hdis t Ho). cbn [omap list_omap]. rewrite Ht. by left.
    + cbv beta. intros _ m2 (Hf2 & _ & Hs2). rewrite reverse_snoc. split; [done|].
      intros p Hpp. rewrite Hs2 by set_solver. by apply Hs.
Qed.

(** [freevm] gives every page of the address space back, once. *)
Lemma freevm_spec m pgdir l :
  uspace m pgdir l -> 
  wp (freevm kend pgdir) (fun _ m' => exists l', free_list kend m' l' /\
    l' ≡ₚ pgdir :: tabs m pgdir ++ frames m pgdir ++ l /\
    same_but (pgdir :: tabs m pgdir ++ frames m pgdir) m m') m.
Proof.
  intros Hu. assert (valid_page kend pgdir) as Hv by (destruct Hu as [[_ Hv _ _] _ _ _ _]; by inv Hv).
  unfold freevm. assert ((pgdir =? 0) = false) as ->.
  { apply Z.eqb_neq. pose proof (valid_range kend Hkend _ Hv). lia. }
  wcall (deallocuvm_spec m pgdir l USERTOP 0); [done|done|done|]. cbv beta.
  intros r m1 (-> & l1 & [U1 T1 (k & -> & P1 & S1)] & Hpte).
  assert (frames m1 pgdir = []) as Ef.
  { destruct (frames m1 pgdir) as [|fr L] eqn:E; [done|]. assert (fr ∈ frames m1 pgdir) as Hin by (rewrite E; by left).
    apply elem_of_frames in Hin as (a & Ha & Hfr). pose proof (upage_ok a Ha) as [Hva _].
    destruct (Hpte a Hva) as [Hno _]. rewrite Hno in Hfr; [done|].
    apply elem_of_upages in Ha as [_ Ha]. change (PGROUNDUP 0) with 0. by change (PGROUNDUP USERTOP) with USERTOP. }
  rewrite Ef, app_nil_r in P1. wcall (free_tables m1 pgdir (k ++ l)); [apply U1|]. cbv beta.
  intros _ m2 (Hf2 & S2). rewrite T1 in *. destruct (us_ok _ _ _ U1) as [_ _ _ Hnd]. rewrite T1 in Hnd.
  eapply wp_mono; [apply (kfree_spec kend Hkend); [done..|]|].
  - apply NoDup_cons in Hnd as [Hnd _]. intros Hin. apply Hnd. rewrite elem_of_app in Hin |- *.
    by rewrite elem_of_reverse in Hin.
  - cbv beta. intros _ m3 (Hf3 & _ & S3). exists (pgdir :: reverse (tabs m pgdir) ++ k ++ l).
    split; [done|]. split; [by rewrite reverse_Permutation, P1|].
    intros p Hp. rewrite P1 in Hp. rewrite S3, S2, S1 by set_solver. done.
Qed.

(** ** Mapping a new frame *)

Definition PTE_UW : Z := Z.lor PTE_W PTE_U.

(** User pages share the first page table. *)
Lemma PDX_user a : a ∈ upages -> PDX a = 0.
Proof.
  intros Ha. rewrite PDX_eq by by apply upage_ok. apply elem_of_upages in Ha as [_ Ha].
  apply Z.div_small. unfold USERTOP in Ha. lia.
Qed.

(** [mappages] of a single page. *)
Lemma mappages_one m pgdir a pa perm (Q : Z -> kmem -> Prop) :
  va_ok a -> a mod PGSIZE = 0 -> 0 <= pa < 2 ^ 32 ->
  wp (map_page pgdir a pa perm) (fun r m' => Q (default 0 r) m') m ->
  wp (mappages pgdir a PGSIZE pa perm) Q m.
Proof.
  intros Hva Ha Hpa Hw. unfold mappages. rewrite !PGROUNDDOWN_eq.
  assert (u32 a / PGSIZE * PGSIZE = a) as E1 by (rewrite u32_small by done; by apply page_base_aligned).
  assert (u32 (a + PGSIZE - 1) / PGSIZE * PGSIZE = a) as E2.
  { assert (a + PGSIZE <= 2 ^ 32) as Hlt.
    { pose proof (Z.div_mod a PGSIZE ltac:(done)). rewrite Ha, Z.add_0_r in *. unfold va_ok in Hva.
      assert (a / PGSIZE < 2 ^ 20) by (apply Z.div_lt_upper_bound; [done|apply Hva]). unfold PGSIZE in *. lia. }
    unfold va_ok in Hva. rewrite u32_small by (unfold PGSIZE in *; lia).
    apply (page_base_iff a); [done|]. unfold PGSIZE in *. lia. }
  rewrite E1, E2, Z.sub_diag. change (u32 0 / PGSIZE + 1) with 1. rewrite seqZ_1. cbn [for_find].
  rewrite !Z.mul_0_l, !Z.add_0_r, !u32_small by done. wfocus.
  eapply wp_mono; [exact Hw|]. cbv beta. intros [x|] m' HQ; by repeat wstep.
Qed.

(** [mappages] of one user page onto a page that nobody uses. *)
Lemma map_frame m pgdir l a mem :
  uspace m pgdir l -> a ∈ upages -> frame_of m pgdir a = None ->
  valid_page kend mem -> is_page m mem -> mem ∉ pgdir :: tabs m pgdir ++ frames m pgdir ++ l ->
  wp (mappages pgdir a PGSIZE mem PTE_UW) (fun r m' => r = 0 /\ uspace m' pgdir l /\
    tabs m' pgdir = tabs m pgdir /\ frames m' pgdir ≡ₚ mem :: frames m pgdir /\
    same_but (tabs m pgdir) m m' /\
    (forall va, va_ok va -> pte_of m' pgdir va =
       if decide (page_base va = a) then entry mem PTE_UW else pte_of m pgdir va)) m.
Proof.
  intros Hu Ha Hn Hv Hp Hm. pose proof (upage_ok a Ha) as [Hva Hba].
  pose proof Ha as [Hal Har]%elem_of_upages. pose proof (valid_range kend Hkend _ Hv) as Hr.
  destruct (entry_spec mem PTE_UW) as (Her & Hea & Hep & _); [apply Hv|lia|done|].
  destruct (Hu) as [Hok [t Ht] Hfv Hfp Hnd]. rewrite <- (PDX_user a Ha) in Ht.
  assert (pte_get (t, PTX a) m = pte_of m pgdir a) as Ee by by rewrite pte_of_tab, Ht.
  apply mappages_one; [done|done|lia|]. unfold map_page, walkpgdir, tab_of in *.
  wstep. wstep. wstep. destruct (Z.land (pte_get (pgdir, PDX a) m) PTE_P =? 0) eqn:E; [done|].
  simplify_eq. cbn [negb]. wstep. wstep. wstep. rewrite Ee.
  assert (Z.land (pte_of m pgdir a) PTE_P =? 0 = true) as ->.
  { unfold frame_of, present in Hn. by destruct (Z.land _ _ =? 0). }
  cbn [negb]. wsteps. cbn [from_option id]. change (Z.lor (Z.lor mem PTE_UW) PTE_P) with (entry mem PTE_UW).
  set (t := PTE_ADDR (pte_get (pgdir, PDX a) m)) in *.
  assert (tab_of m pgdir (PDX a) = Some t) as Ht by (unfold tab_of; by rewrite E).
  destruct (pte_set_spec kend Hkend m pgdir l a t (entry mem PTE_UW)) as (Hok' & Et & Hs & Hpte); [done..|].
  set (m' := pte_set _ _ _) in *. rewrite (u32_small (entry _ _)), Hba in Hpte by done.
  assert (t ∈ tabs m pgdir) as Htin by by apply (tab_in m pgdir a).
  assert (frames m' pgdir ≡ₚ mem :: frames m pgdir) as Pf.
  { apply frames_add with a; [done..| |].
    - unfold frame_of. rewrite Hpte, decide_True by done. by rewrite Hep, Hea.
    - intros va Hv' Hb. by rewrite Hpte, decide_False. }
  assert (same_but (tabs m pgdir) m m') as Hst by (intros p Hpp; apply Hs; set_solver).
  split; [done|]. split; [|by split_and!]. rewrite NoDup_cons, NoDup_app in Hnd. destruct Hnd as (Hd & Hnt & Hdis & Hnd).
  split; rewrite ?Et, ?Pf.
  - done.
  - rewrite (tab_of_same m m') by (apply Hst; set_solver). rewrite <- (PDX_user a Ha), Ht. by eexists.
  - by constructor.
  - assert (forall p, p ∉ tabs m pgdir -> is_page m p -> is_page m' p) as Hip.
    { intros p Hpt. unfold is_page. by rewrite Hst. }
    constructor; [apply Hip; [set_solver|done]|]. rewrite Forall_forall in Hfp |- *. intros p Hpp.
    apply Hip; [|by apply Hfp]. intros Hx. apply (Hdis p Hx). set_solver.
  - cbn. rewrite app_comm_cons, <- Permutation_middle. constructor; [set_solver|].
    cbn. rewrite NoDup_cons, NoDup_app. by split_and!.
Qed.

(** Pages [k] of the free list have become frames of user memory. *)
Record grow (pgdir : Z) (m : kmem) (l : list Z) (m' : kmem) (l' : list Z) : Prop := {
  gr_ok : uspace m' pgdir l';
  gr_tabs : tabs m' pgdir = tabs m pgdir;
  gr_frames : exists k, l = k ++ l' /\ frames m' pgdir ≡ₚ k ++ frames m pgdir /\
    same_but (tabs m pgdir ++ k) m m';
}.

Lemma grow_refl pgdir m l : uspace m pgdir l -> grow pgdir m l m l.
Proof. intros H. split; [done|done|by exists []]. Qed.

Lemma grow_trans pgdir m l m1 l1 m2 l2 :
  grow pgdir m l m1 l1 -> grow pgdir m1 l1 m2 l2 -> grow pgdir m l m2 l2.
Proof.
  intros [U1 T1 (k1 & -> & P1 & S1)] [U2 T2 (k2 & -> & P2 & S2)]. split; [done|by rewrite T2|].
  exists (k1 ++ k2). split; [by rewrite app_assoc|]. split; [rewrite P2, P1; solve_Permutation|].
  intros p Hp. rewrite S2, S1 by (rewrite ?T1; set_solver). done.
Qed.

(** The frames there were are still there, with their bytes. *)
Lemma grow_keeps pgdir m l m' l' fr :
  uspace m pgdir l -> grow pgdir m l m' l' -> fr ∈ frames m pgdir ->
  fr ∈ frames m' pgdir /\ page_at fr m' = page_at fr m.
Proof.
  intros [_ _ _ _ Hnd] [_ _ (k & -> & Pf & Hs)] Hfr. split; [rewrite Pf; set_solver|].
  apply Hs. rewrite NoDup_cons, !NoDup_app in Hnd. destruct Hnd as (_ & _ & Hd1 & _ & Hd2 & _).
  rewrite not_elem_of_app. split; [intros Hx; apply (Hd1 fr Hx)|intros Hx; apply (Hd2 fr Hfr)]; set_solver.
Qed.

(** A page off the free list, filled with [c], becomes the frame of [a]. *)
Lemma install_frame m pgdir mem l m1 a c :
  uspace m pgdir (mem :: l) -> km_page m1 = km_page m -> uspace m1 pgdir l ->
  length c = Z.to_nat PGSIZE -> Forall is_byte c -> a ∈ upages -> frame_of m pgdir a = None ->
  wp (mappages pgdir a PGSIZE mem PTE_UW) (fun r m' => r = 0 /\ grow pgdir m (mem :: l) m' l /\
    page_at mem m' = c /\
    (forall va, va_ok va -> pte_of m' pgdir va =
       if decide (page_base va = a) then entry mem PTE_UW else pte_of m pgdir va))
    (km_set_page (<[mem := c]> (km_page m1)) m1).
Proof.
  intros Hu Hp1 Hu1 Hlen Hby Ha Hn. destruct (uspace_head _ _ _ _ Hu) as (_ & Hv & Hm).
  assert (forall p, page_at p m1 = page_at p m) as Hs1 by (intros; unfold page_at; by rewrite Hp1).
  set (m2 := km_set_page _ _).
  assert (forall p, page_at p m2 = if decide (p = mem) then c else page_at p m) as Hs2.
  { intros p. unfold m2. by rewrite page_at_insert, Hs1. }
  assert (tabs m1 pgdir = tabs m pgdir) as Et1 by by apply tabs_same.
  assert (forall va, va_ok va -> pte_of m1 pgdir va = pte_of m pgdir va) as Hpte1.
  { intros va Hva. apply pte_of_same; [done|done|]. by intros. }
  assert (frames m1 pgdir = frames m pgdir) as Ef1 by by apply frames_same.
  destruct (uspace_same m1 m2 pgdir l l) as (Hu2 & Et2 & Ef2 & Hpte2); [done| |by exists []|..].
  { eapply free_list_ext; [apply Hu1|done|]. intros p Hp. rewrite Hs2, decide_False by set_solver. by rewrite Hs1. }
  { intros p Hp. rewrite Et1, Ef1 in Hp. rewrite Hs2, decide_False by set_solver. by rewrite Hs1. }
  rewrite Et1 in Et2. rewrite Ef1 in Ef2.
  eapply wp_mono; [apply (map_frame m2 pgdir l a mem); [done|done| |done| |]|].
  - unfold frame_of. rewrite Hpte2, Hpte1 by by apply upage_ok. done.
  - unfold is_page. by rewrite Hs2, decide_True.
  - by rewrite Et2, Ef2.
  - cbv beta. intros r m' (-> & Hu' & Et & Pf & Hs & Hpte). rewrite Et2 in *. rewrite Ef2 in Pf.
    split; [done|]. split; [|split].
    + split; [done|done|]. exists [mem]. split; [done|]. split; [done|].
      intros p Hp. rewrite Hs, Hs2, decide_False by set_solver. done.
    + rewrite Hs, Hs2, decide_True by set_solver. done.
    + intros va Hva. rewrite Hpte, Hpte2, Hpte1 by done. done.
Qed.

(** ** allocuvm *)

Lemma alloc_page_spec m pgdir mem l oldsz newsz a :
  uspace m pgdir (mem :: l) -> a ∈ upages -> frame_of m pgdir a = None ->
  wp (alloc_page kend pgdir oldsz newsz a) (fun r m' => r = None /\ grow pgdir m (mem :: l) m' l /\
    page_at mem m' = zeros PGSIZE /\
    forall va, va_ok va -> pte_of m' pgdir va =
      if decide (page_base va = a) then entry mem PTE_UW else pte_of m pgdir va) m.
Proof.
  intros Hu Ha Hn. unfold alloc_page. wcall kalloc_user; [done|]. cbv beta. intros r m1 (Hp & Hu1 & ->).
  cbn [head tail from_option id] in *. destruct (uspace_head _ _ _ _ Hu) as (Hnz & _ & _).
  assert ((mem =? 0) = false) as -> by by apply Z.eqb_neq.
  wstep. wstep. wcall (install_frame m pgdir mem l m1 a (zeros PGSIZE));
    [done|done|done|apply length_zeros|apply Forall_zeros|done|done|].
  cbv beta. intros r m' (-> & Hg & Hz & Hpte). by wstep.
Qed.

(** The pages [allocuvm] adds. *)
Definition npages (oldsz newsz : Z) : nat := length (range (PGROUNDUP oldsz) newsz PGSIZE).

(** A page of the process's own, filled with zeros. *)
Definition zero_page (m : kmem) (pgdir va : Z) : Prop :=
  exists fr, pte_of m pgdir va = entry fr PTE_UW /\ fr ∈ frames m pgdir /\ page_at fr m = zeros PGSIZE.

(** What the first rounds of the loop have done, up to the address [hi]. *)
Definition ualloc_inv (pgdir : Z) (m : kmem) (l : list Z) (lo hi : Z) (m' : kmem) (l' : list Z) : Prop :=
  grow pgdir m l m' l' /\
  forall va, va_ok va ->
    (lo <= va < hi -> zero_page m' pgdir va) /\ (~ (lo <= va < hi) -> pte_of m' pgdir va = pte_of m pgdir va).

Lemma ualloc_inv_step pgdir m l lo a m1 mem l1 m2 :
  ualloc_inv pgdir m l lo a m1 (mem :: l1) -> a ∈ upages -> lo <= a ->
  grow pgdir m1 (mem :: l1) m2 l1 -> page_at mem m2 = zeros PGSIZE ->
  (forall va, va_ok va -> pte_of m2 pgdir va =
     if decide (page_base va = a) then entry mem PTE_UW else pte_of m1 pgdir va) ->
  ualloc_inv pgdir m l lo (a + PGSIZE) m2 l1.
Proof.
  intros [Hg Hva] Ha Hlo Hg2 Hz Hpte. split; [by eapply grow_trans|]. intros va Hv.
  destruct (Hva va Hv) as [Hin Hout]. pose proof Ha as [Hal Har]%elem_of_upages.
  destruct (Hg2) as [_ _ (k & Hk & Pf & _)].
  assert (k = [mem]) as -> by (apply (app_inv_tail l1); by rewrite <- Hk).
  rewrite Hpte by done. destruct (decide (page_base va = a)) as [Hb|Hb].
  - split.
    + intros _. exists mem. rewrite Hpte, decide_True by done. split_and!; [done| |done].
      rewrite Pf. by left.
    + intros Hno. apply page_base_iff in Hb; [|done]. unfold PGSIZE in *. lia.
  - rewrite page_base_iff in Hb by done. split; [|intros; apply Hout; unfold PGSIZE in *; lia].
    intros Hr. destruct Hin as (fr & He & Hfr & Hz'); [lia|]. exists fr. rewrite Hpte by done.
    rewrite decide_False by (by rewrite page_base_iff).
    destruct (grow_keeps _ _ _ _ _ fr (gr_ok _ _ _ _ _ Hg) Hg2 Hfr) as [Hf' ->]. done.
Qed.

(** When memory runs out, the pages added so far are taken back. *)
Lemma ualloc_undo pgdir m l oldsz newsz hi m1 m2 l2 :
  ualloc_inv pgdir m l (PGROUNDUP oldsz) hi m1 [] -> hi <= PGROUNDUP newsz ->
  (forall va, PGROUNDUP oldsz <= va < PGROUNDUP newsz -> frame_of m pgdir va = None) ->
  shrink pgdir m1 [] m2 l2 ->
  (forall va, va_ok va ->
      (PGROUNDUP oldsz <= va < PGROUNDUP newsz -> frame_of m2 pgdir va = None) /\
      (~ (PGROUNDUP oldsz <= va < PGROUNDUP newsz) -> pte_of m2 pgdir va = pte_of m1 pgdir va)) ->
  l2 ≡ₚ l /\ frames m2 pgdir = frames m pgdir /\ same_but (tabs m pgdir ++ l) m m2 /\
  forall va, va_ok va -> ~ (PGROUNDUP oldsz <= va < PGROUNDUP newsz) -> pte_of m2 pgdir va = pte_of m pgdir va.
Proof.
  intros [[U1 T1 (k1 & -> & P1 & S1)] Hva] Hhi Hfree [U2 T2 (k2 & -> & P2 & S2)] Hpte.
  rewrite !app_nil_r in *.
  assert (forall va, va_ok va -> ~ (PGROUNDUP oldsz <= va < PGROUNDUP newsz) -> pte_of m2 pgdir va = pte_of m pgdir va) as Hout.
  { intros va Hv Hno. destruct (Hpte va Hv) as [_ ->]; [|done]. apply Hva; [done|]. lia. }
  assert (frames m2 pgdir = frames m pgdir) as Ef.
  { rewrite !frames_omap. apply list_omap_ext, Forall2_same_length_lookup_2; [done|].
    intros i a b Ha Hb. simplify_eq. apply list_elem_of_lookup_2, upage_ok in Ha as [Ha _].
    destruct (decide (PGROUNDUP oldsz <= a < PGROUNDUP newsz)) as [Hin|Hno].
    - destruct (Hpte a Ha) as [-> _]; [|done]. symmetry. by apply Hfree.
    - unfold frame_of. by rewrite Hout. }
  assert (k2 ≡ₚ k1) as Hk.
  { apply (Permutation_app_inv_r (frames m pgdir)). rewrite <- P1, P2. by rewrite Ef. }
  split; [done|]. split; [done|]. split; [|done]. intros p Hp. rewrite S2, S1; [done|done|]. rewrite T1, Hk. done.
Qed.

(** With enough free pages [allocuvm] adds zeroed pages up to the new size;
    with too few it puts everything back and returns 0. *)
Lemma allocuvm_spec m pgdir l oldsz newsz :
  uspace m pgdir l -> 0 <= oldsz <= newsz -> newsz <= USERTOP ->
  (forall va, PGROUNDUP oldsz <= va < PGROUNDUP newsz -> frame_of m pgdir va = None) ->
  wp (allocuvm kend pgdir oldsz newsz) (fun r m' => exists l',
    uspace m' pgdir l' /\ tabs m' pgdir = tabs m pgdir /\ frames m' pgdir ++ l' ≡ₚ frames m pgdir ++ l /\
    same_but (tabs m pgdir ++ l) m m' /\
    (forall va, va_ok va -> ~ (PGROUNDUP oldsz <= va < PGROUNDUP newsz) ->
       pte_of m' pgdir va = pte_of m pgdir va) /\
    if decide (npages oldsz newsz <= length l)%nat
    then r = newsz /\ l' = drop (npages oldsz newsz) l /\
         forall va, PGROUNDUP oldsz <= va < PGROUNDUP newsz -> zero_page m' pgdir va
    else r = 0 /\ l' ≡ₚ l /\
         forall va, PGROUNDUP oldsz <= va < PGROUNDUP newsz -> frame_of m' pgdir va = None) m.
Proof.
  intros Hu Hsz Htop Hfree. unfold allocuvm.
  assert ((USERTOP <? newsz) = false) as -> by (apply Z.ltb_ge; lia).
  assert ((newsz <? oldsz) = false) as -> by (apply Z.ltb_ge; lia).
  assert (newsz + PGSIZE <= 2 ^ 32) as Hlim by (unfold USERTOP, PGSIZE in *; lia).
  pose proof (range_up oldsz newsz Hsz Hlim) as Hup. fold (npages oldsz newsz) in Hup.
  assert (forall va, PGROUNDUP oldsz <= va < PGROUNDUP newsz -> va_ok va) as Hvok.
  { intros va Hva. destruct (PGROUNDUP_spec newsz) as (_ & _ & H1); [lia..|].
    destruct (PGROUNDUP_spec oldsz) as (_ & H2 & _); [lia|unfold PGSIZE in *; lia|].
    unfold va_ok. unfold PGSIZE in *. lia. }
  wfocus. apply (wp_for_find (fun pre m' => exists l', length l = (length pre + length l')%nat /\
    ualloc_inv pgdir m l (PGROUNDUP oldsz) (PGROUNDUP oldsz + Z.of_nat (length pre) * PGSIZE) m' l')).
  - exists l. split; [done|]. split; [by apply grow_refl|]. intros va _. cbn. split; [lia|done].
  - intros pre a post m1 Hl (l1 & Hlen & Hinv).
    assert (length pre < npages oldsz newsz)%nat as Hpre.
    { unfold npages. rewrite Hl, length_app. cbn. lia. }
    destruct (upage_range oldsz newsz pre a post) as (Ha & Hua & _); [lia..|done|]. rewrite <- Ha in Hinv.
    destruct l1 as [|mem l1].
    + unfold alloc_page. wcall kalloc_empty; [apply Hinv|]. cbv beta. intros r m2 [-> ->].
      change (0 =? 0) with true. cbv iota.
      assert (a < newsz) as Han by (by apply range_at in Hl as [_ ?]).
      destruct (PGROUNDUP_spec oldsz) as (_ & Hge & _); [lia|unfold PGSIZE in *; lia|].
      assert (oldsz < newsz) as Hlt by (subst a; unfold PGSIZE in *; lia).
      wcall (deallocuvm_spec m1 pgdir [] newsz oldsz); [apply Hinv|lia|lia|]. cbv beta.
      intros r m2 (-> & l2 & Hsh & Hpte). wstep. wstep. cbn [from_option id].
      destruct (ualloc_undo pgdir m l oldsz newsz a m1 m2 l2) as (Hl2 & Hfr & Hsm & Hout); try done.
      { subst a. unfold PGSIZE in *. lia. }
      exists l2. split; [apply Hsh|]. split; [rewrite (sh_tabs _ _ _ _ _ Hsh); apply Hinv|].
      split; [by rewrite Hfr, Hl2|]. split; [done|]. split; [done|]. cbn [length] in Hlen. rewrite decide_False by lia.
      split; [done|]. split; [done|]. intros va Hr. by apply Hpte; [apply Hvok|].
    + wcall (alloc_page_spec m1 pgdir mem l1 oldsz newsz a); [apply Hinv|done|..].
      { unfold frame_of. destruct Hinv as [_ Hva].
        rewrite (proj2 (Hva a (proj1 (upage_ok a Hua)))) by lia. apply Hfree. subst a. unfold PGSIZE in *. lia. }
      cbv beta. intros r m2 (-> & Hg & Hz & Hpte). exists l1. rewrite length_app. cbn [length] in *.
      split; [lia|]. replace (PGROUNDUP oldsz + Z.of_nat (length pre + 1) * PGSIZE) with (a + PGSIZE) by (subst a; unfold PGSIZE; lia).
      apply (ualloc_inv_step pgdir m l _ a m1 mem l1 m2); try done. subst a. unfold PGSIZE. lia.
  - intros m' (l' & Hlen & [Hg Hva]). fold (npages oldsz newsz) in *. rewrite Hup in Hva. wstep. cbn [from_option id].
    destruct Hg as [U T (k & -> & P & S)]. exists l'. split_and!; [done|done|rewrite P; solve_Permutation| |intros va Hv; by apply Hva|].
    + intros p Hp. apply S. set_solver.
    + rewrite decide_True by lia. split; [done|]. rewrite length_app in Hlen. split.
      * rewrite drop_app_length'; [done|lia].
      * intros va Hr. apply Hva; [by apply Hvok|done].
Qed.

(** ** copyuvm *)

Section copy.
Context (kdata : Z) (Hkd : kdata mod PGSIZE = 0) (Hkd2 : 0x100000 < kdata < PHYSTOP).

(** User addresses are not in the kernel's mappings. *)
Lemma kmap_user va : va < USERTOP -> kmap_pte (kmap kdata) va = 0.
Proof.
  intros H. unfold kmap_pte, kmap. cbn [first_some in_region].
  assert (forall a b, USERTOP <= a -> (a <=? va) && b = false) as Hf.
  { intros a b Ha. apply andb_false_intro1, Z.leb_gt. lia. }
  rewrite !Hf by (unfold USERTOP in *; lia). done.
Qed.

(** A directory fresh from [setupkvm] is an address space without user
    memory. *)
Lemma fresh_uspace m d l :
  pgdir_ok kend m d l -> (forall va, va_ok va -> pte_of m d va = kmap_pte (kmap kdata) va) ->
  uspace m d l /\ frames m d = [].
Proof.
  intros Hok Hpte. assert (frames m d = []) as Ef.
  { destruct (frames m d) as [|fr L] eqn:E; [done|]. assert (fr ∈ frames m d) as Hin by (rewrite E; by left).
    apply elem_of_frames in Hin as (a & Ha & Hfr). pose proof (upage_ok a Ha) as [Hva _].
    unfold frame_of in Hfr. rewrite Hpte, kmap_user in Hfr; [done| |done].
    apply elem_of_upages in Ha as [_ Ha]. lia. }
  split; [|done]. split; rewrite ?Ef; [done| |done|done|by destruct Hok].
  assert (pte_of m d USERTOP = entry USERTOP PTE_W) as He.
  { rewrite Hpte by done. unfold kmap_pte, kmap. cbn [first_some in_region].
    by change ((USERTOP <=? USERTOP) && (USERTOP <? USERTOP + u32 (0x100000 - USERTOP))) with true. }
  rewrite pte_of_tab in He. change (PDX USERTOP) with 0 in He. by destruct (tab_of m d 0).
Qed.

(** The page of [va] in the space [d] of [m'] is a copy of the page in [pgdir]
    of [m]. *)
Definition page_copied (m : kmem) (pgdir : Z) (m' : kmem) (d va : Z) : Prop :=
  exists fr fr', frame_of m pgdir va = Some fr /\ pte_of m' d va = entry fr' PTE_UW /\
    fr' ∈ frames m' d /\ page_at fr' m' = page_at fr m.

(** The first rounds of the loop, up to the address [hi]. *)
Definition copy_inv (m : kmem) (pgdir : Z) (d : Z) (m1 : kmem) (l1 : list Z) (hi : Z) (m' : kmem) (l' : list Z) : Prop :=
  grow d m1 l1 m' l' /\
  forall va, va_ok va ->
    (va < hi -> page_copied m pgdir m' d va) /\ (hi <= va -> pte_of m' d va = pte_of m1 d va).

Lemma copy_inv_step m pgdir d m1 l1 a m2 mem l2 m3 fr :
  copy_inv m pgdir d m1 l1 a m2 (mem :: l2) -> a ∈ upages -> frame_of m pgdir a = Some fr ->
  grow d m2 (mem :: l2) m3 l2 -> page_at mem m3 = page_at fr m ->
  (forall va, va_ok va -> pte_of m3 d va =
     if decide (page_base va = a) then entry mem PTE_UW else pte_of m2 d va) ->
  copy_inv m pgdir d m1 l1 (a + PGSIZE) m3 l2.
Proof.
  intros [Hg Hva] Ha Hfr Hg2 Hz Hpte. split; [by eapply grow_trans|]. intros va Hv.
  destruct (Hva va Hv) as [Hin Hout]. pose proof Ha as [Hal Har]%elem_of_upages.
  destruct (Hg2) as [_ _ (k & Hk & Pf & _)].
  assert (k = [mem]) as -> by (apply (app_inv_tail l2); by rewrite <- Hk).
  rewrite Hpte by done. destruct (decide (page_base va = a)) as [Hb|Hb].
  - split.
    + intros _. exists fr, mem. rewrite Hpte, decide_True by done. split_and!; [|done| |done].
      * unfold frame_of in *. by rewrite <- pte_of_base, Hb.
      * rewrite Pf. by left.
    + intros Hno. apply page_base_iff in Hb; [|done]. unfold PGSIZE in *. lia.
  - rewrite page_base_iff in Hb by done. split; [|intros; apply Hout; unfold PGSIZE in *; lia].
    intros Hr. destruct Hin as (fr0 & fr' & He & Hp' & Hfr' & Hz'); [lia|]. exists fr0, fr'. rewrite Hpte by done.
    rewrite decide_False by (by rewrite page_base_iff).
    destruct (grow_keeps _ _ _ _ _ fr' (gr_ok _ _ _ _ _ Hg) Hg2 Hfr') as [Hf' ->]. done.
Qed.

(** An address space does not see changes of pages that are free. *)
Lemma space_kept m pgdir l m' :
  uspace m pgdir l -> same_but l m m' ->
  (forall i, tab_of m' pgdir i = tab_of m pgdir i) /\
  (forall va, va_ok va -> pte_of m' pgdir va = pte_of m pgdir va) /\
  forall fr, fr ∈ frames m pgdir -> page_at fr m' = page_at fr m.
Proof.
  intros [_ _ _ _ Hnd] Hs. rewrite NoDup_cons, !NoDup_app in Hnd. destruct Hnd as (Hd & _ & Hd1 & _ & Hd2 & _).
  assert (page_at pgdir m' = page_at pgdir m) as Hp by (apply Hs; set_solver).
  split; [|split].
  - intros i. by apply tab_of_same.
  - intros va Hva. apply pte_of_same; [done..|]. intros t Ht. apply Hs. intros Hx. apply (Hd1 t Ht). set_solver.
  - intros fr Hfr. apply Hs. by apply Hd2.
Qed.

(** A round of the loop: the entry of [pgdir] is there, and with a free page
    left it is copied. *)
Lemma copy_page_spec m pgdir l d m2 l2 a fr :
  uspace m pgdir l -> same_but l m m2 -> uspace m2 d l2 -> a ∈ upages ->
  frame_of m pgdir a = Some fr -> frame_of m2 d a = None ->
  wp (copy_page pgdir d a) (fun r m3 =>
    match l2 with
    | [] => r = Some tt /\ m3 = m2
    | mem :: l3 => r = None /\ grow d m2 l2 m3 l3 /\ page_at mem m3 = page_at fr m /\
        forall va, va_ok va -> pte_of m3 d va =
          if decide (page_base va = a) then entry mem PTE_UW else pte_of m2 d va
    end) m2.
Proof.
  intros Hu Hs Hud Ha Hfr Hn. destruct (space_kept _ _ _ _ Hu Hs) as (Htab & Hpte & Hpg).
  pose proof (upage_ok a Ha) as [Hva _]. assert (fr ∈ frames m pgdir) as Hin by (apply elem_of_frames; eauto).
  assert (is_page m fr) as [Hlen Hby] by (destruct Hu as [_ _ _ Hp _]; rewrite Forall_forall in Hp; by apply Hp).
  rewrite <- (Hpg fr) in * by done.
  unfold frame_of in Hfr. rewrite <- Hpte in Hfr by done. unfold copy_page.
  wcall walkpgdir_find. cbv beta. intros r m' [-> ->]. rewrite pte_of_tab in Hfr.
  destruct (tab_of m2 pgdir (PDX a)) as [t|]; cbn [fmap option_fmap option_map]; [|done].
  wstep. wstep. unfold present in Hfr. destruct (Z.land _ PTE_P =? 0); [done|]. cbn [negb] in Hfr.
  injection Hfr as ->. destruct l2 as [|mem l3].
  { wcall kalloc_empty; [apply Hud|]. cbv beta. intros r m' [-> ->].
    change (0 =? 0) with true. by wstep. }
  wcall kalloc_user; [done|]. cbv beta. intros r m1 (Hp & Hu1 & ->). cbn [head tail from_option id] in *.
  destruct (uspace_head _ _ _ _ Hud) as (Hnz & _ & _). assert ((mem =? 0) = false) as -> by by apply Z.eqb_neq.
  wstep. wstep. replace (page_at fr m1) with (page_at fr m2) by (unfold page_at; by rewrite Hp).
  wcall (install_frame m2 d mem l3 m1 a (page_at fr m2)); [done..|].
  cbv beta. intros r m' (-> & Hg & Hz & Hpte'). by wstep.
Qed.

Lemma copy_round m pgdir l d m1 l1 m2 l2 a :
  uspace m pgdir l -> same_but l m m2 -> copy_inv m pgdir d m1 l1 a m2 l2 -> a ∈ upages ->
  is_Some (frame_of m pgdir a) -> pte_of m1 d a = 0 ->
  wp (copy_page pgdir d a) (fun r m3 =>
    match r with
    | Some _ => l2 = [] /\ m3 = m2
    | None => exists l3, length l2 = S (length l3) /\ copy_inv m pgdir d m1 l1 (a + PGSIZE) m3 l3
    end) m2.
Proof.
  intros Hu Hs Hinv Ha [fr Hfr] Hz. wcall (copy_page_spec m pgdir l d m2 l2 a fr); [done|done|apply Hinv|done|done|..].
  - unfold frame_of. destruct Hinv as [_ Hva]. pose proof (upage_ok a Ha) as [Hvaa _].
    rewrite (proj2 (Hva a Hvaa)) by lia. by rewrite Hz.
  - cbv beta. intros r m3 Hr. destruct l2 as [|mem l3]; [by destruct Hr as [-> ->]|].
    destruct Hr as (-> & Hg & Hp & Hp3). exists l3. split; [done|].
    by apply (copy_inv_step m pgdir d m1 l1 a m2 mem l3 m3 fr).
Qed.

(** [copyuvm] gives the child a copy of every page of the parent, in frames of
    its own; it fails only when memory is short, and a failed copy gives back
    what it took. *)
Lemma copyuvm_spec m pgdir l sz :
  uspace m pgdir l -> 0 <= sz <= USERTOP ->
  (forall va, 0 <= va < sz -> is_Some (frame_of m pgdir va)) ->
  wp (copyuvm kend kdata pgdir sz) (fun d m' => exists l', free_list kend m' l' /\ same_but l m m' /\
    (d = 0 /\ (length l < 13 + npages 0 sz)%nat /\ (l' = [] \/ l' ≡ₚ l) \/
     d <> 0 /\ uspace m' d l' /\ d :: tabs m' d ++ frames m' d ++ l' ≡ₚ l /\
     (forall va, va_ok va -> va < PGROUNDUP sz -> page_copied m pgdir m' d va) /\
     (forall va, va_ok va -> PGROUNDUP sz <= va -> pte_of m' d va = kmap_pte (kmap kdata) va))) m.
Proof.
  intros Hu Hsz Hpres. unfold copyuvm. wcall (setupkvm_spec kend Hkend kdata Hkd Hkd2 m l); [apply Hu|].
  cbv beta. intros d m1 [(-> & Hf & Hs & Hlen)|(Hd & k & l1 & El & Hk & Pt & Hok & Hs & Hpte)].
  { change (0 =? 0) with true. wstep. exists []. split; [done|]. split; [done|]. left. split; [done|]. split; [lia|by left]. }
  apply Z.eqb_neq in Hd as Hd'. rewrite Hd'. destruct (fresh_uspace m1 d l1 Hok Hpte) as [Hud Ef].
  pose proof (range_up 0 sz ltac:(lia) ltac:(unfold USERTOP, PGSIZE in *; lia)) as Hup.
  change (PGROUNDUP 0) with 0 in Hup. rewrite Z.add_0_l in Hup.
  assert (forall hi m2 l2, copy_inv m pgdir d m1 l1 hi m2 l2 ->
    same_but l m m2 /\ d :: tabs m2 d ++ frames m2 d ++ l2 ≡ₚ l) as Hsum.
  { intros hi m2 l2 [[U2 T2 (k2 & E2 & P2 & S2)] _]. rewrite Ef, app_nil_r in P2. split.
    - intros p Hp. rewrite S2, Hs; [done|..]; rewrite ?Pt; set_solver.
    - rewrite T2, Pt, P2, El, E2. done. }
  wfocus. apply (wp_for_find (fun pre m' => exists l', length l1 = (length pre + length l')%nat /\
    copy_inv m pgdir d m1 l1 (Z.of_nat (length pre) * PGSIZE) m' l')).
  - exists l1. split; [done|]. split; [by apply grow_refl|]. intros va Hva. unfold va_ok in Hva. cbn. split; [lia|done].
  - intros pre a post m2 Hl (l2 & Hlen & Hinv). assert (length pre < npages 0 sz)%nat as Hpre.
    { unfold npages. change (PGROUNDUP 0) with 0. rewrite Hl, length_app. cbn. lia. }
    destruct (upage_range 0 sz pre a post) as (Ha & Hua & Hlt); [lia..|done|]. change (PGROUNDUP 0) with 0 in Ha.
    rewrite Z.add_0_l in Ha. rewrite <- Ha in Hinv. destruct (Hsum _ _ _ Hinv) as [Hs2 P2].
    pose proof Hua as [_ Har]%elem_of_upages.
    wcall (copy_round m pgdir l d m1 l1 m2 l2 a); [done..|apply Hpres; lia|rewrite Hpte, kmap_user; [done|lia|by apply upage_ok]|].
    cbv beta. intros [[]|] m3 Hr.
    + destruct Hr as [-> ->]. wcall freevm_spec; [apply Hinv|]. cbv beta.
      intros _ m4 (l4 & Hf4 & P4 & S4). wstep. exists l4. rewrite P2 in P4. split; [done|]. split.
      * intros p Hp. rewrite S4; [by apply Hs2|]. rewrite <- P2 in Hp. set_solver.
      * left. split; [done|]. split; [|by right]. rewrite El. cbn [length] in *. rewrite length_app. lia.
    + destruct Hr as (l3 & Hl3 & Hinv'). exists l3. rewrite length_app. cbn [length]. split; [lia|].
      by replace (Z.of_nat (length pre + 1) * PGSIZE) with (a + PGSIZE) by (subst a; unfold PGSIZE; lia).
  - intros m' (l' & Hlen & Hinv). rewrite Hup in Hinv. wstep.
    destruct (Hsum _ _ _ Hinv) as [Hs2 P2]. destruct Hinv as [[U _ _] Hva].
    exists l'. split; [apply U|]. split; [done|]. right. split_and!; try done; intros va Hv; [by apply Hva|].
    intros Hge. rewrite <- Hpte by done. by apply Hva.
Qed.
End copy.
End user.
