(* ===== verification/Args.v ===== *)
(** * System call arguments (kernel/syscall.c)

    [fetchint], [fetchstr], [fetchweirdstr], [argint], [argptr], [argstr] and
    [argstr_nonull]: the kernel reads the arguments of a call from the memory
    of the current process, through its page table. *)

From S2P Require Import Prelude Monad Params CString Kalloc ProcTable Pipe Ide Bio Block Inode.
From S2P Require Import Content Vm File Tags.

(** ** User memory *)

Definition curproc (s : kern) : proc := cur_proc (lget pt_of_kern s).

Definition ubyte (va : Z) (s : kern) : option Z := user_byte (k_mem s) (p_pgdir (curproc s)) va.

(** A load of [n] bytes; a page that is not there faults, and a fault in the
    kernel is a panic (kernel/trap.c). *)
Definition uload (va n : Z) : M kern (list Z) := fun s =>
  match mapM (fun a => ubyte a s) (seqZ va n) with
  | Some l => Ret l s
  | None => Panic "trap" s
  end.

(** A store of the bytes [l]. *)
Definition ustore_byte (va v : Z) : M kern unit := fun s =>
  let e := pte_of (k_mem s) (p_pgdir (curproc s)) va in
  if Z.land e PTE_P =? 0 then Panic "trap" s
  else Ret tt (k_set_mem (km_set_page
         (alter (fun pg => <[Z.to_nat (va mod PGSIZE) := v]> pg) (PTE_ADDR e) (km_page (k_mem s))) (k_mem s)) s).
Definition ustore (va : Z) (l : list Z) : M kern unit :=
  for_each (zip (seqZ va (Z.of_nat (length l))) l) (fun '(a, v) => ustore_byte a v).

(** The memory from [va] to the end of the process, for strings the calls
    take by reference. *)
Definition umem (va : Z) (s : kern) : list Z :=
  (fun a => default 0 (ubyte a s)) <$> seqZ va (p_sz (curproc s) - va).
Definition uptr (va : Z) (s : kern) : cptr := Cptr va (umem va s).

(** ** syscall.c *)

(** [None] is the result -1. *)
Definition fetchint (addr : Z) : M kern (option Z) :=
  let! p := gets curproc in
  if (p_sz p <=? addr) || (p_sz p <? u32 (addr + 4)) then ret None
  else let! l := uload addr 4 in ret (Some (s32 (le_dec l))).

(** The pointer, which is [addr], and the length. *)
Definition fetchstr (addr : Z) : M kern (option Z) :=
  let! p := gets curproc in
  if p_sz p <=? addr then ret None
  else for_find (range addr (p_sz p) 1) (fun a =>
         let! l := uload a 1 in
         ret (if nthb l 0 =? 0 then Some (a - addr) else None)).

Definition fetchweirdstr (addr len : Z) : M kern (option Z) :=
  let! p := gets curproc in
  if p_sz p <=? addr then ret None
  else if len <? 0 then ret None
  else ret (Some len).

Definition argint (n : Z) : M kern (option Z) :=
  let! p := gets curproc in
  fetchint (u32 (tf_esp (p_tf p) + 4 + 4 * n)).

Definition argptr (n size : Z) : M kern (option Z) :=
  let! i := argint n in
  match i with
  | None => ret None
  | Some i =>
      let! p := gets curproc in
      if (p_sz p <=? u32 i) || (p_sz p <? u32 (u32 i + size)) then ret None
      else ret (Some (u32 i))
  end.

(** The address of the string. *)
Definition argstr (n : Z) : M kern (option Z) :=
  let! addr := argint n in
  match addr with
  | None => ret None
  | Some addr =>
      let! len := fetchstr (u32 addr) in
      ret (match len with Some _ => Some (u32 addr) | None => None end)
  end.

Definition argstr_nonull (n len : Z) : M kern (option Z) :=
  let! addr := argint n in
  match addr with
  | None => ret None
  | Some addr =>
      let! r := fetchweirdstr (u32 addr) len in
      ret (match r with Some _ => Some (u32 addr) | None => None end)
  end.

(** ** Lemmas *)

(** The process's memory is mapped up to its size. *)
Definition mapped (s : kern) : Prop :=
  0 <= p_sz (curproc s) <= USERTOP /\
  forall a, 0 <= a < p_sz (curproc s) -> is_Some (ubyte a s).

Lemma uload_spec va n s :
  (forall a, va <= a < va + n -> is_Some (ubyte a s)) ->
  uload va n s = Ret ((fun a => default 0 (ubyte a s)) <$> seqZ va n) s.
Proof.
  intros H. unfold uload.
  assert (mapM (fun a => ubyte a s) (seqZ va n) = Some ((fun a => default 0 (ubyte a s)) <$> seqZ va n)) as ->; [|done].
  apply mapM_Some, Forall2_fmap_r, Forall_Forall2_diag, Forall_forall.
  intros a Ha%elem_of_seqZ. destruct (H a) as [v E]; [lia|]. unfold compose. by rewrite E.
Qed.

(** [fetchint] returns the word at [addr] exactly when all of its four bytes
    belong to the process. *)
Lemma fetchint_spec addr s :
  mapped s -> 0 <= addr < 2 ^ 32 ->
  fetchint addr s =
  Ret (if addr + 4 <=? p_sz (curproc s)
       then Some (s32 (le_dec ((fun a => default 0 (ubyte a s)) <$> seqZ addr 4))) else None) s.
Proof.
  intros [Hsz Hm] Ha. unfold fetchint, bind, gets, ret. assert (USERTOP < 2 ^ 32 - 4) by done.
  destruct (Z.leb_spec (p_sz (curproc s)) addr) as [Hge|Hlt]; cbn [orb].
  { by rewrite (proj2 (Z.leb_gt _ _)) by lia. }
  rewrite u32_small by lia.
  destruct (Z.ltb_spec (p_sz (curproc s)) (addr + 4)), (Z.leb_spec (addr + 4) (p_sz (curproc s))); try lia; [done|].
  rewrite uload_spec; [done|]. intros a Hr. apply Hm. lia.
Qed.

Lemma range_seqZ lo hi : range lo hi 1 = seqZ lo (hi - lo).
Proof.
  unfold range. rewrite Z.div_1_r, Z.add_simpl_r.
  transitivity (Z.add lo <$> seqZ 0 (hi - lo)); [|by rewrite fmap_add_seqZ, Z.add_0_r].
  apply list_fmap_ext. intros. lia.
Qed.

(** [fetchstr] returns the length of the string when it ends inside the
    process. *)
Lemma fetchstr_spec addr s :
  mapped s -> 0 <= addr < p_sz (curproc s) ->
  fetchstr addr s =
  Ret (if strlen (umem addr s) <? p_sz (curproc s) - addr then Some (strlen (umem addr s)) else None) s.
Proof.
  intros [Hsz Hm] Ha. unfold fetchstr, bind at 1, gets. rewrite (proj2 (Z.leb_gt _ _)) by lia.
  rewrite range_seqZ. unfold umem. set (sz := p_sz (curproc s)) in *. set (f := fun a => default 0 (ubyte a s)).
  assert (forall n a, 0 <= a -> a + Z.of_nat n = sz -> addr <= a ->
    for_find (seqZ a (Z.of_nat n)) (fun a => let! l := uload a 1 in
      ret (if nthb l 0 =? 0 then Some (a - addr) else None)) s =
    Ret (if strlen (f <$> seqZ a (Z.of_nat n)) <? Z.of_nat n
         then Some (a - addr + strlen (f <$> seqZ a (Z.of_nat n))) else None) s) as Hgen.
  { induction n as [|n IH]; intros a H0 Hn Hle; [done|].
    rewrite seqZ_cons by lia. replace (Z.pred (Z.of_nat (S n))) with (Z.of_nat n) by lia.
    cbn [for_find fmap list_fmap strlen]. unfold bind at 1 2.
    rewrite uload_spec by (intros x Hx; apply Hm; lia). unfold ret at 1. cbn [nthb].
    change (nthb ((fun a0 => default 0 (ubyte a0 s)) <$> seqZ a 1) 0) with (f a).
    destruct (Z.eqb_spec (f a) 0) as [E|E].
    - rewrite (proj2 (Z.ltb_lt _ _)) by lia. unfold ret. do 2 f_equal. lia.
    - rewrite IH by lia. replace (Z.succ a - addr) with (a - addr + 1) by lia.
      destruct (Z.ltb_spec (strlen (f <$> seqZ (Z.succ a) (Z.of_nat n))) (Z.of_nat n)),
        (Z.ltb_spec (1 + strlen (f <$> seqZ (Z.succ a) (Z.of_nat n))) (Z.of_nat (S n))); try lia; [|done].
      do 2 f_equal. lia. }
  specialize (Hgen (Z.to_nat (sz - addr)) addr). rewrite Z2Nat.id in Hgen by lia.
  rewrite Hgen by lia. by rewrite Z.sub_diag.
Qed.

(** [argptr] of a buffer of [size] bytes: it is inside the process.  A
    negative size passes too, as long as the end does not wrap around. *)
Lemma argptr_spec n size s i :
  mapped s -> - 2 ^ 31 <= size < 2 ^ 31 -> argint n s = Ret (Some i) s ->
  argptr n size s =
  Ret (if (u32 i <? p_sz (curproc s)) && (0 <=? u32 i + size) && (u32 i + size <=? p_sz (curproc s))
       then Some (u32 i) else None) s.
Proof.
  intros [Hsz _] Hs Hi. unfold argptr, bind. rewrite Hi. unfold gets, ret. pose proof (u32_range i) as Hr.
  assert (USERTOP < 2 ^ 31) by done. set (a := u32 i) in *. clearbody a.
  destruct (Z.leb_spec (p_sz (curproc s)) a), (Z.ltb_spec a (p_sz (curproc s))); try lia; cbn [orb andb]; [done|].
  destruct (Z.leb_spec 0 (a + size)); cbn [andb].
  - rewrite u32_small by lia.
    destruct (Z.ltb_spec (p_sz (curproc s)) (a + size)), (Z.leb_spec (a + size) (p_sz (curproc s))); try lia; done.
  - unfold u32. rewrite <- (Z.mod_add _ 1), Z.mul_1_l, Z.mod_small by lia. by rewrite (proj2 (Z.ltb_lt _ _)) by lia.
Qed.
