(* ===== verification/Sysfile.v ===== *)
(** * File system calls (kernel/sysfile.c)

    Each handler fetches and checks its arguments and calls the file layer.
    Strings are passed by their address in the process; their bytes are read
    through [umem]. *)

From S2P Require Import Prelude Monad Params CString Kalloc ProcTable Pipe Ide Bio Block Inode.
From S2P Require Import Content Dir Path Vm File Tags Args.

(** ** File descriptors *)

(** The descriptor and the file. *)
Definition argfd (n : Z) : M kern (option (Z * nat)) :=
  let! fd := argint n in
  match fd with
  | None => ret None
  | Some fd =>
      let! fo := fd_file fd in
      ret (match fo with Some f => Some (fd, f) | None => None end)
  end.

Definition set_ofile (fd : Z) (v : option nat) : M kern unit :=
  zoom pt_of_kern (modify (upd_cur (fun p => p_set_ofile (<[Z.to_nat fd := v]> (p_ofile p)) p))).

(** The lowest free descriptor, or -1. *)
Definition fdalloc (f : nat) : M kern Z :=
  let! p := gets curproc in
  match list_find (fun x => x = None) (p_ofile p) with
  | Some (fd, _) => set_ofile (Z.of_nat fd) (Some f);;; ret (Z.of_nat fd)
  | None => ret (-1)
  end.

Definition sys_dup : M kern Z :=
  let! a := argfd 0 in
  match a with
  | None => ret (-1)
  | Some (_, f) =>
      let! fd := fdalloc f in
      if fd <? 0 then ret (-1)
      else let! _ := filedup f in ret fd
  end.

Section sysfile.
Context {DV : Devsw} (kend kdata : Z).

Definition sys_read : M kern Z :=
  let! a := argfd 0 in
  match a with
  | None => ret (-1)
  | Some (_, f) =>
      let! n := argint 2 in
      match n with
      | None => ret (-1)
      | Some n =>
          let! p := argptr 1 n in
          match p with
          | None => ret (-1)
          | Some p =>
              let! r := fileread f n in
              ustore p (snd r);;; ret (fst r)
          end
      end
  end.

Definition sys_write : M kern Z :=
  let! a := argfd 0 in
  match a with
  | None => ret (-1)
  | Some (_, f) =>
      let! n := argint 2 in
      match n with
      | None => ret (-1)
      | Some n =>
          let! p := argptr 1 n in
          match p with
          | None => ret (-1)
          | Some p =>
              let! buf := gets (umem p) in
              filewrite f buf n
          end
      end
  end.

Definition sys_close : M kern Z :=
  let! a := argfd 0 in
  match a with
  | None => ret (-1)
  | Some (fd, f) => set_ofile fd None;;; fileclose kend f;;; ret 0
  end.

(** The fields of a [struct stat] at [st]; the bytes between them stay. *)
Definition sizeof_stat : Z := 20.
Definition store_stat (st : Z) (v : stat) : M kern unit :=
  ustore st (le_enc 2 (u16 (st_type v)));;;
  ustore (st + 4) (le_enc 4 (u32 (st_dev v)));;;
  ustore (st + 8) (le_enc 4 (u32 (st_ino v)));;;
  ustore (st + 12) (le_enc 2 (u16 (st_nlink v)));;;
  ustore (st + 16) (le_enc 4 (u32 (st_size v))).

Definition sys_fstat : M kern Z :=
  let! a := argfd 0 in
  match a with
  | None => ret (-1)
  | Some (_, f) =>
      let! st := argptr 1 sizeof_stat in
      match st with
      | None => ret (-1)
      | Some st =>
          let! r := filestat f in
          match r with
          | None => ret (-1)
          | Some v => store_stat st v;;; ret 0
          end
      end
  end.

(** ** Links *)

(** [ip->nlink += d; iupdate(ip);], with [nlink] a short. *)
Definition add_nlink (ip : nat) (d : Z) : M fs unit :=
  modify (upd_inode ip (fun i => i_set_nlink (s16 (i_nlink i + d)) i));;;
  iupdate ip.

(** The label [bad] of [sys_link]. *)
Definition link_bad (ip : nat) : M fs Z :=
  ilock (Some ip);;;
  add_nlink ip (-1);;;
  iunlockput ip;;;
  ret (-1).

Definition link (old new : list Z) : M fs Z :=
  let! oip := namei old in
  match oip with
  | None => ret (-1)
  | Some ip =>
      ilock (Some ip);;;
      let! i := gets (inode_at ip) in
      if i_type i =? T_DIR then iunlockput ip;;; ret (-1)
      else
        add_nlink ip 1;;;
        iunlock (Some ip);;;
        let! r := nameiparent new (zeros DIRSIZ) in
        match fst r with
        | None => link_bad ip
        | Some dp =>
            ilock (Some dp);;;
            let! i := gets (inode_at ip) in
            let! d := gets (inode_at dp) in
            if negb (i_dev d =? i_dev i) then iunlockput dp;;; link_bad ip
            else
              let! e := dirlink dp (snd r) (i_inum i) in
              if e <? 0 then iunlockput dp;;; link_bad ip
              else iunlockput dp;;; iput ip;;; ret 0
        end
  end.

Definition sys_link : M kern Z :=
  let! old := argstr 0 in
  match old with
  | None => ret (-1)
  | Some old =>
      let! new := argstr 1 in
      match new with
      | None => ret (-1)
      | Some new =>
          let! o := gets (umem old) in
          let! n := gets (umem new) in
          zoom fs_of_kern (link o n)
      end
  end.

(** The entries after the first two are free. *)
Definition isdirempty (dp : nat) : M fs bool :=
  let! i := gets (inode_at dp) in
  let! r := for_find (range (2 * sizeof_dirent) (i_size i) sizeof_dirent) (fun off =>
    let! r := readi dp off sizeof_dirent in
    if negb (fst r =? sizeof_dirent) then panic "isdirempty: readi"
    else ret (if de_inum (dirent_at 0 (snd r)) =? 0 then None else Some false)) in
  ret (default true r).

Definition DOT : list Z := [46; 0].
Definition DOTDOT : list Z := [46; 46; 0].

Definition unlink (path : list Z) : M fs Z :=
  let! r := nameiparent path (zeros DIRSIZ) in
  match fst r with
  | None => ret (-1)
  | Some dp =>
      let name := snd r in
      ilock (Some dp);;;
      if (namecmp name DOT =? 0) || (namecmp name DOTDOT =? 0) then iunlockput dp;;; ret (-1)
      else
        let! e := dirlookup dp name in
        match e with
        | None => iunlockput dp;;; ret (-1)
        | Some (ip, off) =>
            ilock (Some ip);;;
            let! i := gets (inode_at ip) in
            if i_nlink i <? 1 then panic "unlink: nlink < 1"
            else
              let! busy := (if i_type i =? T_DIR
                            then let! e := isdirempty ip in ret (negb e) else ret false) in
              if (busy : bool) then iunlockput ip;;; iunlockput dp;;; ret (-1)
              else
                let! n := writei dp (zeros sizeof_dirent) off sizeof_dirent in
                if negb (n =? sizeof_dirent) then panic "unlink: writei"
                else
                  let! i := gets (inode_at ip) in
                  (if i_type i =? T_DIR then add_nlink dp (-1) else ret tt);;;
                  iunlockput dp;;;
                  add_nlink ip (-1);;;
                  iunlockput ip;;;
                  ret 0
        end
  end.

Definition sys_unlink : M kern Z :=
  let! path := argstr 0 in
  match path with
  | None => ret (-1)
  | Some path => let! p := gets (umem path) in zoom fs_of_kern (unlink p)
  end.

(** ** Creating and opening *)

(** The new inode of [create], locked and with its fields set. *)
Definition create_inode (ip : nat) (major minor : Z) : M fs unit :=
  ilock (Some ip);;;
  modify (upd_inode ip (i_set_major (s16 major)));;;
  modify (upd_inode ip (i_set_minor (s16 minor)));;;
  modify (upd_inode ip (i_set_nlink 1));;;
  iupdate ip.

(** The entries [.] and [..] of a new directory. *)
Definition create_dots (dp ip : nat) : M fs unit :=
  add_nlink dp 1;;;
  let! i := gets (inode_at ip) in
  let! r := dirlink ip DOT (i_inum i) in
  if r <? 0 then panic "create dots"
  else
    let! d := gets (inode_at dp) in
    let! r := dirlink ip DOTDOT (i_inum d) in
    if r <? 0 then panic "create dots" else ret tt.

Definition create (path : list Z) (type major minor : Z) : M fs (option nat) :=
  let! r := nameiparent path (zeros DIRSIZ) in
  match fst r with
  | None => ret None
  | Some dp =>
      let name := snd r in
      ilock (Some dp);;;
      let! e := dirlookup dp name in
      match e with
      | Some (ip, _) =>
          iunlockput dp;;;
          ilock (Some ip);;;
          let! i := gets (inode_at ip) in
          if (type =? T_FILE) && (i_type i =? T_FILE) then ret (Some ip)
          else iunlockput ip;;; ret None
      | None =>
          let! d := gets (inode_at dp) in
          let! ip := ialloc (i_dev d) type in
          create_inode ip major minor;;;
          (if type =? T_DIR then create_dots dp ip else ret tt);;;
          let! i := gets (inode_at ip) in
          let! r := dirlink dp name (i_inum i) in
          if r <? 0 then panic "create: dirlink"
          else iunlockput dp;;; ret (Some ip)
      end
  end.

(** The inode [sys_open] opens, locked. *)
Definition open_inode (path : list Z) (omode : Z) : M fs (option nat) :=
  if negb (Z.land omode O_CREATE =? 0) then create path T_FILE 0 0
  else
    let! oip := namei path in
    match oip with
    | None => ret None
    | Some ip =>
        ilock (Some ip);;;
        let! i := gets (inode_at ip) in
        if (i_type i =? T_DIR) && negb (omode =? O_RDONLY) then iunlockput ip;;; ret None
        else ret (Some ip)
    end.

Definition bz (b : bool) : Z := if b then 1 else 0.

(** The fields of the opened file. *)
Definition open_file (ip : nat) (omode : Z) (f : file) : file :=
  f_set_writable (bz (negb (Z.land omode O_WRONLY =? 0) || negb (Z.land omode O_RDWR =? 0)))
    (f_set_readable (bz (Z.land omode O_WRONLY =? 0))
      (f_set_off 0 (f_set_ip (Some ip) (f_set_type FD_INODE f)))).

(** From the locked inode to the descriptor. *)
Definition open_fd (ip : nat) (omode : Z) : M kern Z :=
  let! fo := filealloc in
  match fo with
  | None => zoom fs_of_kern (iunlockput ip);;; ret (-1)
  | Some f =>
      let! fd := fdalloc f in
      if fd <? 0 then fileclose kend f;;; zoom fs_of_kern (iunlockput ip);;; ret (-1)
      else
        zoom fs_of_kern (iunlock (Some ip));;;
        modify (upd_file f (open_file ip omode));;;
        ret fd
  end.

Definition sys_open : M kern Z :=
  let! path := argstr 0 in
  match path with
  | None => ret (-1)
  | Some path =>
      let! omode := argint 1 in
      match omode with
      | None => ret (-1)
      | Some omode =>
          let! p := gets (umem path) in
          let! oip := zoom fs_of_kern (open_inode p omode) in
          match oip with
          | None => ret (-1)
          | Some ip => open_fd ip omode
          end
      end
  end.

(** [create], and the new inode released. *)
Definition make (path : list Z) (type major minor : Z) : M fs Z :=
  let! oip := create path type major minor in
  match oip with
  | None => ret (-1)
  | Some ip => iunlockput ip;;; ret 0
  end.

Definition sys_mkdir : M kern Z :=
  let! path := argstr 0 in
  match path with
  | None => ret (-1)
  | Some path => let! p := gets (umem path) in zoom fs_of_kern (make p T_DIR 0 0)
  end.

Definition sys_mknod : M kern Z :=
  let! path := argstr 0 in
  match path with
  | None => ret (-1)
  | Some path =>
      let! major := argint 1 in
      match major with
      | None => ret (-1)
      | Some major =>
          let! minor := argint 2 in
          match minor with
          | None => ret (-1)
          | Some minor => let! p := gets (umem path) in zoom fs_of_kern (make p T_DEV major minor)
          end
      end
  end.

Definition chdir (path : list Z) : M fs Z :=
  let! oip := namei path in
  match oip with
  | None => ret (-1)
  | Some ip =>
      ilock (Some ip);;;
      let! i := gets (inode_at ip) in
      if negb (i_type i =? T_DIR) then iunlockput ip;;; ret (-1)
      else
        iunlock (Some ip);;;
        let! cwd := gets (fun s => p_cwd (cur_proc (lget pt_of_fs s))) in
        match cwd with Some c => iput c | None => ret tt end;;;
        zoom pt_of_fs (modify (upd_cur (p_set_cwd (Some ip))));;;
        ret 0
  end.

Definition sys_chdir : M kern Z :=
  let! path := argstr 0 in
  match path with
  | None => ret (-1)
  | Some path => let! p := gets (umem path) in zoom fs_of_kern (chdir p)
  end.

(** The error exit of [sys_pipe]. *)
Definition pipe_bad (fd0 : Z) (rf wf : nat) : M kern Z :=
  (if 0 <=? fd0 then set_ofile fd0 None else ret tt);;;
  fileclose kend rf;;;
  fileclose kend wf;;;
  ret (-1).

Definition sys_pipe : M kern Z :=
  let! fd := argptr 0 8 in
  match fd with
  | None => ret (-1)
  | Some fd =>
      let! r := pipealloc kend in
      match r with
      | None => ret (-1)
      | Some (rf, wf) =>
          let! fd0 := fdalloc rf in
          if fd0 <? 0 then pipe_bad fd0 rf wf
          else
            let! fd1 := fdalloc wf in
            if fd1 <? 0 then pipe_bad fd0 rf wf
            else
              ustore fd (le_enc 4 (u32 fd0));;;
              ustore (fd + 4) (le_enc 4 (u32 fd1));;;
              ret 0
      end
  end.

(** ** Tags *)

(** [n] bytes of user memory; a byte that is not mapped counts as 0. *)
Definition umem_n (va n : Z) (s : kern) : list Z := (fun a => default 0 (ubyte a s)) <$> seqZ va n.

(** [tagFile] reads at most 18 bytes of the value. *)
Definition sys_tagFile : M kern Z :=
  let! fd := argint 0 in
  match fd with
  | None => ret (-1)
  | Some fd =>
      let! key := argstr 1 in
      match key with
      | None => ret (-1)
      | Some key =>
          let! valueLength := argint 3 in
          match valueLength with
          | None => ret (-1)
          | Some valueLength =>
              let! value := argstr_nonull 2 valueLength in
              match value with
              | None => ret (-1)
              | Some value =>
                  let! k := gets (uptr key) in
                  let! v := gets (umem_n value 18) in
                  tagFile fd k (Cptr value v) valueLength
              end
          end
      end
  end.

Definition sys_removeFileTag : M kern Z :=
  let! fd := argint 0 in
  match fd with
  | None => ret (-1)
  | Some fd =>
      let! key := argstr 1 in
      match key with
      | None => ret (-1)
      | Some key => let! k := gets (uptr key) in removeFileTag fd k
      end
  end.

Definition sys_getFileTag : M kern Z :=
  let! fd := argint 0 in
  match fd with
  | None => ret (-1)
  | Some fd =>
      let! key := argstr 1 in
      match key with
      | None => ret (-1)
      | Some key =>
          let! buffer := argstr 2 in
          match buffer with
          | None => ret (-1)
          | Some buffer =>
              let! length := argint 3 in
              match length with
              | None => ret (-1)
              | Some length =>
                  let! k := gets (uptr key) in
                  let! r := getFileTag fd k length in
                  ustore buffer (snd r);;; ret (fst r)
              end
          end
      end
  end.

(** [sizeof(struct Key)]. *)
Definition sizeof_Key : Z := 10.

Definition sys_getAllTags : M kern Z :=
  let! fd := argint 0 in
  match fd with
  | None => ret (-1)
  | Some fd =>
      let! maxTags := argint 2 in
      match maxTags with
      | None => ret (-1)
      | Some maxTags =>
          let! keys := argptr 1 (s32 (sizeof_Key * maxTags)) in
          match keys with
          | None => ret (-1)
          | Some keys =>
              let! r := getAllTags fd keys maxTags in
              for_each (imap pair (snd r)) (fun '(j, k) => ustore (keys + sizeof_Key * Z.of_nat j) k);;;
              ret (fst r)
          end
      end
  end.

Definition sys_getFilesByTag : M kern Z :=
  let! key := argstr 0 in
  match key with
  | None => ret (-1)
  | Some key =>
      let! value := argstr 1 in
      match value with
      | None => ret (-1)
      | Some value =>
          let! valueLength := argint 2 in
          match valueLength with
          | None => ret (-1)
          | Some valueLength =>
              let! results := argstr 3 in
              match results with
              | None => ret (-1)
              | Some results =>
                  let! resultsLength := argint 4 in
                  match resultsLength with
                  | None => ret (-1)
                  | Some resultsLength =>
                      let! k := gets (uptr key) in
                      let! v := gets (uptr value) in
                      let! old := gets (umem results) in
                      let! r := getFilesByTag k v valueLength old resultsLength in
                      ustore results (snd r);;; ret (fst r)
                  end
              end
          end
      end
  end.

End sysfile.
