(* ===== verification/Exec.v ===== *)
(** * Program loading (kernel/exec.c, kernel/elf.h, [loaduvm] of kernel/vm.c)

    [exec] builds a new address space from an ELF file and the argument
    strings, and commits to it only when everything has succeeded. *)

From S2P Require Import Prelude Monad Params CString Kalloc ProcTable Pipe Ide Bio Block Inode.
From S2P Require Import Content Dir Path Vm File Tags Args Sysfile.

(** ** kernel/elf.h *)

Definition ELF_MAGIC : Z := 0x464C457F.
Definition ELF_PROG_LOAD : Z := 1.
Definition sizeof_elfhdr : Z := 52.
Definition sizeof_proghdr : Z := 32.

Record elfhdr := Elfhdr { elf_magic : Z; elf_entry : Z; elf_phoff : Z; elf_phnum : Z }.
Definition elfhdr_at (d : list Z) : elfhdr :=
  Elfhdr (get32 0 d) (get32 24 d) (get32 28 d) (get16 44 d).

Record proghdr := Proghdr { ph_type : Z; ph_offset : Z; ph_va : Z; ph_filesz : Z; ph_memsz : Z }.
Definition proghdr_at (d : list Z) : proghdr :=
  Proghdr (get32 0 d) (get32 4 d) (get32 8 d) (get32 16 d) (get32 20 d).

(** ** Trap frame and name *)

Definition tf_set_eip (v : Z) (t : trapframe) : trapframe :=
  Trapframe (tf_edi t) (tf_esi t) (tf_ebp t) (tf_oesp t) (tf_ebx t) (tf_edx t)
    (tf_ecx t) (tf_eax t) (tf_gs t) (tf_fs t) (tf_es t) (tf_ds t) (tf_trapno t) (tf_err t)
    v (tf_cs t) (tf_eflags t) (tf_esp t) (tf_ss t).
Definition tf_set_esp (v : Z) (t : trapframe) : trapframe :=
  Trapframe (tf_edi t) (tf_esi t) (tf_ebp t) (tf_oesp t) (tf_ebx t) (tf_edx t)
    (tf_ecx t) (tf_eax t) (tf_gs t) (tf_fs t) (tf_es t) (tf_ds t) (tf_trapno t) (tf_err t)
    (tf_eip t) (tf_cs t) (tf_eflags t) v (tf_ss t).

(** [for(last=s=path; *s; s++) if( *s == '/') last = s+1;] *)
Fixpoint last_elem (last s : list Z) : list Z :=
  match s with
  | [] => last
  | c :: s' => if c =? 0 then last else last_elem (if c =? SLASH then s' else last) s'
  end.

(** [safestrcpy(p->name, s, sizeof(p->name))]. *)
Definition set_name (s : list Z) (p : proc) : proc :=
  p_set_name (splice 0 (safestrcpy_loop 15 s) (p_name p)) p.

Section exec.
Context {DV : Devsw} (kend kdata : Z).

(** ** loaduvm *)

(** One page of the segment: [Some (-1)] leaves the loop. *)
Definition load_page (pgdir addr : Z) (ip : nat) (offset sz i : Z) : M kern (option Z) :=
  let! pte := zoom mem_of_kern (walkpgdir pgdir (u32 (addr + i)) false) in
  match pte with
  | None => panic "loaduvm: address should exist"
  | Some p =>
      let! e := gets (fun s => pte_get p (k_mem s)) in
      let pa := PTE_ADDR e in
      let n := if sz - i <? PGSIZE then sz - i else PGSIZE in
      let! r := zoom fs_of_kern (readi ip (u32 (offset + i)) n) in
      modify (fun s => k_set_mem (km_set_page
        (<[pa := splice 0 (snd r) (page_at pa (k_mem s))]> (km_page (k_mem s))) (k_mem s)) s);;;
      ret (if u32 (fst r) =? n then None else Some (-1))
  end.

Definition loaduvm (pgdir addr : Z) (ip : nat) (offset sz : Z) : M kern Z :=
  if negb (addr mod PGSIZE =? 0) then panic "loaduvm: addr must be page aligned"
  else
    let! r := for_find (range 0 sz PGSIZE) (load_page pgdir addr ip offset sz) in
    ret (default 0 r).

(** ** exec *)

(** The exit [bad]. *)
Definition exec_bad (pgdir : Z) (oip : option nat) : M kern Z :=
  (if pgdir =? 0 then ret tt else zoom mem_of_kern (freevm kend pgdir));;;
  match oip with Some ip => zoom fs_of_kern (iunlockput ip) | None => ret tt end;;;
  ret (-1).

(** One program header: the new size, or [inr] for the jump to [bad]. *)
Definition load_segment (pgdir : Z) (ip : nat) (phoff sz i : Z) : M kern (Z + unit) :=
  let! r := zoom fs_of_kern (readi ip (u32 (phoff + i * sizeof_proghdr)) sizeof_proghdr) in
  if negb (u32 (fst r) =? sizeof_proghdr) then ret (inr tt)
  else
    let ph := proghdr_at (snd r) in
    if negb (ph_type ph =? ELF_PROG_LOAD) then ret (inl sz)
    else if ph_memsz ph <? ph_filesz ph then ret (inr tt)
    else
      let! sz' := zoom mem_of_kern (allocuvm kend pgdir sz (u32 (ph_va ph + ph_memsz ph))) in
      if sz' =? 0 then ret (inr tt)
      else
        let! r := loaduvm pgdir (ph_va ph) ip (ph_offset ph) (ph_filesz ph) in
        if r <? 0 then ret (inr tt) else ret (inl sz').

(** Pushing one argument string: the stack pointer and the addresses so
    far. *)
Definition push_arg (pgdir : Z) '(sp, ustack) (arg : list Z) : M kern ((Z * list Z) + unit) :=
  if MAXARG <=? Z.of_nat (length ustack) then ret (inr tt)
  else
    let sp := Z.land (u32 (sp - (strlen arg + 1))) (u32 (Z.lnot 3)) in
    let! r := zoom mem_of_kern (copyout pgdir sp (slice 0 (strlen arg + 1) arg) (strlen arg + 1)) in
    if r <? 0 then ret (inr tt) else ret (inl (sp, ustack ++ [sp])).

(** The words below the strings: a fake return address, [argc], [argv] and
    the pointers. *)
Definition ustack_words (sp : Z) (ustack : list Z) : list Z :=
  let argc := Z.of_nat (length ustack) in
  [0xffffffff; argc; u32 (sp - (argc + 1) * 4)] ++ ustack ++ [0].

Definition push_args (pgdir sz : Z) (argv : list (list Z)) : M kern (Z + unit) :=
  let! r := for_fold argv (push_arg pgdir) (sz, []) in
  match r with
  | inr _ => ret (inr tt)
  | inl (sp, ustack) =>
      let ws := ustack_words sp ustack in
      let sp := u32 (sp - 4 * Z.of_nat (length ws)) in
      let! r := zoom mem_of_kern (copyout pgdir sp (ws ≫= le_enc 4) (4 * Z.of_nat (length ws))) in
      if r <? 0 then ret (inr tt) else ret (inl sp)
  end.

(** The switch to the new image. *)
Definition exec_commit (path : list Z) (pgdir sz entry sp : Z) : M kern Z :=
  zoom pt_of_kern (modify (upd_cur (set_name (last_elem path path))));;;
  let! old := gets (fun s => p_pgdir (curproc s)) in
  zoom pt_of_kern (modify (upd_cur (fun p =>
    p_set_tf (tf_set_esp sp (tf_set_eip entry (p_tf p))) (p_set_sz sz (p_set_pgdir pgdir p)))));;;
  zoom mem_of_kern (freevm kend old);;;
  ret 0.

(** The stack page, the arguments and the commit. *)
Definition exec_stack (path : list Z) (argv : list (list Z)) (pgdir sz entry : Z) : M kern Z :=
  let sz := PGROUNDUP sz in
  let! sz := zoom mem_of_kern (allocuvm kend pgdir sz (u32 (sz + PGSIZE))) in
  if sz =? 0 then exec_bad pgdir None
  else
    let! r := push_args pgdir sz argv in
    match r with
    | inr _ => exec_bad pgdir None
    | inl sp => exec_commit path pgdir sz entry sp
    end.

Definition exec (path : list Z) (argv : list (list Z)) : M kern Z :=
  let! oip := zoom fs_of_kern (namei path) in
  match oip with
  | None => ret (-1)
  | Some ip =>
      zoom fs_of_kern (ilock (Some ip));;;
      let! r := zoom fs_of_kern (readi ip 0 sizeof_elfhdr) in
      let elf := elfhdr_at (snd r) in
      if u32 (fst r) <? sizeof_elfhdr then exec_bad 0 (Some ip)
      else if negb (elf_magic elf =? ELF_MAGIC) then exec_bad 0 (Some ip)
      else
        let! pgdir := zoom mem_of_kern (setupkvm kdata) in
        if pgdir =? 0 then exec_bad 0 (Some ip)
        else
          let! r := for_fold (seqZ 0 (elf_phnum elf)) (load_segment pgdir ip (elf_phoff elf)) 0 in
          match r with
          | inr _ => exec_bad pgdir (Some ip)
          | inl sz =>
              zoom fs_of_kern (iunlockput ip);;;
              exec_stack path argv pgdir sz (elf_entry elf)
          end
  end.

(** ** sys_exec *)

(** One word of [argv]: the strings so far, or [inr None] for an error and
    [inr (Some argv)] at the null pointer. *)
Definition exec_arg (uargv : Z) (argv : list (list Z)) (i : Z)
  : M kern (list (list Z) + option (list (list Z))) :=
  let! uarg := fetchint (u32 (uargv + 4 * i)) in
  match uarg with
  | None => ret (inr None)
  | Some uarg =>
      if u32 uarg =? 0 then ret (inr (Some argv))
      else
        let! n := fetchstr (u32 uarg) in
        match n with
        | None => ret (inr None)
        | Some _ => let! s := gets (umem (u32 uarg)) in ret (inl (argv ++ [s]))
        end
  end.

Definition sys_exec : M kern Z :=
  let! path := argstr 0 in
  match path with
  | None => ret (-1)
  | Some path =>
      let! uargv := argint 1 in
      match uargv with
      | None => ret (-1)
      | Some uargv =>
          let! r := for_fold (seqZ 0 MAXARG) (exec_arg (u32 uargv)) [] in
          match r with
          | inr (Some argv) => let! p := gets (umem path) in exec p argv
          | _ => ret (-1)
          end
      end
  end.

End exec.
