(* ===== verification/Proc.v ===== *)
(** * Processes (kernel/proc.c)

    Creating, ending, waiting for and scheduling processes.  What an operation
    does to the process table is a function on the table; the operations on
    the whole kernel state call it between their uses of memory and files. *)

From S2P Require Import Prelude Monad Params CString Kalloc ProcTable Pipe Ide Bio Block Inode.
From S2P Require Import Content Itrunc Dir Path Vm File Tags Args Sysfile Exec.

(** ** The table *)

(** [allocproc], the part under the lock: the first unused slot. *)
Definition alloc_slot (t : ptable) : option (nat * ptable) :=
  match list_find (fun p => p_state p = UNUSED) (pt_proc t) with
  | None => None
  | Some (i, _) =>
      Some (i, pt_set_nextpid (s32 (pt_nextpid t + 1))
        (upd_proc i (fun p => p_set_pid (pt_nextpid t) (p_set_state EMBRYO p)) t))
  end.

(** A slot given up before the process was complete. *)
Definition free_slot (i : nat) (t : ptable) : ptable := upd_proc i (p_set_state UNUSED) t.

(** [fork] once memory and files are there: the child [np] of the current
    process. *)
Definition fork_slot (np : nat) (pgdir : Z) (ofile : list (option nat)) (t : ptable) : ptable :=
  let cur := cur_proc t in
  upd_proc np (fun p =>
    set_name (p_name cur)
     (p_set_state RUNNABLE
      (p_set_cwd (p_cwd cur)
       (p_set_ofile ofile
        (p_set_tf (tf_set_eax 0 (p_tf cur))
         (p_set_parent (pt_cur t)
          (p_set_sz (p_sz cur) (p_set_pgdir pgdir p)))))))) t.

(** One round of [exit]'s loop over the table: a child goes to [initproc],
    which is woken if the child is a zombie. *)
Definition is_child (t : ptable) (parent : option nat) (i : nat) : bool :=
  bool_decide (p_parent (proc_at i t) = parent).

Definition opt_chan (o : option nat) : chan := match o with Some i => ChProc i | None => ChNone end.

Definition exit_child (t : ptable) (i : nat) : ptable :=
  if is_child t (pt_cur t) i then
    let t1 := upd_proc i (p_set_parent (pt_initproc t)) t in
    if decide (p_state (proc_at i t) = ZOMBIE) then wakeup1 (opt_chan (pt_initproc t)) t1 else t1
  else t.

(** [exit], the part under the lock. *)
Definition exit_slot (t : ptable) : ptable :=
  let t1 := wakeup1 (opt_chan (p_parent (cur_proc t))) t in
  let t2 := foldl exit_child t1 (seq 0 (length (pt_proc t))) in
  upd_cur (p_set_state ZOMBIE) t2.

(** What [wait] finds: a zombie child, a reason to give up, or a reason to
    sleep. *)
Inductive wait_result := WaitReap (i : nat) | WaitNone | WaitSleep.

Definition wait_scan (t : ptable) : wait_result :=
  let kids := filter (fun i => p_parent (proc_at i t) = pt_cur t) (seq 0 (length (pt_proc t))) in
  match filter (fun i => p_state (proc_at i t) = ZOMBIE) kids with
  | i :: _ => WaitReap i
  | [] => if bool_decide (kids = []) || negb (p_killed (cur_proc t) =? 0) then WaitNone else WaitSleep
  end.

(** The slot of a zombie after [wait] took it. *)
Definition reap_slot (i : nat) (t : ptable) : ptable :=
  upd_proc i (fun p =>
    p_set_killed 0
     (p_set_name (<[0%nat := 0]> (p_name p))
      (p_set_parent None
       (p_set_pid 0
        (p_set_state UNUSED (p_set_kstack 0 p)))))) t.

(** The scheduler's choice, and the switch back to it. *)
Definition run_slot (i : nat) (t : ptable) : ptable :=
  upd_proc i (p_set_state RUNNING) (pt_set_cur (Some i) t).
Definition switch_out (t : ptable) : ptable := pt_set_cur None t.

(** [yield], up to the switch. *)
Definition yield_slot (t : ptable) : ptable := upd_cur (p_set_state RUNNABLE) t.

(** ** Operations of the kernel *)

Section proc.
Context {DV : Devsw} (kend kdata : Z).

(** The trap frame at the top of a kernel stack. *)
Definition sizeof_trapframe : Z := 76.
Definition trapframe_at (o : Z) (d : list Z) : trapframe :=
  Trapframe (get32 o d) (get32 (o + 4) d) (get32 (o + 8) d) (get32 (o + 12) d)
    (get32 (o + 16) d) (get32 (o + 20) d) (get32 (o + 24) d) (get32 (o + 28) d)
    (get16 (o + 32) d) (get16 (o + 36) d) (get16 (o + 40) d) (get16 (o + 44) d)
    (get32 (o + 48) d) (get32 (o + 52) d) (get32 (o + 56) d) (get16 (o + 60) d)
    (get32 (o + 64) d) (get32 (o + 68) d) (get16 (o + 72) d).

(** [p->tf] is where it is on the new stack, not yet initialised. *)
Definition allocproc : M kern (option nat) :=
  let! r := gets (fun s => alloc_slot (lget pt_of_kern s)) in
  match r with
  | None => ret None
  | Some (i, t) =>
      zoom pt_of_kern (modify (fun _ => t));;;
      let! kstack := zoom mem_of_kern kalloc in
      zoom pt_of_kern (modify (upd_proc i (p_set_kstack kstack)));;;
      if kstack =? 0 then zoom pt_of_kern (modify (free_slot i));;; ret None
      else
        let! page := gets (fun s => page_at kstack (k_mem s)) in
        zoom pt_of_kern (modify (upd_proc i (fun p =>
          p_set_context (Context 0 0 0 0 Kforkret)
            (p_set_tf (trapframe_at (KSTACKSIZE - sizeof_trapframe) page) p))));;;
        ret (Some i)
  end.

(** The trap frame of the first process. *)
Definition SEG_UCODE : Z := 4.
Definition SEG_UDATA : Z := 5.
Definition DPL_USER : Z := 3.
Definition FL_IF : Z := 0x200.
Definition user_tf : trapframe :=
  let ds := Z.lor (Z.shiftl SEG_UDATA 3) DPL_USER in
  Trapframe 0 0 0 0 0 0 0 0 0 0 ds ds 0 0 0 (Z.lor (Z.shiftl SEG_UCODE 3) DPL_USER) FL_IF PGSIZE ds.

(** "initcode" and "/". *)
Definition initcode_name : list Z := [105; 110; 105; 116; 99; 111; 100; 101; 0].
Definition root_path : list Z := [SLASH; 0].

(** [initcode] is the program the build embeds in the kernel. *)
Definition userinit (initcode : list Z) : M kern unit :=
  let! op := allocproc in
  zoom pt_of_kern (modify (pt_set_initproc op));;;
  match op with
  | None => panic "userinit: out of memory?"
  | Some p =>
      let! pgdir := zoom mem_of_kern (setupkvm kdata) in
      if pgdir =? 0 then panic "userinit: out of memory?"
      else
        zoom mem_of_kern (inituvm pgdir initcode (Z.of_nat (length initcode)));;;
        zoom pt_of_kern (modify (upd_proc p (fun x =>
          set_name initcode_name (p_set_tf user_tf (p_set_sz PGSIZE (p_set_pgdir pgdir x))))));;;
        let! cwd := zoom fs_of_kern (namei root_path) in
        zoom pt_of_kern (modify (upd_proc p (fun x => p_set_state RUNNABLE (p_set_cwd cwd x))))
  end.

Definition growproc (n : Z) : M kern Z :=
  let! p := gets curproc in
  let sz := p_sz p in
  let! r :=
    (if 0 <? n then zoom mem_of_kern (allocuvm kend (p_pgdir p) sz (u32 (sz + n)))
     else if n <? 0 then zoom mem_of_kern (deallocuvm kend (p_pgdir p) sz (u32 (sz + n)))
     else ret sz) in
  if negb (n =? 0) && (r =? 0) then ret (-1)
  else zoom pt_of_kern (modify (upd_cur (p_set_sz r)));;; ret 0.

(** The child's descriptors: those of the parent, duplicated. *)
Definition fork_file (np : nat) (i : nat) : M kern unit :=
  let! p := gets curproc in
  match default None (p_ofile p !! i) with
  | None => ret tt
  | Some f =>
      let! f := filedup f in
      zoom pt_of_kern (modify (upd_proc np (fun x => p_set_ofile (<[i := Some f]> (p_ofile x)) x)))
  end.

Definition fork : M kern Z :=
  let! onp := allocproc in
  match onp with
  | None => ret (-1)
  | Some np =>
      let! cur := gets curproc in
      let! pgdir := zoom mem_of_kern (copyuvm kend kdata (p_pgdir cur) (p_sz cur)) in
      let! kstack := gets (fun s => p_kstack (proc_at np (lget pt_of_kern s))) in
      if pgdir =? 0 then
        zoom mem_of_kern (kfree kend kstack);;;
        zoom pt_of_kern (modify (fun t => free_slot np (upd_proc np (p_set_kstack 0) t)));;;
        ret (-1)
      else
        for_each (seq 0 (Z.to_nat NOFILE)) (fork_file np);;;
        match p_cwd cur with
        | Some c => let! _ := zoom fs_of_kern (idup c) in ret tt
        | None => ret tt
        end;;;
        let! ofile := gets (fun s => p_ofile (proc_at np (lget pt_of_kern s))) in
        zoom pt_of_kern (modify (fork_slot np pgdir ofile));;;
        let! pid := gets (fun s => p_pid (proc_at np (lget pt_of_kern s))) in
        ret pid
  end.

(** Closing one descriptor of the current process. *)
Definition exit_file (fd : nat) : M kern unit :=
  let! p := gets curproc in
  match default None (p_ofile p !! fd) with
  | None => ret tt
  | Some f => fileclose kend f;;; set_ofile (Z.of_nat fd) None
  end.

(** [exit], up to the switch to the scheduler from which there is no
    return. *)
Definition exit : M kern unit :=
  let! t := gets (lget pt_of_kern) in
  if decide (pt_cur t = pt_initproc t) then panic "init exiting"
  else
    for_each (seq 0 (Z.to_nat NOFILE)) exit_file;;;
    let! p := gets curproc in
    match p_cwd p with Some c => zoom fs_of_kern (iput c) | None => ret tt end;;;
    zoom pt_of_kern (modify (upd_cur (p_set_cwd None)));;;
    zoom pt_of_kern (modify exit_slot).

(** A child's pid, or -1; it may sleep on the process itself. *)
Definition wait : M kern Z :=
  let! t := gets (lget pt_of_kern) in
  match wait_scan t with
  | WaitReap i =>
      let p := proc_at i t in
      zoom mem_of_kern (kfree kend (p_kstack p));;;
      zoom mem_of_kern (freevm kend (p_pgdir p));;;
      zoom pt_of_kern (modify (reap_slot i));;;
      ret (p_pid p)
  | WaitNone => ret (-1)
  | WaitSleep => zoom pt_of_kern (sleep (opt_chan (pt_cur t)))
  end.

End proc.
