(* ===== verification/ProcInv.v ===== *)
(** * The process table under every interleaving (kernel/proc.c)

    The operations of Proc, ProcTable and the scheduler as steps of a
    processor on the process table ([proc_step]), and the interleavings of
    those of any number of processors ([mp_step]); [ptable.lock] makes each
    step one.  In every reachable state the processes of the processors are
    the RUNNING ones, every process has a live parent, and no process sleeps
    in [wait] while one of its children is a zombie ([proc_inv], [mp_inv]);
    pids are unique as long as the counter [nextpid] has not wrapped around
    ([pid_inv]). *)

From stdpp Require Import relations.
From S2P Require Import Prelude Monad Params CString ProcTable Vm Exec Proc.

(** ** Steps *)

Definition sleep_slot (c : chan) (t : ptable) : ptable :=
  upd_cur (fun p => p_set_state SLEEPING (p_set_chan c p)) t.

Inductive proc_step : ptable -> ptable -> Prop :=
(** [scheduler] picks a runnable process. *)
| St_run t i p :
    pt_cur t = None -> pt_proc t !! i = Some p -> p_state p = RUNNABLE -> proc_step t (run_slot i t)
(** [yield] and the switch to the scheduler. *)
| St_yield t : has_cur t -> proc_step t (switch_out (yield_slot t))
(** [sleep] on something other than the process itself. *)
| St_sleep t i c :
    pt_cur t = Some i -> (i < length (pt_proc t))%nat -> c <> ChProc i ->
    proc_step t (switch_out (sleep_slot c t))
(** [wait] finds children but no zombie. *)
| St_wait t :
    has_cur t -> wait_scan t = WaitSleep -> proc_step t (switch_out (sleep_slot (opt_chan (pt_cur t)) t))
(** [wait] finds a zombie. *)
| St_reap t i : has_cur t -> wait_scan t = WaitReap i -> proc_step t (reap_slot i t)
| St_wakeup t c : proc_step t (wakeup1 c t)
| St_kill t pid r t' : kill pid t = Ret r t' -> proc_step t t'
(** [allocproc] takes a slot and may give it back. *)
| St_alloc t i t' :
    alloc_slot t = Some (i, t') -> proc_step t t'
| St_free t i p :
    pt_proc t !! i = Some p -> p_state p = EMBRYO -> proc_step t (free_slot i t)
(** [fork] completes the child. *)
| St_fork t i p pgdir ofile :
    has_cur t -> pt_proc t !! i = Some p -> p_state p = EMBRYO -> proc_step t (fork_slot i pgdir ofile t)
(** [exit] and the switch to the scheduler. *)
| St_exit t :
    has_cur t -> pt_cur t <> pt_initproc t -> proc_step t (switch_out (exit_slot t)).

(** ** Slots *)

Definition fresh (p : proc) : Prop := p_state p = UNUSED \/ p_state p = EMBRYO.
Definition alive (p : proc) : Prop := ~ fresh p /\ p_state p <> ZOMBIE.

Lemma upd_proc_insert t i p f :
  pt_proc t !! i = Some p -> pt_proc (upd_proc i f t) = <[i := f p]> (pt_proc t).
Proof. intros Hi. cbn. by rewrite (list_alter_Some f _ i p). Qed.

Lemma upd_cur_insert t i p f :
  pt_cur t = Some i -> pt_proc t !! i = Some p -> upd_cur f t = pt_set_proc (<[i := f p]> (pt_proc t)) t.
Proof. intros Hc Hi. unfold upd_cur. rewrite Hc. unfold upd_proc. by rewrite (list_alter_Some f _ i p). Qed.

Lemma proc_at_lookup t i p : pt_proc t !! i = Some p -> proc_at i t = p.
Proof. intros H. unfold proc_at. by rewrite H. Qed.

Lemma alive_state p : alive p <-> p_state p = SLEEPING \/ p_state p = RUNNABLE \/ p_state p = RUNNING.
Proof. unfold alive, fresh. destruct (p_state p); naive_solver. Qed.

Lemma wait_scan_spec t :
  match wait_scan t with
  | WaitReap i => (i < length (pt_proc t))%nat /\ p_parent (proc_at i t) = pt_cur t /\
      p_state (proc_at i t) = ZOMBIE
  | WaitSleep => forall i, (i < length (pt_proc t))%nat -> p_parent (proc_at i t) = pt_cur t ->
      p_state (proc_at i t) <> ZOMBIE
  | WaitNone => True
  end.
Proof.
  unfold wait_scan. set (kids := filter _ (seq 0 _)).
  assert (forall i, i ∈ kids <-> (i < length (pt_proc t))%nat /\ p_parent (proc_at i t) = pt_cur t) as Hk.
  { intros i. unfold kids. rewrite list_elem_of_filter, elem_of_seq. intuition lia. }
  destruct (filter (fun i => p_state (proc_at i t) = ZOMBIE) kids) as [|i l] eqn:E.
  - destruct (_ || _); [done|]. intros i Hi Hp Hz.
    assert (i ∈ filter (fun i => p_state (proc_at i t) = ZOMBIE) kids) as Hin
      by (apply list_elem_of_filter; split; [done|by apply Hk]).
    rewrite E in Hin. by apply elem_of_nil in Hin.
  - assert (i ∈ filter (fun i => p_state (proc_at i t) = ZOMBIE) kids) as Hin by (rewrite E; left).
    apply list_elem_of_filter in Hin as [Hz Hin%Hk]. tauto.
Qed.

(** ** The table after [exit] *)

(** The loop of [exit] over the slots [L]: children of the current process
    move to [initproc], which does not sleep on if one of them is a
    zombie. *)
Definition reparented (L : list nat) (t t' : ptable) : Prop :=
  pt_cur t' = pt_cur t /\ pt_initproc t' = pt_initproc t /\ pt_nextpid t' = pt_nextpid t /\
  length (pt_proc t') = length (pt_proc t) /\
  forall i p, pt_proc t !! i = Some p -> exists p', pt_proc t' !! i = Some p' /\
    p_pid p' = p_pid p /\ p_chan p' = p_chan p /\
    p_parent p' = (if decide (i ∈ L /\ p_parent p = pt_cur t) then pt_initproc t else p_parent p) /\
    (p_state p' = p_state p \/ p_state p = SLEEPING /\ p_state p' = RUNNABLE) /\
    (p_chan p = opt_chan (pt_initproc t) ->
     (exists c q, c ∈ L /\ pt_proc t !! c = Some q /\ p_parent q = pt_cur t /\ p_state q = ZOMBIE) ->
     p_state p' <> SLEEPING).

(** A round of the loop, slot by slot. *)
Lemma exit_child_lookup t x px :
  pt_proc t !! x = Some px ->
  pt_cur (exit_child t x) = pt_cur t /\ pt_initproc (exit_child t x) = pt_initproc t /\
  pt_nextpid (exit_child t x) = pt_nextpid t /\
  length (pt_proc (exit_child t x)) = length (pt_proc t) /\
  forall i p, pt_proc t !! i = Some p -> exists p', pt_proc (exit_child t x) !! i = Some p' /\
    p_pid p' = p_pid p /\ p_chan p' = p_chan p /\
    p_parent p' = (if decide (i = x /\ p_parent p = pt_cur t) then pt_initproc t else p_parent p) /\
    (p_state p' = p_state p \/ p_state p = SLEEPING /\ p_state p' = RUNNABLE) /\
    (p_chan p = opt_chan (pt_initproc t) -> p_parent px = pt_cur t -> p_state px = ZOMBIE ->
     p_state p' <> SLEEPING).
Proof.
  intros Hx. unfold exit_child, is_child. rewrite (proc_at_lookup t x px Hx).
  destruct (bool_decide_reflect (p_parent px = pt_cur t)) as [Hp|Hp].
  - assert (forall i p, pt_proc t !! i = Some p ->
      pt_proc (upd_proc x (p_set_parent (pt_initproc t)) t) !! i =
      Some (if decide (i = x /\ p_parent p = pt_cur t) then p_set_parent (pt_initproc t) p else p)) as Hu.
    { intros i p Hi. rewrite (upd_proc_insert t x px) by done. destruct (decide (i = x)) as [->|Hne].
      - rewrite list_lookup_insert_eq by (by eapply lookup_lt_Some). rewrite decide_True by (split; congruence). congruence.
      - rewrite list_lookup_insert_ne, decide_False by (done || tauto). done. }
    case_decide as Hz; cbn [pt_cur pt_initproc pt_nextpid wakeup1 pt_set_proc upd_proc pt_proc];
      rewrite ?length_fmap, ?length_alter; (split_and!; [done..|]); intros i p Hi; specialize (Hu i p Hi).
    + rewrite list_lookup_fmap. cbn [upd_proc pt_set_proc pt_proc] in Hu. rewrite Hu. eexists. split; [done|].
      destruct (decide (i = x /\ _)), (decide (_ /\ _)) as [[Hs Hc]|Hn]; cbn in *; split_and!; try done; try (by auto);
        intros Hch _ _ Hsl; naive_solver.
    + eexists. split; [exact Hu|]. destruct (decide _); cbn; split_and!; auto; done.
  - split_and!; [done..|]. intros i p Hi. exists p. split; [done|]. rewrite decide_False; [split_and!; auto; done|].
    intros [-> E]. congruence.
Qed.

Lemma reparented_fold L t :
  NoDup L -> Forall (fun i => (i < length (pt_proc t))%nat) L -> reparented L t (foldl exit_child t L).
Proof.
  induction L as [|x L IH] using rev_ind; intros Hnd Hl.
  - split_and!; [done..|]. intros i p Hi. exists p. rewrite decide_False by (intros [H _]; by apply elem_of_nil in H).
    split_and!; auto. intros _ (c & q & Hc & _). by apply elem_of_nil in Hc.
  - apply NoDup_app in Hnd as (Hnd & Hx & _). apply Forall_app in Hl as [Hl Hlx]. rewrite Forall_singleton in Hlx.
    destruct (IH Hnd Hl) as (Ec & Ei & En & El & Hp). rewrite foldl_snoc. set (t1 := foldl exit_child t L) in *.
    destruct (lookup_lt_is_Some_2 _ _ Hlx) as [qx Hqx]. destruct (Hp x qx Hqx) as (px & Hpx & _ & _ & Epx & Hsx & _).
    assert (x ∉ L) as HxL by (intros Hin; by apply (Hx x Hin), list_elem_of_singleton).
    rewrite decide_False in Epx by tauto.
    destruct (exit_child_lookup t1 x px Hpx) as (Ec1 & Ei1 & En1 & El1 & Hp1).
    rewrite Ec, Ei, ?En in *. split_and!; [congruence..|]. intros i p Hi.
    destruct (Hp i p Hi) as (p1 & Hi1 & Eid & Ech & Epar & Hst & Hwk).
    destruct (Hp1 i p1 Hi1) as (p2 & Hi2 & Eid2 & Ech2 & Epar2 & Hst2 & Hwk2).
    exists p2. split; [done|]. split_and!; [congruence|congruence| | |].
    + assert (i ∈ L ++ [x] <-> i ∈ L \/ i = x) as Hin by (by rewrite elem_of_app, list_elem_of_singleton).
      rewrite Epar2, Epar. destruct (decide (i = x)) as [->|Hne].
      * rewrite (decide_False (P := x ∈ L /\ _)) by tauto. repeat case_decide; naive_solver.
      * rewrite (decide_False (P := i = x /\ _)) by tauto. repeat case_decide; naive_solver.
    + destruct Hst as [E|[E1 E2]], Hst2 as [E'|[E1' E2']]; rewrite ?E, ?E2 in *; auto; congruence.
    + intros Hch (c & q & [Hc| ->%list_elem_of_singleton]%elem_of_app & Hq & Hcp & Hz).
      * assert (p_state p1 <> SLEEPING) as H1 by (apply Hwk; eauto 10).
        destruct Hst2 as [E'|[E1' _]]; congruence.
      * apply Hwk2; [congruence|congruence|]. assert (q = qx) as -> by congruence.
        destruct Hsx as [E|[E _]]; congruence.
Qed.

(** The table after [exit], slot by slot. *)
Lemma exit_slot_lookup t ci pc :
  pt_cur t = Some ci -> pt_proc t !! ci = Some pc ->
  pt_cur (exit_slot t) = Some ci /\ pt_initproc (exit_slot t) = pt_initproc t /\
  pt_nextpid (exit_slot t) = pt_nextpid t /\ length (pt_proc (exit_slot t)) = length (pt_proc t) /\
  forall i p, pt_proc t !! i = Some p -> exists p', pt_proc (exit_slot t) !! i = Some p' /\
    p_pid p' = p_pid p /\ p_chan p' = p_chan p /\
    p_parent p' = (if decide (p_parent p = Some ci) then pt_initproc t else p_parent p) /\
    (if decide (i = ci) then p_state p' = ZOMBIE
     else p_state p' = p_state p \/ p_state p = SLEEPING /\ p_state p' = RUNNABLE) /\
    (i <> ci -> p_chan p = opt_chan (p_parent pc) -> p_state p' <> SLEEPING) /\
    (i <> ci -> p_chan p = opt_chan (pt_initproc t) ->
     (exists c q, pt_proc t !! c = Some q /\ p_parent q = Some ci /\ p_state q = ZOMBIE) ->
     p_state p' <> SLEEPING).
Proof.
  intros Hc Hpc. unfold exit_slot. assert (cur_proc t = pc) as -> by (unfold cur_proc; rewrite Hc; by apply proc_at_lookup).
  set (t1 := wakeup1 _ t). set (n := length (pt_proc t)).
  assert (length (pt_proc t1) = n) as Hl1 by apply length_wakeup1.
  destruct (reparented_fold (seq 0 n) t1) as (Ec & Ei & En & El & Hp).
  { apply NoDup_seq. }
  { apply Forall_forall. intros i Hi%elem_of_seq. lia. }
  set (t2 := foldl exit_child t1 (seq 0 n)) in *. cbn [t1 pt_cur pt_initproc pt_nextpid wakeup1 pt_set_proc] in Ec, Ei, En.
  destruct (Hp ci _ (wakeup1_lookup _ t ci pc Hpc)) as (pc2 & Hpc2 & _).
  rewrite (upd_cur_insert t2 ci pc2) by congruence. cbn [pt_cur pt_initproc pt_nextpid pt_proc pt_set_proc].
  rewrite length_insert. split_and!; [congruence..|]. intros i p Hi.
  destruct (Hp i _ (wakeup1_lookup _ t i p Hi)) as (p2 & Hi2 & Eid & Ech & Epar & Hst & Hwk).
  assert (i ∈ seq 0 n) as Hin by (apply elem_of_seq; split; [lia|]; by apply lookup_lt_Some in Hi).
  set (p1 := if decide (p_state p = SLEEPING /\ p_chan p = opt_chan (p_parent pc)) then p_set_state RUNNABLE p else p) in *.
  assert (p_pid p1 = p_pid p /\ p_chan p1 = p_chan p /\ p_parent p1 = p_parent p) as (E1 & E2 & E3)
    by (unfold p1; by destruct (decide _)).
  change (pt_cur t1) with (pt_cur t) in *. change (pt_initproc t1) with (pt_initproc t) in *.
  rewrite E1 in Eid. rewrite E2 in Ech, Hwk. rewrite E3, Hc in Epar.
  assert (p_parent p2 = (if decide (p_parent p = Some ci) then pt_initproc t else p_parent p)) as Epar'
    by (rewrite Epar; repeat case_decide; tauto).
  assert (p_state p1 = p_state p \/ p_state p = SLEEPING /\ p_state p1 = RUNNABLE) as Hs1
    by (unfold p1; destruct (decide _) as [[? ?]|]; cbn; tauto).
  destruct (decide (i = ci)) as [->|Hne].
  - exists (p_set_state ZOMBIE pc2). rewrite list_lookup_insert_eq by (by eapply lookup_lt_Some).
    assert (p2 = pc2) as -> by congruence. split_and!; done.
  - exists p2. rewrite list_lookup_insert_ne by done. split_and!; [done..| | |].
    + destruct Hst as [E|[E E']], Hs1 as [F|[F F']]; rewrite ?E, ?E', ?F, ?F' in *; auto; congruence.
    + intros _ Hch Hsl. unfold p1 in Hst. destruct (decide _) as [_|Hd] in Hst; cbn in Hst;
        destruct Hst as [E|[E E']]; try congruence. apply Hd. split; congruence.
    + intros _ Hch (c & q & Hq & Hcp & Hz). apply Hwk; [done|]. eexists c, _.
      split_and!; [apply elem_of_seq; split; [lia|by apply lookup_lt_Some in Hq]|by apply wakeup1_lookup|..].
      * rewrite decide_False; [congruence|]. intros [? _]. congruence.
      * rewrite decide_False; [done|]. intros [? _]. congruence.
Qed.

(** The same, from the table after [exit]. *)
Lemma exit_slot_back t ci pc i p' :
  pt_cur t = Some ci -> pt_proc t !! ci = Some pc -> pt_proc (exit_slot t) !! i = Some p' ->
  exists p, pt_proc t !! i = Some p /\ p_pid p' = p_pid p /\ p_chan p' = p_chan p /\
    p_parent p' = (if decide (p_parent p = Some ci) then pt_initproc t else p_parent p) /\
    (i = ci /\ p_state p' = ZOMBIE \/
     i <> ci /\ (p_state p' = p_state p \/ p_state p = SLEEPING /\ p_state p' = RUNNABLE)) /\
    (i <> ci -> p_chan p = opt_chan (p_parent pc) -> p_state p' <> SLEEPING) /\
    (i <> ci -> p_chan p = opt_chan (pt_initproc t) ->
     (exists c q, pt_proc t !! c = Some q /\ p_parent q = Some ci /\ p_state q = ZOMBIE) ->
     p_state p' <> SLEEPING).
Proof.
  intros Hc Hpc Hi. destruct (exit_slot_lookup t ci pc Hc Hpc) as (_ & _ & _ & El & Hp).
  destruct (lookup_lt_is_Some_2 (pt_proc t) i) as [p Hpi]; [rewrite <- El; by eapply lookup_lt_Some|].
  destruct (Hp i p Hpi) as (p2 & E & ? & ? & ? & Hst & ? & ?). assert (p2 = p') as -> by congruence.
  exists p. split_and!; try done. destruct (decide (i = ci)) in Hst; [left|right]; by split.
Qed.

(** ** The invariant and the steps *)

Section inv.
(** The processes that run on the other processors. *)
Context (R : nat -> Prop).

(** Exactly the processes of the processors are RUNNING, each on one of them;
    [initproc] is alive; unused slots have no parent, every other process but
    the first has a living one; nobody is its own parent; and no process
    sleeps in [wait] while one of its children is a zombie. *)
Record proc_inv (t : ptable) : Prop := {
  pi_run : forall i p, pt_proc t !! i = Some p -> (p_state p = RUNNING <-> pt_cur t = Some i \/ R i);
  pi_apart : forall i, pt_cur t = Some i -> ~ R i;
  pi_init : exists k p, pt_initproc t = Some k /\ pt_proc t !! k = Some p /\ alive p;
  pi_fresh : forall i p, pt_proc t !! i = Some p -> fresh p -> p_parent p = None;
  pi_parent : forall i p, pt_proc t !! i = Some p -> ~ fresh p -> pt_initproc t <> Some i ->
    exists j q, p_parent p = Some j /\ pt_proc t !! j = Some q /\ alive q;
  pi_wait : forall i p c q, pt_proc t !! i = Some p -> p_state p = SLEEPING -> p_chan p = ChProc i ->
    pt_proc t !! c = Some q -> p_parent q = Some i -> p_state q <> ZOMBIE;
  pi_self : forall i p, pt_proc t !! i = Some p -> p_parent p <> Some i /\
    (pt_initproc t = Some i -> p_parent p = None);
}.

(** A process that does not run is on no processor. *)
Lemma not_running t i p :
  proc_inv t -> pt_proc t !! i = Some p -> p_state p <> RUNNING -> ~ (pt_cur t = Some i \/ R i).
Proof. intros Hinv Hi Hs Hr. by apply Hs, (pi_run t Hinv i p Hi). Qed.

(** ** Tables that differ in the scheduling of processes only *)

(** The invariant survives changes that wake processes, set [killed] or the
    like. *)
Lemma proc_inv_wake t t' :
  proc_inv t -> pt_cur t' = pt_cur t -> pt_initproc t' = pt_initproc t ->
  (forall i, match pt_proc t !! i, pt_proc t' !! i with
             | Some p, Some p' => p_parent p' = p_parent p /\ p_chan p' = p_chan p /\
                 (p_state p' = p_state p \/ p_state p = SLEEPING /\ p_state p' = RUNNABLE)
             | None, None => True
             | _, _ => False
             end) -> proc_inv t'.
Proof.
  intros [Rn A I F P W S] Ec Ei Hp.
  assert (forall i p', pt_proc t' !! i = Some p' -> exists p, pt_proc t !! i = Some p /\
    p_parent p' = p_parent p /\ p_chan p' = p_chan p /\
    (p_state p' = p_state p \/ p_state p = SLEEPING /\ p_state p' = RUNNABLE)) as Hb.
  { intros i p' Hi. specialize (Hp i). rewrite Hi in Hp. destruct (pt_proc t !! i); [eauto|done]. }
  assert (forall i p, pt_proc t !! i = Some p -> exists p', pt_proc t' !! i = Some p' /\
    (p_state p' = p_state p \/ p_state p = SLEEPING /\ p_state p' = RUNNABLE)) as Hf.
  { intros i p Hi. specialize (Hp i). rewrite Hi in Hp. destruct (pt_proc t' !! i); [naive_solver|done]. }
  split; rewrite ?Ec, ?Ei.
  - intros i p' Hi. destruct (Hb i p' Hi) as (p & Hi' & _ & _ & Hs). rewrite <- (Rn i p Hi').
    destruct Hs as [->|[-> ->]]; done.
  - done.
  - destruct I as (k & p & Hk & Hkp & Ha). destruct (Hf k p Hkp) as (p' & Hp' & Hs). exists k, p'.
    split_and!; [done|done|..]; unfold alive, fresh in *; destruct Hs as [->|[E ->]]; naive_solver.
  - intros i p' Hi Hfr. destruct (Hb i p' Hi) as (p & Hi' & -> & _ & Hs). apply (F i p Hi').
    unfold fresh in *. destruct Hs as [<-|[E E']]; [done|]. rewrite E' in Hfr. naive_solver.
  - intros i p' Hi Hfr Hn. destruct (Hb i p' Hi) as (p & Hi' & -> & _ & Hs).
    destruct (P i p Hi') as (j & q & Hj & Hq & Ha); [|done|].
    { unfold fresh in *. destruct Hs as [<-|[E _]]; [done|]. rewrite E. naive_solver. }
    destruct (Hf j q Hq) as (q' & Hq' & Hs'). exists j, q'. split_and!; [done|done|..];
      unfold alive, fresh in *; destruct Hs' as [->|[E ->]]; naive_solver.
  - intros i p' c q' Hi Hs1 Hc Hcq Hpar. destruct (Hb i p' Hi) as (p & Hi' & _ & Ech & Hs).
    destruct (Hb c q' Hcq) as (q & Hc' & Epar & _ & Hsq).
    destruct Hs as [Es|[_ Es]]; [|congruence]. intros Hz.
    destruct Hsq as [Eq|[_ Eq]]; [|congruence]. eapply (W i p c q); [done|congruence|congruence|done|congruence|congruence].
  - intros i p' Hi. destruct (Hb i p' Hi) as (p & Hi' & -> & _). by apply S.
Qed.

(** A change of one slot. *)
Lemma proc_inv_slot t t' i p p' :
  proc_inv t -> pt_proc t !! i = Some p -> pt_proc t' = <[i := p']> (pt_proc t) ->
  pt_initproc t' = pt_initproc t ->
  (p_state p' = RUNNING <-> pt_cur t' = Some i \/ R i) -> (pt_cur t' = Some i -> ~ R i) ->
  (forall j, j <> i -> pt_cur t' = Some j <-> pt_cur t = Some j) ->
  (alive p -> alive p') -> p_state p' <> ZOMBIE ->
  (fresh p' -> p_parent p' = None) ->
  (~ fresh p' -> pt_initproc t <> Some i ->
     exists j q, p_parent p' = Some j /\ pt_proc t !! j = Some q /\ alive q) ->
  (p_state p' = SLEEPING -> p_chan p' = ChProc i ->
     forall c q, pt_proc t !! c = Some q -> p_parent q = Some i -> p_state q <> ZOMBIE) ->
  p_parent p' <> Some i -> (pt_initproc t = Some i -> p_parent p' = None) ->
  proc_inv t'.
Proof.
  intros [Rn A I F P W S] Hi Hl Ei Hrun Hap Hcur Hal Hz Hfr Hpar Hwait Hself Hroot.
  assert (forall j q, pt_proc t' !! j = Some q -> (j = i /\ q = p') \/ (j <> i /\ pt_proc t !! j = Some q)) as Hlk.
  { intros j q. rewrite Hl. destruct (decide (j = i)) as [->|Hne].
    - rewrite list_lookup_insert_eq by (by eapply lookup_lt_Some). intros [= <-]. by left.
    - rewrite list_lookup_insert_ne by done. by right. }
  assert (forall j q, pt_proc t !! j = Some q -> alive q -> exists q', pt_proc t' !! j = Some q' /\ alive q') as Halive.
  { intros j q Hj Ha. rewrite Hl. destruct (decide (j = i)) as [->|Hne].
    - rewrite list_lookup_insert_eq by (by eapply lookup_lt_Some). exists p'. split; [done|].
      apply Hal. assert (q = p) as -> by congruence. done.
    - exists q. by rewrite list_lookup_insert_ne. }
  split.
  - intros j q [[-> ->]|[Hne Hj]]%Hlk; [done|]. rewrite Hcur by done. by apply Rn.
  - intros j. destruct (decide (j = i)) as [->|Hne]; [done|]. rewrite Hcur by done. apply A.
  - destruct I as (k & q & Hk & Hq & Ha). destruct (Halive k q Hq Ha) as (q' & ? & ?). exists k, q'. split; [congruence|done].
  - intros j q [[-> ->]|[Hne Hj]]%Hlk; [done|by eapply F].
  - rewrite Ei. intros j q Hj Hf Hn.
    assert (exists k r, p_parent q = Some k /\ pt_proc t !! k = Some r /\ alive r) as (k & r & Hk & Hr & Ha).
    { apply Hlk in Hj as [[-> ->]|[Hne Hj]]; [by apply Hpar|by apply (P j q)]. }
    destruct (Halive k r Hr Ha) as (r' & ? & ?). exists k, r'. split_and!; done.
  - intros j q c r Hj Hs Hc Hr Hpr. apply Hlk in Hr as [[-> ->]|[Hnc Hcr]]; [done|].
    apply Hlk in Hj as [[-> ->]|[Hne Hj]]; [by eapply (Hwait Hs Hc c r)|by apply (W j q c r)].
  - rewrite Ei. intros j q [[-> ->]|[Hne Hj]]%Hlk; [done|by apply S].
Qed.

(** The current process is running. *)
Lemma cur_running t i :
  proc_inv t -> pt_cur t = Some i -> (i < length (pt_proc t))%nat ->
  exists p, pt_proc t !! i = Some p /\ p_state p = RUNNING.
Proof.
  intros Hinv Hc Hl. destruct (lookup_lt_is_Some_2 _ _ Hl) as [p Hp]. exists p. split; [done|].
  apply (pi_run t Hinv i p Hp). by left.
Qed.

(** ** The steps *)

(** A process that stays alive under the same parent. *)
Lemma proc_inv_sched t t' i p p' :
  proc_inv t -> pt_proc t !! i = Some p -> pt_proc t' = <[i := p']> (pt_proc t) ->
  pt_initproc t' = pt_initproc t ->
  (p_state p' = RUNNING <-> pt_cur t' = Some i \/ R i) -> (pt_cur t' = Some i -> ~ R i) ->
  (forall j, j <> i -> pt_cur t' = Some j <-> pt_cur t = Some j) ->
  alive p -> alive p' -> p_parent p' = p_parent p ->
  (p_state p' = SLEEPING -> p_chan p' = ChProc i ->
     forall c q, pt_proc t !! c = Some q -> p_parent q = Some i -> p_state q <> ZOMBIE) ->
  proc_inv t'.
Proof.
  intros Hinv Hi Hl Ei Hrun Hap Hcur Ha Ha' Ep Hw.
  destruct (pi_self t Hinv i p Hi) as [S1 S2].
  eapply proc_inv_slot; [done..|apply Ha'| | |done|by rewrite Ep|by rewrite Ep].
  - intros Hf. by destruct Ha'.
  - intros _ Hn. rewrite Ep. apply (pi_parent t Hinv i p Hi); [apply Ha|done].
Qed.

Lemma step_run t i p :
  proc_inv t -> pt_cur t = None -> pt_proc t !! i = Some p -> p_state p = RUNNABLE -> proc_inv (run_slot i t).
Proof.
  intros Hinv Hc Hi Hs. assert (~ (pt_cur t = Some i \/ R i)) as Hn by (eapply not_running; [done..|congruence]).
  eapply (proc_inv_sched t _ i p); [done|done|by apply (upd_proc_insert (pt_set_cur (Some i) t))|done| | | |
    apply alive_state; auto|apply alive_state; cbn; auto|done|done].
  - split; [by left|done].
  - tauto.
  - intros j Hj. cbn. rewrite Hc. split; [|done]. intros [= ->]. done.
Qed.

(** The current process gives up the processor. *)
Lemma step_off t i p' :
  proc_inv t -> pt_cur t = Some i -> (i < length (pt_proc t))%nat ->
  (forall p, pt_proc t !! i = Some p -> alive (p' p) /\ p_state (p' p) <> RUNNING /\
     p_parent (p' p) = p_parent p /\
     (p_state (p' p) = SLEEPING -> p_chan (p' p) = ChProc i ->
       forall c q, pt_proc t !! c = Some q -> p_parent q = Some i -> p_state q <> ZOMBIE)) ->
  proc_inv (switch_out (upd_cur p' t)).
Proof.
  intros Hinv Hc Hl Hp. destruct (cur_running t i Hinv Hc Hl) as (p & Hi & Hs).
  destruct (Hp p Hi) as (Ha & Hr & E1 & Hw). rewrite (upd_cur_insert t i p) by done.
  eapply (proc_inv_sched t _ i p); [done|done|done|done| |done| |by apply alive_state; auto|done..].
  - cbn. split; [done|]. intros [?|?]; [done|]. by destruct (pi_apart t Hinv i Hc).
  - intros j Hj. cbn. rewrite Hc. split; [done|]. intros [= ->]. done.
Qed.

Lemma step_alloc t i t' :
  proc_inv t -> alloc_slot t = Some (i, t') -> proc_inv t'.
Proof.
  intros Hinv Ha. unfold alloc_slot in Ha. destruct (list_find _ _) as [[k p]|] eqn:E; [|done].
  injection Ha as -> <-. apply list_find_Some in E as (Hi & Hs & _).
  assert (~ (pt_cur t = Some i \/ R i)) as Hn by (eapply not_running; [done..|congruence]).
  eapply (proc_inv_slot t _ i p); [done|done|by apply upd_proc_insert|done| | | | |done| | |done|by apply (pi_self t Hinv i p)|by apply (pi_self t Hinv i p)];
    cbn [pt_set_nextpid pt_cur upd_proc pt_set_proc p_state p_set_pid p_set_state p_parent].
  - split; [done|tauto].
  - tauto.
  - done.
  - intros [Hf _]. destruct Hf. by left.
  - intros _. apply (pi_fresh t Hinv i p Hi). by left.
  - intros Hf. destruct Hf. by right.
Qed.

Lemma step_free t i p :
  proc_inv t -> pt_proc t !! i = Some p -> p_state p = EMBRYO -> proc_inv (free_slot i t).
Proof.
  intros Hinv Hi Hs. assert (~ (pt_cur t = Some i \/ R i)) as Hn by (eapply not_running; [done..|congruence]).
  eapply (proc_inv_slot t _ i p); [done|done|by apply upd_proc_insert|done| | | | |done| | |done|by apply (pi_self t Hinv i p)|by apply (pi_self t Hinv i p)].
  - split; [done|]. cbn. tauto.
  - cbn. tauto.
  - done.
  - intros [Hf _]. destruct Hf. by right.
  - intros _. apply (pi_fresh t Hinv i p Hi). by right.
  - intros Hf. destruct Hf. by left.
Qed.

Lemma step_fork t i p pgdir ofile :
  proc_inv t -> has_cur t -> pt_proc t !! i = Some p -> p_state p = EMBRYO ->
  proc_inv (fork_slot i pgdir ofile t).
Proof.
  intros Hinv (k & Hk & Hl) Hi Hs. destruct (cur_running t k Hinv Hk Hl) as (q & Hq & Hqs).
  assert (~ (pt_cur t = Some i \/ R i)) as Hn by (eapply not_running; [done..|congruence]).
  eapply (proc_inv_slot t _ i p); [done|done|by apply upd_proc_insert|done| | | | |done| | |done| |].
  - split; [done|]. cbn. tauto.
  - cbn. tauto.
  - done.
  - intros [Hf _]. destruct Hf. by right.
  - by intros [?|?].
  - intros _ _. exists k, q. cbn. split_and!; [done|done|apply alive_state; auto].
  - cbn. rewrite Hk. intros [= ->]. congruence.
  - intros Hroot. destruct (pi_init t Hinv) as (k' & p' & Hk' & Hp' & Ha). exfalso. apply (proj1 Ha). right.
    congruence.
Qed.

Lemma step_wait t :
  proc_inv t -> has_cur t -> wait_scan t = WaitSleep ->
  proc_inv (switch_out (sleep_slot (opt_chan (pt_cur t)) t)).
Proof.
  intros Hinv (i & Hc & Hl) Hw. pose proof (wait_scan_spec t) as Hs. rewrite Hw, Hc in Hs.
  apply (step_off t i); [done..|]. intros p Hi. split_and!; [apply alive_state; cbn; auto|done|done|].
  intros _ _ c q Hq Hpar. specialize (Hs c). rewrite (proc_at_lookup t c q Hq) in Hs.
  apply Hs; [by eapply lookup_lt_Some|done].
Qed.

Lemma step_sleep t i c :
  proc_inv t -> pt_cur t = Some i -> (i < length (pt_proc t))%nat -> c <> ChProc i ->
  proc_inv (switch_out (sleep_slot c t)).
Proof.
  intros Hinv Hc Hl Hne. apply (step_off t i); [done..|]. intros p Hi.
  split_and!; [apply alive_state; cbn; auto|done|done|]. by intros _ ?.
Qed.

Lemma step_yield t : proc_inv t -> has_cur t -> proc_inv (switch_out (yield_slot t)).
Proof.
  intros Hinv (i & Hc & Hl). apply (step_off t i); [done..|]. intros p Hi.
  split_and!; [apply alive_state; cbn; auto|done..].
Qed.

(** A zombie is nobody's parent, so it can go. *)
Lemma step_reap t i :
  proc_inv t -> has_cur t -> wait_scan t = WaitReap i -> proc_inv (reap_slot i t).
Proof.
  intros Hinv Hcur Hw. pose proof (wait_scan_spec t) as Hs. rewrite Hw in Hs. destruct Hs as (Hl & Hp & Hz).
  destruct (lookup_lt_is_Some_2 _ _ Hl) as [p Hi]. rewrite (proc_at_lookup t i p Hi) in Hp, Hz.
  assert (~ (pt_cur t = Some i \/ R i)) as Hn by (eapply not_running; [done..|congruence]).
  eapply (proc_inv_slot t _ i p); [done|done|by apply upd_proc_insert|done| | | | |done|done| |done|done|done].
  - split; [done|]. cbn. tauto.
  - cbn. tauto.
  - done.
  - intros [_ ?]. done.
  - intros Hf. destruct Hf. by left.
Qed.

Lemma step_wakeup t c : proc_inv t -> proc_inv (wakeup1 c t).
Proof.
  intros Hinv. apply (proc_inv_wake t); [done..|]. intros i. cbn. rewrite list_lookup_fmap.
  destruct (pt_proc t !! i) as [p|]; [|done]. cbn. case_decide; cbn; naive_solver.
Qed.

Lemma step_kill t pid r t' : proc_inv t -> kill pid t = Ret r t' -> proc_inv t'.
Proof.
  intros Hinv. unfold kill. destruct (list_find _ _) as [[i p]|] eqn:E; intros [= <- <-]; [|done].
  apply list_find_Some in E as (Hi & _ & _). apply (proc_inv_wake t); [done..|]. intros j. cbn.
  destruct (decide (j = i)) as [->|Hne].
  - rewrite list_lookup_insert_eq by (by eapply lookup_lt_Some). rewrite Hi. case_decide; cbn; naive_solver.
  - rewrite list_lookup_insert_ne by done. destruct (pt_proc t !! j); auto.
Qed.

(** ** [exit] keeps the invariant *)

Section exit_inv.
Context (t : ptable) (ci : nat) (pc : proc).
Hypothesis Hinv : proc_inv t.
Hypothesis Hc : pt_cur t = Some ci.
Hypothesis Hpc : pt_proc t !! ci = Some pc.
Hypothesis Hni : pt_cur t <> pt_initproc t.

Lemma exit_running : p_state pc = RUNNING.
Proof. apply (pi_run t Hinv ci pc Hpc). by left. Qed.

Lemma exit_alive j q :
  pt_proc t !! j = Some q -> alive q -> j <> ci -> exists q', pt_proc (exit_slot t) !! j = Some q' /\ alive q'.
Proof.
  intros Hj Ha Hne. destruct (exit_slot_lookup t ci pc Hc Hpc) as (_ & _ & _ & _ & Hp).
  destruct (Hp j q Hj) as (q' & Hq' & _ & _ & _ & Hst & _). exists q'. split; [done|].
  rewrite decide_False in Hst by done. rewrite alive_state in *. destruct Hst as [->|[_ ->]]; auto.
Qed.

Lemma exit_init :
  exists k q, pt_initproc t = Some k /\ pt_proc (exit_slot t) !! k = Some q /\ alive q.
Proof.
  destruct (pi_init t Hinv) as (k & pk & Hk & Hpk & Hak).
  destruct (exit_alive k pk Hpk Hak) as (q' & ? & ?); [congruence|]. by exists k, q'.
Qed.

Lemma exit_fresh i p p' :
  pt_proc t !! i = Some p ->
  (i = ci /\ p_state p' = ZOMBIE \/
   i <> ci /\ (p_state p' = p_state p \/ p_state p = SLEEPING /\ p_state p' = RUNNABLE)) ->
  (fresh p' <-> fresh p) /\ (p_state p' = UNUSED <-> p_state p = UNUSED).
Proof.
  intros Hi Hst. pose proof exit_running as Hr. unfold fresh.
  destruct Hst as [[-> Hz]|[_ [->|[-> ->]]]]; [|naive_solver..].
  assert (p = pc) as -> by congruence. rewrite Hz, Hr. naive_solver.
Qed.

(** Nobody waits asleep for a zombie child. *)
Lemma exit_wait i p c q :
  pt_proc (exit_slot t) !! i = Some p -> p_state p = SLEEPING -> p_chan p = ChProc i ->
  pt_proc (exit_slot t) !! c = Some q -> p_parent q = Some i -> p_state q <> ZOMBIE.
Proof.
  intros Hi Hs Hch Hq Hpar Hz. destruct (exit_slot_back t ci pc i p Hc Hpc Hi)
    as (p0 & Hi0 & _ & Ech & _ & Hst & Hw1 & Hw2).
  destruct (exit_slot_back t ci pc c q Hc Hpc Hq) as (q0 & Hq0 & _ & _ & Epar & Hsq & _ & _).
  assert (i <> ci) as Hne by (intros ->; destruct Hst as [[_ ?]|[? _]]; congruence).
  destruct (pi_init t Hinv) as (k & pk & Hk & _ & _).
  destruct (pi_self t Hinv c q0 Hq0) as [Hself _].
  destruct (decide (p_parent q0 = Some ci)) as [Hd|Hd].
  - assert (i = k) as -> by congruence. apply (Hw2 Hne); [rewrite Hk; cbn; congruence| |done].
    exists c, q0. split_and!; [done|done|]. destruct Hsq as [[-> _]|[_ [<-|[_ ?]]]]; [done|done|congruence].
  - destruct Hsq as [[-> _]|[Hnc Hsq]].
    + assert (q0 = pc) as -> by congruence. apply (Hw1 Hne); [rewrite <- Epar, Hpar; cbn; congruence|done].
    + destruct Hst as [[? _]|[_ [Es|[_ Es]]]]; [done| |congruence].
      apply (pi_wait t Hinv i p0 c q0); try congruence. destruct Hsq as [<-|[_ ?]]; [done|congruence].
Qed.

Lemma exit_inv : proc_inv (switch_out (exit_slot t)).
Proof.
  destruct (exit_slot_lookup t ci pc Hc Hpc) as (_ & Ei & _). pose proof (exit_slot_back t ci pc) as Hb.
  destruct exit_init as (k & qk & Hk & Hqk & Hak).
  split; cbn [pt_cur pt_initproc pt_nextpid pt_proc switch_out pt_set_cur]; rewrite ?Ei.
  - intros i p' Hi. destruct (Hb i p' Hc Hpc Hi) as (p & Hpi & _ & _ & _ & Hst & _). split; intros Hr.
    2:{ destruct Hr as [?|Hr]; [done|]. destruct Hst as [[-> _]|[Hne Hst]]; [by destruct (pi_apart t Hinv ci Hc)|].
        assert (p_state p = RUNNING) as Hs by (apply (pi_run t Hinv i p Hpi); by right).
        destruct Hst as [->|[? _]]; congruence. }
    destruct Hst as [[_ ?]|[Hne [Hs|[_ ?]]]]; try congruence.
    rewrite Hs, (pi_run t Hinv i p Hpi), Hc in Hr. destruct Hr as [?|?]; [congruence|by right].
  - done.
  - by exists k, qk.
  - intros i p' Hi Hf. destruct (Hb i p' Hc Hpc Hi) as (p & Hpi & _ & _ & -> & Hst & _).
    apply (exit_fresh i p p' Hpi Hst) in Hf. by rewrite (pi_fresh t Hinv i p Hpi Hf).
  - intros i p' Hi Hf Hin. destruct (Hb i p' Hc Hpc Hi) as (p & Hpi & _ & _ & -> & Hst & _).
    case_decide as Hd; [by exists k, qk|]. rewrite (proj1 (exit_fresh i p p' Hpi Hst)) in Hf.
    destruct (pi_parent t Hinv i p Hpi Hf Hin) as (j & q & Hj & Hq & Ha).
    destruct (exit_alive j q Hq Ha) as (q' & ? & ?); [congruence|]. by exists j, q'.
  - apply exit_wait.
  - intros i p' Hi. destruct (Hb i p' Hc Hpc Hi) as (p & Hpi & _ & _ & -> & _).
    destruct (pi_self t Hinv i p Hpi) as [S1 S2]. case_decide as Hd; [|done].
    split; [|intros Hin; rewrite (S2 Hin) in Hd; done]. intros E. rewrite (S2 E) in Hd. done.
Qed.

End exit_inv.

Lemma step_exit t :
  proc_inv t -> has_cur t -> pt_cur t <> pt_initproc t -> proc_inv (switch_out (exit_slot t)).
Proof.
  intros Hinv (ci & Hc & Hl) Hni. destruct (cur_running t ci Hinv Hc Hl) as (pc & Hpc & _).
  by eapply exit_inv.
Qed.

(** ** All steps *)

Lemma proc_inv_step t t' : proc_inv t -> proc_step t t' -> proc_inv t'.
Proof.
  intros Hinv Hs. destruct Hs;
    eauto using step_run, step_yield, step_sleep, step_wait, step_reap, step_wakeup, step_kill,
      step_alloc, step_free, step_fork, step_exit.
Qed.

End inv.

(** The invariant depends on the set of all running processes. *)
Lemma proc_inv_move (R R' : nat -> Prop) c c' t :
  proc_inv R (pt_set_cur c t) -> (forall i, (c' = Some i \/ R' i) <-> (c = Some i \/ R i)) ->
  (forall i, c' = Some i -> ~ R' i) -> proc_inv R' (pt_set_cur c' t).
Proof.
  intros [Rn A I F P W S] Hiff Hap. split; [|done..].
  intros i p Hi. cbn [pt_cur pt_set_cur]. rewrite Hiff. by apply Rn.
Qed.

(** ** Pids *)

(** The pids in use are distinct and below [nextpid]. *)
Record pid_inv (t : ptable) : Prop := {
  pd_next : 0 < pt_nextpid t;
  pd_range : forall i p, pt_proc t !! i = Some p -> p_state p <> UNUSED -> 0 < p_pid p < pt_nextpid t;
  pd_uniq : forall i j p q, pt_proc t !! i = Some p -> pt_proc t !! j = Some q ->
    p_state p <> UNUSED -> p_state q <> UNUSED -> p_pid p = p_pid q -> i = j;
}.

(** No slot comes into use and none changes its pid. *)
Definition pid_kept (t t' : ptable) : Prop :=
  pt_nextpid t' = pt_nextpid t /\
  forall i p', pt_proc t' !! i = Some p' -> p_state p' <> UNUSED ->
    exists p, pt_proc t !! i = Some p /\ p_state p <> UNUSED /\ p_pid p' = p_pid p.

#[global] Instance pid_kept_preorder : PreOrder pid_kept.
Proof.
  split.
  - intros t. split; [done|]. eauto.
  - intros t1 t2 t3 [E1 H1] [E2 H2]. split; [congruence|]. intros i p3 Hi Hs.
    destruct (H2 i p3 Hi Hs) as (p2 & Hi2 & Hs2 & Ep2). destruct (H1 i p2 Hi2 Hs2) as (p1 & Hi1 & Hs1 & Ep1).
    exists p1. split_and!; [done|done|congruence].
Qed.

Lemma pid_kept_upd i f t :
  (forall p, pt_proc t !! i = Some p -> p_state (f p) <> UNUSED -> p_state p <> UNUSED /\ p_pid (f p) = p_pid p) ->
  pid_kept t (upd_proc i f t).
Proof.
  intros Hf. split; [done|]. intros j p' Hj Hs. cbn in Hj. destruct (decide (j = i)) as [->|Hne].
  - rewrite list_lookup_alter_eq in Hj. destruct (pt_proc t !! i) as [p|] eqn:Hi; [|done].
    injection Hj as <-. destruct (Hf p eq_refl Hs). by exists p.
  - rewrite list_lookup_alter_ne in Hj by done. by exists p'.
Qed.

Lemma pid_kept_cur (f : proc -> proc) t :
  p_state (cur_proc t) <> UNUSED -> (forall p, p_pid (f p) = p_pid p) -> pid_kept t (upd_cur f t).
Proof.
  intros Hs Hf. unfold upd_cur. unfold cur_proc in Hs. destruct (pt_cur t) as [i|]; [|done].
  apply pid_kept_upd. intros p Hi _. by rewrite (proc_at_lookup t i p Hi) in Hs.
Qed.

Lemma pid_kept_wakeup c t : pid_kept t (wakeup1 c t).
Proof.
  split; [done|]. intros i p' Hi Hs. cbn in Hi. rewrite list_lookup_fmap in Hi.
  destruct (pt_proc t !! i) as [p|]; [|done]. injection Hi as <-. exists p. split; [done|].
  case_decide as Hd; [|done]. destruct Hd as [-> _]. done.
Qed.

Lemma pid_kept_kill pid r t t' : kill pid t = Ret r t' -> pid_kept t t'.
Proof.
  unfold kill. destruct (list_find _ _) as [[i p]|] eqn:E; intros [= <- <-]; [|done].
  apply list_find_Some in E as (Hi & _ & _). split; [done|]. intros j p' Hj Hs. cbn in Hj.
  destruct (decide (j = i)) as [->|Hne].
  - rewrite list_lookup_insert_eq in Hj by (by eapply lookup_lt_Some). injection Hj as <-. exists p.
    case_decide as Hd; cbn in *; split_and!; try done. congruence.
  - rewrite list_lookup_insert_ne in Hj by done. by exists p'.
Qed.

Lemma pid_kept_exit t ci pc :
  pt_cur t = Some ci -> pt_proc t !! ci = Some pc -> p_state pc = RUNNING -> pid_kept t (exit_slot t).
Proof.
  intros Hc Hpc Hr. destruct (exit_slot_lookup t ci pc Hc Hpc) as (_ & _ & En & _). split; [done|].
  intros i p' Hi Hs. destruct (exit_slot_back t ci pc i p' Hc Hpc Hi) as (p & Hp & Epid & _ & _ & Hst & _).
  exists p. split_and!; [done| |done]. destruct Hst as [[-> _]|[_ [<-|[-> _]]]]; [|done|done]. congruence.
Qed.

(** A step keeps the pids, or it is [allocproc]'s. *)
Lemma pid_step R t t' :
  proc_inv R t -> proc_step t t' -> pid_kept t t' \/ exists i, alloc_slot t = Some (i, t').
Proof.
  intros Hinv Hst.
  assert (has_cur t -> p_state (cur_proc t) <> UNUSED) as Hcur.
  { intros (i & Hc & Hl). destruct (cur_running R t i Hinv Hc Hl) as (p & Hi & Hs).
    unfold cur_proc. by rewrite Hc, (proc_at_lookup t i p Hi), Hs. }
  destruct Hst as [t i p Hc Hp Hs|t Hc|t i c Hc Hl _|t Hc _|t i _ _|t c|t pid r t' Hk|t i t' Ha|t i p Hp Hs|t i p pg fl _ Hp Hs|t Hc _];
    [left|left|left|left|left|left|left|right; by exists i|left|left|left].
  - apply (pid_kept_upd i (p_set_state RUNNING) (pt_set_cur (Some i) t)). intros q Hq _. cbn in Hq. split; [congruence|done].
  - apply (pid_kept_cur (p_set_state RUNNABLE) t); auto.
  - apply (pid_kept_cur (fun p => p_set_state SLEEPING (p_set_chan c p)) t); [|done]. apply Hcur. by exists i.
  - apply (pid_kept_cur (fun p => p_set_state SLEEPING (p_set_chan _ p)) t); auto.
  - apply pid_kept_upd. intros q _ Hq. done.
  - apply pid_kept_wakeup.
  - by eapply pid_kept_kill.
  - apply pid_kept_upd. intros q _ Hq. done.
  - apply pid_kept_upd. intros q Hq _. split; [congruence|done].
  - destruct Hc as (ci & Hc & Hl). destruct (cur_running R t ci Hinv Hc Hl) as (pc & Hpc & Hr).
    by apply (pid_kept_exit t ci pc).
Qed.

Lemma pid_inv_kept t t' : pid_inv t -> pid_kept t t' -> pid_inv t'.
Proof.
  intros [N D U] [En Hk]. split; rewrite ?En; [done|..].
  - intros i p' Hi Hs. destruct (Hk i p' Hi Hs) as (p & Hp & Hs' & ->). by eapply D.
  - intros i j p' q' Hi Hj Hs Hs'. destruct (Hk i p' Hi Hs) as (p & Hp & ? & ->).
    destruct (Hk j q' Hj Hs') as (q & Hq & ? & ->). by eapply U.
Qed.

Lemma pid_inv_alloc t i t' :
  pid_inv t -> alloc_slot t = Some (i, t') -> pt_nextpid t < 2 ^ 31 - 1 ->
  pid_inv t' /\ pt_nextpid t' = pt_nextpid t + 1.
Proof.
  intros [N D U] Ha Hmax. unfold alloc_slot in Ha. destruct (list_find _ _) as [[k p]|] eqn:E; [|done].
  injection Ha as -> <-. apply list_find_Some in E as (Hi & Hs & _).
  cbn [pt_nextpid pt_set_nextpid]. rewrite s32_small by lia. split; [|done].
  assert (forall j q, alter (fun p => p_set_pid (pt_nextpid t) (p_set_state EMBRYO p)) i (pt_proc t) !! j = Some q ->
    j = i /\ p_pid q = pt_nextpid t \/ j <> i /\ pt_proc t !! j = Some q) as Hlk.
  { intros j q. destruct (decide (j = i)) as [->|Hne].
    - rewrite list_lookup_alter_eq, Hi. intros [= <-]. by left.
    - rewrite list_lookup_alter_ne by done. by right. }
  split; cbn [pt_nextpid pt_set_nextpid pt_proc upd_proc pt_set_proc]; [lia|..].
  - intros j q [[-> ->]|[Hne Hj]]%Hlk Hq; [lia|]. pose proof (D j q Hj Hq). lia.
  - intros j j' q q' [[-> Eq]|[Hne Hj]]%Hlk [[-> Eq']|[Hne' Hj']]%Hlk Hq Hq' E; [done|..|by eapply U].
    + pose proof (D j' q' Hj' Hq'). lia.
    + pose proof (D j q Hj Hq). lia.
Qed.

(** ** All processors *)

(** The table and the process of each processor, if it has one; the field
    [pt_cur] of the table belongs to the processor that makes a step. *)
Record machine := Machine { mc_table : ptable; mc_cur : list (option nat) }.

Definition on_cpu (m : machine) (k i : nat) : Prop := mc_cur m !! k = Some (Some i).

(** Processor [k] makes a step. *)
Inductive mp_step : machine -> machine -> Prop :=
| Mp_step m k c t' :
    mc_cur m !! k = Some c -> proc_step (pt_set_cur c (mc_table m)) t' ->
    mp_step m (Machine t' (<[k := pt_cur t']> (mc_cur m))).

(** A run of the processors in which [n] processes are created. *)
Definition created (t t' : ptable) : nat := if decide (pt_nextpid t' = pt_nextpid t) then 0 else 1.

Inductive mp_runs : nat -> machine -> machine -> Prop :=
| Runs_refl m : mp_runs 0 m m
| Runs_step n m m1 m2 :
    mp_step m m1 -> mp_runs n m1 m2 -> mp_runs (created (mc_table m) (mc_table m1) + n) m m2.

Record mp_inv (m : machine) : Prop := {
  mi_one : forall k k' i, on_cpu m k i -> on_cpu m k' i -> k = k';
  mi_table : proc_inv (fun i => exists k, on_cpu m k i) (pt_set_cur None (mc_table m));
}.

(** What processor [k] sees. *)
Lemma mp_inv_cpu m k c :
  mp_inv m -> mc_cur m !! k = Some c ->
  proc_inv (fun i => exists k', k' <> k /\ on_cpu m k' i) (pt_set_cur c (mc_table m)).
Proof.
  intros [H1 Ht] Hk. eapply proc_inv_move; [exact Ht|..].
  - intros i. split.
    + intros [->|(k' & _ & Hk')]; right; eauto.
    + intros [?|[k' Hk']]; [done|]. destruct (decide (k' = k)) as [->|]; [left|right; eauto].
      unfold on_cpu in Hk'. congruence.
  - intros i -> (k' & Hne & Hk'). apply Hne. by eapply H1.
Qed.

Lemma mp_inv_step m m' : mp_inv m -> mp_step m m' -> mp_inv m'.
Proof.
  intros Hinv Hst. destruct Hst as [m k c t' Hk Hst]. pose proof (mp_inv_cpu m k c Hinv Hk) as Hc.
  pose proof (proc_inv_step _ _ _ Hc Hst) as Ht. assert (k < length (mc_cur m))%nat as Hlt by (by eapply lookup_lt_Some).
  assert (forall k' i, on_cpu (Machine t' (<[k := pt_cur t']> (mc_cur m))) k' i <->
    k' = k /\ pt_cur t' = Some i \/ k' <> k /\ on_cpu m k' i) as Hon.
  { intros k' i. unfold on_cpu. cbn [mc_cur]. destruct (decide (k' = k)) as [->|Hne].
    - rewrite list_lookup_insert_eq by done. split; [intros [= ->]; by left|]. intros [[_ ->]|[? _]]; done.
    - rewrite list_lookup_insert_ne by done. tauto. }
  split.
  - assert (forall k' i, k' <> k -> on_cpu m k' i -> pt_cur t' <> Some i) as Hap.
    { intros k' i Hne Hi E. apply (pi_apart _ _ Ht i E). eauto. }
    intros k1 k2 i [[-> E1]|[N1 H1]]%Hon [[-> E2]|[N2 H2]]%Hon; [done|..|by eapply (mi_one m Hinv)].
    + by destruct (Hap k2 i N2 H2).
    + by destruct (Hap k1 i N1 H1).
  - cbn [mc_table]. apply (proc_inv_move (fun i => exists k', k' <> k /\ on_cpu m k' i) _ (pt_cur t') None t').
    + destruct t'. exact Ht.
    + intros i. setoid_rewrite Hon. naive_solver.
    + done.
Qed.

Lemma mp_pid_step m m' :
  mp_inv m -> mp_step m m' -> pid_inv (mc_table m) ->
  pt_nextpid (mc_table m) + Z.of_nat (created (mc_table m) (mc_table m')) < 2 ^ 31 ->
  pid_inv (mc_table m') /\
  pt_nextpid (mc_table m') = pt_nextpid (mc_table m) + Z.of_nat (created (mc_table m) (mc_table m')).
Proof.
  intros Hinv Hst Hp. destruct Hst as [m k c t' Hk Hst]. pose proof (mp_inv_cpu m k c Hinv Hk) as Hc.
  cbn [mc_table]. assert (pid_inv (pt_set_cur c (mc_table m))) as Hp' by (by destruct Hp).
  destruct (pid_step _ _ _ Hc Hst) as [Hkept|[i Ha]]; unfold created.
  - intros _. split; [by eapply pid_inv_kept|]. destruct Hkept as [En _]. cbn in En. rewrite decide_True by done. lia.
  - assert (pt_nextpid t' = s32 (pt_nextpid (mc_table m) + 1)) as En.
    { unfold alloc_slot in Ha. destruct (list_find _ _) as [[? ?]|]; [|done]. by injection Ha as _ <-. }
    intros Hlt. pose proof (pd_next _ Hp) as Hn. destruct (decide _) as [E|_].
    { assert (pt_nextpid (mc_table m) < 2 ^ 31) by lia. exfalso. rewrite En in E. revert E.
      unfold s32, u32. destruct (Z.eq_dec (pt_nextpid (mc_table m)) (2 ^ 31 - 1)) as [->|]; [done|].
      rewrite Z.mod_small by lia. destruct (_ <? _) eqn:Hb; zbool; lia. }
    destruct (pid_inv_alloc _ i t' Hp' Ha) as [Hpid Enx]; [cbn; lia|]. split; [done|]. cbn in Enx. lia.
Qed.

(** Every reachable state is consistent; the pids are as long as their counter
    does not wrap around. *)
Lemma mp_inv_runs n m m' : mp_inv m -> mp_runs n m m' -> mp_inv m'.
Proof. intros Hinv Hr. induction Hr; eauto using mp_inv_step. Qed.

Lemma mp_pid_runs n m m' :
  mp_inv m -> mp_runs n m m' -> pid_inv (mc_table m) ->
  pt_nextpid (mc_table m) + Z.of_nat n < 2 ^ 31 -> pid_inv (mc_table m').
Proof.
  intros Hinv Hr. induction Hr as [m|n m m1 m2 Hst Hr IH]; [done|]. intros Hp Hlt.
  destruct (mp_pid_step m m1 Hinv Hst Hp) as [Hp1 En]; [lia|].
  apply IH; [by eapply mp_inv_step|done|lia].
Qed.
