(* ===== verification/Sched.v ===== *)
(** * The scheduler's loop (kernel/proc.c)

    One pass of [scheduler] over the process table of one processor.  What a
    process does between the switch to it and the switch back is any sequence
    of the steps of ProcInv; every process that is runnable when the pass
    starts gets the processor before it ends. *)

From stdpp Require Import relations.
From S2P Require Import Prelude Monad Params ProcTable Proc ProcInv.

Section scheduler.
(** The table when the process in slot [i] switches back. *)
Variable slice : nat -> ptable -> ptable.

(** The body of the loop, and the slots that ran. *)
Definition scheduler_slot (st : ptable * list nat) (i : nat) : ptable * list nat :=
  let '(t, ran) := st in
  match pt_proc t !! i with
  | Some p =>
      if decide (p_state p = RUNNABLE) then (switch_out (slice i (run_slot i t)), ran ++ [i])
      else (t, ran)
  | None => (t, ran)
  end.

Definition scheduler_pass (t : ptable) : ptable * list nat :=
  foldl scheduler_slot (t, []) (seq 0 (Z.to_nat NPROC)).
End scheduler.

(** ** A runnable process waits for its turn *)

Definition in_state (t : ptable) (i : nat) (st : procstate) : Prop :=
  exists p, pt_proc t !! i = Some p /\ p_state p = st.

(** Slots the step does not name keep their state. *)
Lemma in_state_upd t i j f st : in_state t i st -> i <> j -> in_state (upd_proc j f t) i st.
Proof. intros (p & Hp & Hs) Hne. exists p. split; [|done]. cbn. by rewrite list_lookup_alter_ne. Qed.

Lemma in_state_upd_same t i f st :
  in_state t i st -> (forall p, p_state (f p) = p_state p) -> in_state (upd_proc i f t) i st.
Proof. intros (p & Hp & Hs) Hf. exists (f p). cbn. rewrite list_lookup_alter_eq, Hp. by rewrite Hf. Qed.

Lemma runnable_wakeup t i c : in_state t i RUNNABLE -> in_state (wakeup1 c t) i RUNNABLE.
Proof.
  intros (p & Hp & Hs). exists p. cbn. rewrite list_lookup_fmap, Hp. cbn. by rewrite decide_False by (rewrite Hs; naive_solver).
Qed.

Lemma runnable_exit_child t i j : in_state t i RUNNABLE -> in_state (exit_child t j) i RUNNABLE.
Proof.
  intros Hi. unfold exit_child. destruct (is_child _ _ _); [|done].
  assert (in_state (upd_proc j (p_set_parent (pt_initproc t)) t) i RUNNABLE) as H.
  { destruct (decide (i = j)) as [->|]; [by apply in_state_upd_same|by apply in_state_upd]. }
  destruct (decide _); [by apply runnable_wakeup|done].
Qed.

Lemma exit_children_keep l : forall t i,
  in_state t i RUNNABLE -> in_state (foldl exit_child t l) i RUNNABLE /\ pt_cur (foldl exit_child t l) = pt_cur t.
Proof.
  induction l as [|j l IH]; intros t i Hi; [done|]. cbn [foldl].
  destruct (IH (exit_child t j) i) as [H1 H2]; [by apply runnable_exit_child|]. split; [done|]. rewrite H2.
  unfold exit_child. destruct (is_child _ _ _); [|done]. by destruct (decide _).
Qed.

(** No step of another process changes it. *)
Lemma runnable_step t t' i k :
  proc_step t t' -> pt_cur t = Some k -> k <> i -> in_state t i RUNNABLE -> in_state t' i RUNNABLE.
Proof.
  intros Hst Hk Hne Hi. pose proof Hi as (p & Hp & Hs).
  destruct Hst as [t j q Hc|t _|t j c Hc _ _|t _ _|t j _ Hw|t c|t pid r t' Hkill|t j t' Ha|t j q Hq Hsq|t j q pg fl _ Hq Hsq|t _ _].
  - congruence.
  - unfold yield_slot, upd_cur. rewrite Hk. by apply in_state_upd.
  - unfold sleep_slot, upd_cur. rewrite Hk. by apply in_state_upd.
  - unfold sleep_slot, upd_cur. rewrite Hk. by apply in_state_upd.
  - apply in_state_upd; [done|]. intros <-. pose proof (wait_scan_spec t) as Hsc. rewrite Hw in Hsc. destruct Hsc as (_ & _ & Hz).
    rewrite (proc_at_lookup t i p Hp) in Hz. congruence.
  - by apply runnable_wakeup.
  - unfold kill in Hkill. destruct (list_find _ _) as [[j q]|] eqn:E; [|by injection Hkill as _ <-].
    injection Hkill as _ <-. apply list_find_Some in E as (Hq & _ & _). destruct (decide (i = j)) as [<-|Hij].
    + assert (q = p) as -> by congruence. eexists. cbn. rewrite list_lookup_insert_eq by (by eapply lookup_lt_Some).
      split; [done|]. by rewrite decide_False by (by rewrite Hs).
    + exists p. cbn. by rewrite list_lookup_insert_ne by done.
  - unfold alloc_slot in Ha. destruct (list_find _ _) as [[j' q]|] eqn:E; [|done]. injection Ha as -> <-.
    apply list_find_Some in E as (Hq & Hsq & _). apply in_state_upd; [done|]. intros <-. congruence.
  - apply in_state_upd; [done|]. intros <-. congruence.
  - apply in_state_upd; [done|]. intros <-. congruence.
  - unfold exit_slot. destruct (exit_children_keep (seq 0 (length (pt_proc t))) (wakeup1 (opt_chan (p_parent (cur_proc t))) t) i) as [H1 H2].
    { by apply runnable_wakeup. }
    unfold upd_cur. rewrite H2. cbn [pt_cur wakeup1 pt_set_proc]. rewrite Hk. by apply in_state_upd.
Qed.

(** ** A pass *)

(** The process with the processor makes steps of its own; interrupts that
    come meanwhile wake and kill. *)
Definition slice_ok (slice : nat -> ptable -> ptable) : Prop :=
  forall i t, pt_cur t = Some i -> rtc (fun a b => pt_cur a = Some i /\ proc_step a b) t (slice i t).

Section fair.
Context (slice : nat -> ptable -> ptable) (Hslice : slice_ok slice).

Lemma runnable_slice t i k : in_state t i RUNNABLE -> k <> i -> in_state (switch_out (slice k (run_slot k t))) i RUNNABLE.
Proof.
  intros Hi Hne. assert (in_state (run_slot k t) i RUNNABLE) as H1 by (by apply in_state_upd).
  change (in_state (slice k (run_slot k t)) i RUNNABLE). specialize (Hslice k (run_slot k t) eq_refl). revert H1.
  induction Hslice as [|a b c [Hc Hst] _ IH]; [done|]. intros Ha. apply IH. by eapply runnable_step.
Qed.

(** A runnable process runs, or waits for its turn. *)
Lemma slots_run i l : forall t ran, in_state t i RUNNABLE ->
  if decide (i ∈ l) then i ∈ (foldl (scheduler_slot slice) (t, ran) l).2
  else in_state (foldl (scheduler_slot slice) (t, ran) l).1 i RUNNABLE.
Proof.
  assert (forall l t ran, i ∈ ran -> i ∈ (foldl (scheduler_slot slice) (t, ran) l).2) as Hkeep.
  { clear l. induction l as [|k l IH]; intros t ran Hr; [done|]. cbn [foldl scheduler_slot].
    destruct (pt_proc t !! k) as [p|]; [|by apply IH]. destruct (decide _); [|by apply IH]. apply IH, elem_of_app. by left. }
  induction l as [|k l IH]; intros t ran Hi; [by rewrite decide_False by apply not_elem_of_nil|]. cbn [foldl scheduler_slot].
  destruct (decide (k = i)) as [->|Hne].
  - rewrite decide_True by (by left). destruct Hi as (p & Hp & Hs). rewrite Hp, decide_True by done.
    apply Hkeep, elem_of_app. right. by apply list_elem_of_singleton.
  - specialize (IH (scheduler_slot slice (t, ran) k).1 (scheduler_slot slice (t, ran) k).2).
    rewrite <- (surjective_pairing (scheduler_slot slice (t, ran) k)) in IH. cbn [scheduler_slot] in IH |- *.
    assert (i ∈ k :: l <-> i ∈ l) as Hiff by (rewrite elem_of_cons; naive_solver). rewrite (decide_ext _ _ _ _ Hiff). apply IH.
    destruct (pt_proc t !! k) as [p|]; [|done]. destruct (decide _); [|done]. by apply runnable_slice.
Qed.

Lemma pass_runs t i : in_state t i RUNNABLE -> (i < Z.to_nat NPROC)%nat -> i ∈ (scheduler_pass slice t).2.
Proof.
  intros Hi Hlt. pose proof (slots_run i (seq 0 (Z.to_nat NPROC)) t [] Hi) as H. by rewrite decide_True in H by (apply elem_of_seq; lia).
Qed.

(** Nobody runs twice. *)
Lemma slots_sublist l : forall t ran l0, ran `sublist_of` l0 -> (foldl (scheduler_slot slice) (t, ran) l).2 `sublist_of` l0 ++ l.
Proof.
  induction l as [|k l IH]; intros t ran l0 Hr; [by rewrite app_nil_r|]. cbn [foldl]. rewrite cons_middle, app_assoc.
  rewrite (surjective_pairing (scheduler_slot slice (t, ran) k)). apply IH. cbn [scheduler_slot].
  destruct (pt_proc t !! k) as [p|]; [|by apply sublist_inserts_r]. destruct (decide _); [by apply sublist_app|by apply sublist_inserts_r].
Qed.

Lemma pass_once t : NoDup (scheduler_pass slice t).2.
Proof.
  eapply sublist_NoDup; [|apply (slots_sublist (seq 0 (Z.to_nat NPROC)) t [] []); done]. apply NoDup_seq.
Qed.
End fair.

(** A process woken on the channel it sleeps on is runnable. *)
Lemma wakeup_runnable t i p c :
  pt_proc t !! i = Some p -> p_state p = SLEEPING -> p_chan p = c -> in_state (wakeup1 c t) i RUNNABLE.
Proof.
  intros Hp Hs Hc. exists (p_set_state RUNNABLE p). cbn. rewrite list_lookup_fmap, Hp. cbn. by rewrite decide_True.
Qed.
