(* ===== verification/Userinit.v ===== *)
(** * The first process (kernel/proc.c, kernel/vm.c)

    [inituvm] gives an address space its first page with the program that the
    build embeds in the kernel; [userinit] makes the first process from it. *)

From S2P Require Import Prelude Monad Params CString Kalloc ProcTable Pipe Ide Bio Block Inode.
From S2P Require Import Content Path Vm VmSpec UserMem File Exec Proc.

(** ** inituvm *)

(** The first page: the program and zeros. *)
Definition init_page (init : list Z) : list Z := init ++ zeros (PGSIZE - Z.of_nat (length init)).

Lemma splice_zeros (init : list Z) :
  (length init <= Z.to_nat PGSIZE)%nat -> splice 0 init (zeros PGSIZE) = init_page init.
Proof.
  intros Hl. rewrite splice_prefix by (rewrite length_zeros; lia). unfold init_page. f_equal.
  unfold zeros. rewrite drop_replicate. f_equal. lia.
Qed.

Section userinit.
Context {DV : Devsw} (kend kdata : Z) (Hkend : 0 < kend) (Hkd : kdata mod PGSIZE = 0) (Hkd2 : 0x100000 < kdata < PHYSTOP).

Lemma inituvm_spec m d mem l init :
  uspace kend m d (mem :: l) -> frame_of m d 0 = None -> Z.of_nat (length init) < PGSIZE ->
  wp (inituvm d init (Z.of_nat (length init))) (fun _ m' => free_list kend m' l /\ page_at mem m' = init_page init /\
    (forall va, va_ok va -> pte_of m' d va = if decide (page_base va = 0) then entry mem PTE_UW else pte_of m d va) /\
    same_but (tabs m d ++ [mem]) m m') m.
Proof.
  intros Hu Hn Hsz. unfold inituvm. rewrite (proj2 (Z.leb_gt PGSIZE _)) by done.
  wcall (kalloc_user kend Hkend m d (mem :: l)); [done|]. cbv beta. intros r m1 (Hp & Hu1 & ->). cbn [head tail from_option id] in *.
  wstep. wstep. wcall (install_frame kend Hkend m d mem l m1 0 (zeros PGSIZE));
    [done|done|done|apply length_zeros|apply Forall_zeros|apply elem_of_upages; by vm_compute|done|].
  cbv beta. intros r m2 (_ & [Hu2 Et (k & Hk & Pf & Hs)] & Hz & Hpte). wsteps.
  assert (k = [mem]) as -> by (apply (app_inv_tail l); by rewrite <- Hk).
  rewrite Hz, slice_all, splice_zeros by (unfold PGSIZE in *; lia).
  assert (mem ∉ d :: tabs m2 d ++ l) as Hm.
  { pose proof (us_nodup _ _ _ _ Hu2) as Hnd. rewrite Pf in Hnd. cbn [app] in Hnd.
    rewrite app_comm_cons, <- Permutation_middle, NoDup_cons in Hnd. destruct Hnd as [Hnd _]. set_solver. }
  split_and!.
  - eapply free_list_ext; [apply Hu2|done|]. intros p Hpp. rewrite page_at_insert, decide_False; [done|]. set_solver.
  - by rewrite page_at_insert, decide_True.
  - intros va Hva. rewrite <- Hpte by done. apply pte_of_same; [done|..].
    + rewrite page_at_insert, decide_False; [done|]. set_solver.
    + intros t Ht. rewrite page_at_insert, decide_False; [done|]. set_solver.
  - intros p Hpp. rewrite page_at_insert, decide_False by set_solver. by apply Hs.
Qed.

(** ** userinit *)

(** The inode cache in static storage, and the inode of the root. *)
Definition inodes0 : list inode := replicate (Z.to_nat NINODE) zero_inode.
Definition root_inode : inode := i_set_flags 0 (i_set_ref 1 (i_set_inum ROOTINO (i_set_dev ROOTDEV zero_inode))).

(** The name of the root needs no disk. *)
Lemma namei_root b : namei root_path (Fs b inodes0) = Ret (Some 0%nat) (Fs b (<[0%nat := root_inode]> inodes0)).
Proof. by vm_compute. Qed.

(** The first process. *)
Definition first_proc (kstack pgdir : Z) : proc :=
  Proc PGSIZE pgdir kstack RUNNABLE 1 None user_tf (Context 0 0 0 0 Kforkret) ChNone 0
    (replicate (Z.to_nat NOFILE) None) (Some 0%nat) (initcode_name ++ zeros 7).
Definition first_table (kstack pgdir : Z) : ptable :=
  Ptable (<[0%nat := first_proc kstack pgdir]> (pt_proc ptable0)) 2 (Some 0%nat) None.

(** Steps on the table and on memory. *)
Section steps.
Context (bufs : list buf) (q : option nat) (h : bool) (tf : taskfile) (d : gmap (Z * Z) (list Z)) (bad : Z * Z -> bool).
Context (ino : list inode) (files : list file) (pipes : gmap Z pipe).
Local Notation K t m := (Kern (Fs (Bio t bufs q h tf d bad) ino) files pipes m).

Lemma wp_table f (Q : unit -> kern -> Prop) t m : Q tt (K (f t) m) -> wp (zoom pt_of_kern (modify f)) Q (K t m).
Proof. intros H. exact H. Qed.

Lemma wp_memory {A} (op : M kmem A) (Q : A -> kern -> Prop) t m :
  wp op (fun a m' => Q a (K t m')) m -> wp (zoom mem_of_kern op) Q (K t m).
Proof. intros H. apply wp_zoom. exact H. Qed.
End steps.

Lemma allocproc_first bufs q h tf d bad files pipes m l :
  free_list kend m l -> (1 <= length l)%nat ->
  wp allocproc (fun op s' => exists kstack t1 m1, op = Some 0%nat /\ l = kstack :: tail l /\
    s' = Kern (Fs (Bio t1 bufs q h tf d bad) inodes0) files pipes m1 /\ free_list kend m1 (tail l) /\ same_but l m m1 /\
    forall dir, upd_proc 0 (fun x => p_set_state RUNNABLE (p_set_cwd (Some 0%nat) x))
      (upd_proc 0 (fun x => set_name initcode_name (p_set_tf user_tf (p_set_sz PGSIZE (p_set_pgdir dir x))))
        (pt_set_initproc (Some 0%nat) t1)) = first_table kstack dir)
    (Kern (Fs (Bio ptable0 bufs q h tf d bad) inodes0) files pipes m).
Proof.
  intros Hf Hl. unfold allocproc. apply wp_bind, wp_gets. cbn [lget pt_of_kern lens_comp bio_of_kern fs_of_kern bio_of_fs pt_of_fs pt_of_bio k_fs fs_bio bio_pt].
  assert (exists t1, alloc_slot ptable0 = Some (0%nat, t1) /\ forall ks tfj dir,
    upd_proc 0 (fun x => p_set_state RUNNABLE (p_set_cwd (Some 0%nat) x))
     (upd_proc 0 (fun x => set_name initcode_name (p_set_tf user_tf (p_set_sz PGSIZE (p_set_pgdir dir x))))
      (pt_set_initproc (Some 0%nat)
        (upd_proc 0 (fun p => p_set_context (Context 0 0 0 0 Kforkret) (p_set_tf tfj p))
          (upd_proc 0 (p_set_kstack ks) t1)))) = first_table ks dir) as (t1 & Ea & Et).
  { eexists. split; [reflexivity|]. intros. reflexivity. }
  rewrite Ea. apply wp_bind, wp_table, wp_bind, wp_memory.
  eapply wp_mono; [by apply (kalloc_spec kend)|]. cbv beta. intros ks m1 (Hpg & Hf1 & ->).
  assert (same_but l m m1) as Hsb by (intros p _; unfold page_at; by rewrite Hpg).
  destruct l as [|ks l]; [cbn in Hl; lia|]. cbn [head tail default] in *. unfold id.
  assert (ks <> 0) as Hnz.
  { pose proof (fl_valid _ _ _ Hf) as Hv. apply Forall_cons in Hv as [Hv _]. pose proof (valid_range kend Hkend _ Hv). lia. }
  apply wp_bind, wp_table. rewrite (proj2 (Z.eqb_neq ks 0) Hnz). apply wp_bind, wp_gets, wp_bind, wp_table, wp_ret.
  eexists _, _, _. split; [done|]. split; [done|]. split; [reflexivity|]. split; [done|]. split; [done|]. intros dir. apply Et.
Qed.

Lemma userinit_spec bufs q h tf d bad files pipes m l init :
  free_list kend m l -> (16 <= length l)%nat -> Z.of_nat (length init) < PGSIZE ->
  wp (userinit kdata init) (fun _ s' => exists kstack pgdir mem k l',
    l = kstack :: pgdir :: k ++ mem :: l' /\
    s' = Kern (Fs (Bio (first_table kstack pgdir) bufs q h tf d bad) (<[0%nat := root_inode]> inodes0)) files pipes (k_mem s') /\
    free_list kend (k_mem s') l' /\ page_at mem (k_mem s') = init_page init /\
    (forall va, va_ok va -> pte_of (k_mem s') pgdir va =
      if decide (page_base va = 0) then entry mem PTE_UW else kmap_pte (kmap kdata) va) /\
    same_but l m (k_mem s'))
    (Kern (Fs (Bio ptable0 bufs q h tf d bad) inodes0) files pipes m).
Proof.
  intros Hf Hl Hsz. unfold userinit. apply wp_bind. eapply wp_mono; [apply (allocproc_first _ _ _ _ _ _ _ _ m l); [done|lia]|].
  cbv beta. intros op s1 (ks & t1 & m1 & -> & El & -> & Hf1 & Hsb & Et). rewrite El in Hl |- *. generalize dependent (tail l).
  clear Hf. intros l0 Hl -> Hf. rename l0 into l. cbn [length] in Hl. apply wp_bind, wp_table, wp_bind, wp_memory.
  eapply wp_mono; [by apply (setupkvm_spec kend Hkend kdata Hkd Hkd2 m1 l)|]. cbv beta.
  intros dir m2 [(_ & _ & _ & H)|(Hd & k & l1 & -> & Hk & Hp & Hok & Hs & Hpte)]; [lia|].
  rewrite (proj2 (Z.eqb_neq dir 0) Hd). destruct (fresh_uspace kend kdata Hkd2 m2 dir l1 Hok Hpte) as [Hu _].
  rewrite length_cons, length_app in Hl. destruct l1 as [|mem l1]; [cbn in Hl; lia|].
  assert (frame_of m2 dir 0 = None) as Hn.
  { unfold frame_of. rewrite Hpte by by vm_compute. by rewrite (kmap_user kdata Hkd2) by by vm_compute. }
  apply wp_bind, wp_memory. eapply wp_mono; [by apply (inituvm_spec m2 dir mem l1)|]. cbv beta.
  intros _ m3 (Hf3 & Hz & Hpte3 & Hs3). apply wp_bind, wp_table, wp_bind, wp_zoom. cbn [lget fs_of_kern k_fs].
  unfold wp at 1. rewrite namei_root. cbn [lset fs_of_kern k_set_fs k_file k_pipe k_mem].
  apply wp_table. exists ks, dir, mem, k, l1. cbn [k_mem]. rewrite Et.
  split_and!; [done|done|done|done| |].
  - intros va Hva. rewrite Hpte3 by done. by rewrite Hpte by done.
  - intros p Hpp. rewrite Hs3, Hs, Hsb; [done|done|set_solver|]. rewrite Hp. set_solver.
Qed.
End userinit.
