(* ===== verification/X86.v ===== *)
(** * Machine code of the kernel (kernel/swtch.S, kernel/trapasm.S,
      kernel/vectors.pl)

    The registers and the instructions the assembly files use, the files as
    lists of instructions, and the stack as a list of words.  [swtch] saves
    and loads contexts; the trap entry builds a struct trapframe on the kernel
    stack and [trapret] loads the registers from one. *)

From S2P Require Import Prelude CString ProcTable Params Proc.

(** ** State *)

Inductive reg := EAX | ECX | EDX | EBX | ESP | EBP | ESI | EDI.
Inductive sreg := ES | CS | SS | DS | FS | GS.

#[global] Instance reg_eq_dec : EqDecision reg.
Proof. solve_decision. Defined.
#[global] Instance sreg_eq_dec : EqDecision sreg.
Proof. solve_decision. Defined.

Definition reg_eqb (r q : reg) : bool :=
  match r, q with
  | EAX, EAX | ECX, ECX | EDX, EDX | EBX, EBX | ESP, ESP | EBP, EBP | ESI, ESI | EDI, EDI => true
  | _, _ => false
  end.
Definition sreg_eqb (r q : sreg) : bool :=
  match r, q with
  | ES, ES | CS, CS | SS, SS | DS, DS | FS, FS | GS, GS => true
  | _, _ => false
  end.

(** [m_eip] is set where control is transferred; inside a list of instructions
    the position in the list is the program counter. *)
Record machine := Machine {
  m_reg : reg -> Z;
  m_seg : sreg -> Z;
  m_eip : Z;
  m_eflags : Z;
  m_mem : mem;
}.

Definition set_reg (r : reg) (v : Z) (s : machine) : machine :=
  Machine (fun x => if reg_eqb x r then v else m_reg s x) (m_seg s) (m_eip s) (m_eflags s) (m_mem s).
Definition set_seg (r : sreg) (v : Z) (s : machine) : machine :=
  Machine (m_reg s) (fun x => if sreg_eqb x r then v else m_seg s x) (m_eip s) (m_eflags s) (m_mem s).
Definition set_eip (v : Z) (s : machine) : machine := Machine (m_reg s) (m_seg s) v (m_eflags s) (m_mem s).
Definition set_eflags (v : Z) (s : machine) : machine := Machine (m_reg s) (m_seg s) (m_eip s) v (m_mem s).
Definition set_mem (v : mem) (s : machine) : machine := Machine (m_reg s) (m_seg s) (m_eip s) (m_eflags s) v.

Definition ld32 (a : Z) (m : mem) : Z := le_dec (load_bytes a 4 m).
Definition st32 (a v : Z) (m : mem) : mem := store_bytes a (le_enc 4 v) m.

(** ** Instructions *)

Inductive instr :=
| Movl_load (d : Z) (b r : reg)   (* movl d(%b), %r *)
| Movl_store (r b : reg)          (* movl %r, (%b) *)
| Movl (r d : reg)                (* movl %r, %d *)
| Movl_imm (v : Z) (r : reg)      (* movl $v, %r *)
| Movw_imm (v : Z) (r : reg)      (* movw $v, the low half of %r *)
| Movw_seg (r : reg) (g : sreg)   (* movw the low half of %r, %g *)
| Pushl_imm (v : Z)
| Pushl (r : reg)
| Pushl_seg (g : sreg)
| Popl (r : reg)
| Popl_seg (g : sreg)
| Pushal
| Popal
| Addl_imm (v : Z) (r : reg)
| Call (f back : Z)               (* the next instruction is at [back] *)
| Jmp (f : Z)
| Retl
| Iret.

Definition push (v : Z) (s : machine) : machine :=
  let sp := u32 (m_reg s ESP - 4) in set_mem (st32 sp v (m_mem s)) (set_reg ESP sp s).
Definition top (s : machine) : Z := ld32 (m_reg s ESP) (m_mem s).
Definition drop_top (s : machine) : machine := set_reg ESP (u32 (m_reg s ESP + 4)) s.
Definition pop_reg (r : reg) (s : machine) : machine := set_reg r (top s) (drop_top s).

(** The privilege level of a selector. *)
Definition rpl (sel : Z) : Z := Z.land sel 3.

(** [iret] loads the stack too when it returns to an outer level. *)
Definition iret (s : machine) : machine :=
  let cpl := rpl (m_seg s CS) in
  let eip := top s in let s := drop_top s in
  let cs := u16 (top s) in let s := drop_top s in
  let fl := top s in let s := drop_top s in
  let s := set_eip eip (set_seg CS cs (set_eflags fl s)) in
  if rpl cs =? cpl then s
  else
    let esp := top s in let s := drop_top s in
    let ss := u16 (top s) in
    set_reg ESP esp (set_seg SS ss s).

Definition run1 (s : machine) (i : instr) : machine :=
  match i with
  | Movl_load d b r => set_reg r (ld32 (u32 (m_reg s b + d)) (m_mem s)) s
  | Movl_store r b => set_mem (st32 (m_reg s b) (m_reg s r) (m_mem s)) s
  | Movl r d => set_reg d (m_reg s r) s
  | Movl_imm v r => set_reg r v s
  | Movw_imm v r => set_reg r (Z.lor (Z.shiftl (Z.shiftr (m_reg s r) 16) 16) (u16 v)) s
  | Movw_seg r g => set_seg g (u16 (m_reg s r)) s
  | Pushl_imm v => push v s
  | Pushl r => push (m_reg s r) s
  | Pushl_seg g => push (m_seg s g) s
  | Popl r => pop_reg r s
  | Popl_seg g => set_seg g (u16 (top s)) (drop_top s)
  | Pushal =>
      foldl (fun s v => push v s) s (m_reg s <$> [EAX; ECX; EDX; EBX; ESP; EBP; ESI; EDI])
  | Popal =>
      foldl (fun s r => pop_reg r s) (drop_top (foldl (fun s r => pop_reg r s) s [EDI; ESI; EBP])) [EBX; EDX; ECX; EAX]
  | Addl_imm v r => set_reg r (u32 (m_reg s r + v)) s
  | Call f back => set_eip f (push back s)
  | Jmp f => set_eip f s
  | Retl => set_eip (top s) (drop_top s)
  | Iret => iret s
  end.

Definition run (c : list instr) (s : machine) : machine := foldl run1 s c.

(** ** The code *)

(** swtch.S *)
Definition swtch : list instr :=
  [ Movl_load 4 ESP EAX; Movl_load 8 ESP EDX;
    Pushl EBP; Pushl EBX; Pushl ESI; Pushl EDI;
    Movl_store ESP EAX; Movl EDX ESP;
    Popl EDI; Popl ESI; Popl EBX; Popl EBP; Retl ].

(** The exceptions for which the processor itself pushes an error code. *)
Definition has_err (i : Z) : bool := (i =? 8) || ((10 <=? i) && (i <=? 14)) || (i =? 17).

Section Code.
(** Addresses that the linker chooses. *)
Context (alltraps_at trap_at trap_back : Z).

(** The entry point [vector i] that vectors.pl prints. *)
Definition vector (i : Z) : list instr :=
  (if negb (has_err i) then [Pushl_imm 0] else []) ++ [Pushl_imm i; Jmp alltraps_at].

Definition SEG_KCODE : Z := 1.
Definition SEG_KDATA : Z := 2.
Definition SEG_KCPU : Z := 3.

(** trapasm.S up to the call of [trap]. *)
Definition alltraps : list instr :=
  [ Pushl_seg DS; Pushl_seg ES; Pushl_seg FS; Pushl_seg GS; Pushal;
    Movw_imm (Z.shiftl SEG_KDATA 3) EAX; Movw_seg EAX DS; Movw_seg EAX ES;
    Movw_imm (Z.shiftl SEG_KCPU 3) EAX; Movw_seg EAX FS; Movw_seg EAX GS;
    Pushl ESP; Call trap_at trap_back ].
End Code.

(** trapasm.S after the call. *)
Definition trapret : list instr :=
  [ Popal; Popl_seg GS; Popl_seg FS; Popl_seg ES; Popl_seg DS; Addl_imm 8 ESP; Iret ].
Definition alltraps_return : list instr := Addl_imm 4 ESP :: trapret.

(** ** Words in memory *)

Definition is_word32 (w : Z) : Prop := 0 <= w < 2 ^ 32.

Lemma ld_st32 a v m : 0 <= a -> a + 4 <= 2 ^ 32 -> is_word32 v -> ld32 a (st32 a v m) = v.
Proof.
  intros Ha Hl Hv. unfold ld32, st32. change 4 with (Z.of_nat (length (le_enc 4 v))) at 1.
  rewrite load_store by (rewrite ?length_le_enc; lia). apply le_dec_enc, Hv.
Qed.

Lemma ld_st32_ne a b v m :
  0 <= a -> a + 4 <= 2 ^ 32 -> 0 <= b -> b + 4 <= 2 ^ 32 -> a + 4 <= b \/ b + 4 <= a ->
  ld32 a (st32 b v m) = ld32 a m.
Proof. intros. unfold ld32, st32. rewrite load_store_ne by (rewrite ?length_le_enc; lia). done. Qed.

(** The words from address [a] on. *)
Fixpoint words_at (a : Z) (ws : list Z) (m : mem) : Prop :=
  match ws with
  | [] => True
  | w :: ws => ld32 a m = w /\ words_at (a + 4) ws m
  end.

Lemma words_at_lookup a ws m k w : words_at a ws m -> ws !! k = Some w -> ld32 (a + 4 * Z.of_nat k) m = w.
Proof.
  revert a k. induction ws as [|x ws IH]; intros a k Hw Hk; [done|]. destruct Hw as [Hx Hw].
  destruct k as [|k]; simpl in Hk.
  - injection Hk as ->. by rewrite Z.add_0_r.
  - rewrite <- (IH _ _ Hw Hk). f_equal. lia.
Qed.

Lemma words_at_app a ws1 ws2 m :
  words_at a (ws1 ++ ws2) m <-> words_at a ws1 m /\ words_at (a + 4 * Z.of_nat (length ws1)) ws2 m.
Proof.
  revert a. induction ws1 as [|w ws1 IH]; intros a; simpl; [by rewrite Z.add_0_r; naive_solver|].
  rewrite IH. replace (a + 4 + 4 * Z.of_nat (length ws1)) with (a + 4 * Z.of_nat (S (length ws1))) by lia. tauto.
Qed.

(** Memory outside [lo, hi) is unchanged. *)
Definition same_outside (lo hi : Z) (m m' : mem) : Prop :=
  forall x, 0 <= x < 2 ^ 32 -> x < lo \/ hi <= x -> m' x = m x.

Lemma same_outside_refl lo hi m : same_outside lo hi m m.
Proof. done. Qed.

Lemma same_outside_trans lo hi m m1 m2 :
  same_outside lo hi m m1 -> same_outside lo hi m1 m2 -> same_outside lo hi m m2.
Proof. intros H1 H2 x Hx Ho. rewrite H2, H1; done. Qed.

Lemma same_outside_weaken lo hi lo' hi' m m' :
  same_outside lo hi m m' -> lo' <= lo -> hi <= hi' -> same_outside lo' hi' m m'.
Proof. intros H Hl Hh x Hx Ho. apply H; [done|lia]. Qed.

Lemma st32_outside a v m : 0 <= a -> a + 4 <= 2 ^ 32 -> same_outside a (a + 4) m (st32 a v m).
Proof. intros Ha Hl x Hx Ho. unfold st32. apply store_out; rewrite ?length_le_enc; lia. Qed.

Lemma words_at_ext a ws m m' :
  0 <= a -> a + 4 * Z.of_nat (length ws) <= 2 ^ 32 ->
  (forall x, a <= x < a + 4 * Z.of_nat (length ws) -> m' x = m x) -> words_at a ws m -> words_at a ws m'.
Proof.
  revert a. induction ws as [|w ws IH]; intros a Ha Hl Hm Hw; [done|].
  destruct Hw as [Hx Hw]. cbn [length] in *. split; [|apply IH; try done; [lia|lia|intros x ?; apply Hm; lia]].
  rewrite <- Hx. unfold ld32. f_equal. apply load_bytes_ext. intros i Hi. rewrite u32_small by lia. apply Hm. lia.
Qed.

Lemma words_at_outside lo hi a ws m m' :
  same_outside lo hi m m' -> 0 <= a -> a + 4 * Z.of_nat (length ws) <= 2 ^ 32 ->
  a + 4 * Z.of_nat (length ws) <= lo \/ hi <= a -> words_at a ws m -> words_at a ws m'.
Proof.
  intros Hm Ha Hl Ho. apply words_at_ext; [done|done|]. intros x Hx. apply Hm; lia.
Qed.

(** ** Pushing *)

Definition pushes (vs : list Z) (s : machine) : machine := foldl (fun s v => push v s) s vs.

Lemma pushes_other vs s :
  (forall r, r <> ESP -> m_reg (pushes vs s) r = m_reg s r) /\ m_seg (pushes vs s) = m_seg s /\
  m_eip (pushes vs s) = m_eip s /\ m_eflags (pushes vs s) = m_eflags s.
Proof.
  unfold pushes. revert s. induction vs as [|v vs IH]; intros s; [done|]. cbn [foldl].
  destruct (IH (push v s)) as (H1 & -> & -> & ->). split_and!; [|done..].
  intros r Hr. rewrite H1 by done. by destruct r.
Qed.

Lemma pushes_spec vs s a ws :
  m_reg s ESP = a -> 4 * Z.of_nat (length vs) <= a -> a < 2 ^ 32 -> a + 4 * Z.of_nat (length ws) <= 2 ^ 32 ->
  Forall is_word32 vs -> words_at a ws (m_mem s) ->
  let a' := a - 4 * Z.of_nat (length vs) in
  m_reg (pushes vs s) ESP = a' /\ words_at a' (reverse vs ++ ws) (m_mem (pushes vs s)) /\
  same_outside a' a (m_mem s) (m_mem (pushes vs s)).
Proof.
  intros Hsp Hn Ha Hlim Hv. revert s a ws Hsp Hn Ha Hlim.
  unfold pushes. induction Hv as [|v vs Hv _ IH]; intros s a ws Hsp Hn Ha Hlim Hw.
  { simpl. rewrite Z.sub_0_r. done. }
  cbn [length] in *. cbn [foldl].
  assert (m_reg (push v s) ESP = a - 4) as Hsp1 by (unfold push; cbn; rewrite Hsp, u32_small by lia; done).
  assert (m_mem (push v s) = st32 (a - 4) v (m_mem s)) as Hm1 by (unfold push; cbn; rewrite Hsp, u32_small by lia; done).
  assert (same_outside (a - 4) a (m_mem s) (m_mem (push v s))) as Ho1.
  { rewrite Hm1. replace a with (a - 4 + 4) at 2 by lia. apply st32_outside; lia. }
  assert (words_at (a - 4) (v :: ws) (m_mem (push v s))) as Hw1.
  { cbn [words_at]. split; [rewrite Hm1; apply ld_st32; [lia..|done]|].
    replace (a - 4 + 4) with a by lia. eapply words_at_outside; [exact Ho1|lia..|done]. }
  destruct (IH (push v s) (a - 4) (v :: ws)) as (H1 & H2 & H3); [done|lia|lia|cbn [length]; lia|done|].
  replace (a - 4 - 4 * Z.of_nat (length vs)) with (a - 4 * Z.of_nat (S (length vs))) in H1, H2, H3 by lia.
  cbv zeta. split; [exact H1|]. split; [rewrite reverse_cons, <- app_assoc; exact H2|].
  apply (same_outside_trans _ _ _ (m_mem (push v s))); [apply (same_outside_weaken _ _ _ _ _ _ Ho1); lia|].
  apply (same_outside_weaken _ _ _ _ _ _ H3); lia.
Qed.

Lemma run_app c1 c2 s : run (c1 ++ c2) s = run c2 (run c1 s).
Proof. apply foldl_app. Qed.

Lemma run_cons i c s : run (i :: c) s = run c (run1 s i).
Proof. done. Qed.

Lemma push_reg v s r : r <> ESP -> m_reg (push v s) r = m_reg s r.
Proof. by destruct r. Qed.

Lemma run_push_regs rs s : Forall (fun r => r <> ESP) rs -> run (Pushl <$> rs) s = pushes (m_reg s <$> rs) s.
Proof.
  intros Hrs. revert s. induction Hrs as [|r rs Hr Hrs IH]; intros s; [done|].
  change (run (Pushl <$> rs) (push (m_reg s r) s) = pushes (m_reg s <$> rs) (push (m_reg s r) s)).
  rewrite IH. f_equal. apply list_fmap_ext. intros i q Hq.
  apply push_reg. by apply (Forall_lookup_1 _ _ _ _ Hrs Hq).
Qed.

Lemma run_push_segs gs s : run (Pushl_seg <$> gs) s = pushes (m_seg s <$> gs) s.
Proof.
  revert s. induction gs as [|g gs IH]; intros s; [done|].
  change (run (Pushl_seg <$> gs) (push (m_seg s g) s) = pushes (m_seg s <$> gs) (push (m_seg s g) s)).
  by rewrite IH.
Qed.

(** ** swtch *)

(** The words of a struct context. *)
Definition context_at (a edi esi ebx ebp eip : Z) (m : mem) : Prop :=
  words_at a [edi; esi; ebx; ebp; eip] m.

(** The registers a switch must keep. *)
Definition saved_regs : list reg := [EDI; ESI; EBX; EBP].

(** The first half of [swtch]: the context of the caller is on its stack, and
    the pointer to it in [*old]. *)
Lemma swtch_save s a ra old new (c := [Movl_load 4 ESP EAX; Movl_load 8 ESP EDX;
    Pushl EBP; Pushl EBX; Pushl ESI; Pushl EDI; Movl_store ESP EAX; Movl EDX ESP]) :
  m_reg s ESP = a -> 16 <= a -> a + 12 <= 2 ^ 32 -> words_at a [ra; old; new] (m_mem s) ->
  Forall is_word32 (m_reg s <$> saved_regs) -> 0 <= old -> old + 4 <= 2 ^ 32 -> old + 4 <= a - 16 \/ a + 4 <= old ->
  exists m1, same_outside (a - 16) a (m_mem s) m1 /\
    let s' := run c s in
    m_mem s' = st32 old (a - 16) m1 /\ m_reg s' ESP = new /\
    context_at (a - 16) (m_reg s EDI) (m_reg s ESI) (m_reg s EBX) (m_reg s EBP) ra (m_mem s') /\
    m_seg s' = m_seg s /\ m_eflags s' = m_eflags s.
Proof.
  intros Hsp Ha Hlim (Hra & Hold & Hnew & _) Hwf Ho1 Ho2 Hdis.
  set (s1 := set_reg EDX (ld32 (u32 (m_reg s ESP + 8)) (m_mem s))
    (set_reg EAX (ld32 (u32 (m_reg s ESP + 4)) (m_mem s)) s)).
  set (vs := [m_reg s EBP; m_reg s EBX; m_reg s ESI; m_reg s EDI]).
  assert (Forall is_word32 vs) as Hvs.
  { unfold saved_regs in Hwf. rewrite !fmap_cons, !Forall_cons in Hwf. destruct Hwf as (H1 & H2 & H3 & H4 & _). unfold vs. by rewrite !Forall_cons, Forall_nil. }
  destruct (pushes_spec vs s1 a [ra]) as (E1 & E2 & E3); [exact Hsp|simpl; lia|lia|simpl; lia|done|by split|].
  destruct (pushes_other vs s1) as (F1 & F2 & F3 & F4).
  change (a - 4 * Z.of_nat (length vs)) with (a - 16) in *.
  exists (m_mem (pushes vs s1)). split; [exact E3|].
  assert (m_reg (pushes vs s1) EAX = old) as Eax.
  { rewrite F1 by done. unfold s1. cbn. rewrite Hsp, u32_small by lia. exact Hold. }
  assert (m_reg (pushes vs s1) EDX = new) as Edx.
  { rewrite F1 by done. unfold s1. cbn. rewrite Hsp, u32_small by lia.
    replace (a + 8) with (a + 4 + 4) by lia. exact Hnew. }
  assert (run c s = run [Movl_store ESP EAX; Movl EDX ESP] (pushes vs s1)) as ->.
  { change c with ([Movl_load 4 ESP EAX; Movl_load 8 ESP EDX] ++ (Pushl <$> [EBP; EBX; ESI; EDI]) ++
      [Movl_store ESP EAX; Movl EDX ESP]).
    rewrite !run_app. change (run [Movl_load 4 ESP EAX; Movl_load 8 ESP EDX] s) with s1.
    rewrite run_push_regs by (by repeat constructor). done. }
  cbn [run foldl run1]. cbv zeta. unfold set_mem, set_reg. cbn [m_mem m_reg m_seg m_eflags].
  rewrite E1, Eax, Edx, F2, F4. split; [done|]. split; [done|]. split; [|done].
  unfold context_at. eapply words_at_outside; [apply st32_outside; lia|lia|simpl; lia|simpl; lia|exact E2].
Qed.

(** The second half loads the context at the stack pointer. *)
Lemma swtch_load s new edi esi ebx ebp eip (c := [Popl EDI; Popl ESI; Popl EBX; Popl EBP; Retl]) :
  m_reg s ESP = new -> 0 <= new -> new + 20 < 2 ^ 32 -> context_at new edi esi ebx ebp eip (m_mem s) ->
  let s' := run c s in
  m_reg s' <$> saved_regs = [edi; esi; ebx; ebp] /\ m_reg s' ESP = new + 20 /\ m_eip s' = eip /\
  m_mem s' = m_mem s /\ m_seg s' = m_seg s /\ m_eflags s' = m_eflags s.
Proof.
  intros Hsp H0 Hlim (H1 & H2 & H3 & H4 & H5 & _). cbn.
  rewrite Hsp. rewrite (u32_small (new + 4)) by lia. rewrite (u32_small (new + 4 + 4)) by lia.
  rewrite (u32_small (new + 4 + 4 + 4)) by lia. rewrite (u32_small (new + 4 + 4 + 4 + 4)) by lia.
  rewrite (u32_small (new + 4 + 4 + 4 + 4 + 4)) by lia. unfold top. cbn. rewrite Hsp.
  rewrite (u32_small (new + 4)) by lia. rewrite (u32_small (new + 4 + 4)) by lia.
  rewrite (u32_small (new + 4 + 4 + 4)) by lia. rewrite (u32_small (new + 4 + 4 + 4 + 4)) by lia.
  rewrite H1, H2, H3, H4, H5. split_and!; [done|lia|done..].
Qed.

(** The call [swtch(old, new)] with its arguments on the stack. *)
Record swtch_call (s : machine) (a ra old new : Z) : Prop := SwtchCall {
  sc_esp : m_reg s ESP = a;
  sc_room : 16 <= a /\ a + 12 <= 2 ^ 32;
  sc_args : words_at a [ra; old; new] (m_mem s);
  sc_regs : Forall is_word32 (m_reg s <$> saved_regs);
  sc_old : 0 <= old /\ old + 4 <= 2 ^ 32 /\ (old + 4 <= a - 16 \/ a + 4 <= old);
  sc_new : 0 <= new /\ new + 20 < 2 ^ 32 /\ (new + 20 <= a - 16 \/ a <= new) /\ (new + 20 <= old \/ old + 4 <= new);
}.

Lemma swtch_spec s a ra old new edi esi ebx ebp eip :
  swtch_call s a ra old new -> context_at new edi esi ebx ebp eip (m_mem s) ->
  let s' := run swtch s in
  m_reg s' <$> saved_regs = [edi; esi; ebx; ebp] /\ m_reg s' ESP = new + 20 /\ m_eip s' = eip /\
  context_at (a - 16) (m_reg s EDI) (m_reg s ESI) (m_reg s EBX) (m_reg s EBP) ra (m_mem s') /\
  ld32 old (m_mem s') = a - 16 /\ m_seg s' = m_seg s /\ m_eflags s' = m_eflags s /\
  (forall x, 0 <= x < 2 ^ 32 -> x < a - 16 \/ a <= x -> x < old \/ old + 4 <= x -> m_mem s' x = m_mem s x).
Proof.
  intros [Hsp [H16 Hlim] Hargs Hwf (Ho1 & Ho2 & Hdis) (Hn1 & Hn2 & Hd1 & Hd2)] Hctx.
  destruct (swtch_save s a ra old new) as (m1 & Hm1 & E1 & E2 & E3 & E4 & E5); [done..|].
  set (s1 := run _ s) in *.
  assert (context_at new edi esi ebx ebp eip (m_mem s1)) as Hctx1.
  { rewrite E1. unfold context_at in *. eapply words_at_outside; [apply st32_outside; lia|simpl; lia..|].
    eapply words_at_outside; [exact Hm1|simpl; lia..|exact Hctx]. }
  destruct (swtch_load s1 new edi esi ebx ebp eip) as (F1 & F2 & F3 & F4 & F5 & F6); [done|lia|lia|done|].
  change (run swtch s) with (run [Popl EDI; Popl ESI; Popl EBX; Popl EBP; Retl] s1). cbv zeta.
  rewrite F1, F2, F3, F4, F5, F6, E4, E5. split_and!; try done.
  - rewrite E1. apply ld_st32; [lia..|]. unfold is_word32. lia.
  - intros x Hx Hx1 Hx2. rewrite E1. rewrite (st32_outside old (a - 16) m1 Ho1 Ho2) by done. apply Hm1; done.
Qed.

(** ** Trap frames *)

(** The words of a struct trapframe on the stack; the segment registers are
    in the low halves of their words. *)
Definition trapframe_words (t : trapframe) : list Z :=
  [tf_edi t; tf_esi t; tf_ebp t; tf_oesp t; tf_ebx t; tf_edx t; tf_ecx t; tf_eax t;
   tf_gs t; tf_fs t; tf_es t; tf_ds t; tf_trapno t; tf_err t; tf_eip t; tf_cs t; tf_eflags t; tf_esp t; tf_ss t].

(** What C code sees at a pointer to a trap frame. *)
Definition trapframe_in (a : Z) (m : mem) : trapframe := trapframe_at 0 (load_bytes a sizeof_trapframe m).

Lemma get32_load a n o m : 0 <= o -> o + 4 <= n -> get32 o (load_bytes a n m) = ld32 (a + o) m.
Proof. intros. unfold get32. by rewrite slice_load_bytes by lia. Qed.

Lemma le_dec_app l1 l2 : le_dec (l1 ++ l2) = le_dec l1 + 256 ^ Z.of_nat (length l1) * le_dec l2.
Proof.
  induction l1 as [|b l1 IH]; [simpl; lia|]. cbn [app le_dec length].
  rewrite IH, Nat2Z.inj_succ, Z.pow_succ_r by lia. lia.
Qed.

(** A halfword is the low half of the word, for a memory of bytes. *)
Definition byte_mem (m : mem) : Prop := forall x, is_byte (m x).

Lemma Forall_load_bytes a n m : byte_mem m -> Forall is_byte (load_bytes a n m).
Proof. intros Hm. unfold load_bytes. apply Forall_fmap, Forall_true. intros i. apply Hm. Qed.

Lemma get16_load a n o m :
  byte_mem m -> 0 <= o -> o + 4 <= n -> get16 o (load_bytes a n m) = u16 (ld32 (a + o) m).
Proof.
  intros Hm Ho Hn. unfold get16, ld32. rewrite slice_load_bytes by lia.
  assert (load_bytes (a + o) 4 m = load_bytes (a + o) 2 m ++ load_bytes (a + o + 2) 2 m) as ->.
  { unfold load_bytes. change (seqZ 0 4) with [0; 1; 2; 3]. change (seqZ 0 2) with [0; 1].
    cbn [fmap list_fmap app]. rewrite <- !(Z.add_assoc (a + o)). done. }
  rewrite le_dec_app, length_load_bytes. pose proof (le_dec_range _ (Forall_load_bytes (a + o) 2 m Hm)) as Hr.
  rewrite length_load_bytes in Hr. change (256 ^ Z.of_nat (Z.to_nat 2)) with (2 ^ 16) in *.
  unfold u16. rewrite Z.mul_comm, Z_mod_plus_full, Z.mod_small by lia. done.
Qed.

Lemma trapframe_in_words a t m :
  byte_mem m -> words_at a (trapframe_words t) m ->
  trapframe_in a m =
  Trapframe (tf_edi t) (tf_esi t) (tf_ebp t) (tf_oesp t) (tf_ebx t) (tf_edx t) (tf_ecx t) (tf_eax t)
    (u16 (tf_gs t)) (u16 (tf_fs t)) (u16 (tf_es t)) (u16 (tf_ds t)) (tf_trapno t) (tf_err t) (tf_eip t)
    (u16 (tf_cs t)) (tf_eflags t) (tf_esp t) (u16 (tf_ss t)).
Proof.
  intros Hm Hw. assert (forall k w, trapframe_words t !! k = Some w -> ld32 (a + 4 * Z.of_nat k) m = w) as H.
  { intros k w Hk. by apply (words_at_lookup _ _ _ _ _ Hw). }
  unfold trapframe_in, trapframe_at, sizeof_trapframe.
  rewrite !get32_load by lia. rewrite !get16_load by (done || lia).
  f_equal; [exact (H 0%nat _ eq_refl)|exact (H 1%nat _ eq_refl)|exact (H 2%nat _ eq_refl)|exact (H 3%nat _ eq_refl)
    |exact (H 4%nat _ eq_refl)|exact (H 5%nat _ eq_refl)|exact (H 6%nat _ eq_refl)|exact (H 7%nat _ eq_refl)
    |f_equal; exact (H 8%nat _ eq_refl)|f_equal; exact (H 9%nat _ eq_refl)|f_equal; exact (H 10%nat _ eq_refl)
    |f_equal; exact (H 11%nat _ eq_refl)|exact (H 12%nat _ eq_refl)|exact (H 13%nat _ eq_refl)
    |exact (H 14%nat _ eq_refl)|f_equal; exact (H 15%nat _ eq_refl)|exact (H 16%nat _ eq_refl)
    |exact (H 17%nat _ eq_refl)|f_equal; exact (H 18%nat _ eq_refl)].
Qed.

(** ** The entry of a trap *)

Record wf_machine (s : machine) : Prop := WfMachine {
  wf_reg : forall r, is_word32 (m_reg s r);
  wf_seg : forall g, 0 <= m_seg s g < 2 ^ 16;
  wf_mem : byte_mem (m_mem s);
}.

Lemma byte_store a l m : byte_mem m -> Forall is_byte l -> byte_mem (store_bytes a l m).
Proof. intros Hm Hl x. unfold store_bytes. destruct (_ <? _); [by apply nthb_byte|apply Hm]. Qed.

Lemma byte_st32 a v m : byte_mem m -> byte_mem (st32 a v m).
Proof. intros Hm. apply byte_store; [done|apply Forall_le_enc]. Qed.

Lemma byte_pushes vs s : byte_mem (m_mem s) -> byte_mem (m_mem (pushes vs s)).
Proof.
  unfold pushes. revert s. induction vs as [|v vs IH]; intros s Hs; [done|]. cbn [foldl]. apply IH.
  by apply byte_st32.
Qed.

Lemma u16_low x v : 0 <= v < 2 ^ 16 -> u16 (Z.lor (Z.shiftl (Z.shiftr x 16) 16) (u16 v)) = v.
Proof.
  intros Hv. rewrite (u16_small v Hv). unfold u16. rewrite <- Z.land_ones by lia.
  rewrite Z.land_lor_distr_l, !Z.land_ones by lia. rewrite Z.shiftl_mul_pow2, Z.mod_mul by lia.
  by rewrite Z.lor_0_l, Z.mod_small.
Qed.

(** The words that [alltraps] adds: the general and the data segment
    registers. *)
Definition saved_words (s : machine) (esp : Z) : list Z :=
  [m_reg s EDI; m_reg s ESI; m_reg s EBP; esp; m_reg s EBX; m_reg s EDX; m_reg s ECX; m_reg s EAX;
   m_seg s GS; m_seg s FS; m_seg s ES; m_seg s DS].

(** The state at the start of [trap], called with the frame at [tf]. *)
Record in_trap (s : machine) (trap_at trap_back tf : Z) (frame : list Z) (s' : machine) : Prop := InTrap {
  it_esp : m_reg s' ESP = tf - 8;
  it_stack : words_at (tf - 8) (trap_back :: tf :: frame) (m_mem s');
  it_eip : m_eip s' = trap_at;
  it_eflags : m_eflags s' = m_eflags s;
  it_segs : m_seg s' DS = Z.shiftl SEG_KDATA 3 /\ m_seg s' ES = Z.shiftl SEG_KDATA 3 /\
    m_seg s' FS = Z.shiftl SEG_KCPU 3 /\ m_seg s' GS = Z.shiftl SEG_KCPU 3 /\
    m_seg s' CS = m_seg s CS /\ m_seg s' SS = m_seg s SS;
  it_bytes : byte_mem (m_mem s');
}.

(** The pushes of [alltraps]. *)
Lemma saves_spec s a ws :
  wf_machine s -> m_reg s ESP = a -> 48 <= a -> a + 4 * Z.of_nat (length ws) <= 2 ^ 32 -> words_at a ws (m_mem s) ->
  exists s', run [Pushl_seg DS; Pushl_seg ES; Pushl_seg FS; Pushl_seg GS; Pushal] s = s' /\
    m_reg s' ESP = a - 48 /\ words_at (a - 48) (saved_words s (a - 16) ++ ws) (m_mem s') /\
    same_outside (a - 48) a (m_mem s) (m_mem s') /\
    (forall r, r <> ESP -> m_reg s' r = m_reg s r) /\ m_seg s' = m_seg s /\ m_eflags s' = m_eflags s /\
    byte_mem (m_mem s').
Proof.
  intros Hwf Hsp Ha Hlim Hw. assert (a < 2 ^ 32) as Ha2 by (rewrite <- Hsp; apply (wf_reg _ Hwf)).
  set (gs := m_seg s <$> [DS; ES; FS; GS]).
  set (rs := [m_reg s EAX; m_reg s ECX; m_reg s EDX; m_reg s EBX; a - 16; m_reg s EBP; m_reg s ESI; m_reg s EDI]).
  assert (Forall is_word32 gs) as Hgs.
  { apply Forall_fmap, Forall_true. intros g. pose proof (wf_seg _ Hwf g). unfold is_word32; simpl. lia. }
  assert (Forall is_word32 rs) as Hrs.
  { unfold rs. rewrite !Forall_cons, Forall_nil. split_and!; try apply (wf_reg _ Hwf); try done. unfold is_word32. lia. }
  destruct (pushes_spec (gs ++ rs) s a ws) as (E1 & E2 & E3); [done|simpl; lia|done|done|by apply Forall_app|done|].
  destruct (pushes_other (gs ++ rs) s) as (F1 & F2 & F3 & F4).
  change (a - 4 * Z.of_nat (length (gs ++ rs))) with (a - 48) in *.
  exists (pushes (gs ++ rs) s). split; [|split_and!; try done; by apply byte_pushes, (wf_mem _ Hwf)].
  change [Pushl_seg DS; Pushl_seg ES; Pushl_seg FS; Pushl_seg GS; Pushal] with
    ((Pushl_seg <$> [DS; ES; FS; GS]) ++ [Pushal]).
  rewrite run_app, run_push_segs. fold gs. unfold pushes at 2. rewrite foldl_app. fold (pushes gs s).
  destruct (pushes_spec gs s a ws) as (G1 & _); [done|simpl; lia|done|done|done|done|].
  destruct (pushes_other gs s) as (I1 & _). change (a - 4 * Z.of_nat (length gs)) with (a - 16) in G1.
  cbn [run foldl run1]. f_equal. cbn [fmap list_fmap]. rewrite G1, !I1 by done. done.
Qed.

Lemma alltraps_spec trap_at trap_back s a ws :
  wf_machine s -> is_word32 trap_back -> m_reg s ESP = a -> 56 <= a -> a + 4 * Z.of_nat (length ws) <= 2 ^ 32 ->
  words_at a ws (m_mem s) ->
  let s' := run (alltraps trap_at trap_back) s in
  in_trap s trap_at trap_back (a - 48) (saved_words s (a - 16) ++ ws) s' /\
  same_outside (a - 56) a (m_mem s) (m_mem s').
Proof.
  intros Hwf Hb Hsp Ha Hlim Hw. assert (a < 2 ^ 32) as Ha2 by (rewrite <- Hsp; apply (wf_reg _ Hwf)).
  destruct (saves_spec s a ws) as (s2 & E & E1 & E2 & E3 & F1 & F2 & F4 & F5); [done..|lia|done|done|].
  set (s3 := run [Movw_imm (Z.shiftl SEG_KDATA 3) EAX; Movw_seg EAX DS; Movw_seg EAX ES;
    Movw_imm (Z.shiftl SEG_KCPU 3) EAX; Movw_seg EAX FS; Movw_seg EAX GS] s2).
  destruct (pushes_spec [a - 48; trap_back] s3 (a - 48) (saved_words s (a - 16) ++ ws)) as (G1 & G2 & G3).
  { exact E1. }
  { simpl. lia. }
  { lia. }
  { rewrite length_app. simpl. lia. }
  { rewrite !Forall_cons, Forall_nil. split_and!; [unfold is_word32; lia|done..]. }
  { exact E2. }
  destruct (pushes_other [a - 48; trap_back] s3) as (_ & I2 & _ & I4).
  change (a - 48 - 4 * Z.of_nat (length [a - 48; trap_back])) with (a - 48 - 8) in *.
  assert (run (alltraps trap_at trap_back) s = set_eip trap_at (pushes [a - 48; trap_back] s3)) as ->.
  { change (alltraps trap_at trap_back) with
      (([Pushl_seg DS; Pushl_seg ES; Pushl_seg FS; Pushl_seg GS; Pushal] ++
        [Movw_imm (Z.shiftl SEG_KDATA 3) EAX; Movw_seg EAX DS; Movw_seg EAX ES;
         Movw_imm (Z.shiftl SEG_KCPU 3) EAX; Movw_seg EAX FS; Movw_seg EAX GS]) ++ [Pushl ESP; Call trap_at trap_back]).
    rewrite !run_app, E. fold s3. cbn [run foldl run1]. change (m_reg s3 ESP) with (m_reg s2 ESP). by rewrite E1. }
  cbv zeta. split; [split|].
  - exact G1.
  - exact G2.
  - done.
  - cbn [set_eip m_eflags]. rewrite I4. exact F4.
  - cbn [set_eip m_seg]. rewrite I2. cbn. rewrite !u16_low by done. by rewrite F2.
  - cbn [set_eip m_mem]. apply byte_pushes, F5.
  - apply (same_outside_trans _ _ _ (m_mem s2)); [apply (same_outside_weaken _ _ _ _ _ _ E3); lia|].
    apply (same_outside_weaken _ _ _ _ _ _ G3); lia.
Qed.

(** ** The return from a trap *)

(** A frame to which control returns in user mode. *)
Record user_frame (s : machine) (tf : Z) (t : trapframe) : Prop := UserFrame {
  uf_room : 0 <= tf /\ tf + sizeof_trapframe <= 2 ^ 32;
  uf_words : words_at tf (trapframe_words t) (m_mem s);
  uf_kernel : rpl (m_seg s CS) = 0;
  uf_user : rpl (u16 (tf_cs t)) = 3;
}.

(** The registers are those of the frame. *)
Definition loaded_from (t : trapframe) (s : machine) : Prop :=
  m_reg s <$> [EAX; ECX; EDX; EBX; ESP; EBP; ESI; EDI] =
    [tf_eax t; tf_ecx t; tf_edx t; tf_ebx t; tf_esp t; tf_ebp t; tf_esi t; tf_edi t] /\
  m_seg s <$> [CS; SS; DS; ES; FS; GS] =
    [u16 (tf_cs t); u16 (tf_ss t); u16 (tf_ds t); u16 (tf_es t); u16 (tf_fs t); u16 (tf_gs t)] /\
  m_eip s = tf_eip t /\ m_eflags s = tf_eflags t.

Lemma top_word s a w ws : m_reg s ESP = a -> words_at a (w :: ws) (m_mem s) -> top s = w.
Proof. intros Hsp [Hw _]. unfold top. by rewrite Hsp. Qed.

Lemma drop_esp s a : m_reg s ESP = a -> 0 <= a -> a + 4 < 2 ^ 32 -> m_reg (drop_top s) ESP = a + 4.
Proof. intros Hsp H0 Hl. unfold drop_top. cbn. rewrite Hsp. apply u32_small. lia. Qed.

Lemma reg_eqb_ne r q : r <> q -> reg_eqb r q = false.
Proof. by destruct r, q. Qed.
Lemma sreg_eqb_ne r q : r <> q -> sreg_eqb r q = false.
Proof. by destruct r, q. Qed.

Lemma pop_reg_spec r s a w ws :
  r <> ESP -> m_reg s ESP = a -> 0 <= a -> a + 4 < 2 ^ 32 -> words_at a (w :: ws) (m_mem s) ->
  m_reg (pop_reg r s) r = w /\ m_reg (pop_reg r s) ESP = a + 4 /\
  (forall q, q <> r -> q <> ESP -> m_reg (pop_reg r s) q = m_reg s q).
Proof.
  intros Hr Hsp H0 Hl Hw. unfold pop_reg. rewrite (top_word _ _ _ _ Hsp Hw). cbn. rewrite Hsp.
  split_and!; [by destruct r|by destruct r; try done; apply u32_small; lia|].
  intros q Hq He. by rewrite !reg_eqb_ne.
Qed.

Lemma pops_spec rs : forall s a vs ws,
  NoDup rs -> ESP ∉ rs -> length vs = length rs -> m_reg s ESP = a -> 0 <= a ->
  a + 4 * Z.of_nat (length vs) < 2 ^ 32 -> words_at a (vs ++ ws) (m_mem s) ->
  let s' := foldl (fun s r => pop_reg r s) s rs in
  m_reg s' <$> rs = vs /\ m_reg s' ESP = a + 4 * Z.of_nat (length vs) /\
  (forall q, q ∉ rs -> q <> ESP -> m_reg s' q = m_reg s q) /\
  m_mem s' = m_mem s /\ m_seg s' = m_seg s /\ m_eflags s' = m_eflags s.
Proof.
  induction rs as [|r rs IH]; intros s a [|v vs] ws Hnd Hesp Hlen Hsp H0 Hl Hw; try done.
  { simpl. rewrite Z.add_0_r. done. }
  cbn [length] in *. apply NoDup_cons in Hnd as [Hr Hnd]. apply not_elem_of_cons in Hesp as [Hre Hesp].
  destruct (pop_reg_spec r s a v (vs ++ ws)) as (E1 & E2 & E3); [done|done|lia|lia|done|].
  destruct (IH (pop_reg r s) (a + 4) vs ws) as (F1 & F2 & F3 & F4 & F5 & F6); [done|done|lia|done|lia|lia|apply Hw|].
  cbv zeta. cbn [foldl fmap list_fmap]. rewrite F4, F5, F6. split_and!; try done.
  - f_equal; [by rewrite F3|exact F1].
  - rewrite F2. lia.
  - intros q [Hq1 Hq2]%not_elem_of_cons Hq. by rewrite F3, E3.
Qed.

Lemma seg_pops_spec gs : forall s a vs ws,
  NoDup gs -> length vs = length gs -> m_reg s ESP = a -> 0 <= a ->
  a + 4 * Z.of_nat (length vs) < 2 ^ 32 -> words_at a (vs ++ ws) (m_mem s) ->
  let s' := run (Popl_seg <$> gs) s in
  m_seg s' <$> gs = u16 <$> vs /\ m_reg s' ESP = a + 4 * Z.of_nat (length vs) /\
  (forall r, r <> ESP -> m_reg s' r = m_reg s r) /\ (forall q, q ∉ gs -> m_seg s' q = m_seg s q) /\
  m_mem s' = m_mem s /\ m_eflags s' = m_eflags s.
Proof.
  induction gs as [|g gs IH]; intros s a [|v vs] ws Hnd Hlen Hsp H0 Hl Hw; try done.
  { simpl. rewrite Z.add_0_r. done. }
  cbn [length] in *. apply NoDup_cons in Hnd as [Hg Hnd].
  set (s1 := set_seg g (u16 v) (drop_top s)).
  assert (run (Popl_seg <$> g :: gs) s = run (Popl_seg <$> gs) s1) as ->.
  { cbn [fmap list_fmap run foldl run1]. by rewrite (top_word _ _ _ _ Hsp Hw). }
  destruct (IH s1 (a + 4) vs ws) as (F1 & F2 & F3 & F4 & F5 & F6);
    [done|lia|apply (drop_esp s); [done|lia|lia]|lia|lia|apply Hw|].
  cbv zeta. cbn [fmap list_fmap]. rewrite F5, F6. split_and!; try done.
  - f_equal; [|exact F1]. rewrite F4 by done. by destruct g.
  - rewrite F2. lia.
  - intros r Hr. rewrite F3 by done. by destruct r.
  - intros q [Hq1 Hq2]%not_elem_of_cons. rewrite F4 by done. cbn. by rewrite sreg_eqb_ne.
Qed.

(** [iret] to user mode. *)
Lemma iret_user s a eip cs fl esp ss :
  m_reg s ESP = a -> 0 <= a -> a + 20 <= 2 ^ 32 -> words_at a [eip; cs; fl; esp; ss] (m_mem s) ->
  rpl (m_seg s CS) = 0 -> rpl (u16 cs) = 3 ->
  let s' := iret s in
  m_eip s' = eip /\ m_seg s' CS = u16 cs /\ m_seg s' SS = u16 ss /\ m_reg s' ESP = esp /\ m_eflags s' = fl /\
  (forall r, r <> ESP -> m_reg s' r = m_reg s r) /\ (forall g, g <> CS -> g <> SS -> m_seg s' g = m_seg s g) /\
  m_mem s' = m_mem s.
Proof.
  intros Hsp H0 Hl (H1 & H2 & H3 & H4 & H5 & _) Hk Hu. unfold iret, top. cbn. rewrite Hsp.
  rewrite (u32_small (a + 4)) by lia. rewrite (u32_small (a + 4 + 4)) by lia.
  rewrite (u32_small (a + 4 + 4 + 4)) by lia. rewrite H1, H2, H3, Hk, Hu. cbn. rewrite Hsp.
  rewrite (u32_small (a + 4)) by lia. rewrite (u32_small (a + 4 + 4)) by lia.
  rewrite (u32_small (a + 4 + 4 + 4)) by lia. rewrite (u32_small (a + 4 + 4 + 4 + 4)) by lia. rewrite H4, H5.
  split_and!; try done; intros r; by destruct r.
Qed.

Lemma popal_spec s a edi esi ebp oesp ebx edx ecx eax ws :
  m_reg s ESP = a -> 0 <= a -> a + 32 < 2 ^ 32 ->
  words_at a ([edi; esi; ebp; oesp; ebx; edx; ecx; eax] ++ ws) (m_mem s) ->
  let s' := run1 s Popal in
  m_reg s' <$> [EAX; ECX; EDX; EBX; EBP; ESI; EDI] = [eax; ecx; edx; ebx; ebp; esi; edi] /\
  m_reg s' ESP = a + 32 /\ m_mem s' = m_mem s /\ m_seg s' = m_seg s /\ m_eflags s' = m_eflags s.
Proof.
  intros Hsp H0 Hl Hw.
  destruct (pops_spec [EDI; ESI; EBP] s a [edi; esi; ebp] ([oesp; ebx; edx; ecx; eax] ++ ws))
    as (E1 & E2 & _ & E4 & E5 & E6); [by apply (bool_decide_unpack _)|set_solver|done|done|lia|simpl; lia|exact Hw|].
  set (s1 := foldl _ s _) in *. change (a + 4 * Z.of_nat (length [edi; esi; ebp])) with (a + 12) in E2.
  assert (m_reg (drop_top s1) ESP = a + 12 + 4) as E2' by (apply drop_esp; [done|lia|lia]).
  change ([edi; esi; ebp; oesp; ebx; edx; ecx; eax] ++ ws) with ([edi; esi; ebp; oesp] ++ ([ebx; edx; ecx; eax] ++ ws)) in Hw.
  apply words_at_app in Hw as [_ Hw]. change (a + 4 * Z.of_nat (length [edi; esi; ebp; oesp])) with (a + 16) in Hw.
  destruct (pops_spec [EBX; EDX; ECX; EAX] (drop_top s1) (a + 16) [ebx; edx; ecx; eax] ws)
    as (F1 & F2 & F3 & F4 & F5 & F6); [by apply (bool_decide_unpack _)|set_solver|done|rewrite E2'; lia|lia|simpl; lia| |].
  { change (m_mem (drop_top s1)) with (m_mem s1). by rewrite E4. }
  cbv zeta. cbn [run1]. fold s1. set (s2 := foldl _ (drop_top s1) _) in *.
  clearbody s1 s2. cbn [fmap list_fmap] in E1, F1 |- *. injection E1 as G1 G2 G3. injection F1 as G4 G5 G6 G7.
  assert (forall q, q ∉ [EBX; EDX; ECX; EAX] -> q <> ESP -> m_reg s2 q = m_reg s1 q) as Hq.
  { intros q Hq Hne. rewrite F3 by done. by destruct q. }
  split_and!.
  - rewrite G4, G5, G6, G7, !Hq by (done || set_solver). by rewrite G1, G2, G3.
  - rewrite F2. simpl. lia.
  - rewrite F4. exact E4.
  - rewrite F5. exact E5.
  - rewrite F6. exact E6.
Qed.

(** The parts of a frame in memory. *)
Lemma trapframe_parts tf t m :
  words_at tf (trapframe_words t) m ->
  words_at tf ([tf_edi t; tf_esi t; tf_ebp t; tf_oesp t; tf_ebx t; tf_edx t; tf_ecx t; tf_eax t] ++ []) m /\
  words_at (tf + 32) ([tf_gs t; tf_fs t; tf_es t; tf_ds t] ++ []) m /\
  words_at (tf + 56) [tf_eip t; tf_cs t; tf_eflags t; tf_esp t; tf_ss t] m.
Proof.
  intros Hw. change (trapframe_words t) with
    ([tf_edi t; tf_esi t; tf_ebp t; tf_oesp t; tf_ebx t; tf_edx t; tf_ecx t; tf_eax t] ++
     [tf_gs t; tf_fs t; tf_es t; tf_ds t] ++ [tf_trapno t; tf_err t] ++
     [tf_eip t; tf_cs t; tf_eflags t; tf_esp t; tf_ss t]) in Hw.
  rewrite !words_at_app in Hw. destruct Hw as (H1 & H2 & _ & H4). rewrite !app_nil_r.
  split; [exact H1|]. split; [exact H2|]. cbn [length] in H4.
  replace (tf + 56) with (tf + 4 * Z.of_nat 8 + 4 * Z.of_nat 4 + 4 * Z.of_nat 2) by lia. exact H4.
Qed.

(** [trapret] loads the registers from the frame. *)
Lemma trapret_spec s tf t :
  m_reg s ESP = tf -> user_frame s tf t -> loaded_from t (run trapret s) /\ m_mem (run trapret s) = m_mem s.
Proof.
  intros Hsp [[H0 Hlim] Hw Hk Hu]. unfold sizeof_trapframe in Hlim.
  destruct (trapframe_parts _ _ _ Hw) as (Hw1 & Hw2 & Hw3).
  destruct (popal_spec s tf _ _ _ _ _ _ _ _ _ Hsp H0 ltac:(lia) Hw1) as (E1 & E2 & E3 & E4 & _).
  unfold trapret. rewrite run_cons. revert E1 E2 E3 E4. generalize (run1 s Popal). intros s1 E1 E2 E3 E4.
  destruct (seg_pops_spec [GS; FS; ES; DS] s1 (tf + 32) [tf_gs t; tf_fs t; tf_es t; tf_ds t] [])
    as (F1 & F2 & F3 & F4 & F5 & _);
    [by apply (bool_decide_unpack _)|done|done|lia|simpl; lia|rewrite E3; exact Hw2|].
  change [Popl_seg GS; Popl_seg FS; Popl_seg ES; Popl_seg DS; Addl_imm 8 ESP; Iret] with
    ((Popl_seg <$> [GS; FS; ES; DS]) ++ [Addl_imm 8 ESP; Iret]). rewrite run_app.
  revert F1 F2 F3 F4 F5. generalize (run (Popl_seg <$> [GS; FS; ES; DS]) s1). intros s2 F1 F2 F3 F4 F5.
  rewrite run_cons. set (s3 := run1 s2 (Addl_imm 8 ESP)). change (run [Iret] s3) with (iret s3).
  assert (m_reg s3 ESP = tf + 56) as G2.
  { change (m_reg s3 ESP) with (u32 (m_reg s2 ESP + 8)). rewrite F2. cbn [length]. rewrite u32_small by lia. lia. }
  assert (m_mem s3 = m_mem s2) as G3 by done.
  assert (m_seg s3 = m_seg s2) as G4 by done.
  assert (forall r, r <> ESP -> m_reg s3 r = m_reg s1 r) as G1.
  { intros r Hr. rewrite <- F3 by done. by destruct r. }
  revert G1 G2 G3 G4. generalize s3. clear s3. intros s3 G1 G2 G3 G4.
  destruct (iret_user s3 (tf + 56) (tf_eip t) (tf_cs t) (tf_eflags t) (tf_esp t) (tf_ss t))
    as (I1 & I2 & I3 & I4 & I5 & I6 & I7 & I8); [done|lia|lia|by rewrite G3, F5, E3|by rewrite G4, F4, E4 by set_solver|done|].
  revert I1 I2 I3 I4 I5 I6 I7 I8. generalize (iret s3). intros s4 I1 I2 I3 I4 I5 I6 I7 I8. split; [|by rewrite I8, G3, F5].
  cbn [fmap list_fmap] in E1, F1. injection E1 as K1 K2 K3 K4 K5 K6 K7. injection F1 as L1 L2 L3 L4.
  unfold loaded_from. cbn [fmap list_fmap]. rewrite I1, I2, I3, I4, I5, !I6, !I7, !G1, !G4 by done.
  by rewrite K1, K2, K3, K4, K5, K6, K7, L1, L2, L3, L4.
Qed.
