(* ===== verification/Seg.v ===== *)
(** * Segments, gates and the entry into the kernel (kernel/mmu.h,
      kernel/vm.c, kernel/trap.c)

    Descriptors as the C code writes them and as the processor reads them from
    memory; [seginit], [switchuvm] and [tvinit]; and what the processor does
    for an interrupt.  User code enters the kernel only through the gate for
    system calls, and always on the kernel stack of its process. *)

From S2P Require Import Prelude Monad Params CString ProcTable Proc X86.

(** ** Bit fields *)

(** Fields of a struct from the lowest bit on, as widths and values. *)
Fixpoint pack (fs : list (Z * Z)) : Z :=
  match fs with
  | [] => 0
  | (w, v) :: fs => v mod 2 ^ w + 2 ^ w * pack fs
  end.

(** [k] bits of [x] from bit [a] on. *)
Definition bits (a k x : Z) : Z := (x / 2 ^ a) mod 2 ^ k.

(** ** struct segdesc *)

Record segdesc := Segdesc {
  lim_15_0 : Z; base_15_0 : Z; base_23_16 : Z; sd_type : Z; sd_s : Z; sd_dpl : Z; sd_p : Z;
  lim_19_16 : Z; sd_avl : Z; sd_rsv1 : Z; sd_db : Z; sd_g : Z; base_31_24 : Z;
}.

Definition segdesc_bits (d : segdesc) : Z :=
  pack [(16, lim_15_0 d); (16, base_15_0 d); (8, base_23_16 d); (4, sd_type d); (1, sd_s d); (2, sd_dpl d);
        (1, sd_p d); (4, lim_19_16 d); (1, sd_avl d); (1, sd_rsv1 d); (1, sd_db d); (1, sd_g d); (8, base_31_24 d)].

Definition SEG (type base lim dpl : Z) : segdesc :=
  Segdesc (Z.land (Z.shiftr lim 12) 0xffff) (Z.land (u32 base) 0xffff)
    (Z.land (Z.shiftr (u32 base) 16) 0xff) type 1 dpl 1
    (Z.shiftr (u32 lim) 28) 0 0 1 1 (Z.shiftr (u32 base) 24).
Definition SEG16 (type base lim dpl : Z) : segdesc :=
  Segdesc (Z.land lim 0xffff) (Z.land (u32 base) 0xffff)
    (Z.land (Z.shiftr (u32 base) 16) 0xff) type 1 dpl 1
    (Z.shiftr (u32 lim) 16) 0 0 1 0 (Z.shiftr (u32 base) 24).
Definition sd_set_s (v : Z) (d : segdesc) : segdesc :=
  Segdesc (lim_15_0 d) (base_15_0 d) (base_23_16 d) (sd_type d) v (sd_dpl d) (sd_p d)
    (lim_19_16 d) (sd_avl d) (sd_rsv1 d) (sd_db d) (sd_g d) (base_31_24 d).

Definition STA_X : Z := 0x8.
Definition STA_W : Z := 0x2.
Definition STA_R : Z := 0x2.
Definition STS_T32A : Z := 0x9.
Definition STS_IG32 : Z := 0xE.
Definition STS_TG32 : Z := 0xF.

(** What the processor takes from the 64 bits of a descriptor. *)
Definition d_base (x : Z) : Z := bits 16 16 x + bits 32 8 x * 2 ^ 16 + bits 56 8 x * 2 ^ 24.
Definition d_limit (x : Z) : Z :=
  let l := bits 0 16 x + bits 48 4 x * 2 ^ 16 in
  if bits 55 1 x =? 1 then l * 4096 + 4095 else l.
Definition d_type (x : Z) : Z := bits 40 4 x.
Definition d_s (x : Z) : Z := bits 44 1 x.
Definition d_dpl (x : Z) : Z := bits 45 2 x.
Definition d_p (x : Z) : Z := bits 47 1 x.

(** ** struct gatedesc *)

Record gatedesc := Gatedesc {
  off_15_0 : Z; g_cs : Z; g_args : Z; g_rsv1 : Z; g_type : Z; g_s : Z; g_dpl : Z; g_p : Z; off_31_16 : Z;
}.

Definition gatedesc_bits (g : gatedesc) : Z :=
  pack [(16, off_15_0 g); (16, g_cs g); (5, g_args g); (3, g_rsv1 g); (4, g_type g); (1, g_s g); (2, g_dpl g);
        (1, g_p g); (16, off_31_16 g)].

(** The gate after SETGATE. *)
Definition SETGATE (istrap : bool) (sel off d : Z) : gatedesc :=
  Gatedesc (Z.land (u32 off) 0xffff) sel 0 0 (if istrap then STS_TG32 else STS_IG32) 0 d 1
    (Z.shiftr (u32 off) 16).

Definition gt_off (x : Z) : Z := bits 0 16 x + bits 48 16 x * 2 ^ 16.
Definition gt_sel (x : Z) : Z := bits 16 16 x.
Definition gt_type (x : Z) : Z := bits 40 4 x.
Definition gt_dpl (x : Z) : Z := bits 45 2 x.
Definition gt_p (x : Z) : Z := bits 47 1 x.

(** ** The processor *)

Record processor := Processor {
  p_m : machine;
  p_gdtr : Z * Z;      (* base and limit *)
  p_idtr : Z * Z;
  p_tr : Z;
  p_cr0 : Z;
  p_cr3 : Z;
}.
Definition set_m v p := Processor v (p_gdtr p) (p_idtr p) (p_tr p) (p_cr0 p) (p_cr3 p).
Definition set_gdtr v p := Processor (p_m p) v (p_idtr p) (p_tr p) (p_cr0 p) (p_cr3 p).
Definition set_idtr v p := Processor (p_m p) (p_gdtr p) v (p_tr p) (p_cr0 p) (p_cr3 p).
Definition set_tr v p := Processor (p_m p) (p_gdtr p) (p_idtr p) v (p_cr0 p) (p_cr3 p).
Definition set_cr0 v p := Processor (p_m p) (p_gdtr p) (p_idtr p) (p_tr p) v (p_cr3 p).
Definition set_cr3 v p := Processor (p_m p) (p_gdtr p) (p_idtr p) (p_tr p) (p_cr0 p) v.

Definition p_mem (p : processor) : mem := m_mem (p_m p).
Definition upd_mem (f : mem -> mem) (p : processor) : processor := set_m (set_mem (f (p_mem p)) (p_m p)) p.

Definition ldn (a : Z) (n : nat) (m : mem) : Z := le_dec (load_bytes a (Z.of_nat n) m).
Definition stn (a : Z) (n : nat) (v : Z) (m : mem) : mem := store_bytes a (le_enc n v) m.

(** The descriptor a selector names, inside the limit of the table. *)
Definition descriptor (sel : Z) (p : processor) : option Z :=
  if 8 * (sel / 8) + 7 <=? (p_gdtr p).2 then Some (ldn ((p_gdtr p).1 + 8 * (sel / 8)) 8 (p_mem p)) else None.

(** [%gs:off] *)
Definition gs_addr (off : Z) (p : processor) : option Z :=
  x ← descriptor (m_seg (p_m p) GS) p; if off <=? d_limit x then Some (u32 (d_base x + off)) else None.

(** *** Interrupts *)

Definition FL_TF : Z := 0x100.
Definition FL_NT : Z := 0x4000.
Definition FL_RF : Z := 0x10000.
Definition FL_VM : Z := 0x20000.

(** The flags cleared on the way through a gate. *)
Definition gate_flags (x : Z) : Z :=
  Z.lor (Z.lor (Z.lor FL_TF FL_NT) (Z.lor FL_RF FL_VM)) (if gt_type x =? STS_IG32 then FL_IF else 0).

(** A present segment with code. *)
Definition is_code (x : Z) : bool := (d_p x =? 1) && (d_s x =? 1) && (8 <=? d_type x).

(** The stack for the new level: of the task state for an inner level. *)
Definition enter_stack (cpl newcpl : Z) (p : processor) : option machine :=
  let s := p_m p in
  if newcpl <? cpl then
    t ← descriptor (p_tr p) p;
    let ts := d_base t in
    Some (pushes [m_seg s SS; m_reg s ESP]
      (set_reg ESP (ldn (ts + 4) 4 (p_mem p)) (set_seg SS (ldn (ts + 8) 2 (p_mem p)) s)))
  else Some s.

(** Through the gate [x]: the stack, the pushes, the new code address. *)
Definition enter_gate (x : Z) (err : option Z) (p : processor) : option processor :=
  let s := p_m p in
  let cpl := rpl (m_seg s CS) in
  d ← descriptor (gt_sel x) p;
  if negb (is_code d) || (cpl <? d_dpl d) then None
  else
    s1 ← enter_stack cpl (d_dpl d) p;
    let s2 := pushes ([m_eflags s; m_seg s CS; m_eip s] ++ option_list err) s1 in
    Some (set_m (set_eip (gt_off x) (set_seg CS (8 * (gt_sel x / 8) + d_dpl d)
      (set_eflags (Z.ldiff (m_eflags s) (gate_flags x)) s2))) p).

Definition gate (n : Z) (p : processor) : option Z :=
  if 8 * n + 7 <=? (p_idtr p).2 then Some (ldn ((p_idtr p).1 + 8 * n) 8 (p_mem p)) else None.

(** An exception or an interrupt of a device. *)
Definition interrupt (n : Z) (err : option Z) (p : processor) : option processor :=
  x ← gate n p; if gt_p x =? 1 then enter_gate x err p else None.

Definition T_GPFLT : Z := 13.

(** The instruction [int $n]: a gate of a more privileged level than the
    caller is a general protection fault. *)
Definition int_n (n : Z) (p : processor) : option processor :=
  x ← gate n p;
  if gt_dpl x <? rpl (m_seg (p_m p) CS) then interrupt T_GPFLT (Some (8 * n + 2)) p
  else if gt_p x =? 1 then enter_gate x None p else None.

(** ** The code of the kernel *)

(** Offsets in struct cpu, and its size. *)
Definition CPU_ts : Z := 8.
Definition CPU_gdt : Z := 112.
Definition CPU_ncli : Z := 172.
Definition CPU_intena : Z := 176.
Definition CPU_cpu : Z := 180.
Definition CPU_proc : Z := 184.
Definition sizeof_cpu : Z := 188.
Definition sizeof_taskstate : Z := 104.
Definition NSEGS : Z := 7.
Definition SEG_TSS : Z := 6.
Definition CR0_PG : Z := 0x80000000.

Definition lgdt (a size : Z) : M processor unit := modify (set_gdtr (a, size - 1)).
Definition lidt (a size : Z) : M processor unit := modify (set_idtr (a, size - 1)).
Definition ltr (sel : Z) : M processor unit := modify (set_tr sel).
Definition lcr3 (v : Z) : M processor unit := modify (set_cr3 v).
Definition loadgs (v : Z) : M processor unit := modify (fun p => set_m (set_seg GS v (p_m p)) p).
Definition cli : M processor unit :=
  modify (fun p => set_m (set_eflags (Z.ldiff (m_eflags (p_m p)) FL_IF) (p_m p)) p).
Definition sti : M processor unit :=
  modify (fun p => set_m (set_eflags (Z.lor (m_eflags (p_m p)) FL_IF) (p_m p)) p).

(** A variable declared at [%gs:off]; a segment that does not reach it stops
    the processor. *)
Definition gs_read (off : Z) : M processor Z :=
  let! a := gets (gs_addr off) in
  match a with Some a => gets (fun p => ldn a 4 (p_mem p)) | None => panic "gs" end.
Definition gs_write (off v : Z) : M processor unit :=
  let! a := gets (gs_addr off) in
  match a with Some a => modify (upd_mem (stn a 4 v)) | None => panic "gs" end.

Section Kernel.
(** Addresses of [cpus], [idt], the entry points and the page directory of
    the kernel. *)
Context (cpus idt : Z) (vectors : Z -> Z) (kpgdir : Z).

Definition cpu_addr (c : Z) : Z := cpus + c * sizeof_cpu.

Definition set_gdt (c i : Z) (d : segdesc) : M processor unit :=
  modify (upd_mem (stn (c + CPU_gdt + 8 * i) 8 (segdesc_bits d))).

(** [seginit] on processor [n], the result of [cpunum()]. *)
Definition seginit (n : Z) : M processor unit :=
  let c := cpu_addr n in
  set_gdt c SEG_KCODE (SEG (Z.lor STA_X STA_R) 0 0xffffffff 0);;;
  set_gdt c SEG_KDATA (SEG STA_W 0 0xffffffff 0);;;
  set_gdt c SEG_UCODE (SEG (Z.lor STA_X STA_R) 0 0xffffffff DPL_USER);;;
  set_gdt c SEG_UDATA (SEG STA_W 0 0xffffffff DPL_USER);;;
  set_gdt c SEG_KCPU (SEG STA_W (c + CPU_cpu) 8 0);;;
  lgdt (c + CPU_gdt) (8 * NSEGS);;;
  loadgs (Z.shiftl SEG_KCPU 3);;;
  gs_write 0 c;;;
  gs_write 4 0.

(** [pushcli] and [popcli] on the fields of [*cpu]. *)
Definition pushcli_mem : M processor unit :=
  let! fl := gets (fun p => m_eflags (p_m p)) in
  cli;;;
  let! c := gs_read 0 in
  let! n := gets (fun p => ldn (c + CPU_ncli) 4 (p_mem p)) in
  modify (upd_mem (stn (c + CPU_ncli) 4 (u32 (n + 1))));;;
  if n =? 0 then modify (upd_mem (stn (c + CPU_intena) 4 (Z.land fl FL_IF))) else ret tt.
Definition popcli_mem : M processor unit :=
  let! fl := gets (fun p => m_eflags (p_m p)) in
  if negb (Z.land fl FL_IF =? 0) then panic "popcli - interruptible"
  else
    let! c := gs_read 0 in
    let! n := gets (fun p => s32 (ldn (c + CPU_ncli) 4 (p_mem p)) - 1) in
    modify (upd_mem (stn (c + CPU_ncli) 4 (u32 n)));;;
    if n <? 0 then panic "popcli"
    else
      let! en := gets (fun p => ldn (c + CPU_intena) 4 (p_mem p)) in
      if (n =? 0) && negb (en =? 0) then sti else ret tt.

(** [switchuvm(p)]; [kstack] is that of the process in the variable [proc],
    [pgdir] that of [p]. *)
Definition switchuvm (kstack pgdir : Z) : M processor unit :=
  pushcli_mem;;;
  let! c := gs_read 0 in
  set_gdt c SEG_TSS (SEG16 STS_T32A (c + CPU_ts) (sizeof_taskstate - 1) 0);;;
  set_gdt c SEG_TSS (sd_set_s 0 (SEG16 STS_T32A (c + CPU_ts) (sizeof_taskstate - 1) 0));;;
  modify (upd_mem (stn (c + CPU_ts + 8) 2 (Z.shiftl SEG_KDATA 3)));;;
  modify (upd_mem (stn (c + CPU_ts + 4) 4 (u32 (kstack + KSTACKSIZE))));;;
  ltr (Z.shiftl SEG_TSS 3);;;
  if pgdir =? 0 then panic "switchuvm: no pgdir"
  else lcr3 pgdir;;; popcli_mem.

Definition switchkvm : M processor unit := lcr3 kpgdir.
Definition vmenable : M processor unit :=
  switchkvm;;; let! v := gets p_cr0 in modify (set_cr0 (Z.lor v CR0_PG)).

Definition set_gate (i : Z) (g : gatedesc) : M processor unit :=
  modify (upd_mem (stn (idt + 8 * i) 8 (gatedesc_bits g))).

Definition tvinit : M processor unit :=
  for_each (seqZ 0 256) (fun i => set_gate i (SETGATE false (Z.shiftl SEG_KCODE 3) (vectors i) 0));;;
  set_gate T_SYSCALL (SETGATE true (Z.shiftl SEG_KCODE 3) (vectors T_SYSCALL) DPL_USER).

Definition idtinit : M processor unit := lidt idt (8 * 256).
End Kernel.

(** ** Decoding *)

Definition offset (fs : list (Z * Z)) (k : nat) : Z := foldr Z.add 0 (take k fs).*1.

Lemma widths_nonneg (fs : list (Z * Z)) : Forall (fun f => 0 <= f.1) fs -> 0 <= foldr Z.add 0 fs.*1.
Proof. induction 1 as [|f fs Hf _ IH]; [done|]. cbn [fmap list_fmap foldr]. lia. Qed.

Lemma bits_pack fs k w v :
  Forall (fun f => 0 <= f.1) fs -> fs !! k = Some (w, v) -> bits (offset fs k) w (pack fs) = v mod 2 ^ w.
Proof.
  intros Hfs. revert k. induction Hfs as [|[w0 v0] fs Hw Hfs IH]; intros k Hk; [done|]. cbn [fst] in Hw.
  cbn [pack]. pose proof (Z.mod_pos_bound v0 (2 ^ w0) ltac:(apply Z.pow_pos_nonneg; lia)) as Hv0.
  assert (2 ^ w0 <> 0) as Hp by (apply Z.pow_nonzero; lia). destruct k as [|k].
  - injection Hk as -> ->. unfold bits, offset. cbn [take fmap list_fmap foldr]. rewrite Z.pow_0_r, Z.div_1_r.
    by rewrite Z.mul_comm, Z_mod_plus_full, Z.mod_mod.
  - rewrite <- (IH k Hk). unfold bits, offset. cbn [take fmap list_fmap foldr].
    assert (0 <= foldr Z.add 0 (take k fs).*1) as Ho by by apply widths_nonneg, Forall_take.
    assert (0 < 2 ^ foldr Z.add 0 (take k fs).*1) as Hq by (apply Z.pow_pos_nonneg; lia).
    cbn [fst]. rewrite Z.pow_add_r, <- Z.div_div by lia.
    rewrite (Z.mul_comm (2 ^ w0)), Z_div_plus_full, (Z.div_small (v0 mod _)) by lia. done.
Qed.

Lemma pack_range fs :
  Forall (fun f => 0 <= f.1) fs -> 0 <= pack fs < 2 ^ foldr Z.add 0 fs.*1.
Proof.
  intros Hfs. induction Hfs as [|[w v] fs Hw Hfs IH]; [simpl; lia|]. cbn [pack fmap list_fmap foldr fst] in *.
  pose proof (widths_nonneg fs Hfs) as Ho.
  assert (0 < 2 ^ w) as Hp by (apply Z.pow_pos_nonneg; lia).
  rewrite Z.pow_add_r by lia. pose proof (Z.mod_pos_bound v (2 ^ w) Hp). nia.
Qed.

(** One field of a struct with fields of known widths. *)
Ltac field k :=
  match goal with
  | |- context [bits ?a ?w (pack ?fs)] =>
      change (bits a w (pack fs)) with (bits (offset fs k) w (pack fs));
      rewrite (bits_pack fs k w _ ltac:(repeat constructor; simpl; lia) eq_refl)
  end.

Lemma segdesc_fields d (x := segdesc_bits d) :
  bits 0 16 x = lim_15_0 d mod 2 ^ 16 /\ bits 16 16 x = base_15_0 d mod 2 ^ 16 /\ bits 32 8 x = base_23_16 d mod 2 ^ 8 /\
  d_type x = sd_type d mod 2 ^ 4 /\ d_s x = sd_s d mod 2 ^ 1 /\ d_dpl x = sd_dpl d mod 2 ^ 2 /\ d_p x = sd_p d mod 2 ^ 1 /\
  bits 48 4 x = lim_19_16 d mod 2 ^ 4 /\ bits 55 1 x = sd_g d mod 2 ^ 1 /\ bits 56 8 x = base_31_24 d mod 2 ^ 8.
Proof.
  unfold x, segdesc_bits, d_type, d_s, d_dpl, d_p. split_and!;
    [field 0%nat|field 1%nat|field 2%nat|field 3%nat|field 4%nat|field 5%nat|field 6%nat|field 7%nat|field 11%nat|field 12%nat]; done.
Qed.

Lemma gatedesc_fields g (x := gatedesc_bits g) :
  bits 0 16 x = off_15_0 g mod 2 ^ 16 /\ gt_sel x = g_cs g mod 2 ^ 16 /\ gt_type x = g_type g mod 2 ^ 4 /\
  gt_dpl x = g_dpl g mod 2 ^ 2 /\ gt_p x = g_p g mod 2 ^ 1 /\ bits 48 16 x = off_31_16 g mod 2 ^ 16.
Proof.
  unfold x, gatedesc_bits, gt_sel, gt_type, gt_dpl, gt_p.
  split_and!; [field 0%nat|field 1%nat|field 4%nat|field 6%nat|field 7%nat|field 8%nat]; done.
Qed.

Lemma land_ffff x : Z.land x 0xffff = x mod 2 ^ 16.
Proof. change 0xffff with (Z.ones 16). by rewrite Z.land_ones by lia. Qed.
Lemma land_00ff x : Z.land x 0xff = x mod 2 ^ 8.
Proof. change 0xff with (Z.ones 8). by rewrite Z.land_ones by lia. Qed.

(** The three parts of a base address. *)
Lemma base_parts b :
  0 <= b < 2 ^ 32 ->
  (Z.land b 0xffff) mod 2 ^ 16 + (Z.land (Z.shiftr b 16) 0xff) mod 2 ^ 8 * 2 ^ 16 + (Z.shiftr b 24) mod 2 ^ 8 * 2 ^ 24 = b.
Proof.
  intros Hb. rewrite land_ffff, land_00ff, !Z.mod_mod, !Z.shiftr_div_pow2 by lia.
  pose proof (Z.div_mod b (2 ^ 16) ltac:(lia)). pose proof (Z.div_mod (b / 2 ^ 16) (2 ^ 8) ltac:(lia)).
  rewrite Z.div_div in * by lia. change (2 ^ 16 * 2 ^ 8) with (2 ^ 24) in *.
  rewrite (Z.mod_small (b / 2 ^ 24)); [lia|]. split; [apply Z.div_pos; lia|apply Z.div_lt_upper_bound; lia].
Qed.

(** What the processor sees of a segment made with SEG: the limit counts
    pages. *)
Lemma SEG_decode type base lim dpl (x := segdesc_bits (SEG type base lim dpl)) :
  0 <= type < 16 -> 0 <= base < 2 ^ 32 -> 0 <= lim < 2 ^ 32 -> 0 <= dpl < 4 ->
  d_base x = base /\ d_limit x = lim / 4096 * 4096 + 4095 /\ d_type x = type /\ d_s x = 1 /\ d_dpl x = dpl /\ d_p x = 1.
Proof.
  intros Ht Hb Hl Hd. destruct (segdesc_fields (SEG type base lim dpl)) as (E0 & E1 & E2 & E3 & E4 & E5 & E6 & E7 & E8 & E9).
  unfold x, d_base, d_limit. rewrite E0, E1, E2, E3, E4, E5, E6, E7, E8, E9. cbn [SEG lim_15_0 base_15_0 base_23_16
    sd_type sd_s sd_dpl sd_p lim_19_16 sd_g base_31_24]. rewrite (u32_small base), (u32_small lim) by done.
  rewrite base_parts by done. rewrite (Z.mod_small type), (Z.mod_small dpl) by lia. cbn [Z.eqb].
  change (1 mod 2 ^ 1) with 1. cbn [Z.eqb Pos.eqb]. split_and!; try done.
  rewrite land_ffff, Z.mod_mod, !Z.shiftr_div_pow2 by lia. change (2 ^ 12) with 4096.
  pose proof (Z.div_mod (lim / 4096) (2 ^ 16) ltac:(lia)). rewrite Z.div_div in * by lia.
  change (4096 * 2 ^ 16) with (2 ^ 28) in *.
  rewrite (Z.mod_small (lim / 2 ^ 28)); [lia|]. split; [apply Z.div_pos; lia|apply Z.div_lt_upper_bound; lia].
Qed.

Lemma gate_decode istrap sel off d (x := gatedesc_bits (SETGATE istrap sel off d)) :
  0 <= sel < 2 ^ 16 -> 0 <= off < 2 ^ 32 -> 0 <= d < 4 ->
  gt_off x = off /\ gt_sel x = sel /\ gt_type x = (if istrap then STS_TG32 else STS_IG32) /\ gt_dpl x = d /\ gt_p x = 1.
Proof.
  intros Hs Ho Hd. destruct (gatedesc_fields (SETGATE istrap sel off d)) as (E0 & E1 & E2 & E3 & E4 & E5).
  unfold x, gt_off. rewrite E0, E1, E2, E3, E4, E5. cbn [SETGATE off_15_0 g_cs g_type g_dpl g_p off_31_16].
  rewrite (u32_small off), (Z.mod_small sel), (Z.mod_small d) by lia. split_and!; try done; [|by destruct istrap].
  rewrite land_ffff, Z.mod_mod, Z.shiftr_div_pow2 by lia. pose proof (Z.div_mod off (2 ^ 16) ltac:(lia)).
  rewrite (Z.mod_small (off / 2 ^ 16)); [lia|]. split; [apply Z.div_pos; lia|apply Z.div_lt_upper_bound; lia].
Qed.

(** ** Memory *)

Lemma ldn_stn a n v m :
  0 <= a -> a + Z.of_nat n <= 2 ^ 32 -> 0 <= v < 256 ^ Z.of_nat n -> ldn a n (stn a n v m) = v.
Proof.
  intros Ha Hl Hv. unfold ldn, stn. rewrite <- (length_le_enc n v) at 1.
  rewrite load_store by (rewrite ?length_le_enc; lia). by apply le_dec_enc.
Qed.

Lemma stn_outside a n v m : 0 <= a -> a + Z.of_nat n <= 2 ^ 32 -> same_outside a (a + Z.of_nat n) m (stn a n v m).
Proof. intros Ha Hl x Hx Ho. unfold stn. apply store_out; rewrite ?length_le_enc; lia. Qed.

Lemma ldn_outside lo hi a n m m' :
  same_outside lo hi m m' -> 0 <= a -> a + Z.of_nat n <= 2 ^ 32 -> a + Z.of_nat n <= lo \/ hi <= a ->
  ldn a n m' = ldn a n m.
Proof.
  intros Hm Ha Hl Ho. unfold ldn. f_equal. apply load_bytes_ext. intros i Hi. rewrite u32_small by lia. apply Hm; lia.
Qed.

Lemma ldn_stn_ne a n b k v m :
  0 <= a -> a + Z.of_nat n <= 2 ^ 32 -> 0 <= b -> b + Z.of_nat k <= 2 ^ 32 ->
  a + Z.of_nat n <= b \/ b + Z.of_nat k <= a -> ldn a n (stn b k v m) = ldn a n m.
Proof. intros. eapply ldn_outside; [by apply stn_outside|lia..]. Qed.

Lemma segdesc_range d : 0 <= segdesc_bits d < 256 ^ Z.of_nat 8.
Proof. apply (pack_range [(16, _); (16, _); (8, _); (4, _); (1, _); (2, _); (1, _); (4, _); (1, _); (1, _); (1, _); (1, _); (8, _)]). repeat constructor; simpl; lia. Qed.

Lemma gatedesc_range g : 0 <= gatedesc_bits g < 256 ^ Z.of_nat 8.
Proof. apply (pack_range [(16, _); (16, _); (5, _); (3, _); (4, _); (1, _); (2, _); (1, _); (16, _)]). repeat constructor; simpl; lia. Qed.

Lemma byte_stn a n v m : byte_mem m -> byte_mem (stn a n v m).
Proof. intros Hm. apply byte_store; [done|apply Forall_le_enc]. Qed.

(** Projections of processor states. *)
Ltac pcbn := cbn [p_mem upd_mem p_m set_m p_gdtr p_idtr p_tr p_cr0 p_cr3 set_gdtr set_idtr set_tr set_cr0 set_cr3
  m_reg m_seg m_eip m_eflags m_mem set_reg set_seg set_eip set_eflags set_mem].

(** Read back a value through stores to other places. *)
Ltac ldst := repeat (rewrite ldn_stn_ne by lia);
  try (apply ldn_stn; [lia|lia|first [apply segdesc_range|apply gatedesc_range|lia]]).

(** ** The state that the code sets up *)

Definition kcode_desc : segdesc := SEG (Z.lor STA_X STA_R) 0 0xffffffff 0.
Definition kcpu_desc (c : Z) : segdesc := SEG STA_W (c + CPU_cpu) 8 0.
Definition tss_desc (c : Z) : segdesc := sd_set_s 0 (SEG16 STS_T32A (c + CPU_ts) (sizeof_taskstate - 1) 0).

(** The struct cpu at [c] is in memory. *)
Definition cpu_fits (c : Z) : Prop := 0 <= c /\ c + sizeof_cpu <= 2 ^ 32.

(** Processor-local storage: [%gs] names the segment at [&c->cpu]. *)
Record cpu_local (c : Z) (p : processor) : Prop := CpuLocal {
  cl_fits : cpu_fits c;
  cl_gdtr : p_gdtr p = (c + CPU_gdt, 8 * NSEGS - 1);
  cl_gs : m_seg (p_m p) GS = Z.shiftl SEG_KCPU 3;
  cl_desc : ldn (c + CPU_gdt + 8 * SEG_KCPU) 8 (p_mem p) = segdesc_bits (kcpu_desc c);
}.

Lemma cpu_local_addr c p off :
  cpu_local c p -> 0 <= off <= 4 -> gs_addr off p = Some (c + CPU_cpu + off).
Proof.
  intros [[H0 Hl] Hg Hs Hd] Ho. unfold sizeof_cpu, CPU_cpu in *. unfold gs_addr, descriptor. rewrite Hg, Hs. cbn [fst snd].
  change (8 * (Z.shiftl SEG_KCPU 3 / 8)) with (8 * SEG_KCPU). rewrite Hd. cbn [mbind option_bind].
  change (8 * SEG_KCPU + 7 <=? 8 * NSEGS - 1) with true. cbv iota. cbn [mbind option_bind].
  destruct (SEG_decode STA_W (c + CPU_cpu) 8 0) as (E1 & E2 & _); [done|unfold CPU_cpu; lia|lia|lia|].
  unfold kcpu_desc. rewrite E1, E2. change (8 / 4096 * 4096 + 4095) with 4095.
  rewrite (proj2 (Z.leb_le off 4095)) by lia. unfold CPU_cpu. by rewrite u32_small by lia.
Qed.

Lemma wp_gs_read c off (Q : Z -> processor -> Prop) p :
  cpu_local c p -> 0 <= off <= 4 -> Q (ldn (c + CPU_cpu + off) 4 (p_mem p)) p -> wp (gs_read off) Q p.
Proof. intros Hc Ho HQ. unfold gs_read. wsteps. by rewrite (cpu_local_addr c p off Hc Ho). Qed.

Lemma wp_gs_write c off v (Q : unit -> processor -> Prop) p :
  cpu_local c p -> 0 <= off <= 4 -> Q tt (upd_mem (stn (c + CPU_cpu + off) 4 v) p) -> wp (gs_write off v) Q p.
Proof. intros Hc Ho HQ. unfold gs_write. wsteps. by rewrite (cpu_local_addr c p off Hc Ho). Qed.

(** After [seginit]. *)
Record segments_ready (c : Z) (p : processor) : Prop := SegmentsReady {
  sr_local : cpu_local c p;
  sr_kcode : ldn (c + CPU_gdt + 8 * SEG_KCODE) 8 (p_mem p) = segdesc_bits kcode_desc;
  sr_self : ldn (c + CPU_cpu) 4 (p_mem p) = c;
}.

Lemma seginit_spec cpus n c p :
  c = cpu_addr cpus n -> cpu_fits c ->
  wp (seginit cpus n) (fun _ p' => segments_ready c p' /\
    ldn (c + CPU_gdt + 8 * SEG_KDATA) 8 (p_mem p') = segdesc_bits (SEG STA_W 0 0xffffffff 0) /\
    ldn (c + CPU_gdt + 8 * SEG_UCODE) 8 (p_mem p') = segdesc_bits (SEG (Z.lor STA_X STA_R) 0 0xffffffff DPL_USER) /\
    ldn (c + CPU_gdt + 8 * SEG_UDATA) 8 (p_mem p') = segdesc_bits (SEG STA_W 0 0xffffffff DPL_USER) /\
    ldn (c + CPU_proc) 4 (p_mem p') = 0 /\
    same_outside c (c + sizeof_cpu) (p_mem p) (p_mem p') /\
    m_reg (p_m p') = m_reg (p_m p) /\ m_eflags (p_m p') = m_eflags (p_m p) /\ p_idtr p' = p_idtr p /\
    p_cr0 p' = p_cr0 p /\
    ldn (c + CPU_ncli) 4 (p_mem p') = ldn (c + CPU_ncli) 4 (p_mem p)) p.
Proof.
  intros Hc Hf. unfold seginit, set_gdt, lgdt, loadgs. rewrite <- Hc. clear Hc. pose proof Hf as [H0 Hl]. unfold sizeof_cpu in Hl.
  unfold CPU_gdt, CPU_cpu, CPU_proc, SEG_KCPU, SEG_KCODE, SEG_KDATA, SEG_UCODE, SEG_UDATA, sizeof_cpu.
  wsteps. wfocus. apply (wp_gs_write c).
  { split; [done|done|done|]. pcbn. unfold CPU_gdt, SEG_KCPU. ldst. }
  { lia. }
  apply (wp_gs_write c).
  { split; [done|done|done|]. pcbn. unfold CPU_gdt, CPU_cpu, SEG_KCPU. ldst. }
  { lia. }
  pcbn. unfold CPU_cpu. set (m := m_mem (p_m p)). split_and!; try done.
  - split; [split; [done|done|done|]| |]; pcbn; unfold CPU_gdt, CPU_cpu, SEG_KCPU, SEG_KCODE; fold m; ldst.
    rewrite Z.add_0_r. ldst.
  - ldst.
  - ldst.
  - ldst.
  - replace (c + 184) with (c + 180 + 4) by lia. ldst.
  - intros x Hx Ho. repeat (rewrite stn_outside by (simpl; lia)). done.
  - unfold CPU_ncli. ldst. done.
Qed.

(** The gate of each vector after [tvinit]. *)
Definition idt_gate (vectors : Z -> Z) (i : Z) : gatedesc :=
  if i =? T_SYSCALL then SETGATE true (Z.shiftl SEG_KCODE 3) (vectors i) DPL_USER
  else SETGATE false (Z.shiftl SEG_KCODE 3) (vectors i) 0.

Definition idt_ready (idt : Z) (vectors : Z -> Z) (m : mem) : Prop :=
  forall i, 0 <= i < 256 -> ldn (idt + 8 * i) 8 m = gatedesc_bits (idt_gate vectors i).

Definition idt_fits (idt : Z) : Prop := 0 <= idt /\ idt + 8 * 256 <= 2 ^ 32.

Lemma tvinit_spec idt vectors p :
  idt_fits idt ->
  wp (tvinit idt vectors) (fun _ p' => idt_ready idt vectors (p_mem p') /\
    same_outside idt (idt + 8 * 256) (p_mem p) (p_mem p') /\
    p' = upd_mem (fun _ => p_mem p') p) p.
Proof.
  intros [H0 Hl]. unfold tvinit. wfocus.
  apply (wp_for_each (fun pre p' =>
    (forall i, i ∈ pre -> ldn (idt + 8 * i) 8 (p_mem p') = gatedesc_bits (SETGATE false (Z.shiftl SEG_KCODE 3) (vectors i) 0)) /\
    same_outside idt (idt + 8 * 256) (p_mem p) (p_mem p') /\ p' = upd_mem (fun _ => p_mem p') p)).
  - split; [by intros i ?%elem_of_nil|]. split; [done|]. by destruct p as [[]].
  - intros pre i post p' Epre (Hg & Ho & Ep). unfold set_gate. wsteps. pcbn.
    assert (i ∈ seqZ 0 256) as Hi by (rewrite Epre; set_solver). apply elem_of_seqZ in Hi.
    assert (forall j, j ∈ pre -> 0 <= j < 256 /\ j <> i) as Hpre.
    { intros j Hj. assert (j ∈ seqZ 0 256) as Hj' by (rewrite Epre; set_solver).
      apply elem_of_seqZ in Hj'. split; [lia|].
      pose proof (NoDup_seqZ 0 256) as Hnd. rewrite Epre in Hnd. apply NoDup_app in Hnd as (_ & Hnd & _).
      intros ->. apply (Hnd i Hj). set_solver. }
    split; [|split].
    + intros j [Hj|Hj%list_elem_of_singleton]%elem_of_app; [|subst j; ldst].
      destruct (Hpre j Hj) as [? ?]. rewrite ldn_stn_ne by lia. by apply Hg.
    + eapply same_outside_trans; [exact Ho|]. eapply same_outside_weaken; [apply stn_outside; lia|lia..].
    + rewrite Ep. done.
  - intros p' (Hg & Ho & Ep). unfold set_gate. wsteps. pcbn. unfold T_SYSCALL. split; [|split].
    + intros i Hi. unfold idt_gate, T_SYSCALL. destruct (Z.eqb_spec i 64) as [->|Hne]; [ldst|].
      rewrite ldn_stn_ne by lia. apply Hg, elem_of_seqZ. lia.
    + eapply same_outside_trans; [exact Ho|]. eapply same_outside_weaken; [apply stn_outside; lia|lia..].
    + rewrite Ep. done.
Qed.

(** After [switchuvm]: an entry from user mode uses the stack [kstack]. *)
Record stack_ready (c kstack : Z) (p : processor) : Prop := StackReady {
  kr_tr : p_tr p = Z.shiftl SEG_TSS 3;
  kr_desc : ldn (c + CPU_gdt + 8 * SEG_TSS) 8 (p_mem p) = segdesc_bits (tss_desc c);
  kr_ss0 : ldn (c + CPU_ts + 8) 2 (p_mem p) = Z.shiftl SEG_KDATA 3;
  kr_esp0 : ldn (c + CPU_ts + 4) 4 (p_mem p) = kstack + KSTACKSIZE;
}.

(** The interrupt flag. *)
Lemma if_cleared fl : Z.land (Z.ldiff fl FL_IF) FL_IF = 0.
Proof. apply Z.bits_inj_0. intros i. rewrite Z.land_spec, Z.ldiff_spec. by destruct (Z.testbit fl i), (Z.testbit FL_IF i). Qed.

Lemma if_off fl : Z.land fl FL_IF = 0 -> Z.ldiff fl FL_IF = fl.
Proof.
  intros H. apply Z.bits_inj. intros i. rewrite Z.ldiff_spec.
  assert (Z.testbit (Z.land fl FL_IF) i = false) as Hi by (rewrite H; apply Z.bits_0).
  rewrite Z.land_spec in Hi. by destruct (Z.testbit fl i), (Z.testbit FL_IF i).
Qed.

Lemma if_on fl : Z.land fl FL_IF <> 0 -> Z.lor (Z.ldiff fl FL_IF) FL_IF = fl.
Proof.
  intros H. assert (Z.testbit fl 9 = true) as H9.
  { destruct (Z.testbit fl 9) eqn:E; [done|]. destruct H. apply Z.bits_inj_0. intros i. rewrite Z.land_spec.
    change FL_IF with (2 ^ 9). destruct (decide (i = 9)) as [->|Hi]; [by rewrite E|].
    by rewrite Z.pow2_bits_false, andb_false_r by lia. }
  apply Z.bits_inj. intros i. rewrite Z.lor_spec, Z.ldiff_spec. change FL_IF with (2 ^ 9).
  destruct (decide (i = 9)) as [->|Hi]; [by rewrite H9|]. rewrite Z.pow2_bits_false by lia. by destruct (Z.testbit fl i).
Qed.

(** Stores to the task state, its descriptor and the fields of [pushcli] keep
    the segments. *)
Lemma segments_store c a n v p :
  segments_ready c p -> c <= a -> a + Z.of_nat n <= c + CPU_gdt \/ c + 160 <= a /\ a + Z.of_nat n <= c + CPU_cpu ->
  segments_ready c (upd_mem (stn a n v) p).
Proof.
  intros [[[H0 Hl] Hg Hs Hd] Hk Hc] Ha Ho. unfold sizeof_cpu, CPU_cpu, CPU_gdt, SEG_KCODE, SEG_KCPU in *.
  split; [split; [done|done|done|]| |]; pcbn; unfold CPU_cpu, CPU_gdt, SEG_KCODE, SEG_KCPU; by rewrite ldn_stn_ne by lia.
Qed.

Lemma segments_outside c lo hi m p :
  same_outside lo hi (p_mem p) m -> hi <= c \/ c + sizeof_cpu <= lo -> segments_ready c p ->
  segments_ready c (upd_mem (fun _ => m) p).
Proof.
  intros Hm Ho [[[H0 Hl] Hg Hs Hd] Hk Hc]. unfold sizeof_cpu, CPU_cpu, CPU_gdt, SEG_KCODE, SEG_KCPU in *.
  split; [split; [done|done|done|]| |]; pcbn; unfold CPU_cpu, CPU_gdt, SEG_KCODE, SEG_KCPU;
    by rewrite (ldn_outside lo hi _ _ _ _ Hm) by lia.
Qed.

Lemma segments_eflags c fl p : segments_ready c p -> segments_ready c (set_m (set_eflags fl (p_m p)) p).
Proof. intros [[Hf Hg Hs Hd] Hk Hc]. by split; [split|..]. Qed.

Lemma wp_cpu c (Q : Z -> processor -> Prop) p : segments_ready c p -> Q c p -> wp (gs_read 0) Q p.
Proof.
  intros Hs HQ. apply (wp_gs_read c); [apply Hs|lia|]. rewrite Z.add_0_r, (sr_self _ _ Hs). exact HQ.
Qed.

(** The state after [pushcli]. *)
Definition pushed (c : Z) (p : processor) : processor :=
  let n := ldn (c + CPU_ncli) 4 (p_mem p) in
  let p1 := upd_mem (stn (c + CPU_ncli) 4 (u32 (n + 1)))
    (set_m (set_eflags (Z.ldiff (m_eflags (p_m p)) FL_IF) (p_m p)) p) in
  if n =? 0 then upd_mem (stn (c + CPU_intena) 4 (Z.land (m_eflags (p_m p)) FL_IF)) p1 else p1.

Lemma pushcli_mem_spec c p : segments_ready c p -> wp pushcli_mem (fun _ p' => p' = pushed c p) p.
Proof.
  intros Hs. unfold pushcli_mem, cli. wsteps. wfocus. apply (wp_cpu c); [by apply segments_eflags|].
  wsteps. unfold pushed. pcbn. change (m_mem (p_m p)) with (p_mem p). by destruct (_ =? 0).
Qed.

Lemma segments_pushed c p : segments_ready c p -> segments_ready c (pushed c p).
Proof.
  intros Hs. pose proof (cl_fits _ _ (sr_local _ _ Hs)) as [H0 Hl]. unfold pushed, CPU_ncli, CPU_intena.
  destruct (_ =? 0); repeat (apply segments_store; [|lia|unfold CPU_cpu; lia]); by apply segments_eflags.
Qed.

(** [popcli] after stores elsewhere undoes a [pushcli]. *)
Lemma popcli_mem_spec c p p1 (n := ldn (c + CPU_ncli) 4 (p_mem p)) (fl := m_eflags (p_m p)) :
  segments_ready c p1 -> 0 <= n < 2 ^ 31 - 1 -> n = 0 \/ Z.land fl FL_IF = 0 ->
  m_eflags (p_m p1) = Z.ldiff fl FL_IF -> ldn (c + CPU_ncli) 4 (p_mem p1) = n + 1 ->
  (n = 0 -> ldn (c + CPU_intena) 4 (p_mem p1) = Z.land fl FL_IF) ->
  wp popcli_mem (fun _ p' => p' = set_m (set_eflags fl (set_mem (stn (c + CPU_ncli) 4 n (p_mem p1)) (p_m p1))) p1) p1.
Proof.
  intros Hs Hn Hfl Ef En Ei. pose proof (cl_fits _ _ (sr_local _ _ Hs)) as [H0 Hl]. unfold sizeof_cpu in Hl.
  unfold popcli_mem, sti. wsteps. rewrite Ef, if_cleared. cbn [negb Z.eqb]. wfocus. apply (wp_cpu c); [done|]. wsteps.
  rewrite En, s32_small by lia. replace (n + 1 - 1) with n by lia. rewrite u32_small by lia.
  rewrite (proj2 (Z.ltb_ge n 0)) by lia. wsteps. pcbn. fold (p_mem p1). unfold CPU_ncli, CPU_intena in *.
  rewrite ldn_stn_ne by lia. destruct (Z.eqb_spec n 0) as [E0|E0]; cbn [andb].
  - rewrite (Ei E0). destruct (Z.eqb_spec (Z.land fl FL_IF) 0) as [E|E]; cbn [negb]; wsteps.
    + rewrite <- (if_off fl E), <- Ef. by destruct p1 as [[]].
    + pcbn. rewrite Ef, (if_on fl E). by destruct p1 as [[]].
  - destruct Hfl as [?|Hfl]; [lia|]. wsteps. rewrite <- (if_off fl Hfl), <- Ef. by destruct p1 as [[]].
Qed.

(** The middle part of [switchuvm] on memory. *)
Definition set_task (c kstack : Z) (m : mem) : mem :=
  stn (c + CPU_ts + 4) 4 (kstack + KSTACKSIZE)
    (stn (c + CPU_ts + 8) 2 (Z.shiftl SEG_KDATA 3)
      (stn (c + CPU_gdt + 8 * SEG_TSS) 8 (segdesc_bits (tss_desc c))
        (stn (c + CPU_gdt + 8 * SEG_TSS) 8 (segdesc_bits (SEG16 STS_T32A (c + CPU_ts) (sizeof_taskstate - 1) 0)) m))).

Lemma set_task_ldn c kstack m a n :
  cpu_fits c -> c + CPU_gdt + 56 <= a -> a + Z.of_nat n <= 2 ^ 32 -> ldn a n (set_task c kstack m) = ldn a n m.
Proof.
  intros [H0 Hl] Ha Hn. unfold sizeof_cpu, CPU_gdt in *. unfold set_task, CPU_ts, CPU_gdt, SEG_TSS. ldst. done.
Qed.

Lemma set_task_outside c kstack m : cpu_fits c -> same_outside c (c + sizeof_cpu) m (set_task c kstack m).
Proof.
  intros [H0 Hl] x Hx Ho. unfold sizeof_cpu in *. unfold set_task, CPU_ts, CPU_gdt, SEG_TSS.
  repeat (rewrite stn_outside by (simpl; lia)). done.
Qed.

Lemma set_task_ready c kstack p cr3 :
  segments_ready c p -> 0 <= kstack -> kstack + KSTACKSIZE < 2 ^ 32 ->
  let p' := set_cr3 cr3 (set_tr (Z.shiftl SEG_TSS 3) (upd_mem (set_task c kstack) p)) in
  segments_ready c p' /\ stack_ready c kstack p'.
Proof.
  intros Hs Hk1 Hk2. pose proof (cl_fits _ _ (sr_local _ _ Hs)) as [H0 Hl]. unfold sizeof_cpu in Hl. cbv zeta. split.
  - assert (segments_ready c (upd_mem (set_task c kstack) p)) as [[Hf Hg Hgs Hd] Hk Hc].
    { change (upd_mem (set_task c kstack) p) with
        (upd_mem (stn (c + CPU_ts + 4) 4 (kstack + KSTACKSIZE)) (upd_mem (stn (c + CPU_ts + 8) 2 (Z.shiftl SEG_KDATA 3))
          (upd_mem (stn (c + CPU_gdt + 8 * SEG_TSS) 8 (segdesc_bits (tss_desc c)))
            (upd_mem (stn (c + CPU_gdt + 8 * SEG_TSS) 8
              (segdesc_bits (SEG16 STS_T32A (c + CPU_ts) (sizeof_taskstate - 1) 0))) p)))).
      repeat (apply segments_store; [|unfold CPU_ts, CPU_gdt, SEG_TSS; lia|unfold CPU_ts, CPU_gdt, CPU_cpu, SEG_TSS; lia]). done. }
    by split; [split|..].
  - unfold KSTACKSIZE in *. split; [done|..]; pcbn; unfold set_task, CPU_ts, CPU_gdt, SEG_TSS, KSTACKSIZE; ldst.
    change (Z.shiftl SEG_KDATA 3) with 16. ldst.
Qed.

(** A change of the depth counter and the flags keeps the segments and the
    stack. *)
Lemma stack_ready_ncli c kstack n fl p :
  cpu_fits c -> stack_ready c kstack p ->
  stack_ready c kstack (set_m (set_eflags fl (set_mem (stn (c + CPU_ncli) 4 n (p_mem p)) (p_m p))) p).
Proof.
  intros [H0 Hl] [Ht Hd Hs He]. unfold sizeof_cpu in Hl. unfold CPU_ncli, CPU_ts, CPU_gdt, SEG_TSS in *.
  split; [done|..]; pcbn; unfold CPU_ncli, CPU_ts, CPU_gdt, SEG_TSS; by rewrite ldn_stn_ne by lia.
Qed.

Lemma pushed_facts c p (n := ldn (c + CPU_ncli) 4 (p_mem p)) (fl := m_eflags (p_m p)) :
  cpu_fits c -> 0 <= n < 2 ^ 31 - 1 ->
  m_eflags (p_m (pushed c p)) = Z.ldiff fl FL_IF /\ ldn (c + CPU_ncli) 4 (p_mem (pushed c p)) = n + 1 /\
  (n = 0 -> ldn (c + CPU_intena) 4 (p_mem (pushed c p)) = Z.land fl FL_IF) /\
  same_outside c (c + sizeof_cpu) (p_mem p) (p_mem (pushed c p)) /\
  m_reg (p_m (pushed c p)) = m_reg (p_m p) /\ p_idtr (pushed c p) = p_idtr p.
Proof.
  intros [H0 Hl] Hn. unfold sizeof_cpu in *. unfold pushed. fold n fl. rewrite u32_small by lia.
  assert (0 <= Z.land fl FL_IF < 256 ^ Z.of_nat 4) as Hland.
  { change FL_IF with (2 ^ 9). rewrite Z.land_comm. destruct (Z.testbit fl 9) eqn:E.
    - replace (Z.land (2 ^ 9) fl) with (2 ^ 9); [by vm_compute|]. apply Z.bits_inj. intros i. rewrite Z.land_spec.
      destruct (decide (i = 9)) as [->|Hi]; [by rewrite E|]. by rewrite Z.pow2_bits_false by lia.
    - replace (Z.land (2 ^ 9) fl) with 0; [by vm_compute|]. symmetry. apply Z.bits_inj_0. intros i. rewrite Z.land_spec.
      destruct (decide (i = 9)) as [->|Hi]; [by rewrite E|]. by rewrite Z.pow2_bits_false by lia. }
  unfold CPU_ncli, CPU_intena.
  destruct (Z.eqb_spec n 0) as [E|E]; pcbn; split_and!; try done; try (intros ?; lia).
  - rewrite ldn_stn_ne by lia. apply ldn_stn; lia.
  - intros _. apply ldn_stn; lia.
  - intros x Hx Ho. repeat (rewrite stn_outside by (simpl; lia)). done.
  - apply ldn_stn; lia.
  - intros x Hx Ho. repeat (rewrite stn_outside by (simpl; lia)). done.
Qed.

(** [switchuvm] leaves the interrupt flag and the depth of [pushcli] as they
    were. *)
Lemma switchuvm_spec c kstack pgdir p (n := ldn (c + CPU_ncli) 4 (p_mem p)) (fl := m_eflags (p_m p)) :
  segments_ready c p -> pgdir <> 0 -> 0 <= kstack -> kstack + KSTACKSIZE < 2 ^ 32 -> 0 <= n < 2 ^ 31 - 1 ->
  n = 0 \/ Z.land fl FL_IF = 0 ->
  wp (switchuvm kstack pgdir) (fun _ p' => segments_ready c p' /\ stack_ready c kstack p' /\ p_cr3 p' = pgdir /\
    m_eflags (p_m p') = fl /\ ldn (c + CPU_ncli) 4 (p_mem p') = n /\
    same_outside c (c + sizeof_cpu) (p_mem p) (p_mem p') /\ p_idtr p' = p_idtr p /\
    m_reg (p_m p') = m_reg (p_m p)) p.
Proof.
  intros Hs Hpg Hk1 Hk2 Hn Hfl. pose proof (cl_fits _ _ (sr_local _ _ Hs)) as Hfit. pose proof Hfit as [H0 Hl].
  unfold sizeof_cpu in Hl. unfold switchuvm. wfocus. eapply wp_mono; [by apply pushcli_mem_spec|].
  cbv beta. intros _ p1 ->. wfocus. apply (wp_cpu c); [by apply segments_pushed|].
  unfold set_gdt, ltr, lcr3. wsteps. rewrite (proj2 (Z.eqb_neq pgdir 0) Hpg), u32_small by (unfold KSTACKSIZE in *; lia).
  wsteps.
  destruct (set_task_ready c kstack (pushed c p) pgdir) as [Hq1 Hq2]; [by apply segments_pushed|done|done|].
  destruct (pushed_facts c p Hfit Hn) as (E1 & E2 & E3 & E4 & E5 & E6).
  eapply wp_mono; [apply (popcli_mem_spec c p (set_cr3 pgdir (set_tr (Z.shiftl SEG_TSS 3)
    (upd_mem (set_task c kstack) (pushed c p))))); [exact Hq1|exact Hn|exact Hfl|exact E1|..]; pcbn|].
  { rewrite <- E2. apply set_task_ldn; [done|unfold CPU_gdt, CPU_ncli; lia..]. }
  { intros E. rewrite <- (E3 E). apply set_task_ldn; [done|unfold CPU_gdt, CPU_intena; lia..]. }
  cbv beta. intros _ p2 ->. set (q := set_cr3 pgdir _) in *. split; [|split].
  - apply (segments_eflags c fl (upd_mem (stn (c + CPU_ncli) 4 n) q)), segments_store; [done|unfold CPU_ncli; lia|].
    right. unfold CPU_ncli, CPU_cpu. lia.
  - by apply stack_ready_ncli.
  - pcbn. fold n. split_and!; try done.
    + unfold CPU_ncli. apply ldn_stn; lia.
    + intros x Hx Ho. rewrite stn_outside by (unfold CPU_ncli, sizeof_cpu in *; lia).
      change (p_mem q) with (set_task c kstack (p_mem (pushed c p))). rewrite set_task_outside by done. by apply E4.
Qed.

(** ** Memory stays a memory of bytes *)

Definition keeps_bytes {A} (f : M processor A) : Prop :=
  forall p, byte_mem (p_mem p) -> wlp f (fun _ p' => byte_mem (p_mem p')) p.

Lemma keeps_bind {A B} (f : M processor A) (k : A -> M processor B) :
  keeps_bytes f -> (forall a, keeps_bytes (k a)) -> keeps_bytes (bind f k).
Proof. intros Hf Hk p Hp. wfocus. eapply wlp_mono; [by apply Hf|]. intros a p' Hp'. by apply Hk. Qed.

Lemma keeps_ret {A} (a : A) : keeps_bytes (ret a).
Proof. by intros p Hp. Qed.
Lemma keeps_panic {A} msg : keeps_bytes (A := A) (panic msg).
Proof. by intros p Hp. Qed.
Lemma keeps_gets {A} (f : processor -> A) : keeps_bytes (gets f).
Proof. by intros p Hp. Qed.
Lemma keeps_stn a n v : keeps_bytes (modify (upd_mem (stn a n v))).
Proof. intros p Hp. apply wlp_modify. by apply byte_stn. Qed.
Lemma keeps_regs f : (forall p, p_mem (f p) = p_mem p) -> keeps_bytes (modify f).
Proof. intros Hf p Hp. apply wlp_modify. by rewrite Hf. Qed.

Lemma keeps_for_each {A} (l : list A) f : (forall x, keeps_bytes (f x)) -> keeps_bytes (for_each l f).
Proof.
  intros Hf. induction l as [|x l IH]; [apply keeps_ret|]. cbn [for_each]. apply keeps_bind; [apply Hf|done].
Qed.

Create HintDb bytes.
#[export] Hint Resolve keeps_ret keeps_panic keeps_gets keeps_stn keeps_for_each : bytes.

(** Take a program apart. *)
Ltac keeps :=
  repeat (first [apply keeps_bind; [|intros ?]|apply keeps_regs; done|by auto with bytes
                |match goal with |- keeps_bytes (if ?b then _ else _) => destruct b
                              | |- keeps_bytes (match ?o with Some _ => _ | None => _ end) => destruct o end]).

Lemma setup_bytes cpus n idt vectors kstack pgdir :
  keeps_bytes (seginit cpus n;;; tvinit idt vectors;;; idtinit idt;;; switchuvm kstack pgdir).
Proof.
  unfold seginit, tvinit, idtinit, switchuvm, pushcli_mem, popcli_mem, set_gdt, set_gate, gs_write, gs_read,
    lgdt, lidt, ltr, lcr3, loadgs, cli, sti.
  keeps.
Qed.

(** ** Entering the kernel from user mode *)

(** The processor at [c] runs a process with the kernel stack [kstack]. *)
Record kernel_ready (c kstack idt : Z) (vectors : Z -> Z) (p : processor) : Prop := KernelReady {
  ky_fits : cpu_fits c;
  ky_gdtr : p_gdtr p = (c + CPU_gdt, 8 * NSEGS - 1);
  ky_kcode : ldn (c + CPU_gdt + 8 * SEG_KCODE) 8 (p_mem p) = segdesc_bits kcode_desc;
  ky_stack : stack_ready c kstack p;
  ky_idt : idt_ready idt vectors (p_mem p);
  ky_idtr : p_idtr p = (idt, 8 * 256 - 1);
  ky_kstack : 0 <= kstack /\ kstack + KSTACKSIZE < 2 ^ 32;
  ky_vectors : forall i, is_word32 (vectors i);
}.

(** User mode, with any registers. *)
Record user_mode (s : machine) : Prop := UserMode {
  um_wf : wf_machine s;
  um_eip : is_word32 (m_eip s);
  um_eflags : is_word32 (m_eflags s);
  um_cpl : rpl (m_seg s CS) = 3;
}.

(** The set-up does not depend on the other registers. *)
Lemma kernel_ready_regs c kstack idt vectors p s :
  m_mem s = p_mem p -> kernel_ready c kstack idt vectors p -> kernel_ready c kstack idt vectors (set_m s p).
Proof.
  intros Hm [K1 K2 K3 [S1 S2 S3 S4] K5 K6 K7 K8]. unfold p_mem in *.
  split; [done|done| |split|..]; unfold p_mem; pcbn; rewrite ?Hm; done.
Qed.

(** [seginit], [tvinit], [idtinit] and [switchuvm] set it up. *)
Lemma kernel_ready_setup cpus n c idt vectors kstack pgdir p :
  c = cpu_addr cpus n -> cpu_fits c -> idt_fits idt -> idt + 8 * 256 <= c \/ c + sizeof_cpu <= idt ->
  (forall i, is_word32 (vectors i)) -> pgdir <> 0 -> 0 <= kstack -> kstack + KSTACKSIZE < 2 ^ 32 ->
  0 <= ldn (c + CPU_ncli) 4 (p_mem p) < 2 ^ 31 - 1 -> Z.land (m_eflags (p_m p)) FL_IF = 0 ->
  wp (seginit cpus n;;; tvinit idt vectors;;; idtinit idt;;; switchuvm kstack pgdir)
    (fun _ p' => kernel_ready c kstack idt vectors p') p.
Proof.
  intros Hc Hf Hi Hdis Hv Hpg Hk1 Hk2 Hn Hfl. pose proof Hf as [H0 Hl]. unfold sizeof_cpu in *.
  wfocus. eapply wp_mono; [by apply (seginit_spec cpus n c)|].
  cbv beta. intros _ p1 (Hs1 & _ & _ & _ & _ & _ & _ & Hfl1 & _ & _ & Hn1).
  wfocus. eapply wp_mono; [by apply (tvinit_spec idt vectors)|]. cbv beta. intros _ p2 (Hg2 & Ho2 & E2).
  unfold idtinit, lidt. wsteps.
  assert (segments_ready c p2) as Hs2.
  { rewrite E2. by apply (segments_outside c idt (idt + 8 * 256)). }
  assert (ldn (c + CPU_ncli) 4 (p_mem p2) = ldn (c + CPU_ncli) 4 (p_mem p)) as Hn2.
  { rewrite <- Hn1. eapply ldn_outside; [exact Ho2|unfold CPU_ncli; lia..]. }
  assert (m_eflags (p_m p2) = m_eflags (p_m p)) as Hfl2 by (rewrite E2; exact Hfl1).
  eapply wp_mono; [apply (switchuvm_spec c)|]; try done.
  { by destruct Hs2 as [[]]. }
  { change (0 <= ldn (c + CPU_ncli) 4 (p_mem p2) < 2 ^ 31 - 1). by rewrite Hn2. }
  { pcbn. right. by rewrite Hfl2. }
  cbv beta. intros _ p3 ([[_ Hgd _ _] Hkc _] & Hst & _ & _ & _ & Ho3 & Hidt & _). split; try done.
  intros i Hi'. rewrite <- (Hg2 i Hi'). destruct Hi as [Hi0 Hi1].
  eapply ldn_outside; [exact Ho3|unfold sizeof_cpu; lia..].
Qed.

Lemma SEG16_base type base lim dpl s :
  0 <= base < 2 ^ 32 -> d_base (segdesc_bits (sd_set_s s (SEG16 type base lim dpl))) = base.
Proof.
  intros Hb. destruct (segdesc_fields (sd_set_s s (SEG16 type base lim dpl))) as (_ & E1 & E2 & _ & _ & _ & _ & _ & _ & E9).
  unfold d_base. rewrite E1, E2, E9. cbn [sd_set_s SEG16 base_15_0 base_23_16 base_31_24].
  rewrite (u32_small base) by done. by apply base_parts.
Qed.

Section Entry.
Context (c kstack idt : Z) (vectors : Z -> Z) (p : processor).
Hypothesis HK : kernel_ready c kstack idt vectors p.
Hypothesis HU : user_mode (p_m p).

Local Notation s := (p_m p).
Local Notation ktop := (kstack + KSTACKSIZE).

Lemma ready_gate n : 0 <= n < 256 -> gate n p = Some (gatedesc_bits (idt_gate vectors n)).
Proof.
  intros Hn. unfold gate. rewrite (ky_idtr _ _ _ _ _ HK). cbn [fst snd].
  rewrite (proj2 (Z.leb_le (8 * n + 7) (8 * 256 - 1))) by lia. by rewrite (ky_idt _ _ _ _ _ HK).
Qed.

Lemma gate_facts n (x := gatedesc_bits (idt_gate vectors n)) :
  gt_off x = vectors n /\ gt_sel x = Z.shiftl SEG_KCODE 3 /\ gt_p x = 1 /\
  gt_dpl x = (if n =? T_SYSCALL then 3 else 0) /\ gt_type x = (if n =? T_SYSCALL then STS_TG32 else STS_IG32).
Proof.
  unfold x, idt_gate. destruct (n =? T_SYSCALL).
  - destruct (gate_decode true (Z.shiftl SEG_KCODE 3) (vectors n) DPL_USER) as (E1 & E2 & E3 & E4 & E5);
      [done|apply (ky_vectors _ _ _ _ _ HK)|done|]. by rewrite E1, E2, E3, E4, E5.
  - destruct (gate_decode false (Z.shiftl SEG_KCODE 3) (vectors n) 0) as (E1 & E2 & E3 & E4 & E5);
      [done|apply (ky_vectors _ _ _ _ _ HK)|done|]. by rewrite E1, E2, E3, E4, E5.
Qed.

Lemma ready_kcode :
  exists d, descriptor (Z.shiftl SEG_KCODE 3) p = Some d /\ is_code d = true /\ d_dpl d = 0.
Proof.
  exists (segdesc_bits kcode_desc). split.
  - unfold descriptor. rewrite (ky_gdtr _ _ _ _ _ HK). cbn [fst snd].
    change (8 * (Z.shiftl SEG_KCODE 3 / 8)) with (8 * SEG_KCODE). rewrite (ky_kcode _ _ _ _ _ HK). done.
  - destruct (SEG_decode (Z.lor STA_X STA_R) 0 0xffffffff 0) as (_ & _ & E3 & E4 & E5 & E6); [done..|].
    unfold is_code, kcode_desc. by rewrite E3, E4, E5, E6.
Qed.

(** The processor takes the stack from the task state. *)
Lemma ready_stack :
  enter_stack 3 0 p = Some (pushes [m_seg s SS; m_reg s ESP] (set_reg ESP ktop (set_seg SS (Z.shiftl SEG_KDATA 3) s))).
Proof.
  pose proof (ky_stack _ _ _ _ _ HK) as [Ht Hd Hss He].
  pose proof (ky_fits _ _ _ _ _ HK) as [H0 Hl]. unfold sizeof_cpu in Hl.
  unfold enter_stack, descriptor. cbn [Z.ltb Z.compare]. rewrite (ky_gdtr _ _ _ _ _ HK), Ht. cbn [fst snd].
  change (8 * (Z.shiftl SEG_TSS 3 / 8)) with (8 * SEG_TSS). rewrite Hd.
  change (8 * SEG_TSS + 7 <=? 8 * NSEGS - 1) with true. cbv iota. cbn [mbind option_bind].
  unfold tss_desc. rewrite SEG16_base by (unfold CPU_ts; lia). by rewrite Hss, He.
Qed.
(** The words the processor pushes. *)
Definition hw_frame (err : option Z) : list Z :=
  option_list err ++ [m_eip s; m_seg s CS; m_eflags s; m_reg s ESP; m_seg s SS].

Record entered (n : Z) (err : option Z) (p' : processor) : Prop := Entered {
  en_system : p' = set_m (p_m p') p;
  en_esp : m_reg (p_m p') ESP = ktop - 4 * Z.of_nat (length (hw_frame err));
  en_stack : words_at (ktop - 4 * Z.of_nat (length (hw_frame err))) (hw_frame err) (m_mem (p_m p'));
  en_regs : forall r, r <> ESP -> m_reg (p_m p') r = m_reg s r;
  en_cs : m_seg (p_m p') CS = Z.shiftl SEG_KCODE 3;
  en_ss : m_seg (p_m p') SS = Z.shiftl SEG_KDATA 3;
  en_segs : forall g, g <> CS -> g <> SS -> m_seg (p_m p') g = m_seg s g;
  en_eip : m_eip (p_m p') = vectors n;
  en_eflags : m_eflags (p_m p') = Z.ldiff (m_eflags s) (gate_flags (gatedesc_bits (idt_gate vectors n)));
  en_mem : same_outside (ktop - 4 * Z.of_nat (length (hw_frame err))) ktop (p_mem p) (m_mem (p_m p'));
  en_bytes : byte_mem (m_mem (p_m p'));
}.

Lemma pushes_app vs ws q : pushes (vs ++ ws) q = pushes ws (pushes vs q).
Proof. apply foldl_app. Qed.

Lemma enter_user n err :
  0 <= n < 256 -> Forall is_word32 (option_list err) ->
  exists p', enter_gate (gatedesc_bits (idt_gate vectors n)) err p = Some p' /\ entered n err p'.
Proof.
  intros Hn Herr. destruct (gate_facts n) as (G1 & G2 & _). destruct ready_kcode as (d & Ed & Hcode & Hdpl).
  pose proof (um_wf _ HU) as Hwf. destruct (ky_kstack _ _ _ _ _ HK) as [Hk0 Hk1]. unfold KSTACKSIZE in *.
  unfold enter_gate. rewrite G1, G2, Ed, (um_cpl _ HU). cbn [mbind option_bind]. rewrite Hcode, Hdpl.
  cbn [negb orb]. change (3 <? 0) with false. cbv iota. rewrite ready_stack. cbn [mbind option_bind].
  rewrite <- pushes_app. set (s0 := set_reg ESP _ _).
  set (vs := [m_seg s SS; m_reg s ESP] ++ [m_eflags s; m_seg s CS; m_eip s] ++ option_list err).
  assert (reverse vs = hw_frame err) as Evs by (unfold vs, hw_frame; by destruct err).
  assert (length vs = length (hw_frame err)) as Elen by (by rewrite <- Evs, length_reverse).
  assert (length vs <= 6)%nat as Hlen by (by destruct err; simpl; lia).
  assert (Forall is_word32 vs) as Hvs.
  { assert (forall g, is_word32 (m_seg s g)) as Hg by (intros g; pose proof (wf_seg _ Hwf g); unfold is_word32; lia).
    unfold vs. rewrite !Forall_app, !Forall_cons, Forall_nil.
    split_and!; try done; try apply (wf_reg _ Hwf); [apply (um_eflags _ HU)|apply (um_eip _ HU)]. }
  destruct (pushes_spec vs s0 (kstack + 4096) []) as (E1 & E2 & E3); [done|lia|lia|simpl; lia|done|done|].
  destruct (pushes_other vs s0) as (F1 & F2 & F3 & F4). rewrite app_nil_r, Evs, Elen in *.
  eexists. split; [done|]. split; pcbn; try done.
  - intros r Hr. rewrite F1 by done. by destruct r.
  - by rewrite F2.
  - intros g Hg1 Hg2. rewrite F2. by destruct g.
  - apply byte_pushes. exact (wf_mem _ Hwf).
Qed.
End Entry.
