(* ===== verification/Entry.v ===== *)
(** * From user code to [trap] and back (kernel/trapasm.S, kernel/vectors.pl,
      kernel/proc.c)

    The steps of the processor, of the entry points and of [alltraps] put
    together: the struct trapframe that [trap] is given holds the registers of
    the user program, and the program goes on with the registers that the
    frame has when [trap] returns.  A new process starts in the same way. *)

From S2P Require Import Prelude Monad Params CString ProcTable Proc X86 Seg.

(** ** System calls and exceptions *)

(** The vector through which [int $n] of user code enters, and its error
    code. *)
Definition int_vector (n : Z) : Z := if n =? T_SYSCALL then T_SYSCALL else T_GPFLT.
Definition int_err (n : Z) : option Z := if n =? T_SYSCALL then None else Some (8 * n + 2).

(** The processor pushes an error code for the vectors of vectors.pl that
    push none. *)
Definition err_matches (n : Z) (err : option Z) : Prop := has_err n = bool_decide (is_Some err).

Lemma int_matches n : err_matches (int_vector n) (int_err n).
Proof. unfold err_matches, int_vector, int_err. by destruct (n =? T_SYSCALL). Qed.

(** The frame for user registers [s] and trap number [n]. *)
Definition user_trapframe (s : machine) (ktop n : Z) (err : option Z) : trapframe :=
  Trapframe (m_reg s EDI) (m_reg s ESI) (m_reg s EBP) (ktop - 44) (m_reg s EBX) (m_reg s EDX) (m_reg s ECX) (m_reg s EAX)
    (m_seg s GS) (m_seg s FS) (m_seg s ES) (m_seg s DS) n (default 0 err) (m_eip s) (m_seg s CS) (m_eflags s)
    (m_reg s ESP) (m_seg s SS).

Section Trap.
Context (c kstack idt : Z) (vectors : Z -> Z) (p : processor) (alltraps_at trap_at trap_back : Z).
Hypothesis HK : kernel_ready c kstack idt vectors p.
Hypothesis HU : user_mode (p_m p).
Hypothesis Hback : is_word32 trap_back.

Local Notation s := (p_m p).
Local Notation ktop := (kstack + KSTACKSIZE).
Local Notation tf := (kstack + KSTACKSIZE - sizeof_trapframe).

Lemma interrupt_user n err :
  0 <= n < 256 -> Forall is_word32 (option_list err) ->
  exists p', interrupt n err p = Some p' /\ entered kstack vectors p n err p'.
Proof.
  intros Hn Herr. unfold interrupt. rewrite (ready_gate _ _ _ _ _ HK) by done. cbn [mbind option_bind].
  destruct (gate_facts _ _ _ _ _ HK n) as (_ & _ & -> & _). cbv iota. by apply (enter_user c kstack idt).
Qed.

Lemma int_user n :
  0 <= n < 256 -> exists p', int_n n p = Some p' /\ entered kstack vectors p (int_vector n) (int_err n) p'.
Proof.
  intros Hn. unfold int_n. rewrite (ready_gate _ _ _ _ _ HK) by done. cbn [mbind option_bind].
  destruct (gate_facts _ _ _ _ _ HK n) as (_ & _ & -> & -> & _). rewrite (um_cpl _ HU). unfold int_vector, int_err.
  destruct (n =? T_SYSCALL) eqn:E.
  - apply Z.eqb_eq in E as ->. by apply (enter_user c kstack idt).
  - cbn [Z.ltb Z.compare]. apply interrupt_user; [done|]. apply Forall_singleton. unfold is_word32. lia.
Qed.

(** The entry point [vector n] completes the part of the frame above the
    registers. *)
Lemma vector_spec n err p' :
  entered kstack vectors p n err p' -> err_matches n err -> 0 <= n < 256 ->
  exists s', run (vector alltraps_at n) (p_m p') = s' /\ m_eip s' = alltraps_at /\ m_reg s' ESP = ktop - 28 /\
    words_at (ktop - 28) [n; default 0 err; m_eip s; m_seg s CS; m_eflags s; m_reg s ESP; m_seg s SS] (m_mem s') /\
    (forall r, r <> ESP -> m_reg s' r = m_reg s r) /\ m_seg s' = m_seg (p_m p') /\ m_eflags s' = m_eflags (p_m p') /\
    same_outside (ktop - 28) ktop (p_mem p) (m_mem s') /\ byte_mem (m_mem s').
Proof.
  intros He Hm Hn. destruct (ky_kstack _ _ _ _ _ HK) as [Hk0 Hk1]. unfold KSTACKSIZE in *.
  set (vs := (if has_err n then [] else [0]) ++ [n]).
  assert (run (vector alltraps_at n) (p_m p') = set_eip alltraps_at (pushes vs (p_m p'))) as ->.
  { unfold vector, vs. by destruct (has_err n). }
  assert (4 * Z.of_nat (length vs) + 4 * Z.of_nat (length (hw_frame p err)) = 28) as Hlen.
  { unfold vs, hw_frame, err_matches in *. rewrite Hm. by destruct err. }
  assert (reverse vs ++ hw_frame p err = [n; default 0 err; m_eip s; m_seg s CS; m_eflags s; m_reg s ESP; m_seg s SS]) as Hvs.
  { unfold vs, hw_frame, err_matches in *. rewrite Hm. by destruct err. }
  assert (Forall is_word32 vs) as Hw.
  { unfold vs. apply Forall_app. split; [by destruct (has_err n); repeat constructor|].
    apply Forall_singleton. unfold is_word32. lia. }
  destruct (pushes_spec vs (p_m p') _ (hw_frame p err) (en_esp _ _ _ _ _ _ He)) as (E1 & E2 & E3);
    [unfold KSTACKSIZE; lia|unfold KSTACKSIZE; lia|unfold KSTACKSIZE; lia|done|apply (en_stack _ _ _ _ _ _ He)|].
  destruct (pushes_other vs (p_m p')) as (F1 & F2 & F3 & F4). unfold KSTACKSIZE in *.
  rewrite Hvs in E2. replace (kstack + 4096 - 4 * Z.of_nat (length (hw_frame p err)) - 4 * Z.of_nat (length vs))
    with (kstack + 4096 - 28) in * by lia.
  eexists. split; [done|]. cbn [set_eip m_eip m_reg m_seg m_eflags m_mem]. split_and!; try done.
  - intros r Hr. rewrite F1 by done. by apply (en_regs _ _ _ _ _ _ He).
  - apply (same_outside_trans _ _ _ (m_mem (p_m p'))).
    + eapply same_outside_weaken; [apply (en_mem _ _ _ _ _ _ He)|unfold KSTACKSIZE; lia..].
    + eapply same_outside_weaken; [exact E3|lia..].
  - apply byte_pushes, (en_bytes _ _ _ _ _ _ He).
Qed.
Lemma in_trap_entry n err p' :
  entered kstack vectors p n err p' -> err_matches n err -> 0 <= n < 256 -> Forall is_word32 (option_list err) ->
  let s' := run (alltraps trap_at trap_back) (run (vector alltraps_at n) (p_m p')) in
  in_trap (p_m p') trap_at trap_back tf (trapframe_words (user_trapframe s ktop n err)) s' /\
  trapframe_in tf (m_mem s') = user_trapframe s ktop n err /\
  same_outside (ktop - 84) ktop (p_mem p) (m_mem s').
Proof.
  intros He Hm Hn Herr. destruct (ky_kstack _ _ _ _ _ HK) as [Hk0 Hk1]. unfold KSTACKSIZE in *.
  destruct (vector_spec n err p' He Hm Hn) as (s1 & E & E1 & E2 & E3 & E4 & E5 & E6 & E7 & E8). cbv zeta. rewrite E.
  pose proof (um_wf _ HU) as Hwf. unfold KSTACKSIZE in *.
  assert (wf_machine s1) as Hwf1.
  { split; [|intros g; rewrite E5|done].
    - intros r. destruct (decide (r = ESP)) as [->|Hr]; [rewrite E2; unfold is_word32; lia|].
      rewrite E4 by done. apply (wf_reg _ Hwf).
    - destruct (decide (g = CS)) as [->|Hg1]; [by rewrite (en_cs _ _ _ _ _ _ He)|].
      destruct (decide (g = SS)) as [->|Hg2]; [by rewrite (en_ss _ _ _ _ _ _ He)|].
      rewrite (en_segs _ _ _ _ _ _ He) by done. apply (wf_seg _ Hwf). }
  pose proof (alltraps_spec trap_at trap_back s1 (kstack + 4096 - 28)
    [n; default 0 err; m_eip s; m_seg s CS; m_eflags s; m_reg s ESP; m_seg s SS] Hwf1 Hback E2) as Hall.
  cbn [length] in Hall. destruct Hall as [Ht Ho]; [lia|lia|exact E3|].
  replace (kstack + 4096 - 28 - 48) with (kstack + 4096 - sizeof_trapframe) in Ht by (unfold sizeof_trapframe; lia).
  assert (saved_words s1 (kstack + 4096 - 28 - 16) ++
    [n; default 0 err; m_eip s; m_seg s CS; m_eflags s; m_reg s ESP; m_seg s SS] =
    trapframe_words (user_trapframe s (kstack + 4096) n err)) as Ew.
  { unfold saved_words, trapframe_words, user_trapframe. cbn [app tf_edi tf_esi tf_ebp tf_oesp tf_ebx tf_edx tf_ecx tf_eax
      tf_gs tf_fs tf_es tf_ds tf_trapno tf_err tf_eip tf_cs tf_eflags tf_esp tf_ss].
    rewrite !E4, !E5, !(en_segs _ _ _ _ _ _ He) by done. by replace (kstack + 4096 - 28 - 16) with (kstack + 4096 - 44) by lia. }
  rewrite Ew in Ht. set (s2 := run _ s1) in *. split_and!.
  - destruct Ht as [T1 T2 T3 T4 T5 T6]. split; [done|done|done|by rewrite T4|by rewrite E5 in T5|done].
  - pose proof (it_stack _ _ _ _ _ _ Ht) as [_ [_ Hw]]. replace (_ + 4 + 4) with (kstack + 4096 - sizeof_trapframe) in Hw by lia.
    rewrite (trapframe_in_words _ _ _ (it_bytes _ _ _ _ _ _ Ht) Hw). cbn.
    rewrite !(u16_small (m_seg s _)) by apply (wf_seg _ Hwf). done.
  - apply (same_outside_trans _ _ _ (m_mem s1)).
    + eapply same_outside_weaken; [exact E7|lia..].
    + eapply same_outside_weaken; [exact Ho|lia..].
Qed.
End Trap.

(** ** The return to user code *)

(** [trap] has returned: its argument is still on the stack. *)
Lemma return_user s tf t :
  m_reg s ESP = tf - 4 -> 4 <= tf -> user_frame s tf t ->
  loaded_from t (run alltraps_return s) /\ m_mem (run alltraps_return s) = m_mem s.
Proof.
  intros Hsp Htf Hf. unfold alltraps_return. rewrite run_cons. set (s1 := run1 s (Addl_imm 4 ESP)).
  pose proof (uf_room _ _ _ Hf) as [H0 Hl]. unfold sizeof_trapframe in Hl.
  assert (m_reg s1 ESP = tf) as E.
  { change (m_reg s1 ESP) with (u32 (m_reg s ESP + 4)). rewrite Hsp, u32_small by lia. lia. }
  change (m_mem s) with (m_mem s1). apply (trapret_spec s1 tf t E). destruct Hf as [F1 F2 F3 F4]. by split.
Qed.

Lemma loaded_regs t s r :
  loaded_from t s -> m_reg s r = match r with
    | EAX => tf_eax t | ECX => tf_ecx t | EDX => tf_edx t | EBX => tf_ebx t
    | ESP => tf_esp t | EBP => tf_ebp t | ESI => tf_esi t | EDI => tf_edi t end.
Proof. intros (H & _). cbn [fmap list_fmap] in H. injection H. by destruct r. Qed.

Lemma loaded_segs t s g :
  loaded_from t s -> m_seg s g = u16 match g with
    | CS => tf_cs t | SS => tf_ss t | DS => tf_ds t | ES => tf_es t | FS => tf_fs t | GS => tf_gs t end.
Proof. intros (_ & H & _). cbn [fmap list_fmap] in H. injection H. by destruct g. Qed.

(** ** A new process *)

(** What [allocproc] leaves on the new kernel stack: room for the trap frame,
    the address of [trapret] and a context that starts at [forkret]. *)
Definition sizeof_context : Z := 20.
Definition alloc_stack (kstack trapret_at forkret_at : Z) (m : mem) : Z * mem :=
  let sp := kstack + KSTACKSIZE in
  let sp := sp - sizeof_trapframe in
  let sp := sp - 4 in
  let m := st32 sp trapret_at m in
  let sp := sp - sizeof_context in
  let m := memset sp 0 (Z.to_nat sizeof_context) m in
  let m := st32 (sp + 16) forkret_at m in
  (sp, m).

Lemma ld32_zero a m : (forall i, 0 <= i < 4 -> m (u32 (a + i)) = 0) -> ld32 a m = 0.
Proof.
  intros H. unfold ld32, load_bytes. change (seqZ 0 4) with [0; 1; 2; 3]. cbn [fmap list_fmap].
  by rewrite (H 0), (H 1), (H 2), (H 3) by lia.
Qed.

Lemma alloc_stack_spec kstack trapret_at forkret_at m :
  0 <= kstack -> kstack + KSTACKSIZE < 2 ^ 32 -> is_word32 trapret_at -> is_word32 forkret_at ->
  let '(ctx, m') := alloc_stack kstack trapret_at forkret_at m in
  ctx = kstack + KSTACKSIZE - sizeof_trapframe - 24 /\
  words_at ctx [0; 0; 0; 0; forkret_at; trapret_at] m' /\ same_outside ctx (ctx + 24) m m'.
Proof.
  intros H0 Hl Ht Hf. unfold alloc_stack, KSTACKSIZE, sizeof_trapframe, sizeof_context in *.
  set (ctx := kstack + 4096 - 76 - 4 - 20). set (m1 := st32 (ctx + 20) trapret_at m).
  replace (kstack + 4096 - 76 - 4) with (ctx + 20) by lia. fold m1.
  set (m2 := memset ctx 0 (Z.to_nat 20) m1). split; [lia|].
  assert (same_outside ctx (ctx + 20) m1 m2) as Hm2.
  { intros x Hx Ho. unfold m2. rewrite memset_spec.
    by destruct (Z.leb_spec ctx x), (Z.ltb_spec x (ctx + Z.of_nat (Z.to_nat 20))); try lia. }
  assert (forall o, 0 <= o -> o + 4 <= 20 -> ld32 (ctx + o) m2 = 0) as Hz.
  { intros o Ho1 Ho2. apply ld32_zero. intros i Hi. rewrite u32_small by lia. unfold m2. rewrite memset_spec.
    by destruct (Z.leb_spec ctx (ctx + o + i)), (Z.ltb_spec (ctx + o + i) (ctx + Z.of_nat (Z.to_nat 20))); try lia. }
  split.
  - cbn [words_at]. split_and!.
    + rewrite ld_st32_ne by lia. rewrite <- (Hz 0) by lia. f_equal. lia.
    + rewrite ld_st32_ne by lia. apply Hz; lia.
    + rewrite ld_st32_ne by lia. rewrite <- Z.add_assoc. apply Hz; lia.
    + rewrite ld_st32_ne by lia. rewrite <- !Z.add_assoc. apply Hz; lia.
    + replace (ctx + 4 + 4 + 4 + 4) with (ctx + 16) by lia. apply ld_st32; [lia..|done].
    + replace (ctx + 4 + 4 + 4 + 4 + 4) with (ctx + 20) by lia. rewrite ld_st32_ne by lia.
      assert (words_at (ctx + 20) [trapret_at] m2) as [-> _]; [|done].
      eapply words_at_outside; [exact Hm2|lia|simpl; lia|simpl; lia|]. split; [|done]. apply ld_st32; [lia..|done].
    + done.
  - apply (same_outside_trans _ _ _ m1); [eapply same_outside_weaken; [apply st32_outside; lia|lia..]|].
    apply (same_outside_trans _ _ _ m2); [eapply same_outside_weaken; [exact Hm2|lia..]|].
    eapply same_outside_weaken; [apply st32_outside; lia|lia..].
Qed.
