(* ===== verification/BootAsm.v ===== *)
(** * From real mode to C (kernel/bootasm.S, kernel/bootother.S,
      kernel/multiboot.S, kernel/asm.h)

    The instructions with which the three pieces of start-up code switch a
    processor to 32-bit protected mode with flat segments and call C, on a
    processor that checks selectors against the descriptor table in memory;
    and the keyboard controller's gate for address line 20. *)

From S2P Require Import Prelude Monad Params CString ProcTable Proc X86 Seg.

(** ** Instructions *)

Inductive binstr :=
| Plain (i : instr)
| Cli
| Xorw_ax                      (* xorw %ax, %ax *)
| Movw_ax_seg (g : sreg)       (* movw %ax, %g *)
| Lgdt16 (a : Z)               (* lgdt a, with 16-bit operands *)
| Lgdt32 (a : Z)
| Movl_cr0_eax
| Orl_eax (v : Z)
| Movl_eax_cr0
| Ljmp (sel off : Z)
| Movl_abs (a : Z) (r : reg)   (* movl a, %r *)
| Call_abs (a back : Z).       (* call *(a) *)

Definition CR0_PE : Z := 1.
Definition protected (p : processor) : bool := Z.testbit (p_cr0 p) 0.

(** The linear address of an operand of [n] bytes in the data segment. *)
Definition linear (off n : Z) (p : processor) : option Z :=
  let ds := m_seg (p_m p) DS in
  if protected p then
    x ← descriptor ds p; if off + n - 1 <=? d_limit x then Some (u32 (d_base x + off)) else None
  else Some (u32 (16 * ds + off)).

(** A selector is loaded: any in real mode; in protected mode the null
    selector, unless for the stack, or one of a present data segment, writable
    for the stack. *)
Definition load_seg (g : sreg) (v : Z) (p : processor) : option processor :=
  let ok := Some (set_m (set_seg g v (p_m p)) p) in
  if negb (protected p) then ok
  else if (v / 4 =? 0) && negb (sreg_eqb g SS) then ok
  else
    x ← descriptor v p;
    if (d_p x =? 1) && (d_s x =? 1) && (d_type x <? 8) && (negb (sreg_eqb g SS) || Z.testbit (d_type x) 1)
    then ok else None.

Definition lgdt_from (mask a : Z) (p : processor) : option processor :=
  l ← linear a 6 p;
  Some (set_gdtr (Z.land (ldn (l + 2) 4 (p_mem p)) mask, ldn l 2 (p_mem p)) p).

Definition on_m (f : machine -> machine) (p : processor) : processor := set_m (f (p_m p)) p.

Definition bstep (p : processor) (i : binstr) : option processor :=
  match i with
  | Plain i => Some (on_m (fun s => run1 s i) p)
  | Cli => Some (on_m (fun s => set_eflags (Z.ldiff (m_eflags s) FL_IF) s) p)
  | Xorw_ax => Some (on_m (fun s => run1 s (Movw_imm 0 EAX)) p)
  | Movw_ax_seg g => load_seg g (u16 (m_reg (p_m p) EAX)) p
  | Lgdt16 a => lgdt_from 0xffffff a p
  | Lgdt32 a => lgdt_from 0xffffffff a p
  | Movl_cr0_eax => Some (on_m (set_reg EAX (p_cr0 p)) p)
  | Orl_eax v => Some (on_m (fun s => set_reg EAX (Z.lor (m_reg s EAX) v) s) p)
  | Movl_eax_cr0 => Some (set_cr0 (m_reg (p_m p) EAX) p)
  | Ljmp sel off =>
      if negb (protected p) then Some (on_m (fun s => set_eip off (set_seg CS sel s)) p)
      else
        x ← descriptor sel p;
        if is_code x then Some (on_m (fun s => set_eip off (set_seg CS sel s)) p) else None
  | Movl_abs a r => l ← linear a 4 p; Some (on_m (set_reg r (ldn l 4 (p_mem p))) p)
  | Call_abs a back => l ← linear a 4 p; Some (on_m (fun s => run1 s (Call (ldn l 4 (p_mem p)) back)) p)
  end.

Fixpoint bexec (c : list binstr) (p : processor) : option processor :=
  match c with
  | [] => Some p
  | i :: c => p1 ← bstep p i; bexec c p1
  end.

(** ** asm.h *)

Definition SEG_NULLASM : list Z := [0; 0; 0; 0; 0; 0; 0; 0].
Definition SEG_ASM (type base lim : Z) : list Z :=
  le_enc 2 (Z.land (Z.shiftr lim 12) 0xffff) ++ le_enc 2 (Z.land base 0xffff) ++
  [Z.land (Z.shiftr base 16) 0xff; Z.lor 0x90 type;
   Z.lor 0xC0 (Z.land (Z.shiftr lim 28) 0xf); Z.land (Z.shiftr base 24) 0xff].

(** The data after the label [gdt] of the three files. *)
Definition boot_gdt : list Z :=
  SEG_NULLASM ++ SEG_ASM (Z.lor STA_X STA_R) 0 0xffffffff ++ SEG_ASM STA_W 0 0xffffffff.
Definition boot_tables (gdt : Z) : list Z := boot_gdt ++ le_enc 2 (24 - 1) ++ le_enc 4 gdt.

(** ** The code *)

Section Code.
(** The labels [start], [start32] and [gdt], and the address after the call. *)
Context (start start32 gdt back : Z).
Definition gdtdesc : Z := gdt + 24.

Definition to_protected : list binstr :=
  [Lgdt16 gdtdesc; Movl_cr0_eax; Orl_eax CR0_PE; Movl_eax_cr0; Ljmp (Z.shiftl SEG_KCODE 3) start32].

Definition real_segments : list binstr := [Cli; Xorw_ax; Movw_ax_seg DS; Movw_ax_seg ES; Movw_ax_seg SS].

Definition flat_segments : list binstr :=
  [Plain (Movw_imm (Z.shiftl SEG_KDATA 3) EAX); Movw_ax_seg DS; Movw_ax_seg ES; Movw_ax_seg SS;
   Plain (Movw_imm 0 EAX); Movw_ax_seg FS; Movw_ax_seg GS].

(** bootother.S, up to the call *)
Definition bootother : list binstr :=
  real_segments ++ to_protected ++ flat_segments ++ [Movl_abs (start - 4) ESP; Call_abs (start - 8) back].

(** bootasm.S: before and after the gate for line 20. *)
Definition bootasm_start : list binstr := real_segments.
Definition bootasm_enter (bootmain : Z) : list binstr :=
  to_protected ++ flat_segments ++ [Plain (Movl_imm start ESP); Plain (Call bootmain back)].

(** multiboot.S, which a multiboot loader enters in protected mode. *)
Definition STACK : Z := 4096.
Definition multiboot_entry (stack main : Z) : list binstr :=
  [Lgdt32 gdtdesc; Ljmp (Z.shiftl SEG_KCODE 3) start32] ++ flat_segments ++
  [Plain (Movl_imm (stack + STACK) ESP); Plain (Call main back)].
End Code.

(** *** Address line 20 (bootasm.S, lines 26 to 40) *)

(** The keyboard controller: polls for which its input buffer is still full,
    the command byte waiting for its data, and the output port's bit for the
    address line. *)
Record kbc := Kbc { kb_busy : nat; kb_slow : nat; kb_cmd : Z; kb_a20 : bool }.

Definition kbc_in64 : M kbc Z := fun k =>
  let 'Kbc b w c a := k in Ret (if decide (b = 0%nat) then 0 else 2) (Kbc (b - 1) w c a).
Definition kbc_out64 (v : Z) : M kbc unit := modify (fun '(Kbc b w c a) => Kbc w w v a).
(** Command 0xd1: the next byte goes to the output port, whose bit 1 is the
    address line. *)
Definition kbc_out60 (v : Z) : M kbc unit :=
  modify (fun '(Kbc b w c a) => if c =? 0xd1 then Kbc w w 0 (Z.testbit v 1) else Kbc w w c a).

Definition a20_poll (_ : unit) : M kbc (unit + unit) :=
  let! al := kbc_in64 in ret (if Z.land al 2 =? 0 then inr tt else inl tt).
Definition seta20 (fuel : nat) : M kbc unit :=
  while_fuel fuel a20_poll tt;;;
  kbc_out64 0xd1;;;
  while_fuel fuel a20_poll tt;;;
  kbc_out60 0xdf.

(** ** The descriptors of the tables *)

Definition tables_at (gdt : Z) (m : mem) : Prop :=
  0 <= gdt /\ gdt + 30 <= 2 ^ 32 /\ load_bytes gdt 30 m = boot_tables gdt.

Definition boot_code : Z := le_dec (SEG_ASM (Z.lor STA_X STA_R) 0 0xffffffff).
Definition boot_data : Z := le_dec (SEG_ASM STA_W 0 0xffffffff).

Lemma tables_read gdt m :
  tables_at gdt m ->
  ldn (gdt + 8) 8 m = boot_code /\ ldn (gdt + 16) 8 m = boot_data /\
  ldn (gdt + 24) 2 m = 23 /\ ldn (gdt + 24 + 2) 4 m = gdt.
Proof.
  intros (Hg & Hl & E).
  assert (forall o k, 0 <= o -> o + Z.of_nat k <= 30 -> ldn (gdt + o) k m = le_dec (slice o (Z.of_nat k) (boot_tables gdt))) as Hs.
  { intros o k Ho Hk. unfold ldn. by rewrite <- E, slice_load_bytes by lia. }
  rewrite <- (Z.add_assoc gdt 24 2), !Hs by lia. split_and!; [done..|].
  change (le_dec (le_enc 4 gdt) = gdt). apply le_dec_enc. change (256 ^ Z.of_nat 4) with (2 ^ 32). lia.
Qed.

(** Flat segments: all of memory, with code and with data. *)
Lemma boot_code_flat :
  is_code boot_code = true /\ d_base boot_code = 0 /\ d_limit boot_code = 2 ^ 32 - 1 /\ d_dpl boot_code = 0.
Proof. by vm_compute. Qed.
Lemma boot_data_flat :
  d_p boot_data = 1 /\ d_s boot_data = 1 /\ d_type boot_data = 2 /\ d_base boot_data = 0 /\ d_limit boot_data = 2 ^ 32 - 1.
Proof. by vm_compute. Qed.

(** Protected mode with the segments of the tables. *)
Record flat (gdt : Z) (p : processor) : Prop := Flat {
  ft_pe : protected p = true;
  ft_gdtr : p_gdtr p = (gdt, 23);
  ft_cs : m_seg (p_m p) CS = Z.shiftl SEG_KCODE 3;
  ft_data : forall g, g = DS \/ g = ES \/ g = SS -> m_seg (p_m p) g = Z.shiftl SEG_KDATA 3;
  ft_null : forall g, g = FS \/ g = GS -> m_seg (p_m p) g = 0;
}.

Lemma boot_descriptors gdt p :
  p_gdtr p = (gdt, 23) -> tables_at gdt (p_mem p) ->
  descriptor (Z.shiftl SEG_KCODE 3) p = Some boot_code /\ descriptor (Z.shiftl SEG_KDATA 3) p = Some boot_data.
Proof.
  intros Eg Ht. destruct (tables_read _ _ Ht) as (E1 & E2 & _). unfold descriptor. rewrite Eg.
  change (8 * (Z.shiftl SEG_KCODE 3 / 8)) with 8. change (8 * (Z.shiftl SEG_KDATA 3 / 8)) with 16. cbn [fst snd].
  by rewrite E1, E2.
Qed.

(** ** Steps *)

Definition bwp (c : list binstr) (Q : processor -> Prop) (p : processor) : Prop :=
  match bexec c p with Some p' => Q p' | None => False end.

Lemma bwp_app c1 c2 Q p : bwp c1 (bwp c2 Q) p -> bwp (c1 ++ c2) Q p.
Proof.
  revert p. induction c1 as [|i c1 IH]; intros p; [done|]. unfold bwp. cbn [bexec app].
  destruct (bstep p i) as [p1|]; cbn [mbind option_bind]; [apply IH|done].
Qed.
Lemma bwp_mono c (Q R : processor -> Prop) p : bwp c Q p -> (forall p', Q p' -> R p') -> bwp c R p.
Proof. unfold bwp. destruct (bexec c p); auto. Qed.
Lemma bwp_cons i c Q p p1 : bstep p i = Some p1 -> bwp c Q p1 -> bwp (i :: c) Q p.
Proof. intros E H. unfold bwp. cbn [bexec]. rewrite E. done. Qed.

Lemma bwp_nil (Q : processor -> Prop) p : Q p -> bwp [] Q p.
Proof. done. Qed.

Lemma ax_imm x v : u16 (Z.lor (Z.shiftl (Z.shiftr x 16) 16) (u16 v)) = u16 v.
Proof.
  unfold u16. rewrite <- !Z.land_ones, Z.land_lor_distr_l by lia.
  rewrite (Z.land_ones (Z.shiftl _ _)), Z.shiftl_mul_pow2, Z_mod_mult, Z.lor_0_l by lia. by rewrite <- Z.land_assoc.
Qed.

Lemma load_real g v p : protected p = false -> load_seg g v p = Some (on_m (set_seg g v) p).
Proof. intros Hp. unfold load_seg. by rewrite Hp. Qed.

Lemma load_flat gdt g p :
  protected p = true -> p_gdtr p = (gdt, 23) -> tables_at gdt (p_mem p) ->
  load_seg g (Z.shiftl SEG_KDATA 3) p = Some (on_m (set_seg g (Z.shiftl SEG_KDATA 3)) p).
Proof.
  intros Hp Hg Ht. unfold load_seg. rewrite Hp. change (Z.shiftl SEG_KDATA 3 / 4 =? 0) with false. cbn [negb andb].
  rewrite (proj2 (boot_descriptors _ _ Hg Ht)). cbn [mbind option_bind].
  destruct boot_data_flat as (-> & -> & -> & _). by destruct g.
Qed.

Lemma load_null g p : protected p = true -> g <> SS -> load_seg g 0 p = Some (on_m (set_seg g 0) p).
Proof. intros Hp Hg. unfold load_seg. rewrite Hp. by destruct g. Qed.

(** Loads of a register from [%ax], whose value is [v]. *)
Lemma bwp_real g c Q p :
  protected p = false -> bwp c Q (on_m (set_seg g (u16 (m_reg (p_m p) EAX))) p) -> bwp (Movw_ax_seg g :: c) Q p.
Proof. intros Hp. apply bwp_cons. by apply load_real. Qed.

Lemma bwp_flat gdt g c Q p :
  u16 (m_reg (p_m p) EAX) = Z.shiftl SEG_KDATA 3 -> protected p = true -> p_gdtr p = (gdt, 23) -> tables_at gdt (p_mem p) ->
  bwp c Q (on_m (set_seg g (Z.shiftl SEG_KDATA 3)) p) -> bwp (Movw_ax_seg g :: c) Q p.
Proof. intros Ha Hp Hg Ht. apply bwp_cons. cbn [bstep]. rewrite Ha. by apply (load_flat gdt). Qed.

Lemma bwp_null g c Q p :
  u16 (m_reg (p_m p) EAX) = 0 -> protected p = true -> g <> SS ->
  bwp c Q (on_m (set_seg g 0) p) -> bwp (Movw_ax_seg g :: c) Q p.
Proof. intros Ha Hp Hg. apply bwp_cons. cbn [bstep]. rewrite Ha. by apply load_null. Qed.

Lemma if_clear fl : Z.testbit (Z.ldiff fl FL_IF) 9 = false.
Proof. rewrite Z.ldiff_spec. change (Z.testbit FL_IF 9) with true. apply andb_false_r. Qed.

Lemma real_segments_run p :
  protected p = false ->
  bwp real_segments (fun p' => m_seg (p_m p') DS = 0 /\ p_mem p' = p_mem p /\ p_cr0 p' = p_cr0 p /\
    Z.testbit (m_eflags (p_m p')) 9 = false) p.
Proof.
  intros Hp. eapply bwp_cons; [done|]. eapply bwp_cons; [done|].
  apply bwp_real; [done|]. apply bwp_real; [done|]. apply bwp_real; [done|]. apply bwp_nil.
  split_and!; [apply ax_imm|done|done|apply if_clear].
Qed.

(** The switch to protected mode. *)
Lemma to_protected_run start32 gdt p :
  m_seg (p_m p) DS = 0 -> protected p = false -> tables_at gdt (p_mem p) -> gdt + 30 <= 2 ^ 16 ->
  bwp (to_protected start32 gdt) (fun p' => protected p' = true /\ p_gdtr p' = (gdt, 23) /\
    m_seg (p_m p') CS = Z.shiftl SEG_KCODE 3 /\ m_eip (p_m p') = start32 /\ p_mem p' = p_mem p /\
    m_eflags (p_m p') = m_eflags (p_m p)) p.
Proof.
  intros Hds Hp Ht Hl. pose proof Ht as (Hg & _ & _). destruct (tables_read _ _ Ht) as (_ & _ & E3 & E4).
  assert (bstep p (Lgdt16 (gdtdesc gdt)) = Some (set_gdtr (gdt, 23) p)) as E.
  { cbn [bstep]. unfold lgdt_from, linear. rewrite Hp, Hds. cbn [mbind option_bind]. unfold gdtdesc.
    rewrite u32_small by lia. change (16 * 0 + (gdt + 24)) with (gdt + 24). rewrite E3, E4.
    change 0xffffff with (Z.ones 24). by rewrite Z.land_ones, Z.mod_small by lia. }
  eapply bwp_cons; [exact E|]. eapply bwp_cons; [done|]. eapply bwp_cons; [done|]. eapply bwp_cons; [done|].
  set (q := set_cr0 _ _). assert (protected q = true) as Hq.
  { unfold protected, q. pcbn. cbn [on_m p_cr0 set_m p_m m_reg set_reg reg_eqb set_gdtr]. rewrite Z.lor_spec.
    change (Z.testbit CR0_PE 0) with true. apply orb_true_r. }
  assert (p_gdtr q = (gdt, 23)) as Eg by done.
  destruct (boot_descriptors gdt q Eg Ht) as [Ec _]. destruct boot_code_flat as (Hc & _).
  eapply bwp_cons; [cbn [bstep]; rewrite Hq, Ec; cbn [negb mbind option_bind]; rewrite Hc; reflexivity|].
  apply bwp_nil. split_and!; done.
Qed.

Lemma flat_segments_run gdt p :
  protected p = true -> p_gdtr p = (gdt, 23) -> m_seg (p_m p) CS = Z.shiftl SEG_KCODE 3 -> tables_at gdt (p_mem p) ->
  bwp flat_segments (fun p' => flat gdt p' /\ p_mem p' = p_mem p /\ m_eflags (p_m p') = m_eflags (p_m p)) p.
Proof.
  intros Hp Hg Hcs Ht. eapply bwp_cons; [done|].
  do 3 (apply (bwp_flat gdt); [apply ax_imm|done|done|done|]).
  eapply bwp_cons; [done|].
  do 2 (apply bwp_null; [apply ax_imm|done|done|]).
  apply bwp_nil. split_and!; [|done|done]. split; [done|done|done|..].
  - intros g [-> |[-> | ->]]; done.
  - intros g [-> | ->]; done.
Qed.

(** ** The entries into C *)

(** C code runs at [f]: in flat protected mode, on the stack below [esp], where
    the return address is; the rest of memory is [m]. *)
Record in_c (gdt f esp back : Z) (m : mem) (p' : processor) : Prop := InC {
  ic_flat : flat gdt p';
  ic_eip : m_eip (p_m p') = f;
  ic_esp : m_reg (p_m p') ESP = esp - 4;
  ic_back : ldn (esp - 4) 4 (p_mem p') = back;
  ic_mem : same_outside (esp - 4) esp m (p_mem p');
}.
Definition irq_off (p : processor) : Prop := Z.testbit (m_eflags (p_m p)) 9 = false.

(** The call at the end. *)
Lemma call_in_c gdt f esp back m p :
  flat gdt p -> p_mem p = m -> m_reg (p_m p) ESP = esp -> 4 <= esp < 2 ^ 32 -> is_word32 back ->
  in_c gdt f esp back m (on_m (fun s => run1 s (Call f back)) p).
Proof.
  intros [H1 H2 H3 H4 H5] Em Esp Hesp Hb. cbn [run1]. unfold push. unfold on_m. pcbn. rewrite Esp, u32_small by lia.
  change st32 with (fun a v m => stn a 4 v m). unfold p_mem in Em. rewrite Em. cbv beta.
  split; pcbn.
  - by split.
  - done.
  - done.
  - apply ldn_stn; [lia|lia|]. change (256 ^ Z.of_nat 4) with (2 ^ 32). apply Hb.
  - replace esp with (esp - 4 + Z.of_nat 4) at 2 by lia. apply stn_outside; lia.
Qed.

Lemma flat_linear gdt p off n :
  flat gdt p -> tables_at gdt (p_mem p) -> 0 <= off -> off + n <= 2 ^ 32 -> linear off n p = Some (u32 off).
Proof.
  intros [Hp Hg _ Hd _] Ht Ho Hn. unfold linear. rewrite Hp, (Hd DS) by by left.
  rewrite (proj2 (boot_descriptors _ _ Hg Ht)). cbn [mbind option_bind]. destruct boot_data_flat as (_ & _ & _ & -> & ->).
  rewrite (proj2 (Z.leb_le _ _)) by lia. done.
Qed.

Section Entries.
Context (start start32 gdt back : Z).
Hypothesis Hback : is_word32 back.

(** From real mode with a zero data segment to flat segments. *)
Lemma enter_flat p :
  m_seg (p_m p) DS = 0 -> protected p = false -> tables_at gdt (p_mem p) -> gdt + 30 <= 2 ^ 16 ->
  bwp (to_protected start32 gdt ++ flat_segments) (fun p' =>
    flat gdt p' /\ p_mem p' = p_mem p /\ m_eflags (p_m p') = m_eflags (p_m p)) p.
Proof.
  intros Hds Hp Ht Hg. apply bwp_app. eapply bwp_mono; [by apply to_protected_run|]. cbv beta.
  intros p2 (Hp2 & Hg2 & Hcs2 & _ & Em2 & Ef2). rewrite <- Em2 in Ht.
  eapply bwp_mono; [by apply (flat_segments_run gdt)|]. cbv beta. intros p3 (Hf & Em3 & Ef3). by rewrite Em3, Ef3.
Qed.

(** bootother.S: the stack and the function to call are in the two words
    before the code. *)
Lemma bootother_run p (esp := ldn (start - 4) 4 (p_mem p)) :
  protected p = false -> tables_at gdt (p_mem p) -> gdt + 30 <= 2 ^ 16 -> 8 <= start < 2 ^ 16 -> 4 <= esp < 2 ^ 32 ->
  bwp (bootother start start32 gdt back) (fun p' =>
    in_c gdt (ldn (start - 8) 4 (p_mem p)) esp back (p_mem p) p' /\ irq_off p') p.
Proof.
  intros Hp Ht Hg Hs Hesp. unfold bootother. apply bwp_app. eapply bwp_mono; [by apply real_segments_run|]. cbv beta.
  intros p1 (Hds & Em1 & Ec1 & Hif). rewrite app_assoc. apply bwp_app. rewrite <- Em1 in Ht.
  eapply bwp_mono; [apply enter_flat; [done|by unfold protected; rewrite Ec1|done|done]|]. cbv beta.
  intros p3 (Hf & Em3 & Ef3). rewrite <- Em3 in Ht. assert (p_mem p3 = p_mem p) as Em by congruence.
  eapply bwp_cons; [cbn [bstep]; rewrite (flat_linear gdt), u32_small by (done || lia); reflexivity|].
  rewrite Em. fold esp. set (p4 := on_m _ p3). assert (flat gdt p4) as Hf4 by (destruct Hf; by split).
  eapply bwp_cons; [cbn [bstep]; rewrite (flat_linear gdt), u32_small by (done || lia); reflexivity|].
  apply bwp_nil. change (p_mem p4) with (p_mem p3). rewrite Em. split; [by apply call_in_c|].
  unfold irq_off. by rewrite <- Ef3 in Hif.
Qed.

(** bootasm.S: the stack grows down from the code. *)
Lemma bootasm_run bootmain p :
  protected p = false -> tables_at gdt (p_mem p) -> gdt + 30 <= 2 ^ 16 -> 4 <= start < 2 ^ 16 ->
  bwp (bootasm_start ++ bootasm_enter start start32 gdt back bootmain) (fun p' =>
    in_c gdt bootmain start back (p_mem p) p' /\ irq_off p') p.
Proof.
  intros Hp Ht Hg Hs. unfold bootasm_start, bootasm_enter. apply bwp_app.
  eapply bwp_mono; [by apply real_segments_run|]. cbv beta.
  intros p1 (Hds & Em1 & Ec1 & Hif). rewrite app_assoc. apply bwp_app. rewrite <- Em1 in Ht |- *.
  eapply bwp_mono; [apply enter_flat; [done|by unfold protected; rewrite Ec1|done|done]|]. cbv beta.
  intros p3 (Hf & Em3 & Ef3). eapply bwp_cons; [reflexivity|]. eapply bwp_cons; [reflexivity|]. apply bwp_nil.
  split; [apply call_in_c; [by destruct Hf; split|done|done|lia|done]|]. unfold irq_off. by rewrite <- Ef3 in Hif.
Qed.

(** multiboot.S: the loader gives flat data segments; the stack is the one of
    the file. *)
Lemma multiboot_run stack main p :
  protected p = true -> linear (gdtdesc gdt) 6 p = Some (gdtdesc gdt) -> tables_at gdt (p_mem p) ->
  0 <= stack -> stack + STACK < 2 ^ 32 ->
  bwp (multiboot_entry start32 gdt back stack main) (fun p' => in_c gdt main (stack + STACK) back (p_mem p) p') p.
Proof.
  intros Hp Hl Ht Hs Hst. destruct (tables_read _ _ Ht) as (_ & _ & E3 & E4). pose proof Ht as (Hg & Hg2 & _).
  assert (bstep p (Lgdt32 (gdtdesc gdt)) = Some (set_gdtr (gdt, 23) p)) as E.
  { cbn [bstep]. unfold lgdt_from. rewrite Hl. cbn [mbind option_bind]. unfold gdtdesc. rewrite E3, E4.
    change 0xffffffff with (Z.ones 32). by rewrite Z.land_ones, Z.mod_small by lia. }
  unfold multiboot_entry. rewrite <- app_comm_cons. eapply bwp_cons; [exact E|]. set (q := set_gdtr _ p).
  destruct (boot_descriptors gdt q eq_refl Ht) as [Ec _]. destruct boot_code_flat as (Hc & _).
  rewrite <- app_comm_cons.
  eapply bwp_cons; [cbn [bstep]; change (protected q) with (protected p); rewrite Hp, Ec; cbn [negb mbind option_bind]; rewrite Hc; reflexivity|].
  cbn [app]. apply bwp_app. eapply bwp_mono; [by apply (flat_segments_run gdt)|]. cbv beta. intros p3 (Hf & Em3 & Ef3).
  eapply bwp_cons; [reflexivity|]. eapply bwp_cons; [reflexivity|]. apply bwp_nil. unfold STACK in *.
  apply call_in_c; [by destruct Hf; split|done|done|lia|done].
Qed.
End Entries.

(** ** Address line 20 *)

Lemma a20_wait fuel b w c a : (b < fuel)%nat -> while_fuel fuel a20_poll tt (Kbc b w c a) = Ret tt (Kbc 0 w c a).
Proof.
  revert b. induction fuel as [|fuel IH]; intros b Hb; [lia|]. rewrite while_fuel_S. destruct b as [|b]; [done|].
  unfold bind at 1. cbn. rewrite Nat.sub_0_r. apply IH. lia.
Qed.

(** The gate opens, as soon as the controller takes the bytes. *)
Lemma seta20_spec fuel k :
  (kb_busy k < fuel)%nat -> (kb_slow k < fuel)%nat -> wp (seta20 fuel) (fun _ k' => kb_a20 k' = true) k.
Proof.
  intros Hb Hs. destruct k as [b w c a]. cbn in Hb, Hs. unfold seta20, wp. unfold bind at 1. rewrite a20_wait by done.
  unfold bind at 1, kbc_out64, modify. unfold bind at 1. by rewrite a20_wait by done.
Qed.
