(* ===== verification/Boot.v ===== *)
(** * The boot loader (kernel/bootmain.c)

    [bootmain] reads the kernel's ELF image from the disk, whole sectors at a
    time, and loads its segments.  The sectors it reads beyond a segment do no
    harm when the segments are in increasing order. *)

From S2P Require Import Prelude Monad Params CString Ide Exec.

(** ** State *)

(** Memory, the registers of the disk controller and the disk. *)
Record boot := Boot {
  bt_mem : mem;
  bt_tf : taskfile;
  bt_disk : gmap (Z * Z) (list Z);
}.
Definition bt_set_mem v s := Boot v (bt_tf s) (bt_disk s).
Definition bt_set_tf v s := Boot (bt_mem s) v (bt_disk s).

(** ** Operations *)

Definition SECTSIZE : Z := 512.

(** The drive is ready whenever [waitdisk] asks. *)
Definition readsect (dst offset : Z) : M boot unit :=
  modify (bt_set_tf (Taskfile 1 (u8 offset) (u8 (Z.shiftr offset 8)) (u8 (Z.shiftr offset 16))
    (u8 (Z.lor (Z.shiftr offset 24) 0xE0)) 0x20));;;
  modify (fun s => bt_set_mem (store_bytes dst
    (slice 0 SECTSIZE (disk_read (bt_disk s) (ata_drive (bt_tf s), ata_lba (bt_tf s)))) (bt_mem s)) s).

(** The loop of [readseg]. *)
Definition readseg_step (eva : Z) '(va, offset) : M boot ((Z * Z) + unit) :=
  if va <? eva then
    readsect va offset;;;
    ret (inl (u32 (va + SECTSIZE), u32 (offset + 1)))
  else ret (inr tt).

(** A segment of [count] bytes lies in at most [count / SECTSIZE + 2]
    sectors. *)
Definition readseg (va count offset : Z) : M boot unit :=
  let eva := u32 (va + count) in
  let va := u32 (va - offset mod SECTSIZE) in
  let offset := offset / SECTSIZE + 1 in
  while_fuel (Z.to_nat (count / SECTSIZE + 3)) (readseg_step eva) (va, offset).

Definition ELF_SCRATCH : Z := 0x10000.

Definition proghdr_of (ph : Z) (s : boot) : proghdr :=
  proghdr_at (load_bytes ph sizeof_proghdr (bt_mem s)).
Definition elfhdr_of (s : boot) : elfhdr :=
  elfhdr_at (load_bytes ELF_SCRATCH sizeof_elfhdr (bt_mem s)).

(** The loop of [bootmain]: the program header at [ph] is read again after
    its segment. *)
Definition boot_segment (ph : Z) : M boot unit :=
  let! p := gets (proghdr_of ph) in
  readseg (ph_va p) (ph_filesz p) (ph_offset p);;;
  let! q := gets (proghdr_of ph) in
  if ph_filesz q <? ph_memsz q then
    modify (fun s => bt_set_mem (store_bytes (u32 (ph_va p + ph_filesz q))
      (zeros (ph_memsz q - ph_filesz q)) (bt_mem s)) s)
  else ret tt.

Definition boot_step (eph ph : Z) : M boot (Z + unit) :=
  if ph <? eph then
    boot_segment ph;;;
    ret (inl (u32 (ph + sizeof_proghdr)))
  else ret (inr tt).

(** The result is the entry point that is called, none for a disk without a
    kernel. *)
Definition bootmain : M boot (option Z) :=
  readseg ELF_SCRATCH 4096 0;;;
  let! elf := gets elfhdr_of in
  if negb (elf_magic elf =? ELF_MAGIC) then ret None
  else
    let ph := u32 (ELF_SCRATCH + elf_phoff elf) in
    let eph := u32 (ph + elf_phnum elf * sizeof_proghdr) in
    while_fuel (S (Z.to_nat (elf_phnum elf))) (boot_step eph) ph;;;
    let! elf := gets elfhdr_of in
    ret (Some (elf_entry elf)).

(** ** The disk with a kernel *)

(** The image starts at sector 1. *)
Definition kernel_disk (d : gmap (Z * Z) (list Z)) (img : list Z) : Prop :=
  forall k, 0 <= k < 2 ^ 24 -> disk_read d (0, k + 1) = slice (k * SECTSIZE) SECTSIZE img.

(** The registers select drive 0 and the sector. *)
Lemma readsect_key o :
  0 <= o < 2 ^ 28 ->
  let r := Taskfile 1 (u8 o) (u8 (Z.shiftr o 8)) (u8 (Z.shiftr o 16)) (u8 (Z.lor (Z.shiftr o 24) 0xE0)) 0x20 in
  (ata_drive r, ata_lba r) = (0, o).
Proof.
  intros Ho r. unfold r, ata_drive, ata_lba, u8. simpl. rewrite !(Z.shiftr_div_pow2 o) by lia.
  assert (0 <= o / 2 ^ 24 < 16) as Hh by (split; [apply Z.div_pos|apply Z.div_lt_upper_bound]; lia).
  destruct (devhead_fields 0 (o / 2 ^ 24) (or_introl eq_refl) Hh) as [E1 E2].
  change (Z.lor 0xe0 (Z.shiftl 0 4)) with 0xe0 in E1, E2. rewrite Z.lor_comm in E1, E2.
  assert (0 <= Z.lor (o / 2 ^ 24) 0xe0 < 2 ^ 8) as Hb.
  { split; [apply Z.lor_nonneg; lia|]. apply Z.log2_lt_cancel.
    rewrite Z.log2_lor, (Z.log2_pow2 8) by lia. change (Z.log2 0xe0) with 7.
    apply Z.max_lub_lt; [|lia]. apply Z.le_lt_trans with (Z.log2 15); [apply Z.log2_le_mono; lia|reflexivity]. }
  rewrite (Z.mod_small (Z.lor _ _)) by exact Hb. rewrite E1, E2. f_equal.
  pose proof (Z.div_mod o (2 ^ 8)). pose proof (Z.div_mod (o / 2 ^ 8) (2 ^ 8)).
  pose proof (Z.div_mod (o / 2 ^ 16) (2 ^ 8)).
  rewrite Z.div_div in * by lia. change (2 ^ 8 * 2 ^ 8) with (2 ^ 16) in *.
  change (2 ^ 16 * 2 ^ 8) with (2 ^ 24) in *. lia.
Qed.

(** A memory that agrees with [m] outside [lo, hi) and holds the bytes of
    [img] there, moved by [va - offset]. *)
Definition loaded (img : list Z) (lo hi shift : Z) (m m' : mem) : Prop :=
  forall x, 0 <= x < 2 ^ 32 ->
    m' x = if (lo <=? x) && (x <? hi) then nthb img (x - shift) else m x.

Lemma loaded_nil img lo shift m : loaded img lo lo shift m m.
Proof. intros x Hx. by destruct (lo <=? x) eqn:E1, (x <? lo) eqn:E2; zbool; try lia. Qed.

Section ReadSeg.
Context (img : list Z) (d : gmap (Z * Z) (list Z)).
Hypothesis Hd : kernel_disk d img.

Lemma readsect_spec dst k s :
  bt_disk s = d -> 0 <= k < 2 ^ 24 -> 0 <= dst -> dst + SECTSIZE <= 2 ^ 32 ->
  wp (readsect dst (k + 1)) (fun _ s' => bt_disk s' = d /\
    loaded img dst (dst + SECTSIZE) (dst - k * SECTSIZE) (bt_mem s) (bt_mem s')) s.
Proof.
  intros Hs Hk Hdst Hhi. unfold readsect. wsteps. cbn [bt_set_mem bt_set_tf bt_disk bt_mem bt_tf].
  split; [exact Hs|]. rewrite readsect_key by lia. rewrite Hs, (Hd k Hk). intros x Hx.
  assert (Z.of_nat (length (slice 0 SECTSIZE (slice (k * SECTSIZE) SECTSIZE img))) = SECTSIZE) as Hl
    by (rewrite length_slice; reflexivity).
  destruct (dst <=? x) eqn:E1, (x <? dst + SECTSIZE) eqn:E2; zbool; simpl.
  - rewrite store_in by lia. rewrite !nthb_slice by lia. f_equal. lia.
  - rewrite store_out by lia. done.
  - rewrite store_out by lia. done.
  - lia.
Qed.

(** The sectors that cover a segment. *)
Definition seg_lo (va offset : Z) : Z := va - offset mod SECTSIZE.
Definition seg_hi (va count offset : Z) : Z :=
  seg_lo va offset + (count + offset mod SECTSIZE + SECTSIZE - 1) / SECTSIZE * SECTSIZE.

Lemma loaded_join lo mid hi shift m1 m2 m3 :
  lo <= mid <= hi -> loaded img lo mid shift m1 m2 -> loaded img mid hi shift m2 m3 -> loaded img lo hi shift m1 m3.
Proof.
  intros Hm H1 H2 x Hx. rewrite (H2 x Hx), (H1 x Hx).
  destruct (mid <=? x) eqn:E1, (x <? hi) eqn:E2, (lo <=? x) eqn:E3, (x <? mid) eqn:E4; zbool; simpl; done || lia.
Qed.

Lemma readseg_spec va count offset s :
  bt_disk s = d -> 0 <= count -> 0 <= offset < 2 ^ 32 -> 0 <= seg_lo va offset ->
  va + count <= 2 ^ 32 - SECTSIZE ->
  wp (readseg va count offset) (fun _ s' => bt_disk s' = d /\
    loaded img (seg_lo va offset) (seg_hi va count offset) (va - offset) (bt_mem s) (bt_mem s')) s.
Proof.
  intros Hs Hc Ho Hlo Hhi. unfold readseg, seg_lo, seg_hi in *. change SECTSIZE with 512 in *.
  pose proof (Z.mod_pos_bound offset 512 eq_refl) as Hm. pose proof (Z.div_mod offset 512 ltac:(lia)) as Hdm.
  rewrite !u32_small by lia. set (lo := va - offset mod 512) in *.
  set (n := (count + offset mod 512 + 512 - 1) / 512).
  pose proof (Z.div_mod (count + offset mod 512 + 512 - 1) 512 ltac:(lia)) as Hn. fold n in Hn.
  pose proof (Z.mod_pos_bound (count + offset mod 512 + 512 - 1) 512 eq_refl) as Hnm.
  pose proof (Z.div_mod count 512 ltac:(lia)) as Hc5. pose proof (Z.mod_pos_bound count 512 eq_refl) as Hcm.
  eapply wpe_no_panic with (E := fun _ _ => False); [|naive_solver].
  apply (wpe_while (fun '(v, o) s' => exists j, 0 <= j <= n /\ v = lo + j * 512 /\ o = offset / 512 + j + 1 /\
      bt_disk s' = d /\ loaded img lo v (va - offset) (bt_mem s) (bt_mem s'))
    (fun '(v, o) => Z.to_nat (n - (v - lo) / 512))).
  - exists 0. repeat split; try lia; [exact Hs|]. replace (lo + 0 * 512) with lo by lia. apply loaded_nil.
  - replace (lo - lo) with 0 by lia. rewrite Z.div_0_l by lia. lia.
  - intros [v o] s' (j & Hj & -> & -> & Hs' & Hl). apply wpe_wp. unfold readseg_step. zcase.
    + assert (j < n) as Hjn by lia.
      wfocus. eapply wp_mono; [apply (readsect_spec _ (offset / 512 + j)); change SECTSIZE with 512; [exact Hs'|lia..]|].
      intros _ s2 [Hs2 Hl2]. wsteps. change SECTSIZE with 512 in *. rewrite !u32_small by lia. split.
      * exists (j + 1). repeat split; try lia; [exact Hs2|]. eapply loaded_join; [|exact Hl|]; [lia|].
        replace (va - offset) with (lo + j * 512 - (offset / 512 + j) * 512) by lia. exact Hl2.
      * replace (lo + j * 512 + 512 - lo) with ((j + 1) * 512) by lia. replace (lo + j * 512 - lo) with (j * 512) by lia.
        rewrite !Z.div_mul by lia. lia.
    + wsteps. split; [exact Hs'|]. assert (j = n) as -> by lia. exact Hl.
Qed.
End ReadSeg.

(** ** Loading a kernel *)

Definition img_elf (img : list Z) : elfhdr := elfhdr_at (slice 0 sizeof_elfhdr img).
Definition img_ph (img : list Z) (i : Z) : proghdr :=
  proghdr_at (slice (elf_phoff (img_elf img) + i * sizeof_proghdr) sizeof_proghdr img).

Definition SCRATCH_SIZE : Z := 4096.

(** The segment stays clear of the scratch page and of the top of the
    address space. *)
Definition seg_fits (p : proghdr) : Prop :=
  ELF_SCRATCH + SCRATCH_SIZE <= seg_lo (ph_va p) (ph_offset p) /\
  ph_va p + ph_filesz p <= 2 ^ 32 - SECTSIZE /\ ph_va p + ph_memsz p <= 2 ^ 32.

(** A kernel whose program headers are in its first page and whose segments
    are in increasing order, with room before each one for the start of its
    first sector. *)
Record kernel_image (img : list Z) : Prop := KernelImage {
  ki_bytes : Forall is_byte img;
  ki_magic : elf_magic (img_elf img) = ELF_MAGIC;
  ki_headers : elf_phoff (img_elf img) + elf_phnum (img_elf img) * sizeof_proghdr <= SCRATCH_SIZE;
  ki_fits : forall i, 0 <= i < elf_phnum (img_elf img) -> seg_fits (img_ph img i);
  ki_order : forall i j, 0 <= i < j -> j < elf_phnum (img_elf img) ->
    ph_va (img_ph img i) + Z.max (ph_filesz (img_ph img i)) (ph_memsz (img_ph img i)) <=
    seg_lo (ph_va (img_ph img j)) (ph_offset (img_ph img j));
}.

Definition seg_loaded (img : list Z) (p : proghdr) (m : mem) : Prop :=
  (forall k, 0 <= k < ph_filesz p -> m (ph_va p + k) = nthb img (ph_offset p + k)) /\
  (forall k, ph_filesz p <= k < ph_memsz p -> m (ph_va p + k) = 0).

(** The scratch page holds the first page of the image. *)
Definition scratch_ok (img : list Z) (m : mem) : Prop :=
  forall k, 0 <= k < SCRATCH_SIZE -> m (ELF_SCRATCH + k) = nthb img k.

Lemma scratch_bytes img m o n :
  scratch_ok img m -> 0 <= o -> o + n <= SCRATCH_SIZE -> load_bytes (ELF_SCRATCH + o) n m = slice o n img.
Proof.
  intros Hs Ho Hn. unfold load_bytes, slice. apply list_fmap_ext. intros i k Hk.
  apply lookup_seqZ in Hk as [-> Hi]. unfold SCRATCH_SIZE, ELF_SCRATCH in *.
  rewrite u32_small, <- Hs by (unfold SCRATCH_SIZE; lia). f_equal. unfold ELF_SCRATCH. lia.
Qed.

Lemma ph_range img i (p := img_ph img i) :
  Forall is_byte img ->
  0 <= ph_va p /\ 0 <= ph_offset p < 2 ^ 32 /\ 0 <= ph_filesz p /\ 0 <= ph_memsz p.
Proof.
  intros Hb. unfold p, img_ph, proghdr_at. cbn [ph_va ph_offset ph_filesz ph_memsz].
  set (l := slice _ sizeof_proghdr img). assert (Forall is_byte l) as Hl by by apply Forall_slice.
  pose proof (get32_range 4 l Hl). pose proof (get32_range 8 l Hl).
  pose proof (get32_range 16 l Hl). pose proof (get32_range 20 l Hl). lia.
Qed.

Lemma loaded_at img lo hi shift m m' x :
  loaded img lo hi shift m m' -> 0 <= x < 2 ^ 32 -> lo <= x < hi -> m' x = nthb img (x - shift).
Proof. intros H Hx Hin. rewrite (H x Hx). by destruct (lo <=? x) eqn:E1, (x <? hi) eqn:E2; zbool; try lia. Qed.

Lemma loaded_below img lo hi shift m m' x :
  loaded img lo hi shift m m' -> 0 <= x < 2 ^ 32 -> x < lo -> m' x = m x.
Proof. intros H Hx Hin. rewrite (H x Hx). by destruct (lo <=? x) eqn:E1; zbool; try lia. Qed.

Lemma seg_hi_covers va count offset : 0 <= count -> va + count <= seg_hi va count offset.
Proof.
  intros Hc. unfold seg_hi, seg_lo. change SECTSIZE with 512.
  pose proof (Z.div_mod (count + offset mod 512 + 512 - 1) 512 ltac:(lia)).
  pose proof (Z.mod_pos_bound (count + offset mod 512 + 512 - 1) 512 eq_refl). lia.
Qed.

Lemma seg_lo_va va offset : seg_lo va offset <= va.
Proof. unfold seg_lo. pose proof (Z.mod_pos_bound offset SECTSIZE eq_refl). lia. Qed.

Section Load.
Context (img : list Z) (d : gmap (Z * Z) (list Z)).
Hypothesis Hd : kernel_disk d img.
Hypothesis HK : kernel_image img.

Local Notation phoff := (elf_phoff (img_elf img)).
Local Notation phnum := (elf_phnum (img_elf img)).
Local Notation ph i := (img_ph img i).

Lemma elf_range : 0 <= phoff /\ 0 <= phnum.
Proof.
  unfold img_elf, elfhdr_at. cbn [elf_phoff elf_phnum].
  assert (Forall is_byte (slice 0 sizeof_elfhdr img)) as Hl by (apply Forall_slice, HK).
  pose proof (get32_range 28 _ Hl). pose proof (get16_range 44 _ Hl). lia.
Qed.

Lemma proghdr_scratch i s :
  scratch_ok img (bt_mem s) -> 0 <= i < phnum -> proghdr_of (ELF_SCRATCH + phoff + i * sizeof_proghdr) s = ph i.
Proof.
  intros Hs Hi. pose proof (ki_headers _ HK) as Hh. pose proof elf_range as Hr.
  unfold proghdr_of, img_ph. change sizeof_proghdr with 32 in *.
  rewrite <- Z.add_assoc, (scratch_bytes img) by (done || lia). done.
Qed.

(** A segment changes no address below its first sector. *)
Lemma boot_segment_spec i s (p := ph i) :
  bt_disk s = d -> scratch_ok img (bt_mem s) -> 0 <= i < phnum ->
  wp (boot_segment (ELF_SCRATCH + phoff + i * sizeof_proghdr)) (fun _ s' => bt_disk s' = d /\
    (forall x, 0 <= x < seg_lo (ph_va p) (ph_offset p) -> bt_mem s' x = bt_mem s x) /\
    seg_loaded img p (bt_mem s')) s.
Proof.
  intros Hs Hsc Hi. destruct (ki_fits _ HK i Hi) as (Hlo & Hf & Hm). fold p in Hlo, Hf, Hm.
  destruct (ph_range img i (ki_bytes _ HK)) as (Hva & Ho & Hfs & Hms). fold p in Hva, Ho, Hfs, Hms.
  unfold ELF_SCRATCH, SCRATCH_SIZE in Hlo. pose proof (seg_lo_va (ph_va p) (ph_offset p)) as Hle.
  pose proof (seg_hi_covers (ph_va p) (ph_filesz p) (ph_offset p) Hfs) as Hcov. change SECTSIZE with 512 in Hf.
  unfold boot_segment. wsteps. rewrite (proghdr_scratch i s Hsc Hi). fold p. wfocus.
  eapply wp_mono; [apply (readseg_spec img d Hd); [exact Hs|change SECTSIZE with 512; lia..]|].
  intros _ s1 [Hs1 Hl]. assert (scratch_ok img (bt_mem s1)) as Hsc1.
  { intros k Hk. rewrite (loaded_below _ _ _ _ _ _ _ Hl); [by apply Hsc|unfold ELF_SCRATCH, SCRATCH_SIZE in *; lia..]. }
  assert (forall k, 0 <= k < ph_filesz p -> bt_mem s1 (ph_va p + k) = nthb img (ph_offset p + k)) as Hfile.
  { intros k Hk. rewrite (loaded_at _ _ _ _ _ _ _ Hl) by lia. f_equal. lia. }
  wsteps. rewrite (proghdr_scratch i s1 Hsc1 Hi). fold p. zcase; wsteps.
  - cbn [bt_set_mem bt_disk bt_mem]. rewrite u32_small by lia.
    assert (Z.of_nat (length (zeros (ph_memsz p - ph_filesz p))) = ph_memsz p - ph_filesz p) as Hz
      by (rewrite length_zeros; lia).
    split; [exact Hs1|]. split; [|split].
    + intros x Hx. rewrite store_out by lia. apply (loaded_below _ _ _ _ _ _ _ Hl); lia.
    + intros k Hk. rewrite store_out by lia. by apply Hfile.
    + intros k Hk. rewrite store_in by lia. apply nthb_zeros.
  - split; [exact Hs1|]. split; [|split].
    + intros x Hx. apply (loaded_below _ _ _ _ _ _ _ Hl); lia.
    + exact Hfile.
    + intros k Hk. lia.
Qed.

(** The state after the first [i] segments, from memory [m0]. *)
Definition boot_inv (m0 : mem) (i : Z) (s : boot) : Prop :=
  bt_disk s = d /\ scratch_ok img (bt_mem s) /\
  (forall x, 0 <= x < ELF_SCRATCH -> bt_mem s x = m0 x) /\
  (forall j, 0 <= j < i -> seg_loaded img (ph j) (bt_mem s)).

Lemma seg_loaded_below p m m' lim :
  0 <= ph_va p -> 0 <= ph_filesz p -> ph_va p + Z.max (ph_filesz p) (ph_memsz p) <= lim ->
  (forall x, 0 <= x < lim -> m' x = m x) -> seg_loaded img p m -> seg_loaded img p m'.
Proof. intros Hv Hf Hlim Hx [H1 H2]. split; intros k Hk; rewrite Hx by lia; auto. Qed.

Lemma boot_inv_step m0 i s :
  boot_inv m0 i s -> 0 <= i < phnum ->
  wp (boot_segment (ELF_SCRATCH + phoff + i * sizeof_proghdr)) (fun _ s' => boot_inv m0 (i + 1) s') s.
Proof.
  intros (Hs & Hsc & Hlow & Hld) Hi. eapply wp_mono; [by apply boot_segment_spec|].
  intros _ s' (Hs' & Hx & Hp). destruct (ki_fits _ HK i Hi) as [Hlo _].
  unfold ELF_SCRATCH, SCRATCH_SIZE in *. split; [exact Hs'|]. split; [|split].
  - intros k Hk. unfold ELF_SCRATCH, SCRATCH_SIZE in *. rewrite Hx by lia. by apply Hsc.
  - intros x Hxr. unfold ELF_SCRATCH in *. rewrite Hx by lia. by apply Hlow.
  - intros j Hj. destruct (decide (j = i)) as [->|Hne]; [exact Hp|].
    destruct (ph_range img j (ki_bytes _ HK)) as (Hva & _ & Hfs & _).
    eapply seg_loaded_below; [done|done|apply (ki_order _ HK j i); lia|exact Hx|apply Hld; lia].
Qed.

Lemma boot_loop m0 s :
  boot_inv m0 0 s ->
  wp (while_fuel (S (Z.to_nat phnum)) (boot_step (ELF_SCRATCH + phoff + phnum * sizeof_proghdr)) (ELF_SCRATCH + phoff))
    (fun _ s' => boot_inv m0 phnum s') s.
Proof.
  intros Hs. pose proof elf_range as Hr. pose proof (ki_headers _ HK) as Hh. unfold SCRATCH_SIZE in Hh.
  eapply wpe_no_panic with (E := fun _ _ => False); [|naive_solver].
  apply (wpe_while (fun v s' => exists i, 0 <= i <= phnum /\ v = ELF_SCRATCH + phoff + i * sizeof_proghdr /\ boot_inv m0 i s')
    (fun v => Z.to_nat (phnum - (v - ELF_SCRATCH - phoff) / sizeof_proghdr))).
  - exists 0. repeat split; try apply Hs; lia.
  - replace (ELF_SCRATCH + phoff - ELF_SCRATCH - phoff) with 0 by lia. change (0 / sizeof_proghdr) with 0. lia.
  - intros v s' (i & Hi & -> & Hinv). apply wpe_wp. unfold boot_step. change sizeof_proghdr with 32 in *. zcase.
    + wfocus. eapply wp_mono; [apply boot_inv_step; [exact Hinv|lia]|]. cbv beta. intros _ s2 Hinv2. wsteps.
      unfold ELF_SCRATCH in *. rewrite u32_small by lia. split.
      * exists (i + 1). split; [lia|]. split; [lia|exact Hinv2].
      * replace (0x10000 + phoff + i * 32 + 32 - 0x10000 - phoff) with ((i + 1) * 32) by lia.
        replace (0x10000 + phoff + i * 32 - 0x10000 - phoff) with (i * 32) by lia.
        rewrite !Z.div_mul by lia. lia.
    + wsteps. assert (i = phnum) as -> by lia. exact Hinv.
Qed.

Lemma elfhdr_scratch s : scratch_ok img (bt_mem s) -> elfhdr_of s = img_elf img.
Proof.
  intros Hs. unfold elfhdr_of, img_elf. rewrite <- (Z.add_0_r ELF_SCRATCH).
  by rewrite (scratch_bytes img) by done.
Qed.

(** Reading the first page. *)
Lemma boot_first_page s :
  bt_disk s = d -> wp (readseg ELF_SCRATCH 4096 0) (fun _ s' => boot_inv (bt_mem s) 0 s') s.
Proof.
  intros Hs. eapply wp_mono; [by apply (readseg_spec img d Hd)|].
  intros _ s' [Hs' Hl]. split; [exact Hs'|]. split; [|split].
  - intros k Hk. unfold ELF_SCRATCH, SCRATCH_SIZE in *. rewrite (loaded_at _ _ _ _ _ _ _ Hl).
    + f_equal. lia.
    + lia.
    + change (seg_lo _ _) with 0x10000. change (seg_hi _ _ _) with 0x11000. lia.
  - intros x Hx. unfold ELF_SCRATCH in *. apply (loaded_below _ _ _ _ _ _ _ Hl); [lia|].
    change (seg_lo _ _) with 0x10000. lia.
  - intros j Hj. lia.
Qed.

Lemma bootmain_spec s :
  bt_disk s = d ->
  wp bootmain (fun r s' => r = Some (elf_entry (img_elf img)) /\ boot_inv (bt_mem s) phnum s') s.
Proof.
  intros Hs. pose proof elf_range as Hr. pose proof (ki_headers _ HK) as Hh. unfold SCRATCH_SIZE in Hh.
  unfold bootmain. wfocus. eapply wp_mono; [by apply boot_first_page|]. cbv beta. intros _ s1 H1.
  wsteps. rewrite (elfhdr_scratch s1) by apply H1. rewrite (ki_magic _ HK).
  change (ELF_MAGIC =? ELF_MAGIC) with true. cbn [negb]. change sizeof_proghdr with 32 in *.
  rewrite (u32_small (ELF_SCRATCH + _)) by (unfold ELF_SCRATCH; lia).
  rewrite u32_small by (unfold ELF_SCRATCH; lia). wfocus.
  eapply wp_mono; [by apply boot_loop|]. cbv beta. intros _ s2 H2. wsteps.
  rewrite (elfhdr_scratch s2) by apply H2. done.
Qed.
End Load.

(** A disk without a kernel. *)
Lemma bootmain_no_kernel img s :
  kernel_disk (bt_disk s) img -> elf_magic (img_elf img) <> ELF_MAGIC ->
  wp bootmain (fun r _ => r = None) s.
Proof.
  intros Hd Hm. unfold bootmain. wfocus. eapply wp_mono; [by apply (boot_first_page img (bt_disk s))|].
  cbv beta. intros _ s1 H1. wsteps. rewrite (elfhdr_scratch img s1) by apply H1.
  rewrite (proj2 (Z.eqb_neq _ _) Hm). done.
Qed.

(** ** A disk that holds an image *)

Definition image_disk (img : list Z) : gmap (Z * Z) (list Z) :=
  list_to_map ((fun k => ((0, k + 1), slice (k * SECTSIZE) SECTSIZE img)) <$>
    seqZ 0 (Z.of_nat (length img) / SECTSIZE + 1)).

Lemma image_disk_ok img : kernel_disk (image_disk img) img.
Proof.
  intros k Hk. unfold disk_read, image_disk.
  pose proof (Z.div_mod (Z.of_nat (length img)) SECTSIZE ltac:(done)) as Hdm.
  pose proof (Z.mod_pos_bound (Z.of_nat (length img)) SECTSIZE eq_refl) as Hmb.
  destruct (decide (k <= Z.of_nat (length img) / SECTSIZE)) as [Hin|Hout].
  - rewrite (elem_of_list_to_map_1 _ _ (slice (k * SECTSIZE) SECTSIZE img)); [done| |].
    + rewrite <- list_fmap_compose. apply NoDup_fmap_2; [|apply NoDup_seqZ].
      intros x y Hxy. simpl in Hxy. injection Hxy. lia.
    + apply list_elem_of_fmap. exists k. split; [done|]. apply elem_of_seqZ. lia.
  - rewrite not_elem_of_list_to_map_1.
    + simpl. apply nthb_ext; [by rewrite length_zeros, length_slice|]. intros i Hi. rewrite length_zeros in Hi.
      rewrite nthb_zeros, nthb_slice by (change SECTSIZE with BSIZE; lia). symmetry. apply nthb_ge.
      change SECTSIZE with 512 in *. lia.
    + rewrite <- list_fmap_compose. intros ([x y] & E & Hx)%list_elem_of_fmap || intros (x & E & Hx)%list_elem_of_fmap.
      apply elem_of_seqZ in Hx. simpl in E. injection E. lia.
Qed.
