(* ===== verification/Mp.v ===== *)
(** * The multiprocessor tables (kernel/mp.c)

    [mpinit] searches low memory for the BIOS's floating pointer, checks the
    configuration table it names and walks the entries of the table.  The
    model has the search, the checks and the walk; the messages printed on
    the way are left out. *)

From S2P Require Import Prelude Monad Params CString Boot.

(** ** Tables in memory *)

Definition rd8 (a : Z) (m : mem) : Z := m (u32 a).
Definition rd16 (a : Z) (m : mem) : Z := le_dec (load_bytes a 2 m).
Definition rd32 (a : Z) (m : mem) : Z := le_dec (load_bytes a 4 m).

Definition sizeof_mp : Z := 16.
Definition sizeof_mpconf : Z := 44.
Definition sizeof_mpproc : Z := 20.
Definition sizeof_mpioapic : Z := 8.

(** struct mp *)
Definition mp_physaddr (p : Z) (m : mem) : Z := rd32 (p + 4) m.
Definition mp_imcrp (p : Z) (m : mem) : Z := rd8 (p + 12) m.

(** struct mpconf *)
Definition conf_length (p : Z) (m : mem) : Z := rd16 (p + 4) m.
Definition conf_version (p : Z) (m : mem) : Z := rd8 (p + 6) m.
Definition conf_lapicaddr (p : Z) (m : mem) : Z := rd32 (p + 36) m.

(** struct mpproc and struct mpioapic *)
Definition proc_apicid (p : Z) (m : mem) : Z := rd8 (p + 1) m.
Definition proc_flags (p : Z) (m : mem) : Z := rd8 (p + 3) m.
Definition ioapic_apicno (p : Z) (m : mem) : Z := rd8 (p + 1) m.

Definition MPBOOT : Z := 0x02.
Definition MPPROC : Z := 0x00.
Definition MPBUS : Z := 0x01.
Definition MPIOAPIC : Z := 0x02.
Definition MPIOINTR : Z := 0x03.
Definition MPLINTR : Z := 0x04.

Definition NCPU : Z := 8.

(** "_MP_" and "PCMP" *)
Definition MP_SIG : list Z := [95; 77; 80; 95].
Definition PCMP_SIG : list Z := [80; 67; 77; 80].

(** ** The search *)

Definition sum (addr len : Z) (m : mem) : Z := u8 (foldr Z.add 0 (load_bytes addr len m)).

Definition is_mp (p : Z) (m : mem) : bool :=
  (memcmp 4 (load_bytes p 4 m) MP_SIG =? 0) && (sum p sizeof_mp m =? 0).

(** The loop of [mpsearch1], with 0 for the null pointer. *)
Fixpoint mpsearch1_loop (n : nat) (p e : Z) (m : mem) : Z :=
  match n with
  | O => 0
  | S n =>
      if p <? e then
        if is_mp p m then p else mpsearch1_loop n (u32 (p + sizeof_mp)) e m
      else 0
  end.

Definition mpsearch1 (addr len : Z) (m : mem) : Z :=
  mpsearch1_loop (S (Z.to_nat (len / sizeof_mp))) addr (u32 (addr + len)) m.

Definition mpsearch (m : mem) : Z :=
  let bda := 0x400 in
  let p := Z.shiftl (Z.lor (Z.shiftl (rd8 (bda + 0x0F) m) 8) (rd8 (bda + 0x0E) m)) 4 in
  let mp :=
    if negb (p =? 0) then mpsearch1 p 1024 m
    else
      let p := Z.lor (Z.shiftl (rd8 (bda + 0x14) m) 8) (rd8 (bda + 0x13) m) * 1024 in
      mpsearch1 (u32 (p - 1024)) 1024 m in
  if negb (mp =? 0) then mp else mpsearch1 0xF0000 0x10000 m.

(** The floating pointer and the table. *)
Definition mpconfig (m : mem) : option (Z * Z) :=
  let mp := mpsearch m in
  if (mp =? 0) || (mp_physaddr mp m =? 0) then None
  else
    let conf := mp_physaddr mp m in
    if negb (memcmp 4 (load_bytes conf 4 m) PCMP_SIG =? 0) then None
    else if negb (conf_version conf m =? 1) && negb (conf_version conf m =? 4) then None
    else if negb (sum conf (conf_length conf m) m =? 0) then None
    else Some (mp, conf).

(** ** The state and the walk *)

(** [mp_ids] holds the [id] of each element of [cpus]; [mp_imcr] records
    that external interrupts were masked. *)
Record mpstate := Mpstate {
  mp_ids : list Z;
  mp_bcpu : Z;
  mp_ismp : Z;
  mp_ncpu : Z;
  mp_ioapicid : Z;
  mp_lapic : Z;
  mp_imcr : bool;
}.

(** The globals before [mpinit]. *)
Definition mp_zero : mpstate := Mpstate (zeros NCPU) 0 0 0 0 0 false.

Definition mp_set_ismp v s := Mpstate (mp_ids s) (mp_bcpu s) v (mp_ncpu s) (mp_ioapicid s) (mp_lapic s) (mp_imcr s).
Definition mp_set_bcpu v s := Mpstate (mp_ids s) v (mp_ismp s) (mp_ncpu s) (mp_ioapicid s) (mp_lapic s) (mp_imcr s).
Definition mp_set_ids v s := Mpstate v (mp_bcpu s) (mp_ismp s) (mp_ncpu s) (mp_ioapicid s) (mp_lapic s) (mp_imcr s).
Definition mp_set_ncpu v s := Mpstate (mp_ids s) (mp_bcpu s) (mp_ismp s) v (mp_ioapicid s) (mp_lapic s) (mp_imcr s).
Definition mp_set_ioapicid v s := Mpstate (mp_ids s) (mp_bcpu s) (mp_ismp s) (mp_ncpu s) v (mp_lapic s) (mp_imcr s).
Definition mp_set_lapic v s := Mpstate (mp_ids s) (mp_bcpu s) (mp_ismp s) (mp_ncpu s) (mp_ioapicid s) v (mp_imcr s).
Definition mp_set_imcr v s := Mpstate (mp_ids s) (mp_bcpu s) (mp_ismp s) (mp_ncpu s) (mp_ioapicid s) (mp_lapic s) v.

Definition mpbcpu : M mpstate Z := gets mp_bcpu.

(** [case MPPROC]; the write to [cpus[ncpu]] has no bound in the source, and
    the model stops where it would leave the array. *)
Definition mp_proc (p : Z) (m : mem) : M mpstate unit :=
  let! ncpu := gets mp_ncpu in
  (if negb (ncpu =? proc_apicid p m) then modify (mp_set_ismp 0) else ret tt);;;
  (if negb (Z.land (proc_flags p m) MPBOOT =? 0) then modify (mp_set_bcpu ncpu) else ret tt);;;
  if NCPU <=? ncpu then panic "cpus[ncpu] out of range"
  else
    modify (fun s => mp_set_ids (<[Z.to_nat ncpu := u8 ncpu]> (mp_ids s)) s);;;
    modify (fun s => mp_set_ncpu (mp_ncpu s + 1) s).

(** One turn of the loop of [mpinit]. *)
Definition mpinit_step (m : mem) (e p : Z) : M mpstate (Z + unit) :=
  if p <? e then
    let ty := rd8 p m in
    if ty =? MPPROC then
      mp_proc p m;;; ret (inl (u32 (p + sizeof_mpproc)))
    else if ty =? MPIOAPIC then
      modify (mp_set_ioapicid (ioapic_apicno p m));;; ret (inl (u32 (p + sizeof_mpioapic)))
    else if (ty =? MPBUS) || (ty =? MPIOINTR) || (ty =? MPLINTR) then
      ret (inl (u32 (p + 8)))
    else
      modify (mp_set_ismp 0);;; ret (inl p)
  else ret (inr tt).

(** [mpinit], with the number of turns the loop may take. *)
Definition mpinit (fuel : nat) (m : mem) : M mpstate unit :=
  modify (mp_set_bcpu 0);;;
  match mpconfig m with
  | None => ret tt
  | Some (mp, conf) =>
      modify (mp_set_ismp 1);;;
      modify (mp_set_lapic (conf_lapicaddr conf m));;;
      while_fuel fuel (mpinit_step m (u32 (conf + conf_length conf m))) (u32 (conf + sizeof_mpconf));;;
      let! ismp := gets mp_ismp in
      if ismp =? 0 then
        modify (mp_set_ncpu 1);;;
        modify (mp_set_lapic 0);;;
        modify (mp_set_ioapicid 0)
      else if negb (mp_imcrp mp m =? 0) then modify (mp_set_imcr true)
      else ret tt
  end.

(** ** The lowest floating pointer *)

Lemma mpsearch1_loop_S n p e m :
  mpsearch1_loop (S n) p e m =
  if p <? e then if is_mp p m then p else mpsearch1_loop n (u32 (p + sizeof_mp)) e m else 0.
Proof. done. Qed.

Lemma mpsearch1_loop_spec n p m :
  0 < p -> p + Z.of_nat n * sizeof_mp < 2 ^ 32 ->
  let r := mpsearch1_loop (S n) p (p + Z.of_nat n * sizeof_mp) m in
  (r = 0 /\ forall k, 0 <= k < Z.of_nat n -> is_mp (p + k * sizeof_mp) m = false) \/
  (exists k, 0 <= k < Z.of_nat n /\ r = p + k * sizeof_mp /\ is_mp r m = true /\
     forall j, 0 <= j < k -> is_mp (p + j * sizeof_mp) m = false).
Proof.
  unfold sizeof_mp. revert p. induction n as [|n IH]; intros p Hp Hlim; cbv zeta; rewrite mpsearch1_loop_S.
  { left. rewrite (proj2 (Z.ltb_ge _ _)) by lia. split; [done|]. intros. lia. }
  rewrite (proj2 (Z.ltb_lt _ _)) by lia. destruct (is_mp p m) eqn:E.
  - right. exists 0. repeat split; [lia..|done|]. intros. lia.
  - rewrite u32_small by (unfold sizeof_mp; lia). specialize (IH (p + 16) ltac:(lia) ltac:(lia)).
    cbv zeta in IH. unfold sizeof_mp. replace (p + Z.of_nat (S n) * 16) with (p + 16 + Z.of_nat n * 16) by lia.
    assert (forall j, 0 <= j -> (0 < j -> is_mp (p + 16 + (j - 1) * 16) m = false) -> is_mp (p + j * 16) m = false) as Hshift.
    { intros j Hj Hn. destruct (decide (j = 0)) as [->|]; [by rewrite Z.add_0_r|].
      replace (p + j * 16) with (p + 16 + (j - 1) * 16) by lia. apply Hn. lia. }
    destruct IH as [[-> Hno]|(k & Hk & -> & Hmp & Hno)].
    + left. split; [done|]. intros k Hk. apply Hshift; [lia|]. intros. apply Hno. lia.
    + right. exists (k + 1). split; [lia|]. split; [lia|]. split; [exact Hmp|].
      intros j Hj. apply Hshift; [lia|]. intros. apply Hno. lia.
Qed.

Lemma mpsearch1_spec addr n m :
  0 < addr -> 0 <= n -> addr + n * sizeof_mp < 2 ^ 32 ->
  let r := mpsearch1 addr (n * sizeof_mp) m in
  (r = 0 /\ forall k, 0 <= k < n -> is_mp (addr + k * sizeof_mp) m = false) \/
  (exists k, 0 <= k < n /\ r = addr + k * sizeof_mp /\ is_mp r m = true /\
     forall j, 0 <= j < k -> is_mp (addr + j * sizeof_mp) m = false).
Proof.
  intros Ha Hn Hlim. unfold mpsearch1. rewrite Z.div_mul, u32_small by (unfold sizeof_mp in *; lia).
  pose proof (mpsearch1_loop_spec (Z.to_nat n) addr m Ha) as H. rewrite Z2Nat.id in H by lia. by apply H.
Qed.

(** ** The entries of a table *)

Inductive mpentry :=
| EProc (apicid flags : Z)
| EBus
| EIoapic (apicno : Z)
| EIointr
| ELintr.

Definition entry_size (x : mpentry) : Z := match x with EProc _ _ => sizeof_mpproc | _ => 8 end.

Definition entry_at (x : mpentry) (p : Z) (m : mem) : Prop :=
  match x with
  | EProc a f => rd8 p m = MPPROC /\ proc_apicid p m = a /\ proc_flags p m = f
  | EBus => rd8 p m = MPBUS
  | EIoapic a => rd8 p m = MPIOAPIC /\ ioapic_apicno p m = a
  | EIointr => rd8 p m = MPIOINTR
  | ELintr => rd8 p m = MPLINTR
  end.

Fixpoint entries_at (es : list mpentry) (p : Z) (m : mem) : Prop :=
  match es with
  | [] => True
  | x :: es => entry_at x p m /\ entries_at es (p + entry_size x) m
  end.

Definition entries_size (es : list mpentry) : Z := foldr (fun x n => entry_size x + n) 0 es.

(** What a table says: the processors, the last of them marked as the boot
    processor and the last I/O APIC. *)
Definition table_procs (es : list mpentry) : list (Z * Z) :=
  omap (fun x => match x with EProc a f => Some (a, f) | _ => None end) es.
Definition table_ncpu (es : list mpentry) : Z := Z.of_nat (length (table_procs es)).

Fixpoint last_boot (rev_procs : list (Z * Z)) : Z :=
  match rev_procs with
  | [] => 0
  | (_, f) :: l => if Z.land f MPBOOT =? 0 then last_boot l else Z.of_nat (length l)
  end.
Definition table_bcpu (es : list mpentry) : Z := last_boot (reverse (table_procs es)).
Definition table_ioapic (es : list mpentry) : Z :=
  default 0 (last (omap (fun x => match x with EIoapic a => Some a | _ => None end) es)).

(** The APIC ids count the processors from 0. *)
Definition table_numbered (es : list mpentry) : bool :=
  bool_decide ((table_procs es).*1 = seqZ 0 (table_ncpu es)).

(** The state that the walk leaves after the entries [es]. *)
Definition walked (lapic : Z) (es : list mpentry) : mpstate :=
  Mpstate (seqZ 0 (table_ncpu es) ++ zeros (NCPU - table_ncpu es)) (table_bcpu es)
    (if table_numbered es then 1 else 0) (table_ncpu es) (table_ioapic es) lapic false.

(** ** The walk *)

Lemma procs_snoc es x :
  table_procs (es ++ [x]) = table_procs es ++ match x with EProc a f => [(a, f)] | _ => [] end.
Proof. unfold table_procs. rewrite omap_app. by destruct x. Qed.

Lemma ncpu_snoc es x :
  table_ncpu (es ++ [x]) = table_ncpu es + match x with EProc _ _ => 1 | _ => 0 end.
Proof. unfold table_ncpu. rewrite procs_snoc, length_app. destruct x; simpl; lia. Qed.

Lemma ioapic_snoc es x :
  table_ioapic (es ++ [x]) = match x with EIoapic a => a | _ => table_ioapic es end.
Proof. unfold table_ioapic. rewrite omap_app. destruct x; simpl; rewrite ?app_nil_r, ?last_snoc; done. Qed.

Lemma bcpu_snoc es a f :
  table_bcpu (es ++ [EProc a f]) = if Z.land f MPBOOT =? 0 then table_bcpu es else table_ncpu es.
Proof.
  unfold table_bcpu, table_ncpu. rewrite procs_snoc, reverse_snoc. cbn [last_boot]. by rewrite length_reverse.
Qed.

Lemma numbered_snoc es a f :
  table_numbered (es ++ [EProc a f]) = table_numbered es && (table_ncpu es =? a).
Proof.
  unfold table_numbered. rewrite ncpu_snoc, procs_snoc, fmap_app. simpl.
  assert (0 <= table_ncpu es) as Hn by (unfold table_ncpu; lia).
  rewrite seqZ_app by lia. replace (seqZ (0 + table_ncpu es) 1) with [table_ncpu es] by (simpl; f_equal; lia).
  apply Bool.eq_iff_eq_true. rewrite andb_true_iff, !bool_decide_eq_true, Z.eqb_eq. split.
  - intros [E1 E2]%app_inj_2; [|done]. by injection E2.
  - by intros [-> ->].
Qed.

Lemma ids_snoc n :
  0 <= n < NCPU -> <[Z.to_nat n := u8 n]> (seqZ 0 n ++ zeros (NCPU - n)) = seqZ 0 (n + 1) ++ zeros (NCPU - (n + 1)).
Proof.
  intros Hn. assert (n ∈ seqZ 0 NCPU) as Hin by (apply elem_of_seqZ; lia). clear Hn.
  revert n Hin. apply Forall_forall. repeat constructor.
Qed.

Lemma walked_keep lapic es x :
  match x with EBus | EIointr | ELintr => True | _ => False end -> walked lapic (es ++ [x]) = walked lapic es.
Proof.
  intros Hx. unfold walked, table_numbered, table_bcpu. rewrite ncpu_snoc, procs_snoc, ioapic_snoc.
  by destruct x; try done; rewrite app_nil_r, Z.add_0_r.
Qed.

Lemma mp_proc_step lapic es p m a f :
  entry_at (EProc a f) p m -> table_ncpu es < NCPU ->
  mp_proc p m (walked lapic es) = Ret tt (walked lapic (es ++ [EProc a f])).
Proof.
  intros (Hty & Ha & Hf) Hn. assert (0 <= table_ncpu es) as Hn0 by (unfold table_ncpu; lia).
  unfold mp_proc, bind, gets, modify, ret. cbn [mp_ncpu walked]. rewrite Ha, Hf.
  rewrite (proj2 (Z.leb_gt NCPU (table_ncpu es))) by lia.
  unfold walked. rewrite ncpu_snoc, ioapic_snoc, bcpu_snoc, numbered_snoc, <- ids_snoc by lia.
  destruct (table_ncpu es =? a), (Z.land f MPBOOT =? 0); simpl; by rewrite ?andb_true_r, ?andb_false_r.
Qed.

Lemma mpinit_step_entry lapic es x p e m :
  entry_at x p m -> 0 <= p < e -> p + entry_size x < 2 ^ 32 -> table_ncpu (es ++ [x]) <= NCPU ->
  mpinit_step m e p (walked lapic es) = Ret (inl (p + entry_size x)) (walked lapic (es ++ [x])).
Proof.
  intros Hx Hp Hs Hn. rewrite ncpu_snoc in Hn. unfold mpinit_step, entry_size in *.
  rewrite (proj2 (Z.ltb_lt _ _)) by lia. destruct x as [a f| |a| |].
  - destruct Hx as (Hty & Hx). rewrite Hty. cbn [Z.eqb MPPROC]. unfold bind.
    rewrite (mp_proc_step _ _ _ _ a f) by (done || lia). unfold sizeof_mpproc in *. by rewrite u32_small by lia.
  - simpl in Hx. rewrite Hx, walked_keep by done. unfold ret. simpl. by rewrite u32_small by lia.
  - destruct Hx as (Hty & Hx). rewrite Hty. unfold bind, modify, ret. simpl. unfold sizeof_mpioapic.
    rewrite u32_small, Hx by lia. unfold walked, mp_set_ioapicid, table_numbered, table_bcpu.
    by rewrite ncpu_snoc, procs_snoc, ioapic_snoc, app_nil_r, Z.add_0_r.
  - simpl in Hx. rewrite Hx, walked_keep by done. unfold ret. simpl. by rewrite u32_small by lia.
  - simpl in Hx. rewrite Hx, walked_keep by done. unfold ret. simpl. by rewrite u32_small by lia.
Qed.

Lemma entry_size_pos x : 0 < entry_size x.
Proof. by destruct x. Qed.

Lemma entries_size_nonneg es : 0 <= entries_size es.
Proof. induction es as [|x es IH]; simpl; [done|]. pose proof (entry_size_pos x). lia. Qed.

(** The loop passes over a list of entries, whatever follows. *)
Lemma walk_entries lapic m e f es : forall pre p,
  entries_at es p m -> 0 <= p -> p + entries_size es <= e -> e < 2 ^ 32 -> table_ncpu (pre ++ es) <= NCPU ->
  while_fuel (length es + f) (mpinit_step m e) p (walked lapic pre) =
  while_fuel f (mpinit_step m e) (p + entries_size es) (walked lapic (pre ++ es)).
Proof.
  induction es as [|x es IH]; intros pre p He Hp Hs Hlim Hn.
  { simpl. by rewrite Z.add_0_r, app_nil_r. }
  destruct He as [Hx He]. simpl in Hs. pose proof (entry_size_pos x). pose proof (entries_size_nonneg es).
  assert (table_ncpu (pre ++ [x]) <= table_ncpu (pre ++ x :: es)) as Hle.
  { unfold table_ncpu, table_procs. rewrite !omap_app, !length_app. cbn [omap list_omap]. destruct x; simpl; lia. }
  replace (pre ++ x :: es) with ((pre ++ [x]) ++ es) in * by (by rewrite <- app_assoc).
  cbn [length Nat.add]. rewrite while_fuel_S. unfold bind at 1.
  rewrite (mpinit_step_entry lapic pre x) by (done || lia).
  replace (p + entries_size (x :: es)) with (p + entry_size x + entries_size es) by (simpl; lia).
  apply IH; done || lia.
Qed.

(** The table at [conf] holds the entries [es] and nothing after them. *)
Definition table_holds (conf : Z) (es : list mpentry) (m : mem) : Prop :=
  entries_at es (conf + sizeof_mpconf) m /\ sizeof_mpconf + entries_size es = conf_length conf m.

(** The globals after [mpinit] has read a table. *)
Definition mp_summary (mp conf : Z) (es : list mpentry) (m : mem) : mpstate :=
  let ids := seqZ 0 (table_ncpu es) ++ zeros (NCPU - table_ncpu es) in
  if table_numbered es then
    Mpstate ids (table_bcpu es) 1 (table_ncpu es) (table_ioapic es) (conf_lapicaddr conf m) (negb (mp_imcrp mp m =? 0))
  else Mpstate ids (table_bcpu es) 0 1 0 0 false.

Lemma mpinit_loop_end m e s f : while_fuel (S f) (mpinit_step m e) e s = Ret tt s.
Proof. rewrite while_fuel_S. unfold bind, mpinit_step. by rewrite Z.ltb_irrefl. Qed.

(** The head of [mpinit], up to the loop. *)
Lemma mpinit_head fuel m mp conf :
  mpconfig m = Some (mp, conf) -> 0 <= conf -> conf + sizeof_mpconf < 2 ^ 32 ->
  conf + conf_length conf m < 2 ^ 32 -> 0 <= conf_length conf m ->
  mpinit fuel m mp_zero =
  (while_fuel fuel (mpinit_step m (conf + conf_length conf m)) (conf + sizeof_mpconf);;;
   let! ismp := gets mp_ismp in
   if ismp =? 0 then modify (mp_set_ncpu 1);;; modify (mp_set_lapic 0);;; modify (mp_set_ioapicid 0)
   else if negb (mp_imcrp mp m =? 0) then modify (mp_set_imcr true) else ret tt)
  (walked (conf_lapicaddr conf m) []).
Proof.
  intros Hc H0 H1 H2 H3. unfold mpinit. rewrite Hc, !u32_small by (unfold sizeof_mpconf in *; lia). done.
Qed.

Lemma mpinit_spec fuel m mp conf es :
  mpconfig m = Some (mp, conf) -> 0 <= conf -> conf + conf_length conf m < 2 ^ 32 ->
  table_holds conf es m -> table_ncpu es <= NCPU -> (length es < fuel)%nat ->
  mpinit fuel m mp_zero = Ret tt (mp_summary mp conf es m).
Proof.
  intros Hc H0 Hlim [He Hlen] Hn Hf. pose proof (entries_size_nonneg es) as Hs. unfold sizeof_mpconf in Hlen.
  rewrite (mpinit_head _ _ mp conf) by (unfold sizeof_mpconf; done || lia). unfold bind at 1.
  replace fuel with (length es + S (fuel - length es - 1))%nat by lia.
  rewrite (walk_entries _ _ _ _ es [] (conf + sizeof_mpconf)) by (unfold sizeof_mpconf; done || lia).
  replace (conf + sizeof_mpconf + entries_size es) with (conf + conf_length conf m) by (unfold sizeof_mpconf; lia).
  rewrite mpinit_loop_end. unfold mp_summary, bind, gets, modify, ret. cbn [app walked mp_ismp].
  destruct (table_numbered es) eqn:E; simpl; [|by unfold mp_set_ncpu, mp_set_lapic, mp_set_ioapicid, walked; rewrite E].
  by destruct (mp_imcrp mp m =? 0); simpl; unfold mp_set_imcr, walked; rewrite E.
Qed.

(** An entry of another type is read again and again. *)
Lemma mpinit_step_unknown m e p : p < e -> 4 < rd8 p m -> forall fuel s,
  exists s', while_fuel fuel (mpinit_step m e) p s = Hang s'.
Proof.
  intros Hp Hty. induction fuel as [|fuel IH]; intros s; [by exists s|].
  rewrite while_fuel_S. unfold bind at 1, mpinit_step at 1. rewrite (proj2 (Z.ltb_lt p e) Hp).
  unfold MPPROC, MPIOAPIC, MPBUS, MPIOINTR, MPLINTR.
  rewrite !(proj2 (Z.eqb_neq (rd8 p m) _)) by lia. simpl. apply IH.
Qed.

Lemma mpinit_hangs f m mp conf es (p := conf + sizeof_mpconf + entries_size es) :
  mpconfig m = Some (mp, conf) -> 0 <= conf -> conf + conf_length conf m < 2 ^ 32 ->
  entries_at es (conf + sizeof_mpconf) m -> table_ncpu es <= NCPU ->
  p < conf + conf_length conf m -> 4 < rd8 p m ->
  exists s', mpinit (length es + f) m mp_zero = Hang s'.
Proof.
  intros Hc H0 Hlim He Hn Hp Hty. pose proof (entries_size_nonneg es) as Hs. unfold p in *.
  rewrite (mpinit_head _ _ mp conf) by (unfold sizeof_mpconf in *; done || lia). unfold bind at 1.
  rewrite (walk_entries _ _ _ _ es [] (conf + sizeof_mpconf)) by (unfold sizeof_mpconf in *; done || lia).
  destruct (mpinit_step_unknown m (conf + conf_length conf m) _ Hp Hty f
    (walked (conf_lapicaddr conf m) ([] ++ es))) as [s' E].
  exists s'. by rewrite E.
Qed.

(** ** An example *)

(** A machine with two processors; the floating pointer is in the second
    place of the BIOS's memory. *)
Definition mp_bytes : list Z := MP_SIG ++ [0; 0x90; 0; 0; 1; 4; 144; 0; 128; 0; 0; 0].
Definition conf_bytes (e : Z) : list Z :=
  PCMP_SIG ++ [100; 0; 4; 124] ++ zeros 26 ++ [4; 0; 0; 0; 0xE0; 0xFE; 0; 0; 0; 0] ++
  [0; 0; 0; 3] ++ zeros 16 ++ [0; 1; 0; 1] ++ zeros 16 ++ [1; 0; 0; 0; 0; 0; 0; 0] ++ [e; u8 (4 - e); 0; 0; 0; 0; 0; 0].
Definition mp_memory (e : Z) : mem :=
  store_bytes 0xF0010 mp_bytes (store_bytes 0x9000 (conf_bytes e) (fun _ => 0)).
