(* ===== verification/Smp.v ===== *)
(** * The local APIC and the other processors (kernel/lapic.c, kernel/main.c)

    Each processor has a local APIC; a write to the command register sends an
    interrupt to others, which wait after INIT and start after STARTUP.  The
    processors share memory.  [bootothers] starts each of the others with
    bootother.S, which runs [mpmain] on a stack of its own, and waits for it. *)

From S2P Require Import Prelude Monad Params CString Kalloc ProcTable Proc X86 Seg BootAsm Mp.

(** ** State *)

(** Registers of a local APIC by index; the reads of the command register for
    which the delivery is pending, and those a delivery needs. *)
Record lapic := Lapic { la_reg : Z -> Z; la_busy : nat; la_slow : nat }.

(** A processor as the others see it: running, waiting for STARTUP, or told to
    start at an address. *)
Inductive ap := ApRuns | ApWaits | ApStarts (a : Z).

(** Memory and the page allocator, what mp.c found, and by APIC number the
    processors (their memory is [sm_mem]), the local APICs and the states;
    the index and the bytes of the CMOS memory. *)
Record smp := Smp {
  sm_mem : mem;
  sm_kmem : kmem;
  sm_mp : mpstate;
  sm_cpu : Z -> processor;
  sm_lapic : Z -> lapic;
  sm_ap : Z -> ap;
  sm_rtc : Z;
  sm_cmos : Z -> Z;
}.
Definition sm_set_mem v s := Smp v (sm_kmem s) (sm_mp s) (sm_cpu s) (sm_lapic s) (sm_ap s) (sm_rtc s) (sm_cmos s).
Definition sm_set_kmem v s := Smp (sm_mem s) v (sm_mp s) (sm_cpu s) (sm_lapic s) (sm_ap s) (sm_rtc s) (sm_cmos s).
Definition sm_set_cpu v s := Smp (sm_mem s) (sm_kmem s) (sm_mp s) v (sm_lapic s) (sm_ap s) (sm_rtc s) (sm_cmos s).
Definition sm_set_lapic v s := Smp (sm_mem s) (sm_kmem s) (sm_mp s) (sm_cpu s) v (sm_ap s) (sm_rtc s) (sm_cmos s).
Definition sm_set_ap v s := Smp (sm_mem s) (sm_kmem s) (sm_mp s) (sm_cpu s) (sm_lapic s) v (sm_rtc s) (sm_cmos s).
Definition sm_set_rtc v s := Smp (sm_mem s) (sm_kmem s) (sm_mp s) (sm_cpu s) (sm_lapic s) (sm_ap s) v (sm_cmos s).
Definition sm_set_cmos v s := Smp (sm_mem s) (sm_kmem s) (sm_mp s) (sm_cpu s) (sm_lapic s) (sm_ap s) (sm_rtc s) v.

Definition kmem_of_smp : lens smp kmem := Lens sm_kmem sm_set_kmem.

(** Code of processor [k] on its registers and the shared memory. *)
Definition with_mem (m : mem) (p : processor) : processor := upd_mem (fun _ => m) p.
Definition cpu_of_smp (k : Z) : lens smp processor :=
  Lens (fun s => with_mem (sm_mem s) (sm_cpu s k)) (fun p s => sm_set_mem (p_mem p) (sm_set_cpu (fupd k p (sm_cpu s)) s)).

(** ** lapic.c *)

Definition LA_ID : Z := 0x0020 / 4.
Definition LA_VER : Z := 0x0030 / 4.
Definition LA_TPR : Z := 0x0080 / 4.
Definition LA_EOI : Z := 0x00B0 / 4.
Definition LA_SVR : Z := 0x00F0 / 4.
Definition LA_ESR : Z := 0x0280 / 4.
Definition LA_ICRLO : Z := 0x0300 / 4.
Definition LA_ICRHI : Z := 0x0310 / 4.
Definition LA_TIMER : Z := 0x0320 / 4.
Definition LA_PCINT : Z := 0x0340 / 4.
Definition LA_LINT0 : Z := 0x0350 / 4.
Definition LA_LINT1 : Z := 0x0360 / 4.
Definition LA_ERROR : Z := 0x0370 / 4.
Definition LA_TICR : Z := 0x0380 / 4.
Definition LA_TDCR : Z := 0x03E0 / 4.
Definition LA_ENABLE : Z := 0x00000100.
Definition LA_INIT : Z := 0x00000500.
Definition LA_STARTUP : Z := 0x00000600.
Definition LA_DELIVS : Z := 0x00001000.
Definition LA_ASSERT : Z := 0x00004000.
Definition LA_LEVEL : Z := 0x00008000.
Definition LA_BCAST : Z := 0x00080000.
Definition LA_X1 : Z := 0x0000000B.
Definition LA_PERIODIC : Z := 0x00020000.
Definition LA_MASKED : Z := 0x00010000.

(** The interrupt of a command: mode INIT, asserted or not, or STARTUP with
    the number of a page. *)
Definition receive (lo : Z) (a : ap) : ap :=
  let mode := Z.land (Z.shiftr lo 8) 7 in
  if mode =? 5 then if Z.testbit lo 14 then ApWaits else a
  else if mode =? 6 then match a with ApWaits => ApStarts (Z.shiftl (Z.land lo 0xff) 12) | _ => a end
  else a.

(** ... to the processor whose number is in the high word, or to all. *)
Definition deliver (hi lo : Z) (f : Z -> ap) : Z -> ap := fun k =>
  if Z.testbit lo 19 || (k =? Z.shiftr hi 24) then receive lo (f k) else f k.

(** [lapicw] of processor [k]. *)
Definition lapicw (k index value : Z) : M smp unit :=
  let v := u32 value in
  modify (fun s =>
    let c := sm_lapic s k in
    if index =? LA_ICRLO then
      sm_set_ap (deliver (la_reg c LA_ICRHI) v (sm_ap s))
        (sm_set_lapic (fupd k (Lapic (fupd index v (la_reg c)) (la_slow c) (la_slow c)) (sm_lapic s)) s)
    else sm_set_lapic (fupd k (Lapic (fupd index v (la_reg c)) (la_busy c) (la_slow c)) (sm_lapic s)) s).

(** A read of [lapic[index]]. *)
Definition lapicr (k index : Z) : M smp Z := fun s =>
  let c := sm_lapic s k in
  if (index =? LA_ICRLO) && negb (la_busy c =? 0)%nat then
    Ret (Z.lor (la_reg c index) LA_DELIVS) (sm_set_lapic (fupd k (Lapic (la_reg c) (la_busy c - 1) (la_slow c)) (sm_lapic s)) s)
  else Ret (la_reg c index) s.

Definition delivs_poll (k : Z) (_ : unit) : M smp (unit + unit) :=
  let! v := lapicr k LA_ICRLO in ret (if Z.land v LA_DELIVS =? 0 then inr tt else inl tt).
Definition delivs_wait (k : Z) : M smp unit := fun s => while_fuel (S (la_busy (sm_lapic s k))) (delivs_poll k) tt s.

Definition lapicinit (k : Z) : M smp unit :=
  let! lapic := gets (fun s => mp_lapic (sm_mp s)) in
  if lapic =? 0 then ret tt
  else
    lapicw k LA_SVR (Z.lor LA_ENABLE (T_IRQ0 + IRQ_SPURIOUS));;;
    lapicw k LA_TDCR LA_X1;;;
    lapicw k LA_TIMER (Z.lor LA_PERIODIC (T_IRQ0 + IRQ_TIMER));;;
    lapicw k LA_TICR 10000000;;;
    lapicw k LA_LINT0 LA_MASKED;;;
    lapicw k LA_LINT1 LA_MASKED;;;
    let! ver := lapicr k LA_VER in
    (if 4 <=? Z.land (Z.shiftr ver 16) 0xFF then lapicw k LA_PCINT LA_MASKED else ret tt);;;
    lapicw k LA_ERROR (T_IRQ0 + IRQ_ERROR);;;
    lapicw k LA_ESR 0;;;
    lapicw k LA_ESR 0;;;
    lapicw k LA_EOI 0;;;
    lapicw k LA_ICRHI 0;;;
    lapicw k LA_ICRLO (Z.lor (Z.lor LA_BCAST LA_INIT) LA_LEVEL);;;
    delivs_wait k;;;
    lapicw k LA_TPR 0.

Definition cpunum (k : Z) : M smp Z :=
  let! lapic := gets (fun s => mp_lapic (sm_mp s)) in
  if negb (lapic =? 0) then let! v := lapicr k LA_ID in ret (Z.shiftr v 24) else ret 0.

Definition lapiceoi (k : Z) : M smp unit :=
  let! lapic := gets (fun s => mp_lapic (sm_mp s)) in
  if negb (lapic =? 0) then lapicw k LA_EOI 0 else ret tt.

Definition IO_RTC : Z := 0x70.
Definition rtc_outb (port v : Z) : M smp unit :=
  modify (fun s => if port =? IO_RTC then sm_set_rtc v s else sm_set_cmos (fupd (sm_rtc s) v (sm_cmos s)) s).

Definition store_mem (a : Z) (n : nat) (v : Z) : M smp unit := modify (fun s => sm_set_mem (stn a n v (sm_mem s)) s).

(** [microdelay] does nothing. *)
Definition lapicstartap (k apicid addr : Z) : M smp unit :=
  rtc_outb IO_RTC 0xF;;;
  rtc_outb (IO_RTC + 1) 0x0A;;;
  let wrv := Z.lor (Z.shiftl 0x40 4) 0x67 in
  store_mem wrv 2 0;;;
  store_mem (wrv + 2) 2 (u16 (Z.shiftr addr 4));;;
  lapicw k LA_ICRHI (Z.shiftl apicid 24);;;
  lapicw k LA_ICRLO (Z.lor (Z.lor LA_INIT LA_LEVEL) LA_ASSERT);;;
  lapicw k LA_ICRLO (Z.lor LA_INIT LA_LEVEL);;;
  for_each (seqZ 0 2) (fun _ =>
    lapicw k LA_ICRHI (Z.shiftl apicid 24);;;
    lapicw k LA_ICRLO (Z.lor LA_STARTUP (Z.shiftr addr 12))).

(** ** main.c *)

Definition CPU_booted : Z := 168.
Definition CODE : Z := 0x7000.

Section Main.
(** Addresses of [cpus], [idt] and the entry points, the page directory of the
    kernel, [mpmain], and bootother.S: where the linker has put the image, and
    its labels at the address it is linked for. *)
Context (cpus idt kpgdir mpmain : Z).
Context (bootother_start bootother_size start32 gdt back : Z).

(** [cinit] on processor [k]. *)
Definition cinit (k : Z) : M smp unit :=
  let! n := cpunum k in
  let! b := gets (fun s => mp_bcpu (sm_mp s)) in
  (if negb (n =? b) then
     let! n := cpunum k in
     zoom (cpu_of_smp k) (seginit cpus n);;;
     lapicinit k
   else ret tt);;;
  zoom (cpu_of_smp k) (vmenable kpgdir);;;
  zoom (cpu_of_smp k) (idtinit idt);;;
  zoom (cpu_of_smp k) (let! c := gs_read 0 in modify (upd_mem (stn (c + CPU_booted) 4 1))).

(** A processor after STARTUP: in real mode, at the start of a page. *)
Definition ap_reset (a : Z) (p : processor) : processor :=
  set_cr0 0x60000010 (on_m (fun s => set_eip 0 (set_seg CS (Z.shiftr a 4) s)) p).

(** What processor [k] does while another waits for it: told to start at the
    copy of bootother.S, it runs that code and then the function it calls, which
    is [mpmain], up to the scheduler.  Any other code stops it. *)
Definition ap_boot (k : Z) : M smp unit := fun s =>
  match sm_ap s k with
  | ApStarts a =>
      if negb (a =? CODE) then Hang s
      else
        match bexec (bootother CODE start32 gdt back) (ap_reset a (lget (cpu_of_smp k) s)) with
        | Some p =>
            if m_eip (p_m p) =? mpmain
            then cinit k (sm_set_ap (fupd k ApRuns (sm_ap s)) (lset (cpu_of_smp k) p s))
            else Hang s
        | None => Hang s
        end
  | _ => Ret tt s
  end.

Definition cpu_id (c : Z) (s : smp) : Z := nthb (mp_ids (sm_mp s)) c.
Definition cpu_booted (c : Z) (s : smp) : Z := ldn (cpu_addr cpus c + CPU_booted) 4 (sm_mem s).

(** [while(c->booted == 0);]: the processors that were started run, after
    which the flag is set or never will be. *)
Definition booted_wait (c : Z) : M smp unit :=
  let! b := gets (cpu_booted c) in
  if negb (b =? 0) then ret tt
  else
    for_each (seqZ 0 256) ap_boot;;;
    let! b := gets (cpu_booted c) in
    if b =? 0 then hang else ret tt.

(** [bootothers] on processor [k]. *)
Definition bootothers (k : Z) : M smp unit :=
  modify (fun s => sm_set_mem (store_bytes CODE (load_bytes bootother_start bootother_size (sm_mem s)) (sm_mem s)) s);;;
  let! ncpu := gets (fun s => mp_ncpu (sm_mp s)) in
  for_each (seqZ 0 ncpu) (fun c =>
    let! me := cpunum k in
    if c =? me then ret tt
    else
      let! stack := zoom kmem_of_smp kalloc in
      store_mem (CODE - 4) 4 (u32 (stack + KSTACKSIZE));;;
      store_mem (CODE - 8) 4 mpmain;;;
      let! id := gets (cpu_id c) in
      lapicstartap k id CODE;;;
      booted_wait c).
End Main.

(** ** The local APIC *)

(** Everything but the local APICs, the states of the processors and the CMOS
    memory; and the numbers of the local APICs. *)
Record lapic_frame (s s' : smp) : Prop := LapicFrame {
  lf_mem : sm_mem s' = sm_mem s;
  lf_kmem : sm_kmem s' = sm_kmem s;
  lf_mp : sm_mp s' = sm_mp s;
  lf_cpu : sm_cpu s' = sm_cpu s;
  lf_id : forall j, la_reg (sm_lapic s' j) LA_ID = la_reg (sm_lapic s j) LA_ID;
}.

#[global] Instance lapic_frame_refl : Reflexive lapic_frame.
Proof. by intros s. Qed.
#[global] Instance lapic_frame_trans : Transitive lapic_frame.
Proof. intros s1 s2 s3 [] []. split; congruence. Qed.

Lemma lapicw_spec k i v s :
  i <> LA_ID ->
  wp (lapicw k i v) (fun _ s' => lapic_frame s s' /\ la_reg (sm_lapic s' k) = fupd i (u32 v) (la_reg (sm_lapic s k)) /\
    sm_ap s' = if i =? LA_ICRLO then deliver (la_reg (sm_lapic s k) LA_ICRHI) (u32 v) (sm_ap s) else sm_ap s) s.
Proof.
  intros Hi. unfold lapicw. wsteps. destruct (Z.eqb_spec i LA_ICRLO) as [->|Hne]; cbn [sm_lapic sm_set_lapic sm_set_ap sm_ap].
  all: split; [|by rewrite fupd_eq]; split; try done; intros j; cbn [sm_lapic sm_set_lapic sm_set_ap].
  all: destruct (decide (j = k)) as [->|Hj]; [|by rewrite fupd_ne]; rewrite fupd_eq; cbn [la_reg]; by rewrite fupd_ne.
Qed.

Lemma delivs_wait_spec k s :
  Z.land (la_reg (sm_lapic s k) LA_ICRLO) LA_DELIVS = 0 ->
  wp (delivs_wait k) (fun _ s' => lapic_frame s s' /\ sm_ap s' = sm_ap s) s.
Proof.
  unfold delivs_wait, wp. remember (la_busy (sm_lapic s k)) as b eqn:E. revert s E. induction b as [|b IH]; intros s E Hr.
  - rewrite while_fuel_S. unfold bind at 1, delivs_poll, lapicr, bind. rewrite <- E. cbn [Nat.eqb negb]. rewrite andb_false_r.
    unfold ret at 1. rewrite Hr. done.
  - rewrite while_fuel_S. unfold bind at 1. unfold delivs_poll at 1, lapicr, bind. rewrite <- E. cbn [Nat.eqb negb Z.eqb Pos.eqb andb].
    change (LA_ICRLO =? LA_ICRLO) with true. cbn [andb]. unfold ret at 1. rewrite Z.land_lor_distr_l, Hr.
    change (Z.lor 0 (Z.land LA_DELIVS LA_DELIVS) =? 0) with false. cbn iota.
    match goal with |- match while_fuel _ _ _ ?x with _ => _ end => set (s1 := x) end.
    assert (lapic_frame s s1) as Hf.
    { split; try done. intros j. unfold s1. cbn [sm_lapic sm_set_lapic]. unfold fupd. by destruct (Z.eqb_spec j k) as [->|]. }
    assert (sm_lapic s1 k = Lapic (la_reg (sm_lapic s k)) b (la_slow (sm_lapic s k))) as E1
      by (unfold s1; cbn; by rewrite fupd_eq, Nat.sub_0_r).
    specialize (IH s1). rewrite E1 in IH. specialize (IH eq_refl Hr).
    destruct (while_fuel _ _ _ s1) as [[] s2| | |]; try done. destruct IH as [Hf2 Ha]. split; [by etransitivity|done].
Qed.

(** Code that leaves the other processors alone. *)
Definition quiet (s s' : smp) : Prop := lapic_frame s s' /\ forall j, sm_ap s' j = sm_ap s j.
Definition is_quiet {A} (m : M smp A) : Prop := forall s, wp m (fun _ => quiet s) s.

Lemma quiet_bind {A B} (m : M smp A) (f : A -> M smp B) :
  is_quiet m -> (forall a, is_quiet (f a)) -> is_quiet (bind m f).
Proof.
  intros Hm Hf s. apply wp_bind. eapply wp_mono; [apply Hm|]. intros a s1 [F1 A1].
  eapply wp_mono; [apply Hf|]. intros b s2 [F2 A2]. split; [by etransitivity|]. intros j. by rewrite A2, A1.
Qed.

Lemma quiet_lapicw k i v : i <> LA_ID -> i <> LA_ICRLO -> is_quiet (lapicw k i v).
Proof.
  intros Hi Hl s. eapply wp_mono; [by apply lapicw_spec|]. cbv beta. intros _ s1 (F & _ & Ea). split; [done|].
  rewrite (proj2 (Z.eqb_neq i LA_ICRLO) Hl) in Ea. by rewrite Ea.
Qed.

Lemma quiet_lapicr k i : i <> LA_ICRLO -> is_quiet (lapicr k i).
Proof. intros Hi s. unfold wp, lapicr. by rewrite (proj2 (Z.eqb_neq i LA_ICRLO) Hi). Qed.

Lemma quiet_ret {A} (a : A) : is_quiet (ret a).
Proof. by intros s. Qed.
Lemma quiet_gets {A} (f : smp -> A) : is_quiet (gets f).
Proof. by intros s. Qed.

(** The INIT of [lapicinit] is not asserted: it goes to all processors and
    resets none. *)
Lemma quiet_deassert k : is_quiet (lapicw k LA_ICRLO (Z.lor (Z.lor LA_BCAST LA_INIT) LA_LEVEL);;; delivs_wait k).
Proof.
  intros s. apply wp_bind. eapply wp_mono; [by apply lapicw_spec|]. cbv beta. intros _ s1 (F & Er & Ea).
  eapply wp_mono; [apply delivs_wait_spec; by rewrite Er, fupd_eq|]. cbv beta. intros _ s2 (F2 & Ea2).
  split; [by etransitivity|]. intros j. rewrite Ea2, Ea. change (LA_ICRLO =? LA_ICRLO) with true. cbv iota.
  unfold deliver. by destruct (_ || _).
Qed.

Lemma bind_assoc {S A B C} (m : M S A) (f : A -> M S B) (g : B -> M S C) s :
  bind (bind m f) g s = bind m (fun x => bind (f x) g) s.
Proof. unfold bind. by destruct (m s). Qed.

Lemma lapicinit_quiet k : is_quiet (lapicinit k).
Proof.
  unfold lapicinit. apply quiet_bind; [apply quiet_gets|]. intros lp. destruct (lp =? 0); [apply quiet_ret|].
  do 6 (apply quiet_bind; [by apply quiet_lapicw|intros _]).
  apply quiet_bind; [by apply quiet_lapicr|]. intros ver.
  apply quiet_bind; [by destruct (4 <=? _); [apply quiet_lapicw|apply quiet_ret]|]. intros _.
  do 5 (apply quiet_bind; [by apply quiet_lapicw|intros _]).
  assert (is_quiet ((lapicw k LA_ICRLO (Z.lor (Z.lor LA_BCAST LA_INIT) LA_LEVEL);;; delivs_wait k);;; lapicw k LA_TPR 0)) as H.
  { apply quiet_bind; [apply quiet_deassert|intros _; by apply quiet_lapicw]. }
  intros s. specialize (H s). unfold wp in *. by rewrite bind_assoc in H.
Qed.

Lemma cpunum_spec k n s :
  mp_lapic (sm_mp s) <> 0 -> la_reg (sm_lapic s k) LA_ID = Z.shiftl n 24 -> cpunum k s = Ret n s.
Proof.
  intros Hl Hi. unfold cpunum, bind, gets. rewrite (proj2 (Z.eqb_neq _ 0) Hl). cbn [negb]. unfold lapicr.
  change (LA_ID =? LA_ICRLO) with false. cbn [andb]. unfold ret. by rewrite Hi, Z.shiftr_shiftl_l, Z.shiftl_0_r by lia.
Qed.

(** *** Starting a processor *)

(** The other processor is told once to start at the page, although STARTUP is
    sent twice; no other is affected. *)
Lemma startup_sequence hi f j id :
  hi = Z.shiftl id 24 ->
  deliver hi 0x607 (deliver hi 0x607 (deliver hi 0x8500 (deliver hi 0xC500 f))) j =
    if j =? id then ApStarts CODE else f j.
Proof.
  intros ->. unfold deliver. rewrite Z.shiftr_shiftl_l, Z.shiftl_0_r by lia.
  change (Z.testbit 0x607 19) with false. change (Z.testbit 0x8500 19) with false. change (Z.testbit 0xC500 19) with false.
  cbn [orb]. by destruct (j =? id).
Qed.

Definition warm_reset (m : mem) : mem := stn 0x469 2 0x700 (stn 0x467 2 0 m).

Lemma lapicstartap_spec k id s :
  0 <= id < 256 ->
  wp (lapicstartap k id CODE) (fun _ s' => lapic_frame (sm_set_mem (warm_reset (sm_mem s)) s) s' /\
    forall j, sm_ap s' j = if j =? id then ApStarts CODE else sm_ap s j) s.
Proof.
  intros Hid. unfold lapicstartap, rtc_outb, store_mem. wsteps.
  match goal with |- wp _ _ ?x => set (s0 := x) end.
  assert (lapic_frame (sm_set_mem (warm_reset (sm_mem s)) s) s0) as F0 by (split; done).
  assert (sm_ap s0 = sm_ap s) as A0 by done. revert F0 A0. generalize s0. clear s0. intros s0 F0 A0.
  assert (u32 (Z.shiftl id 24) = Z.shiftl id 24) as Ehi by (apply u32_small; rewrite Z.shiftl_mul_pow2; lia).
  wcall lapicw_spec; [done|]. cbv beta. intros _ s1 (F1 & R1 & A1).
  wcall lapicw_spec; [done|]. cbv beta. intros _ s2 (F2 & R2 & A2).
  wcall lapicw_spec; [done|]. cbv beta. intros _ s3 (F3 & R3 & A3).
  change (seqZ 0 2) with [0; 1]. cbn [for_each]. wfocus.
  wcall lapicw_spec; [done|]. cbv beta. intros _ s4 (F4 & R4 & A4).
  wcall lapicw_spec; [done|]. cbv beta. intros _ s5 (F5 & R5 & A5). wfocus.
  wcall lapicw_spec; [done|]. cbv beta. intros _ s6 (F6 & R6 & A6). wfocus.
  wcall lapicw_spec; [done|]. cbv beta. intros _ s7 (F7 & _ & A7). wsteps. split.
  - etransitivity; [exact F0|]. by do 6 (etransitivity; [eassumption|]).
  - intros j. rewrite A7, R6, fupd_eq, A6, A5, R4, fupd_eq, A4, A3, R2, A2, R1.
    rewrite (fupd_ne LA_ICRLO LA_ICRHI) by done. rewrite !fupd_eq, A1, A0, Ehi. by apply startup_sequence.
Qed.

(** ** Code of one processor *)

(** Processor [k] as the model runs it. *)
Definition proc_of (k : Z) (s : smp) : processor := lget (cpu_of_smp k) s.

Lemma proc_of_mem k s : p_mem (proc_of k s) = sm_mem s.
Proof. done. Qed.

(** Processor [k] and memory apart, all is as it was. *)
Record cpu_frame (k : Z) (s s' : smp) : Prop := CpuFrame {
  cf_kmem : sm_kmem s' = sm_kmem s;
  cf_mp : sm_mp s' = sm_mp s;
  cf_cpu : forall j, j <> k -> sm_cpu s' j = sm_cpu s j;
  cf_id : forall j, la_reg (sm_lapic s' j) LA_ID = la_reg (sm_lapic s j) LA_ID;
  cf_ap : forall j, sm_ap s' j = sm_ap s j;
}.

#[global] Instance cpu_frame_refl k : Reflexive (cpu_frame k).
Proof. by intros s. Qed.
#[global] Instance cpu_frame_trans k : Transitive (cpu_frame k).
Proof.
  intros s1 s2 s3 [? ? C1 I1 A1] [? ? C2 I2 A2]. split; [congruence..| | |].
  - intros j Hj. by rewrite C2, C1.
  - intros j. by rewrite I2.
  - intros j. by rewrite A2.
Qed.

Lemma quiet_frame k s s' : quiet s s' -> cpu_frame k s s' /\ proc_of k s' = proc_of k s.
Proof. intros [[Em ? ? Ec ?] ?]. split; [split; [done..|by rewrite Ec|done|done]|]. unfold proc_of. cbn. by rewrite Em, Ec. Qed.

Lemma wp_on_cpu {A} k (m : M processor A) (Q : A -> processor -> Prop) s :
  wp m Q (proc_of k s) -> wp (zoom (cpu_of_smp k) m) (fun a s' => cpu_frame k s s' /\ Q a (proc_of k s')) s.
Proof.
  intros H. apply wp_zoom. eapply wp_mono; [exact H|]. intros a p HQ. split.
  - split; try done. intros j Hj. cbn. by apply fupd_ne.
  - unfold proc_of. cbn. rewrite fupd_eq. unfold with_mem. by destruct p as [[]].
Qed.

Section Cinit.
Context (cpus idt kpgdir : Z).

(** A processor after [cinit]: its own segments and processor-local storage,
    the kernel's page table with paging on, and the interrupt table. *)
Record cpu_up (k : Z) (p : processor) : Prop := CpuUp {
  up_segments : segments_ready (cpu_addr cpus k) p;
  up_cr3 : p_cr3 p = kpgdir;
  up_paging : Z.testbit (p_cr0 p) 31 = true;
  up_protected : protected p = true;
  up_idtr : p_idtr p = (idt, 8 * 256 - 1);
  up_booted : ldn (cpu_addr cpus k + CPU_booted) 4 (p_mem p) = 1;
}.

(** The part of [cinit] that every processor runs. *)
Definition cinit_tail (k : Z) : M smp unit :=
  zoom (cpu_of_smp k) (vmenable kpgdir);;;
  zoom (cpu_of_smp k) (idtinit idt);;;
  zoom (cpu_of_smp k) (let! c := gs_read 0 in modify (upd_mem (stn (c + CPU_booted) 4 1))).

(** What [cinit] keeps of processor [k]. *)
Definition same_thread (k : Z) (s s' : smp) : Prop :=
  m_reg (p_m (proc_of k s')) = m_reg (p_m (proc_of k s)) /\ m_eflags (p_m (proc_of k s')) = m_eflags (p_m (proc_of k s)).

Lemma cinit_tail_spec k s (c := cpu_addr cpus k) :
  segments_ready c (proc_of k s) -> protected (proc_of k s) = true ->
  wp (cinit_tail k) (fun _ s' => cpu_frame k s s' /\ cpu_up k (proc_of k s') /\ same_thread k s s' /\
    same_outside c (c + sizeof_cpu) (sm_mem s) (sm_mem s')) s.
Proof.
  intros Hs Hp. pose proof (cl_fits _ _ (sr_local _ _ Hs)) as [H0 H1]. unfold sizeof_cpu in H1. unfold cinit_tail.
  wfocus. apply wp_mono with (1 := wp_on_cpu k (vmenable kpgdir)
    (fun _ p' => p' = set_cr0 (Z.lor (p_cr0 (proc_of k s)) CR0_PG) (set_cr3 kpgdir (proc_of k s))) s eq_refl).
  cbv beta. intros _ s3 (F3 & E3).
  wfocus. apply wp_mono with (1 := wp_on_cpu k (idtinit idt) (fun _ p' => p' = set_idtr (idt, 8 * 256 - 1) (proc_of k s3)) s3 eq_refl).
  cbv beta. intros _ s4 (F4 & E4).
  assert (segments_ready c (proc_of k s4)) as Hs4 by (rewrite E4, E3; by destruct Hs as [[]]; split; [split|..]).
  eapply wp_mono; [apply (wp_on_cpu k _ (fun _ p' => p' = upd_mem (stn (c + CPU_booted) 4 1) (proc_of k s4)))|].
  { wfocus. by apply (wp_cpu c). }
  cbv beta. intros _ s5 (F5 & E5).
  assert (sm_mem s4 = sm_mem s) as Em by (rewrite <- !(proc_of_mem k); by rewrite E4, E3).
  split; [by do 2 (etransitivity; [eassumption|])|]. split_and!.
  - split; fold c; rewrite E5.
    + apply segments_store; [done|unfold CPU_booted; lia|]. right. unfold CPU_booted, CPU_cpu. lia.
    + by rewrite E4, E3.
    + rewrite E4, E3. pcbn. rewrite Z.lor_spec. apply orb_true_r.
    + unfold protected in *. rewrite E4, E3. pcbn. by rewrite Z.lor_spec, Hp.
    + by rewrite E4.
    + pcbn. unfold CPU_booted. apply ldn_stn; [lia|lia|done].
  - unfold same_thread. by rewrite E5, E4, E3.
  - rewrite <- (proc_of_mem k s5), E5. pcbn. rewrite !proc_of_mem, Em. unfold CPU_booted, sizeof_cpu.
    eapply same_outside_weaken; [apply stn_outside; lia|lia..].
Qed.

(** On the boot processor, whose segments [main] has set up. *)
Lemma cinit_boot k s (c := cpu_addr cpus k) :
  mp_lapic (sm_mp s) <> 0 -> la_reg (sm_lapic s k) LA_ID = Z.shiftl k 24 -> mp_bcpu (sm_mp s) = k ->
  segments_ready c (proc_of k s) -> protected (proc_of k s) = true ->
  wp (cinit cpus idt kpgdir k) (fun _ s' => cpu_frame k s s' /\ cpu_up k (proc_of k s') /\ same_thread k s s' /\
    same_outside c (c + sizeof_cpu) (sm_mem s) (sm_mem s')) s.
Proof.
  intros Hl Hid Hb Hs Hp. unfold cinit. wfocus. unfold wp at 1. rewrite (cpunum_spec k k) by done.
  wstep. wstep. rewrite Hb, Z.eqb_refl. wstep. by apply cinit_tail_spec.
Qed.

(** On another one. *)
Lemma cinit_spec k s (c := cpu_addr cpus k) :
  mp_lapic (sm_mp s) <> 0 -> la_reg (sm_lapic s k) LA_ID = Z.shiftl k 24 -> mp_bcpu (sm_mp s) <> k -> cpu_fits c ->
  protected (proc_of k s) = true ->
  wp (cinit cpus idt kpgdir k) (fun _ s' => cpu_frame k s s' /\ cpu_up k (proc_of k s') /\ same_thread k s s' /\
    same_outside c (c + sizeof_cpu) (sm_mem s) (sm_mem s')) s.
Proof.
  intros Hl Hid Hb Hf Hp. unfold cinit. wfocus. unfold wp at 1. rewrite (cpunum_spec k k) by done.
  wsteps. destruct (Z.eqb_spec k (mp_bcpu (sm_mp s))); [congruence|]. cbn [negb]. wfocus. unfold wp at 1. rewrite (cpunum_spec k k) by done.
  wcall wp_on_cpu; [by apply (seginit_spec cpus k c)|]. cbv beta.
  intros _ s1 (F1 & Hs & _ & _ & _ & _ & Ho & Er & Ef & _ & Ec0 & _).
  wcall lapicinit_quiet. cbv beta. intros _ s2 Hq. apply (quiet_frame k) in Hq as [F2 E2].
  assert (sm_mem s2 = sm_mem s1) as Em by (rewrite <- !(proc_of_mem k); by rewrite E2).
  eapply wp_mono; [apply (cinit_tail_spec k s2)|]; [by rewrite E2|unfold protected in *; by rewrite E2, Ec0|].
  cbv beta. intros _ s3 (F3 & Hup & [R3 L3] & Ho3). split; [by do 2 (etransitivity; [eassumption|])|].
  split; [done|]. rewrite E2 in R3, L3. split; [split; congruence|].
  rewrite Em in Ho3. eapply same_outside_trans; [exact Ho|exact Ho3].
Qed.
End Cinit.

(** ** The other processors *)

Section Others.
Context (kend cpus idt kpgdir mpmain bootother_start bootother_size start32 gdt back : Z).

(** The kernel is loaded at 1 MB; [cpus] and the image of bootother.S are in
    it, and the image, at the address it is linked for, fits the first 64 KB
    and contains the tables. *)
Record smp_layout : Prop := SmpLayout {
  sl_cpus : 0x100000 <= cpus /\ cpus + NCPU * sizeof_cpu <= kend;
  sl_kend : kend < PHYSTOP;
  sl_image : 0x100000 <= bootother_start /\ bootother_start + bootother_size <= kend;
  sl_code : CODE + bootother_size <= 2 ^ 16;
  sl_gdt : CODE <= gdt /\ gdt + 30 <= CODE + bootother_size;
  sl_mpmain : is_word32 mpmain;
  sl_back : is_word32 back;
}.
Hypothesis L : smp_layout.

Lemma cpu_range k : 0 <= k < NCPU ->
  0x100000 <= cpu_addr cpus k /\ cpu_addr cpus k + sizeof_cpu <= kend /\ cpu_fits (cpu_addr cpus k).
Proof.
  intros Hk. destruct L as [[L1 L2] L3 _ _ _ _ _]. unfold cpu_fits, cpu_addr, NCPU, sizeof_cpu in *.
  change PHYSTOP with 0x1000000 in L3. lia.
Qed.

(** What the machine has before [mpmain] of processor [k] on [stack]. *)
Record ap_ready (k stack : Z) (s : smp) : Prop := ApReady {
  ar_start : sm_ap s k = ApStarts CODE;
  ar_tables : tables_at gdt (sm_mem s);
  ar_stack : ldn (CODE - 4) 4 (sm_mem s) = stack + KSTACKSIZE;
  ar_main : ldn (CODE - 8) 4 (sm_mem s) = mpmain;
  ar_page : valid_page kend stack;
  ar_k : 0 <= k < NCPU;
  ar_lapic : mp_lapic (sm_mp s) <> 0;
  ar_id : la_reg (sm_lapic s k) LA_ID = Z.shiftl k 24;
  ar_bcpu : mp_bcpu (sm_mp s) <> k;
}.

(** A processor that was started, on its stack. *)
Definition started (k stack : Z) (s : smp) : Prop :=
  cpu_up cpus idt kpgdir k (proc_of k s) /\ irq_off (proc_of k s) /\ m_reg (p_m (proc_of k s)) ESP = stack + KSTACKSIZE - 4.

(** Memory outside the struct cpu of [k] and the top of its stack. *)
Definition ap_mem (k stack : Z) (m m' : mem) : Prop := forall x, 0 <= x < 2 ^ 32 ->
  x < cpu_addr cpus k \/ cpu_addr cpus k + sizeof_cpu <= x -> x < stack \/ stack + KSTACKSIZE <= x -> m' x = m x.

Lemma ap_boot_spec k stack s :
  ap_ready k stack s ->
  wp (ap_boot cpus idt kpgdir mpmain start32 gdt back k) (fun _ s' =>
    cpu_frame k (sm_set_ap (fupd k ApRuns (sm_ap s)) s) s' /\ started k stack s' /\ ap_mem k stack (sm_mem s) (sm_mem s')) s.
Proof.
  intros [A1 A2 A3 A4 [_ [A5 A6]] A7 A8 A9 A10]. destruct L as [_ L3 _ L5 [L6 L7] L8 L9].
  destruct (cpu_range k A7) as (C1 & C2 & C3). assert (0 < sizeof_cpu) as Hsz by done.
  assert (KSTACKSIZE = 4096) as HK by done. assert (CODE = 0x7000) as HC by done. assert (PHYSTOP = 0x1000000) as HP by done.
  unfold wp, ap_boot. rewrite A1, Z.eqb_refl. cbn [negb].
  assert (protected (ap_reset CODE (lget (cpu_of_smp k) s)) = false) as Hp0 by done.
  assert (p_mem (ap_reset CODE (lget (cpu_of_smp k) s)) = sm_mem s) as Em0 by done.
  revert Hp0 Em0. generalize (ap_reset CODE (lget (cpu_of_smp k) s)). intros p0 Hp0 Em0.
  pose proof (bootother_run CODE start32 gdt back L9 p0) as Hrun. cbv zeta in Hrun. rewrite Em0, A3, A4 in Hrun.
  unfold bwp in Hrun. specialize (Hrun Hp0 A2 ltac:(lia) ltac:(lia) ltac:(lia)).
  destruct (bexec _ p0) as [p1|]; [|done]. destruct Hrun as [[Hflat Heip Hesp _ Hmem] Hirq].
  rewrite Heip, Z.eqb_refl. set (s1 := sm_set_ap _ _).
  assert (proc_of k s1 = p1) as Ep1.
  { unfold proc_of, s1. cbn. rewrite fupd_eq. unfold with_mem. by destruct p1 as [[]]. }
  assert (cpu_frame k (sm_set_ap (fupd k ApRuns (sm_ap s)) s) s1) as F1.
  { split; try done. intros j Hj. cbn. by apply fupd_ne. }
  assert (sm_mem s1 = p_mem p1) as Em1 by done.
  pose proof (cinit_spec cpus idt kpgdir k s1 A8 A9 A10 C3) as Hc. rewrite Ep1 in Hc.
  specialize (Hc (ft_pe _ _ Hflat)). unfold same_thread in Hc. rewrite Ep1 in Hc. revert F1 Em1 Hc. generalize s1. clear s1 Ep1. intros s1 F1 Em1 Hc.
  unfold wp in Hc. destruct (cinit _ _ _ k s1) as [[] s2| | |]; [|done..].
  destruct Hc as (F2 & Hup & [Er Ef] & Ho). split; [by etransitivity|]. split; [split_and!; [done|..]|].
  - unfold irq_off in *. by rewrite Ef.
  - rewrite Er, Hesp. lia.
  - intros x Hx Hx1 Hx2. rewrite Ho by lia. rewrite Em1. apply Hmem; [done|]. lia.
Qed.

Definition idle (j : Z) (s : smp) : Prop := forall a, sm_ap s j <> ApStarts a.

Lemma ap_boot_idle j s : idle j s -> ap_boot cpus idt kpgdir mpmain start32 gdt back j s = Ret tt s.
Proof. unfold idle, ap_boot. intros Hi. destruct (sm_ap s j) as [| |a]; [done..|]. by destruct (Hi a). Qed.

(** Of the processors only the one that was told to start runs. *)
Lemma others_run k stack s :
  ap_ready k stack s -> (forall j, j <> k -> idle j s) ->
  wp (for_each (seqZ 0 256) (ap_boot cpus idt kpgdir mpmain start32 gdt back)) (fun _ s' =>
    cpu_frame k (sm_set_ap (fupd k ApRuns (sm_ap s)) s) s' /\ started k stack s' /\ ap_mem k stack (sm_mem s) (sm_mem s')) s.
Proof.
  intros Hr Hi. set (P := fun s' => cpu_frame k _ s' /\ started k stack s' /\ ap_mem k stack (sm_mem s) (sm_mem s')).
  assert (forall j s', P s' -> idle j s') as Hidle.
  { intros j s' ([_ _ _ _ Ha] & _) a. rewrite Ha. cbn. unfold fupd. destruct (Z.eqb_spec j k); [done|]. by apply Hi. }
  apply (wp_for_each (fun pre s' => if decide (k ∈ pre) then P s' else s' = s)).
  - by rewrite decide_False by set_solver.
  - intros pre j post s' E HI. destruct (decide (k ∈ pre)) as [Hk|Hk].
    + unfold wp. rewrite ap_boot_idle by by apply Hidle. by rewrite decide_True by set_solver.
    + subst s'. destruct (decide (j = k)) as [->|Hj].
      * eapply wp_mono; [by apply ap_boot_spec|]. cbv beta. intros _ s1 H1. by rewrite decide_True by set_solver.
      * unfold wp. rewrite ap_boot_idle by by apply Hi. by rewrite decide_False by set_solver.
  - intros s' HI. rewrite decide_True in HI; [done|]. apply elem_of_seqZ. pose proof (ar_k _ _ _ Hr). unfold NCPU in *. lia.
Qed.

(** *** A processor that is up stays up while others start *)

Lemma ldn_ext a n m m' :
  0 <= a -> a + Z.of_nat n <= 2 ^ 32 -> (forall x, a <= x < a + Z.of_nat n -> m' x = m x) -> ldn a n m' = ldn a n m.
Proof. intros Ha Hl H. unfold ldn. f_equal. apply load_bytes_ext. intros i Hi. rewrite u32_small by lia. apply H. lia. Qed.

Lemma segments_ext c m p :
  (forall x, c <= x < c + sizeof_cpu -> m x = p_mem p x) -> segments_ready c p -> segments_ready c (upd_mem (fun _ => m) p).
Proof.
  intros Hm [[[H0 Hl] Hg Hs Hd] Hk Hc]. unfold sizeof_cpu, CPU_cpu, CPU_gdt, SEG_KCODE, SEG_KCPU in *.
  split; [split; [done|done|done|]| |]; pcbn; unfold CPU_cpu, CPU_gdt, SEG_KCODE, SEG_KCPU.
  - rewrite <- Hd. apply ldn_ext; [lia..|]. intros x Hx. apply Hm. lia.
  - rewrite <- Hk. apply ldn_ext; [lia..|]. intros x Hx. apply Hm. lia.
  - rewrite <- Hc at 2. apply ldn_ext; [lia..|]. intros x Hx. apply Hm. lia.
Qed.

Lemma cpu_up_frame k s s' :
  sm_cpu s' k = sm_cpu s k ->
  (forall x, cpu_addr cpus k <= x < cpu_addr cpus k + sizeof_cpu -> sm_mem s' x = sm_mem s x) ->
  cpu_up cpus idt kpgdir k (proc_of k s) -> cpu_up cpus idt kpgdir k (proc_of k s').
Proof.
  intros Ec Hm [U1 U2 U3 U4 U5 U6].
  assert (proc_of k s' = upd_mem (fun _ => sm_mem s') (proc_of k s)) as ->.
  { unfold proc_of. cbn. rewrite Ec. done. }
  split; [by apply segments_ext|done|done|done|done|]. rewrite <- U6. pose proof (cl_fits _ _ (sr_local _ _ U1)) as [F0 F1].
  unfold sizeof_cpu, CPU_booted in *. apply ldn_ext; [lia..|]. intros x Hx. apply Hm. lia.
Qed.

Lemma started_frame k stack s s' :
  sm_cpu s' k = sm_cpu s k ->
  (forall x, cpu_addr cpus k <= x < cpu_addr cpus k + sizeof_cpu -> sm_mem s' x = sm_mem s x) ->
  started k stack s -> started k stack s'.
Proof.
  intros Ec Hm (Hup & Hi & Hsp). split; [by eapply cpu_up_frame|].
  unfold irq_off in *. unfold proc_of in *. cbn in *. by rewrite Ec.
Qed.

(** *** One turn of the loop *)

(** Memory when the other processor is told to start. *)
Definition handover (stack : Z) (m : mem) : mem :=
  warm_reset (stn (CODE - 8) 4 mpmain (stn (CODE - 4) 4 (u32 (stack + KSTACKSIZE)) m)).

Lemma handover_spec stack m : is_word32 (stack + KSTACKSIZE) ->
  ldn (CODE - 4) 4 (handover stack m) = stack + KSTACKSIZE /\ ldn (CODE - 8) 4 (handover stack m) = mpmain /\
  same_outside 0x467 CODE m (handover stack m).
Proof.
  intros Hs. pose proof (sl_mpmain L) as Hm. unfold handover, warm_reset. rewrite u32_small by done. unfold CODE. split_and!.
  - rewrite !ldn_stn_ne by lia. by apply ldn_stn.
  - rewrite !ldn_stn_ne by lia. by apply ldn_stn.
  - intros x Hx Ho. by rewrite !stn_outside by lia.
Qed.

Lemma tables_ext m m' : (forall x, gdt <= x < gdt + 30 -> m' x = m x) -> tables_at gdt m -> tables_at gdt m'.
Proof.
  intros H (H0 & H1 & E). split_and!; [done..|]. rewrite <- E. apply load_bytes_ext. intros i Hi. rewrite u32_small by lia. apply H. lia.
Qed.

(** The state while [bootothers] of processor [b] has been through [pre], with
    the free pages [l] at the start; [up] are the processors started and their
    stacks. *)
Record boots (b : Z) (l : list Z) (s0 : smp) (pre : list Z) (up : list (Z * Z)) (s : smp) : Prop := Boots {
  bo_up : up.*1 = filter (fun c => c <> b) pre;
  bo_stacks : up.*2 = take (length up) l;
  bo_started : Forall (fun u => started u.1 u.2 s) up;
  bo_free : free_list kend (sm_kmem s) (drop (length up) l);
  bo_pages : km_page (sm_kmem s) = km_page (sm_kmem s0);
  bo_tables : tables_at gdt (sm_mem s);
  bo_mp : sm_mp s = sm_mp s0;
  bo_ids : forall j, la_reg (sm_lapic s j) LA_ID = la_reg (sm_lapic s0 j) LA_ID;
  bo_idle : forall j, idle j s;
  bo_boss : sm_cpu s b = sm_cpu s0 b;
  bo_waiting : forall c, 0 <= c < NCPU -> c <> b -> c ∉ pre -> cpu_booted cpus c s = 0;
  bo_mem : forall x, 2 ^ 16 <= x < kend ->
    (forall c, c ∈ pre -> c <> b -> x < cpu_addr cpus c \/ cpu_addr cpus c + sizeof_cpu <= x) -> sm_mem s x = sm_mem s0 x;
}.

(** A machine that mp.c has found, with [b] the boot processor. *)
Record smp_found (b : Z) (s : smp) : Prop := SmpFound {
  sf_ncpu : mp_ncpu (sm_mp s) <= NCPU;
  sf_ids : forall c, 0 <= c < mp_ncpu (sm_mp s) -> cpu_id c s = c;
  sf_lapic : mp_lapic (sm_mp s) <> 0;
  sf_bcpu : mp_bcpu (sm_mp s) = b;
  sf_la : forall c, 0 <= c < mp_ncpu (sm_mp s) -> la_reg (sm_lapic s c) LA_ID = Z.shiftl c 24;
  sf_b : 0 <= b < mp_ncpu (sm_mp s);
}.

(** The state in which processor [c] is told to start, on the next page. *)
Lemma boots_ready b l s0 pre up c stack km s s' :
  smp_found b s0 -> boots b l s0 pre up s -> drop (length up) l !! 0%nat = Some stack ->
  0 <= c < mp_ncpu (sm_mp s0) -> c <> b ->
  lapic_frame (sm_set_mem (handover stack (sm_mem s)) (sm_set_kmem km s)) s' -> (forall j, sm_ap s' j = if j =? c then ApStarts CODE else sm_ap s j) ->
  ap_ready c stack s' /\ (forall j, j <> c -> idle j s').
Proof.
  intros [N1 N2 N3 N4 N5 N6] [B1 B2 B3 B4 Bp B5 B6 B7 B8 B9 B10 B11] Hst Hc Hb [Em _ Emp _ Ei] Ea. cbn in Em, Emp, Ei.
  pose proof (fl_valid _ _ _ B4) as Hv. rewrite Forall_lookup in Hv. specialize (Hv _ _ Hst).
  pose proof Hv as [_ [V1 V2]]. assert (PHYSTOP = 0x1000000) as HP by done. assert (KSTACKSIZE = 4096) as HK by done.
  pose proof (sl_gdt L) as [G1 G2]. pose proof (sl_cpus L) as [P1 P2]. assert (0 < NCPU * sizeof_cpu) as Hsz by done.
  destruct (handover_spec stack (sm_mem s)) as (H1 & H2 & H3); [unfold is_word32; lia|]. split.
  - split; rewrite ?Em, ?Emp, ?B6; try done.
    + by rewrite Ea, Z.eqb_refl.
    + eapply tables_ext; [|exact B5]. intros x Hx. apply H3; [|lia]. pose proof (sl_code L). unfold CODE in *. lia.
    + lia.
    + rewrite Ei, B7. by apply N5.
    + by rewrite N4.
  - intros j Hj a. rewrite Ea, (proj2 (Z.eqb_neq j c) Hj). apply B8.
Qed.

Lemma boots_step b l s0 pre up c stack km s s' s2 :
  smp_found b s0 -> boots b l s0 pre up s -> drop (length up) l !! 0%nat = Some stack ->
  free_list kend km (tail (drop (length up) l)) -> km_page km = km_page (sm_kmem s) ->
  0 <= c < mp_ncpu (sm_mp s0) -> c <> b -> c ∉ pre ->
  (forall k, k ∈ pre -> 0 <= k < mp_ncpu (sm_mp s0)) ->
  lapic_frame (sm_set_mem (handover stack (sm_mem s)) (sm_set_kmem km s)) s' -> (forall j, sm_ap s' j = if j =? c then ApStarts CODE else sm_ap s j) ->
  cpu_frame c (sm_set_ap (fupd c ApRuns (sm_ap s')) s') s2 -> started c stack s2 -> ap_mem c stack (sm_mem s') (sm_mem s2) ->
  boots b l s0 (pre ++ [c]) (up ++ [(c, stack)]) s2.
Proof.
  intros [N1 N2 N3 N4 N5 N6] [B1 B2 B3 B4 Bp B5 B6 B7 B8 B9 B10 B11] Hst Hfl Hkp Hc Hb Hpre Hin [Em Ekm Emp Ecpu Ei] Ea [K1 K2 K3 K4 K5] Hs2 Hm2.
  cbn in Em, Ekm, Emp, Ecpu, Ei, K1, K2, K4, K5.
  pose proof (fl_valid _ _ _ B4) as Hv. rewrite Forall_lookup in Hv. specialize (Hv _ _ Hst).
  pose proof Hv as [_ [V1 V2]]. assert (PHYSTOP = 0x1000000) as HP by done. assert (KSTACKSIZE = 4096) as HK by done.
  pose proof (sl_gdt L) as [G1 G2]. pose proof (sl_cpus L) as [P1 P2]. pose proof (sl_code L) as G3. assert (CODE = 0x7000) as HC by done.
  assert (0 < NCPU * sizeof_cpu) as Hn by done.
  destruct (handover_spec stack (sm_mem s)) as (_ & _ & H3); [unfold is_word32; lia|].
  destruct (cpu_range c) as (C1 & C2 & _); [lia|]. assert (sizeof_cpu = 188) as Hsz by done.
  (* the other struct cpus *)
  assert (forall k x, 0 <= k < NCPU -> k <> c -> cpu_addr cpus k <= x < cpu_addr cpus k + sizeof_cpu -> sm_mem s2 x = sm_mem s x) as Hmem.
  { intros k x Hk Hne Hx. destruct (cpu_range k Hk) as (D1 & D2 & _).
    rewrite Hm2, Em; [apply H3; lia|lia| |lia]. unfold cpu_addr in *. rewrite Hsz in *. lia. }
  split.
  - rewrite fmap_app, filter_app, B1, filter_cons_True by done. done.
  - destruct (drop (length up) l) as [|st rest] eqn:Ed; [done|]. injection Hst as ->.
    rewrite fmap_app, length_app, B2. cbn [fmap list_fmap length snd]. rewrite <- take_take_drop, Ed. done.
  - apply Forall_app. split; [|by apply Forall_singleton]. apply Forall_forall. intros [k st] Hu.
    rewrite Forall_forall in B3. assert (k ∈ up.*1) as Hk by (apply list_elem_of_fmap; by exists (k, st)).
    rewrite B1 in Hk. apply list_elem_of_filter in Hk as [_ Hk]. assert (k <> c) as Hne by (by intros ->).
    pose proof (Hin _ Hk). apply (started_frame k st s); [|intros x Hx; apply (Hmem k); [lia|done|done]|by apply (B3 (k, st))].
    rewrite K3 by done. cbn. by rewrite Ecpu.
  - rewrite K1, Ekm, length_app. cbn [length]. rewrite <- drop_drop. by destruct (drop (length up) l).
  - by rewrite K1, Ekm, Hkp.
  - eapply tables_ext; [|exact B5]. intros x Hx. rewrite Hm2, Em; [apply H3; lia|lia..].
  - by rewrite K2, Emp.
  - intros j. by rewrite K4, Ei.
  - intros j a. rewrite K5. unfold fupd. destruct (Z.eqb_spec j c) as [->|Hj]; [done|].
    rewrite Ea, (proj2 (Z.eqb_neq j c) Hj). apply B8.
  - rewrite K3 by done. cbn. by rewrite Ecpu.
  - intros k Hk Hkb Hn0. rewrite not_elem_of_app, not_elem_of_cons in Hn0. destruct Hn0 as (Hn1 & Hn2 & _).
    rewrite <- (B10 k Hk Hkb Hn1). destruct (cpu_range k Hk) as (D1 & D2 & D3 & D4).
    unfold cpu_booted, CPU_booted in *. apply ldn_ext; [lia..|]. intros x Hx. apply (Hmem k); [done|done|lia].
  - intros x Hx Ho. assert (c ∈ pre ++ [c]) as Hcin by set_solver. pose proof (Ho c Hcin Hb) as Hox.
    rewrite <- B11; [|done|intros k Hk; apply Ho; set_solver].
    rewrite Hm2, Em; [apply H3; lia|lia|lia|lia].
Qed.

(** The turn for another processor. *)
Lemma boot_one b l s0 pre up c s :
  smp_found b s0 -> boots b l s0 pre up s -> (length up < length l)%nat -> 0 <= c < mp_ncpu (sm_mp s0) -> c <> b -> c ∉ pre ->
  (forall k, k ∈ pre -> 0 <= k < mp_ncpu (sm_mp s0)) ->
  wp (let! stack := zoom kmem_of_smp kalloc in
      store_mem (CODE - 4) 4 (u32 (stack + KSTACKSIZE));;;
      store_mem (CODE - 8) 4 mpmain;;;
      let! id := gets (cpu_id c) in
      lapicstartap b id CODE;;;
      booted_wait cpus idt kpgdir mpmain start32 gdt back c)
    (fun _ s' => exists stack, boots b l s0 (pre ++ [c]) (up ++ [(c, stack)]) s') s.
Proof.
  intros Hf Hb Hlen Hc Hne Hpre Hin. pose proof (sf_ncpu _ _ Hf) as Hn. unfold NCPU in Hn.
  destruct (lookup_lt_is_Some_2 l (length up) Hlen) as [stack Hst0].
  assert (drop (length up) l !! 0%nat = Some stack) as Hst by (by rewrite lookup_drop, Nat.add_0_r).
  wstep. apply wp_zoom. eapply wp_mono; [apply (kalloc_spec kend), (bo_free _ _ _ _ _ _ Hb)|]. cbv beta.
  intros r km (Hkp & Hfl & ->). cbn [lset kmem_of_smp]. rewrite head_lookup, Hst. cbn [default]. unfold id.
  unfold store_mem. wsteps. change (cpu_id c _) with (cpu_id c s).
  assert (cpu_id c s = c) as -> by (unfold cpu_id; rewrite (bo_mp _ _ _ _ _ _ Hb); by apply (sf_ids _ _ Hf)).
  eapply wp_mono; [apply lapicstartap_spec; lia|]. cbv beta. intros _ s1 (F1 & A1).
  change (lapic_frame (sm_set_mem (handover stack (sm_mem s)) (sm_set_kmem km s)) s1) in F1.
  change (forall j, sm_ap s1 j = if j =? c then ApStarts CODE else sm_ap s j) in A1.
  destruct (boots_ready b l s0 pre up c stack km s s1 Hf Hb Hst Hc Hne F1 A1) as [Hr Hi].
  assert (cpu_booted cpus c s1 = 0) as Hz.
  { rewrite <- (bo_waiting _ _ _ _ _ _ Hb c) by (done || unfold NCPU; lia). destruct (cpu_range c) as (C1 & C2 & C3 & C4); [unfold NCPU; lia|].
    unfold cpu_booted, CPU_booted, sizeof_cpu in *. apply ldn_ext; [lia..|]. intros x Hx. rewrite (lf_mem _ _ F1). cbn.
    pose proof (ar_page _ _ _ Hr) as [_ [V1 V2]]. assert (PHYSTOP = 0x1000000) as HP by done.
    destruct (handover_spec stack (sm_mem s)) as (_ & _ & H3); [unfold is_word32, KSTACKSIZE; lia|].
    apply H3; unfold CODE; lia. }
  unfold booted_wait. wsteps. rewrite Hz. cbn [Z.eqb negb]. wstep. eapply wp_mono; [by apply (others_run c stack)|].
  cbv beta. intros _ s2 (F2 & Hs2 & M2). wsteps.
  assert (cpu_booted cpus c s2 = 1) as -> by apply (up_booted _ _ _ _ _ (proj1 Hs2)). cbn [Z.eqb]. wsteps.
  exists stack. by apply (boots_step b l s0 pre up c stack km s s1 s2).
Qed.

Lemma filter_others b pre x post ncpu :
  0 <= b < ncpu -> seqZ 0 ncpu = pre ++ x :: post -> x <> b -> (length (filter (fun c => c <> b) pre) < Z.to_nat ncpu - 1)%nat.
Proof.
  intros Hb E Hx. assert (b ∈ seqZ 0 ncpu) as Hin by (apply elem_of_seqZ; lia).
  assert (length (filter (fun c => c <> b) (seqZ 0 ncpu)) + 1 <= length (seqZ 0 ncpu))%nat as Hl.
  { apply list_elem_of_split in Hin as (l1 & l2 & ->). rewrite filter_app, filter_cons_False, !length_app by naive_solver. cbn [length].
    pose proof (length_filter (fun c => c <> b) l1). pose proof (length_filter (fun c => c <> b) l2). lia. }
  rewrite length_seqZ in Hl. rewrite E, filter_app, filter_cons_True, length_app in Hl by done. cbn [length] in Hl. lia.
Qed.

Lemma copied_tables m :
  load_bytes (bootother_start + (gdt - CODE)) 30 m = boot_tables gdt ->
  let m' := store_bytes CODE (load_bytes bootother_start bootother_size m) m in
  tables_at gdt m' /\ (forall x, CODE + bootother_size <= x < 2 ^ 32 -> m' x = m x).
Proof.
  intros E m'. pose proof (sl_gdt L) as [G1 G2]. pose proof (sl_code L) as G3. assert (CODE = 0x7000) as HC by done.
  assert (Z.of_nat (length (load_bytes bootother_start bootother_size m)) = bootother_size) as El
    by (rewrite length_load_bytes; lia).
  split; [split_and!; [lia|lia|]|].
  - replace gdt with (CODE + (gdt - CODE)) at 1 by lia. rewrite <- (slice_load_bytes CODE bootother_size) by lia.
    unfold m'. rewrite <- El at 1. rewrite load_store by lia. rewrite <- E. by rewrite slice_load_bytes by lia.
  - intros x Hx. apply store_out; lia.
Qed.

(** [bootothers] starts each of the other processors, each with the next free
    page as its stack. *)
Lemma bootothers_spec b l s :
  smp_found b s -> free_list kend (sm_kmem s) l -> (Z.to_nat (mp_ncpu (sm_mp s)) - 1 <= length l)%nat ->
  (forall j, idle j s) -> (forall c, 0 <= c < NCPU -> c <> b -> cpu_booted cpus c s = 0) ->
  load_bytes (bootother_start + (gdt - CODE)) 30 (sm_mem s) = boot_tables gdt ->
  wp (bootothers cpus idt kpgdir mpmain bootother_start bootother_size start32 gdt back b) (fun _ s' =>
    exists up, boots b l s (seqZ 0 (mp_ncpu (sm_mp s))) up s') s.
Proof.
  intros Hf Hfl Hlen Hi Hz Him. unfold bootothers. wsteps. cbn [sm_mp sm_set_mem].
  destruct (copied_tables _ Him) as [Ht Hm].
  apply (wp_for_each (fun pre s' => exists up, boots b l s pre up s')).
  - exists []. pose proof (sl_code L) as HL. pose proof (sl_kend L) as HL2. assert (PHYSTOP = 0x1000000) as HP by done.
    split; try done; [|intros x Hx _; apply Hm; lia].
    intros c Hc Hcb _. rewrite <- (Hz c Hc Hcb). destruct (cpu_range c Hc) as (C1 & C2 & C3 & C4). pose proof (sl_code L).
    unfold cpu_booted, CPU_booted, sizeof_cpu in *. apply ldn_ext; [lia..|]. intros x Hx. apply Hm. lia.
  - intros pre c post s1 E [up Hb]. wfocus. unfold wp at 1.
    rewrite (cpunum_spec b b) by (rewrite ?(bo_mp _ _ _ _ _ _ Hb), ?(bo_ids _ _ _ _ _ _ Hb);
      first [apply (sf_lapic _ _ Hf)|apply (sf_la _ _ Hf), (sf_b _ _ Hf)]).
    destruct (seqZ_split _ _ _ _ E) as [_ Hc].
    assert (forall k, k ∈ pre -> 0 <= k < mp_ncpu (sm_mp s)) as Hin.
    { intros k Hk. assert (k ∈ seqZ 0 (mp_ncpu (sm_mp s))) as Hk' by (rewrite E; set_solver). apply elem_of_seqZ in Hk'. lia. }
    assert (c ∉ pre) as Hpre.
    { intros Hk. pose proof (NoDup_seqZ 0 (mp_ncpu (sm_mp s))) as Hnd. rewrite E in Hnd.
      apply NoDup_app in Hnd as (_ & Hnd & _). apply (Hnd c Hk). set_solver. }
    destruct (Z.eqb_spec c b) as [->|Hne].
    + wsteps. exists up. destruct Hb as [B1 B2 B3 B4 Bp B5 B6 B7 B8 B9 B10 B11]. split; try done.
      * by rewrite filter_app, filter_cons_False, filter_nil, app_nil_r by naive_solver.
      * intros k Hk Hkb Hn. apply B10; [done|done|]. set_solver.
      * intros x Hx Ho. apply B11; [done|]. intros k Hk. apply Ho. set_solver.
    + eapply wp_mono; [eapply boot_one; try done|].
      * pose proof (f_equal length (bo_up _ _ _ _ _ _ Hb)) as El. rewrite length_fmap in El.
        pose proof (filter_others b pre c post _ (sf_b _ _ Hf) E Hne). lia.
      * cbv beta. intros _ s2 [stack H2]. by eexists.
  - done.
Qed.
End Others.
