(* ===== verification/Spinlock.v ===== *)
(** * Spin locks (kernel/spinlock.c)

    The lock at the grain of its memory accesses, with any number of
    processors interleaved.  In every reachable state at most one processor is
    inside the critical section, it runs with interrupts off, and none of the
    panics of [acquire], [release] and [popcli] is reached. *)

From stdpp Require Import relations.
From S2P Require Import Prelude Monad Params.

(** ** State *)

(** The lock word and the owner; the fields for debugging are left out. *)
Record spinlock := Spinlock { lk_locked : Z; lk_cpu : option nat }.

Definition initlock : spinlock := Spinlock 0 None.

(** The fields of [struct cpu] the locks use, and the interrupt flag of the
    processor. *)
Record cpu := Cpu { c_ncli : Z; c_intena : bool; c_if : bool }.

Definition pushcli (c : cpu) : cpu :=
  Cpu (c_ncli c + 1) (if c_ncli c =? 0 then c_if c else c_intena c) false.

Definition popcli (c : cpu) : cpu + string :=
  if c_if c then inr "popcli - interruptible"
  else
    let n := c_ncli c - 1 in
    if n <? 0 then inr "popcli"
    else inl (Cpu n (c_intena c) ((n =? 0) && c_intena c)).

(** Where a processor is in the code: outside, before each access of
    [acquire], in the critical section, before each access of [release]. *)
Inductive pc :=
| Out
| AqHoldL     (* holding(): read lk->locked *)
| AqHoldC     (* holding(): read lk->cpu *)
| AqXchg      (* xchg(&lk->locked, 1) *)
| AqOwn       (* lk->cpu = cpu *)
| Crit
| RlHoldL     (* holding(): read lk->locked *)
| RlHoldC     (* holding(): read lk->cpu *)
| RlOwn       (* lk->cpu = 0 *)
| RlXchg      (* xchg(&lk->locked, 0) *)
| RlPop       (* popcli() *)
| Panicked (msg : string).

#[global] Instance pc_eq_dec : EqDecision pc.
Proof. solve_decision. Defined.

Record world := World { w_lock : spinlock; w_cpu : list (cpu * pc) }.

(** What processor [i], at [p], does next: [acquire], the critical section and
    [release], instruction by instruction. *)
Definition cpu_step (i : nat) (lk : spinlock) (c : cpu) (p : pc) : spinlock * cpu * pc :=
  match p with
  | Out => (lk, pushcli c, AqHoldL)
  | AqHoldL => (lk, c, if lk_locked lk =? 0 then AqXchg else AqHoldC)
  | AqHoldC => (lk, c, if decide (lk_cpu lk = Some i) then Panicked "acquire" else AqXchg)
  | AqXchg => (Spinlock 1 (lk_cpu lk), c, if lk_locked lk =? 0 then AqOwn else AqXchg)
  | AqOwn => (Spinlock (lk_locked lk) (Some i), c, Crit)
  | Crit => (lk, c, RlHoldL)
  | RlHoldL => (lk, c, if lk_locked lk =? 0 then Panicked "release" else RlHoldC)
  | RlHoldC => (lk, c, if decide (lk_cpu lk = Some i) then RlOwn else Panicked "release")
  | RlOwn => (Spinlock (lk_locked lk) None, c, RlXchg)
  | RlXchg => (Spinlock 0 (lk_cpu lk), c, RlPop)
  | RlPop => match popcli c with
             | inl c => (lk, c, Out)
             | inr msg => (lk, c, Panicked msg)
             end
  | Panicked msg => (lk, c, Panicked msg)
  end.

Inductive lock_step : world -> world -> Prop :=
| Lock_step w i c p lk' c' p' :
    w_cpu w !! i = Some (c, p) -> cpu_step i (w_lock w) c p = (lk', c', p') ->
    lock_step w (World lk' (<[i := (c', p')]> (w_cpu w))).

(** ** Invariant *)

(** Between a successful [xchg] of [acquire] and the [xchg] of [release]. *)
Definition owns (p : pc) : Prop := p ∈ [AqOwn; Crit; RlHoldL; RlHoldC; RlOwn; RlXchg].
(** ... with [lk->cpu] set. *)
Definition named (p : pc) : Prop := p ∈ [Crit; RlHoldL; RlHoldC; RlOwn].

#[global] Instance owns_dec p : Decision (owns p).
Proof. unfold owns. apply _. Defined.
#[global] Instance named_dec p : Decision (named p).
Proof. unfold named. apply _. Defined.

(** The processor's own bookkeeping outside and inside the lock: [pushcli]
    has been undone or is pending. *)
Definition cpu_ok (c : cpu) (p : pc) : Prop :=
  match p with
  | Out => 0 <= c_ncli c /\ (0 < c_ncli c -> c_if c = false)
  | Panicked _ => False
  | _ => 1 <= c_ncli c /\ c_if c = false
  end.

Record lock_inv (w : world) : Prop := {
  li_word : lk_locked (w_lock w) <> 0 <-> exists i c p, w_cpu w !! i = Some (c, p) /\ owns p;
  li_one : forall i j c p c' p', w_cpu w !! i = Some (c, p) -> w_cpu w !! j = Some (c', p') ->
    owns p -> owns p' -> i = j;
  li_name : forall i c p, w_cpu w !! i = Some (c, p) -> named p <-> lk_cpu (w_lock w) = Some i;
  li_cpu : forall i c p, w_cpu w !! i = Some (c, p) -> cpu_ok c p;
}.

Lemma named_owns p : named p -> owns p.
Proof. unfold named, owns. set_solver. Qed.

(** The invariant of a world that differs in one processor and the lock. *)
Lemma lock_inv_step w i c p lk' c' p' :
  lock_inv w -> w_cpu w !! i = Some (c, p) -> cpu_ok c' p' ->
  (owns p' -> lk_locked lk' <> 0) -> (~ owns p' -> owns p -> lk_locked lk' = 0) ->
  (~ owns p -> owns p' -> lk_locked (w_lock w) = 0) ->
  (~ owns p -> ~ owns p' -> lk_locked lk' = 0 <-> lk_locked (w_lock w) = 0) ->
  (named p' <-> lk_cpu lk' = Some i) ->
  (forall j d q, j <> i -> w_cpu w !! j = Some (d, q) ->
     lk_cpu lk' = Some j <-> lk_cpu (w_lock w) = Some j) ->
  lock_inv (World lk' (<[i := (c', p')]> (w_cpu w))).
Proof.
  intros [Hw H1 Hn Hc] Hi Hok Hl1 Hl2 Hl3 Hl4 Hname Hoth.
  assert (forall j d q, <[i := (c', p')]> (w_cpu w) !! j = Some (d, q) ->
    (j = i /\ d = c' /\ q = p') \/ (j <> i /\ w_cpu w !! j = Some (d, q))) as Hlk.
  { intros j d q. destruct (decide (j = i)) as [->|Hne].
    - rewrite list_lookup_insert_eq by (by eapply lookup_lt_Some). intros [= <- <-]. by left.
    - rewrite list_lookup_insert_ne by done. by right. }
  assert (<[i := (c', p')]> (w_cpu w) !! i = Some (c', p')) as Hii
    by (apply list_lookup_insert_eq; by eapply lookup_lt_Some).
  assert (~ owns p -> owns p' -> forall j d q, w_cpu w !! j = Some (d, q) -> ~ owns q) as Hfree.
  { intros Hp Hp' j d q Hj Hq. apply (proj2 Hw); [by exists j, d, q|auto]. }
  split; cbn [w_lock w_cpu].
  - split.
    + intros Hl. destruct (decide (owns p')) as [Ho|Ho]; [by exists i, c', p'|].
      destruct (decide (owns p)) as [Hp|Hp]; [by destruct Hl; auto|].
      assert (lk_locked (w_lock w) <> 0) as (j & d & q & Hj & Hq)%Hw by (rewrite <- Hl4; auto).
      exists j, d, q. split; [|done]. rewrite list_lookup_insert_ne; [done|]. congruence.
    + intros (j & d & q & [(-> & -> & ->)|[Hne Hj]]%Hlk & Hq); [auto|].
      destruct (decide (owns p)) as [Hp|Hp]; [destruct Hne; by eapply H1|].
      destruct (decide (owns p')) as [Hp'|Hp']; [auto|]. rewrite Hl4 by done. apply Hw. eauto.
  - intros j k d q d' q' [(-> & -> & ->)|[Hne Hj]]%Hlk [(-> & -> & ->)|[Hnk Hk]]%Hlk Hq Hq'; [done|..].
    + destruct (decide (owns p)) as [Hp|Hp]; [by eapply H1|]. by destruct (Hfree Hp Hq k d' q').
    + destruct (decide (owns p)) as [Hp|Hp]; [by eapply H1|]. by destruct (Hfree Hp Hq' j d q).
    + by eapply H1.
  - intros j d q [(-> & -> & ->)|[Hne Hj]]%Hlk; [done|]. rewrite (Hoth j d q) by done. by eapply Hn.
  - intros j d q [(-> & -> & ->)|[Hne Hj]]%Hlk; [done|by eapply Hc].
Qed.

Lemma owns_spec p :
  owns p <-> match p with AqOwn | Crit | RlHoldL | RlHoldC | RlOwn | RlXchg => True | _ => False end.
Proof. unfold owns. rewrite !elem_of_cons, elem_of_nil. destruct p; naive_solver. Qed.

Lemma named_spec p :
  named p <-> match p with Crit | RlHoldL | RlHoldC | RlOwn => True | _ => False end.
Proof. unfold named. rewrite !elem_of_cons, elem_of_nil. destruct p; naive_solver. Qed.

(** No panic: the lock is not held by a processor that acquires it, and is
    held by one that releases it. *)
Lemma lock_inv_preserved w w' : lock_inv w -> lock_step w w' -> lock_inv w'.
Proof.
  intros Hinv Hs. destruct Hs as [w i c p lk' c' p' Hi Hst].
  pose proof (li_cpu w Hinv i c p Hi) as Hok. pose proof (li_name w Hinv i c p Hi) as Hn.
  assert (owns p -> lk_locked (w_lock w) <> 0) as Hlk by (intros; apply (li_word w Hinv); eauto).
  rewrite named_spec in Hn. rewrite owns_spec in Hlk.
  assert (cpu_ok c' p' /\ (owns p' -> lk_locked lk' <> 0) /\ (~ owns p' -> owns p -> lk_locked lk' = 0) /\
    (~ owns p -> owns p' -> lk_locked (w_lock w) = 0) /\
    (~ owns p -> ~ owns p' -> lk_locked lk' = 0 <-> lk_locked (w_lock w) = 0) /\
    (named p' <-> lk_cpu lk' = Some i) /\
    (forall j d q, j <> i -> w_cpu w !! j = Some (d, q) ->
       lk_cpu lk' = Some j <-> lk_cpu (w_lock w) = Some j)) as (? & ? & ? & ? & ? & ? & ?).
  2: by eapply lock_inv_step.
  assert (p = AqOwn -> forall j d q, j <> i -> w_cpu w !! j = Some (d, q) -> lk_cpu (w_lock w) <> Some j) as Hnew.
  { intros -> j d q Hne Hj Hq. apply Hne. eapply (li_one w Hinv); [exact Hj|exact Hi| |by apply owns_spec].
    by apply named_owns, (li_name w Hinv j d q Hj). }
  rewrite !owns_spec, named_spec. unfold cpu_step, popcli, pushcli, cpu_ok in *.
  destruct p; repeat case_match; simplify_eq; zbool; cbn [lk_locked lk_cpu c_ncli c_if c_intena] in *;
    split_and!; try done; try lia; try tauto; try naive_solver.
Qed.

Lemma lock_inv_steps w w' : lock_inv w -> rtc lock_step w w' -> lock_inv w'.
Proof. intros Hinv Hs. induction Hs; eauto using lock_inv_preserved. Qed.

(** [popcli] undoes [pushcli]: the interrupt flag is what it was. *)
Lemma push_pop c :
  cpu_ok c Out ->
  exists c', popcli (pushcli c) = inl c' /\ c_ncli c' = c_ncli c /\ c_if c' = c_if c.
Proof.
  intros [H0 H1]. unfold popcli, pushcli. cbn [c_if c_ncli c_intena].
  rewrite (proj2 (Z.ltb_ge _ _)) by lia. eexists. split; [done|]. cbn. split; [lia|].
  replace (c_ncli c + 1 - 1) with (c_ncli c) by lia. destruct (Z.eqb_spec (c_ncli c) 0); [done|].
  rewrite H1; [done|lia].
Qed.

(** A state in which nobody has used the lock yet. *)
Lemma lock_inv_init l :
  Forall (fun '(c, p) => p = Out /\ cpu_ok c Out) l -> lock_inv (World initlock l).
Proof.
  intros Hall. rewrite Forall_lookup in Hall.
  assert (forall i c p, l !! i = Some (c, p) -> p = Out /\ cpu_ok c Out) as H by (intros i c p Hi; exact (Hall i (c, p) Hi)).
  split; cbn.
  - split; [done|]. intros (i & c & p & Hi & Ho). destruct (H i c p Hi) as [-> _]. by apply owns_spec in Ho.
  - intros i j c p c' p' Hi _ Ho. destruct (H i c p Hi) as [-> _]. by apply owns_spec in Ho.
  - intros i c p Hi. destruct (H i c p Hi) as [-> _]. rewrite named_spec. done.
  - intros i c p Hi. destruct (H i c p Hi) as [-> ?]. done.
Qed.

(** ** Runs of one processor *)

(** A step of one processor, the others standing still. *)
Lemma run_step w i c p lk' c' p' w' :
  w_cpu w !! i = Some (c, p) -> cpu_step i (w_lock w) c p = (lk', c', p') ->
  rtc lock_step (World lk' (<[i := (c', p')]> (w_cpu w))) w' -> rtc lock_step w w'.
Proof. intros Hi Hst. apply rtc_l. by eapply Lock_step. Qed.

(** A processor that finds the lock free enters the critical section. *)
Lemma acquire_run w i c :
  w_cpu w !! i = Some (c, Out) -> lk_locked (w_lock w) = 0 ->
  rtc lock_step w (World (Spinlock 1 (Some i)) (<[i := (pushcli c, Crit)]> (w_cpu w))).
Proof.
  intros Hi Hl. assert (i < length (w_cpu w))%nat as Hlt by (by eapply lookup_lt_Some).
  eapply run_step; [exact Hi|reflexivity|].
  do 3 (eapply run_step; [by apply list_lookup_insert_eq; rewrite ?length_insert|
    cbn; rewrite ?Hl; reflexivity|]; cbn [w_cpu]; rewrite ?list_insert_insert_eq).
  apply rtc_refl.
Qed.

(** [release] at the end of the critical section gives the lock back and undoes
    the [pushcli] of [acquire]. *)
Lemma release_run w i c :
  lock_inv w -> w_cpu w !! i = Some (c, Crit) ->
  exists c', rtc lock_step w (World initlock (<[i := (c', Out)]> (w_cpu w))) /\
    c_ncli c' = c_ncli c - 1 /\ c_if c' = (c_ncli c =? 1) && c_intena c.
Proof.
  intros Hinv Hi. assert (i < length (w_cpu w))%nat as Hlt by (by eapply lookup_lt_Some).
  destruct (li_cpu w Hinv i c Crit Hi) as [Hn Hf].
  assert (lk_cpu (w_lock w) = Some i) as Hown by (apply (li_name w Hinv i c Crit Hi), named_spec; done).
  assert (lk_locked (w_lock w) <> 0) as Hl.
  { apply (li_word w Hinv). exists i, c, Crit. split; [done|]. by apply owns_spec. }
  apply Z.eqb_neq in Hl.
  assert (popcli c = inl (Cpu (c_ncli c - 1) (c_intena c) ((c_ncli c =? 1) && c_intena c))) as Hpop.
  { unfold popcli. rewrite Hf. cbn zeta. rewrite (proj2 (Z.ltb_ge _ _)) by lia. f_equal. f_equal.
    f_equal. destruct (Z.eqb_spec (c_ncli c) 1); zbool; lia. }
  exists (Cpu (c_ncli c - 1) (c_intena c) ((c_ncli c =? 1) && c_intena c)). split; [|done].
  eapply run_step; [exact Hi|reflexivity|].
  do 5 (eapply run_step; [by apply list_lookup_insert_eq; rewrite ?length_insert|
    cbn; rewrite ?Hl, ?Hpop, ?(decide_True _ _ Hown); reflexivity|]; cbn [w_cpu]; rewrite ?list_insert_insert_eq).
  apply rtc_refl.
Qed.
