(* ===== verification/Console.v ===== *)
(** * The console (kernel/console.c)

    Formatted output ([printint], [cprintf]), the screen ([cgaputc]) and the
    line discipline: [consoleintr] edits the line typed so far, [consoleread]
    hands out finished lines.  The input ring with its three 32-bit indices is
    shown to be a queue of finished bytes followed by the line being edited. *)

From S2P Require Import Prelude Monad Params CString ProcTable Ide Bio Block Inode Icache.

(** ** printint, cprintf *)

Definition digits : list Z :=
  [48; 49; 50; 51; 52; 53; 54; 55; 56; 57; 97; 98; 99; 100; 101; 102].

(** The digits of [x], the last one first.  32 rounds are enough for a 32-bit
    number in any base. *)
Fixpoint printint_loop (fuel : nat) (x base : Z) : list Z :=
  match fuel with
  | O => []
  | S fuel =>
      nthb digits (x mod base) :: (if x / base =? 0 then [] else printint_loop fuel (x / base) base)
  end.

(** The characters put on the console. *)
Definition printint (xx base : Z) (sign : bool) : list Z :=
  let neg := sign && (xx <? 0) in
  let x := if neg then u32 (- xx) else u32 xx in
  reverse (printint_loop 32 x base ++ (if neg then [45] else [])).

(** An argument: a word, or the string a pointer points to ([None] is the null
    pointer). *)
Inductive carg := Cint (x : Z) | Cstr (s : option (list Z)).

Definition arg_int (args : list carg) : Z := match args with Cint x :: _ => s32 x | _ => 0 end.
Definition null_str : list Z := [40; 110; 117; 108; 108; 41; 0].
Definition arg_str (args : list carg) : list Z :=
  match args with Cstr (Some s) :: _ => s | _ => null_str end.

Fixpoint cprintf (fmt : list Z) (args : list carg) : list Z :=
  match fmt with
  | [] => []
  | c :: fmt' =>
      if c =? 0 then []
      else if negb (c =? 37) then c :: cprintf fmt' args
      else
        match fmt' with
        | [] => []
        | c :: fmt' =>
            if c =? 0 then []
            else if c =? 100 then printint (arg_int args) 10 true ++ cprintf fmt' (tail args)
            else if (c =? 120) || (c =? 112) then printint (arg_int args) 16 false ++ cprintf fmt' (tail args)
            else if c =? 115 then cstr (arg_str args) ++ cprintf fmt' (tail args)
            else if c =? 37 then 37 :: cprintf fmt' args
            else 37 :: c :: cprintf fmt' args
        end
  end.

(** ** The screen *)

Definition BACKSPACE : Z := 0x100.

(** The cursor and the cells of the screen. *)
Record cga := Cga { cg_pos : Z; cg_crt : list Z }.

Definition cgaputc (c : Z) (g : cga) : cga :=
  let pos := cg_pos g in
  let '(pos, crt) :=
    if c =? 10 then (pos + (80 - pos mod 80), cg_crt g)
    else if c =? BACKSPACE then ((if 0 <? pos then pos - 1 else pos), cg_crt g)
    else (pos + 1, <[Z.to_nat pos := Z.lor (Z.land c 0xff) 0x0700]> (cg_crt g)) in
  let '(pos, crt) :=
    if 24 <=? pos / 80 then
      let crt := splice 0 (slice 80 (23 * 80) crt) crt in
      let pos := pos - 80 in
      (pos, splice pos (zeros (24 * 80 - pos)) crt)
    else (pos, crt) in
  Cga pos (<[Z.to_nat pos := Z.lor 32 0x0700]> crt).

(** What the serial port gets. *)
Definition uart_bytes (c : Z) : list Z := if c =? BACKSPACE then [8; 32; 8] else [u8 c].

(** ** Input *)

Definition INPUT_BUF : Z := 128.
Definition ctl (x : Z) : Z := x - 64.

Record input := Input { in_buf : list Z; in_r : Z; in_w : Z; in_e : Z }.
Definition in_set_r v i := Input (in_buf i) v (in_w i) (in_e i).
Definition in_set_w v i := Input (in_buf i) (in_r i) v (in_e i).
Definition in_set_e v i := Input (in_buf i) (in_r i) (in_w i) v.

Definition input0 : input := Input (zeros INPUT_BUF) 0 0 0.

Definition in_at (k : Z) (i : input) : Z := nthb (in_buf i) (k mod INPUT_BUF).

(** The console: the file system below it, the input ring and the characters
    put out so far. *)
Record con := Con { cn_fs : fs; cn_in : input; cn_out : list Z }.
Definition cn_set_fs v s := Con v (cn_in s) (cn_out s).
Definition cn_set_in v s := Con (cn_fs s) v (cn_out s).

Definition fs_of_con : lens con fs := Lens cn_fs cn_set_fs.
Definition pt_of_con : lens con ptable := lens_comp fs_of_con pt_of_fs.

Definition consputc (c : Z) : M con unit := modify (fun s => Con (cn_fs s) (cn_in s) (cn_out s ++ [c])).

(** Kill line. *)
Definition kill_step (_ : unit) : M con (unit + unit) :=
  let! i := gets cn_in in
  if negb (in_e i =? in_w i) && negb (in_at (u32 (in_e i - 1)) i =? 10) then
    modify (cn_set_in (in_set_e (u32 (in_e i - 1)) i));;;
    consputc BACKSPACE;;;
    ret (inl tt)
  else ret (inr tt).

(** One character of [consoleintr]; the process listing of [^P] is output
    only. *)
Definition consoleintr_char (c : Z) : M con unit :=
  if c =? ctl 80 then ret tt
  else if c =? ctl 85 then while_fuel (S (Z.to_nat INPUT_BUF)) kill_step tt
  else if (c =? ctl 72) || (c =? 0x7f) then
    let! i := gets cn_in in
    if negb (in_e i =? in_w i) then
      modify (cn_set_in (in_set_e (u32 (in_e i - 1)) i));;;
      consputc BACKSPACE
    else ret tt
  else
    let! i := gets cn_in in
    if negb (c =? 0) && (u32 (in_e i - in_r i) <? INPUT_BUF) then
      let c := if c =? 13 then 10 else c in
      let i := Input (<[Z.to_nat (in_e i mod INPUT_BUF) := u8 c]> (in_buf i)) (in_r i) (in_w i) (u32 (in_e i + 1)) in
      modify (cn_set_in i);;;
      consputc c;;;
      if (c =? 10) || (c =? ctl 68) || (in_e i =? u32 (in_r i + INPUT_BUF)) then
        modify (cn_set_in (in_set_w (in_e i) i));;;
        zoom pt_of_con (wakeup ChInput)
      else ret tt
    else ret tt.

(** [consoleintr] on the characters [getc] gives before it is negative. *)
Definition consoleintr (cs : list Z) : M con unit := for_each cs consoleintr_char.

(** The loop of [consoleread], with [n] bytes to go and [dst] copied; it
    sleeps, and continues from the same place, when there is no finished
    input. *)
Definition consoleread_step (ip : nat) (target : Z) '(n, dst) : M con ((Z * list Z) + (Z * list Z)) :=
  if 0 <? n then
    let! i := gets cn_in in
    if in_r i =? in_w i then
      let! p := gets (fun s => cur_proc (lget pt_of_con s)) in
      if negb (p_killed p =? 0) then
        zoom fs_of_con (ilock (Some ip));;; ret (inr (-1, dst))
      else zoom pt_of_con (sleep ChInput)
    else
      let c := in_at (in_r i) i in
      modify (cn_set_in (in_set_r (u32 (in_r i + 1)) i));;;
      if c =? ctl 68 then
        (if n <? target then modify (cn_set_in i) else ret tt);;;
        zoom fs_of_con (ilock (Some ip));;; ret (inr (target - n, dst))
      else if c =? 10 then
        zoom fs_of_con (ilock (Some ip));;; ret (inr (target - (n - 1), dst ++ [c]))
      else ret (inl (n - 1, dst ++ [c]))
  else zoom fs_of_con (ilock (Some ip));;; ret (inr (target - n, dst)).

Definition consoleread_from (ip : nat) (target n : Z) (dst : list Z) : M con (Z * list Z) :=
  while_fuel (S (Z.to_nat n)) (consoleread_step ip target) (n, dst).

Definition consoleread (ip : nat) (n : Z) : M con (Z * list Z) :=
  zoom fs_of_con (iunlock (Some ip));;;
  consoleread_from ip n n [].

Definition consolewrite (ip : nat) (buf : list Z) (n : Z) : M con Z :=
  zoom fs_of_con (iunlock (Some ip));;;
  for_each (seqZ 0 n) (fun i => consputc (nthb buf i));;;
  zoom fs_of_con (ilock (Some ip));;;
  ret n.

(** ** The ring as a queue *)

(** The bytes between the read and the edit index. *)
Definition in_len (i : input) : Z := u32 (in_e i - in_r i).
Definition in_all (i : input) : list Z := (fun k => in_at (in_r i + k) i) <$> seqZ 0 (in_len i).
(** How many of them are finished. *)
Definition in_done (i : input) : Z := u32 (in_w i - in_r i).

(** Finished input, and the line being edited, which has no end of line. *)
Definition finished (i : input) : list Z := take (Z.to_nat (in_done i)) (in_all i).
Definition editing (i : input) : list Z := drop (Z.to_nat (in_done i)) (in_all i).

Record input_ok (i : input) : Prop := {
  io_len : length (in_buf i) = Z.to_nat INPUT_BUF;
  io_r : 0 <= in_r i < 2 ^ 32;
  io_w : 0 <= in_w i < 2 ^ 32;
  io_e : 0 <= in_e i < 2 ^ 32;
  io_order : in_done i <= in_len i <= INPUT_BUF;
  io_edit : Forall (fun c => c <> 10) (editing i);
}.

(** The specification of a character typed. *)
Definition type_char (c : Z) (q : list Z * list Z) : list Z * list Z :=
  let '(f, e) := q in
  if c =? ctl 80 then (f, e)
  else if c =? ctl 85 then (f, [])
  else if (c =? ctl 72) || (c =? 0x7f) then (f, removelast e)
  else if negb (c =? 0) && (Z.of_nat (length f + length e) <? INPUT_BUF) then
    let c := if c =? 13 then 10 else c in
    if (c =? 10) || (c =? ctl 68) || (Z.of_nat (length f + length e) + 1 =? INPUT_BUF)
    then (f ++ e ++ [c], []) else (f, e ++ [c])
  else (f, e).

Lemma mod_ring x : u32 x mod INPUT_BUF = x mod INPUT_BUF.
Proof. unfold u32. apply Z.mod_mod_divide. exists (2 ^ 25). done. Qed.

Lemma in_at_u32 k i : in_at (u32 k) i = in_at k i.
Proof. unfold in_at. by rewrite mod_ring. Qed.

(** [b] after [a] on the 32-bit circle. *)
Lemma u32_diff a b d : 0 <= a < 2 ^ 32 -> 0 <= b < 2 ^ 32 -> 0 <= d < 2 ^ 32 ->
  u32 (b - a) = d <-> b = u32 (a + d).
Proof.
  intros Ha Hb Hd. split.
  - intros <-. rewrite u32_add_r. replace (a + (b - a)) with b by lia. by rewrite u32_small.
  - intros ->. rewrite u32_sub_l. replace (a + d - a) with d by lia. by rewrite u32_small.
Qed.

Lemma length_in_all i : input_ok i -> Z.of_nat (length (in_all i)) = in_len i.
Proof. intros Hi. unfold in_all. rewrite length_fmap, length_seqZ. pose proof (u32_range (in_e i - in_r i)). unfold in_len in *. lia. Qed.

Lemma queue_split i : finished i ++ editing i = in_all i.
Proof. apply take_drop. Qed.

Lemma length_finished i : input_ok i -> Z.of_nat (length (finished i)) = in_done i.
Proof.
  intros Hi. pose proof (length_in_all i Hi). pose proof (io_order i Hi).
  pose proof (u32_range (in_w i - in_r i)). unfold finished, in_done in *. rewrite length_take. lia.
Qed.

Lemma length_editing i : input_ok i -> Z.of_nat (length (editing i)) = in_len i - in_done i.
Proof.
  intros Hi. pose proof (length_in_all i Hi). pose proof (io_order i Hi).
  pose proof (u32_range (in_w i - in_r i)). unfold editing, in_done in *. rewrite length_drop. lia.
Qed.

(** A state with the same ring up to the edit index. *)
Lemma in_all_prefix i i' n :
  in_r i' = in_r i -> in_len i' = n -> 0 <= n <= in_len i ->
  (forall k, 0 <= k < n -> in_at (in_r i + k) i' = in_at (in_r i + k) i) ->
  in_all i' = take (Z.to_nat n) (in_all i).
Proof.
  intros Er El Hn Hat. unfold in_all. rewrite Er, El.
  replace (in_len i) with (n + (in_len i - n)) by lia. rewrite seqZ_app, fmap_app by lia.
  rewrite take_app_length' by (rewrite length_fmap, length_seqZ; lia).
  apply fmap_ext_in. intros k Hk%elem_of_seqZ. apply Hat. lia.
Qed.

(** Taking back the last character of the line. *)
Lemma edit_back i (i' := in_set_e (u32 (in_e i - 1)) i) :
  input_ok i -> in_e i <> in_w i ->
  input_ok i' /\ finished i' = finished i /\ editing i' = removelast (editing i) /\
  in_len i' = in_len i - 1 /\ in_done i' = in_done i /\ in_done i < in_len i.
Proof.
  intros Hi Hne. pose proof Hi as [Hl Hr Hw He Ho Hed].
  pose proof (u32_range (in_w i - in_r i)) as Rw. pose proof (u32_range (in_e i - in_r i)) as Re.
  assert (in_done i < in_len i) as Hlt.
  { destruct (Z.eq_dec (in_done i) (in_len i)) as [E|]; [|lia]. unfold in_done, in_len in E.
    apply (u32_diff _ _ _ Hr Hw Re) in E. rewrite u32_add_r in E.
    replace (in_r i + (in_e i - in_r i)) with (in_e i) in E by lia. rewrite u32_small in E by done. done. }
  assert (in_len i' = in_len i - 1) as El.
  { unfold in_len in *. cbn [i' in_set_e in_e in_r]. rewrite u32_sub_l.
    replace (in_e i - 1 - in_r i) with (in_e i - in_r i - 1) by lia. rewrite <- u32_sub_l.
    apply u32_small. unfold in_done in *. lia. }
  assert (in_all i' = take (Z.to_nat (in_len i - 1)) (in_all i)) as Ea.
  { apply in_all_prefix; [done|done|unfold in_done, in_len in *; lia|done]. }
  assert (in_done i' = in_done i) as Ed by done.
  assert (finished i' = finished i) as Ef.
  { unfold finished. rewrite Ed, Ea, take_take. f_equal. unfold in_done, in_len in *. lia. }
  assert (editing i' = removelast (editing i)) as Ee.
  { unfold editing. rewrite Ed, Ea, removelast_firstn_len, length_drop.
    pose proof (length_in_all i Hi). rewrite skipn_firstn_comm.
    change (take (Z.to_nat (in_len i - 1) - Z.to_nat (in_done i)) (drop (Z.to_nat (in_done i)) (in_all i)) =
      take (Nat.pred (length (in_all i) - Z.to_nat (in_done i))) (drop (Z.to_nat (in_done i)) (in_all i))).
    f_equal. unfold in_done, in_len in *. lia. }
  split_and!; try done. split; [done|done|done|cbn; apply u32_range|lia|].
  rewrite Ee, removelast_firstn_len. by apply Forall_take.
Qed.

Lemma edit_end i : input_ok i -> u32 (in_r i + in_len i) = in_e i.
Proof.
  intros Hi. pose proof (io_e i Hi). unfold in_len. rewrite u32_add_r.
  replace (in_r i + (in_e i - in_r i)) with (in_e i) by lia. by rewrite u32_small.
Qed.

(** The character before the edit index belongs to the line. *)
Lemma edit_last i : input_ok i -> in_done i < in_len i -> in_at (u32 (in_e i - 1)) i ∈ editing i.
Proof.
  intros Hi Hlt. pose proof (u32_range (in_w i - in_r i)) as Rw.
  rewrite <- (edit_end i Hi), u32_sub_l, in_at_u32. unfold editing.
  apply list_elem_of_lookup. exists (Z.to_nat (in_len i - 1 - in_done i)). unfold in_done in *.
  rewrite lookup_drop. unfold in_all. rewrite list_lookup_fmap, lookup_seqZ_lt by lia. cbn.
  do 2 f_equal. lia.
Qed.

(** A character typed at the end of the line. *)
Lemma edit_put i c (i' := Input (<[Z.to_nat (in_e i mod INPUT_BUF) := c]> (in_buf i)) (in_r i) (in_w i) (u32 (in_e i + 1))) :
  input_ok i -> in_len i < INPUT_BUF ->
  in_len i' = in_len i + 1 /\ in_done i' = in_done i /\ in_all i' = in_all i ++ [c].
Proof.
  intros Hi Hlt. pose proof Hi as [Hl Hr Hw He Ho Hed]. pose proof (u32_range (in_e i - in_r i)) as Re.
  assert (INPUT_BUF < 2 ^ 32 - 1) by done.
  assert (in_len i' = in_len i + 1) as El.
  { unfold in_len in *. cbn [i' in_e in_r]. rewrite u32_sub_l.
    replace (in_e i + 1 - in_r i) with (in_e i - in_r i + 1) by lia. rewrite <- u32_add_l. apply u32_small. lia. }
  split_and!; [done|done|].
  assert (forall x, 0 <= x mod INPUT_BUF < INPUT_BUF) as Hm by (intros; by apply Z.mod_pos_bound).
  assert (in_e i mod INPUT_BUF = (in_r i + in_len i) mod INPUT_BUF) as Em by (by rewrite <- (edit_end i Hi), mod_ring).
  unfold in_all. rewrite El. fold (in_len i) in Re. rewrite seqZ_app, fmap_app by lia. f_equal.
  - apply fmap_ext_in. intros k Hk%elem_of_seqZ. unfold in_at. cbn [i' in_r in_buf]. unfold nthb.
    rewrite list_lookup_insert_ne; [done|]. intros E. apply Z2Nat.inj in E; [|apply Hm..]. rewrite Em in E.
    assert ((in_len i - k) mod INPUT_BUF = 0) as Hz.
    { replace (in_len i - k) with (in_r i + in_len i - (in_r i + k)) by lia. rewrite Zminus_mod, E, Z.sub_diag. done. }
    rewrite Z.mod_small in Hz by lia. lia.
  - rewrite seqZ_1. cbn [fmap list_fmap]. f_equal. unfold in_at. cbn [i' in_r in_buf]. rewrite Z.add_0_l, Em.
    unfold nthb. rewrite list_lookup_insert_eq; [done|]. rewrite Hl. apply Z2Nat.inj_lt; [apply Hm|done|apply Hm].
Qed.

(** The states after a character that does and does not end the line. *)
Lemma put_open i c (i' := Input (<[Z.to_nat (in_e i mod INPUT_BUF) := c]> (in_buf i)) (in_r i) (in_w i) (u32 (in_e i + 1))) :
  input_ok i -> in_len i < INPUT_BUF -> c <> 10 ->
  input_ok i' /\ finished i' = finished i /\ editing i' = editing i ++ [c].
Proof.
  intros Hi Hlt Hc. destruct (edit_put i c Hi Hlt) as (El & Ed & Ea). fold i' in El, Ed, Ea.
  pose proof Hi as [Hl Hr Hw He Ho Hed]. pose proof (length_in_all i Hi) as Hla.
  pose proof (u32_range (in_w i - in_r i)) as Rw.
  assert (editing i' = editing i ++ [c]) as Ee.
  { unfold editing. rewrite Ed, Ea, drop_app_le by (unfold in_done in *; lia). done. }
  split_and!; [|unfold finished; rewrite Ed, Ea, take_app_le by (unfold in_done in *; lia); done|done].
  split; [cbn; by rewrite length_insert|done|done|cbn; apply u32_range|rewrite El, Ed; lia|].
  rewrite Ee. apply Forall_app. split; [done|by constructor].
Qed.

Lemma put_close i c (i' := Input (<[Z.to_nat (in_e i mod INPUT_BUF) := c]> (in_buf i)) (in_r i) (in_w i) (u32 (in_e i + 1)))
    (i2 := in_set_w (in_e i') i') :
  input_ok i -> in_len i < INPUT_BUF ->
  input_ok i2 /\ finished i2 = finished i ++ editing i ++ [c] /\ editing i2 = [].
Proof.
  intros Hi Hlt. destruct (edit_put i c Hi Hlt) as (El & Ed & Ea). fold i' in El, Ed, Ea.
  pose proof Hi as [Hl Hr Hw He Ho Hed]. pose proof (length_in_all i Hi) as Hla.
  assert (in_all i2 = in_all i') as Ea2 by done. assert (in_len i2 = in_len i') as El2 by done.
  assert (in_done i2 = in_len i') as Ed2 by done. pose proof (u32_range (in_e i - in_r i)) as Re. fold (in_len i) in Re.
  assert (editing i2 = []) as Ee.
  { unfold editing. rewrite Ed2, Ea2, Ea, El. apply drop_ge. rewrite length_app. cbn. lia. }
  split_and!; [|unfold finished at 1; rewrite Ed2, Ea2, Ea, El|done].
  - split; [cbn; by rewrite length_insert|done|cbn; apply u32_range|cbn; apply u32_range|rewrite Ed2, El2; lia|by rewrite Ee].
  - rewrite take_ge by (rewrite length_app; cbn; lia). rewrite <- (queue_split i). by rewrite <- app_assoc.
Qed.

(** ** consoleintr *)

(** The line is taken back to its start. *)
Lemma kill_line s :
  input_ok (cn_in s) ->
  wp (while_fuel (S (Z.to_nat INPUT_BUF)) kill_step tt) (fun _ s' =>
    input_ok (cn_in s') /\ finished (cn_in s') = finished (cn_in s) /\ editing (cn_in s') = [] /\
    cn_fs s' = cn_fs s) s.
Proof.
  intros Hi. pose proof (u32_range (in_w (cn_in s) - in_r (cn_in s))) as Rw.
  assert (forall n s, (length (editing (cn_in s)) < n)%nat -> input_ok (cn_in s) ->
    wp (while_fuel n kill_step tt) (fun _ s' => input_ok (cn_in s') /\ finished (cn_in s') = finished (cn_in s) /\
      editing (cn_in s') = [] /\ cn_fs s' = cn_fs s) s) as Hgen.
  { clear. induction n as [|n IH]; intros s Hn Hi; [lia|]. cbn [while_fuel]. unfold kill_step. wsteps.
    destruct (Z.eqb_spec (in_e (cn_in s)) (in_w (cn_in s))) as [E|E]; cbn [negb andb].
    - wsteps. split_and!; [done|done| |done]. apply length_zero_iff_nil. pose proof (length_editing _ Hi) as Hl.
      unfold in_len, in_done in Hl. rewrite E in Hl. lia.
    - destruct (edit_back _ Hi E) as (Hi' & Ef & Ee & El & Ed & Hlt). pose proof (edit_last _ Hi Hlt) as Hin.
      pose proof (io_edit _ Hi) as Hed. rewrite Forall_forall in Hed.
      rewrite (proj2 (Z.eqb_neq _ _) (Hed _ Hin)). cbn [negb]. unfold consputc. wsteps.
      eapply wp_mono; [apply IH|]; cbn [cn_in cn_set_in cn_fs].
      + rewrite Ee. pose proof (length_editing _ Hi) as Hl. rewrite removelast_firstn_len, length_firstn. lia.
      + done.
      + cbv beta. intros _ s' (? & Ef' & ? & ?). split_and!; [done|by rewrite Ef'|done|done]. }
  apply Hgen; [|done]. pose proof (length_editing _ Hi). pose proof (io_order _ Hi). unfold in_done in *. lia.
Qed.

(** A character typed does what the specification says. *)
Lemma consoleintr_char_spec s c :
  input_ok (cn_in s) -> is_byte c ->
  wp (consoleintr_char c) (fun _ s' =>
    input_ok (cn_in s') /\
    (finished (cn_in s'), editing (cn_in s')) = type_char c (finished (cn_in s), editing (cn_in s)) /\
    pt_frame (lget pt_of_con s) (lget pt_of_con s')) s.
Proof.
  intros Hi Hc. unfold consoleintr_char, type_char.
  pose proof (length_finished _ Hi) as Lf. pose proof (length_editing _ Hi) as Le.
  rewrite Nat2Z.inj_add, Lf, Le. replace (in_done (cn_in s) + (in_len (cn_in s) - in_done (cn_in s)))
    with (in_len (cn_in s)) by lia.
  destruct (c =? ctl 80); [by wsteps|]. destruct (c =? ctl 85).
  { eapply wp_mono; [by apply kill_line|]. cbv beta. intros _ s' (? & Ef & Ee & Es).
    split_and!; [done|by rewrite Ef, Ee|]. cbn. by rewrite Es. }
  destruct ((c =? ctl 72) || (c =? 127)).
  { wsteps. destruct (Z.eqb_spec (in_e (cn_in s)) (in_w (cn_in s))) as [E|E]; cbn [negb]; unfold consputc; wsteps; cbn [cn_in cn_set_in].
    - split_and!; [done| |done]. f_equal. assert (editing (cn_in s) = []) as ->; [|done].
      apply length_zero_iff_nil. unfold in_len, in_done in Le. rewrite E in Le. lia.
    - destruct (edit_back _ Hi E) as (Hi' & Ef & Ee & _). split_and!; [done|by rewrite Ef, Ee|done]. }
  wsteps. unfold in_len. destruct (Z.eqb_spec c 0) as [H0|H0]; cbn [negb andb]; [by wsteps|].
  destruct (Z.ltb_spec (u32 (in_e (cn_in s) - in_r (cn_in s))) INPUT_BUF) as [Hlt|Hge]; [|by wsteps].
  set (c' := if c =? 13 then 10 else c). assert (u8 c' = c') as E8.
  { apply u8_small. unfold c'. destruct (c =? 13); [lia|apply Hc]. }
  unfold consputc. wsteps. rewrite E8. cbn [in_e in_r cn_in cn_set_in].
  assert ((u32 (in_e (cn_in s) + 1) =? u32 (in_r (cn_in s) + INPUT_BUF)) =
    (u32 (in_e (cn_in s) - in_r (cn_in s)) + 1 =? INPUT_BUF)) as ->.
  { destruct (edit_put (cn_in s) c' Hi Hlt) as (El & _ & _). unfold in_len in El. cbn [in_e in_r] in El. rewrite <- El.
    pose proof (io_r _ Hi). pose proof (u32_range (in_e (cn_in s) + 1)).
    destruct (Z.eqb_spec (u32 (u32 (in_e (cn_in s) + 1) - in_r (cn_in s))) INPUT_BUF) as [E|E].
    - apply u32_diff in E; [|done..]. by apply Z.eqb_eq.
    - apply Z.eqb_neq. intros E'. apply E. by apply u32_diff. }
  destruct ((c' =? 10) || (c' =? ctl 68) || _) eqn:Ex; wsteps; cbn [cn_in cn_set_in].
  - destruct (put_close _ c' Hi Hlt) as (Hi' & Ef & Ee). split_and!; [done|exact (f_equal2 pair Ef Ee)|].
    apply pt_frame_wakeup1.
  - apply orb_false_elim in Ex as [[Ex _]%orb_false_elim _]. apply Z.eqb_neq in Ex.
    destruct (put_open _ c' Hi Hlt Ex) as (Hi' & Ef & Ee). split_and!; [done|exact (f_equal2 pair Ef Ee)|done].
Qed.

(** ... and so does a whole interrupt. *)
Lemma consoleintr_spec s cs :
  input_ok (cn_in s) -> Forall is_byte cs ->
  wp (consoleintr cs) (fun _ s' =>
    input_ok (cn_in s') /\
    (finished (cn_in s'), editing (cn_in s')) =
      foldl (fun q c => type_char c q) (finished (cn_in s), editing (cn_in s)) cs /\
    pt_frame (lget pt_of_con s) (lget pt_of_con s')) s.
Proof.
  intros Hi Hcs. revert s Hi. induction Hcs as [|c cs Hc Hcs IH]; intros s Hi; cbn [consoleintr for_each foldl].
  { by wsteps. }
  wcall consoleintr_char_spec; [done|done|]. cbv beta. intros _ s1 (Hi1 & E1 & P1).
  eapply wp_mono; [by apply IH|]. cbv beta. intros _ s2 (Hi2 & E2 & P2). rewrite E1 in E2.
  split_and!; [done|done|by etransitivity].
Qed.

(** ** consoleread *)

(** Reading at most [n] bytes of finished input: up to an end of line, which
    is included, or a [^D], which is left for the next call if bytes came
    before it.  [None] when the input runs out first. *)
Fixpoint read_line (n : nat) (got : bool) (f : list Z) : option (list Z * list Z) :=
  match n with
  | O => Some ([], f)
  | S n =>
      match f with
      | [] => None
      | c :: f' =>
          if c =? ctl 68 then Some ([], if got then f else f')
          else if c =? 10 then Some ([c], f')
          else match read_line n true f' with
               | Some (l, r) => Some (c :: l, r)
               | None => None
               end
      end
  end.

(** Taking the first finished byte. *)
Lemma in_take i c f (i' := in_set_r (u32 (in_r i + 1)) i) :
  input_ok i -> finished i = c :: f ->
  in_r i <> in_w i /\ in_at (in_r i) i = c /\
  input_ok i' /\ finished i' = f /\ editing i' = editing i.
Proof.
  intros Hi Hf. pose proof Hi as [Hl Hr Hw He Ho Hed]. pose proof (length_finished i Hi) as Lf.
  rewrite Hf in Lf. cbn [length] in Lf.
  pose proof (u32_range (in_w i - in_r i)) as Rw. pose proof (u32_range (in_e i - in_r i)) as Re.
  assert (in_len i' = in_len i - 1 /\ in_done i' = in_done i - 1) as [El Ed].
  { unfold in_len, in_done in *. cbn [i' in_set_r in_e in_w in_r]. rewrite !u32_sub_r. split.
    - replace (in_e i - (in_r i + 1)) with (in_e i - in_r i - 1) by lia. rewrite <- u32_sub_l. apply u32_small. lia.
    - replace (in_w i - (in_r i + 1)) with (in_w i - in_r i - 1) by lia. rewrite <- u32_sub_l. apply u32_small. lia. }
  assert (in_all i = in_at (in_r i) i :: in_all i') as Ea.
  { unfold in_all. rewrite El. rewrite seqZ_cons by (unfold in_len, in_done in *; lia). cbn [fmap list_fmap].
    f_equal; [f_equal; lia|]. change (Z.succ 0) with (1 + 0). rewrite <- (fmap_add_seqZ 1 0).
    replace (Z.pred (in_len i)) with (in_len i - 1) by lia.
    rewrite <- list_fmap_compose. apply list_fmap_ext. intros j k Hj. unfold compose, in_at.
    cbn [i' in_set_r in_r in_buf]. rewrite <- (mod_ring (u32 (in_r i + 1) + k)), u32_add_l, mod_ring. do 2 f_equal. lia. }
  assert (Z.to_nat (in_done i) = S (Z.to_nat (in_done i'))) as En by (unfold in_done in *; lia).
  assert (finished i = in_at (in_r i) i :: finished i') as Ef by (unfold finished; by rewrite Ea, En).
  assert (editing i' = editing i) as Ee by (unfold editing; by rewrite Ea, En).
  rewrite Hf in Ef. injection Ef as Ec Ef. split_and!; try done.
  - intros E. unfold in_done in Lf. rewrite E, Z.sub_diag in Lf. unfold u32 in Lf. rewrite Z.mod_0_l in Lf; lia.
  - split; [done|cbn; apply u32_range|done|done|rewrite El, Ed; lia|by rewrite Ee].
Qed.

(** [iunlock] and [ilock] of an inode whose copy is valid. *)
Lemma ilock_valid s ip i :
  fs_inode s !! ip = Some i -> i_flags i = I_VALID -> 1 <= i_ref i ->
  ilock (Some ip) s = Ret tt (Fs (fs_bio s) (<[ip := i_set_flags (Z.lor I_BUSY I_VALID) i]> (fs_inode s))).
Proof.
  intros Hip Hf Hr. destruct s as [b l]. cbn [fs_bio fs_inode] in *. unfold ilock, bind, gets.
  rewrite (inode_at_lookup ip (Fs b l) i Hip), Hf, (proj2 (Z.ltb_ge (i_ref i) 1)) by lia.
  change (negb (Z.land I_VALID I_BUSY =? 0)) with false. cbv iota. unfold modify at 1.
  rewrite (upd_inode_insert ip _ (Fs b l) i Hip), Hf. unfold fs_set_inode. cbn [fs_bio fs_inode].
  rewrite (inode_at_lookup ip (Fs b _) (i_set_flags (Z.lor I_VALID I_BUSY) i)); [done|].
  cbn [fs_inode]. by eapply lookup_set_inode.
Qed.

(** The loop of [consoleread] on input that is there. *)
Lemma consoleread_loop ip b l i0 target dst n i out f r :
  l !! ip = Some i0 -> i_flags i0 = I_VALID -> 1 <= i_ref i0 -> input_ok i ->
  target = Z.of_nat (length dst) + Z.of_nat n ->
  read_line n (bool_decide (dst <> [])) (finished i) = Some (f, r) ->
  wp (consoleread_from ip target (Z.of_nat n) dst) (fun res s' =>
    res = (Z.of_nat (length (dst ++ f)), dst ++ f) /\ input_ok (cn_in s') /\
    finished (cn_in s') = r /\ editing (cn_in s') = editing i /\ cn_out s' = out /\
    cn_fs s' = Fs b (<[ip := i_set_flags (Z.lor I_BUSY I_VALID) i0]> l)) (Con (Fs b l) i out).
Proof.
  intros Hip Hfl Hrf. unfold consoleread_from. rewrite Nat2Z.id.
  assert (forall Q : unit -> fs -> Prop, Q tt (Fs b (<[ip := i_set_flags (Z.lor I_BUSY I_VALID) i0]> l)) ->
    wp (ilock (Some ip)) Q (Fs b l)) as Hlock.
  { intros Q HQ. unfold wp. by rewrite (ilock_valid (Fs b l) ip i0). }
  revert dst i f. induction n as [|n IH]; intros dst i f Hi Ht Hrl; rewrite while_fuel_S;
    cbn [consoleread_step].
  { injection Hrl as <- <-. change (0 <? Z.of_nat 0) with false. wsteps. apply Hlock. wsteps. rewrite app_nil_r.
    split_and!; try done. f_equal. lia. }
  rewrite (proj2 (Z.ltb_lt 0 _)) by lia. cbn [read_line] in Hrl.
  destruct (finished i) as [|c fs] eqn:Ef; [done|].
  destruct (in_take i c fs Hi Ef) as (Hne & Hat & Hi' & Ef' & Ee'). wsteps. cbn [cn_in].
  rewrite (proj2 (Z.eqb_neq _ _) Hne), Hat. wsteps. cbn [cn_set_in cn_fs cn_out].
  destruct (c =? ctl 68).
  - injection Hrl as <- <-. rewrite app_nil_r.
    destruct (bool_decide_reflect (dst <> [])) as [Hd|Hd].
    + assert (0 < length dst)%nat by (destruct dst; [done|cbn; lia]).
      rewrite (proj2 (Z.ltb_lt _ _)) by lia. wsteps. apply Hlock. wsteps. split_and!; try done; f_equal; lia.
    + assert (dst = []) as -> by (destruct dst; [done|by destruct Hd]). cbn [length] in Ht.
      rewrite (proj2 (Z.ltb_ge _ _)) by lia. wsteps. apply Hlock. wsteps. split_and!; try done; f_equal; cbn; lia.
  - destruct (Z.eqb_spec c 10) as [->|Hc].
    + injection Hrl as <- <-. wsteps. apply Hlock. wsteps. rewrite length_app. split_and!; try done; f_equal; cbn; lia.
    + destruct (read_line n true fs) as [[f' r']|] eqn:Er; [|done]. injection Hrl as <- <-. wsteps.
      replace (Z.of_nat (S n) - 1) with (Z.of_nat n) by lia.
      eapply wp_mono; [refine (IH (dst ++ [c]) (in_set_r (u32 (in_r i + 1)) i) f' Hi' _ _)|].
      * rewrite length_app. cbn. lia.
      * rewrite Ef'. rewrite bool_decide_true by (by destruct dst). done.
      * cbv beta. rewrite <- app_assoc, Ee'. done.
Qed.

(** [consoleread] on a locked console inode, with enough input: the bytes of
    [read_line], and the rest stays. *)
Lemma consoleread_spec ip b l i0 n i out f r :
  l !! ip = Some i0 -> i_flags i0 = Z.lor I_BUSY I_VALID -> 1 <= i_ref i0 -> input_ok i ->
  read_line n false (finished i) = Some (f, r) ->
  wp (consoleread ip (Z.of_nat n)) (fun res s' =>
    res = (Z.of_nat (length f), f) /\ input_ok (cn_in s') /\
    finished (cn_in s') = r /\ editing (cn_in s') = editing i /\ cn_out s' = out /\
    fs_inode (cn_fs s') = l /\ pt_frame (bio_pt b) (bio_pt (fs_bio (cn_fs s')))) (Con (Fs b l) i out).
Proof.
  intros Hip Hfl Hr Hi Hrl. unfold consoleread. apply wp_bind, wp_zoom. cbn [lget fs_of_con cn_fs].
  unfold wp at 1. rewrite (iunlock_eq (Fs b l) ip i0) by done. cbn [lset fs_of_con cn_set_fs cn_in cn_out fs_bio fs_inode].
  set (b' := bio_set_pt _ _). set (i1 := i_set_flags I_VALID i0).
  assert (<[ip := i1]> l !! ip = Some i1) as Hip1 by (by eapply lookup_set_inode).
  eapply wp_mono; [apply (consoleread_loop ip b' _ i1 (Z.of_nat n) [] n i out f r Hip1 eq_refl Hr Hi eq_refl Hrl)|].
  cbv beta. intros res s' (-> & ? & ? & ? & ? & ->). cbn [fs_inode fs_bio]. split_and!; try done.
  - rewrite list_insert_insert_eq. apply list_insert_id. rewrite Hip. f_equal. unfold i1.
    destruct i0. cbn in *. by rewrite Hfl.
  - apply pt_frame_wakeup1.
Qed.

(** ** printint *)

Definition digit_val (d : Z) : Z := if d <? 58 then d - 48 else d - 87.
Definition digits_val (base : Z) (ds : list Z) : Z :=
  foldr (fun d acc => digit_val d + base * acc) 0 ds.

Lemma digit_val_digits k : 0 <= k < 16 -> digit_val (nthb digits k) = k.
Proof.
  intros Hk. assert (forallb (fun k => digit_val (nthb digits k) =? k) (seqZ 0 16) = true) as H by done.
  rewrite forallb_forall in H. apply Z.eqb_eq, H, list_elem_of_In, elem_of_seqZ. lia.
Qed.

(** The loop writes the digits of [x] and stops in time. *)
Lemma printint_loop_spec n fuel x base :
  2 <= base <= 16 -> 0 <= x < base ^ Z.of_nat (S n) -> (n < fuel)%nat ->
  digits_val base (printint_loop fuel x base) = x /\ (length (printint_loop fuel x base) <= S n)%nat.
Proof.
  intros Hb. revert fuel x. induction n as [|n IH]; intros fuel x Hx Hf; (destruct fuel as [|fuel]; [lia|]);
    cbn [printint_loop digits_val foldr length]; pose proof (Z.mod_pos_bound x base ltac:(lia)) as Hm;
    pose proof (Z.div_mod x base ltac:(lia)) as Hd; rewrite digit_val_digits by lia.
  - change (Z.of_nat 1) with 1 in Hx. rewrite Z.pow_1_r in Hx. rewrite Z.div_small by lia. cbn [Z.eqb foldr length].
    rewrite Z.mod_small by lia. lia.
  - destruct (Z.eqb_spec (x / base) 0) as [E|E]; cbn [foldr length].
    + rewrite E in Hd. lia.
    + destruct (IH fuel (x / base)) as [Hv Hl]; [|lia|unfold digits_val in Hv; rewrite Hv; lia].
      split; [apply Z.div_pos; lia|]. apply Z.div_lt_upper_bound; [lia|].
      rewrite (Nat2Z.inj_succ (S n)), Z.pow_succ_r in Hx by lia. lia.
Qed.

(** Reading the characters back: an optional minus sign and digits. *)
Definition parse_int (base : Z) (cs : list Z) : Z :=
  match cs with
  | 45 :: ds => - digits_val base (reverse ds)
  | ds => digits_val base (reverse ds)
  end.

Lemma digits_not_minus d : d ∈ digits -> d <> 45.
Proof. intros H ->. apply list_elem_of_In in H. cbn in H. intuition lia. Qed.

Lemma printint_loop_digits fuel x base :
  2 <= base <= 16 -> Forall (fun d => d ∈ digits) (printint_loop fuel x base).
Proof.
  intros Hb. revert x. induction fuel as [|fuel IH]; intros x; cbn [printint_loop]; [done|].
  pose proof (Z.mod_pos_bound x base ltac:(lia)) as Hm. constructor; [|by destruct (x / base =? 0); auto].
  unfold nthb. destruct (lookup_lt_is_Some_2 digits (Z.to_nat (x mod base))) as [d Hd]; [cbn; lia|].
  rewrite Hd. by eapply list_elem_of_lookup_2.
Qed.

Lemma printint_spec xx base sign n :
  2 <= base <= 16 -> - 2 ^ 31 <= xx < 2 ^ 31 -> 2 ^ 32 <= base ^ Z.of_nat (S n) -> (n < 32)%nat ->
  parse_int base (printint xx base sign) = (if sign then xx else u32 xx) /\
  (length (printint xx base sign) <= S (S n))%nat.
Proof.
  intros Hb Hx Hn Hf. unfold printint. set (neg := sign && (xx <? 0)). set (x := if neg then _ else _).
  assert (0 <= x < base ^ Z.of_nat (S n)) as Hr.
  { unfold x. pose proof (u32_range (- xx)). pose proof (u32_range xx). destruct neg; lia. }
  destruct (printint_loop_spec n 32 x base Hb Hr Hf) as [Hv Hl].
  pose proof (printint_loop_digits 32 x base Hb) as Hds. set (ds := printint_loop 32 x base) in *. clearbody ds.
  rewrite length_reverse, length_app. split; [|destruct neg; cbn; lia].
  destruct neg eqn:En.
  - rewrite reverse_app. change (reverse [45] ++ reverse ds) with (45 :: reverse ds). cbn [parse_int].
    rewrite reverse_involutive, Hv. apply andb_prop in En as [-> En]. apply Z.ltb_lt in En. unfold x.
    rewrite u32_small by lia. lia.
  - rewrite app_nil_r. assert (parse_int base (reverse ds) = digits_val base ds) as ->.
    { rewrite <- (reverse_involutive ds) at 2. destruct (reverse ds) as [|d l] eqn:Er; [done|].
      assert (d <> 45) as Hd.
      { apply digits_not_minus. rewrite Forall_forall in Hds. apply Hds, elem_of_reverse. rewrite Er. left. }
      unfold parse_int. repeat case_match; done. }
    rewrite Hv. unfold x. destruct sign; [|done]. apply andb_false_iff in En as [En|En]; [done|].
    apply Z.ltb_ge in En. rewrite u32_small; lia.
Qed.

(** ** The screen *)

(** The cursor stays on the 24 rows above the last cell written. *)
Definition cga_ok (g : cga) : Prop := 0 <= cg_pos g < 24 * 80 /\ length (cg_crt g) = Z.to_nat (25 * 80).

Lemma cgaputc_ok c g : cga_ok g -> cga_ok (cgaputc c g).
Proof.
  intros [Hp Hl]. unfold cga_ok, cgaputc. pose proof (Z.mod_pos_bound (cg_pos g) 80 ltac:(lia)) as Hm.
  pose proof (Z.div_mod (cg_pos g) 80 ltac:(lia)) as Hd.
  set (st := if c =? 10 then _ else _).
  assert (0 <= st.1 <= 24 * 80 /\ length st.2 = Z.to_nat (25 * 80)) as [Hs1 Hs2].
  { unfold st. destruct (c =? 10); [cbn [fst snd]; split; [|done]; assert (cg_pos g / 80 < 24) by (apply Z.div_lt_upper_bound; lia); lia|].
    destruct (c =? BACKSPACE); [cbn [fst snd]; split; [destruct (Z.ltb_spec 0 (cg_pos g)); lia|done]|].
    cbn [fst snd]. rewrite length_insert. split; [lia|done]. }
  destruct st as [pos crt]. cbn [fst snd] in *.
  destruct (Z.leb_spec 24 (pos / 80)) as [H24|H24]; cbn [cg_pos cg_crt]; rewrite length_insert, ?length_splice.
  - split; [|done]. pose proof (Z.mul_div_le pos 80 ltac:(lia)). lia.
  - split; [|done]. pose proof (Z.mul_succ_div_gt pos 80 ltac:(lia)). lia.
Qed.
