(* ===== verification/Kbd.v ===== *)
(** * The keyboard (kernel/kbd.c, kernel/kbd.h)

    [kbdgetc] turns scan codes into characters, with the state of the shift
    and lock keys in one word. *)

From S2P Require Import Prelude Monad Params Ide Bio Inode Console.

(** ** kernel/kbd.h *)

Definition SHIFT : Z := 1.
Definition CTL : Z := 2.
Definition ALT : Z := 4.
Definition CAPSLOCK : Z := 8.
Definition NUMLOCK : Z := 16.
Definition SCROLLLOCK : Z := 32.
Definition E0ESC : Z := 64.

(** A table of 256 bytes: the first ones in order, and some by index. *)
Definition table (first : list Z) (extra : list (Z * Z)) : list Z :=
  foldl (fun t '(k, v) => <[Z.to_nat k := v]> t)
    (first ++ zeros (256 - Z.of_nat (length first))) extra.

Definition shiftcode : list Z := Eval vm_compute in
  table []
   [(0x1d, 2); (0x2a, 1); (0x36, 1); (0x38, 4); (0x9d, 2); (0xb8, 4)].

Definition togglecode : list Z := Eval vm_compute in
  table []
   [(0x3a, 8); (0x45, 16); (0x46, 32)].

Definition normalmap : list Z := Eval vm_compute in
  table [0; 27; 49; 50; 51; 52; 53; 54; 55; 56; 57; 48; 45; 61; 8; 9;
   113; 119; 101; 114; 116; 121; 117; 105; 111; 112; 91; 93; 10; 0; 97; 115;
   100; 102; 103; 104; 106; 107; 108; 59; 39; 96; 0; 92; 122; 120; 99; 118;
   98; 110; 109; 44; 46; 47; 0; 42; 0; 32; 0; 0; 0; 0; 0; 0;
   0; 0; 0; 0; 0; 0; 0; 55; 56; 57; 45; 52; 53; 54; 43; 49;
   50; 51; 48; 46; 0; 0; 0; 0]
   [(0x9c, 10); (0xb5, 47); (0xc8, 226); (0xd0, 227); (0xc9, 230); (0xd1, 231); (0xcb, 228); (0xcd, 229); (0x97, 224); (0xcf, 225); (0xd2, 232); (0xd3, 233)].

Definition shiftmap : list Z := Eval vm_compute in
  table [0; 27; 33; 64; 35; 36; 37; 94; 38; 42; 40; 41; 95; 43; 8; 9;
   81; 87; 69; 82; 84; 89; 85; 73; 79; 80; 123; 125; 10; 0; 65; 83;
   68; 70; 71; 72; 74; 75; 76; 58; 34; 126; 0; 124; 90; 88; 67; 86;
   66; 78; 77; 60; 62; 63; 0; 42; 0; 32; 0; 0; 0; 0; 0; 0;
   0; 0; 0; 0; 0; 0; 0; 55; 56; 57; 45; 52; 53; 54; 43; 49;
   50; 51; 48; 46; 0; 0; 0; 0]
   [(0x9c, 10); (0xb5, 47); (0xc8, 226); (0xd0, 227); (0xc9, 230); (0xd1, 231); (0xcb, 228); (0xcd, 229); (0x97, 224); (0xcf, 225); (0xd2, 232); (0xd3, 233)].

Definition ctlmap : list Z := Eval vm_compute in
  table [0; 0; 0; 0; 0; 0; 0; 0; 0; 0; 0; 0; 0; 0; 0; 0;
   17; 23; 5; 18; 20; 25; 21; 9; 15; 16; 0; 0; 13; 0; 1; 19;
   4; 6; 7; 8; 10; 11; 12; 0; 0; 0; 0; 28; 26; 24; 3; 22;
   2; 14; 13; 0; 0; 239; 0; 0]
   [(0x9c, 13); (0xb5, 239); (0xc8, 226); (0xd0, 227); (0xc9, 230); (0xd1, 231); (0xcb, 228); (0xcd, 229); (0x97, 224); (0xcf, 225); (0xd2, 232); (0xd3, 233)].

(** ** kbd.c *)

(** The character the key at [data] gives. *)
Definition charcode (sel : Z) : list Z :=
  if sel =? 0 then normalmap else if sel =? 1 then shiftmap else ctlmap.

Definition capslock (c : Z) : Z :=
  if (97 <=? c) && (c <=? 122) then c + (65 - 97)
  else if (65 <=? c) && (c <=? 90) then c + (97 - 65)
  else c.

(** [kbdgetc] with a byte [data] in the controller: the character and the new
    [shift]. *)
Definition kbd_data (shift data : Z) : Z * Z :=
  if data =? 0xE0 then (0, Z.lor shift E0ESC)
  else if negb (Z.land data 0x80 =? 0) then
    let data := if negb (Z.land shift E0ESC =? 0) then data else Z.land data 0x7F in
    (0, Z.ldiff shift (Z.lor (nthb shiftcode data) E0ESC))
  else
    let esc := negb (Z.land shift E0ESC =? 0) in
    let data := if esc then Z.lor data 0x80 else data in
    let shift := if esc then Z.ldiff shift E0ESC else shift in
    let shift := Z.lor shift (nthb shiftcode data) in
    let shift := Z.lxor shift (nthb togglecode data) in
    let c := nthb (charcode (Z.land shift (Z.lor CTL SHIFT))) data in
    ((if negb (Z.land shift CAPSLOCK =? 0) then capslock c else c), shift).

(** The characters of a run of the interrupt handler: [getc] is called until
    the controller has no byte left. *)
Fixpoint kbd_chars (shift : Z) (ports : list Z) : list Z * Z :=
  match ports with
  | [] => ([], shift)
  | d :: ports =>
      let '(c, shift) := kbd_data shift d in
      let '(cs, shift) := kbd_chars shift ports in (c :: cs, shift)
  end.

Definition kbdintr (shift : Z) (ports : list Z) : M con Z :=
  let '(cs, shift) := kbd_chars shift ports in
  consoleintr cs;;; ret shift.

(** ** Lemmas *)

(** A property of a shift state and a scan code, checked for all of them. *)
Lemma all_codes (f : Z -> Z -> bool) :
  forallb (fun s => forallb (f s) (seqZ 0 256)) (seqZ 0 128) = true ->
  forall s d, 0 <= s < 128 -> 0 <= d < 256 -> f s d = true.
Proof.
  intros H s d Hs Hd. rewrite forallb_forall in H. specialize (H s). rewrite forallb_forall in H.
  apply H; apply list_elem_of_In, elem_of_seqZ; lia.
Qed.

(** Every scan code gives a byte and keeps the shift state in its seven
    bits. *)
Lemma kbd_data_range s d :
  0 <= s < 128 -> 0 <= d < 256 -> is_byte (kbd_data s d).1 /\ 0 <= (kbd_data s d).2 < 128.
Proof.
  intros Hs Hd.
  pose proof (all_codes (fun s d => let '(c, s') := kbd_data s d in
    (0 <=? c) && (c <? 256) && (0 <=? s') && (s' <? 128)) ltac:(by vm_compute) s d Hs Hd) as H.
  cbv beta in H. destruct (kbd_data s d) as [c s']. cbn [fst snd]. rewrite !andb_true_iff in H.
  unfold is_byte. lia.
Qed.

(** Pressing and releasing a key that is no lock leaves the shift state as it
    was, without the key's own modifier. *)
Lemma kbd_press_release s d :
  0 <= s < 64 -> 0 <= d < 0x60 -> nthb togglecode d = 0 ->
  (kbd_data (kbd_data s d).2 (Z.lor d 0x80)).2 = Z.ldiff s (nthb shiftcode d).
Proof.
  intros Hs Hd Ht.
  pose proof (all_codes (fun s d => negb (s <? 64) || negb (d <? 0x60) || negb (nthb togglecode d =? 0) ||
    ((kbd_data (kbd_data s d).2 (Z.lor d 0x80)).2 =? Z.ldiff s (nthb shiftcode d))) ltac:(by vm_compute) s d
    ltac:(lia) ltac:(lia)) as H. cbv beta in H.
  rewrite (proj2 (Z.ltb_lt s 64)), (proj2 (Z.ltb_lt d 0x60)), Ht in H by lia. by apply Z.eqb_eq in H.
Qed.

Lemma kbd_chars_range s ports :
  0 <= s < 128 -> Forall is_byte ports -> Forall is_byte (kbd_chars s ports).1 /\ 0 <= (kbd_chars s ports).2 < 128.
Proof.
  revert s. induction ports as [|d ports IH]; intros s Hs Hp; cbn [kbd_chars]; [done|].
  inversion_clear Hp as [|? ? Hd Hp']. destruct (kbd_data_range s d Hs Hd) as [Hc Hs'].
  destruct (kbd_data s d) as [c s']. destruct (IH s' Hs' Hp') as [H1 H2].
  destruct (kbd_chars s' ports) as [cs s'']. cbn [fst snd] in *. by split; [constructor|].
Qed.

(** A keyboard interrupt types the characters of the scan codes. *)
Lemma kbdintr_spec s shift ports :
  input_ok (cn_in s) -> 0 <= shift < 128 -> Forall is_byte ports ->
  wp (kbdintr shift ports) (fun shift' s' =>
    shift' = (kbd_chars shift ports).2 /\ 0 <= shift' < 128 /\ input_ok (cn_in s') /\
    (finished (cn_in s'), editing (cn_in s')) =
      foldl (fun q c => type_char c q) (finished (cn_in s), editing (cn_in s)) (kbd_chars shift ports).1) s.
Proof.
  intros Hi Hs Hp. unfold kbdintr. destruct (kbd_chars_range shift ports Hs Hp) as [Hc Hs'].
  destruct (kbd_chars shift ports) as [cs shift']. cbn [fst snd] in *.
  wcall consoleintr_spec; [done|done|]. cbv beta. intros _ s' (? & ? & _). by wsteps.
Qed.
