(* ===== verification/Intr.v ===== *)
(** * Interrupt controllers, timer and serial port (kernel/picirq.c,
      kernel/ioapic.c, kernel/timer.c, kernel/uart.c)

    The drivers write to ports; the chips behind the ports are modelled as
    far as the drivers program them: the initialisation words, the mask and
    the cascade of the two 8259A controllers, the redirection table of the
    I/O APIC, the counter of the 8253 and the 8250 with a transmitter that
    needs some polls for a byte. *)

From S2P Require Import Prelude Monad Params Console.

(** ** The 8259A *)

(** [pc_next] is the initialisation word the data port expects, 0 when the
    chip operates; the words written; the interrupt mask; and the special mask
    mode and the register to read that OCW3 selects. *)
Record pic := Pic {
  pc_next : Z; pc_icw1 : Z; pc_base : Z; pc_icw3 : Z; pc_icw4 : Z; pc_imr : Z; pc_smm : bool; pc_rr : Z;
}.

Definition pic_icw4 (icw1 : Z) : Z := if Z.testbit icw1 0 then 4 else 0.

(** The command port: ICW1 has bit 4 set, OCW3 bit 3. *)
Definition pic_cmd (v : Z) (p : pic) : pic :=
  if Z.testbit v 4 then Pic 2 v (pc_base p) 0 0 0 false 2
  else if Z.testbit v 3 then
    Pic (pc_next p) (pc_icw1 p) (pc_base p) (pc_icw3 p) (pc_icw4 p) (pc_imr p)
      (if Z.testbit v 6 then Z.testbit v 5 else pc_smm p) (if Z.testbit v 1 then Z.land v 3 else pc_rr p)
  else p.

(** The data port: the initialisation words in order, then the mask. *)
Definition pic_data (v : Z) (p : pic) : pic :=
  let icw1 := pc_icw1 p in
  if pc_next p =? 2 then
    Pic (if Z.testbit icw1 1 then pic_icw4 icw1 else 3) icw1 (Z.land v 0xf8) (pc_icw3 p) (pc_icw4 p) (pc_imr p) (pc_smm p) (pc_rr p)
  else if pc_next p =? 3 then
    Pic (pic_icw4 icw1) icw1 (pc_base p) v (pc_icw4 p) (pc_imr p) (pc_smm p) (pc_rr p)
  else if pc_next p =? 4 then
    Pic 0 icw1 (pc_base p) (pc_icw3 p) v (pc_imr p) (pc_smm p) (pc_rr p)
  else Pic (pc_next p) icw1 (pc_base p) (pc_icw3 p) (pc_icw4 p) v (pc_smm p) (pc_rr p).

(** A line the chip passes on, in 8086 mode. *)
Definition pic_line (k : Z) (p : pic) : bool :=
  (pc_next p =? 0) && Z.testbit (pc_icw4 p) 0 && negb (Z.testbit (pc_imr p) k).

(** The vector the pair of chips gives the processor for line [irq] of the
    machine; 0 to 7 on the master, 8 to 15 on the slave. *)
Definition pic_vector (m s : pic) (irq : Z) : option Z :=
  if irq <? 8 then
    if pic_line irq m && negb (Z.testbit (pc_icw3 m) irq) then Some (pc_base m + irq) else None
  else
    let k := Z.land (pc_icw3 s) 7 in
    if pic_line (irq - 8) s && pic_line k m && Z.testbit (pc_icw3 m) k then Some (pc_base s + (irq - 8)) else None.

(** ** The I/O APIC *)

Record ioapic := Ioapic { ia_sel : Z; ia_reg : Z -> Z }.

(** Vector and APIC number of the processor for an input line. *)
Definition REG_ID : Z := 0x00.
Definition REG_VER : Z := 0x01.
Definition REG_TABLE : Z := 0x10.
Definition INT_DISABLED : Z := 0x00010000.
Definition ioapic_route (c : ioapic) (irq : Z) : option (Z * Z) :=
  let lo := ia_reg c (REG_TABLE + 2 * irq) in
  if Z.testbit lo 16 then None else Some (Z.land lo 0xff, Z.shiftr (ia_reg c (REG_TABLE + 2 * irq + 1)) 24).

(** The number of lines, from the version register. *)
Definition ioapic_lines (c : ioapic) : Z := Z.land (Z.shiftr (ia_reg c REG_VER) 16) 0xff + 1.

(** ** The 8253 timer *)

(** The last mode word, and the bytes of the count written since. *)
Record pit := Pit { pt_mode : Z; pt_count : list Z }.

(** The period of counter 0 in ticks of the clock: a rate generator with the
    count written low byte first. *)
Definition pit_period (t : pit) : option Z :=
  match pt_count t with
  | [lo; hi] => if pt_mode t =? 0x34 then Some (lo + 256 * hi) else None
  | _ => None
  end.

(** ** The 8250 serial port *)

(** The registers; bytes received and not read; bytes that left the port; and
    the number of polls for which the transmitter still holds the last byte.
    A byte needs [ua_slow] polls, and a byte written before it is gone
    overwrites it. *)
Record uart_chip := Uart {
  ua_present : bool;
  ua_fcr : Z; ua_lcr : Z; ua_mcr : Z; ua_ier : Z; ua_dll : Z; ua_dlm : Z;
  ua_rx : list Z; ua_sent : list Z; ua_busy : nat; ua_slow : nat;
}.

Definition uart_write (k v : Z) (u : uart_chip) : uart_chip :=
  let 'Uart p f l m i dl dm rx tx b w := u in
  let dlab := Z.testbit l 7 in
  if negb p then u
  else if k =? 0 then
    if dlab then Uart p f l m i v dm rx tx b w
    else Uart p f l m i dl dm rx ((if decide (b = 0%nat) then tx else take (length tx - 1) tx) ++ [v]) w w
  else if k =? 1 then if dlab then Uart p f l m i dl v rx tx b w else Uart p f l m v dl dm rx tx b w
  else if k =? 2 then Uart p v l m i dl dm rx tx b w
  else if k =? 3 then Uart p f v m i dl dm rx tx b w
  else if k =? 4 then Uart p f l v i dl dm rx tx b w
  else u.

(** A read: nothing answers for a port that is not there. *)
Definition uart_read (k : Z) (u : uart_chip) : Z * uart_chip :=
  let 'Uart p f l m i dl dm rx tx b w := u in
  if negb p then (0xff, u)
  else if k =? 0 then
    if Z.testbit l 7 then (dl, u) else (default 0 (head rx), Uart p f l m i dl dm (tail rx) tx b w)
  else if k =? 5 then
    (Z.lor (if decide (rx = []) then 0 else 0x01) (if decide (b = 0%nat) then 0x60 else 0),
     Uart p f l m i dl dm rx tx (b - 1) w)
  else (0, u).

(** ** The drivers *)

(** The chips; [irqmask] of picirq.c and [uart] of uart.c; [ismp] and
    [ioapicid] as mp.c leaves them; and whether [ioapicinit] complained. *)
Record io := Io {
  io_pic1 : pic; io_pic2 : pic; io_apic : ioapic; io_pit : pit; io_com1 : uart_chip;
  irqmask : Z; uart : Z; ismp : Z; ioapicid : Z; io_warned : bool;
}.
Definition io_set_pic1 v s := Io v (io_pic2 s) (io_apic s) (io_pit s) (io_com1 s) (irqmask s) (uart s) (ismp s) (ioapicid s) (io_warned s).
Definition io_set_pic2 v s := Io (io_pic1 s) v (io_apic s) (io_pit s) (io_com1 s) (irqmask s) (uart s) (ismp s) (ioapicid s) (io_warned s).
Definition io_set_apic v s := Io (io_pic1 s) (io_pic2 s) v (io_pit s) (io_com1 s) (irqmask s) (uart s) (ismp s) (ioapicid s) (io_warned s).
Definition io_set_pit v s := Io (io_pic1 s) (io_pic2 s) (io_apic s) v (io_com1 s) (irqmask s) (uart s) (ismp s) (ioapicid s) (io_warned s).
Definition io_set_com1 v s := Io (io_pic1 s) (io_pic2 s) (io_apic s) (io_pit s) v (irqmask s) (uart s) (ismp s) (ioapicid s) (io_warned s).
Definition io_set_irqmask v s := Io (io_pic1 s) (io_pic2 s) (io_apic s) (io_pit s) (io_com1 s) v (uart s) (ismp s) (ioapicid s) (io_warned s).
Definition io_set_uart v s := Io (io_pic1 s) (io_pic2 s) (io_apic s) (io_pit s) (io_com1 s) (irqmask s) v (ismp s) (ioapicid s) (io_warned s).
Definition io_warn s := Io (io_pic1 s) (io_pic2 s) (io_apic s) (io_pit s) (io_com1 s) (irqmask s) (uart s) (ismp s) (ioapicid s) true.

Definition IO_PIC1 : Z := 0x20.
Definition IO_PIC2 : Z := 0xA0.
Definition IRQ_SLAVE : Z := 2.
Definition COM1 : Z := 0x3f8.
Definition IO_TIMER1 : Z := 0x040.
Definition TIMER_MODE : Z := IO_TIMER1 + 3.

Definition outb (port data : Z) : M io unit :=
  let v := u8 data in
  modify (fun s =>
    if port =? IO_PIC1 then io_set_pic1 (pic_cmd v (io_pic1 s)) s
    else if port =? IO_PIC1 + 1 then io_set_pic1 (pic_data v (io_pic1 s)) s
    else if port =? IO_PIC2 then io_set_pic2 (pic_cmd v (io_pic2 s)) s
    else if port =? IO_PIC2 + 1 then io_set_pic2 (pic_data v (io_pic2 s)) s
    else if port =? TIMER_MODE then io_set_pit (Pit v []) s
    else if port =? IO_TIMER1 then io_set_pit (Pit (pt_mode (io_pit s)) (pt_count (io_pit s) ++ [v])) s
    else if (COM1 <=? port) && (port <? COM1 + 8) then io_set_com1 (uart_write (port - COM1) v (io_com1 s)) s
    else s).

(** Of the ports the drivers read, all are of the serial port. *)
Definition inb (port : Z) : M io Z := fun s =>
  let '(v, u) := uart_read (port - COM1) (io_com1 s) in Ret v (io_set_com1 u s).

(** *** picirq.c *)

Definition irqmask0 : Z := Z.land 0xFFFF (Z.lnot (Z.shiftl 1 IRQ_SLAVE)).

Definition picsetmask (mask : Z) : M io unit :=
  let mask := u16 mask in
  modify (io_set_irqmask mask);;;
  outb (IO_PIC1 + 1) mask;;;
  outb (IO_PIC2 + 1) (Z.shiftr mask 8).

Definition picenable (irq : Z) : M io unit :=
  let! m := gets irqmask in
  picsetmask (Z.land m (Z.lnot (Z.shiftl 1 irq))).

Definition picinit : M io unit :=
  outb (IO_PIC1 + 1) 0xFF;;;
  outb (IO_PIC2 + 1) 0xFF;;;
  outb IO_PIC1 0x11;;;
  outb (IO_PIC1 + 1) T_IRQ0;;;
  outb (IO_PIC1 + 1) (Z.shiftl 1 IRQ_SLAVE);;;
  outb (IO_PIC1 + 1) 0x3;;;
  outb IO_PIC2 0x11;;;
  outb (IO_PIC2 + 1) (T_IRQ0 + 8);;;
  outb (IO_PIC2 + 1) IRQ_SLAVE;;;
  outb (IO_PIC2 + 1) 0x3;;;
  outb IO_PIC1 0x68;;;
  outb IO_PIC1 0x0a;;;
  outb IO_PIC2 0x68;;;
  outb IO_PIC2 0x0a;;;
  let! m := gets irqmask in
  if negb (m =? 0xFFFF) then picsetmask m else ret tt.

(** *** ioapic.c *)

Definition ioapicread (reg : Z) : M io Z :=
  modify (fun s => io_set_apic (Ioapic reg (ia_reg (io_apic s))) s);;;
  gets (fun s => ia_reg (io_apic s) (ia_sel (io_apic s))).

Definition ioapicwrite (reg data : Z) : M io unit :=
  modify (fun s => io_set_apic (Ioapic reg (ia_reg (io_apic s))) s);;;
  modify (fun s =>
    let c := io_apic s in
    io_set_apic (Ioapic (ia_sel c) (fun r => if r =? ia_sel c then u32 data else ia_reg c r)) s).

Definition ioapicinit : M io unit :=
  let! mp := gets ismp in
  if mp =? 0 then ret tt
  else
    let! ver := ioapicread REG_VER in
    let maxintr := Z.land (Z.shiftr ver 16) 0xFF in
    let! i := ioapicread REG_ID in
    let! want := gets ioapicid in
    (if negb (Z.shiftr i 24 =? want) then modify io_warn else ret tt);;;
    for_each (seqZ 0 (maxintr + 1)) (fun i =>
      ioapicwrite (REG_TABLE + 2 * i) (Z.lor INT_DISABLED (T_IRQ0 + i));;;
      ioapicwrite (REG_TABLE + 2 * i + 1) 0).

Definition ioapicenable (irq cpunum : Z) : M io unit :=
  let! mp := gets ismp in
  if mp =? 0 then ret tt
  else
    ioapicwrite (REG_TABLE + 2 * irq) (T_IRQ0 + irq);;;
    ioapicwrite (REG_TABLE + 2 * irq + 1) (Z.shiftl cpunum 24).

(** *** timer.c *)

Definition TIMER_FREQ : Z := 1193182.
Definition TIMER_DIV (x : Z) : Z := (TIMER_FREQ + x / 2) / x.
Definition TIMER_SEL0 : Z := 0x00.
Definition TIMER_RATEGEN : Z := 0x04.
Definition TIMER_16BIT : Z := 0x30.

Definition timerinit : M io unit :=
  outb TIMER_MODE (Z.lor (Z.lor TIMER_SEL0 TIMER_RATEGEN) TIMER_16BIT);;;
  outb IO_TIMER1 (TIMER_DIV 100 mod 256);;;
  outb IO_TIMER1 (TIMER_DIV 100 / 256);;;
  picenable IRQ_TIMER.

(** *** uart.c *)

Definition uart_poll (_ : Z) : M io (option unit) :=
  let! st := inb (COM1 + 5) in
  ret (if Z.land st 0x20 =? 0 then None else Some tt).

Definition uartputc (c : Z) : M io unit :=
  let! u := gets uart in
  if u =? 0 then ret tt
  else
    let! _ := for_find (seqZ 0 128) uart_poll in
    outb (COM1 + 0) c.

(** "xv6...\n" *)
Definition xv6_hello : list Z := [120; 118; 54; 46; 46; 46; 10].

Definition uartinit : M io unit :=
  outb (COM1 + 2) 0;;;
  outb (COM1 + 3) 0x80;;;
  outb (COM1 + 0) (115200 / 9600);;;
  outb (COM1 + 1) 0;;;
  outb (COM1 + 3) 0x03;;;
  outb (COM1 + 4) 0;;;
  outb (COM1 + 1) 0x01;;;
  let! st := inb (COM1 + 5) in
  if st =? 0xFF then ret tt
  else
    modify (io_set_uart 1);;;
    let! _ := inb (COM1 + 2) in
    let! _ := inb (COM1 + 0) in
    picenable IRQ_COM1;;;
    ioapicenable IRQ_COM1 0;;;
    for_each xv6_hello uartputc.

Definition uartgetc : M io Z :=
  let! u := gets uart in
  if u =? 0 then ret (-1)
  else
    let! st := inb (COM1 + 5) in
    if Z.land st 0x01 =? 0 then ret (-1) else inb (COM1 + 0).

(** The characters [consoleintr(uartgetc)] reads: until [uartgetc] has
    none. *)
Definition uart_step (cs : list Z) : M io (list Z + list Z) :=
  let! c := uartgetc in ret (if 0 <=? c then inl (cs ++ [c]) else inr cs).
Definition uart_chars : M io (list Z) := fun s => while_fuel (S (length (ua_rx (io_com1 s)))) uart_step [] s.

Definition io_of_console : lens (io * con) io := Lens fst (fun i s => (i, s.2)).
Definition con_of_console : lens (io * con) con := Lens snd (fun c s => (s.1, c)).

Definition uartintr : M (io * con) unit :=
  let! cs := zoom io_of_console uart_chars in
  zoom con_of_console (consoleintr cs).

(** ** The 8259A pair *)

(** Both chips initialised, with mask [m]. *)
Definition pic_ready (m : Z) (s : io) : Prop :=
  0 <= m < 2 ^ 16 /\ irqmask s = m /\
  io_pic1 s = Pic 0 0x11 T_IRQ0 (2 ^ IRQ_SLAVE) 3 (u8 m) true 2 /\
  io_pic2 s = Pic 0 0x11 (T_IRQ0 + 8) IRQ_SLAVE 3 (u8 (Z.shiftr m 8)) true 2.

(** The drivers below leave the serial port, the timer and the I/O APIC as
    they are. *)
Definition same_rest (s s' : io) : Prop :=
  io_com1 s' = io_com1 s /\ uart s' = uart s /\ io_pit s' = io_pit s /\ ismp s' = ismp s.

Lemma picsetmask_spec m0 m s :
  0 <= m < 2 ^ 16 -> pic_ready m0 s ->
  wp (picsetmask m) (fun _ s' => pic_ready m s' /\ io_apic s' = io_apic s /\ same_rest s s') s.
Proof.
  intros Hm (_ & _ & E1 & E2). destruct s as [p1 p2 a t c i u mp id w]. cbn in E1, E2. subst p1 p2.
  unfold wp, pic_ready. cbn -[u8 u16 Z.shiftr Z.pow]. rewrite u16_small by done. done.
Qed.

(** Writes to the ports of the chips. *)
Section ports.
Context (a : ioapic) (t : pit) (c : uart_chip) (i u mp id : Z) (w : bool) (Q : unit -> io -> Prop) (p1 p2 : pic) (v : Z).
Lemma wp_pic1_cmd : Q tt (Io (pic_cmd (u8 v) p1) p2 a t c i u mp id w) -> wp (outb IO_PIC1 v) Q (Io p1 p2 a t c i u mp id w).
Proof. intros H. exact H. Qed.
Lemma wp_pic1_data : Q tt (Io (pic_data (u8 v) p1) p2 a t c i u mp id w) -> wp (outb (IO_PIC1 + 1) v) Q (Io p1 p2 a t c i u mp id w).
Proof. intros H. exact H. Qed.
Lemma wp_pic2_cmd : Q tt (Io p1 (pic_cmd (u8 v) p2) a t c i u mp id w) -> wp (outb IO_PIC2 v) Q (Io p1 p2 a t c i u mp id w).
Proof. intros H. exact H. Qed.
Lemma wp_pic2_data : Q tt (Io p1 (pic_data (u8 v) p2) a t c i u mp id w) -> wp (outb (IO_PIC2 + 1) v) Q (Io p1 p2 a t c i u mp id w).
Proof. intros H. exact H. Qed.
End ports.

Ltac wport :=
  apply wp_bind;
  match goal with
  | |- wp (outb (IO_PIC1 + 1) _) _ _ => apply wp_pic1_data
  | |- wp (outb (IO_PIC2 + 1) _) _ _ => apply wp_pic2_data
  | |- wp (outb IO_PIC1 _) _ _ => apply wp_pic1_cmd
  | |- wp (outb IO_PIC2 _) _ _ => apply wp_pic2_cmd
  end.

(** ICW1 starts the initialisation whatever the state of the chip. *)
Lemma pic_words v b3 p :
  pic_cmd 0x0a (pic_cmd 0x68 (pic_data 3 (pic_data b3 (pic_data v (pic_cmd 0x11 p))))) =
  Pic 0 0x11 (Z.land v 0xf8) b3 3 0 true 2.
Proof. reflexivity. Qed.

Lemma picinit_spec s :
  0 <= irqmask s < 0xffff -> wp picinit (fun _ s' => pic_ready (irqmask s) s' /\ io_apic s' = io_apic s /\ same_rest s s') s.
Proof.
  intros Hm. destruct s as [p1 p2 a t c i u mp id w]. cbn [irqmask] in *. unfold picinit.
  do 14 wport.
  change (u8 0x11) with 0x11. change (u8 0x3) with 3. change (u8 0x68) with 0x68. change (u8 0x0a) with 0x0a.
  rewrite !pic_words. wstep. wstep. cbn [irqmask]. zcase; [|lia].
  unfold picsetmask. wstep. wstep. cbv beta. unfold io_set_irqmask. cbn [io_pic1 io_pic2 io_apic io_pit io_com1 uart ismp ioapicid io_warned].
  wport. apply wp_pic2_data.
  rewrite u16_small by lia. split; [|done]. split_and!; [lia|lia|done| |]; done.
Qed.

Lemma ldiff_word m b : 0 <= m < 2 ^ 16 -> 0 <= Z.ldiff m b < 2 ^ 16.
Proof.
  intros Hm. rewrite <- (Z.mod_small m (2 ^ 16)) by done. rewrite <- Z.land_ones, Z.ldiff_land, <- Z.land_assoc by lia.
  rewrite (Z.land_comm (Z.ones 16)), Z.land_assoc, Z.land_ones by lia. by apply Z.mod_pos_bound.
Qed.

Lemma picenable_spec m k s :
  0 <= k -> pic_ready m s ->
  wp (picenable k) (fun _ s' => pic_ready (Z.ldiff m (2 ^ k)) s' /\ io_apic s' = io_apic s /\ same_rest s s') s.
Proof.
  intros Hk Hs. pose proof Hs as (Hm & Ei & _). unfold picenable. wsteps. rewrite Ei, Z.shiftl_1_l, <- Z.ldiff_land.
  apply (picsetmask_spec m); [by apply ldiff_word|done].
Qed.

(** A line whose mask bit is clear interrupts the processor with vector
    [T_IRQ0] plus its number, one on the slave through line 2 of the
    master. *)
Lemma pic_ready_vector m s irq :
  pic_ready m s -> Z.testbit m IRQ_SLAVE = false -> 0 <= irq < 16 ->
  pic_vector (io_pic1 s) (io_pic2 s) irq =
    if Z.testbit m irq || (irq =? IRQ_SLAVE) then None else Some (T_IRQ0 + irq).
Proof.
  intros (Hm & _ & -> & ->) Hs Hi. unfold pic_vector, pic_line. cbn [pc_next pc_icw4 pc_imr pc_icw3 pc_base Z.eqb].
  change (Z.testbit 3 0) with true. cbn [andb]. unfold u8. change (Z.land IRQ_SLAVE 7) with 2.
  destruct (irq <? 8) eqn:E; zbool.
  - rewrite Z.mod_pow2_bits_low by lia. rewrite Z.pow2_bits_eqb by done. rewrite (Z.eqb_sym IRQ_SLAVE).
    by destruct (Z.testbit m irq), (irq =? IRQ_SLAVE).
  - rewrite !Z.mod_pow2_bits_low by lia. rewrite Z.shiftr_spec by lia. replace (irq - 8 + 8) with irq by lia.
    change (Z.testbit m IRQ_SLAVE) with (Z.testbit m 2) in Hs. rewrite Hs. change (Z.testbit (2 ^ IRQ_SLAVE) 2) with true. destruct (Z.eqb_spec irq IRQ_SLAVE); [unfold IRQ_SLAVE in *; lia|].
    rewrite orb_false_r, !andb_true_r. destruct (Z.testbit m irq); [done|]. simpl. f_equal. lia.
Qed.

(** ** The I/O APIC *)

Lemma ioapicwrite_spec r d s :
  wp (ioapicwrite r d) (fun _ s' => s' = io_set_apic (Ioapic r (fun x => if x =? r then u32 d else ia_reg (io_apic s) x)) s) s.
Proof. done. Qed.

(** What the two writes for a line leave in the table. *)
Lemma ioapic_entry irq lo hi s :
  wp (ioapicwrite (REG_TABLE + 2 * irq) lo;;; ioapicwrite (REG_TABLE + 2 * irq + 1) hi) (fun _ s' =>
    ia_reg (io_apic s') (REG_TABLE + 2 * irq) = u32 lo /\ ia_reg (io_apic s') (REG_TABLE + 2 * irq + 1) = u32 hi /\
    (forall x, x <> REG_TABLE + 2 * irq -> x <> REG_TABLE + 2 * irq + 1 -> ia_reg (io_apic s') x = ia_reg (io_apic s) x) /\
    (exists a, s' = io_set_apic a s)) s.
Proof.
  wstep. eapply wp_mono; [apply ioapicwrite_spec|]. cbv beta. intros _ s1 ->.
  eapply wp_mono; [apply ioapicwrite_spec|]. cbv beta. intros _ s2 ->. cbn [io_apic io_set_apic ia_reg].
  split_and!.
  - rewrite (proj2 (Z.eqb_neq _ _)) by lia. by rewrite Z.eqb_refl.
  - by rewrite Z.eqb_refl.
  - intros x H1 H2. by rewrite !(proj2 (Z.eqb_neq _ _)) by lia.
  - by eexists.
Qed.

Definition apic_only (s s' : io) : Prop :=
  io_pic1 s' = io_pic1 s /\ io_pic2 s' = io_pic2 s /\ irqmask s' = irqmask s /\ same_rest s s'.

Lemma apic_only_ready m s s' : apic_only s s' -> pic_ready m s -> pic_ready m s'.
Proof. intros (E1 & E2 & E3 & _). unfold pic_ready. by rewrite E1, E2, E3. Qed.

Lemma route_ext c c' i :
  ia_reg c' (REG_TABLE + 2 * i) = ia_reg c (REG_TABLE + 2 * i) ->
  ia_reg c' (REG_TABLE + 2 * i + 1) = ia_reg c (REG_TABLE + 2 * i + 1) -> ioapic_route c' i = ioapic_route c i.
Proof. intros E1 E2. unfold ioapic_route. by rewrite E1, E2. Qed.

(** One line is routed to one processor; the others are as they were. *)
Lemma ioapicenable_spec irq cpu s :
  0 <= irq < 16 -> 0 <= cpu < 256 ->
  wp (ioapicenable irq cpu) (fun _ s' => apic_only s s' /\ forall i, ismp s <> 0 ->
    ioapic_route (io_apic s') i = if i =? irq then Some (T_IRQ0 + irq, cpu) else ioapic_route (io_apic s) i) s.
Proof.
  intros Hi Hc. unfold ioapicenable. wsteps. zcase; [wsteps; by split|].
  eapply wp_mono; [apply ioapic_entry|]. cbv beta. intros _ s' (E1 & E2 & E3 & a & ->). split; [done|]. intros i _.
  destruct (Z.eqb_spec i irq) as [->|Hne]; [|apply route_ext; apply E3; lia].
  unfold ioapic_route. rewrite E1, E2. unfold T_IRQ0. rewrite !u32_small by (rewrite ?Z.shiftl_mul_pow2; lia).
  assert (Z.testbit (32 + irq) 16 = false) as -> by (apply Z.testbit_false; [lia|]; by rewrite Z.div_small by lia).
  change 0xff with (Z.ones 8). rewrite Z.land_ones, Z.mod_small by lia. rewrite Z.shiftr_shiftl_l by lia. done.
Qed.

(** Every line of the table is masked. *)
Lemma ioapicinit_spec s :
  wp ioapicinit (fun _ s' => apic_only s s' /\ forall i, ismp s <> 0 -> 0 <= i < ioapic_lines (io_apic s) ->
    ioapic_route (io_apic s') i = None) s.
Proof.
  unfold ioapicinit. wsteps. zcase; [wsteps; by split|]. unfold ioapicread. wsteps. cbn [io_apic io_set_apic ia_reg ia_sel].
  fold (ioapic_lines (io_apic s)). set (n := ioapic_lines (io_apic s)).
  match goal with |- wp _ _ ?x => assert (apic_only s x) as H0 by done; revert H0; generalize x; intros s0 H0 end.
  match goal with |- wp ?m _ _ => assert (wp m (fun _ s' => apic_only s s') s0) as Hw by (zcase; done) end.
  eapply wp_mono; [exact Hw|]. cbv beta. clear s0 H0 Hw. intros _ s0 H0.
  apply (wp_for_each (fun pre s' => apic_only s s' /\ forall i, i ∈ pre -> ioapic_route (io_apic s') i = None)).
  - split; [done|]. intros i Hi. by apply elem_of_nil in Hi.
  - intros pre i post s1 Es (Hs1 & Hr). apply seqZ_split in Es. eapply wp_mono; [apply ioapic_entry|]. cbv beta.
    intros _ s2 (E1 & _ & E3 & a & ->). split; [done|]. intros j Hj. destruct (decide (j = i)) as [->|Hne].
    + unfold ioapic_route. rewrite E1. unfold u32. rewrite Z.mod_pow2_bits_low, Z.lor_spec by lia. done.
    + apply elem_of_app in Hj as [Hj|Hj]; [|by apply list_elem_of_singleton in Hj].
      rewrite <- (Hr j Hj). apply route_ext; apply E3; lia.
  - intros s1 (Hs1 & Hr). split; [done|]. intros i _ Hi. apply Hr, elem_of_seqZ. lia.
Qed.

(** ** The serial port *)

Definition ua_set_busy b '(Uart p f l m i dl dm rx tx _ w) : uart_chip := Uart p f l m i dl dm rx tx b w.
Definition ua_set_rx rx '(Uart p f l m i dl dm _ tx b w) : uart_chip := Uart p f l m i dl dm rx tx b w.
Definition ua_set_sent tx '(Uart p f l m i dl dm rx _ b w) : uart_chip := Uart p f l m i dl dm rx tx b w.

(** The port as [uartinit] leaves it: 9600 baud, 8 data bits, interrupts on
    received bytes, and a transmitter that is done within 128 polls. *)
Record uart_ready (u : uart_chip) : Prop := {
  ur_present : ua_present u = true;
  ur_baud : ua_dll u + 256 * ua_dlm u = 115200 / 9600;
  ur_lcr : ua_lcr u = 3;
  ur_ier : ua_ier u = 1;
  ur_fcr : ua_fcr u = 0;
  ur_busy : (ua_busy u <= 128)%nat;
  ur_slow : (ua_slow u <= 128)%nat;
}.

Lemma uart_poll_eq x s :
  ua_present (io_com1 s) = true ->
  uart_poll x s = Ret (if decide (ua_busy (io_com1 s) = 0%nat) then Some tt else None)
    (io_set_com1 (ua_set_busy (ua_busy (io_com1 s) - 1) (io_com1 s)) s).
Proof.
  intros Hp. destruct (io_com1 s) as [p f l m i dl dm rx tx b w] eqn:Eu. cbn in Hp. subst p.
  unfold uart_poll, inb, bind, ret. rewrite Eu. cbn [uart_read negb ua_busy ua_set_busy].
  change (COM1 + 5 - COM1 =? 0) with false. change (COM1 + 5 - COM1 =? 5) with true. cbn iota.
  by destruct (decide (rx = [])), (decide (b = 0%nat)).
Qed.

(** The poll waits until the byte before is gone. *)
Lemma uart_wait s :
  uart_ready (io_com1 s) ->
  wp (for_find (seqZ 0 128) uart_poll) (fun _ s' => s' = io_set_com1 (ua_set_busy 0 (io_com1 s)) s) s.
Proof.
  intros [Hp _ _ _ _ Hb _]. set (u := io_com1 s) in *.
  apply (wp_for_find (fun pre s' => s' = io_set_com1 (ua_set_busy (ua_busy u - length pre) u) s /\ (length pre <= ua_busy u)%nat)).
  - split; [|simpl; lia]. cbn [length]. rewrite Nat.sub_0_r. unfold u. by destruct s as [? ? ? ? [] ? ? ? ? ?].
  - intros pre x post s' Es (-> & Hl).
    assert (forall k, ua_present (ua_set_busy k u) = true /\ ua_busy (ua_set_busy k u) = k /\
              forall k', ua_set_busy k' (ua_set_busy k u) = ua_set_busy k' u) as Hk by (revert Hp; by destruct u).
    unfold wp. rewrite uart_poll_eq by apply Hk. cbn [io_com1 io_set_com1].
    destruct (Hk (ua_busy u - length pre)%nat) as (_ & -> & Hkk). rewrite Hkk.
    destruct (decide _) as [E|E]; [by rewrite E|]. rewrite length_app. cbn [length]. split; [|lia].
    by replace (ua_busy u - (length pre + 1))%nat with (ua_busy u - length pre - 1)%nat by lia.
  - intros s' (-> & Hl). rewrite length_seqZ in Hl. by replace (ua_busy u - _)%nat with 0%nat by (rewrite length_seqZ; lia).
Qed.

Lemma uart_ready_sent u tx : uart_ready u -> uart_ready (ua_set_busy (ua_slow u) (ua_set_sent tx u)).
Proof. intros []. destruct u. by split. Qed.

(** No byte is lost: what is written leaves the port after what was written
    before. *)
Lemma uartputc_spec c s :
  uart s <> 0 -> uart_ready (io_com1 s) ->
  wp (uartputc c) (fun _ s' => exists u, s' = io_set_com1 u s /\ uart_ready u /\
    ua_sent u = ua_sent (io_com1 s) ++ [u8 c] /\ ua_rx u = ua_rx (io_com1 s)) s.
Proof.
  intros Hu Hr. unfold uartputc. wsteps. zcase; [done|]. wstep. eapply wp_mono; [by apply uart_wait|]. cbv beta. intros _ s1 ->.
  exists (ua_set_busy (ua_slow (io_com1 s)) (ua_set_sent (ua_sent (io_com1 s) ++ [u8 c]) (io_com1 s))).
  pose proof (uart_ready_sent _ (ua_sent (io_com1 s) ++ [u8 c]) Hr) as Hr'. destruct Hr as [Hp _ Hl _ _ _ _].
  destruct s as [p1 p2 a t [p f l m i dl dm rx tx b w] im un mp id wn]. cbn in Hp, Hl. subst p l.
  split_and!; [done|exact Hr'|done|done].
Qed.

Lemma uartputc_off cs s : uart s = 0 -> wp (for_each cs uartputc) (fun _ s' => s' = s) s.
Proof.
  intros Hu. apply (wp_for_each (fun _ s' => s' = s)); [done| |done]. intros _ c _ s1 _ ->. unfold uartputc. wsteps. by rewrite Hu.
Qed.

Lemma uartputc_all cs s :
  uart s <> 0 -> uart_ready (io_com1 s) ->
  wp (for_each cs uartputc) (fun _ s' => exists u, s' = io_set_com1 u s /\ uart_ready u /\
    ua_sent u = ua_sent (io_com1 s) ++ (u8 <$> cs) /\ ua_rx u = ua_rx (io_com1 s)) s.
Proof.
  intros Hu Hr. apply (wp_for_each (fun pre s' => exists u, s' = io_set_com1 u s /\ uart_ready u /\
    ua_sent u = ua_sent (io_com1 s) ++ (u8 <$> pre) /\ ua_rx u = ua_rx (io_com1 s))).
  - exists (io_com1 s). split_and!; [by destruct s|done|by rewrite app_nil_r|done].
  - intros pre c post s1 _ (u & -> & Hr1 & Es & Erx). eapply wp_mono; [by apply uartputc_spec|]. cbv beta.
    intros _ s2 (u2 & -> & Hr2 & Es2 & Erx2). exists u2. cbn [io_com1 io_set_com1] in *.
    split_and!; [done|done|by rewrite Es2, Es, fmap_app, app_assoc|by rewrite Erx2].
  - done.
Qed.

(** The registers after the writes of [uartinit]. *)
Definition ua_configured '(Uart p f l m i dl dm rx tx b w) : uart_chip :=
  if p : bool then Uart p 0 3 0 1 12 0 rx tx b w else Uart p f l m i dl dm rx tx b w.

Lemma bind_modify {S A} (f : S -> S) (k : unit -> M S A) s : (bind (modify f) k) s = k tt (f s).
Proof. done. Qed.

Lemma outb_com1 k v : 0 <= k < 8 -> outb (COM1 + k) v = modify (fun s => io_set_com1 (uart_write k (u8 v) (io_com1 s)) s).
Proof.
  intros Hk. assert (k = 0 \/ k = 1 \/ k = 2 \/ k = 3 \/ k = 4 \/ k = 5 \/ k = 6 \/ k = 7) as Hc by lia.
  by destruct_or! Hc; subst k.
Qed.

Lemma ua_configured_eq u :
  uart_write 1 1 (uart_write 4 0 (uart_write 3 3 (uart_write 1 0 (uart_write 0 12 (uart_write 3 0x80 (uart_write 2 0 u)))))) =
  ua_configured u.
Proof. destruct u as [[] f l m i dl dm rx tx b w]; by vm_compute. Qed.

(** The rest of [uartinit]. *)
Definition uart_start : M io unit :=
  let! st := inb (COM1 + 5) in
  if st =? 0xFF then ret tt
  else
    modify (io_set_uart 1);;;
    let! _ := inb (COM1 + 2) in
    let! _ := inb (COM1 + 0) in
    picenable IRQ_COM1;;;
    ioapicenable IRQ_COM1 0;;;
    for_each xv6_hello uartputc.

Lemma uartinit_split s : uartinit s = uart_start (io_set_com1 (ua_configured (io_com1 s)) s).
Proof.
  rewrite <- ua_configured_eq. unfold uartinit. rewrite !outb_com1 by lia. rewrite !bind_modify. reflexivity.
Qed.

(** A port that answers; the pending byte is read and forgotten. *)
Lemma uart_answers p1 p2 a t rx tx b w im un mp id wn (K : M io unit) :
  (let! st := inb (COM1 + 5) in
   if st =? 0xFF then ret tt
   else modify (io_set_uart 1);;; let! _ := inb (COM1 + 2) in let! _ := inb (COM1 + 0) in K)
    (Io p1 p2 a t (Uart true 0 3 0 1 12 0 rx tx b w) im un mp id wn) =
  K (Io p1 p2 a t (Uart true 0 3 0 1 12 0 (tail rx) tx (b - 1) w) im 1 mp id wn).
Proof. by destruct rx, b. Qed.

(** Without a serial port nothing changes. *)
Lemma uartinit_absent s : ua_present (io_com1 s) = false -> uartinit s = Ret tt s.
Proof.
  intros Hp. rewrite uartinit_split. destruct s as [? ? ? ? [p f l m i dl dm rx tx b w] ? ? ? ? ?]. cbn in Hp. by subst p.
Qed.

Lemma uartinit_spec m s :
  pic_ready m s -> ua_present (io_com1 s) = true -> (ua_busy (io_com1 s) <= 128)%nat -> (ua_slow (io_com1 s) <= 128)%nat ->
  wp uartinit (fun _ s' =>
    pic_ready (Z.ldiff m (2 ^ IRQ_COM1)) s' /\ uart s' = 1 /\ uart_ready (io_com1 s') /\
    ua_sent (io_com1 s') = ua_sent (io_com1 s) ++ xv6_hello /\ ua_rx (io_com1 s') = tail (ua_rx (io_com1 s)) /\
    io_pit s' = io_pit s /\ ismp s' = ismp s /\ forall i, ismp s <> 0 ->
    ioapic_route (io_apic s') i = if i =? IRQ_COM1 then Some (T_IRQ0 + IRQ_COM1, 0) else ioapic_route (io_apic s) i) s.
Proof.
  intros Hpic Hp Hb Hw. unfold wp. rewrite uartinit_split.
  destruct s as [p1 p2 a t [p f l mc i dl dm rx tx b w] im un mp id wn]. cbn [io_com1 ua_present ua_busy ua_slow] in *. subst p.
  set (u := Uart true 0 3 0 1 12 0 (tail rx) tx (b - 1) w).
  assert (uart_ready u) as Hr by (split; cbn; [done..|lia|lia]).
  change (wp uart_start (fun _ s' => pic_ready (Z.ldiff m (2 ^ IRQ_COM1)) s' /\ uart s' = 1 /\ uart_ready (io_com1 s') /\
    ua_sent (io_com1 s') = tx ++ xv6_hello /\ ua_rx (io_com1 s') = tail rx /\ io_pit s' = t /\ ismp s' = mp /\ forall i, mp <> 0 ->
    ioapic_route (io_apic s') i = if i =? IRQ_COM1 then Some (T_IRQ0 + IRQ_COM1, 0) else ioapic_route a i)
    (Io p1 p2 a t (Uart true 0 3 0 1 12 0 rx tx b w) im un mp id wn)).
  unfold wp, uart_start. rewrite uart_answers. fold u.
  match goal with |- match ?m ?s with _ => _ end => apply (wp_bind (picenable IRQ_COM1) _ _ s) end.
  eapply wp_mono; [apply (picenable_spec m); [done|exact Hpic]|]. cbv beta. intros _ s1 (Hp1 & Ea & Ec & Eu & Et & Em).
  apply wp_bind. eapply wp_mono; [by apply ioapicenable_spec|]. cbv beta. intros _ s2 (Ha & Hroute).
  pose proof (apic_only_ready _ _ _ Ha Hp1) as Hp2. destruct Ha as (_ & _ & _ & Ec2 & Eu2 & Et2 & Em2).
  eapply wp_mono; [apply uartputc_all|].
  - by rewrite Eu2, Eu.
  - by rewrite Ec2, Ec.
  - cbv beta. intros _ s3 (u3 & -> & Hr3 & Es & Erx). cbn [io_com1 io_set_com1 uart io_pit ismp io_apic io_pic1 io_pic2 irqmask].
    rewrite Es, Erx, Ec2, Ec, Eu2, Eu, Et2, Et, Em2, Em. split_and!; [exact Hp2|done|done|done|done|done|done|].
    intros i0 Hm. rewrite Hroute by (rewrite Em; exact Hm). by rewrite Ea.
Qed.

Lemma inb_eq k s :
  inb (COM1 + k) s = Ret (uart_read k (io_com1 s)).1 (io_set_com1 (uart_read k (io_com1 s)).2 s).
Proof. unfold inb. replace (COM1 + k - COM1) with k by lia. by destruct (uart_read k (io_com1 s)). Qed.

(** [uartgetc] takes the next byte that was received. *)
Lemma uartgetc_eq s :
  uart s <> 0 -> ua_present (io_com1 s) = true -> Z.testbit (ua_lcr (io_com1 s)) 7 = false ->
  exists b, uartgetc s = Ret (default (-1) (head (ua_rx (io_com1 s))))
    (io_set_com1 (ua_set_busy b (ua_set_rx (tail (ua_rx (io_com1 s))) (io_com1 s))) s).
Proof.
  intros Hu Hp Hl. destruct s as [p1 p2 a t [p f l m i dl dm rx tx b w] im un mp id wn]. cbn [uart io_com1 ua_present ua_lcr] in Hu, Hp, Hl. subst p.
  exists (b - 1)%nat. unfold uartgetc, bind, gets. cbn [uart]. rewrite (proj2 (Z.eqb_neq un 0)) by done.
  rewrite inb_eq. cbn [io_com1 uart_read negb Z.eqb Pos.eqb fst snd].
  destruct rx as [|c rx]; [by destruct b|]. destruct (decide (c :: rx = [])) as [|_]; [done|].
  assert (Z.land (Z.lor 1 (if decide (b = 0%nat) then 96 else 0)) 1 =? 0 = false) as -> by by destruct (decide (b = 0%nat)).
  rewrite inb_eq. cbn [io_com1 io_set_com1 uart_read negb Z.eqb]. by rewrite Hl.
Qed.

(** A serial interrupt takes all the bytes received, in order. *)
Lemma uart_drain rx cs0 s :
  rx = ua_rx (io_com1 s) -> uart s <> 0 -> ua_present (io_com1 s) = true -> Z.testbit (ua_lcr (io_com1 s)) 7 = false ->
  Forall is_byte rx ->
  wp (while_fuel (S (length rx)) uart_step cs0) (fun cs s' => cs = cs0 ++ rx /\ ua_rx (io_com1 s') = []) s.
Proof.
  unfold wp. revert cs0 s.
  induction rx as [|c rx IH]; intros cs0 s E Hu Hp Hl Hb; destruct (uartgetc_eq s Hu Hp Hl) as [b Eg]; rewrite <- E in Eg.
  all: rewrite while_fuel_S; unfold uart_step at 1; unfold bind at 1 2; rewrite Eg; unfold ret at 1; cbn [head default tail].
  - cbn. rewrite app_nil_r. by destruct (io_com1 s).
  - apply Forall_cons in Hb as [Hc Hb]. unfold id. destruct (Z.leb_spec 0 c) as [_|Hc0]; [|unfold is_byte in Hc; lia].
    cbn [length]. match goal with |- match while_fuel _ _ _ ?x with _ => _ end => set (s1 := x) end.
    assert (rx = ua_rx (io_com1 s1) /\ ua_present (io_com1 s1) = true /\ Z.testbit (ua_lcr (io_com1 s1)) 7 = false)
      as (E1 & Hp1 & Hl1) by (unfold s1; cbn; by destruct (io_com1 s)).
    specialize (IH (cs0 ++ [c]) s1 E1 Hu Hp1 Hl1 Hb). rewrite <- app_assoc in IH. exact IH.
Qed.

(** A serial interrupt types the bytes received. *)
Lemma uartintr_spec s t :
  uart s <> 0 -> uart_ready (io_com1 s) -> Forall is_byte (ua_rx (io_com1 s)) -> input_ok (cn_in t) ->
  wp uartintr (fun _ '(s', t') => ua_rx (io_com1 s') = [] /\ input_ok (cn_in t') /\
    (finished (cn_in t'), editing (cn_in t')) =
      foldl (fun q c => type_char c q) (finished (cn_in t), editing (cn_in t)) (ua_rx (io_com1 s))) (s, t).
Proof.
  intros Hu [Hp _ Hl _ _ _ _] Hb Hi. unfold uartintr. wstep. apply wp_zoom. cbn [lget io_of_console fst].
  eapply wp_mono; [apply (uart_drain (ua_rx (io_com1 s)) []); [done|done|done|by rewrite Hl|done]|]. cbv beta. intros cs s1 (-> & Erx).
  apply wp_zoom. cbn [lget lset io_of_console con_of_console fst snd].
  eapply wp_mono; [by apply consoleintr_spec|]. cbv beta. naive_solver.
Qed.

(** ** The lines in use *)

(** The lines that are enabled and the processor they go to: the 8259A pair
    passes on exactly these and, in a multiprocessor, the I/O APIC routes
    exactly these. *)
Definition lines_on (E : Z -> option Z) (s : io) : Prop :=
  (exists m, pic_ready m s /\ Z.testbit m IRQ_SLAVE = false /\
    forall i, 0 <= i < 16 -> i <> IRQ_SLAVE -> Z.testbit m i = bool_decide (E i = None)) /\
  (ismp s <> 0 -> forall i, 0 <= i < 16 -> ioapic_route (io_apic s) i = (fun c => (T_IRQ0 + i, c)) <$> E i) /\
  E IRQ_SLAVE = None.

Lemma lines_on_ext E E' s : (forall i, 0 <= i < 16 -> E' i = E i) -> lines_on E s -> lines_on E' s.
Proof.
  intros HE ((m & Hp & Hs & Hm) & Hr & H2). split_and!.
  - exists m. split_and!; [done..|]. intros i Hi Hne. by rewrite HE, Hm.
  - intros Hmp i Hi. by rewrite HE, Hr.
  - rewrite HE by (unfold IRQ_SLAVE; lia). done.
Qed.

(** What the processor sees of a line. *)
Lemma lines_on_vector E s i :
  lines_on E s -> 0 <= i < 16 ->
  pic_vector (io_pic1 s) (io_pic2 s) i = (fun _ => T_IRQ0 + i) <$> E i /\
  (ismp s <> 0 -> ioapic_route (io_apic s) i = (fun c => (T_IRQ0 + i, c)) <$> E i).
Proof.
  intros ((m & Hp & Hs & Hm) & Hr & H2) Hi. split; [|intros Hmp; by apply Hr].
  rewrite (pic_ready_vector m) by done. destruct (Z.eqb_spec i IRQ_SLAVE) as [->|Hne].
  - by rewrite H2, orb_true_r.
  - rewrite Hm by done. rewrite orb_false_r. by destruct (E i).
Qed.

(** At first no line is on. *)
Lemma ioapicinit_lines s :
  pic_ready irqmask0 s -> 16 <= ioapic_lines (io_apic s) ->
  wp ioapicinit (fun _ s' => lines_on (fun _ => None) s' /\ same_rest s s') s.
Proof.
  intros Hp Hl. eapply wp_mono; [apply ioapicinit_spec|]. cbv beta.
  intros _ s2 (Ha & Hr). pose proof (apic_only_ready _ _ _ Ha Hp) as Hp2. destruct Ha as (_ & _ & _ & E1' & E2' & E3' & E4').
  split; [|by split_and!]. split_and!; [|intros Hmp i Hi; apply Hr; [by rewrite <- E4'|lia]|done].
  exists irqmask0. split; [done|]. split; [done|]. intros i Hi Hne. rewrite bool_decide_true by done.
  unfold irqmask0. rewrite Z.land_spec, Z.lnot_spec, Z.shiftl_1_l, Z.pow2_bits_false by (unfold IRQ_SLAVE in *; lia).
  change 0xFFFF with (Z.ones 16). by rewrite Z.ones_spec_low by lia.
Qed.

Lemma lines_on_mask (E : Z -> option Z) m irq s s' :
  pic_ready m s -> Z.testbit m IRQ_SLAVE = false ->
  (forall i, 0 <= i < 16 -> i <> IRQ_SLAVE -> Z.testbit m i = bool_decide (E i = None)) ->
  0 <= irq < 16 -> irq <> IRQ_SLAVE -> forall c, pic_ready (Z.ldiff m (2 ^ irq)) s' ->
  exists m', pic_ready m' s' /\ Z.testbit m' IRQ_SLAVE = false /\
    forall i, 0 <= i < 16 -> i <> IRQ_SLAVE -> Z.testbit m' i = bool_decide (fupd irq (Some c) E i = None).
Proof.
  intros Hp Hs Hm Hi Hne c Hp'. exists (Z.ldiff m (2 ^ irq)). split; [done|]. split.
  - by rewrite Z.ldiff_spec, Hs.
  - intros i Hi' Hn. rewrite Z.ldiff_spec. destruct (Z.eqb_spec i irq) as [->|Hd].
    + rewrite Z.pow2_bits_true, andb_false_r, fupd_eq by lia. done.
    + rewrite Z.pow2_bits_false, andb_true_r, fupd_ne by lia. by apply Hm.
Qed.

(** A driver turns its line on. *)
Lemma enable_spec E irq cpu s :
  lines_on E s -> 0 <= irq < 16 -> irq <> IRQ_SLAVE -> 0 <= cpu < 256 ->
  wp (picenable irq;;; ioapicenable irq cpu) (fun _ s' => lines_on (fupd irq (Some cpu) E) s' /\ same_rest s s') s.
Proof.
  intros ((m & Hp & Hs & Hm) & Hr & H2) Hi Hne Hc. wstep. eapply wp_mono; [apply (picenable_spec m); [lia|done]|]. cbv beta.
  intros _ s1 (Hp1 & Ea & E1 & E2 & E3 & E4). eapply wp_mono; [by apply ioapicenable_spec|]. cbv beta.
  intros _ s2 (Ha & Hr2). pose proof (apic_only_ready _ _ _ Ha Hp1) as Hp2. destruct Ha as (_ & _ & _ & E1' & E2' & E3' & E4').
  split; [|split_and!; congruence]. split_and!.
  - by eapply (lines_on_mask E m irq s).
  - intros Hmp i Hi'. rewrite Hr2 by congruence. unfold fupd. destruct (i =? irq) eqn:Eq; [by apply Z.eqb_eq in Eq as ->|].
    rewrite Ea. apply Hr; [congruence|done].
  - by rewrite fupd_ne.
Qed.

(** The timer, on a machine without the I/O APIC: counter 0 divides its clock
    to 100 interrupts a second. *)
Lemma timerinit_spec E s :
  lines_on E s -> ismp s = 0 ->
  wp timerinit (fun _ s' => lines_on (fupd IRQ_TIMER (Some 0) E) s' /\ pit_period (io_pit s') = Some (TIMER_DIV 100) /\
    io_com1 s' = io_com1 s /\ uart s' = uart s /\ ismp s' = ismp s) s.
Proof.
  intros ((m & Hp & Hs & Hm) & _ & H2) Hmp. set (t := Pit 0x34 [TIMER_DIV 100 mod 256; TIMER_DIV 100 / 256]).
  assert (wp (picenable IRQ_TIMER) (fun _ s' => lines_on (fupd IRQ_TIMER (Some 0) E) s' /\ pit_period (io_pit s') = Some (TIMER_DIV 100) /\
    io_com1 s' = io_com1 s /\ uart s' = uart s /\ ismp s' = ismp s) (io_set_pit t s)) as Hw; [|exact Hw].
  eapply wp_mono; [apply (picenable_spec m); [done|exact Hp]|]. cbv beta. intros _ s1 (Hp1 & _ & E1 & E2 & E3 & E4).
  cbn [io_set_pit io_pit io_com1 uart ismp] in *. split_and!; [|by rewrite E3|done|done|done]. split_and!.
  - by eapply (lines_on_mask E m IRQ_TIMER s).
  - by rewrite E4.
  - by rewrite fupd_ne.
Qed.

(** The serial port turns its line on, if there is one. *)
Lemma uartinit_lines E s :
  lines_on E s -> (ua_busy (io_com1 s) <= 128)%nat -> (ua_slow (io_com1 s) <= 128)%nat ->
  wp uartinit (fun _ s' => lines_on (if ua_present (io_com1 s) then fupd IRQ_COM1 (Some 0) E else E) s' /\
    io_pit s' = io_pit s /\ ismp s' = ismp s /\ (ua_present (io_com1 s) = true -> uart s' = 1 /\ uart_ready (io_com1 s') /\
      ua_sent (io_com1 s') = ua_sent (io_com1 s) ++ xv6_hello)) s.
Proof.
  intros HE Hb Hw. destruct (ua_present (io_com1 s)) eqn:Ep.
  - destruct HE as ((m & Hp & Hs & Hm) & Hr & H2). eapply wp_mono; [by apply (uartinit_spec m)|]. cbv beta.
    intros _ s' (Hp' & Hu & Hrd & Hsent & _ & Et & Em & Hr'). split_and!; [|done|done|done]. split_and!.
    + by eapply (lines_on_mask E m IRQ_COM1 s).
    + intros Hmp i Hi. rewrite Hr' by congruence. unfold fupd. destruct (i =? IRQ_COM1) eqn:Eq; [by apply Z.eqb_eq in Eq as ->|].
      apply Hr; [congruence|done].
    + by rewrite fupd_ne.
  - unfold wp. by rewrite uartinit_absent.
Qed.
