(* ===== verification/Start.v ===== *)
(** * Start-up of the kernel (kernel/main.c)

    [main] and [mainc] put the parts together: the processors, the page
    allocator, the devices, the page table of the kernel, the caches and the
    first process, in the order of the source, up to the call of the
    scheduler. *)

From S2P Require Import Prelude Monad Params CString Kalloc ProcTable Pipe Ide Bio Lru Block Inode.
From S2P Require Import Content Vm VmSpec UserMem File Proc X86 Seg BootAsm Mp Console Intr Smp Userinit.

(** ** State *)

Record start := Start {
  st_smp : smp;              (* processors, memory, the page allocator *)
  st_io : io;                (* devices *)
  st_fs : fs;                (* process table, buffers, inodes *)
  st_file : list file;
  st_pipe : gmap Z pipe;
  st_kpgdir : Z;
}.
Definition st_set_smp v s := Start v (st_io s) (st_fs s) (st_file s) (st_pipe s) (st_kpgdir s).
Definition st_set_io v s := Start (st_smp s) v (st_fs s) (st_file s) (st_pipe s) (st_kpgdir s).
Definition st_set_fs v s := Start (st_smp s) (st_io s) v (st_file s) (st_pipe s) (st_kpgdir s).
Definition st_set_kpgdir v s := Start (st_smp s) (st_io s) (st_fs s) (st_file s) (st_pipe s) v.

Definition sm_set_mp v s := Smp (sm_mem s) (sm_kmem s) v (sm_cpu s) (sm_lapic s) (sm_ap s) (sm_rtc s) (sm_cmos s).

(** The globals [ismp] and [ioapicid] are those of mp.c. *)
Definition io_sync (m : mpstate) (i : io) : io :=
  Io (io_pic1 i) (io_pic2 i) (io_apic i) (io_pit i) (io_com1 i) (irqmask i) (uart i) (mp_ismp m) (mp_ioapicid m) (io_warned i).

Definition smp_of_start : lens start smp := Lens st_smp st_set_smp.
Definition mp_of_smp : lens smp mpstate := Lens sm_mp sm_set_mp.
Definition kmem_of_start : lens start kmem := lens_comp smp_of_start kmem_of_smp.
Definition cpu_of_start (k : Z) : lens start processor := lens_comp smp_of_start (cpu_of_smp k).
Definition io_of_start : lens start io := Lens (fun s => io_sync (sm_mp (st_smp s)) (st_io s)) st_set_io.
Definition bio_of_start : lens start bio := Lens (fun s => fs_bio (st_fs s)) (fun b s => st_set_fs (Fs b (fs_inode (st_fs s))) s).
Definition kern_of_start : lens start kern :=
  Lens (fun s => Kern (st_fs s) (st_file s) (st_pipe s) (sm_kmem (st_smp s)))
       (fun k s => Start (sm_set_kmem (k_mem k) (st_smp s)) (st_io s) (k_fs k) (k_file k) (k_pipe k) (st_kpgdir s)).

(** ** Parts of drivers *)

(** [consoleinit] and [ideinit] at the interrupt controllers; the entries of
    [devsw] are those of the class of devices, and the drives are in Ide. *)
Definition consoleinit_irq : M io unit := picenable IRQ_KBD;;; ioapicenable IRQ_KBD 0.
Definition ideinit_irq (ncpu : Z) : M io unit := picenable IRQ_IDE;;; ioapicenable IRQ_IDE (ncpu - 1).

(** ** main.c *)

Section Main.
(** Addresses that the linker chooses, the program for the first process, and
    what the status port of the second disk answers. *)
Context (kend kdata cpus idt : Z) (vectors : Z -> Z) (mainc_at mainc_back mpmain : Z).
Context (bootother_start bootother_size start32 gdt back : Z) (initcode disk_status : list Z).

Definition kvmalloc : M start unit :=
  let! d := zoom kmem_of_start (setupkvm kdata) in modify (st_set_kpgdir d).

(** [mainc] on processor [k]; [pinit], [fileinit] and [iinit] initialise
    locks. *)
Definition mainc (k : Z) : M start unit :=
  zoom io_of_start picinit;;;
  zoom io_of_start ioapicinit;;;
  zoom io_of_start consoleinit_irq;;;
  zoom io_of_start uartinit;;;
  kvmalloc;;;
  zoom (cpu_of_start k) (tvinit idt vectors);;;
  zoom bio_of_start binit;;;
  let! ncpu := gets (fun s => mp_ncpu (sm_mp (st_smp s))) in
  zoom io_of_start (ideinit_irq ncpu);;;
  zoom bio_of_start (ideinit disk_status);;;
  let! ismp := gets (fun s => mp_ismp (sm_mp (st_smp s))) in
  (if ismp =? 0 then zoom io_of_start timerinit else ret tt);;;
  let! kpgdir := gets st_kpgdir in
  zoom smp_of_start (bootothers cpus idt kpgdir mpmain bootother_start bootother_size start32 gdt back k);;;
  zoom smp_of_start (cinit cpus idt kpgdir k);;;
  zoom (cpu_of_start k) sti;;;
  zoom kern_of_start (userinit kdata initcode).

(** A stack of a page for [mainc]. *)
Definition jmpkstack (k : Z) : M start unit :=
  let! kstack := zoom kmem_of_start kalloc in
  if kstack =? 0 then panic "jmpkstack kalloc"
  else
    let top := u32 (kstack + PGSIZE) in
    zoom (cpu_of_start k) (modify (on_m (fun s => run1 (set_reg ESP top s) (Call mainc_at mainc_back))));;;
    mainc k.

(** [main] on processor [k], with the turns the walk over the MP table may
    take. *)
Definition main (fuel : nat) (k : Z) : M start unit :=
  let! m := gets (fun s => sm_mem (st_smp s)) in
  zoom (lens_comp smp_of_start mp_of_smp) (mpinit fuel m);;;
  zoom smp_of_start (lapicinit k);;;
  let! n := zoom smp_of_start (cpunum k) in
  zoom (cpu_of_start k) (seginit cpus n);;;
  zoom kmem_of_start (kinit kend);;;
  jmpkstack k.
End Main.

(** ** Rules for the parts *)

Section rules.
Context (I : io) (F : fs) (fi : list file) (pi : gmap Z pipe) (kd : Z).
Local Notation K S := (Start S I F fi pi kd).

Lemma wp_smp {A} (m : M smp A) (Q : A -> start -> Prop) S :
  wp m (fun a S' => Q a (K S')) S -> wp (zoom smp_of_start m) Q (K S).
Proof. intros H. apply wp_zoom. exact H. Qed.

Lemma wp_part {A T} (l : lens smp T) (m : M T A) (Q : A -> start -> Prop) S :
  wp (zoom l m) (fun a S' => Q a (K S')) S -> wp (zoom (lens_comp smp_of_start l) m) Q (K S).
Proof. unfold wp, zoom. cbn. by destruct (m _). Qed.

Lemma wp_kmem {A} (m : M kmem A) (Q : A -> start -> Prop) S :
  wp m (fun a km => Q a (K (sm_set_kmem km S))) (sm_kmem S) -> wp (zoom kmem_of_start m) Q (K S).
Proof. intros H. apply wp_part, wp_zoom. exact H. Qed.

Lemma wp_io {A} (m : M io A) (Q : A -> start -> Prop) S :
  wp m (fun a I' => Q a (Start S I' F fi pi kd)) (io_sync (sm_mp S) I) -> wp (zoom io_of_start m) Q (K S).
Proof. intros H. apply wp_zoom. exact H. Qed.
End rules.

Lemma wp_bio {A} (m : M bio A) (Q : A -> start -> Prop) S I b ino fi pi kd :
  wp m (fun a b' => Q a (Start S I (Fs b' ino) fi pi kd)) b -> wp (zoom bio_of_start m) Q (Start S I (Fs b ino) fi pi kd).
Proof. intros H. apply wp_zoom. exact H. Qed.

Lemma wp_kern {A} (m : M kern A) (Q : A -> start -> Prop) S I F fi pi kd :
  wp m (fun a k => Q a (Start (sm_set_kmem (k_mem k) S) I (k_fs k) (k_file k) (k_pipe k) kd)) (Kern F fi pi (sm_kmem S)) ->
  wp (zoom kern_of_start m) Q (Start S I F fi pi kd).
Proof. intros H. apply wp_zoom. exact H. Qed.

Lemma io_sync_id m i : ismp i = mp_ismp m -> ioapicid i = mp_ioapicid m -> io_sync m i = i.
Proof. destruct i. unfold io_sync. cbn. by intros -> ->. Qed.

Lemma lines_on_sync E m i : ismp i = mp_ismp m -> lines_on E i -> lines_on E (io_sync m i).
Proof. intros Hm (H1 & H2 & H3). split_and!; [exact H1| |done]. cbn. rewrite <- Hm. exact H2. Qed.

(** The lines that [mainc] turns on: the keyboard, the serial port if there is
    one, and the disk, which interrupts the last processor. *)
Definition main_lines (com1 : bool) (ncpu : Z) : Z -> option Z := fun i =>
  if i =? IRQ_IDE then Some (ncpu - 1)
  else if com1 && (i =? IRQ_COM1) then Some 0
  else if i =? IRQ_KBD then Some 0
  else None.

Lemma mainc_lines com1 n i : 0 <= i < 16 ->
  main_lines com1 n i = fupd IRQ_IDE (Some (n - 1)) (if com1 then fupd IRQ_COM1 (Some 0) (fupd IRQ_KBD (Some 0) (fun _ => None))
                          else fupd IRQ_KBD (Some 0) (fun _ => None)) i.
Proof. intros _. unfold main_lines, fupd. by destruct com1. Qed.

(** The devices before start-up. *)
Record devices_cold (I : io) : Prop := DevicesCold {
  dc_mask : irqmask I = irqmask0;
  dc_lines : 16 <= ioapic_lines (io_apic I);
  dc_busy : (ua_busy (io_com1 I) <= 128)%nat;
  dc_slow : (ua_slow (io_com1 I) <= 128)%nat;
}.

(** The four calls at the start of [mainc]. *)
Lemma main_devices S I F fi pi kd (Q : unit -> start -> Prop) (k : M start unit) :
  devices_cold I ->
  (forall I', lines_on (if ua_present (io_com1 I) then fupd IRQ_COM1 (Some 0) (fupd IRQ_KBD (Some 0) (fun _ => None))
                        else fupd IRQ_KBD (Some 0) (fun _ => None)) I' -> ismp I' = mp_ismp (sm_mp S) ->
    wp k Q (Start S I' F fi pi kd)) ->
  wp (zoom io_of_start picinit;;; zoom io_of_start ioapicinit;;; zoom io_of_start consoleinit_irq;;;
      zoom io_of_start uartinit;;; k) Q (Start S I F fi pi kd).
Proof.
  intros [D1 D2 D3 D4] Hk. apply wp_bind, wp_io. eapply wp_mono; [apply picinit_spec; cbn; rewrite D1; by split; vm_compute|].
  cbv beta. intros _ I1 (Hp & Ea & Ec & _ & _ & Em). cbn in Hp, Ea, Ec, Em. rewrite D1 in Hp.
  apply wp_bind, wp_io. eapply wp_mono; [apply ioapicinit_lines; [exact Hp|cbn; by rewrite Ea]|].
  cbv beta. intros _ I2 (HE & Ec2 & _ & _ & Em2). cbn in Ec2, Em2.
  apply wp_bind, wp_io. eapply wp_mono; [apply enable_spec; [by apply lines_on_sync|done..]|].
  cbv beta. intros _ I3 (HE3 & Ec3 & _ & _ & Em3). cbn in Ec3, Em3.
  assert (io_com1 (io_sync (sm_mp S) I3) = io_com1 I) as Ecom by (cbn; congruence).
  apply wp_bind, wp_io. eapply wp_mono; [apply uartinit_lines; [by apply lines_on_sync|by rewrite Ecom..]|].
  cbv beta. rewrite Ecom. intros _ I4 (HE4 & _ & Em4 & _). cbn in Em4. apply Hk; [exact HE4|congruence].
Qed.

(** The calls for the interrupt controllers alone, to the timer. *)
Lemma lines_up ncpu I (Q : unit -> io -> Prop) :
  devices_cold I -> 0 <= ncpu - 1 < 256 ->
  (forall I', lines_on (if ismp I =? 0 then fupd IRQ_TIMER (Some 0) (main_lines (ua_present (io_com1 I)) ncpu)
                        else main_lines (ua_present (io_com1 I)) ncpu) I' ->
     (ismp I = 0 -> pit_period (io_pit I') = Some (TIMER_DIV 100)) -> ismp I' = ismp I -> Q tt I') ->
  wp (picinit;;; ioapicinit;;; consoleinit_irq;;; uartinit;;; ideinit_irq ncpu;;;
      if ismp I =? 0 then timerinit else ret tt) Q I.
Proof.
  intros [D1 D2 D3 D4] Hn HQ. apply wp_bind. eapply wp_mono; [apply picinit_spec; rewrite D1; by split; vm_compute|].
  cbv beta. intros _ I1 (Hp & Ea & Ec & _ & _ & Em). rewrite D1 in Hp.
  apply wp_bind. eapply wp_mono; [apply ioapicinit_lines; [exact Hp|by rewrite Ea]|]. cbv beta. intros _ I2 (HE & Ec2 & _ & _ & Em2).
  apply wp_bind. eapply wp_mono; [by apply enable_spec|]. cbv beta. intros _ I3 (HE3 & Ec3 & _ & _ & Em3).
  assert (io_com1 I3 = io_com1 I) as Ecom by congruence.
  apply wp_bind. eapply wp_mono; [apply uartinit_lines; [done|by rewrite Ecom..]|]. cbv beta. rewrite Ecom. intros _ I4 (HE4 & _ & Em4 & _).
  apply wp_bind. eapply wp_mono; [by apply enable_spec|]. cbv beta. intros _ I5 (HE5 & _ & _ & _ & Em5).
  assert (lines_on (main_lines (ua_present (io_com1 I)) ncpu) I5) as HE6 by (eapply lines_on_ext; [apply mainc_lines|exact HE5]).
  destruct (Z.eqb_spec (ismp I) 0) as [E0|Hne].
  - eapply wp_mono; [apply (timerinit_spec _ _ HE6); congruence|]. cbv beta. intros [] I6 (HE7 & Ht & _ & _ & Em6).
    apply HQ; [done|done|congruence].
  - apply wp_ret, HQ; [done|done|congruence].
Qed.

(** ** The buffers *)

(** The buffers after [binit], whatever the rest of the state. *)
Definition ring_bufs : list buf :=
  match binit (bio_start ptable0 zero_taskfile ∅) with Ret _ s => bio_buf s | _ => [] end.

Lemma wp_run {S A} (m : M S A) (Q : A -> S -> Prop) s a s' : m s = Ret a s' -> wp m Q s -> Q a s'.
Proof. unfold wp. by intros ->. Qed.

Lemma binit_bufs pt h tf d bad :
  binit (Bio pt (replicate (S HEAD) zero_buf) None h tf d bad) = Ret tt (Bio pt ring_bufs None h tf d bad).
Proof. by vm_compute. Qed.

(** Once a process runs, they satisfy the invariant of the buffer cache. *)
Lemma ring_bufs_hold pt tf d :
  has_cur pt -> (forall k, is_block (disk_read d k)) -> holds (Bio pt ring_bufs None true tf d no_errors) ∅.
Proof.
  intros Hc Hd. exact (proj1 (wp_run _ _ _ _ _ (binit_bufs pt true tf d no_errors) (binit_spec pt tf d Hc Hd))).
Qed.

(** ** The processors *)

Section Boot.
Context (kend kdata cpus idt : Z) (vectors : Z -> Z) (mainc_at mainc_back mpmain : Z).
Context (bootother_start bootother_size start32 gdt back : Z).
Hypothesis L : smp_layout kend cpus mpmain bootother_start bootother_size gdt back.

(** The interrupt table is in the kernel, apart from [cpus] and the image of
    bootother.S. *)
Record idt_layout : Prop := IdtLayout {
  il_idt : 0x100000 <= idt /\ idt + 8 * 256 <= kend;
  il_cpus : idt + 8 * 256 <= cpus \/ cpus + NCPU * sizeof_cpu <= idt;
  il_image : idt + 8 * 256 <= bootother_start \/ bootother_start + bootother_size <= idt;
  il_both : cpus + NCPU * sizeof_cpu <= bootother_start \/ bootother_start + bootother_size <= cpus;
}.
Hypothesis LI : idt_layout.

(** Memory in which the flags of the other processors are clear and the image
    of bootother.S is. *)
Record boot_mem (b : Z) (m : mem) : Prop := BootMem {
  bm_booted : forall c, 0 <= c < NCPU -> c <> b -> ldn (cpu_addr cpus c + CPU_booted) 4 m = 0;
  bm_image : load_bytes (bootother_start + (gdt - CODE)) 30 m = boot_tables gdt;
}.

(** The boot processor [b] in C, with its segments. *)
Record boot_cpu (b : Z) (s : smp) : Prop := BootCpu {
  bc_segments : segments_ready (cpu_addr cpus b) (proc_of b s);
  bc_protected : protected (proc_of b s) = true;
}.

(** Memory in the kernel outside the struct cpu of [b] and the interrupt table
    is all that [boot_mem] needs. *)
Lemma boot_mem_ext b m m' :
  0 <= b < NCPU ->
  (forall x, 0x100000 <= x < kend -> x < cpu_addr cpus b \/ cpu_addr cpus b + sizeof_cpu <= x ->
     x < idt \/ idt + 8 * 256 <= x -> m' x = m x) ->
  boot_mem b m -> boot_mem b m'.
Proof.
  intros Hb Hm [B1 B2]. pose proof (sl_kend _ _ _ _ _ _ _ L) as K1. pose proof (sl_gdt _ _ _ _ _ _ _ L) as [G1 G2].
  pose proof (sl_image _ _ _ _ _ _ _ L) as [I1 I2]. pose proof (sl_code _ _ _ _ _ _ _ L) as G3.
  destruct LI as [_ I4 I5 I6]. assert (PHYSTOP = 0x1000000) as HP by done. assert (CODE = 0x7000) as HC by done.
  assert (sizeof_cpu = 188) as Hsz by done. assert (NCPU = 8) as HN by done.
  split.
  - intros c Hc Hne. rewrite <- (B1 c Hc Hne). destruct (cpu_range _ _ _ _ _ _ _ L c Hc) as (C1 & C2 & _).
    unfold CPU_booted. apply ldn_ext; [lia..|]. intros x Hx. rewrite Hsz in *. rewrite HN in *.
    apply Hm; unfold cpu_addr in *; rewrite ?Hsz in *; lia.
  - rewrite <- B2. apply load_bytes_ext. intros i Hi. rewrite u32_small by lia. destruct (cpu_range _ _ _ _ _ _ _ L b Hb) as (C1 & C2 & _).
    apply Hm; unfold cpu_addr in *; rewrite ?Hsz, ?HN in *; lia.
Qed.

(** A machine of several processors before start-up, with its table. *)
Record machine_cold (b mp conf : Z) (es : list mpentry) (s : smp) : Prop := MachineCold {
  mc_mp : sm_mp s = mp_zero;
  mc_config : mpconfig (sm_mem s) = Some (mp, conf);
  mc_conf : 0 <= conf /\ conf + conf_length conf (sm_mem s) < 2 ^ 32;
  mc_table : table_holds conf es (sm_mem s);
  mc_ncpu : table_ncpu es <= NCPU;
  mc_numbered : table_numbered es = true;
  mc_lapic : conf_lapicaddr conf (sm_mem s) <> 0;
  mc_bcpu : table_bcpu es = b /\ 0 <= b < table_ncpu es;
  mc_ids : forall c, 0 <= c < table_ncpu es -> la_reg (sm_lapic s c) LA_ID = Z.shiftl c 24;
  mc_idle : forall j, idle j s;
  mc_free : km_freelist (sm_kmem s) = 0;
  mc_mem : boot_mem b (sm_mem s);
  mc_cpu : protected (proc_of b s) = true /\ irq_off (proc_of b s);
}.

(** ... and when [mainc] begins, on the stack [kstack] and with the free pages
    [l]. *)
Record in_mainc (b n : Z) (kstack : Z) (l : list Z) (s : smp) : Prop := InMainc {
  im_found : smp_found b s;
  im_ncpu : mp_ncpu (sm_mp s) = n /\ mp_ismp (sm_mp s) = 1;
  im_idle : forall j, idle j s;
  im_free : free_list kend (sm_kmem s) l;
  im_mem : boot_mem b (sm_mem s);
  im_cpu : boot_cpu b s;
  im_irq : irq_off (proc_of b s);
  im_esp : m_reg (p_m (proc_of b s)) ESP = kstack + PGSIZE - 4;
}.

Lemma summary_found b mp conf es s :
  machine_cold b mp conf es s -> smp_found b (sm_set_mp (mp_summary mp conf es (sm_mem s)) s).
Proof.
  intros [M1 M2 M3 M4 M5 M6 M7 [M8 M9] M10 _ _ _ _]. unfold mp_summary. rewrite M6.
  split; cbn [sm_mp sm_set_mp mp_ncpu mp_bcpu mp_lapic]; try done.
  intros c Hc. unfold cpu_id. cbn [sm_mp sm_set_mp mp_ids]. unfold nthb.
  rewrite lookup_app_l by (rewrite length_seqZ; lia). rewrite lookup_seqZ_lt by lia. cbn. lia.
Qed.

Lemma found_frame b s s' :
  sm_mp s' = sm_mp s -> (forall j, la_reg (sm_lapic s' j) LA_ID = la_reg (sm_lapic s j) LA_ID) -> smp_found b s -> smp_found b s'.
Proof.
  intros Em Ei [N1 N2 N3 N4 N5 N6]. split; rewrite ?Em; try done.
  - intros c Hc. unfold cpu_id. rewrite Em. by apply N2.
  - intros c Hc. rewrite Ei. by apply N5.
Qed.

Lemma idle_frame s s' : (forall j, sm_ap s' j = sm_ap s j) -> (forall j, idle j s) -> forall j, idle j s'.
Proof. intros E H j a. rewrite E. apply H. Qed.

(** [seginit] of [main]. *)
Lemma boot_segments b s :
  smp_found b s -> (forall j, idle j s) -> boot_mem b (sm_mem s) -> protected (proc_of b s) = true ->
  wp (zoom (cpu_of_smp b) (seginit cpus b)) (fun _ s' => smp_found b s' /\ (forall j, idle j s') /\ boot_mem b (sm_mem s') /\
    boot_cpu b s' /\ sm_kmem s' = sm_kmem s /\ sm_mp s' = sm_mp s /\ m_eflags (p_m (proc_of b s')) = m_eflags (p_m (proc_of b s))) s.
Proof.
  intros Hf Hi Hm Hp. pose proof (sf_b _ _ Hf) as Hb. pose proof (sf_ncpu _ _ Hf) as Hn.
  destruct (cpu_range _ _ _ _ _ _ _ L b ltac:(lia)) as (C1 & C2 & C3).
  eapply wp_mono; [apply wp_on_cpu, (seginit_spec cpus b (cpu_addr cpus b)); done|]. cbv beta.
  intros _ s' ([F1 F2 F3 F4 F5] & Hs & _ & _ & _ & _ & Ho & _ & Ef & _ & Ec & _). rewrite !proc_of_mem in Ho.
  split_and!; [by apply (found_frame b s)|by apply (idle_frame s)| |split; [done|by unfold protected in *; rewrite Ec]|done|done|done].
  apply (boot_mem_ext b (sm_mem s)); [lia| |done]. intros x Hx Hx1 _. apply Ho; [|done].
  pose proof (sl_kend _ _ _ _ _ _ _ L). assert (PHYSTOP = 0x1000000) as HP by done. lia.
Qed.

(** The call of [mainc] on the page [kstack]. *)
Lemma boot_call b kstack s :
  smp_found b s -> (forall j, idle j s) -> boot_mem b (sm_mem s) -> boot_cpu b s -> valid_page kend kstack ->
  wp (zoom (cpu_of_smp b) (modify (on_m (fun s => run1 (set_reg ESP (u32 (kstack + PGSIZE)) s) (Call mainc_at mainc_back)))))
    (fun _ s' => smp_found b s' /\ (forall j, idle j s') /\ boot_mem b (sm_mem s') /\ boot_cpu b s' /\
      sm_kmem s' = sm_kmem s /\ sm_mp s' = sm_mp s /\ m_eflags (p_m (proc_of b s')) = m_eflags (p_m (proc_of b s)) /\
      m_reg (p_m (proc_of b s')) ESP = kstack + PGSIZE - 4) s.
Proof.
  intros Hf Hi Hm [Hs Hp] [_ [V1 V2]]. pose proof (sf_b _ _ Hf) as Hb. pose proof (sf_ncpu _ _ Hf) as Hn.
  destruct (cpu_range _ _ _ _ _ _ _ L b ltac:(lia)) as (C1 & C2 & C3 & C4). assert (PHYSTOP = 0x1000000) as HP by done.
  assert (PGSIZE = 4096) as HG by done. assert (sizeof_cpu = 188) as Hsz by done.
  eapply wp_mono; [apply (wp_on_cpu b _ (fun _ p' => p' = on_m (fun s => run1 (set_reg ESP (u32 (kstack + PGSIZE)) s)
    (Call mainc_at mainc_back)) (proc_of b s))); done|]. cbv beta.
  intros _ s' ([F1 F2 F3 F4 F5] & E). cbn [run1] in E. unfold push, on_m in E. revert E. pcbn. cbn [reg_eqb].
  rewrite (u32_small (kstack + PGSIZE)), (u32_small (kstack + PGSIZE - 4)) by lia. intros E.
  assert (sm_mem s' = stn (kstack + PGSIZE - 4) 4 mainc_back (sm_mem s)) as Em by (rewrite <- (proc_of_mem b s'), E; done).
  assert (same_outside (kstack + PGSIZE - 4) (kstack + PGSIZE) (sm_mem s) (sm_mem s')) as Ho.
  { rewrite Em. replace (kstack + PGSIZE) with (kstack + PGSIZE - 4 + Z.of_nat 4) at 2 by lia. apply stn_outside; lia. }
  split_and!; [by apply (found_frame b s)|by apply (idle_frame s)| | |done|done|by rewrite E|by rewrite E].
  - apply (boot_mem_ext b (sm_mem s)); [lia| |done]. intros x Hx _ _. apply Ho; lia.
  - split; [|unfold protected in *; by rewrite E].
    pose proof (segments_outside (cpu_addr cpus b) _ _ (sm_mem s') (proc_of b s) Ho ltac:(lia) Hs) as [[S1 S2 S3 S4] S5 S6].
    rewrite E. rewrite Em in S4, S5, S6. by split; [split|..].
Qed.

(** [main], up to [mainc]. *)
Lemma main_head b mp conf es fuel S I F fi pi kd initcode disk_status (Q : unit -> start -> Prop) :
  machine_cold b mp conf es S -> (length es < fuel)%nat ->
  (forall S' kstack l, reverse (kinit_pages kend) = kstack :: l -> in_mainc b (table_ncpu es) kstack l S' ->
     wp (mainc kdata cpus idt vectors mpmain bootother_start bootother_size start32 gdt back initcode disk_status b) Q
       (Start S' I F fi pi kd)) ->
  kinit_pages kend <> [] ->
  wp (main kend kdata cpus idt vectors mainc_at mainc_back mpmain bootother_start bootother_size start32 gdt back
        initcode disk_status fuel b) Q (Start S I F fi pi kd).
Proof.
  intros Hc Hfuel HQ Hne. pose proof (summary_found _ _ _ _ _ Hc) as Hf. pose proof (mc_numbered _ _ _ _ _ Hc) as Hnum.
  destruct Hc as [M1 M2 [M3 M3'] M4 M5 _ _ _ _ M10 M11 M12 [M13 M14]].
  unfold main. apply wp_bind, wp_gets, wp_bind, wp_part, wp_zoom. cbn [lget mp_of_smp st_smp]. unfold wp at 1. rewrite M1.
  rewrite (mpinit_spec fuel _ mp conf es) by done. cbn [lset mp_of_smp].
  assert (mp_ncpu (mp_summary mp conf es (sm_mem S)) = table_ncpu es /\ mp_ismp (mp_summary mp conf es (sm_mem S)) = 1) as Hn
    by (unfold mp_summary; by rewrite Hnum).
  revert Hf Hn. generalize (mp_summary mp conf es (sm_mem S)). intros mps Hf Hn.
  apply wp_bind, wp_smp. eapply wp_mono; [apply lapicinit_quiet|]. cbv beta. intros _ S2 Hq.
  pose proof (quiet_frame b _ _ Hq) as [[K1 K2 _ K4 K5] E2]. cbn in K1, K2.
  assert (smp_found b S2) as Hf2 by (eapply found_frame; [| |exact Hf]; done).
  apply wp_bind, wp_smp. unfold wp at 1. rewrite (cpunum_spec b b) by first [apply (sf_lapic _ _ Hf2)|apply (sf_la _ _ Hf2), (sf_b _ _ Hf2)].
  assert (sm_mem S2 = sm_mem S) as Em2 by (rewrite <- (proc_of_mem b S2), E2; done).
  apply wp_bind, wp_part. eapply wp_mono; [apply boot_segments; [done|by apply (idle_frame S)|by rewrite Em2|by rewrite E2]|].
  cbv beta. intros _ S3 (Hf3 & Hi3 & Hm3 & Hc3 & Ek3 & Emp3 & Ef3).
  pose proof (sl_kend _ _ _ _ _ _ _ L) as HK. pose proof (sl_cpus _ _ _ _ _ _ _ L) as [L1 L2]. assert (0 < NCPU * sizeof_cpu) as Hsz by done.
  apply wp_bind, wp_kmem. eapply wp_mono; [apply kinit_spec; [lia|lia|by rewrite Ek3, K1]|]. cbv beta. intros _ km Hfl.
  unfold jmpkstack. apply wp_bind, wp_kmem. cbn [sm_kmem sm_set_kmem]. eapply wp_mono; [by apply (kalloc_spec kend)|]. cbv beta.
  intros r km2 (_ & Hfl2 & ->). pose proof (fl_valid _ _ _ Hfl) as Hv.
  destruct (reverse (kinit_pages kend)) as [|kstack l] eqn:Er; [exfalso; apply Hne; by rewrite <- (reverse_involutive (kinit_pages kend)), Er|].
  cbn [head tail default] in *. unfold id. apply Forall_cons in Hv as [Hv _].
  rewrite (proj2 (Z.eqb_neq kstack 0)) by (destruct Hv as [_ [V1 _]]; lia).
  apply wp_bind, wp_part. eapply wp_mono; [apply (boot_call b kstack); [by apply (found_frame b S3)|exact Hi3|exact Hm3| |done]|].
  { destruct Hc3 as [H1 H2]. split; [exact H1|exact H2]. }
  cbv beta. intros _ S5 (Hf5 & Hi5 & Hm5 & Hc5 & Ek5 & Emp5 & Ef5 & Esp). apply (HQ S5 kstack l eq_refl).
  split; [done| |done|by rewrite Ek5|done|done| |done].
  - rewrite Emp5. cbn. by rewrite Emp3, K2.
  - unfold irq_off in *. rewrite Ef5. change (proc_of b (sm_set_kmem km2 (sm_set_kmem km S3))) with (proc_of b S3). by rewrite Ef3, E2.
Qed.

(** *** The steps of [mainc] on the processors *)

(** [kvmalloc]: the page table of the kernel. *)
Definition kvm_ready (km : kmem) (kpgdir : Z) (l : list Z) : Prop :=
  pgdir_ok kend km kpgdir l /\ forall va, va_ok va -> pte_of km kpgdir va = kmap_pte (kmap kdata) va.

(** Later uses of memory leave it alone. *)
Lemma kvm_ready_ext km kpgdir l km' l' :
  kvm_ready km kpgdir l -> (forall p, p ∉ l -> page_at p km' = page_at p km) ->
  free_list kend km' l' -> (exists k, l = k ++ l') -> kvm_ready km' kpgdir l'.
Proof.
  intros [[P1 P2 P3 P4] Hpte] Hp Hf (k & ->).
  assert (forall p, p ∈ kpgdir :: tabs km kpgdir -> page_at p km' = page_at p km) as Hsame.
  { intros p Hin. apply Hp. rewrite app_comm_cons in P4. apply NoDup_app in P4 as (_ & P4 & _). by apply P4. }
  assert (tabs km' kpgdir = tabs km kpgdir) as Et by (apply tabs_same, Hsame; by left).
  split; [split|].
  - done.
  - by rewrite Et.
  - rewrite Et. rewrite Forall_forall in P3 |- *. intros p Hin. unfold is_page. rewrite Hsame by done. by apply P3.
  - rewrite Et. rewrite app_comm_cons in P4 |- *. rewrite NoDup_app in P4 |- *. destruct P4 as (N1 & N2 & N3).
    apply NoDup_app in N3 as (_ & _ & N3). split_and!; [done| |done]. intros p Hin Hl. apply (N2 p Hin). set_solver.
  - intros va Hva. rewrite <- Hpte by done. apply pte_of_same; [done|apply Hsame; by left|]. intros t Ht. apply Hsame. by right.
Qed.

(** The state of [mainc] with the interrupt table in memory. *)
Lemma boot_gates b n kstack l s :
  in_mainc b n kstack l s ->
  wp (zoom (cpu_of_smp b) (tvinit idt vectors)) (fun _ s' => in_mainc b n kstack l s' /\ idt_ready idt vectors (sm_mem s') /\
    sm_kmem s' = sm_kmem s) s.
Proof.
  intros [Hf Hn Hi Hfl Hm [Hs Hp] Hirq Hesp]. pose proof (sf_b _ _ Hf) as Hb. pose proof (sf_ncpu _ _ Hf) as Hnc.
  destruct (cpu_range _ _ _ _ _ _ _ L b ltac:(lia)) as (C1 & C2 & _). pose proof LI as [[I1 I2] I3 _ _].
  pose proof (sl_kend _ _ _ _ _ _ _ L) as HK. assert (PHYSTOP = 0x1000000) as HP by done. assert (sizeof_cpu = 188) as Hsz by done.
  assert (NCPU = 8) as HN by done.
  eapply wp_mono; [apply wp_on_cpu, tvinit_spec; split; lia|]. cbv beta.
  intros _ s' ([F1 F2 F3 F4 F5] & Hg & Ho & E). rewrite !proc_of_mem in Hg, Ho, E.
  assert (idt + 8 * 256 <= cpu_addr cpus b \/ cpu_addr cpus b + sizeof_cpu <= idt) as Hd
    by (unfold cpu_addr in *; rewrite Hsz, HN in *; lia).
  split; [|done]. split.
  - by apply (found_frame b s).
  - by rewrite F2.
  - by apply (idle_frame s).
  - by rewrite F1.
  - apply (boot_mem_ext b (sm_mem s)); [lia| |done]. intros x Hx _ Hx2. apply Ho; lia.
  - split; [|unfold protected in *; by rewrite E]. rewrite E. by apply (segments_outside _ idt (idt + 8 * 256)).
  - unfold irq_off in *. by rewrite E.
  - by rewrite E.
Qed.

(** A processor other than [b] that was started, with its stack. *)
Definition others_up (b n kpgdir : Z) (up : list (Z * Z)) (l : list Z) (s : smp) : Prop :=
  up.*1 = filter (fun c => c <> b) (seqZ 0 n) /\ up.*2 = take (length up) l /\
  Forall (fun u => started cpus idt kpgdir u.1 u.2 s) up.

(** The boot processor takes interrupts. *)
Definition boot_up (b kpgdir kstack : Z) (s : smp) : Prop :=
  cpu_up cpus idt kpgdir b (proc_of b s) /\ Z.testbit (m_eflags (p_m (proc_of b s))) 9 = true /\
  m_reg (p_m (proc_of b s)) ESP = kstack + PGSIZE - 4.

(** Memory of the boot processor and of the interrupt table after the others
    have started. *)
Lemma boots_keep kpgdir b n kstack l up s s1 x :
  in_mainc b n kstack l s -> boots kend cpus idt kpgdir gdt b l s (seqZ 0 n) up s1 ->
  cpu_addr cpus b <= x < cpu_addr cpus b + sizeof_cpu \/ idt <= x < idt + 8 * 256 -> sm_mem s1 x = sm_mem s x.
Proof.
  intros Hin Hb Hx. pose proof (im_found _ _ _ _ _ Hin) as Hf. pose proof (proj1 (im_ncpu _ _ _ _ _ Hin)) as En.
  pose proof (sf_b _ _ Hf) as Hbn. pose proof (sf_ncpu _ _ Hf) as Hnc.
  destruct (cpu_range _ _ _ _ _ _ _ L b ltac:(lia)) as (C1 & C2 & _). pose proof LI as [[I1 I2] I3 _ _].
  assert (sizeof_cpu = 188) as Hsz by done. assert (NCPU = 8) as HN by done. pose proof (sl_cpus _ _ _ _ _ _ _ L) as [L1 L2].
  apply (bo_mem _ _ _ _ _ _ _ _ _ _ _ Hb); [rewrite Hsz, HN in *; lia|]. intros c Hc Hne. apply elem_of_seqZ in Hc.
  destruct (cpu_range _ _ _ _ _ _ _ L c ltac:(lia)) as (D1 & D2 & _). unfold cpu_addr in *. rewrite Hsz, HN in *. lia.
Qed.

(** [cinit] and [sti] of the boot processor. *)
Lemma boot_finish kpgdir b n kstack l up s s1 :
  in_mainc b n kstack l s -> idt_ready idt vectors (sm_mem s) -> boots kend cpus idt kpgdir gdt b l s (seqZ 0 n) up s1 ->
  wp (cinit cpus idt kpgdir b;;; zoom (cpu_of_smp b) sti) (fun _ s' =>
    others_up b n kpgdir up l s' /\ boot_up b kpgdir kstack s' /\ idt_ready idt vectors (sm_mem s') /\
    sm_kmem s' = sm_kmem s1 /\ sm_mp s' = sm_mp s) s1.
Proof.
  intros Hin Hg Hb. pose proof (fun x => boots_keep kpgdir b n kstack l up s s1 x Hin Hb) as Hkeep.
  pose proof Hin as [Hf [En _] Hi Hfl Hm [Hs Hp] Hirq Hesp]. pose proof (sf_b _ _ Hf) as Hbn. pose proof (sf_ncpu _ _ Hf) as Hnc.
  destruct (cpu_range _ _ _ _ _ _ _ L b ltac:(lia)) as (C1 & C2 & _). pose proof LI as [[I1 I2] I3 _ _].
  pose proof (sl_kend _ _ _ _ _ _ _ L) as HK. assert (PHYSTOP = 0x1000000) as HP by done. assert (sizeof_cpu = 188) as Hsz by done.
  assert (NCPU = 8) as HN by done.
  pose proof Hb as [B1 B2 B3 B4 Bp B5 B6 B7 B8 B9 B10 B11].
  assert (proc_of b s1 = upd_mem (fun _ => sm_mem s1) (proc_of b s)) as E1 by (unfold proc_of; cbn; rewrite B9; done).
  wstep. eapply wp_mono; [apply (cinit_boot cpus idt kpgdir b s1)|].
  { rewrite B6. apply Hf. }
  { rewrite B7. by apply (sf_la _ _ Hf). }
  { rewrite B6. apply Hf. }
  { rewrite E1. apply segments_ext; [|done]. intros x Hx. rewrite proc_of_mem. apply Hkeep. by left. }
  { unfold protected in *. by rewrite E1. }
  cbv beta. intros _ s2 ([F1 F2 F3 F4 F5] & Hup & [R2 _] & Ho).
  eapply wp_mono; [apply (wp_on_cpu b _ (fun _ p' => p' = set_m (set_eflags (Z.lor (m_eflags (p_m (proc_of b s2))) FL_IF)
    (p_m (proc_of b s2))) (proc_of b s2))); done|]. cbv beta. intros _ s3 ([G1 G2 G3 G4 G5] & E3).
  assert (sm_mem s3 = sm_mem s2) as Em by (rewrite <- (proc_of_mem b s3), E3; done).
  split_and!; [split_and!; [done|done|]|split_and!| |by rewrite G1|by rewrite G2, F2].
  - rewrite Forall_forall in B3 |- *. intros [k st] Hu. assert (k ∈ up.*1) as Hk by (apply list_elem_of_fmap; by exists (k, st)).
    rewrite B1 in Hk. apply list_elem_of_filter in Hk as [Hkb Hk]. apply elem_of_seqZ in Hk. cbn [fst snd].
    apply (started_frame cpus idt kpgdir k st s1); [by rewrite G3, F3| |by apply (B3 (k, st))].
    intros x Hx. rewrite Em. destruct (cpu_range _ _ _ _ _ _ _ L k ltac:(lia)) as (D1 & D2 & _).
    apply Ho; unfold cpu_addr in *; rewrite Hsz in *; lia.
  - rewrite E3. destruct Hup as [U1 U2 U3 U4 U5 U6]. split; [by apply segments_eflags|done..].
  - rewrite E3. pcbn. rewrite Z.lor_spec. apply orb_true_r.
  - rewrite E3. pcbn. rewrite R2, E1. exact Hesp.
  - intros i Hi'. rewrite <- (Hg i Hi'). rewrite Em. apply ldn_ext; [lia..|]. intros x Hx.
    rewrite Ho; [apply Hkeep; lia|lia|]. unfold cpu_addr in *. rewrite Hsz, HN in *. lia.
Qed.

(** ** The kernel when the scheduler begins *)

Context (initcode disk_status : list Z).

(** The first process: its stack, page directory and page are three pages;
    address 0 of its memory is the page with the program. *)
Definition first_ready (l : list Z) (s : start) : Prop :=
  exists kstack pgdir mem k l', l = kstack :: pgdir :: k ++ mem :: l' /\
    bio_pt (fs_bio (st_fs s)) = first_table kstack pgdir /\ fs_inode (st_fs s) = <[0%nat := root_inode]> inodes0 /\
    page_at mem (sm_kmem (st_smp s)) = init_page initcode /\
    forall va, va_ok va -> pte_of (sm_kmem (st_smp s)) pgdir va =
      if decide (page_base va = 0) then entry mem PTE_UW else kmap_pte (kmap kdata) va.

Record kernel_started (b n : Z) (com1 : bool) (l : list Z) (s : start) : Prop := KernelStarted {
  ks_pages : exists kstack k up l1, l = kstack :: st_kpgdir s :: k ++ up.*2 ++ l1 /\
    boot_up b (st_kpgdir s) kstack (st_smp s) /\
    up.*1 = filter (fun c => c <> b) (seqZ 0 n) /\
    Forall (fun u => started cpus idt (st_kpgdir s) u.1 u.2 (st_smp s)) up /\
    first_ready l1 s;
  ks_idt : idt_ready idt vectors (sm_mem (st_smp s));
  ks_lines : lines_on (main_lines com1 n) (st_io s);
  ks_kvm : forall va, va_ok va -> pte_of (sm_kmem (st_smp s)) (st_kpgdir s) va = kmap_pte (kmap kdata) va;
  ks_bufs : forall pt, has_cur pt -> holds (bio_set_pt pt (fs_bio (st_fs s))) ∅;
}.

Lemma in_mainc_kmem b n kstack l l' km s :
  in_mainc b n kstack l s -> free_list kend km l' -> in_mainc b n kstack l' (sm_set_kmem km s).
Proof.
  intros [H1 H2 H3 _ H5 [H6 H7] H8 H9] Hf. split; [by apply (found_frame b s)|done|exact H3|done|done| |exact H8|exact H9].
  split; [exact H6|exact H7].
Qed.

(** The last step: the first process, on the pages that are left. *)
Lemma mainc_first b n com1 kstack kp kt l1 up km S2 S3 S4 I2 tf d fi pi :
  kdata mod PGSIZE = 0 -> 0x100000 < kdata < PHYSTOP -> in_mainc b n kstack l1 S2 -> (24 <= length l1)%nat ->
  kvm_ready km kp l1 -> sm_kmem S2 = km -> boots kend cpus idt kp gdt b l1 S2 (seqZ 0 n) up S3 ->
  others_up b n kp up l1 S4 -> boot_up b kp kstack S4 -> idt_ready idt vectors (sm_mem S4) -> sm_kmem S4 = sm_kmem S3 ->
  lines_on (main_lines com1 n) I2 ->
  (forall k, is_block (disk_read d k)) -> Z.of_nat (length initcode) < PGSIZE ->
  wp (zoom kern_of_start (userinit kdata initcode)) (fun _ s' => kernel_started b n com1 (kstack :: kp :: kt ++ l1) s')
    (Start S4 I2 (Fs (Bio ptable0 ring_bufs None true tf d no_errors) inodes0) fi pi kp).
Proof.
  intros Hkd Hkd2 Hin2 Hl Hkvm Ek2 Hb3 (Eu1 & Eu2 & Hst) Hboot Hg4 Ek4 HE2 Hblk Hinit.
  pose proof (sl_cpus _ _ _ _ _ _ _ L) as [L1 L2]. assert (0 < NCPU * sizeof_cpu) as Hsz by done. assert (0 < kend) as Hk0 by lia.
  pose proof (sf_ncpu _ _ (im_found _ _ _ _ _ Hin2)) as Hnc. rewrite (proj1 (im_ncpu _ _ _ _ _ Hin2)) in Hnc. assert (NCPU = 8) as HN by done.
  assert (length up <= 8)%nat as Hup.
  { rewrite <- (length_fmap fst), Eu1. etransitivity; [apply length_filter|]. rewrite length_seqZ. lia. }
  pose proof (bo_free _ _ _ _ _ _ _ _ _ _ _ Hb3) as Hfl3. pose proof (bo_pages _ _ _ _ _ _ _ _ _ _ _ Hb3) as Hpg3.
  apply wp_kern. rewrite Ek4. eapply wp_mono; [apply (userinit_spec kend kdata Hk0 Hkd Hkd2 _ _ _ _ _ _ _ _ _ (drop (length up) l1));
    [done|rewrite length_drop; lia|done]|].
  cbv beta. intros _ s5 (ks & pg & mem & k5 & l5 & El5 & E5 & Hf5 & Hz5 & Hpte5 & Hsb5).
  assert (kvm_ready (k_mem s5) kp l5) as [_ Hkvm5].
  { eapply (kvm_ready_ext km kp l1); [done| |done|].
    - intros p Hpl. rewrite Hsb5; [unfold page_at; by rewrite Hpg3, Ek2|]. intros Hin'. apply Hpl.
      apply list_elem_of_lookup in Hin' as [i' Hi']. rewrite lookup_drop in Hi'. by eapply list_elem_of_lookup_2.
    - exists (take (length up) l1 ++ ks :: pg :: k5 ++ [mem]). rewrite <- app_assoc. cbn. rewrite <- app_assoc. cbn.
      rewrite <- El5. by rewrite take_drop. }
  rewrite E5. cbn [k_fs k_file k_pipe k_mem]. split; cbn [st_smp st_io st_fs st_kpgdir sm_kmem sm_set_kmem sm_mem fs_bio fs_inode bio_pt].
  - exists kstack, kt, up, (drop (length up) l1). split; [by rewrite Eu2, take_drop|]. split; [exact Hboot|]. split; [done|].
    split; [exact Hst|]. by exists ks, pg, mem, k5, l5.
  - exact Hg4.
  - exact HE2.
  - exact Hkvm5.
  - intros pt Hpt. by apply ring_bufs_hold.
Qed.

Lemma mainc_spec b n kstack l S I tf d fi pi kd :
  kdata mod PGSIZE = 0 -> 0x100000 < kdata < PHYSTOP -> in_mainc b n kstack l S -> (37 <= length l)%nat ->
  devices_cold I -> Exists (fun r => r <> 0) (take 1000 disk_status) -> (forall k, is_block (disk_read d k)) ->
  Z.of_nat (length initcode) < PGSIZE ->
  wp (mainc kdata cpus idt vectors mpmain bootother_start bootother_size start32 gdt back initcode disk_status b)
    (fun _ s' => kernel_started b n (ua_present (io_com1 I)) (kstack :: l) s')
    (Start S I (Fs (Bio ptable0 (replicate (Datatypes.S HEAD) zero_buf) None false tf d no_errors) inodes0) fi pi kd).
Proof.
  intros Hkd Hkd2 Hin Hl HD Hdisk Hblk Hinit. unfold mainc. apply main_devices; [done|]. intros I1 HE1 Emp1.
  pose proof (sl_cpus _ _ _ _ _ _ _ L) as [L1 L2]. assert (0 < NCPU * sizeof_cpu) as Hsz by done.
  assert (0 < kend) as Hk0 by lia.
  apply wp_bind. unfold kvmalloc. apply wp_bind, wp_kmem.
  eapply wp_mono; [apply (setupkvm_spec kend Hk0 kdata Hkd Hkd2 _ l), (im_free _ _ _ _ _ Hin)|]. cbv beta.
  intros kp km [(_ & _ & _ & H)|(_ & kt & l1 & -> & Hk & Hp & Hok & _ & Hpte)]; [lia|].
  rewrite length_cons, length_app in Hl. apply wp_modify.
  assert (in_mainc b n kstack l1 (sm_set_kmem km S)) as Hin1.
  { by eapply in_mainc_kmem, Hok. }
  pose proof (conj Hok Hpte : kvm_ready km kp l1) as Hkvm.
  unfold st_set_kpgdir. cbn [st_smp st_io st_fs st_file st_pipe].
  apply wp_bind, wp_part. eapply wp_mono; [by apply (boot_gates b n kstack l1)|]. cbv beta. intros _ S2 (Hin2 & Hg2 & Ek2). cbn in Ek2.
  apply wp_bind, wp_bio. unfold wp at 1. rewrite binit_bufs. apply wp_bind, wp_gets. cbn [st_smp].
  destruct (im_ncpu _ _ _ _ _ Hin2) as [En Emp]. destruct (im_ncpu _ _ _ _ _ Hin) as [_ Emp0]. rewrite En.
  pose proof (sf_b _ _ (im_found _ _ _ _ _ Hin2)) as Hbn. pose proof (sf_ncpu _ _ (im_found _ _ _ _ _ Hin2)) as Hnc.
  assert (NCPU = 8) as HN by done.
  apply wp_bind, wp_io. eapply wp_mono; [apply enable_spec; [apply lines_on_sync; [congruence|exact HE1]|done|done|lia]|].
  cbv beta. intros _ I2 (HE2 & _ & _ & _ & Em2). cbn in Em2.
  apply wp_bind, wp_bio. unfold ideinit. apply wp_modify. rewrite decide_True by done. cbn [bio_set_havedisk1 bio_pt bio_buf bio_queue bio_tf bio_disk].
  apply wp_bind, wp_gets. cbn [st_smp]. rewrite Emp. cbn [Z.eqb]. apply wp_bind, wp_ret, wp_bind, wp_gets. cbn [st_kpgdir].
  apply wp_bind, wp_smp.
  eapply wp_mono; [apply (bootothers_spec kend cpus idt kp mpmain bootother_start bootother_size start32 gdt back L b l1 S2); try apply Hin2|].
  { rewrite En. lia. }
  cbv beta. intros _ S3 [up Hb3]. rewrite En in Hb3.
  apply wp_bind, wp_smp.
  eapply wp_mono; [exact (proj1 (wp_bind_iff _ _ _ _) (boot_finish kp b n kstack l1 up S2 S3 Hin2 Hg2 Hb3))|]. cbv beta.
  intros _ S4 Hw4. apply wp_bind, wp_part. eapply wp_mono; [exact Hw4|]. clear S4 Hw4. cbv beta.
  intros _ S4 (Hup & Hboot & Hg4 & Ek4 & Emp4).
  apply (mainc_first b n _ kstack kp kt l1 up km S2 S3 S4); try done; [lia|].
  eapply lines_on_ext; [apply mainc_lines|]. exact HE2.
Qed.
End Boot.
