(* ===== verification/Ulib.v ===== *)
(** * The C library of user programs (user/ulib.c, user/printf.c)

    String functions, [gets], [atoi] and [printf].  A pointer into a string
    that is only moved forward is the list of bytes from it on. *)

From S2P Require Import Prelude CString.

(** ** Strings *)

(** The bytes [strcpy] writes at [s]. *)
Fixpoint strcpy (t : list Z) : list Z :=
  match t with
  | [] => [0]
  | c :: t => if c =? 0 then [0] else c :: strcpy t
  end.

Fixpoint strcmp (p q : list Z) : Z :=
  match p with
  | [] => u8 0 - u8 (deref q)
  | c :: p' => if negb (c =? 0) && (c =? deref q) then strcmp p' (tail q) else u8 c - u8 (deref q)
  end.

(** [strchr] as an index into the string. *)
Fixpoint strchr (s : list Z) (c : Z) : option nat :=
  match s with
  | [] => None
  | x :: s => if x =? 0 then None else if x =? c then Some O else S <$> strchr s c
  end.

(** The test of a call of [strchr] in a condition. *)
Definition has_char (s : list Z) (c : Z) : bool :=
  match strchr s c with Some _ => true | None => false end.

(** [memmove] of user programs copies upwards only. *)
Definition memmove_up (d s : Z) (n : nat) (m : mem) : mem := copy_up n d s m.

(** ** gets *)

(** The bytes read before the loop ends, and the input left; [n] is the room
    left for them. *)
Fixpoint gets_loop (n : nat) (input : list Z) : list Z * list Z :=
  match n, input with
  | O, _ | _, [] => ([], input)
  | S n, c :: input =>
      if (c =? 10) || (c =? 13) then ([c], input)
      else let '(l, rest) := gets_loop n input in (c :: l, rest)
  end.

(** The bytes written to [buf], and the input left. *)
Definition gets_line (max : Z) (input : list Z) : list Z * list Z :=
  let '(l, rest) := gets_loop (Z.to_nat (max - 1)) input in (l ++ [0], rest).

(** ** atoi *)

Fixpoint atoi_loop (n : Z) (s : list Z) : Z :=
  match s with
  | [] => n
  | c :: s => if (48 <=? c) && (c <=? 57) then atoi_loop (s32 (n * 10 + c - 48)) s else n
  end.
Definition atoi (s : list Z) : Z := atoi_loop 0 s.

(** ** printf *)

Definition udigits : list Z :=
  [48; 49; 50; 51; 52; 53; 54; 55; 56; 57; 65; 66; 67; 68; 69; 70].

(** The digits of [x], the last one first; 32 rounds are enough for a 32-bit
    number in any base. *)
Fixpoint uprintint_loop (fuel : nat) (x base : Z) : list Z :=
  match fuel with
  | O => []
  | S fuel =>
      nthb udigits (x mod base) :: (if x / base =? 0 then [] else uprintint_loop fuel (x / base) base)
  end.

(** The characters written to the file descriptor. *)
Definition uprintint (xx base : Z) (sgn : bool) : list Z :=
  let neg := sgn && (xx <? 0) in
  let x := if neg then u32 (- xx) else u32 xx in
  reverse (uprintint_loop 32 x base ++ (if neg then [45] else [])).

(** An argument: a word, or the string a pointer points to ([None] is the null
    pointer). *)
Inductive uarg := Uint (x : Z) | Ustr (s : option (list Z)).

Definition uarg_int (ap : list uarg) : Z := match ap with Uint x :: _ => s32 x | _ => 0 end.
Definition null_text : list Z := [40; 110; 117; 108; 108; 41].
Definition uarg_str (ap : list uarg) : list Z :=
  match ap with Ustr (Some s) :: _ => cstr s | _ => null_text end.

(** The characters a conversion [c] puts out, and the arguments left. *)
Definition printf_conv (c : Z) (ap : list uarg) : list Z * list uarg :=
  if c =? 100 then (uprintint (uarg_int ap) 10 true, tail ap)
  else if (c =? 120) || (c =? 112) then (uprintint (uarg_int ap) 16 false, tail ap)
  else if c =? 115 then (uarg_str ap, tail ap)
  else if c =? 99 then ([u8 (uarg_int ap)], tail ap)
  else if c =? 37 then ([c], ap)
  else ([37; c], ap).

(** The loop over the format; [state] is whether a percent sign came before. *)
Fixpoint printf_loop (state : bool) (fmt : list Z) (ap : list uarg) : list Z :=
  match fmt with
  | [] => []
  | c :: fmt =>
      if c =? 0 then []
      else if negb state then
        if c =? 37 then printf_loop true fmt ap else c :: printf_loop false fmt ap
      else let '(out, ap) := printf_conv c ap in out ++ printf_loop false fmt ap
  end.
Definition printf (fmt : list Z) (ap : list uarg) : list Z := printf_loop false fmt ap.

(** ** Lemmas on strings *)

Lemma cstr_empty s : cstr s = [] <-> deref s = 0.
Proof.
  unfold cstr, deref. destruct s as [|c s]; [done|]. cbn [strlen head from_option id].
  destruct (c =? 0) eqn:E; [by apply Z.eqb_eq in E|]. apply Z.eqb_neq in E.
  pose proof (strlen_nonneg s). replace (Z.to_nat (1 + strlen s)) with (S (Z.to_nat (strlen s))) by lia. done.
Qed.

Lemma cstr_char c s : c <> 0 -> cstr (c :: s) = c :: cstr s.
Proof.
  intros H. unfold cstr. cbn [strlen]. apply Z.eqb_neq in H as ->. pose proof (strlen_nonneg s).
  by replace (Z.to_nat (1 + strlen s)) with (S (Z.to_nat (strlen s))) by lia.
Qed.

Lemma cstr_app l s : Forall (fun c => c <> 0) l -> cstr (l ++ 0 :: s) = l.
Proof. induction 1 as [|c l Hc Hl IH]; [done|]. rewrite <- app_comm_cons, cstr_char by done. by rewrite IH. Qed.

(** [strcpy] copies the string with its NUL. *)
Lemma strcpy_spec t : strcpy t = cstr t ++ [0].
Proof.
  induction t as [|c t IH]; [done|]. cbn [strcpy]. destruct (Z.eqb_spec c 0) as [->|Hc]; [done|].
  by rewrite cstr_char, IH.
Qed.

(** [strcmp] is 0 for equal strings only. *)
Lemma strcmp_eq p q : Forall is_byte p -> Forall is_byte q -> strcmp p q = 0 <-> cstr p = cstr q.
Proof.
  revert q. induction p as [|c p IH]; intros q Hp Hq; cbn [strcmp].
  - assert (is_byte (deref q)) by (rewrite deref_nthb; by apply nthb_byte).
    rewrite (u8_small (deref q)) by done. change (u8 0) with 0. change (cstr []) with (@nil Z). split.
    + intros E. symmetry. apply cstr_empty. lia.
    + intros E. symmetry in E. apply cstr_empty in E. lia.
  - inv Hp. assert (is_byte (deref q)) by (rewrite deref_nthb; by apply nthb_byte).
    destruct (Z.eqb_spec c 0) as [->|Hc]; cbn [negb andb].
    { rewrite (u8_small (deref q)) by done. change (u8 0) with 0. change (cstr (0 :: p)) with (@nil Z). split.
      + intros E. symmetry. apply cstr_empty. lia.
      + intros E. symmetry in E. apply cstr_empty in E. lia. }
    destruct q as [|d q].
    { change (deref []) with 0. rewrite (proj2 (Z.eqb_neq c 0)), u8_small by done. change (u8 0) with 0.
      rewrite cstr_char by done. split; [lia|done]. }
    inv Hq. cbn [deref head from_option id tail]. rewrite (cstr_char c) by done.
    destruct (Z.eqb_spec c d) as [<-|Hne].
    + rewrite IH, cstr_char by done. split; [by intros ->|by injection 1].
    + rewrite !u8_small by done. split; [lia|]. destruct (decide (d = 0)) as [->|Hd]; [done|].
      rewrite cstr_char by done. by injection 1.
Qed.

Lemma has_char_spec s c : has_char s c = true <-> c ∈ cstr s.
Proof.
  unfold has_char. induction s as [|x s IH]; [cbn; by rewrite elem_of_nil|]. cbn [strchr].
  destruct (Z.eqb_spec x 0) as [->|Hx]; [cbn; by rewrite elem_of_nil|].
  rewrite cstr_char, elem_of_cons by done. destruct (Z.eqb_spec x c) as [->|Hc]; [tauto|].
  rewrite <- IH. destruct (strchr s c); cbn; [tauto|]. split; [done|]. intros [?|?]; [by subst|done].
Qed.

(** Where the copy upwards is the kernel's [memmove]. *)
Lemma memmove_up_eq d s n m :
  ~ (s < d < s + Z.of_nat n) -> memmove_up d s n m = memmove d s n m.
Proof.
  intros H. unfold memmove_up, memmove. destruct (Z.ltb_spec s d), (Z.ltb_spec d (s + Z.of_nat n)); try done. lia.
Qed.

(** ** gets *)

(** No input is lost, and a line that fits is returned with its newline. *)
Lemma gets_loop_split n input : (gets_loop n input).1 ++ (gets_loop n input).2 = input.
Proof.
  revert input. induction n as [|n IH]; intros [|c input]; try done. cbn [gets_loop].
  destruct (_ || _); [done|]. specialize (IH input). destruct (gets_loop n input). cbn in *. by rewrite IH.
Qed.

Lemma gets_loop_length n input : (length (gets_loop n input).1 <= n)%nat.
Proof.
  revert input. induction n as [|n IH]; intros [|c input]; cbn; [lia..|].
  destruct (_ || _); [cbn; lia|]. specialize (IH input). destruct (gets_loop n input). cbn in *. lia.
Qed.

Lemma gets_line_spec max l c rest :
  Forall (fun c => c <> 10 /\ c <> 13) l -> c = 10 \/ c = 13 -> Z.of_nat (length l) + 1 < max ->
  gets_line max (l ++ c :: rest) = (l ++ [c; 0], rest).
Proof.
  intros Hl Hc Hm. unfold gets_line.
  assert (forall n, (length l < n)%nat -> gets_loop n (l ++ c :: rest) = (l ++ [c], rest)) as Hg;
    [|rewrite Hg by lia; by rewrite <- app_assoc].
  clear Hm. induction Hl as [|x l [Hx1 Hx2] Hl IH]; intros [|n] Hn; cbn in Hn; try lia; cbn [app gets_loop].
  - assert ((c =? 10) || (c =? 13) = true) as -> by (destruct Hc as [-> | ->]; done). done.
  - apply Z.eqb_neq in Hx1 as ->. apply Z.eqb_neq in Hx2 as ->. cbn. rewrite IH by lia. done.
Qed.

(** ** printint and atoi *)

Definition is_digit (c : Z) : Prop := 48 <= c <= 57.

Lemma atoi_loop_app l n s :
  Forall is_digit l -> atoi_loop n (l ++ s) = atoi_loop (foldl (fun n c => s32 (n * 10 + c - 48)) n l) s.
Proof.
  intros Hl. revert n. induction Hl as [|c l Hc Hl IH]; intros n; [done|]. cbn [app atoi_loop foldl].
  unfold is_digit in Hc. assert ((48 <=? c) && (c <=? 57) = true) as ->; [|apply IH].
  apply andb_true_intro. split; apply Z.leb_le; lia.
Qed.

Lemma udigit k : 0 <= k < 10 -> nthb udigits k = 48 + k.
Proof.
  intros Hk. assert (forallb (fun k => nthb udigits k =? 48 + k) (seqZ 0 10) = true) as H by done.
  rewrite forallb_forall in H. apply Z.eqb_eq, H, list_elem_of_In, elem_of_seqZ. lia.
Qed.

Lemma uprintint_loop_spec n fuel x :
  0 <= x < 10 ^ Z.of_nat (S n) -> x < 2 ^ 31 -> (n < fuel)%nat ->
  Forall is_digit (uprintint_loop fuel x 10) /\
  foldl (fun n c => s32 (n * 10 + c - 48)) 0 (reverse (uprintint_loop fuel x 10)) = x.
Proof.
  revert fuel x. induction n as [|n IH]; intros fuel x Hx Hs Hf; (destruct fuel as [|fuel]; [lia|]);
    cbn [uprintint_loop]; pose proof (Z.mod_pos_bound x 10 ltac:(lia)) as Hm;
    pose proof (Z.div_mod x 10 ltac:(lia)) as Hd; rewrite udigit by lia.
  - change (10 ^ Z.of_nat 1) with 10 in Hx. rewrite Z.div_small by lia. cbn [Z.eqb].
    split; [constructor; [unfold is_digit; lia|done]|]. cbn. rewrite Z.mod_small, s32_small by lia. lia.
  - destruct (Z.eqb_spec (x / 10) 0) as [E|E].
    + split; [constructor; [unfold is_digit; lia|done]|]. cbn. rewrite s32_small by lia. lia.
    + destruct (IH fuel (x / 10)) as [Hv Hl]; [|lia..|].
      { split; [apply Z.div_pos; lia|]. apply Z.div_lt_upper_bound; [lia|].
        rewrite (Nat2Z.inj_succ (S n)), Z.pow_succ_r in Hx by lia. lia. }
      split; [constructor; [unfold is_digit; lia|done]|].
      rewrite reverse_cons, foldl_app, Hl. cbn [foldl]. rewrite s32_small by lia. lia.
Qed.

(** [atoi] reads back what [printf] writes for a conversion of a number. *)
Lemma atoi_uprintint x s :
  0 <= x < 2 ^ 31 -> ~ is_digit (deref s) -> atoi (uprintint x 10 true ++ s) = x.
Proof.
  intros Hx Hs. unfold uprintint. rewrite (proj2 (Z.ltb_ge x 0)) by lia. cbn [andb]. cbv zeta.
  rewrite app_nil_r, u32_small by lia.
  destruct (uprintint_loop_spec 9 32 x) as [Hd Hv]; [split; [lia|]; change (10 ^ Z.of_nat 10) with 10000000000; lia|lia..|].
  unfold atoi. rewrite atoi_loop_app by by apply Forall_reverse. rewrite Hv.
  destruct s as [|c s]; [done|]. cbn [atoi_loop]. unfold is_digit in Hs. cbn in Hs.
  assert ((48 <=? c) && (c <=? 57) = false) as ->; [|done].
  apply andb_false_iff. destruct (Z.leb_spec 48 c); [right; apply Z.leb_gt; lia|by left].
Qed.
