(* ===== verification/Grep.v ===== *)
(** * The pattern matcher of grep (user/grep.c)

    [match], [matchhere] and [matchstar] search a NUL-terminated text for a
    pattern with the operators [^], [.], [*] and [$].  They are shown to
    compute the meaning of the pattern as a regular expression.  [grep] reads
    a file into a buffer and prints the lines that match. *)

From S2P Require Import Prelude CString Ulib.

(** ** Characters *)

Definition CH_NL : Z := 10.
Definition CH_DOLLAR : Z := 36.
Definition CH_STAR : Z := 42.
Definition CH_DOT : Z := 46.
Definition CH_CARET : Z := 94.

(** ** match, matchhere, matchstar *)

(** The loop of [matchstar], with [here] the call of [matchhere]. *)
Definition star_loop (here : list Z -> bool) (c : Z) : list Z -> bool :=
  fix loop (text : list Z) : bool :=
    if here text then true
    else
      match text with
      | [] => false
      | t :: text => if negb (t =? 0) && ((t =? c) || (c =? CH_DOT)) then loop text else false
      end.

Fixpoint matchhere (re text : list Z) {struct re} : bool :=
  match re with
  | [] => true
  | c :: re1 =>
      if c =? 0 then true
      else
        match re1 with
        | s :: re2 =>
            if s =? CH_STAR then star_loop (matchhere re2) c text
            else if (c =? CH_DOLLAR) && (s =? 0) then deref text =? 0
            else if negb (deref text =? 0) && ((c =? CH_DOT) || (c =? deref text))
            then matchhere re1 (tail text)
            else false
        | [] =>
            if c =? CH_DOLLAR then deref text =? 0
            else if negb (deref text =? 0) && ((c =? CH_DOT) || (c =? deref text))
            then matchhere re1 (tail text)
            else false
        end
  end.

Definition matchstar (c : Z) (re text : list Z) : bool := star_loop (matchhere re) c text.

(** The loop of [match]: every place of the text, its end included. *)
Fixpoint match_loop (re text : list Z) : bool :=
  if matchhere re text then true
  else
    match text with
    | [] => false
    | t :: text => if t =? 0 then false else match_loop re text
    end.

Definition match_re (re text : list Z) : bool :=
  if deref re =? CH_CARET then matchhere (tail re) text else match_loop re text.

(** ** grep *)

(** The inner loop of [grep]: from offset [p] of [buf], print the lines that
    match.  The newline of a line that does not match stays 0. *)
Fixpoint grep_lines (fuel : nat) (pattern buf out : list Z) (p : nat) : list Z * list Z * nat :=
  match fuel with
  | O => (buf, out, p)
  | S fuel =>
      match strchr (drop p buf) CH_NL with
      | None => (buf, out, p)
      | Some k =>
          let q := (p + k)%nat in
          let buf0 := <[q := 0]> buf in
          if match_re pattern (drop p buf0) then
            let buf1 := <[q := CH_NL]> buf0 in
            grep_lines fuel pattern buf1 (out ++ take (q + 1 - p) (drop p buf1)) (q + 1)
          else grep_lines fuel pattern buf0 out (q + 1)
      end
  end.

Definition BUFSIZE : nat := 1024.

(** One round of the outer loop, with the bytes [chunk] read at [m]. *)
Definition grep_round (pattern chunk : list Z) '(buf, m, out) : list Z * Z * list Z :=
  let buf := splice m chunk buf in
  let m := m + Z.of_nat (length chunk) in
  let '(buf, out, p) := grep_lines (S BUFSIZE) pattern buf out 0 in
  let m := if decide (p = O) then 0 else m in
  if 0 <? m then
    let m := m - Z.of_nat p in (splice 0 (slice (Z.of_nat p) m buf) buf, m, out)
  else (buf, m, out).

(** [reads] are what the calls of [read] return; a full buffer asks for
    nothing and ends the loop.  [None]: the bytes read go to an address before
    the buffer. *)
Fixpoint grep_loop (pattern : list Z) (reads : list (list Z)) (st : list Z * Z * list Z) : option (list Z) :=
  match reads with
  | [] => Some st.2
  | chunk :: reads =>
      let chunk := take (Z.to_nat (Z.of_nat BUFSIZE - st.1.2)) chunk in
      if decide (chunk = []) then Some st.2
      else if st.1.2 <? 0 then None
      else grep_loop pattern reads (grep_round pattern chunk st)
  end.

(** What [grep] prints. *)
Definition grep (pattern : list Z) (reads : list (list Z)) : option (list Z) :=
  grep_loop pattern reads (replicate BUFSIZE 0, 0, []).

(** ** The meaning of a pattern *)

(** A character, [.] included, and whether a star follows. *)
Definition item : Type := Z * bool.
Definition is_char (c t : Z) : Prop := c = CH_DOT \/ c = t.

(** The items of a pattern without its [^], and whether it ends in [$]. *)
Fixpoint items (re : list Z) : list item * bool :=
  match re with
  | [] => ([], false)
  | c :: re1 =>
      match re1 with
      | s :: re2 =>
          if s =? CH_STAR then let '(its, e) := items re2 in ((c, true) :: its, e)
          else let '(its, e) := items re1 in ((c, false) :: its, e)
      | [] => if c =? CH_DOLLAR then ([], true) else ([(c, false)], false)
      end
  end.

(** The words of a list of items. *)
Fixpoint word (its : list item) (s : list Z) : Prop :=
  match its with
  | [] => s = []
  | (c, false) :: its => exists t s', s = t :: s' /\ is_char c t /\ word its s'
  | (c, true) :: its => exists s1 s2, s = s1 ++ s2 /\ Forall (is_char c) s1 /\ word its s2
  end.

(** The pattern at the beginning of a text. *)
Definition prefix_word (p : list item * bool) (text : list Z) : Prop :=
  exists s rest, text = s ++ rest /\ word p.1 s /\ (p.2 = true -> rest = []).

(** [^] fixes the beginning, otherwise the pattern may be anywhere. *)
Definition pattern_in (re text : list Z) : Prop :=
  if deref re =? CH_CARET then prefix_word (items (tail re)) text
  else exists pre rest, text = pre ++ rest /\ prefix_word (items re) rest.

(** ** The matcher computes it *)

Lemma prefix_star c its e text :
  prefix_word ((c, true) :: its, e) text <->
  prefix_word (its, e) text \/ exists t rest, text = t :: rest /\ is_char c t /\ prefix_word ((c, true) :: its, e) rest.
Proof.
  split.
  - intros (s & rest & -> & (s1 & s2 & -> & Hs & Hw) & He). destruct s1 as [|t s1].
    + left. by exists s2, rest.
    + right. apply Forall_cons in Hs as [Ht Hs]. exists t, (s1 ++ s2 ++ rest). cbn. rewrite app_assoc.
      split; [done|]. split; [done|]. exists (s1 ++ s2), rest. split; [done|]. split; [|done]. by exists s1, s2.
  - intros [(s & rest & -> & Hw & He)|(t & rest & -> & Ht & (s & rest' & -> & (s1 & s2 & -> & Hs & Hw) & He))].
    + exists s, rest. split; [done|]. split; [|done]. by exists [], s.
    + exists (t :: s1 ++ s2), rest'. split; [done|]. split; [|done]. exists (t :: s1), s2.
      split; [done|]. split; [by constructor|done].
Qed.

Lemma prefix_char c its e text :
  prefix_word ((c, false) :: its, e) text <-> exists t rest, text = t :: rest /\ is_char c t /\ prefix_word (its, e) rest.
Proof.
  split.
  - intros (s & rest & -> & (t & s' & -> & Ht & Hw) & He). exists t, (s' ++ rest). split; [done|].
    split; [done|]. by exists s', rest.
  - intros (t & rest & -> & Ht & (s & rest' & -> & Hw & He)). exists (t :: s), rest'. split; [done|].
    split; [|done]. by exists t, s.
Qed.

Lemma star_loop_spec here c its e text :
  (forall text, here text = true <-> prefix_word (its, e) (cstr text)) ->
  star_loop here c text = true <-> prefix_word ((c, true) :: its, e) (cstr text).
Proof.
  intros Hh. induction text as [|t text IH]; cbn [star_loop]; rewrite prefix_star, <- Hh.
  - destruct (here []); [split; auto|]. split; [done|]. intros [|(t & rest & Ht & _)]; done.
  - destruct (here (t :: text)) eqn:E; [split; auto|].
    destruct (t =? 0) eqn:Et; cbn [negb andb].
    + apply Z.eqb_eq in Et as ->. split; [done|]. intros [?|(t & rest & Ht & _)]; [congruence|done].
    + apply Z.eqb_neq in Et. rewrite cstr_char by done.
      assert ((t =? c) || (c =? CH_DOT) = true <-> is_char c t) as Hc.
      { unfold is_char. rewrite orb_true_iff, !Z.eqb_eq. intuition congruence. }
      destruct ((t =? c) || (c =? CH_DOT)).
      * rewrite IH. split; [intros H; right; exists t, (cstr text); split; [done|]; split; [by apply Hc|done]|].
        intros [?|(t' & rest & Ht & _ & H)]; [congruence|]. by simplify_eq.
      * split; [done|]. intros [?|(t' & rest & Ht & Hi & _)]; [congruence|]. simplify_eq. by apply Hc in Hi.
Qed.

Lemma char_step (here : list Z -> bool) c p text :
  (here (tail text) = true <-> prefix_word p (cstr (tail text))) ->
  (if negb (deref text =? 0) && ((c =? CH_DOT) || (c =? deref text)) then here (tail text) else false) = true <->
  prefix_word ((c, false) :: p.1, p.2) (cstr text).
Proof.
  intros Hh. destruct p as [its e]. rewrite prefix_char. destruct text as [|t text].
  { cbn. split; [done|]. by intros (t & rest & Ht & _). }
  change (deref (t :: text)) with t in *. change (tail (t :: text)) with text in *.
  destruct (t =? 0) eqn:Et; cbn [negb andb].
  { apply Z.eqb_eq in Et as ->. split; [done|]. by intros (t & rest & Ht & _). }
  apply Z.eqb_neq in Et. rewrite cstr_char by done.
  assert ((c =? CH_DOT) || (c =? t) = true <-> is_char c t) as Hc by (unfold is_char; by rewrite orb_true_iff, !Z.eqb_eq).
  destruct ((c =? CH_DOT) || (c =? t)).
  - rewrite Hh. split; [intros H; exists t, (cstr text); split; [done|]; split; [by apply Hc|done]|].
    intros (t' & rest & Ht & _ & H). by simplify_eq.
  - split; [done|]. intros (t' & rest & Ht & Hi & _). simplify_eq. by apply Hc in Hi.
Qed.

Lemma end_step text : (deref text =? 0) = true <-> prefix_word ([], true) (cstr text).
Proof.
  rewrite Z.eqb_eq, <- cstr_empty. split.
  - intros ->. by exists [], [].
  - intros (s & rest & -> & Hw & He). cbn in Hw. by rewrite Hw, He.
Qed.

Lemma empty_step text : prefix_word ([], false) (cstr text).
Proof. by exists [], (cstr text). Qed.

(** [matchhere], by the number of characters left. *)
Lemma matchhere_spec re text : matchhere re text = true <-> prefix_word (items (cstr re)) (cstr text).
Proof.
  revert text. induction re as [re IH] using (induction_ltof1 _ (@length Z)); unfold ltof in IH. intros text.
  destruct re as [|c re1]; [cbn; by pose proof (empty_step text)|].
  destruct (decide (c = 0)) as [->|Hc]; [cbn; by pose proof (empty_step text)|].
  rewrite cstr_char by done. cbn [matchhere]. assert ((c =? 0) = false) as -> by by apply Z.eqb_neq.
  pose proof (IH re1 ltac:(cbn; lia) (tail text)) as IH1. destruct re1 as [|s re2].
  - cbn [cstr strlen take Z.to_nat items]. destruct (c =? CH_DOLLAR); [apply end_step|]. by apply (char_step _ c) in IH1.
  - destruct (decide (s = 0)) as [->|Hs].
    + change (cstr (0 :: re2)) with (@nil Z) in *. cbn [items]. change (0 =? CH_STAR) with false. cbn [andb].
      destruct (c =? CH_DOLLAR); [apply end_step|]. by apply (char_step _ c) in IH1.
    + rewrite cstr_char in * by done. cbn [items]. destruct (s =? CH_STAR) eqn:Es.
      * destruct (items (cstr re2)) as [its e] eqn:Ei. apply star_loop_spec. intros t.
        rewrite (IH re2) by (cbn; lia). by rewrite Ei.
      * assert ((s =? 0) = false) as -> by by apply Z.eqb_neq. rewrite andb_false_r.
        apply (char_step _ c) in IH1. rewrite IH1. cbn [items]. by destruct (match cstr re2 with [] => _ | _ :: _ => _ end).
Qed.

(** The matcher of grep decides whether the text contains the pattern. *)
Lemma match_re_spec re text : match_re re text = true <-> pattern_in (cstr re) (cstr text).
Proof.
  unfold match_re, pattern_in. assert (deref (cstr re) = deref re) as ->.
  { destruct re as [|c re]; [done|]. destruct (decide (c = 0)) as [->|Hc]; [done|]. by rewrite cstr_char. }
  destruct (deref re =? CH_CARET) eqn:E.
  - apply Z.eqb_eq in E. destruct re as [|c re]; [done|]. change (deref (c :: re)) with c in E. subst.
    rewrite cstr_char by done. apply matchhere_spec.
  - induction text as [|t text IH]; cbn [match_loop].
    + destruct (matchhere re []) eqn:Em.
      * apply matchhere_spec in Em. split; [intros _; by exists [], []|done].
      * split; [done|]. intros (pre & rest & Ht & Hw). symmetry in Ht. apply app_nil in Ht as [-> ->].
        assert (matchhere re [] = true) by by apply matchhere_spec. congruence.
    + destruct (matchhere re (t :: text)) eqn:Em.
      { apply matchhere_spec in Em. split; [intros _; by exists [], (cstr (t :: text))|done]. }
      assert (~ prefix_word (items (cstr re)) (cstr (t :: text))) as Hno.
      { intros Hw. apply matchhere_spec in Hw. congruence. }
      destruct (t =? 0) eqn:Et.
      * apply Z.eqb_eq in Et as ->. split; [done|]. intros (pre & rest & Ht & Hw). symmetry in Ht.
        apply app_nil in Ht as [-> ->]. by destruct Hno.
      * apply Z.eqb_neq in Et. rewrite IH, cstr_char in * by done. split.
        -- intros (pre & rest & -> & Hw). by exists (t :: pre), rest.
        -- intros (pre & rest & Ht & Hw). destruct pre as [|t' pre]; cbn in Ht; [by subst rest|].
           injection Ht as <- ->. by exists pre, rest.
Qed.

(** ** A file that fits the buffer *)

(** A line of a text file, without its newline. *)
Definition is_line (ln : list Z) : Prop := Forall (fun c => c <> 0 /\ c <> CH_NL) ln.
Definition with_nl (ln : list Z) : list Z := ln ++ [CH_NL].

(** The lines grep is to print. *)
Definition grep_spec (pattern : list Z) (lns : list (list Z)) : list Z :=
  concat ((fun ln => if match_re pattern ln then with_nl ln else []) <$> lns).

Lemma strlen_line ln s : is_line ln -> strlen (ln ++ s) = Z.of_nat (length ln) + strlen s.
Proof.
  induction 1 as [|c ln [Hc _] _ IH]; [done|]. cbn. apply Z.eqb_neq in Hc as ->. rewrite IH. lia.
Qed.

Lemma cstr_line ln s : is_line ln -> cstr (ln ++ 0 :: s) = ln.
Proof.
  intros H. unfold cstr. rewrite strlen_line by done. cbn [strlen].
  change (if 0 =? 0 then 0 else 1 + strlen s) with 0. by rewrite Z.add_0_r, Nat2Z.id, take_app_length.
Qed.

(** The result depends on the bytes before the NUL only. *)
Lemma match_re_cstr re t1 t2 : cstr t1 = cstr t2 -> match_re re t1 = match_re re t2.
Proof.
  intros H. apply eq_true_iff_eq. by rewrite !match_re_spec, H.
Qed.

Lemma strchr_line ln s : is_line ln -> strchr (ln ++ CH_NL :: s) CH_NL = Some (length ln).
Proof.
  induction 1 as [|c ln [H0 H1] _ IH]; [done|]. cbn. apply Z.eqb_neq in H0 as ->. apply Z.eqb_neq in H1 as ->.
  by rewrite IH.
Qed.

Lemma grep_line fuel pattern pre ln rest out :
  is_line ln ->
  grep_lines (S fuel) pattern (pre ++ ln ++ CH_NL :: rest) out (length pre) =
  if match_re pattern ln
  then grep_lines fuel pattern (pre ++ ln ++ CH_NL :: rest) (out ++ with_nl ln) (length pre + length ln + 1)
  else grep_lines fuel pattern (pre ++ ln ++ 0 :: rest) out (length pre + length ln + 1).
Proof.
  intros Hln. cbn [grep_lines]. rewrite drop_app_length, strchr_line by done.
  assert (forall x y, <[(length pre + length ln)%nat := x]> (pre ++ ln ++ y :: rest) = pre ++ ln ++ x :: rest) as Hins.
  { intros x y. rewrite insert_app_r_alt by lia. rewrite (Nat.add_comm (length pre)), Nat.add_sub.
    rewrite insert_app_r_alt by lia. by rewrite Nat.sub_diag. }
  rewrite !Hins, !drop_app_length.
  assert (cstr ln = ln) as Hc.
  { unfold cstr. rewrite <- (app_nil_r ln) at 1. rewrite strlen_line by done. cbn.
    by rewrite Z.add_0_r, Nat2Z.id, firstn_all. }
  rewrite (match_re_cstr pattern (ln ++ 0 :: rest) ln) by (rewrite cstr_line by done; by rewrite Hc).
  replace (length pre + length ln + 1 - length pre)%nat with (length (with_nl ln)) by (unfold with_nl; rewrite length_app; cbn; lia).
  replace (ln ++ CH_NL :: rest) with (with_nl ln ++ rest) by (unfold with_nl; by rewrite <- app_assoc).
  by rewrite take_app_length.
Qed.

Lemma grep_lines_spec fuel pattern lns pre out z :
  Forall is_line lns -> (length lns < fuel)%nat ->
  exists buf, length buf = (length pre + length (concat (with_nl <$> lns)) + z)%nat /\
  grep_lines fuel pattern (pre ++ concat (with_nl <$> lns) ++ replicate z 0) out (length pre) =
  (buf, out ++ grep_spec pattern lns, (length pre + length (concat (with_nl <$> lns)))%nat).
Proof.
  intros Hl. revert fuel pre out. induction Hl as [|ln lns Hln Hl IH]; intros fuel pre out Hf; cbn [length] in Hf.
  - destruct fuel as [|fuel]; [lia|]. unfold grep_spec. cbn [grep_lines fmap list_fmap concat app]. rewrite drop_app_length.
    assert (strchr (replicate z 0) CH_NL = None) as -> by by destruct z.
    exists (pre ++ replicate z 0). rewrite length_app, length_replicate, app_nil_r. cbn. by rewrite Nat.add_0_r.
  - destruct fuel as [|fuel]; [lia|]. rewrite fmap_cons. cbn [concat]. unfold with_nl at 3.
    set (rest := concat (with_nl <$> lns) ++ replicate z 0).
    replace (pre ++ ((ln ++ [CH_NL]) ++ concat (with_nl <$> lns)) ++ replicate z 0) with (pre ++ ln ++ CH_NL :: rest)
      by (unfold rest; by rewrite <- !app_assoc).
    rewrite grep_line by done. unfold grep_spec. rewrite fmap_cons. cbn [concat].
    assert (forall x, length (pre ++ ln ++ [x]) = (length pre + length ln + 1)%nat) as Hpl.
    { intros x. rewrite !length_app. cbn. lia. }
    assert (length (with_nl ln) = (length ln + 1)%nat) as Hnl by (unfold with_nl; by rewrite length_app).
    destruct (match_re pattern ln).
    + replace (pre ++ ln ++ CH_NL :: rest) with ((pre ++ ln ++ [CH_NL]) ++ rest) by by rewrite <- !app_assoc.
      rewrite <- (Hpl CH_NL). unfold rest. destruct (IH fuel (pre ++ ln ++ [CH_NL]) (out ++ with_nl ln)) as (buf & Hlen & ->); [lia|].
      exists buf. rewrite Hlen, !Hpl, length_app, Hnl. split; [lia|]. rewrite <- app_assoc. f_equal. lia.
    + replace (pre ++ ln ++ 0 :: rest) with ((pre ++ ln ++ [0]) ++ rest) by by rewrite <- !app_assoc.
      rewrite <- (Hpl 0). unfold rest. destruct (IH fuel (pre ++ ln ++ [0]) out) as (buf & Hlen & ->); [lia|].
      exists buf. rewrite Hlen, !Hpl, length_app, Hnl. split; [lia|]. f_equal. lia.
Qed.

(** A file of lines read in one piece: grep prints the matching lines. *)
Lemma grep_one_read pattern lns :
  Forall is_line lns -> (0 < length (concat (with_nl <$> lns)) <= BUFSIZE)%nat ->
  grep pattern [concat (with_nl <$> lns)] = Some (grep_spec pattern lns).
Proof.
  intros Hl Hlen. unfold grep. set (file := concat (with_nl <$> lns)) in *. cbn [grep_loop fst snd].
  change (Z.to_nat (Z.of_nat BUFSIZE - 0)) with BUFSIZE. rewrite take_ge by lia.
  rewrite decide_False by (intros E; rewrite E in Hlen; cbn in Hlen; lia). change (0 <? 0) with false. cbv iota.
  unfold grep_round. 
  assert (splice 0 file (replicate BUFSIZE 0) = [] ++ file ++ replicate (BUFSIZE - length file) 0) as ->.
  { cbn [app]. rewrite splice_prefix, drop_replicate by (rewrite ?length_replicate; lia). done. }
  destruct (grep_lines_spec (S BUFSIZE) pattern lns [] [] (BUFSIZE - length file)) as (buf & Hb & E); [done| |].
  { assert (length lns <= length file)%nat; [|lia]. unfold file. clear. induction lns as [|ln lns IH]; [done|].
    cbn. rewrite length_app. unfold with_nl at 1. rewrite length_app. cbn. lia. }
  fold file in E. change (length []) with O in E. rewrite E.
  destruct (decide _) as [Hz|_]; [cbn in Hz; unfold file in *; lia|]. 
  destruct (0 <? _); done.
Qed.
