(* ===== verification/Utils.v ===== *)
(** * Small user programs (user/cat.c, user/wc.c, user/echo.c, user/ls.c)

    What the programs print, for the bytes that the calls of [read] return.
    [wc] counts the words of a text however the text is cut into reads. *)

From S2P Require Import Prelude Monad CString Params Ulib.

(** An open file: what the calls of [read] return before the last one, and
    whether the last one fails or is at the end. *)
Record stream := Stream { in_reads : list (list Z); in_error : bool }.

(** The bytes printed, and whether the program has called [exit]. *)
Definition printed : Type := list Z * bool.

Section Programs.
(** [open (path, 0)] *)
Variable openf : list Z -> option stream.

(** The loop of the [main] of a program that runs [f] on each file. *)
Fixpoint each_file (f : stream -> list Z -> printed) (failed : list Z) (argv : list (list Z)) : list Z :=
  match argv with
  | [] => []
  | a :: argv =>
      match openf a with
      | None => printf (failed ++ [10; 0]) [Ustr (Some a)]
      | Some i =>
          let '(out, exited) := f i a in
          if exited then out else out ++ each_file f failed argv
      end
  end.

(** ** cat.c *)

Definition cat (i : stream) : printed :=
  (concat (in_reads i) ++ (if in_error i then printf (bytes_of "cat: read error" ++ [10; 0]) [] else []), in_error i).

Definition cat_main (stdin : stream) (argv : list (list Z)) : list Z :=
  if Z.of_nat (length argv) <=? 1 then (cat stdin).1
  else each_file (fun i _ => cat i) (bytes_of "cat: cannot open %s") (tail argv).

(** ** wc.c *)

(** The second argument of [strchr] is a byte of the buffer. *)
Definition wc_space : list Z := [32; 13; 9; 10; 11; 0].

Record counts := Counts { wc_l : Z; wc_w : Z; wc_c : Z; wc_inword : bool }.

(** One turn of the inner loop. *)
Definition wc_byte (k : counts) (b : Z) : counts :=
  let c := s32 (wc_c k + 1) in
  let l := if b =? 10 then s32 (wc_l k + 1) else wc_l k in
  if has_char wc_space b then Counts l (wc_w k) c false
  else if negb (wc_inword k) then Counts l (s32 (wc_w k + 1)) c true
  else Counts l (wc_w k) c (wc_inword k).

Definition wc (i : stream) (name : list Z) : printed :=
  let k := foldl (foldl wc_byte) (Counts 0 0 0 false) (in_reads i) in
  if in_error i then (printf (bytes_of "wc: read error" ++ [10; 0]) [], true)
  else (printf (bytes_of "%d %d %d %s" ++ [10; 0]) [Uint (wc_l k); Uint (wc_w k); Uint (wc_c k); Ustr (Some name)], false).

(** The message of a file that cannot be opened names [cat]. *)
Definition wc_main (stdin : stream) (argv : list (list Z)) : list Z :=
  if Z.of_nat (length argv) <=? 1 then (wc stdin [0]).1
  else each_file wc (bytes_of "cat: cannot open %s") (tail argv).
End Programs.

(** ** echo.c *)

Fixpoint echo_loop (argv : list (list Z)) : list Z :=
  match argv with
  | [] => []
  | a :: argv =>
      printf (bytes_of "%s%s" ++ [0]) [Ustr (Some a); Ustr (Some (match argv with [] => [10; 0] | _ => [32; 0] end))] ++
      echo_loop argv
  end.
Definition echo_main (argv : list (list Z)) : list Z := echo_loop (tail argv).

(** ** fmtname of ls.c *)

(** The loop of [fmtname]: the index of the last slash of the string in
    positions 0 to [n], -1 when there is none. *)
Fixpoint fmtname_scan (n : nat) (path : list Z) : Z :=
  if nthb path (Z.of_nat n) =? 47 then Z.of_nat n
  else match n with O => -1 | S n => fmtname_scan n path end.

(** The string returned, as a pointer into [path] or the start of [buf]. *)
Definition fmtname (path : list Z) : list Z :=
  let p := drop (Z.to_nat (fmtname_scan (Z.to_nat (strlen path)) path + 1)) path in
  if DIRSIZ <=? strlen p then p
  else take (Z.to_nat (strlen p)) p ++ replicate (Z.to_nat (DIRSIZ - strlen p)) 32 ++ [0].

(** ** The words of a text *)

Definition is_space (b : Z) : Prop := b ∈ [32; 13; 9; 10; 11].

(** A text made of words: spaces, then words each followed by spaces. *)
Definition weave (lead : list Z) (ws : list (list Z * list Z)) : list Z :=
  lead ++ concat ((fun '(w, sep) => w ++ sep) <$> ws).

Definition is_word (w : list Z) : Prop := w <> [] /\ Forall (fun b => ~ is_space b) w.

(** Only after the last word may there be no space. *)
Fixpoint weave_ok (ws : list (list Z * list Z)) : Prop :=
  match ws with
  | [] => True
  | (w, sep) :: ws => is_word w /\ Forall is_space sep /\ (ws = [] \/ sep <> []) /\ weave_ok ws
  end.

Definition newlines (t : list Z) : Z := Z.of_nat (length (filter (fun b => b = 10) t)).

Lemma wc_space_spec b : has_char wc_space b = true <-> is_space b.
Proof. rewrite has_char_spec. done. Qed.

Lemma wc_not_space b : ~ is_space b -> has_char wc_space b = false.
Proof. rewrite <- wc_space_spec. by destruct (has_char wc_space b). Qed.

(** Words that start in a text, from inside or outside a word. *)
Fixpoint word_starts (inword : bool) (t : list Z) : Z :=
  match t with
  | [] => 0
  | b :: t =>
      if has_char wc_space b then word_starts false t
      else (if inword then 0 else 1) + word_starts true t
  end.

Lemma wc_run t : forall l w c b,
  0 <= l <= c -> 0 <= w <= c -> c + Z.of_nat (length t) < 2 ^ 31 ->
  exists b', foldl wc_byte (Counts l w c b) t =
    Counts (l + newlines t) (w + word_starts b t) (c + Z.of_nat (length t)) b'.
Proof.
  induction t as [|x t IH]; intros l w c b Hl Hw Hc.
  { exists b. unfold newlines. simpl. by rewrite !Z.add_0_r. }
  cbn [length] in Hc.
  assert (newlines (x :: t) = (if x =? 10 then 1 else 0) + newlines t) as En.
  { unfold newlines. rewrite filter_cons. destruct (decide (x = 10)) as [->|Hne]; [simpl; lia|].
    by rewrite (proj2 (Z.eqb_neq x 10) Hne). }
  set (l' := l + if x =? 10 then 1 else 0).
  assert (0 <= l' <= c + 1) as Hl' by (unfold l'; destruct (x =? 10); lia).
  assert ((if x =? 10 then s32 (l + 1) else l) = l') as El.
  { unfold l'. destruct (x =? 10); [by rewrite s32_small by lia|lia]. }
  cbn [foldl length]. unfold wc_byte at 2. cbn [wc_l wc_w wc_c wc_inword word_starts].
  rewrite El, (s32_small (c + 1)), (s32_small (w + 1)) by lia.
  destruct (has_char wc_space x); [|destruct b]; cbn [negb].
  - destruct (IH l' w (c + 1) false) as [b' ->]; [lia..|]. exists b'. rewrite En. f_equal; unfold l'; lia.
  - destruct (IH l' w (c + 1) true) as [b' ->]; [lia..|]. exists b'. rewrite En. f_equal; unfold l'; lia.
  - destruct (IH l' (w + 1) (c + 1) true) as [b' ->]; [lia..|]. exists b'. rewrite En. f_equal; unfold l'; lia.
Qed.

Lemma word_starts_spaces sep t b : Forall is_space sep -> sep <> [] -> word_starts b (sep ++ t) = word_starts false t.
Proof.
  intros Hs Hne. destruct sep as [|x sep]; [done|]. inversion_clear Hs as [|? ? Hx Hsep]. cbn [app word_starts].
  rewrite (proj2 (wc_space_spec x) Hx). clear Hx Hne.
  induction Hsep as [|y sep Hy _ IH]; [done|]. cbn [app word_starts]. by rewrite (proj2 (wc_space_spec y) Hy).
Qed.

Lemma word_starts_word w t b : is_word w -> word_starts b (w ++ t) = (if b then 0 else 1) + word_starts true t.
Proof.
  intros [Hne Hw]. destruct w as [|x w]; [done|]. inversion_clear Hw as [|? ? Hx Hw']. cbn [app word_starts].
  rewrite (wc_not_space x Hx). f_equal. clear Hx Hne.
  induction Hw' as [|y w Hy _ IH]; [done|]. cbn [app word_starts]. by rewrite (wc_not_space y Hy).
Qed.

Lemma word_starts_weave ws : weave_ok ws -> word_starts false (weave [] ws) = Z.of_nat (length ws).
Proof.
  unfold weave. induction ws as [|[w sep] ws IH]; [done|]. intros (Hw & Hs & Hsep & Hok). cbn [fmap list_fmap concat app].
  rewrite <- app_assoc, word_starts_word by done. cbn [app] in IH. cbn [length].
  destruct (decide (sep = [])) as [->|Hne].
  - destruct Hsep as [->|?]; [|done]. done.
  - rewrite word_starts_spaces, IH by done. lia.
Qed.

Lemma word_starts_lead lead ws :
  Forall is_space lead -> weave_ok ws -> word_starts false (weave lead ws) = Z.of_nat (length ws).
Proof.
  intros Hl Hok. rewrite <- (word_starts_weave ws Hok). destruct lead as [|x lead]; [done|].
  unfold weave. by rewrite word_starts_spaces.
Qed.

Lemma foldl_concat {A B} (f : A -> B -> A) ls : forall k, foldl (foldl f) k ls = foldl f k (concat ls).
Proof. induction ls as [|l ls IH]; intros k; [done|]. cbn [foldl concat]. by rewrite IH, foldl_app. Qed.

Lemma wc_spec i name lead ws (t := weave lead ws) :
  concat (in_reads i) = t -> in_error i = false -> Forall is_space lead -> weave_ok ws ->
  Z.of_nat (length t) < 2 ^ 31 ->
  wc i name = (printf (bytes_of "%d %d %d %s" ++ [10; 0])
    [Uint (newlines t); Uint (Z.of_nat (length ws)); Uint (Z.of_nat (length t)); Ustr (Some name)], false).
Proof.
  intros Hc He Hl Hok Hlen. unfold wc. rewrite foldl_concat, Hc, He.
  destruct (wc_run t 0 0 0 false) as [b ->]; [lia..|]. cbn [wc_l wc_w wc_c]. unfold t.
  by rewrite word_starts_lead, !Z.add_0_l.
Qed.

(** Every text is made of words. *)
Lemma weave_exists t : exists lead ws, t = weave lead ws /\ Forall is_space lead /\ weave_ok ws.
Proof.
  induction t as [|x t (lead & ws & -> & Hl & Hok)]; [by exists [], []|].
  destruct (decide (is_space x)) as [Hx|Hx].
  { exists (x :: lead), ws. split; [done|]. split; [by constructor|done]. }
  destruct lead as [|y lead].
  - destruct ws as [|[w sep] ws].
    + exists [], [([x], [])]. repeat split; try done; [by constructor|by left].
    + destruct Hok as ([Hne Hw] & Hs & Hsep & Hok). exists [], ((x :: w, sep) :: ws).
      repeat split; try done. by constructor.
  - exists [], (([x], y :: lead) :: ws). repeat split; try done; [by constructor|by right].
Qed.

(** ** The name that [fmtname] returns *)

Lemma fmtname_scan_spec pre name rest n :
  (n <= length name)%nat -> Forall (fun b => b <> 47) name -> deref rest <> 47 -> (pre = [] \/ last pre = Some 47) ->
  fmtname_scan (length pre + n) (pre ++ name ++ rest) = Z.of_nat (length pre) - 1.
Proof.
  intros Hn Hname Hrest Hpre. induction n as [|n IH].
  - rewrite Nat.add_0_r. assert (nthb (pre ++ name ++ rest) (Z.of_nat (length pre)) <> 47) as Hne.
    { unfold nthb. rewrite Nat2Z.id, lookup_app_r, Nat.sub_diag by lia.
      destruct Hname as [|x name Hx _]; [by destruct rest|done]. }
    destruct Hpre as [->|[pre' ->]%last_Some]; [by simpl in *; rewrite (proj2 (Z.eqb_neq _ _) Hne)|].
    rewrite length_app in *. cbn [length] in *. rewrite Nat.add_1_r in *. cbn [fmtname_scan].
    rewrite (proj2 (Z.eqb_neq _ _) Hne).
    assert (nthb ((pre' ++ [47]) ++ name ++ rest) (Z.of_nat (length pre')) = 47) as E.
    { unfold nthb. by rewrite Nat2Z.id, <- app_assoc, lookup_app_r, Nat.sub_diag by lia. }
    destruct (length pre') as [|k] eqn:El; cbn [fmtname_scan]; rewrite E, Z.eqb_refl; lia.
  - rewrite Nat.add_succ_r. cbn [fmtname_scan]. rewrite (proj2 (Z.eqb_neq _ 47)); [apply IH; lia|].
    unfold nthb. rewrite Nat2Z.id, lookup_app_r by lia. replace (S (length pre + n) - length pre)%nat with (S n) by lia.
    destruct (name !! S n) as [y|] eqn:E.
    + rewrite (lookup_app_l_Some _ _ _ _ E). simpl. by apply (Forall_lookup_1 _ _ _ _ Hname E).
    + rewrite lookup_app_r by by apply lookup_ge_None. apply lookup_ge_None in E.
      replace (S n - length name)%nat with 0%nat by lia. by destruct rest.
Qed.

(** The last element of the path, filled up with blanks to DIRSIZ bytes. *)
Lemma fmtname_spec pre name rest :
  Forall (fun b => b <> 0) pre -> Forall (fun b => b <> 0 /\ b <> 47) name -> (pre = [] \/ last pre = Some 47) ->
  cstr (fmtname (pre ++ name ++ 0 :: rest)) = name ++ replicate (Z.to_nat DIRSIZ - length name) 32.
Proof.
  intros Hpre Hname Hl. assert (Forall (fun b => b <> 0) name) as Hn0.
  { eapply Forall_impl; [exact Hname|]. by intros x []. }
  assert (Forall (fun b => b <> 47) name) as Hn47.
  { eapply Forall_impl; [exact Hname|]. by intros x []. }
  assert (forall l, Forall (fun b => b <> 0) l -> strlen (l ++ 0 :: rest) = Z.of_nat (length l)) as Hlen.
  { intros l. induction 1 as [|x l Hx _ IH]; [done|]. cbn [app strlen length]. rewrite (proj2 (Z.eqb_neq x 0) Hx). lia. }
  unfold fmtname. rewrite (app_assoc pre), Hlen, length_app by by apply Forall_app. rewrite <- app_assoc.
  rewrite Nat2Z.id, fmtname_scan_spec by done.
  replace (Z.to_nat (Z.of_nat (length pre) - 1 + 1)) with (length pre) by lia. rewrite drop_app_length, Hlen by done.
  zcase.
  - rewrite cstr_app by done. replace (Z.to_nat DIRSIZ - length name)%nat with 0%nat by lia. by rewrite app_nil_r.
  - rewrite Nat2Z.id, take_app_length, app_assoc, cstr_app by
      (apply Forall_app; split; [done|apply Forall_replicate; lia]).
    do 2 f_equal. lia.
Qed.
