(* ===== verification/Umalloc.v ===== *)
(** * The user memory allocator (user/umalloc.c)

    [malloc] and [free] keep the free memory of a process in a ring of blocks,
    each with a header that has its size and the next block, in the order of
    addresses.  A header is 8 bytes and sizes count headers.  The ring is
    related to a sorted list of blocks, and the two functions are shown to
    take memory from and give it to the set of free bytes. *)

From S2P Require Import Prelude Monad Params.

(** ** Definitions *)

Definition HEADER : Z := 8.

(** The headers by address, as (s.ptr, s.size); [freep]; and the end of the
    process's memory, which [sbrk] moves. *)
Record heap := Heap {
  h_hdr : gmap Z (Z * Z);
  h_freep : Z;
  h_brk : Z;
}.

Definition hdr (p : Z) (h : heap) : Z * Z := default (0, 0) (h_hdr h !! p).
Definition s_ptr (p : Z) (h : heap) : Z := (hdr p h).1.
Definition s_size (p : Z) (h : heap) : Z := (hdr p h).2.
Definition set_ptr (p v : Z) (h : heap) : heap :=
  Heap (<[p := (v, s_size p h)]> (h_hdr h)) (h_freep h) (h_brk h).
Definition set_size (p v : Z) (h : heap) : heap :=
  Heap (<[p := (s_ptr p h, v)]> (h_hdr h)) (h_freep h) (h_brk h).
Definition set_freep (v : Z) (h : heap) : heap := Heap (h_hdr h) v (h_brk h).
Definition set_brk (v : Z) (h : heap) : heap := Heap (h_hdr h) (h_freep h) v.

(** [p + n] on header pointers. *)
Definition padd (p n : Z) : Z := u32 (p + HEADER * n).

Section umalloc.
(** The address of the static header [base], and the system call [sbrk]: the
    new end of memory when the kernel grants [n] more bytes. *)
Context (base : Z) (sbrk_to : Z -> Z -> option Z).

Definition sbrk (n : Z) : M heap Z :=
  let! b := gets h_brk in
  match sbrk_to b n with
  | Some b' => modify (set_brk b');;; ret b
  | None => ret (-1)
  end.

(** The two tests of the loop that looks for the place of [bp]. *)
Definition between (bp p np : Z) : bool := (p <? bp) && (bp <? np).
Definition at_wrap (bp p np : Z) : bool := (np <=? p) && ((p <? bp) || (bp <? np)).

Definition free_step (bp p : Z) : M heap (Z + Z) :=
  let! np := gets (s_ptr p) in
  if between bp p np || at_wrap bp p np then ret (inr p) else ret (inl np).

Definition free (ap : Z) : M heap unit :=
  let bp := ap - HEADER in
  let! fuel := gets (fun h => S (size (h_hdr h))) in
  let! p := gets h_freep in
  let! p := while_fuel fuel (free_step bp) p in
  let! np := gets (s_ptr p) in
  let! sz := gets (s_size bp) in
  (if padd bp sz =? np then
     modify (fun h => set_size bp (u32 (s_size bp h + s_size (s_ptr p h) h)) h);;;
     modify (fun h => set_ptr bp (s_ptr (s_ptr p h) h) h)
   else modify (fun h => set_ptr bp (s_ptr p h) h));;;
  let! psz := gets (s_size p) in
  (if padd p psz =? bp then
     modify (fun h => set_size p (u32 (s_size p h + s_size bp h)) h);;;
     modify (fun h => set_ptr p (s_ptr bp h) h)
   else modify (set_ptr p bp));;;
  modify (set_freep p).

Definition morecore (nu : Z) : M heap Z :=
  let nu := if nu <? 4096 then 4096 else nu in
  let! p := sbrk (s32 (nu * HEADER)) in
  if p =? -1 then ret 0
  else
    modify (set_size p nu);;;
    free (p + HEADER);;;
    gets h_freep.

(** The round of [malloc]'s loop at [p], with [prevp] before it. *)
Definition malloc_step (nunits : Z) '(prevp, p) : M heap ((Z * Z) + Z) :=
  let! sz := gets (s_size p) in
  if nunits <=? sz then
    if sz =? nunits then
      modify (fun h => set_ptr prevp (s_ptr p h) h);;;
      modify (set_freep prevp);;;
      ret (inr (p + HEADER))
    else
      modify (set_size p (sz - nunits));;;
      let q := padd p (sz - nunits) in
      modify (set_size q nunits);;;
      modify (set_freep prevp);;;
      ret (inr (q + HEADER))
  else
    let! fp := gets h_freep in
    if p =? fp then
      let! p := morecore nunits in
      if p =? 0 then ret (inr 0)
      else let! np := gets (s_ptr p) in ret (inl (p, np))
    else
      let! np := gets (s_ptr p) in ret (inl (p, np)).

Definition units (nbytes : Z) : Z := u32 (nbytes + HEADER - 1) / HEADER + 1.

Definition malloc (nbytes : Z) : M heap Z :=
  let nunits := units nbytes in
  let! fp := gets h_freep in
  (if fp =? 0 then
     modify (set_freep base);;;
     modify (set_ptr base base);;;
     modify (set_size base 0)
   else ret tt);;;
  let! prevp := gets h_freep in
  let! fuel := gets (fun h => 2 * size (h_hdr h) + 4)%nat in
  let! p := gets (s_ptr prevp) in
  while_fuel fuel (malloc_step nunits) (prevp, p).
End umalloc.

(** ** The ring as a list of blocks *)

(** A block: the address of its header and its size in headers. *)
Notation block := (Z * Z)%type.

(** The address of the first block of [R], [b] if there is none. *)
Definition first (R : list block) (b : Z) : Z := match R with [] => b | (a, _) :: _ => a end.

(** The blocks of [R] are linked in this order, the last one to [b]. *)
Fixpoint linked (h : heap) (R : list block) (b : Z) : Prop :=
  match R with
  | [] => True
  | (a, s) :: R => h_hdr h !! a = Some (first R b, s) /\ linked h R b
  end.

(** The blocks lie one after the other from [lo] to [hi], with a gap before
    each one: neighbours have been joined. *)
Fixpoint sorted_in (lo : Z) (L : list block) (hi : Z) : Prop :=
  match L with
  | [] => lo <= hi
  | (a, s) :: L => lo < a /\ 0 < s /\ sorted_in (a + HEADER * s) L hi
  end.

Record heap_ok (base : Z) (h : heap) (L : list block) : Prop := {
  ho_base : 0 < base;
  ho_ring : linked h ((base, 0) :: L) base;
  ho_sorted : sorted_in base L (h_brk h);
  ho_brk : base < h_brk h < 2 ^ 32;
  ho_freep : exists s, (h_freep h, s) ∈ (base, 0) :: L;
}.

(** The bytes of free blocks. *)
Definition in_block (b : block) (x : Z) : Prop := b.1 <= x < b.1 + HEADER * b.2.
Definition in_free (L : list block) (x : Z) : Prop := exists b, b ∈ L /\ in_block b x.

(** ** Lists of blocks *)

Lemma first_app R1 R2 b : first (R1 ++ R2) b = first R1 (first R2 b).
Proof. by destruct R1 as [|[a s] R1]. Qed.

Lemma linked_app h R1 R2 b : linked h (R1 ++ R2) b <-> linked h R1 (first R2 b) /\ linked h R2 b.
Proof.
  induction R1 as [|[a s] R1 IH]; cbn; [by split; [|intros [_ ?]]|]. rewrite IH, first_app. tauto.
Qed.

Lemma linked_ext h h' R b :
  (forall a s, (a, s) ∈ R -> h_hdr h' !! a = h_hdr h !! a) -> linked h R b -> linked h' R b.
Proof.
  induction R as [|[a s] R IH]; cbn; [done|]. intros H [Ha Hl]. rewrite (H a s) by by left.
  split; [done|]. apply IH; [|done]. intros a' s' Hin. apply (H a' s'). by right.
Qed.

Lemma linked_hdr h R b a s :
  linked h R b -> (a, s) ∈ R -> s_size a h = s.
Proof.
  induction R as [|[a' s'] R IH]; [by intros _ ?%elem_of_nil|]. intros [Ha Hl] [Heq|Hin]%elem_of_cons; [|auto].
  simplify_eq. unfold s_size, hdr. by rewrite Ha.
Qed.

Lemma sorted_app lo L1 L2 hi :
  sorted_in lo (L1 ++ L2) hi <-> exists mid, sorted_in lo L1 mid /\ sorted_in mid L2 hi /\
    (L1 = [] -> mid = lo) /\ (forall a s, last L1 = Some (a, s) -> mid = a + HEADER * s).
Proof.
  revert lo. induction L1 as [|[a s] L1 IH]; intros lo; cbn [app sorted_in].
  - split; [intros H; exists lo; by split_and!|]. intros (mid & _ & H & E & _). by rewrite <- (E eq_refl).
  - split.
    + intros (H1 & H2 & (mid & Ha & Hb & Hc & Hd)%IH). exists mid. split; [done|]. split; [done|]. split; [done|].
      intros a' s' Hl. destruct L1 as [|x L1]; [cbn in Hl; simplify_eq; by apply Hc|]. by apply Hd.
    + intros (mid & (H1 & H2 & Ha) & Hb & _ & Hd). split; [done|]. split; [done|]. apply IH. exists mid.
      split; [done|]. split; [done|]. split; [intros ->; by apply Hd|]. intros a' s' Hl. apply Hd.
      destruct L1; [done|done].
Qed.

Lemma sorted_bounds lo L hi : sorted_in lo L hi ->
  lo <= hi /\ forall a s, (a, s) ∈ L -> lo < a /\ 0 < s /\ a + HEADER * s <= hi.
Proof.
  revert lo. induction L as [|[a s] L IH]; intros lo; cbn; [intros H; split; [done|by intros ?? ?%elem_of_nil]|].
  intros (H1 & H2 & [H3 H4]%IH). unfold HEADER in *. split; [lia|].
  intros a' s' [Heq|Hin]%elem_of_cons; [simplify_eq; lia|]. apply H4 in Hin. lia.
Qed.

(** Ascending addresses, below [b]. *)
Fixpoint asc (R : list block) (b : Z) : Prop :=
  match R with [] => True | (a, _) :: R => a < first R b /\ asc R b end.

Lemma asc_app R1 R2 b : asc (R1 ++ R2) b <-> asc R1 (first R2 b) /\ asc R2 b.
Proof. induction R1 as [|[a s] R1 IH]; cbn; [tauto|]. rewrite IH, first_app. tauto. Qed.

Lemma asc_first R b : asc R b -> first R b <= b.
Proof.
  induction R as [|[a s] R IH]; cbn; [lia|]. intros [H1 H2%IH]. lia.
Qed.

Lemma sorted_asc lo L hi b : sorted_in lo L hi -> hi < b -> lo < first L b /\ asc L b.
Proof.
  revert lo. induction L as [|[a s] L IH]; intros lo; cbn; [lia|]. intros (H1 & H2 & H3) Hb.
  split; [done|]. destruct (IH _ H3 Hb) as [H4 H5]. unfold HEADER in *. split; [lia|done].
Qed.

Lemma asc_lt R b a t : asc R b -> (a, t) ∈ R -> a < b.
Proof.
  induction R as [|[a' s] R IH]; [by intros _ ?%elem_of_nil|]. intros [H1 H2] [Heq|Hin]%elem_of_cons; [|by apply IH].
  simplify_eq. apply asc_first in H2. lia.
Qed.

(** Membership in lists built with [++] and [::]. *)
Ltac in_list := rewrite ?elem_of_app, ?elem_of_cons, ?elem_of_app, ?elem_of_cons; tauto.

(** The place of a block that overlaps no free one. *)
Lemma sorted_split lo L hi bp s :
  sorted_in lo L hi -> 0 < s ->
  (forall a t, (a, t) ∈ L -> a + HEADER * t <= bp \/ bp + HEADER * s <= a) ->
  exists L1 L2, L = L1 ++ L2 /\ (forall a t, (a, t) ∈ L1 -> a + HEADER * t <= bp) /\
    (forall a t, (a, t) ∈ L2 -> bp + HEADER * s <= a).
Proof.
  revert lo. induction L as [|[a t] L IH]; intros lo; cbn [sorted_in].
  - intros _ _ _. exists [], []. split_and!; [done|set_solver..].
  - intros (H1 & H2 & Hs) Hpos Hd. destruct (Hd a t) as [Hle|Hge]; [by left| |].
    + destruct (IH _ Hs Hpos) as (L1 & L2 & -> & Ha & Hb); [intros; apply Hd; by right|].
      exists ((a, t) :: L1), L2. split_and!; [done| |done].
      intros a' t' [Heq|Hin]%elem_of_cons; [by simplify_eq|by apply (Ha a' t')].
    + exists [], ((a, t) :: L). split_and!; [done|set_solver|].
      intros a' t' [Heq|Hin]%elem_of_cons; [by simplify_eq|].
      apply sorted_bounds in Hs as [_ Hs]. apply Hs in Hin. unfold HEADER in *. lia.
Qed.

(** Distinct addresses: the map of headers is large enough for the ring. *)
Lemma linked_size h L hi base :
  linked h ((base, 0) :: L) base -> sorted_in base L hi -> (S (length L) <= size (h_hdr h))%nat.
Proof.
  intros Hl Hs. assert (forall R b, linked h R b -> NoDup (fst <$> R) -> (length R <= size (h_hdr h))%nat) as H.
  { intros R b HR Hnd. rewrite <- size_dom. rewrite <- (length_fmap fst R), <- (size_list_to_set (C := gset Z)) by done.
    apply subseteq_size. intros a Ha. rewrite elem_of_list_to_set in Ha. apply elem_of_dom.
    apply list_elem_of_fmap in Ha as ([a' s] & -> & Hin). clear Hnd.
    induction R as [|[a t] R IH]; [by apply elem_of_nil in Hin|]. destruct HR as [Hh HR].
    apply elem_of_cons in Hin as [Heq|Hin]; [simplify_eq; cbn; by rewrite Hh|by apply IH]. }
  apply (H _ base Hl). cbn. assert (forall lo L, sorted_in lo L hi -> NoDup (fst <$> L) /\ forall a, a ∈ fst <$> L -> lo < a) as Hn.
  { clear. intros lo L. revert lo. induction L as [|[a s] L IH]; intros lo; cbn [sorted_in].
    - intros _. split; [constructor|]. cbn. set_solver.
    - intros (H1 & H2 & [H3 H4]%IH). rewrite fmap_cons. cbn. unfold HEADER in *. split.
      + constructor; [|done]. intros Hin. apply H4 in Hin. lia.
      + intros a' [->|Hin]%elem_of_cons; [done|]. apply H4 in Hin. lia. }
  destruct (Hn _ _ Hs) as [H1 H2]. constructor; [|done]. intros Hin. apply H2 in Hin. lia.
Qed.

(** ** free *)

Section specs.
Context (base : Z).

(** A walk over blocks at which the loop of [free] does not stop. *)
Lemma free_walk h bp X b f :
  linked h X b ->
  (forall X1 a s X2, X = X1 ++ (a, s) :: X2 ->
     between bp a (first X2 b) = false /\ at_wrap bp a (first X2 b) = false) ->
  while_fuel (length X + f) (free_step bp) (first X b) h = while_fuel f (free_step bp) b h.
Proof.
  revert b. induction X as [|[a s] X IH]; intros b; [done|]. intros [Ha Hl] Hno. cbn [length Nat.add].
  rewrite while_fuel_S. unfold bind at 1, free_step at 1. cbn [first].
  destruct (Hno [] a s X eq_refl) as [H1 H2].
  assert (s_ptr a h = first X b) as E by (unfold s_ptr, hdr; by rewrite Ha).
  unfold bind, gets. rewrite E, H1, H2. cbn [orb ret]. rewrite <- IH; [done|done|].
  intros X1 a' s' X2 ->. apply (Hno ((a, s) :: X1) a' s' X2). done.
Qed.

(** The block before [bp] stops the loop. *)
Lemma free_stop h bp pa ps L2 :
  h_hdr h !! pa = Some (first L2 base, ps) -> base <= pa < bp ->
  (forall a t, (a, t) ∈ L2 -> bp < a) -> free_step bp pa h = Ret (inr pa) h.
Proof.
  intros Ha Hlt Hgt. unfold free_step, bind, gets.
  assert (s_ptr pa h = first L2 base) as -> by (unfold s_ptr, hdr; by rewrite Ha).
  assert (between bp pa (first L2 base) || at_wrap bp pa (first L2 base) = true) as ->; [|done].
  unfold between, at_wrap. destruct L2 as [|[a t] L2]; cbn [first].
  - apply orb_true_iff. right. rewrite andb_true_iff, orb_true_iff, Z.leb_le, !Z.ltb_lt. lia.
  - specialize (Hgt a t ltac:(by left)). apply orb_true_iff. left. rewrite andb_true_iff, !Z.ltb_lt. lia.
Qed.

(** Blocks of the ring in front of the place of [bp] do not stop it. *)
Lemma before_no_stop bp X b X1 a s X2 :
  asc X b -> b < bp -> X = X1 ++ (a, s) :: X2 ->
  between bp a (first X2 b) = false /\ at_wrap bp a (first X2 b) = false.
Proof.
  intros Hs Hb ->. apply asc_app in Hs as [_ [Hlt Hs]]. apply asc_first in Hs. unfold between, at_wrap. split.
  - apply andb_false_iff. right. apply Z.ltb_ge. lia.
  - apply andb_false_iff. left. apply Z.leb_gt. lia.
Qed.

(** Nor do those behind it. *)
Lemma behind_no_stop bp X hi X1 a s X2 :
  asc X hi -> base < bp -> (forall a t, (a, t) ∈ X -> bp < a) -> X = X1 ++ (a, s) :: X2 ->
  between bp a (first X2 base) = false /\ at_wrap bp a (first X2 base) = false.
Proof.
  intros Hs Hb Hgt ->. assert (bp < a) as Ha by (apply (Hgt a s); set_solver).
  apply asc_app in Hs as [_ [Hlt _]].
  unfold between, at_wrap. split; [apply andb_false_iff; left; apply Z.ltb_ge; lia|].
  apply andb_false_iff. destruct X2 as [|[a2 s2] X2]; cbn [first] in *.
  - right. apply orb_false_iff. rewrite !Z.ltb_ge. lia.
  - left. apply Z.leb_gt. lia.
Qed.

(** The loop of [free] finds the block before [bp]. *)
Lemma free_find h L1 L2 bp R1 pa ps :
  heap_ok base h (L1 ++ L2) -> (base, 0) :: L1 = R1 ++ [(pa, ps)] -> base < bp ->
  (forall a t, (a, t) ∈ L1 -> a < bp) -> (forall a t, (a, t) ∈ L2 -> bp < a) ->
  while_fuel (S (size (h_hdr h))) (free_step bp) (h_freep h) h = Ret pa h.
Proof.
  intros [Hb Hr Hs Hbrk [fs Hfp]] ER Hbp Hlt Hgt.
  pose proof (linked_size h (L1 ++ L2) _ base Hr Hs) as Hsz. rewrite length_app in Hsz.
  assert (length L1 = length R1) as Hlen.
  { apply (f_equal length) in ER. rewrite length_app in ER. cbn in ER. lia. }
  rewrite app_comm_cons, ER, <- app_assoc in Hr, Hfp. cbn [app] in Hr, Hfp.
  assert (base <= pa < bp) as Hpa.
  { assert ((pa, ps) ∈ (base, 0) :: L1) as Hin by (rewrite ER; set_solver).
    apply elem_of_cons in Hin as [?|Hin]; [simplify_eq; lia|]. split; [|by apply (Hlt pa ps)].
    apply sorted_bounds in Hs as [_ Hs]. destruct (Hs pa ps); [set_solver|lia]. }
  destruct (sorted_asc _ _ _ (h_brk h + 1) Hs) as [Hb1 Hasc]; [lia|].
  assert (asc ((base, 0) :: L1 ++ L2) (h_brk h + 1)) as Ha by (split; [exact Hb1|exact Hasc]).
  rewrite app_comm_cons, ER, <- app_assoc in Ha. apply asc_app in Ha as [HaR [_ Ha2]]. cbn [app first] in HaR, Ha2.
  apply linked_app in Hr as [HlR [Hp Hl2]]. cbn [first] in HlR.
  assert (forall f, while_fuel (S f) (free_step bp) pa h = Ret pa h) as Hstop.
  { intros f. rewrite while_fuel_S. unfold bind.
    rewrite (free_stop h bp pa ps L2); [done|done|done|]. intros a t Hin. by apply (Hgt a t). }
  assert (forall A Y f, R1 = A ++ Y -> while_fuel (length Y + S f) (free_step bp) (first Y pa) h = Ret pa h) as Hfront.
  { intros A Y f ->. apply linked_app in HlR as [_ HlY]. apply asc_app in HaR as [_ HaY].
    rewrite (free_walk h bp Y pa); [done|done|]. intros X1 a s X2 EX. eapply before_no_stop; [done|lia|done]. }
  apply elem_of_app in Hfp as [Hin|[Heq|Hin]%elem_of_cons].
  - apply list_elem_of_split in Hin as (A & Y & EA).
    replace (S (size (h_hdr h))) with (length ((h_freep h, fs) :: Y) + S (size (h_hdr h) - length ((h_freep h, fs) :: Y)))%nat.
    + apply (Hfront A). done.
    + rewrite EA, length_app in Hlen. cbn in *. lia.
  - simplify_eq. apply Hstop.
  - apply list_elem_of_split in Hin as (A & Y & EA). subst L2. apply linked_app in Hl2 as [_ HlY].
    apply asc_app in Ha2 as [_ HaY].
    replace (S (size (h_hdr h))) with
      (length ((h_freep h, fs) :: Y) + (length R1 + S (size (h_hdr h) - length ((h_freep h, fs) :: Y) - length R1)))%nat
      by (rewrite !length_app in *; cbn in *; lia).
    rewrite (free_walk h bp ((h_freep h, fs) :: Y) base); [|done|].
    + assert (first R1 pa = base) as <- by (destruct R1; cbn in ER; by simplify_eq). by apply (Hfront []).
    + intros X1 a s X2 EX. apply (behind_no_stop bp ((h_freep h, fs) :: Y) (h_brk h + 1) X1 a s X2); [exact HaY|exact Hbp| |exact EX]. intros a' t' Hin. apply (Hgt a' t'). set_solver.
Qed.

(** Joining a block with the one behind it, if they touch. *)
Definition join_right (bp s : Z) (L2 : list block) : Z * list block :=
  match L2 with
  | (a, t) :: L => if bp + HEADER * s =? a then (s + t, L) else (s, L2)
  | [] => (s, [])
  end.

Lemma join_right_spec bp s L2 lo hi s' L2' :
  join_right bp s L2 = (s', L2') -> sorted_in lo L2 hi -> 0 < s -> bp + HEADER * s <= hi ->
  (forall a t, (a, t) ∈ L2 -> bp + HEADER * s <= a) ->
  s <= s' /\ sorted_in (bp + HEADER * s') L2' hi /\ (forall b, b ∈ L2' -> b ∈ L2) /\
  forall x, in_free ((bp, s') :: L2') x <-> in_block (bp, s) x \/ in_free L2 x.
Proof.
  intros E Hs Hpos Hhi Hge. unfold in_free, in_block, HEADER in *. destruct L2 as [|[a t] L2]; cbn [join_right] in E.
  - simplify_eq. split; [lia|]. split; [done|]. split; [done|]. intros x. split; [|intros [Hx|Hx]; set_solver].
    intros (b & Hb & Hx). left. apply list_elem_of_singleton in Hb. by subst.
  - destruct Hs as (H1 & H2 & Hs). pose proof (Hge a t ltac:(by left)) as Ha.
    unfold HEADER in *. destruct (bp + 8 * s =? a) eqn:Eq; zbool; simplify_eq.
    + split; [lia|]. split; [replace (bp + 8 * (s + t)) with (bp + 8 * s + 8 * t) by lia; done|].
      split; [intros; by right|]. intros x. split.
      * intros (b & [->|Hb]%elem_of_cons & Hx); cbn in Hx; [|right; exists b; split; [by right|done]].
        destruct (decide (x < bp + 8 * s)); [left; cbn; lia|]. right. eexists. split; [by left|]. cbn. lia.
      * intros [Hx|(b & [->|Hb]%elem_of_cons & Hx)]; cbn in Hx; [eexists; split; [by left|]; cbn; lia..|].
        exists b. split; [by right|done].
    + split; [lia|]. split; [cbn; split; [lia|by split]|]. split; [done|]. intros x. split.
      * intros (b & [->|Hb]%elem_of_cons & Hx); [by left|]. right. by exists b.
      * intros [Hx|(b & Hb & Hx)]; [eexists; split; [by left|done]|]. exists b. split; [by right|done].
Qed.

Lemma join_right_list h bp s L2 s' L2' :
  join_right bp s L2 = (s', L2') -> linked h L2 base -> linked h L2' base /\ (length L2' <= length L2)%nat.
Proof.
  intros Hj Hl. destruct L2 as [|[a t] L2]; cbn in Hj; [by simplify_eq|].
  destruct (_ =? a); simplify_eq; [|done]. split; [apply Hl|cbn; lia].
Qed.

(** The state after the first [if] of [free]. *)
Lemma free_right h bp s L2 pa s' L2' :
  linked h L2 base -> s_ptr pa h = first L2 base -> s_size bp h = s ->
  join_right bp s L2 = (s', L2') -> 0 < s -> 0 < base < bp -> pa <> bp -> bp + HEADER * s < 2 ^ 32 ->
  (forall a t, (a, t) ∈ L2 -> 0 < t /\ a + HEADER * t < 2 ^ 32 /\ bp + HEADER * s <= a) ->
  exists h1, (if padd bp s =? first L2 base then
     modify (fun h => set_size bp (u32 (s_size bp h + s_size (s_ptr pa h) h)) h);;;
     modify (fun h => set_ptr bp (s_ptr (s_ptr pa h) h) h)
   else modify (fun h => set_ptr bp (s_ptr pa h) h)) h = Ret tt h1 /\
   h1 = Heap (<[bp := (first L2' base, s')]> (h_hdr h)) (h_freep h) (h_brk h).
Proof.
  intros Hl Hp Hs Hj Hpos Hb Hne Hlim Hall. unfold padd, HEADER in *. rewrite u32_small by lia.
  destruct L2 as [|[a t] L2]; cbn [join_right first] in *; unfold HEADER in *.
  - injection Hj as <- <-. assert ((bp + 8 * s =? base) = false) as -> by (apply Z.eqb_neq; lia).
    eexists. split; [done|]. unfold set_ptr. by rewrite Hp, Hs.
  - destruct Hl as [Ha Hl]. destruct (Hall a t) as (Ht & Hlt & Hge); [by left|].
    destruct (bp + 8 * s =? a) eqn:E; zbool; injection Hj as <- <-.
    + eexists. split; [done|]. assert (s_ptr a h = first L2 base /\ s_size a h = t) as [Ea1 Ea2].
      { unfold s_ptr, s_size, hdr. by rewrite Ha. }
      assert (forall x v h, x <> bp -> s_ptr x (set_size bp v h) = s_ptr x h) as Hne'.
      { intros x v h0 Hx. unfold s_ptr, hdr, set_size. cbn. by rewrite lookup_insert_ne. }
      rewrite (Hne' pa) by done. rewrite Hp, Hs, (Hne' a), Ea1, Ea2 by lia.
      unfold set_ptr, set_size, s_size, hdr. cbn. rewrite lookup_insert_eq, insert_insert_eq. cbn.
      by rewrite u32_small by lia.
    + eexists. split; [done|]. unfold set_ptr. by rewrite Hp, Hs.
Qed.

(** Joining it with the one in front of it. *)
Definition join_left (pa ps bp s : Z) : list block :=
  if pa + HEADER * ps =? bp then [(pa, ps + s)] else [(pa, ps); (bp, s)].

Lemma join_left_spec mid pa ps bp s L hi :
  mid < pa -> 0 < ps -> pa + HEADER * ps <= bp -> 0 < s -> sorted_in (bp + HEADER * s) L hi ->
  sorted_in mid (join_left pa ps bp s ++ L) hi /\
  forall x, in_free (join_left pa ps bp s) x <-> in_block (pa, ps) x \/ in_block (bp, s) x.
Proof.
  intros H1 H2 H3 H4 Hs. unfold join_left, in_free, in_block, HEADER in *.
  destruct (pa + 8 * ps =? bp) eqn:E; zbool; cbn [app sorted_in]; unfold HEADER.
  - split; [split; [done|]; split; [lia|]; by replace (pa + 8 * (ps + s)) with (bp + 8 * s) by lia|].
    intros x. split.
    + intros (b & ->%list_elem_of_singleton & Hx). cbn in *. lia.
    + intros Hx. eexists. split; [by left|]. cbn in *. lia.
  - split; [split; [done|]; split; [done|]; split; [lia|]; by split|]. intros x. split.
    + intros (b & [->|Hb]%elem_of_cons & Hx); [by left|]. apply list_elem_of_singleton in Hb as ->. by right.
    + intros [Hx|Hx]; eexists; (split; [|exact Hx]); set_solver.
Qed.

(** The second [if]. *)
Lemma free_left h pa ps bp s np :
  pa <> bp -> s_size pa h = ps -> h_hdr h !! bp = Some (np, s) ->
  0 <= pa + HEADER * ps < 2 ^ 32 -> 0 <= ps + s < 2 ^ 32 ->
  (let! psz := gets (s_size pa) in
   (if padd pa psz =? bp then
      modify (fun h => set_size pa (u32 (s_size pa h + s_size bp h)) h);;;
      modify (fun h => set_ptr pa (s_ptr bp h) h)
    else modify (set_ptr pa bp));;;
   modify (set_freep pa)) h =
  Ret tt (Heap (<[pa := if pa + HEADER * ps =? bp then (np, ps + s) else (bp, ps)]> (h_hdr h)) pa (h_brk h)).
Proof.
  intros Hne Hps Hbp H1 H2. unfold bind at 1, gets. rewrite Hps. unfold padd. rewrite u32_small by done.
  assert (s_ptr bp h = np /\ s_size bp h = s) as [E1 E2] by (unfold s_ptr, s_size, hdr; by rewrite Hbp).
  destruct (pa + HEADER * ps =? bp).
  - unfold bind, modify. rewrite Hps, E2, u32_small by done.
    assert (forall v, s_ptr bp (set_size pa v h) = np) as ->.
    { intros v. unfold s_ptr, hdr, set_size. cbn. by rewrite lookup_insert_ne, Hbp. }
    unfold set_freep, set_ptr, set_size, s_size, hdr. cbn. by rewrite lookup_insert_eq, insert_insert_eq.
  - unfold bind, modify, set_freep, set_ptr. by rewrite Hps.
Qed.

(** The run of [free], with the header of the block in front. *)
Lemma free_run h L1 L2 bp s R1 pa ps s' L2' :
  heap_ok base h (L1 ++ L2) -> (base, 0) :: L1 = R1 ++ [(pa, ps)] -> base < bp -> s_size bp h = s -> 0 < s ->
  bp + HEADER * s <= h_brk h ->
  (forall a t, (a, t) ∈ L1 -> a + HEADER * t <= bp) -> (forall a t, (a, t) ∈ L2 -> bp + HEADER * s <= a) ->
  join_right bp s L2 = (s', L2') ->
  free (bp + HEADER) h = Ret tt (Heap (<[pa := if pa + HEADER * ps =? bp then (first L2' base, ps + s') else (bp, ps)]>
    (<[bp := (first L2' base, s')]> (h_hdr h))) pa (h_brk h)).
Proof.
  intros Hok ER Hbp Hs Hpos Hbrk Hle Hge Hj. pose proof Hok as [Hb Hr Hso Hlim _].
  pose proof Hso as (mid2 & _ & Hso2 & _)%sorted_app. apply sorted_bounds in Hso as [_ Hall].
  assert (forall a t, (a, t) ∈ L1 -> a < bp) as Hlt1.
  { intros a t Hin. specialize (Hle a t Hin). destruct (Hall a t); [set_solver|]. unfold HEADER in *. lia. }
  assert (forall a t, (a, t) ∈ L2 -> bp < a) as Hgt2.
  { intros a t Hin. specialize (Hge a t Hin). unfold HEADER in *. lia. }
  pose proof (free_find h L1 L2 bp R1 pa ps Hok ER Hbp Hlt1 Hgt2) as Hfind.
  rewrite app_comm_cons, ER, <- app_assoc in Hr. apply linked_app in Hr as [_ [Hp Hl2]]. cbn [app] in Hp, Hl2.
  assert (s_ptr pa h = first L2 base /\ s_size pa h = ps) as [Epp Eps] by (unfold s_ptr, s_size, hdr; by rewrite Hp).
  assert (base <= pa < bp /\ pa + HEADER * ps <= bp /\ 0 <= ps) as (Hpa & Hpe & Hps).
  { assert ((pa, ps) ∈ (base, 0) :: L1) as Hin by (rewrite ER; set_solver).
    apply elem_of_cons in Hin as [?|Hin]; [simplify_eq; unfold HEADER; lia|].
    destruct (Hall pa ps); [set_solver|]. split; [specialize (Hlt1 pa ps Hin); lia|]. split; [by apply Hle|lia]. }
  destruct (free_right h bp s L2 pa s' L2') as (h1 & Hrun & Eh1); [done|done|done|done|done|lia|lia|unfold HEADER in *; lia| |].
  { intros a t Hin. destruct (Hall a t) as (H1 & H2 & H3); [set_solver|]. split; [done|]. split; [lia|by apply (Hge a t)]. }
  unfold free. rewrite Z.add_simpl_r. unfold bind at 1 2 3, gets at 1 2. rewrite Hfind.
  unfold bind at 1 2, gets at 1 2. rewrite Epp, Hs. unfold bind at 1. rewrite Hrun. subst h1.
  destruct (join_right_spec bp s L2 mid2 (h_brk h) s' L2') as (Hss & Hso' & _ & _); [done|done|done|done|done|].
  apply sorted_bounds in Hso' as [Hend _].
  rewrite (free_left _ pa ps bp s' (first L2' base)); [done|lia| |apply lookup_insert_eq|..]; unfold HEADER in *; [|lia..].
  unfold s_size, hdr. cbn. rewrite lookup_insert_ne by lia. by rewrite Hp.
Qed.

(** The ring after [free]: the blocks in front, the joined block, the blocks
    behind. *)
Lemma free_ring h L1 L2 bp s' L2' R1 pa ps :
  linked h ((base, 0) :: L1 ++ L2) base -> (base, 0) :: L1 = R1 ++ [(pa, ps)] ->
  linked h L2' base -> (forall b, b ∈ L2' -> b ∈ L2) ->
  (forall a t, (a, t) ∈ R1 -> a <> pa /\ a <> bp) -> (forall a t, (a, t) ∈ L2 -> a <> pa /\ a <> bp) -> pa <> bp ->
  linked (Heap (<[pa := if pa + HEADER * ps =? bp then (first L2' base, ps + s') else (bp, ps)]>
    (<[bp := (first L2' base, s')]> (h_hdr h))) pa (h_brk h))
    (R1 ++ join_left pa ps bp s' ++ L2') base.
Proof.
  intros Hr ER Hl2 Hsub Hn1 Hn2 Hne. rewrite app_comm_cons, ER, <- app_assoc in Hr.
  apply linked_app in Hr as [Hr1 _]. cbn [app first] in Hr1. set (h' := Heap _ _ _).
  assert (forall a, a <> pa -> a <> bp -> h_hdr h' !! a = h_hdr h !! a) as Ho.
  { intros a H1 H2. unfold h'. cbn. by rewrite !lookup_insert_ne. }
  assert (linked h' L2' base) as Hl2'.
  { eapply linked_ext; [|exact Hl2]. intros a t Hin. apply Ho; by apply (Hn2 a t), Hsub. }
  apply linked_app. split.
  - assert (first (join_left pa ps bp s' ++ L2') base = pa) as -> by (unfold join_left; by destruct (_ =? _)).
    eapply linked_ext; [|exact Hr1]. intros a t Hin. apply Ho; by apply (Hn1 a t).
  - unfold h', join_left in *. destruct (pa + HEADER * ps =? bp); cbn [app linked first h_hdr].
    + by rewrite lookup_insert_eq.
    + rewrite lookup_insert_eq. split; [done|]. rewrite lookup_insert_ne, lookup_insert_eq by done. done.
Qed.

Lemma in_free_app A B x : in_free (A ++ B) x <-> in_free A x \/ in_free B x.
Proof. unfold in_free. setoid_rewrite elem_of_app. naive_solver. Qed.

Lemma in_free_cons b B x : in_free (b :: B) x <-> in_block b x \/ in_free B x.
Proof. unfold in_free. setoid_rewrite elem_of_cons. naive_solver. Qed.

Lemma in_free_nil x : ~ in_free [] x.
Proof. intros (b & ?%elem_of_nil & _). done. Qed.

(** [free] adds a block's bytes to the free ones and keeps the heap in
    order. *)
Lemma free_spec h L bp s :
  heap_ok base h L -> base < bp -> s_size bp h = s -> 0 < s -> bp + HEADER * s <= h_brk h ->
  (forall a t, (a, t) ∈ L -> a + HEADER * t <= bp \/ bp + HEADER * s <= a) ->
  wp (free (bp + HEADER)) (fun _ h' => exists L', heap_ok base h' L' /\ h_brk h' = h_brk h /\
    (forall x, in_free L' x <-> in_free L x \/ in_block (bp, s) x) /\
    (exists b, b ∈ L' /\ s <= b.2) /\ (length L' <= S (length L))%nat /\
    forall a, a <> base -> ~ in_free L a -> a <> bp -> h_hdr h' !! a = h_hdr h !! a) h.
Proof.
  intros Hok Hbp Hs Hpos Hbrk Hdis. pose proof Hok as [Hb Hr Hso Hlim _].
  destruct (sorted_split base L (h_brk h) bp s) as (L1 & L2 & -> & Hle & Hge); [done..|].
  destruct (join_right bp s L2) as [s' L2'] eqn:Hj.
  destruct (exists_last (l := (base, 0) :: L1)) as (R1 & [pa ps] & ER); [done|].
  unfold wp. rewrite (free_run h L1 L2 bp s R1 pa ps s' L2'); [|done..].
  pose proof Hso as (mid2 & Hs1 & Hso2 & Hm1 & Hm2)%sorted_app.
  destruct (join_right_spec bp s L2 mid2 (h_brk h) s' L2') as (Hss & Hso' & Hsub & Hfree2); [done..|].
  apply sorted_bounds in Hso as [_ Hall].
  assert (forall a t, (a, t) ∈ L1 -> base < a < bp) as Hlt1.
  { intros a t Hin. specialize (Hle a t Hin). destruct (Hall a t); [set_solver|]. unfold HEADER in *. lia. }
  assert (forall a t, (a, t) ∈ L2 -> bp < a) as Hgt2.
  { intros a t Hin. specialize (Hge a t Hin). unfold HEADER in *. lia. }
  destruct (join_right_list h bp s L2 s' L2') as [Hl2 Hlen2]; [done| |].
  { rewrite app_comm_cons in Hr. by apply linked_app in Hr as [_ Hl2]. }
  assert (forall J, (forall x, in_free J x <-> in_free L1 x \/ in_block (bp, s') x) ->
    forall x, in_free (J ++ L2') x <-> in_free (L1 ++ L2) x \/ in_block (bp, s) x) as HJ.
  { intros J HJ x. rewrite !in_free_app, HJ. specialize (Hfree2 x). rewrite in_free_cons in Hfree2. tauto. }
  destruct L1 as [|b0 L1' _] using rev_ind.
  - destruct R1 as [|r R1]; [|by destruct R1]. injection ER as <- <-.
    assert (join_left base 0 bp s' = [(base, 0); (bp, s')]) as EJ.
    { unfold join_left, HEADER. by replace (base + 8 * 0 =? bp) with false by (symmetry; apply Z.eqb_neq; lia). }
    exists ((bp, s') :: L2'). split; [split; cbn [h_brk h_freep]|split; [done|split; [|split; [|split]]]].
    + done.
    + pose proof (free_ring h [] L2 bp s' L2' [] base 0) as H. rewrite EJ in H. apply H; try done; [by intros a t ?%elem_of_nil| |lia].
      intros a t Hin. specialize (Hgt2 a t Hin). lia.
    + cbn. rewrite <- (Hm1 eq_refl) in *. split; [done|]. split; [lia|done].
    + done.
    + exists 0. by left.
    + apply (HJ [(bp, s')]). intros x. rewrite in_free_cons. pose proof (in_free_nil x). tauto.
    + exists (bp, s'). split; [by left|done].
    + cbn. lia.
    + intros a Ha Hf Hne. cbn. by rewrite !lookup_insert_ne.
  - destruct b0 as [qa qs]. rewrite app_comm_cons in ER. apply app_inj_tail in ER as [<- Eq]. injection Eq as -> ->.
    destruct (Hlt1 pa ps) as [Hpa1 Hpa2]; [set_solver|].
    apply sorted_app in Hs1 as (mid1 & Hs1 & (Hq1 & Hq2 & _) & Hm3 & Hm4).
    destruct (join_left_spec mid1 pa ps bp s' L2' (h_brk h)) as [HsJ HfJ]; [done|done|apply Hle; set_solver|lia|done|].
    assert (in_free ((L1' ++ [(pa, ps)]) ++ L2) pa) as Hpf.
    { exists (pa, ps). split; [set_solver|]. unfold in_block, HEADER. cbn. lia. }
    exists (L1' ++ join_left pa ps bp s' ++ L2').
    split; [split; cbn [h_brk h_freep]|split; [done|split; [|split; [|split]]]].
    + done.
    + apply (free_ring h (L1' ++ [(pa, ps)]) L2 bp s' L2' ((base, 0) :: L1') pa ps); try done.
      * intros a t [Heq|Hin]%elem_of_cons; [simplify_eq; lia|].
        destruct (Hlt1 a t) as [H1 H2]; [set_solver|]. apply sorted_bounds in Hs1 as [_ Hs1]. apply Hs1 in Hin.
        unfold HEADER in *. lia.
      * intros a t Hin. specialize (Hgt2 a t Hin). lia.
      * lia.
    + apply sorted_app. exists mid1. by split_and!.
    + done.
    + unfold join_left. destruct (_ =? _); [exists (ps + s')|exists ps]; set_solver.
    + rewrite app_assoc. apply HJ. intros x. rewrite !in_free_app, HfJ, in_free_cons. pose proof (in_free_nil x). tauto.
    + unfold join_left. destruct (_ =? _); [exists (pa, ps + s')|exists (bp, s')]; (split; [set_solver|cbn; lia]).
    + rewrite !length_app. unfold join_left. destruct (_ =? _); cbn; lia.
    + intros a Ha Hf Hne. cbn. rewrite !lookup_insert_ne; [done|done|]. by intros ->.
Qed.

(** ** malloc *)

(** A block of [n] headers at [a] has left the free memory. *)
Record taken (h : heap) (L : list block) (a n : Z) (h' : heap) (L' : list block) : Prop := {
  tk_ok : heap_ok base h' L';
  tk_brk : h_brk h' = h_brk h;
  tk_size : s_size a h' = n;
  tk_from : forall x, in_block (a, n) x -> in_free L x;
  tk_free : forall x, in_free L' x <-> in_free L x /\ ~ in_block (a, n) x;
  tk_other : forall b, b <> base -> ~ in_free L b -> h_hdr h' !! b = h_hdr h !! b;
}.

(** The blocks of a sorted list do not overlap. *)
Lemma sorted_apart lo L1 p sz L2 hi :
  sorted_in lo (L1 ++ (p, sz) :: L2) hi ->
  0 < sz /\ (forall a t, (a, t) ∈ L1 -> a + HEADER * t < p) /\ (forall a t, (a, t) ∈ L2 -> p + HEADER * sz < a).
Proof.
  intros (mid & Hs1 & (H1 & H2 & Hs2) & _)%sorted_app. apply sorted_bounds in Hs1 as [_ Hs1], Hs2 as [_ Hs2].
  split; [done|]. split; [intros a t Hin; apply Hs1 in Hin; lia|intros a t Hin; apply Hs2 in Hin; lia].
Qed.

Lemma unlink_sorted lo L1 p sz L2 hi : sorted_in lo (L1 ++ (p, sz) :: L2) hi -> sorted_in lo (L1 ++ L2) hi.
Proof.
  intros (mid & Hs1 & (H1 & H2 & Hs2) & Ha & Hb)%sorted_app. apply sorted_app. exists mid. split_and!; try done.
  destruct L2 as [|[a t] L2]; cbn in *; unfold HEADER in *; [lia|]. destruct Hs2 as (H3 & H4 & H5). split; [lia|done].
Qed.

Lemma shrink_sorted lo L1 p sz n L2 hi :
  sorted_in lo (L1 ++ (p, sz) :: L2) hi -> 0 < n < sz -> sorted_in lo (L1 ++ (p, sz - n) :: L2) hi.
Proof.
  intros (mid & Hs1 & (H1 & H2 & Hs2) & Ha & Hb)%sorted_app Hn. apply sorted_app. exists mid. split_and!; try done.
  split; [done|]. split; [lia|]. destruct L2 as [|[a t] L2]; cbn in *; unfold HEADER in *; [lia|].
  destruct Hs2 as (H3 & H4 & H5). split; [lia|done].
Qed.

Section take.
Context (sbrk_to : Z -> Z -> option Z).

(** The block [p] in the ring, with [q] in front of it. *)
Lemma ring_at h L1 p sz L2 R1 q qs :
  heap_ok base h (L1 ++ (p, sz) :: L2) -> (base, 0) :: L1 = R1 ++ [(q, qs)] ->
  (linked h R1 q /\ h_hdr h !! q = Some (p, qs) /\ h_hdr h !! p = Some (first L2 base, sz) /\ linked h L2 base) /\
  base <= q < p /\ (forall a t, (a, t) ∈ R1 -> a < q) /\ (q <> base -> in_free (L1 ++ (p, sz) :: L2) q).
Proof.
  intros [Hb Hr Hso Hlim Hfp] ER. destruct (sorted_apart _ _ _ _ _ _ Hso) as (Hpos & Hlt & _).
  pose proof Hso as [_ Hall]%sorted_bounds.
  assert ((q, qs) = (base, 0) \/ (q, qs) ∈ L1) as Hq.
  { apply elem_of_cons. rewrite ER. in_list. }
  assert (forall a t, (a, t) ∈ L1 -> base < a /\ 0 < t) as HL1.
  { intros a t Hin. destruct (Hall a t) as (H1 & H2 & _); [in_list|done]. }
  split; [|split; [|split]].
  - rewrite app_comm_cons, ER, <- app_assoc in Hr. apply linked_app in Hr as [Hl1 (Hq' & Hp & Hl2)]. done.
  - destruct (Hall p sz) as [Hbp _]; [in_list|]. destruct Hq as [?|Hin]; [simplify_eq; lia|].
    specialize (Hlt q qs Hin). specialize (HL1 q qs Hin). unfold HEADER in *. lia.
  - intros a t. apply asc_lt. destruct (sorted_asc _ _ _ (h_brk h + 1) Hso) as [Hb1 Hasc]; [lia|].
    assert (asc ((base, 0) :: L1 ++ (p, sz) :: L2) (h_brk h + 1)) as Ha by (split; [exact Hb1|exact Hasc]).
    rewrite app_comm_cons, ER, <- app_assoc in Ha. by apply asc_app in Ha as [HaR _].
  - intros Hne. destruct Hq as [?|Hin]; [by simplify_eq|]. exists (q, qs). split; [in_list|].
    specialize (HL1 q qs Hin). unfold in_block, HEADER. cbn. lia.
Qed.

(** The bytes of one block and those of the others. *)
Lemma in_free_mid L1 b L2 x : in_free (L1 ++ b :: L2) x <-> in_free (L1 ++ L2) x \/ in_block b x.
Proof. rewrite !in_free_app, in_free_cons. tauto. Qed.

Lemma mid_apart lo L1 p sz L2 hi x :
  sorted_in lo (L1 ++ (p, sz) :: L2) hi -> in_block (p, sz) x -> ~ in_free (L1 ++ L2) x.
Proof.
  intros (_ & Hlt & Hgt)%sorted_apart Hx ([a t] & [Hin|Hin]%elem_of_app & Hx'); unfold in_block, HEADER in *; cbn in *;
    [apply Hlt in Hin|apply Hgt in Hin]; lia.
Qed.

(** A block that fits exactly is taken out of the ring. *)
Lemma take_exact h L1 p sz L2 R1 q qs :
  heap_ok base h (L1 ++ (p, sz) :: L2) -> (base, 0) :: L1 = R1 ++ [(q, qs)] ->
  exists h', malloc_step sbrk_to sz (q, p) h = Ret (inr (p + HEADER)) h' /\
    taken h (L1 ++ (p, sz) :: L2) p sz h' (L1 ++ L2).
Proof.
  intros Hok ER. destruct (ring_at _ _ _ _ _ _ _ _ Hok ER) as ((Hl1 & Hq & Hp & Hl2) & Hqp & HR1 & Hqf).
  destruct Hok as [Hb _ Hso Hlim _]. destruct (sorted_apart _ _ _ _ _ _ Hso) as (Hpos & _ & Hgt).
  assert (s_size p h = sz /\ s_ptr p h = first L2 base) as [Es Ep] by (unfold s_size, s_ptr, hdr; by rewrite Hp).
  assert (s_size q h = qs) as Eq by (unfold s_size, hdr; by rewrite Hq).
  eexists. split.
  { unfold malloc_step, bind, gets. rewrite Es, Z.leb_refl, Z.eqb_refl. unfold modify. rewrite Ep. unfold ret. done. }
  unfold set_freep, set_ptr. rewrite Eq. cbn [h_hdr h_brk]. set (h' := Heap _ _ _).
  assert (forall a, a <> q -> h_hdr h' !! a = h_hdr h !! a) as Ho by (intros a Ha; unfold h'; cbn; by rewrite lookup_insert_ne).
  split.
  - split; [done| |by eapply unlink_sorted|done|].
    + rewrite app_comm_cons, ER, <- app_assoc. apply linked_app. cbn [app first]. split.
      * eapply linked_ext; [|exact Hl1]. intros a t Hin. apply Ho. specialize (HR1 a t Hin). lia.
      * split; [unfold h'; cbn; by rewrite lookup_insert_eq|]. eapply linked_ext; [|exact Hl2].
        intros a t Hin. apply Ho. specialize (Hgt a t Hin). unfold HEADER in *. lia.
    + exists qs. rewrite app_comm_cons, ER. cbn. in_list.
  - done.
  - unfold s_size, hdr. rewrite Ho by lia. by rewrite Hp.
  - intros x Hx. apply in_free_mid. by right.
  - intros x. rewrite in_free_mid. pose proof (mid_apart _ _ _ _ _ _ x Hso). tauto.
  - intros b Hbb Hf. apply Ho. intros ->. by apply Hf, Hqf.
Qed.

(** A larger block loses its tail. *)
Lemma take_split h L1 p sz L2 R1 q qs n :
  heap_ok base h (L1 ++ (p, sz) :: L2) -> (base, 0) :: L1 = R1 ++ [(q, qs)] -> 0 < n < sz ->
  exists h', malloc_step sbrk_to n (q, p) h = Ret (inr (p + HEADER * (sz - n) + HEADER)) h' /\
    taken h (L1 ++ (p, sz) :: L2) (p + HEADER * (sz - n)) n h' (L1 ++ (p, sz - n) :: L2).
Proof.
  intros Hok ER Hn. destruct (ring_at _ _ _ _ _ _ _ _ Hok ER) as ((Hl1 & Hq & Hp & Hl2) & Hqp & HR1 & Hqf).
  destruct Hok as [Hb _ Hso Hlim _]. destruct (sorted_apart _ _ _ _ _ _ Hso) as (Hpos & _ & Hgt).
  assert (p + HEADER * sz <= h_brk h) as Hend.
  { apply sorted_bounds in Hso as [_ Hall]. destruct (Hall p sz) as (_ & _ & ?); [in_list|done]. }
  assert (s_size p h = sz) as Es by (unfold s_size, hdr; by rewrite Hp).
  assert (s_ptr p h = first L2 base) as Ep by (unfold s_ptr, hdr; by rewrite Hp).
  eexists. split.
  { unfold malloc_step, bind, gets. rewrite Es. assert ((n <=? sz) = true) as -> by (apply Z.leb_le; lia).
    assert ((sz =? n) = false) as -> by (apply Z.eqb_neq; lia). unfold modify, padd.
    rewrite u32_small by (unfold HEADER in *; lia). unfold ret. done. }
  unfold set_freep, set_size. cbn [h_hdr h_brk]. rewrite Ep. set (h' := Heap _ _ _).
  set (p' := p + HEADER * (sz - n)) in *. assert (p < p' < p + HEADER * sz) as Hp' by (unfold p', HEADER; lia).
  assert (forall a, a <> p -> a <> p' -> h_hdr h' !! a = h_hdr h !! a) as Ho.
  { intros a H1 H2. unfold h'. cbn. by rewrite !lookup_insert_ne. }
  assert (h_hdr h' !! p = Some (first L2 base, sz - n)) as Hhp.
  { unfold h'. cbn. rewrite lookup_insert_ne by lia. by rewrite lookup_insert_eq. }
  assert (forall x, in_block (p, sz) x <-> in_block (p, sz - n) x \/ in_block (p', n) x) as Hsplit.
  { intros x. unfold in_block, p', HEADER. cbn. lia. }
  assert (forall x, in_block (p, sz - n) x -> ~ in_block (p', n) x) as Hsep.
  { intros x. unfold in_block, p', HEADER. cbn. lia. }
  split.
  - split; [done| |by apply shrink_sorted|done|].
    + rewrite app_comm_cons, ER, <- app_assoc. apply linked_app. cbn [app first]. split.
      * eapply linked_ext; [|exact Hl1]. intros a t Hin. specialize (HR1 a t Hin). apply Ho; lia.
      * split; [rewrite Ho by lia; done|]. split; [done|]. eapply linked_ext; [|exact Hl2].
        intros a t Hin. specialize (Hgt a t Hin). apply Ho; unfold HEADER in *; lia.
    + exists qs. rewrite app_comm_cons, ER. cbn. in_list.
  - done.
  - unfold s_size, hdr, h'. cbn. by rewrite lookup_insert_eq.
  - intros x Hx. apply in_free_mid. right. apply Hsplit. by right.
  - intros x. rewrite !in_free_mid, Hsplit. pose proof (mid_apart _ _ _ _ _ _ x Hso) as Hm. rewrite Hsplit in Hm.
    specialize (Hsep x). tauto.
  - intros b Hbb Hf. assert (in_block (p, sz) b -> False) as Hno by (intros Hx; apply Hf, in_free_mid; by right).
    unfold in_block, HEADER in *. cbn in Hno. apply Ho; intros ->; apply Hno; lia.
Qed.

(** The address of the last block of [X], [a] if there is none. *)
Definition last_addr (a : Z) (X : list block) : Z := default a (fst <$> last X).

(** A walk over blocks that are too small. *)
Lemma malloc_walk h n X prev b f :
  linked h X b -> (forall a s, (a, s) ∈ X -> s < n /\ a <> h_freep h) ->
  while_fuel (length X + f) (malloc_step sbrk_to n) (prev, first X b) h =
  while_fuel f (malloc_step sbrk_to n) (last_addr prev X, b) h.
Proof.
  revert prev. induction X as [|[a s] X IH]; intros prev; [done|]. intros [Ha Hl] Hno. cbn [length Nat.add].
  rewrite while_fuel_S. destruct (Hno a s) as [Hs Hf]; [by left|].
  assert (malloc_step sbrk_to n (prev, first ((a, s) :: X) b) h = Ret (inl (a, first X b)) h) as E.
  { cbn [first]. unfold malloc_step, bind, gets.
    assert (s_size a h = s) as -> by (unfold s_size, hdr; by rewrite Ha).
    assert ((n <=? s) = false) as -> by (apply Z.leb_gt; lia).
    assert ((a =? h_freep h) = false) as -> by by apply Z.eqb_neq.
    unfold s_ptr, hdr. by rewrite Ha. }
  unfold bind. rewrite E, IH; [|done|intros; by apply Hno; right].
  unfold last_addr. rewrite last_cons. by destruct (last X) as [[? ?]|].
Qed.

(** In the list of blocks as the search meets them, every block but [base]
    comes after its predecessor in the ring. *)
Lemma ring_pred (R A B X Y : list block) fp fs p sz :
  R = A ++ (fp, fs) :: B -> B ++ A ++ [(fp, fs)] = X ++ (p, sz) :: Y ->
  head R <> Some (p, sz) -> exists R1 qs R2, R = R1 ++ (last_addr fp X, qs) :: (p, sz) :: R2.
Proof.
  intros ER EC Hh. apply app_eq_inv in EC as [(k & EB & EC)|(k & EX & EA)].
  - destruct k as [|b k]; cbn in EC.
    + rewrite app_nil_r in EB. subst X. destruct A as [|a A]; cbn in EC; simplify_eq; by cbn in Hh.
    + injection EC as <- ->. subst B. unfold last_addr.
      destruct X as [|x X _] using rev_ind; cbn.
      * by exists A, fs, k.
      * rewrite last_snoc. destruct x as [q qs]. cbn. exists (A ++ (fp, fs) :: X), qs, k.
        rewrite ER. by rewrite <- !app_assoc.
  - destruct k as [|x k _] using rev_ind.
    + rewrite app_nil_r in EX. subst X. destruct A as [|a A]; cbn in EA; simplify_eq; by cbn in Hh.
    + destruct x as [q qs]. subst X. unfold last_addr. rewrite app_assoc, last_snoc. cbn.
      exists k, qs, (Y ++ B). rewrite ER. replace (A ++ (fp, fs) :: B) with ((A ++ [(fp, fs)]) ++ B) by by rewrite <- app_assoc.
      rewrite EA. by rewrite <- !app_assoc.
Qed.

(** The ring as the search meets it: [B], then [A], then [freep] itself. *)
Lemma search_order h L :
  heap_ok base h L -> exists A B fs, (base, 0) :: L = A ++ (h_freep h, fs) :: B /\
    linked h (B ++ A) (h_freep h) /\ s_ptr (h_freep h) h = first (B ++ A) (h_freep h) /\
    s_size (h_freep h) h = fs /\ (forall a s, (a, s) ∈ B ++ A -> a <> h_freep h).
Proof.
  intros [Hb Hr Hso Hlim [fs Hfp]]. apply list_elem_of_split in Hfp as (A & B & ER). exists A, B, fs. split; [done|].
  destruct (sorted_asc _ _ _ (h_brk h + 1) Hso) as [Hb1 Hasc]; [lia|].
  assert (asc ((base, 0) :: L) (h_brk h + 1)) as Ha by (split; [exact Hb1|exact Hasc]).
  assert (first A (h_freep h) = base) as Ef by (destruct A; cbn in ER; by simplify_eq).
  rewrite ER in Hr, Ha. apply linked_app in Hr as [HlA [Hh HlB]]. apply asc_app in Ha as [HaA [Hlt HaB]]. cbn [first] in *.
  split; [apply linked_app; by rewrite Ef|]. unfold s_ptr, s_size, hdr. rewrite Hh, first_app, Ef. cbn.
  split; [done|]. split; [done|]. intros a s [Hin|Hin]%elem_of_app.
  - assert (forall R b, asc R b -> first R b <= a \/ (a, s) ∉ R) as Hge.
    { clear. induction R as [|[a' s'] R IH]; intros b; [right; set_solver|]. intros [H1 H2]. cbn [first].
      destruct (IH b H2) as [H|H]; [left; lia|]. destruct (decide ((a, s) = (a', s'))) as [E|E]; [left; simplify_eq; lia|].
      right. by apply not_elem_of_cons. }
    destruct (Hge B _ HaB) as [H|H]; [|done]. lia.
  - specialize (asc_lt _ _ _ _ HaA Hin). lia.
Qed.

Lemma first_fit (n : Z) (C : list block) :
  (exists b, b ∈ C /\ n <= b.2) ->
  exists X p sz Y, C = X ++ (p, sz) :: Y /\ n <= sz /\ forall a s, (a, s) ∈ X -> s < n.
Proof.
  induction C as [|[a s] C IH]; [intros (b & ?%elem_of_nil & _); done|]. intros (b & Hin & Hb).
  destruct (decide (n <= s)) as [Hf|Hf]; [exists [], a, s, C; split_and!; [done|done|set_solver]|].
  destruct IH as (X & p & sz & Y & -> & Hsz & HX).
  { apply elem_of_cons in Hin as [->|Hin]; [done|]. by exists b. }
  exists ((a, s) :: X), p, sz, Y. split_and!; [done|done|]. intros a' s' [Heq|Hx]%elem_of_cons; [|by apply (HX a' s')].
  simplify_eq. lia.
Qed.

(** With a block that is large enough the search takes one. *)
Lemma search_hit h L n f :
  heap_ok base h L -> 0 < n -> (exists b, b ∈ L /\ n <= b.2) -> (length L < f)%nat ->
  exists h' a L', while_fuel f (malloc_step sbrk_to n) (h_freep h, s_ptr (h_freep h) h) h = Ret (a + HEADER) h' /\
    taken h L a n h' L'.
Proof.
  intros Hok Hn (b & Hbin & Hbn) Hf. destruct (search_order h L Hok) as (A & B & fs & ER & Hl & Ep & Es & Hne).
  set (fp := h_freep h) in *.
  assert (b ∈ B ++ A ++ [(fp, fs)]) as HbC.
  { assert (b ∈ (base, 0) :: L) as H by in_list. rewrite ER in H. revert H. in_list. }
  destruct (first_fit n (B ++ A ++ [(fp, fs)])) as (X & p & sz & Y & EC & Hsz & HX); [by exists b|].
  assert (length X < f)%nat as HlX.
  { apply (f_equal length) in EC, ER. rewrite !length_app in EC. rewrite length_app in ER. cbn [length] in *. lia. }
  assert (exists k, B ++ A = X ++ k) as [k EX].
  { rewrite app_assoc in EC. apply app_eq_inv in EC as [(k & E1 & _)|(k & E1 & E2)]; [by exists k|].
    destruct k as [|x k]; [exists []; by rewrite app_nil_r in *|]. cbn in E2. injection E2 as _ E2. by destruct k. }
  assert (linked h X p) as HlX'.
  { rewrite app_assoc, EX, <- app_assoc in EC. apply app_inv_head in EC. rewrite EX in Hl. apply linked_app in Hl as [Hl _].
    replace p with (first k fp); [done|]. by destruct k as [|[? ?] k]; cbn in *; simplify_eq. }
  assert (first (B ++ A) fp = first X p) as Ef.
  { rewrite app_assoc, EX, <- app_assoc in EC. apply app_inv_head in EC. rewrite EX, first_app. f_equal.
    by destruct k as [|[? ?] k]; cbn in *; simplify_eq. }
  destruct (ring_pred ((base, 0) :: L) A B X Y fp fs p sz) as (R1 & qs & R2 & ER'); [done|done|cbn; intros ?; simplify_eq; lia|].
  replace f with (length X + S (f - length X - 1))%nat by lia. rewrite Ep, Ef, malloc_walk; [|done|].
  2: { intros a s Hin. split; [by apply (HX a s)|]. apply (Hne a s). rewrite EX. in_list. }
  set (q := last_addr fp X) in *.
  replace (R1 ++ (q, qs) :: (p, sz) :: R2) with ((R1 ++ [(q, qs)]) ++ (p, sz) :: R2) in ER' by by rewrite <- app_assoc.
  destruct (R1 ++ [(q, qs)]) as [|r L1] eqn:E1; [by destruct R1|]. cbn in ER'. injection ER' as <- ->. symmetry in E1.
  rewrite while_fuel_S. unfold bind. destruct (decide (sz = n)) as [->|Hsn].
  - destruct (take_exact h L1 p n R2 R1 q qs Hok E1) as (h' & -> & Ht). exists h', p, (L1 ++ R2). done.
  - destruct (take_split h L1 p sz R2 R1 q qs n Hok E1) as (h' & -> & Ht); [lia|].
    exists h', (p + HEADER * (sz - n)), (L1 ++ (p, sz - n) :: R2). done.
Qed.

(** [sbrk] of [m] bytes moves the end of memory by [m], or fails
    ([sys_sbrk] and [growproc] of the kernel). *)
Context (Hsbrk : forall b m b', 0 <= m < 2 ^ 31 -> sbrk_to b m = Some b' -> b' = b + m /\ b' < 2 ^ 32).

(** The memory between two ends is free now, the rest is as it was. *)
Record grown (h : heap) (L : list block) (h' : heap) (L' : list block) : Prop := {
  gw_ok : heap_ok base h' L';
  gw_brk : h_brk h <= h_brk h';
  gw_free : forall x, in_free L' x <-> in_free L x \/ h_brk h <= x < h_brk h';
  gw_other : forall a, a <> base -> ~ in_free L a -> ~ h_brk h <= a < h_brk h' -> h_hdr h' !! a = h_hdr h !! a;
}.

Lemma grown_refl h L : heap_ok base h L -> grown h L h L.
Proof. intros H. split; [done|lia| |done]. intros x. split; [tauto|]. intros [?|?]; [done|lia]. Qed.

Lemma sorted_up lo L hi hi' : sorted_in lo L hi -> hi <= hi' -> sorted_in lo L hi'.
Proof.
  revert lo. induction L as [|[a s] L IH]; intros lo; cbn; [lia|]. intros (H1 & H2 & H3) H4. split_and!; [done..|]. by apply IH.
Qed.

Lemma morecore_spec h L n :
  heap_ok base h L -> 0 < n < 2 ^ 28 ->
  wp (morecore sbrk_to n) (fun r h' => r = 0 /\ h' = h \/
    r <> 0 /\ r = h_freep h' /\ exists L', grown h L h' L' /\
      (exists b, b ∈ L' /\ n <= b.2) /\ (length L' <= S (length L))%nat) h.
Proof.
  intros Hok Hn. pose proof Hok as [Hb Hr Hso Hlim [fs Hfp]]. pose proof Hso as [Hbr Hall]%sorted_bounds.
  unfold morecore. set (nu := if n <? 4096 then 4096 else n).
  assert (n <= nu /\ 0 < nu < 2 ^ 28) as [Hnu Hnu2] by (unfold nu; destruct (n <? 4096) eqn:E; zbool; lia).
  rewrite s32_small by (unfold HEADER; lia). unfold sbrk.
  wstep. wstep. wstep. destruct (sbrk_to (h_brk h) (nu * HEADER)) as [b'|] eqn:Esb.
  2: { wstep. change (-1 =? -1) with true. wstep. by left. }
  apply Hsbrk in Esb as [-> Hb']; [|unfold HEADER; lia]. wstep. wstep. wstep.
  assert ((h_brk h =? -1) = false) as -> by (apply Z.eqb_neq; lia). wstep. wstep.
  set (bp := h_brk h) in *. set (h1 := set_size bp nu (set_brk (bp + nu * HEADER) h)).
  assert (forall a, a <> bp -> h_hdr h1 !! a = h_hdr h !! a) as Ho by (intros a Ha; unfold h1; cbn; by rewrite lookup_insert_ne).
  assert (heap_ok base h1 L) as Hok1.
  { split; [done| | |unfold h1, HEADER in *; cbn; lia|by exists fs].
    - eapply linked_ext; [|exact Hr]. intros a s [Heq|Hin]%elem_of_cons; apply Ho.
      + simplify_eq. lia.
      + destruct (Hall a s Hin) as (_ & ? & ?). unfold HEADER in *. lia.
    - eapply sorted_up; [exact Hso|]. unfold h1, HEADER. cbn. lia. }
  wcall (free_spec h1 L bp nu); [done|lia|unfold s_size, hdr, h1; cbn; by rewrite lookup_insert_eq|lia| | |].
  { unfold h1, HEADER. cbn. lia. }
  { intros a t Hin. left. by apply (Hall a t). }
  cbv beta. intros _ h2 (L' & Hok2 & Hbrk2 & Hfree & (b & Hbin & Hbs) & Hlen & Hoth). wstep. right.
  assert (h_freep h2 <> 0) as Hnz.
  { destruct Hok2 as [_ _ Hs2 _ [s Hin]]. apply elem_of_cons in Hin as [?|Hin]; [simplify_eq; lia|].
    apply sorted_bounds in Hs2 as [_ Hs2]. apply Hs2 in Hin. lia. }
  assert (h_brk h2 = bp + nu * HEADER) as Eb by by rewrite Hbrk2.
  split; [done|]. split; [done|]. exists L'. split; [|split; [exists b; split; [done|lia]|done]]. split; [done| | |].
  - rewrite Eb. unfold HEADER. fold bp. lia.
  - intros x. rewrite Hfree, Eb. fold bp. unfold in_block, HEADER. cbn. split; (intros [?|?]; [by left|right; lia]).
  - intros a Ha Hf Hout. fold bp in Hout. rewrite Eb in Hout. unfold HEADER in *. rewrite Hoth, Ho; [done|..]; try done; intros ->; lia.
Qed.

(** Without one it asks for more memory. *)
Lemma search_miss h L n f :
  heap_ok base h L -> 0 < n -> (forall a s, (a, s) ∈ L -> s < n) ->
  while_fuel (S (length L) + f) (malloc_step sbrk_to n) (h_freep h, s_ptr (h_freep h) h) h =
  (let! p := morecore sbrk_to n in
   if p =? 0 then ret 0
   else let! np := gets (s_ptr p) in while_fuel f (malloc_step sbrk_to n) (p, np)) h.
Proof.
  intros Hok Hn Hsm. destruct (search_order h L Hok) as (A & B & fs & ER & Hl & Ep & Es & Hne).
  assert (forall a s, (a, s) ∈ (base, 0) :: L -> s < n) as HR.
  { intros a s [Heq|Hin]%elem_of_cons; [by simplify_eq|by apply (Hsm a s)]. }
  assert (length L = length (B ++ A)) as Hlen.
  { apply (f_equal length) in ER. rewrite length_app in *. cbn [length] in ER. lia. }
  replace (S (length L) + f)%nat with (length (B ++ A) + S f)%nat by lia. rewrite Ep, malloc_walk; [|done|].
  2: { intros a s Hin. split; [|by apply (Hne a s)]. apply (HR a). rewrite ER. revert Hin. in_list. }
  rewrite while_fuel_S. unfold malloc_step at 1. unfold bind at 1 2, gets at 1. rewrite Es.
  assert ((n <=? fs) = false) as ->.
  { apply Z.leb_gt, (HR (h_freep h)). rewrite ER. in_list. }
  unfold bind at 1, gets at 1. rewrite Z.eqb_refl. unfold bind, gets, ret.
  destruct (morecore sbrk_to n h) as [p h'| | |]; try done. by destruct (p =? 0).
Qed.

(** The heap between calls: before the first [malloc] [freep] is 0. *)
Definition heap_inv (h : heap) (L : list block) : Prop :=
  heap_ok base h L \/ h_freep h = 0 /\ L = [] /\ 0 < base < h_brk h /\ h_brk h < 2 ^ 32.

(** The search from a heap that is in order. *)
Lemma malloc_search h L n f :
  heap_ok base h L -> 0 < n < 2 ^ 28 -> (2 * S (length L) + 1 <= f)%nat ->
  wp (while_fuel f (malloc_step sbrk_to n) (h_freep h, s_ptr (h_freep h) h)) (fun r h' =>
    r = 0 /\ h' = h /\ (forall a s, (a, s) ∈ L -> s < n) \/
    exists h1 L1 L', r <> 0 /\ grown h L h1 L1 /\ taken h1 L1 (r - HEADER) n h' L') h.
Proof.
  intros Hok Hn Hf. destruct (decide (Exists (fun b => n <= b.2) L)) as [Hex|Hno].
  - apply Exists_exists in Hex as (b & Hb). destruct (search_hit h L n f) as (h' & a & L' & E & Ht);
      [done|lia|by exists b|lia|].
    unfold wp. rewrite E. right. exists h, L, L'. rewrite Z.add_simpl_r.
    split; [|by split; [apply grown_refl|]].
    assert (in_free L a) as ([a' t] & Hin & Hx) by (apply Ht; unfold in_block, HEADER; cbn; lia).
    destruct Hok as [Hpos _ [_ Hs]%sorted_bounds _ _]. apply Hs in Hin. unfold in_block, HEADER in *. cbn in Hx. lia.
  - assert (forall a s, (a, s) ∈ L -> s < n) as Hsm.
    { intros a s Hin. destruct (Z.lt_ge_cases s n); [done|]. destruct Hno. apply Exists_exists. by exists (a, s). }
    unfold wp. replace f with (S (length L) + (f - S (length L)))%nat by lia. rewrite search_miss; [|done|lia|done].
    change (wp (let! p := morecore sbrk_to n in if p =? 0 then ret 0 else let! np := gets (s_ptr p) in
      while_fuel (f - S (length L)) (malloc_step sbrk_to n) (p, np)) (fun r h' =>
      r = 0 /\ h' = h /\ (forall a s, (a, s) ∈ L -> s < n) \/
      exists h1 L1 L', r <> 0 /\ grown h L h1 L1 /\ taken h1 L1 (r - HEADER) n h' L') h).
    wcall (morecore_spec h L n); [done|done|]. cbv beta. intros p h1 [[-> ->]|(Hp & -> & L1 & Hg & Hex & Hlen)].
    { change (0 =? 0) with true. wstep. by left. }
    assert ((h_freep h1 =? 0) = false) as -> by by apply Z.eqb_neq. wstep. wstep.
    destruct (search_hit h1 L1 n (f - S (length L))) as (h' & a & L' & E & Ht); [apply Hg|lia|done|lia|].
    unfold wp. rewrite E. right. exists h1, L1, L'. rewrite Z.add_simpl_r. split; [|done].
    assert (in_free L1 a) as ([a' t] & Hin & Hx) by (apply Ht; unfold in_block, HEADER; cbn; lia).
    destruct (gw_ok _ _ _ _ Hg) as [Hpos _ [_ Hs]%sorted_bounds _ _]. apply Hs in Hin.
    unfold in_block, HEADER in *. cbn in Hx. lia.
Qed.

Lemma units_spec nbytes : 0 <= nbytes < 2 ^ 31 - 15 ->
  0 < units nbytes < 2 ^ 28 /\ nbytes <= HEADER * (units nbytes - 1) < nbytes + HEADER.
Proof.
  intros H. unfold units, HEADER. rewrite u32_small by lia.
  pose proof (Z.div_mod (nbytes + 8 - 1) 8 ltac:(done)). pose proof (Z.mod_pos_bound (nbytes + 8 - 1) 8 ltac:(done)).
  split; [|lia]. split; [|lia]. lia.
Qed.

(** The bound is exact: from 2^31 - 15 bytes on, until the rounding up wraps
    around, [morecore] asks [sbrk] for a negative number of bytes. *)
Lemma units_negative nbytes : 2 ^ 31 - 15 <= nbytes < 2 ^ 32 - 15 ->
  4096 <= units nbytes /\ s32 (units nbytes * HEADER) < 0.
Proof.
  intros H. unfold units, HEADER. rewrite u32_small by lia.
  pose proof (Z.div_mod (nbytes + 8 - 1) 8 ltac:(done)). pose proof (Z.mod_pos_bound (nbytes + 8 - 1) 8 ltac:(done)).
  split; [lia|]. set (u := ((nbytes + 8 - 1) / 8 + 1) * 8). assert (2 ^ 31 <= u < 2 ^ 32) as Hu by (unfold u; lia).
  unfold s32. rewrite u32_small by lia. destruct (Z.ltb_spec u (2 ^ 31)); lia.
Qed.

(** The first call makes the ring of [base] alone. *)
Lemma heap_start h :
  h_freep h = 0 -> 0 < base < h_brk h -> h_brk h < 2 ^ 32 ->
  grown h [] (set_size base 0 (set_ptr base base (set_freep base h))) [].
Proof.
  intros Hf Hb Hl. assert (heap_ok base (set_size base 0 (set_ptr base base (set_freep base h))) []) as Hok.
  { split; [lia| |cbn; lia|cbn; lia|exists 0; by left]. cbn. unfold s_ptr, hdr. cbn. by rewrite !lookup_insert_eq. }
  split; [done|cbn; lia| |].
  - intros x. split; [by intros ?%in_free_nil|]. cbn. intros [?|?]; [done|lia].
  - intros a Ha _ _. cbn. by rewrite !lookup_insert_ne.
Qed.

Lemma grown_trans h L h1 L1 h2 L2 : grown h L h1 L1 -> grown h1 L1 h2 L2 -> grown h L h2 L2.
Proof.
  intros [Hok Hb Hf Ho] [Hok' Hb' Hf' Ho']. split; [done|lia| |].
  - intros x. rewrite Hf', Hf. split; [intros [[?|?]|?]; [tauto|lia..]|].
    intros [?|?]; [tauto|]. destruct (Z.lt_ge_cases x (h_brk h1)); [left; right; lia|right; lia].
  - intros a Ha Hn Hr. rewrite Ho'; [apply Ho; [done|done|lia]|done| |lia].
    rewrite Hf. intros [?|?]; [done|lia].
Qed.

(** [malloc]: 0 when no free block is large enough and [sbrk] fails, else
    a block of the free memory, grown by what [sbrk] gave. *)
Lemma malloc_spec h L nbytes :
  heap_inv h L -> 0 <= nbytes < 2 ^ 31 - 15 ->
  wp (malloc base sbrk_to nbytes) (fun r h' =>
    r = 0 /\ grown h L h' L /\ h_brk h' = h_brk h /\ (forall a s, (a, s) ∈ L -> s < units nbytes) \/
    exists h1 L1 L', r <> 0 /\ grown h L h1 L1 /\ taken h1 L1 (r - HEADER) (units nbytes) h' L') h.
Proof.
  intros Hinv Hn. destruct (units_spec nbytes Hn) as [Hu _].
  assert (forall h0, grown h L h0 L -> h_brk h0 = h_brk h ->
    wp (let! prevp := gets h_freep in let! fuel := gets (fun h => 2 * size (h_hdr h) + 4)%nat in
        let! p := gets (s_ptr prevp) in while_fuel fuel (malloc_step sbrk_to (units nbytes)) (prevp, p)) (fun r h' =>
      r = 0 /\ grown h L h' L /\ h_brk h' = h_brk h /\ (forall a s, (a, s) ∈ L -> s < units nbytes) \/
      exists h1 L1 L', r <> 0 /\ grown h L h1 L1 /\ taken h1 L1 (r - HEADER) (units nbytes) h' L') h0) as Hs.
  { intros h0 Hg Hb. do 6 wstep. pose proof (gw_ok _ _ _ _ Hg) as Hok.
    eapply wp_mono; [apply (malloc_search h0 L (units nbytes)); [done|done|]|].
    - pose proof (linked_size _ _ _ _ (ho_ring _ _ _ Hok) (ho_sorted _ _ _ Hok)). lia.
    - cbv beta. intros r h' [(-> & -> & Hsm)|(h1 & L1 & L' & Hr & Hg' & Ht)]; [by left|right].
      exists h1, L1, L'. split_and!; [done|by eapply grown_trans|done]. }
  unfold malloc. wstep. wstep. destruct Hinv as [Hok|(Hf & -> & Hb & Hl)].
  - assert ((h_freep h =? 0) = false) as ->.
    { apply Z.eqb_neq. destruct Hok as [Hpos _ [_ Hso]%sorted_bounds _ [fs [E|Hin]%elem_of_cons]];
        [injection E as -> _|apply Hso in Hin]; lia. }
    wstep. wstep. apply Hs; [by apply grown_refl|done].
  - rewrite Hf. change (0 =? 0) with true. do 6 wstep. apply Hs; [by apply heap_start|done].
Qed.
End take.
End specs.
