(* ===== verification/HeapUse.v ===== *)
(** * Programs that use the allocator

    A program calls [malloc] and [free] (user/umalloc.c) in some order; it
    frees a pointer it holds.  The allocations it holds never overlap each
    other, the free memory or memory that was there before, whatever the
    order of the calls. *)

From S2P Require Import Prelude Monad Params Umalloc.

(** ** Calls *)

(** The heap, and the pointers the program holds with the sizes it asked. *)
Record user := User {
  us_heap : heap;
  us_held : list (Z * Z);
}.
Definition us_set_heap h u := User h (us_held u).
Definition us_set_held l u := User (us_heap u) l.
Definition heap_of_user : lens user heap := Lens us_heap us_set_heap.

Inductive call :=
| Malloc (nbytes : Z)
| Free (i : nat).

Section calls.
Context (base : Z) (sbrk_to : Z -> Z -> option Z).

(** [Free i] frees the pointer number [i] of those the program holds. *)
Definition do_call (c : call) : M user unit :=
  match c with
  | Malloc nbytes =>
      let! r := zoom heap_of_user (malloc base sbrk_to nbytes) in
      if r =? 0 then ret tt else modify (fun u => us_set_held ((r, nbytes) :: us_held u) u)
  | Free i =>
      let! held := gets us_held in
      match held !! i with
      | Some (r, _) =>
          zoom heap_of_user (free r);;;
          modify (fun u => us_set_held (delete i (us_held u)) u)
      | None => ret tt
      end
  end.
Definition do_calls (cs : list call) : M user unit := for_each cs do_call.

Definition legal (c : call) : Prop :=
  match c with Malloc nbytes => 0 <= nbytes < 2 ^ 31 - 15 | Free _ => True end.

(** ** The blocks a program holds *)

Definition block_of (p : Z * Z) : block := (p.1 - HEADER, units p.2).

Definition apart (b c : block) : Prop := b.1 + HEADER * b.2 <= c.1 \/ c.1 + HEADER * c.2 <= b.1.

(** [b0]: the end of memory when the program started. *)
Record held_ok (b0 : Z) (h : heap) (L : list block) (A : list (Z * Z)) : Prop := {
  he_heap : heap_inv base h L;
  he_start : A <> [] -> heap_ok base h L;
  he_base : base < b0 <= h_brk h;
  he_free : forall x, in_free L x -> b0 <= x;
  he_size : forall p, p ∈ A -> s_size (p.1 - HEADER) h = units p.2 /\ 0 <= p.2 < 2 ^ 31 - 15;
  he_in : forall p, p ∈ A -> b0 <= p.1 - HEADER /\ p.1 - HEADER + HEADER * units p.2 <= h_brk h;
  he_out : forall p x, p ∈ A -> in_block (block_of p) x -> ~ in_free L x;
  he_apart : forall i j p q, i <> j -> A !! i = Some p -> A !! j = Some q -> apart (block_of p) (block_of q);
}.

Lemma block_first p : 0 <= p.2 < 2 ^ 31 - 15 -> in_block (block_of p) (p.1 - HEADER).
Proof. intros H. destruct (units_spec p.2 H). unfold in_block, block_of, HEADER in *. cbn. lia. Qed.

(** Blocks without a common byte are apart. *)
Lemma disjoint_apart b c : 0 < b.2 -> 0 < c.2 -> (forall x, in_block b x -> ~ in_block c x) -> apart b c.
Proof.
  intros Hb Hc H. unfold apart, in_block, HEADER in *.
  pose proof (H b.1). pose proof (H c.1). lia.
Qed.

Lemma apart_disjoint b c x : apart b c -> in_block b x -> ~ in_block c x.
Proof. unfold apart, in_block. lia. Qed.

(** More free memory does not change the blocks held. *)
Lemma held_grown b0 h L A h' L' :
  held_ok b0 h L A -> grown base h L h' L' -> held_ok b0 h' L' A.
Proof.
  intros [Hh Hst Hb Hf Hs Hi Ho Ha] [Gok Gb Gf Go]. split; [by left|done|lia| | | | |done].
  - intros x [?|?]%Gf; [by apply Hf|lia].
  - intros p Hp. destruct (Hs p Hp) as [Hsz Hp2]. split; [|done]. pose proof (Hi p Hp) as [Hi1 Hi2].
    pose proof (block_first p Hp2) as Hx. unfold s_size, hdr. rewrite Go; [done|lia|by apply (Ho p)|].
    unfold in_block, block_of in Hx. cbn in Hx. lia.
  - intros p Hp. destruct (Hi p Hp). lia.
  - intros p x Hp Hx [?|?]%Gf; [by eapply Ho|].
    destruct (Hi p Hp). unfold in_block, block_of in Hx. cbn in Hx. lia.
Qed.

(** A block that leaves the free memory is a new allocation. *)
Lemma held_taken b0 h L A r nb h' L' :
  held_ok b0 h L A -> heap_ok base h L -> 0 <= nb < 2 ^ 31 - 15 -> taken base h L (r - HEADER) (units nb) h' L' ->
  held_ok b0 h' L' ((r, nb) :: A).
Proof.
  intros [Hh Hst Hb Hf Hs Hi Ho Ha] Hok Hnb [Tok Tb Tsz Tfrom Tfree Tother].
  pose proof (block_first (r, nb) Hnb) as Hx. cbn in Hx. destruct (units_spec nb Hnb) as [Hu _].
  assert (forall q, q ∈ A -> apart (block_of (r, nb)) (block_of q)) as Hnew.
  { intros q Hq. destruct (Hs q Hq) as [_ Hq2]. destruct (units_spec q.2 Hq2) as [Hu2 _].
    apply disjoint_apart; [cbn; lia|cbn; lia|]. intros x Hx1 Hx2. by apply (Ho q x), Tfrom. }
  split; [by left|done|by rewrite Tb| | | | |].
  - intros x [? _]%Tfree. by apply Hf.
  - intros p [->|Hp]%elem_of_cons; [done|]. destruct (Hs p Hp) as [Hsz Hp2]. split; [|done].
    unfold s_size, hdr. rewrite Tother; [done| |].
    + destruct (Hi p Hp). lia.
    + apply (Ho p); [done|]. by apply block_first.
  - rewrite Tb. intros p [->|Hp]%elem_of_cons; [|by apply Hi]. cbn [fst snd]. split; [by apply Hf, Tfrom|].
    assert (in_free L (r - HEADER + HEADER * units nb - 1)) as ([a t] & Hin & Hr).
    { apply Tfrom. unfold in_block, HEADER in *. cbn. lia. }
    destruct Hok as [_ _ [_ Hso]%sorted_bounds _ _]. apply Hso in Hin. unfold in_block in Hr. cbn in Hr. lia.
  - intros p x [->|Hp]%elem_of_cons Hb1 [H1 H2]%Tfree; [done|]. by apply (Ho p x).
  - intros [|i] [|j] p q Hij Hp Hq; cbn in Hp, Hq; [done|..].
    + injection Hp as <-. apply Hnew. by eapply list_elem_of_lookup_2.
    + injection Hq as <-. destruct (Hnew p); [by eapply list_elem_of_lookup_2|by right|by left].
    + apply (Ha i j); [congruence|done..].
Qed.

(** A freed pointer is free memory again. *)
Lemma held_freed b0 h L A i r nb h' L' :
  held_ok b0 h L A -> A !! i = Some (r, nb) -> heap_ok base h' L' -> h_brk h' = h_brk h ->
  (forall x, in_free L' x <-> in_free L x \/ in_block (block_of (r, nb)) x) ->
  (forall a, a <> base -> ~ in_free L a -> a <> r - HEADER -> h_hdr h' !! a = h_hdr h !! a) ->
  held_ok b0 h' L' (delete i A).
Proof.
  intros [Hh Hst Hb Hf Hs Hi Ho Ha] Hr Hok Eb Hfr Hother.
  assert (forall k p, delete i A !! k = Some p -> exists k', k' <> i /\ A !! k' = Some p /\
    k' = if decide (k < i)%nat then k else S k) as Hdel.
  { intros k p Hk. rewrite list_lookup_delete in Hk. eexists. split; [|by split]. case_decide; lia. }
  assert (forall p, p ∈ delete i A -> p ∈ A /\ apart (block_of p) (block_of (r, nb))) as Hmem.
  { intros p [k Hk]%list_elem_of_lookup_1. apply Hdel in Hk as (k' & Hne & Hk & _).
    split; [by eapply list_elem_of_lookup_2|by eapply (Ha k' i)]. }
  split; [by left|done|lia| | | | |].
  - intros x [?|Hx]%Hfr; [by apply Hf|]. destruct (Hi (r, nb)); [by eapply list_elem_of_lookup_2|].
    unfold in_block, block_of in Hx. cbn in *. lia.
  - intros p Hp. destruct (Hmem p Hp) as [Hp' Hap]. destruct (Hs p Hp') as [Hsz Hp2]. split; [|done].
    pose proof (block_first p Hp2) as Hx. destruct (Hi p Hp'). unfold s_size, hdr.
    rewrite Hother; [done|lia|by apply (Ho p)|]. intros E. eapply apart_disjoint; [exact Hap|exact Hx|].
    rewrite E. apply (block_first (r, nb)). apply (Hs (r, nb)). by eapply list_elem_of_lookup_2.
  - intros p Hp. rewrite Eb. apply Hi, Hmem, Hp.
  - intros p x Hp Hx [?|Hx']%Hfr; destruct (Hmem p Hp) as [Hp' Hap]; [by eapply Ho|by eapply apart_disjoint].
  - intros k l p q Hkl (k' & _ & Hk & Ek)%Hdel (l' & _ & Hl & El)%Hdel. apply (Ha k' l'); [|done..].
    subst k' l'. repeat case_decide; lia.
Qed.

(** ** Every sequence of calls *)

Context (Hsbrk : forall b m b', 0 <= m < 2 ^ 31 -> sbrk_to b m = Some b' -> b' = b + m /\ b' < 2 ^ 32).

Lemma do_call_spec b0 c u L :
  held_ok b0 (us_heap u) L (us_held u) -> legal c ->
  wp (do_call c) (fun _ u' => exists L', held_ok b0 (us_heap u') L' (us_held u')) u.
Proof.
  intros Hok Hc. destruct u as [h A]. cbn in Hok. destruct c as [nb|i]; cbn in Hc |- *.
  - wstep. wstep. eapply wp_mono; [apply (malloc_spec base sbrk_to Hsbrk h L nb); [apply Hok|done]|].
    cbv beta. intros r h' [(-> & Hg & _)|(h1 & L1 & L' & Hr & Hg & Ht)].
    + change (0 =? 0) with true. wstep. exists L. by eapply held_grown.
    + apply Z.eqb_neq in Hr as ->. wstep. exists L'. cbn.
      eapply held_taken; [by eapply held_grown|apply Hg|done|done].
  - wstep. wstep. cbn [us_held]. destruct (A !! i) as [[r nb]|] eqn:Ei; [|wstep; by exists L].
    wstep. wstep. pose proof Hok as [Hh Hst Hb Hf Hs Hi Ho Ha].
    assert ((r, nb) ∈ A) as Hin by by eapply list_elem_of_lookup_2.
    destruct (Hs _ Hin) as [Hsz Hnb], (Hi _ Hin) as [Hlo Hhi]. cbn in *. destruct (units_spec nb Hnb) as [Hu _].
    assert (heap_ok base h L) as Hh' by (apply Hst; by intros ->).
    replace r with (r - HEADER + HEADER) at 1 by lia.
    eapply wp_mono; [apply (free_spec base h L (r - HEADER) (units nb)); [done|lia|done|lia|done|]|].
    + intros a t Hat. destruct (disjoint_apart (r - HEADER, units nb) (a, t)) as [Hd|Hd]; cbn [fst snd] in *; [lia| | |lia..].
      * destruct Hh' as [_ _ [_ Hso]%sorted_bounds _ _]. apply Hso in Hat as (_ & Ht & _). done.
      * intros x Hx Hx'. eapply (Ho (r, nb)); [done|exact Hx|]. by exists (a, t).
    + cbv beta. intros _ h' (L' & Hok' & Eb & Hfr & _ & _ & Hot). exists L'. cbn.
      by eapply held_freed.
Qed.

(** The payloads of two allocations are apart, and each lies in the memory the
    program got from the kernel. *)
Lemma do_calls_spec h cs :
  h_freep h = 0 -> 0 < base < h_brk h -> h_brk h < 2 ^ 32 -> Forall legal cs ->
  wp (do_calls cs) (fun _ u' =>
    (forall p, p ∈ us_held u' -> h_brk h + HEADER <= p.1 /\ p.1 + p.2 <= h_brk (us_heap u')) /\
    forall i j p q, i <> j -> us_held u' !! i = Some p -> us_held u' !! j = Some q ->
      p.1 + p.2 <= q.1 - HEADER \/ q.1 + q.2 <= p.1 - HEADER) (User h []).
Proof.
  intros Hf Hb Hl Hcs.
  apply (wp_for_each (fun _ u' => exists L, held_ok (h_brk h) (us_heap u') L (us_held u'))).
  - exists []. split; cbn; [by right|done|lia|by intros x ?%in_free_nil|by intros p ?%elem_of_nil|by intros p ?%elem_of_nil|by intros p x ?%elem_of_nil|done].
  - intros pre c post u -> (L & Hok). apply (do_call_spec _ _ _ L); [done|].
    apply Forall_app in Hcs as [_ Hcs]. by inv Hcs.
  - intros u (L & [Hh Hst Hb0 Hfr Hs Hi Ho Ha]). split.
    + intros p Hp. destruct (Hi p Hp), (Hs p Hp) as [_ H2]. destruct (units_spec p.2 H2). unfold HEADER in *. lia.
    + intros i j p q Hij Hp Hq. pose proof (Ha i j p q Hij Hp Hq) as Hap.
      destruct (Hs p) as [_ H2], (Hs q) as [_ H3]; [by eapply list_elem_of_lookup_2..|].
      destruct (units_spec p.2 H2), (units_spec q.2 H3). unfold apart, block_of, HEADER in *. cbn in Hap. lia.
Qed.
End calls.
