(* ===== verification/Sh.v ===== *)
(** * The command parser of the shell (user/sh.c)

    [parsecmd] turns a line into a tree of commands, which it builds from
    nodes in a store: [parseexec] fills the arguments of its node after
    redirections around the node exist.  Words are pairs of offsets into the
    line, to which [nulterminate] adds the NULs at the end. *)

From S2P Require Import Prelude Monad Params CString Ulib.

(** ** Characters *)

Definition CH_LT : Z := 60.
Definition CH_GT : Z := 62.
Definition CH_BAR : Z := 124.
Definition CH_AMP : Z := 38.
Definition CH_SEMI : Z := 59.
Definition CH_LPAR : Z := 40.
Definition CH_RPAR : Z := 41.
Definition CH_PLUS : Z := 43.
Definition CH_A : Z := 97.

Definition whitespace : list Z := [32; 9; 13; 10; 11; 0].
Definition symbols : list Z := [CH_LT; CH_BAR; CH_GT; CH_AMP; CH_SEMI; CH_LPAR; CH_RPAR; 0].

Definition MAXARGS : nat := 10.

(** ** Commands *)

(** A pointer to a command is its place in the store. *)
Inductive node :=
| EXEC (argv eargv : list (option nat))
| REDIR (cmd file efile : nat) (mode fd : Z)
| PIPE (left right : nat)
| LIST (left right : nat)
| BACK (cmd : nat).

(** The line, the place [*ps] in it and the commands made so far. *)
Record shell := Shell {
  sh_buf : list Z;
  sh_ps : nat;
  sh_nodes : list node;
}.
Definition set_buf v s := Shell v (sh_ps s) (sh_nodes s).
Definition set_ps v s := Shell (sh_buf s) v (sh_nodes s).
Definition set_nodes v s := Shell (sh_buf s) (sh_ps s) v.

(** [malloc] of a node. *)
Definition new_node (n : node) : M shell nat :=
  let! p := gets (fun s => length (sh_nodes s)) in
  modify (fun s => set_nodes (sh_nodes s ++ [n]) s);;;
  ret p.

Definition execcmd : M shell nat := new_node (EXEC (replicate MAXARGS None) (replicate MAXARGS None)).
Definition redircmd (subcmd file efile : nat) (mode fd : Z) : M shell nat :=
  new_node (REDIR subcmd file efile mode fd).
Definition pipecmd (left right : nat) : M shell nat := new_node (PIPE left right).
Definition listcmd (left right : nat) : M shell nat := new_node (LIST left right).
Definition backcmd (subcmd : nat) : M shell nat := new_node (BACK subcmd).

(** [cmd->argv[argc] = q; cmd->eargv[argc] = eq] *)
Definition set_arg (cmd argc : nat) (q eq : option nat) : M shell unit :=
  modify (fun s => set_nodes (alter (fun n =>
    match n with
    | EXEC argv eargv => EXEC (<[argc := q]> argv) (<[argc := eq]> eargv)
    | n => n
    end) cmd (sh_nodes s)) s).

(** ** Tokens *)

Section parse.
(** [es]: the end of the line. *)
Context (es : nat).

Definition char_at (buf : list Z) (s : nat) : Z := default 0 (buf !! s).

(** [while(s < es && p( *s )) s++], with [n] = [es - s]. *)
Fixpoint scan_chars (p : Z -> bool) (buf : list Z) (n s : nat) : nat :=
  match n with
  | O => s
  | S n => if p (char_at buf s) then scan_chars p buf n (S s) else s
  end.
Definition skip_ws (buf : list Z) (s : nat) : nat := scan_chars (has_char whitespace) buf (es - s) s.
Definition word_char (c : Z) : bool := negb (has_char whitespace c) && negb (has_char symbols c).
Definition skip_word (buf : list Z) (s : nat) : nat := scan_chars word_char buf (es - s) s.

Definition is_op (c : Z) : bool :=
  (c =? CH_BAR) || (c =? CH_LPAR) || (c =? CH_RPAR) || (c =? CH_SEMI) || (c =? CH_AMP) || (c =? CH_LT).

(** The token at [s], where no whitespace is: its kind and its end. *)
Definition token_at (buf : list Z) (s : nat) : Z * nat :=
  let c := char_at buf s in
  if c =? 0 then (0, s)
  else if is_op c then (c, S s)
  else if c =? CH_GT then
    if char_at buf (S s) =? CH_GT then (CH_PLUS, S (S s)) else (c, S s)
  else (CH_A, skip_word buf s).

(** The kind of the token and, in [q] and [eq], its place. *)
Definition gettoken : M shell (Z * nat * nat) :=
  let! buf := gets sh_buf in
  let! s := gets sh_ps in
  let q := skip_ws buf s in
  let '(tok, eq) := token_at buf q in
  modify (set_ps (skip_ws buf eq));;;
  ret (tok, q, eq).

Definition peek (toks : list Z) : M shell bool :=
  let! buf := gets sh_buf in
  let! s := gets sh_ps in
  let s := skip_ws buf s in
  modify (set_ps s);;;
  ret (negb (char_at buf s =? 0) && has_char toks (char_at buf s)).

(** ** The parser *)

Definition redir_step (cmd : nat) : M shell (nat + nat) :=
  let! b := peek [CH_LT; CH_GT; 0] in
  if b then
    let! '(tok, _, _) := gettoken in
    let! '(t, q, eq) := gettoken in
    if negb (t =? CH_A) then panic "missing file for redirection"
    else if tok =? CH_LT then let! cmd := redircmd cmd q eq O_RDONLY 0 in ret (inl cmd)
    else if tok =? CH_GT then let! cmd := redircmd cmd q eq (Z.lor O_WRONLY O_CREATE) 1 in ret (inl cmd)
    else if tok =? CH_PLUS then let! cmd := redircmd cmd q eq (Z.lor O_WRONLY O_CREATE) 1 in ret (inl cmd)
    else ret (inl cmd)
  else ret (inr cmd).
Definition parseredirs (cmd : nat) : M shell nat := while_fuel (S es) redir_step cmd.

(** A round of the loop of [parseexec]; it leaves with [argc] and [ret]. *)
Definition exec_step (cmd : nat) '(argc, r) : M shell ((nat * nat) + (nat * nat)) :=
  let! b := peek [CH_BAR; CH_RPAR; CH_AMP; CH_SEMI; 0] in
  if b then ret (inr (argc, r))
  else
    let! '(tok, q, eq) := gettoken in
    if tok =? 0 then ret (inr (argc, r))
    else if negb (tok =? CH_A) then panic "syntax"
    else
      set_arg cmd argc (Some q) (Some eq);;;
      let argc := S argc in
      if (MAXARGS <=? argc)%nat then panic "too many args"
      else
        let! r := parseredirs r in
        ret (inl (argc, r)).

Definition back_step (cmd : nat) : M shell (nat + nat) :=
  let! b := peek [CH_AMP; 0] in
  if b then
    gettoken;;;
    let! cmd := backcmd cmd in
    ret (inl cmd)
  else ret (inr cmd).

(** The calls of the four functions nest at most [fuel] deep. *)
Fixpoint parseline (fuel : nat) : M shell nat :=
  match fuel with
  | O => hang
  | S fuel =>
      let! cmd := parsepipe fuel in
      let! cmd := while_fuel (S es) back_step cmd in
      let! b := peek [CH_SEMI; 0] in
      if b then
        gettoken;;;
        let! right := parseline fuel in
        listcmd cmd right
      else ret cmd
  end
with parsepipe (fuel : nat) : M shell nat :=
  match fuel with
  | O => hang
  | S fuel =>
      let! cmd := parseexec fuel in
      let! b := peek [CH_BAR; 0] in
      if b then
        gettoken;;;
        let! right := parsepipe fuel in
        pipecmd cmd right
      else ret cmd
  end
with parseexec (fuel : nat) : M shell nat :=
  match fuel with
  | O => hang
  | S fuel =>
      let! b := peek [CH_LPAR; 0] in
      if b then parseblock fuel
      else
        let! cmd := execcmd in
        let! r := parseredirs cmd in
        let! '(argc, r) := while_fuel (S es) (exec_step cmd) (O, r) in
        set_arg cmd argc None None;;;
        ret r
  end
with parseblock (fuel : nat) : M shell nat :=
  match fuel with
  | O => hang
  | S fuel =>
      let! b := peek [CH_LPAR; 0] in
      if negb b then panic "parseblock"
      else
        gettoken;;;
        let! cmd := parseline fuel in
        let! b := peek [CH_RPAR; 0] in
        if negb b then panic "syntax - missing )"
        else
          gettoken;;;
          parseredirs cmd
  end.
End parse.

(** ** nulterminate, parsecmd *)

Definition put_nul (i : nat) : M shell unit := modify (fun s => set_buf (<[i := 0]> (sh_buf s)) s).

(** [for(i=0; argv[i]; i++) *eargv[i] = 0] *)
Fixpoint nul_args (argv eargv : list (option nat)) : M shell unit :=
  match argv, eargv with
  | Some _ :: argv, Some e :: eargv => put_nul e;;; nul_args argv eargv
  | _, _ => ret tt
  end.

(** The tree is at most [fuel] deep. *)
Fixpoint nulterminate (fuel cmd : nat) : M shell unit :=
  match fuel with
  | O => hang
  | S fuel =>
      let! nodes := gets sh_nodes in
      match nodes !! cmd with
      | None => ret tt
      | Some (EXEC argv eargv) => nul_args argv eargv
      | Some (REDIR cmd _ efile _ _) => nulterminate fuel cmd;;; put_nul efile
      | Some (PIPE l r) => nulterminate fuel l;;; nulterminate fuel r
      | Some (LIST l r) => nulterminate fuel l;;; nulterminate fuel r
      | Some (BACK cmd) => nulterminate fuel cmd
      end
  end.

(** [parsecmd] on the line in [sh_buf].  A token uses at most four nested
    calls of the parser, and the tree is no deeper than the line is long. *)
Definition parsecmd : M shell nat :=
  let! buf := gets sh_buf in
  let es := Z.to_nat (strlen buf) in
  modify (set_ps O);;;
  let! cmd := parseline es (4 * es + 4) in
  peek es [0];;;
  let! s := gets sh_ps in
  if decide (s <> es) then panic "syntax"
  else
    nulterminate (S es) cmd;;;
    ret cmd.

Definition sh_start (buf : list Z) : shell := Shell buf O [].
