(* ===== verification/ShSpec.v ===== *)
(** * The language the shell accepts

    The tokens of a line, the grammar of command lines as a function that
    writes a line's tokens, and the trees of commands.  [parsecmd] (user/sh.c)
    accepts exactly the lines of the grammar, builds the tree of the line, and
    leaves every word in the buffer as a string of its own. *)

From S2P Require Import Prelude Monad Params CString Ulib Sh.

(** ** Tokens *)

Inductive tok :=
| TSym (c : Z)
| TWord (q e : nat).

Definition mk_tok (k : Z) (q e : nat) : tok := if k =? CH_A then TWord q e else TSym k.

(** The character a symbol starts with. *)
Definition first_char (c : Z) : Z := if c =? CH_PLUS then CH_GT else c.
Definition head_in (cs : list Z) (T : list tok) : bool :=
  match T with TSym c :: _ => has_char cs (first_char c) | _ => false end.

(** ** The grammar *)

(** [op]: one of <, > and + (for >>). *)
Inductive redir := Redir (op : Z) (q e : nat).
Inductive item := Arg (q e : nat) | Red (r : redir).

Inductive line :=
| LEnd (p : pipeline) (amps : nat)
| LSeq (p : pipeline) (amps : nat) (l : line)
with pipeline :=
| PEnd (c : simple)
| PBar (c : simple) (p : pipeline)
with simple :=
| SExec (its : list item)
| SBlock (l : line) (rs : list redir).

Scheme line_mut := Induction for line Sort Prop
  with pipeline_mut := Induction for pipeline Sort Prop
  with simple_mut := Induction for simple Sort Prop.
Combined Scheme grammar_ind from line_mut, pipeline_mut, simple_mut.

Definition pr_redir (r : redir) : list tok := let '(Redir op q e) := r in [TSym op; TWord q e].
Definition pr_item (i : item) : list tok := match i with Arg q e => [TWord q e] | Red r => pr_redir r end.

Fixpoint pr_line (l : line) : list tok :=
  match l with
  | LEnd p n => pr_pipe p ++ replicate n (TSym CH_AMP)
  | LSeq p n l => pr_pipe p ++ replicate n (TSym CH_AMP) ++ TSym CH_SEMI :: pr_line l
  end
with pr_pipe (p : pipeline) : list tok :=
  match p with
  | PEnd c => pr_simple c
  | PBar c p => pr_simple c ++ TSym CH_BAR :: pr_pipe p
  end
with pr_simple (c : simple) : list tok :=
  match c with
  | SExec its => mjoin (pr_item <$> its)
  | SBlock l rs => TSym CH_LPAR :: pr_line l ++ TSym CH_RPAR :: mjoin (pr_redir <$> rs)
  end.

Definition item_arg (i : item) : option (nat * nat) := match i with Arg q e => Some (q, e) | Red _ => None end.
Definition item_redir (i : item) : option redir := match i with Arg _ _ => None | Red r => Some r end.
Definition args_of (its : list item) : list (nat * nat) := omap item_arg its.
Definition redirs_of (its : list item) : list redir := omap item_redir its.

(** The redirections have their operators, and commands fit [MAXARGS]. *)
Definition ok_redir (r : redir) : Prop := let '(Redir op _ _) := r in op = CH_LT \/ op = CH_GT \/ op = CH_PLUS.
Fixpoint ok_line (l : line) : Prop :=
  match l with
  | LEnd p _ => ok_pipe p
  | LSeq p _ l => ok_pipe p /\ ok_line l
  end
with ok_pipe (p : pipeline) : Prop :=
  match p with
  | PEnd c => ok_simple c
  | PBar c p => ok_simple c /\ ok_pipe p
  end
with ok_simple (c : simple) : Prop :=
  match c with
  | SExec its => (length (args_of its) < MAXARGS)%nat /\ Forall ok_redir (redirs_of its)
  | SBlock l rs => ok_line l /\ Forall ok_redir rs
  end.

(** ** Trees of commands *)

Inductive tree :=
| TExec (args : list (nat * nat))
| TRedir (t : tree) (q e : nat) (mode fd : Z)
| TPipe (l r : tree)
| TList (l r : tree)
| TBack (t : tree).

Definition redir_mode (op : Z) : Z := if op =? CH_LT then O_RDONLY else Z.lor O_WRONLY O_CREATE.
Definition redir_fd (op : Z) : Z := if op =? CH_LT then 0 else 1.
(** Redirections around a command, the last one outermost. *)
Definition wrap (rs : list redir) (t : tree) : tree :=
  foldl (fun t '(Redir op q e) => TRedir t q e (redir_mode op) (redir_fd op)) t rs.

Fixpoint tree_line (l : line) : tree :=
  match l with
  | LEnd p n => Nat.iter n TBack (tree_pipe p)
  | LSeq p n l => TList (Nat.iter n TBack (tree_pipe p)) (tree_line l)
  end
with tree_pipe (p : pipeline) : tree :=
  match p with
  | PEnd c => tree_simple c
  | PBar c p => TPipe (tree_simple c) (tree_pipe p)
  end
with tree_simple (c : simple) : tree :=
  match c with
  | SExec its => wrap (redirs_of its) (TExec (args_of its))
  | SBlock l rs => wrap rs (tree_line l)
  end.

Definition exec_node (args : list (nat * nat)) : node :=
  let pad := replicate (MAXARGS - length args) None in
  EXEC ((Some <$> args.*1) ++ pad) ((Some <$> args.*2) ++ pad).

(** The nodes from [p] on are the tree. *)
Fixpoint rep (N : list node) (p : nat) (t : tree) : Prop :=
  match t with
  | TExec args => (length args < MAXARGS)%nat /\ N !! p = Some (exec_node args)
  | TRedir t q e mode fd => exists p', N !! p = Some (REDIR p' q e mode fd) /\ rep N p' t
  | TPipe l r => exists pl pr, N !! p = Some (PIPE pl pr) /\ rep N pl l /\ rep N pr r
  | TList l r => exists pl pr, N !! p = Some (LIST pl pr) /\ rep N pl l /\ rep N pr r
  | TBack t => exists p', N !! p = Some (BACK p') /\ rep N p' t
  end.

Lemma rep_app N K p t : rep N p t -> rep (N ++ K) p t.
Proof.
  assert (forall p n, N !! p = Some n -> (N ++ K) !! p = Some n) as Hl by (intros; by apply lookup_app_l_Some).
  revert p. induction t; intros p; cbn.
  - intros [? ?%Hl]. done.
  - intros (p' & ?%Hl & ?). exists p'. auto.
  - intros (pl & pr & ?%Hl & ? & ?). exists pl, pr. auto.
  - intros (pl & pr & ?%Hl & ? & ?). exists pl, pr. auto.
  - intros (p' & ?%Hl & ?). exists p'. auto.
Qed.

(** ** Characters and tokens *)

Section lex.
Context (es : nat) (B : list Z).

Fixpoint toks (n s : nat) : list tok :=
  match n with
  | O => []
  | S n =>
      let q := skip_ws es B s in
      if (es <=? q)%nat then []
      else let '(k, e) := token_at es B q in mk_tok k q e :: toks n e
  end.
Definition tokens (s : nat) : list tok := toks (es - s) s.

(** The line ends at its first NUL. *)
Context (Hnz : forall i, (i < es)%nat -> char_at B i <> 0) (Hz : char_at B es = 0).

Lemma scan_chars_spec p n s :
  (s <= scan_chars p B n s <= s + n)%nat /\
  (forall i, (s <= i < scan_chars p B n s)%nat -> p (char_at B i) = true) /\
  ((scan_chars p B n s < s + n)%nat -> p (char_at B (scan_chars p B n s)) = false).
Proof.
  revert s. induction n as [|n IH]; intros s; cbn [scan_chars]; [split_and!; lia|].
  destruct (p (char_at B s)) eqn:E; [|split_and!; [lia..|by intros; lia|done]].
  destruct (IH (S s)) as (H1 & H2 & H3). split_and!; [lia..| |].
  - intros i Hi. destruct (decide (i = s)) as [->|]; [done|]. apply H2. lia.
  - intros Hlt. apply H3. lia.
Qed.

Lemma scan_stop p n s : p (char_at B s) = false -> scan_chars p B n s = s.
Proof. intros H. destruct n; cbn; [done|]. by rewrite H. Qed.

Lemma skip_ws_spec s :
  (s <= es)%nat -> let q := skip_ws es B s in
  (s <= q <= es)%nat /\ (forall i, (s <= i < q)%nat -> has_char whitespace (char_at B i) = true) /\
  has_char whitespace (char_at B q) = false.
Proof.
  intros Hs. unfold skip_ws. destruct (scan_chars_spec (has_char whitespace) (es - s) s) as (H1 & H2 & H3).
  split_and!; [lia..|done|]. destruct (decide (scan_chars (has_char whitespace) B (es - s) s = es)) as [E|E].
  - by rewrite E, Hz.
  - apply H3. lia.
Qed.

Lemma skip_ws_idem s : (s <= es)%nat -> skip_ws es B (skip_ws es B s) = skip_ws es B s.
Proof. intros Hs. destruct (skip_ws_spec s Hs) as (_ & _ & H). unfold skip_ws at 1. by apply scan_stop. Qed.

Lemma skip_word_spec s :
  (s <= es)%nat -> let e := skip_word es B s in
  (s <= e <= es)%nat /\ (forall i, (s <= i < e)%nat -> word_char (char_at B i) = true) /\
  (word_char (char_at B e) = false \/ e = es).
Proof.
  intros Hs. unfold skip_word. destruct (scan_chars_spec word_char (es - s) s) as (H1 & H2 & H3).
  split_and!; [lia..|done|]. destruct (decide (scan_chars word_char B (es - s) s = es)) as [E|E]; [by right|left].
  apply H3. lia.
Qed.

(** ** A token *)

Lemma symbols_iff c :
  has_char symbols c = is_op c || (c =? CH_GT).
Proof.
  apply eq_true_iff_eq. rewrite has_char_spec. change (cstr symbols) with [CH_LT; CH_BAR; CH_GT; CH_AMP; CH_SEMI; CH_LPAR; CH_RPAR].
  unfold is_op. rewrite !orb_true_iff, !Z.eqb_eq, !elem_of_cons, elem_of_nil. tauto.
Qed.

Lemma is_op_spec c : is_op c = true <-> c ∈ [CH_BAR; CH_LPAR; CH_RPAR; CH_SEMI; CH_AMP; CH_LT].
Proof. unfold is_op. rewrite !orb_true_iff, !Z.eqb_eq, !elem_of_cons, elem_of_nil. tauto. Qed.

(** What the token at [q] is. *)
Inductive token (q : nat) : Z -> nat -> Prop :=
| token_op : is_op (char_at B q) = true -> token q (char_at B q) (S q)
| token_gt : char_at B q = CH_GT -> char_at B (S q) <> CH_GT -> token q CH_GT (S q)
| token_gtgt : char_at B q = CH_GT -> char_at B (S q) = CH_GT -> (S q < es)%nat -> token q CH_PLUS (S (S q))
| token_word e :
    (q < e <= es)%nat -> (forall i, (q <= i < e)%nat -> word_char (char_at B i) = true) ->
    (word_char (char_at B e) = false \/ e = es) -> token q CH_A e.

Lemma token_at_spec q :
  (q < es)%nat -> has_char whitespace (char_at B q) = false ->
  token q (token_at es B q).1 (token_at es B q).2.
Proof.
  intros Hq Hw. unfold token_at. pose proof (Hnz q Hq) as H0. apply Z.eqb_neq in H0 as H0'. rewrite H0'.
  destruct (is_op (char_at B q)) eqn:Eo; [by constructor|].
  destruct (Z.eqb_spec (char_at B q) CH_GT) as [Eg|Eg].
  - destruct (Z.eqb_spec (char_at B (S q)) CH_GT) as [Eg2|Eg2]; [|by rewrite Eg; constructor].
    constructor; [done..|]. destruct (decide (S q = es)) as [E|]; [by rewrite E, Hz in Eg2|lia].
  - destruct (skip_word_spec q ltac:(lia)) as (H1 & H2 & H3). constructor; [|done..].
    cbn [fst snd]. split; [|lia]. unfold skip_word. replace (es - q)%nat with (S (es - q - 1)) by lia. cbn [scan_chars].
    unfold word_char at 1. rewrite Hw, symbols_iff, Eo. rewrite (proj2 (Z.eqb_neq _ _) Eg). cbn.
    pose proof (scan_chars_spec word_char (es - q - 1) (S q)) as (? & _).
    lia.
Qed.

Lemma token_end q k e : (q < es)%nat -> token q k e -> (q < e <= es)%nat.
Proof. intros Hq []; lia. Qed.

(** ** The tokens from a place on *)

Lemma toks_fuel n m s : (s <= es)%nat -> (es - s <= n)%nat -> (es - s <= m)%nat -> toks n s = toks m s.
Proof.
  revert m s. induction n as [|n IH]; intros m s Hs Hn Hm; destruct m as [|m]; try done; cbn [toks].
  1: assert (es <=? skip_ws es B s = true)%nat as ->; [|done].
  1: { apply Nat.leb_le. destruct (skip_ws_spec s Hs). lia. }
  1: assert (es <=? skip_ws es B s = true)%nat as ->; [|done].
  1: { apply Nat.leb_le. destruct (skip_ws_spec s Hs). lia. }
  destruct (Nat.leb_spec es (skip_ws es B s)); [done|]. destruct (skip_ws_spec s Hs) as (H1 & _ & H2).
  pose proof (token_end _ _ _ ltac:(done) (token_at_spec _ ltac:(done) H2)) as He.
  destruct (token_at es B (skip_ws es B s)) as [k e]. cbn in He. f_equal. apply IH; lia.
Qed.

Lemma tokens_at s :
  (s <= es)%nat -> let q := skip_ws es B s in
  tokens s = if (es <=? q)%nat then [] else
    mk_tok (token_at es B q).1 q (token_at es B q).2 :: tokens (token_at es B q).2.
Proof.
  intros Hs q. unfold tokens. destruct (decide (s = es)) as [->|Hne].
  { unfold q. rewrite Nat.sub_diag. destruct (skip_ws_spec es ltac:(lia)) as (H1 & _).
    by rewrite (proj2 (Nat.leb_le _ _)) by lia. }
  rewrite (toks_fuel (es - s) (S (es - s))) by lia. cbn [toks]. fold q.
  destruct (Nat.leb_spec es q); [done|]. destruct (skip_ws_spec s Hs) as (H1 & _ & H2). fold q in H1, H2.
  pose proof (token_end _ _ _ ltac:(done) (token_at_spec _ ltac:(done) H2)) as He.
  destruct (token_at es B q) as [k e]. cbn in *. f_equal. apply toks_fuel; lia.
Qed.

Lemma tokens_skip s : (s <= es)%nat -> tokens (skip_ws es B s) = tokens s.
Proof.
  intros Hs. destruct (skip_ws_spec s Hs) as (H1 & _). rewrite (tokens_at (skip_ws es B s)) by lia.
  rewrite skip_ws_idem by done. symmetry. by apply tokens_at.
Qed.

Lemma tokens_length s : (s <= es)%nat -> (length (tokens s) <= es - s)%nat.
Proof.
  unfold tokens. generalize (es - s)%nat as n. intros n. revert s.
  induction n as [|n IH]; intros s Hs; cbn [toks]; [done|]. destruct (Nat.leb_spec es (skip_ws es B s)); [cbn; lia|].
  destruct (skip_ws_spec s Hs) as (H1 & _ & H2).
  pose proof (token_end _ _ _ ltac:(done) (token_at_spec _ ltac:(done) H2)) as He.
  destruct (token_at es B (skip_ws es B s)) as [k e]. cbn in *. specialize (IH e). lia.
Qed.

(** ** Peeking and taking a token *)

(** The state of the parser before the tokens [T], with the nodes [N]. *)
Record at_toks (N : list node) (T : list tok) (s : shell) : Prop := {
  at_buf : sh_buf s = B;
  at_nodes : sh_nodes s = N;
  at_ps : (sh_ps s <= es)%nat;
  at_tokens : tokens (sh_ps s) = T;
}.

Lemma peek_spec cs N T s :
  at_toks N T s -> (forall c, has_char cs c = true -> has_char symbols c = true) ->
  wp (peek es cs) (fun b s' => b = head_in cs T /\ at_toks N T s' /\ (T = [] <-> sh_ps s' = es)) s.
Proof.
  intros [Hb Hn Hp Ht] Hcs. unfold peek. do 6 wstep. rewrite Hb. wstep.
  destruct (skip_ws_spec (sh_ps s) Hp) as (Hq & _ & Hw). set (q := skip_ws es B (sh_ps s)) in *.
  assert (at_toks N T (set_ps q s)) as Hat.
  { split; cbn; [done|done|lia|]. unfold q. by rewrite tokens_skip. }
  split; [|split; [done|]]; rewrite tokens_at in Ht by done; fold q in Ht; subst T; cbn [sh_ps set_ps].
  - destruct (Nat.leb_spec es q) as [Hle|Hlt].
    { replace q with es by lia. by rewrite Hz. }
    rewrite (proj2 (Z.eqb_neq _ _) (Hnz q Hlt)). cbn [negb andb].
    destruct (token_at_spec q Hlt Hw) as [Ho|Eg _|Eg _ _|e He Hwd _]; unfold mk_tok.
    + assert (char_at B q <> CH_A /\ char_at B q <> CH_PLUS) as [H1 H2].
      { apply is_op_spec in Ho. split; intros E; rewrite E in Ho; set_solver. }
      rewrite (proj2 (Z.eqb_neq _ _) H1). cbn. unfold first_char. by rewrite (proj2 (Z.eqb_neq _ _) H2).
    + by rewrite Eg.
    + by rewrite Eg.
    + cbn. specialize (Hwd q ltac:(lia)). unfold word_char in Hwd. apply andb_prop in Hwd as [_ Hwd].
      destruct (has_char cs (char_at B q)) eqn:E; [|done]. by rewrite (Hcs _ E) in Hwd.
  - destruct (Nat.leb_spec es q); split; try done; lia.
Qed.

Lemma gettoken_spec N T s :
  at_toks N T s ->
  wp (gettoken es) (fun r s' => let '(k, q, e) := r in
    match T with
    | [] => k = 0 /\ at_toks N [] s'
    | t :: T' => k <> 0 /\ mk_tok k q e = t /\ at_toks N T' s'
    end) s.
Proof.
  intros [Hb Hn Hp Ht]. unfold gettoken. do 4 wstep. rewrite Hb.
  destruct (skip_ws_spec (sh_ps s) Hp) as (Hq & _ & Hw). set (q := skip_ws es B (sh_ps s)) in *.
  rewrite tokens_at in Ht by done. fold q in Ht. destruct (Nat.leb_spec es q) as [Hle|Hlt].
  - assert (token_at es B q = (0, q)) as ->.
    { replace q with es by lia. unfold token_at. by rewrite Hz. }
    do 3 wstep. subst T. split; [done|]. destruct (skip_ws_spec q) as (Hq' & _); [lia|].
    split; cbn; [done|done|lia|]. rewrite tokens_skip, tokens_at by lia. unfold q at 1. rewrite skip_ws_idem by done.
    fold q. by rewrite (proj2 (Nat.leb_le _ _)).
  - pose proof (token_at_spec q Hlt Hw) as Htk. pose proof (token_end _ _ _ Hlt Htk) as He.
    destruct (token_at es B q) as [k e]. cbn [fst snd] in *. do 3 wstep. subst T.
    split; [|split; [done|]].
    + intros ->. inv Htk. pose proof (Hnz q Hlt). congruence.
    + destruct (skip_ws_spec e) as (Hq' & _); [lia|]. split; cbn; [done|done|lia|]. apply tokens_skip. lia.
Qed.
End lex.
