(* ===== verification/ShParse.v ===== *)
(** * The parser of the shell is correct

    [parseline], [parsepipe], [parseexec], [parseblock] and [parseredirs]
    (user/sh.c) against the grammar: on the tokens of a line of the grammar
    they build its tree (completeness), and what they accept is a line of the
    grammar (soundness); they always return or report an error. *)

From S2P Require Import Prelude Monad Params CString Ulib Sh ShSpec.

(** ** Heads of token lists *)

Lemma mk_tok_sym k q e c : mk_tok k q e = TSym c -> k = c.
Proof. unfold mk_tok. by destruct (k =? CH_A); intros [=]. Qed.

Lemma mk_tok_word k q e q' e' : mk_tok k q e = TWord q' e' -> k = CH_A /\ q = q' /\ e = e'.
Proof. unfold mk_tok. destruct (Z.eqb_spec k CH_A); by intros [=]. Qed.

Lemma head_in_one c T : is_op c = true -> head_in [c; 0] T = true <-> exists T', T = TSym c :: T'.
Proof.
  intros Hop%is_op_spec. assert (c <> 0 /\ c <> CH_GT /\ c <> CH_PLUS) as (H0 & Hg & Hp).
  { split_and!; intros ->; set_solver. }
  unfold head_in. destruct T as [|[c'|q e] T]; [split; [done|by intros (? & ?)]| |split; [done|by intros (? & ?)]].
  rewrite has_char_spec, cstr_char by done. change (cstr [0]) with (@nil Z). rewrite list_elem_of_singleton.
  unfold first_char. destruct (Z.eqb_spec c' CH_PLUS) as [->|Hp'].
  - split; [by intros <-|]. by intros (T' & [= ? ?]).
  - split; [intros ->; eauto|]. by intros (T' & [= ? ?]).
Qed.

Lemma head_in_redir T : head_in [CH_LT; CH_GT; 0] T = true <->
  exists op T', T = TSym op :: T' /\ (op = CH_LT \/ op = CH_GT \/ op = CH_PLUS).
Proof.
  unfold head_in. destruct T as [|[c|q e] T]; [split; [done|by intros (? & ? & ? & _)]| |split; [done|by intros (? & ? & ? & _)]].
  rewrite has_char_spec. change (cstr _) with [CH_LT; CH_GT]. rewrite !elem_of_cons, elem_of_nil.
  unfold first_char. destruct (Z.eqb_spec c CH_PLUS) as [->|Hp].
  - split; [intros _; exists CH_PLUS, T; auto|auto].
  - split; [intros [-> | [-> | []]]; eauto 6|]. intros (op & T' & [= <- <-] & [-> | [-> | ->]]); auto.
Qed.

(** The tokens that may follow a command: none, or a symbol of [cs]. *)
Definition follow (cs : list Z) (T : list tok) : Prop := T = [] \/ head_in cs T = true.
Definition fol_simple : list Z := [CH_BAR; CH_RPAR; CH_AMP; CH_SEMI; 0].
Definition fol_pipe : list Z := [CH_RPAR; CH_AMP; CH_SEMI; 0].
Definition fol_line : list Z := [CH_RPAR; 0].

Lemma has_char_iff cs l c : cstr cs = l -> has_char cs c = true <-> c ∈ l.
Proof. intros <-. apply has_char_spec. Qed.

(** Comparing sets of characters. *)
Ltac charset :=
  let c := fresh "c" in let H := fresh "H" in
  intros c H; rewrite ?(has_char_iff _ _ _ eq_refl) in *;
  repeat (apply elem_of_cons in H as [->|H]); try done; try (by apply elem_of_nil in H); by compute_done.

Lemma follow_weaken cs cs' T :
  (forall c, has_char cs c = true -> has_char cs' c = true) -> follow cs T -> follow cs' T.
Proof.
  intros H [->|Hh]; [by left|right]. destruct T as [|[c|q e] T]; try done. by apply H.
Qed.

Lemma follow_not cs cs' T :
  (forall c, has_char cs c = true -> has_char cs' c = false) -> follow cs T -> head_in cs' T = false.
Proof.
  intros H [->|Hh]; [done|]. destruct T as [|[c|q e] T]; try done. by apply H.
Qed.

(** ** Redirections around a node *)

Definition redir_node (c : nat) (r : redir) : node :=
  let '(Redir op q e) := r in REDIR c q e (redir_mode op) (redir_fd op).

(** From [p], through the redirections (the outermost first), to [c]. *)
Fixpoint chain (N : list node) (p : nat) (rs : list redir) (c : nat) : Prop :=
  match rs with
  | [] => p = c
  | r :: rs => exists p', N !! p = Some (redir_node p' r) /\ chain N p' rs c
  end.

Lemma chain_app N p rs rs' c c' : chain N p rs c -> chain N c rs' c' -> chain N p (rs ++ rs') c'.
Proof.
  revert p. induction rs as [|r rs IH]; intros p; cbn; [by intros ->|].
  intros (p' & Hp & Hc) Hc'. exists p'. auto.
Qed.

Lemma chain_mono N K p rs c : chain N p rs c -> chain (N ++ K) p rs c.
Proof.
  revert p. induction rs as [|r rs IH]; intros p; cbn; [done|].
  intros (p' & Hp & Hc). exists p'. split; [by apply lookup_app_l_Some|auto].
Qed.

Lemma wrap_snoc rs r t : wrap (rs ++ [r]) t = let '(Redir op q e) := r in TRedir (wrap rs t) q e (redir_mode op) (redir_fd op).
Proof. unfold wrap. by rewrite foldl_app. Qed.

Lemma rep_chain N p rs c t : chain N p (reverse rs) c -> rep N c t -> rep N p (wrap rs t).
Proof.
  revert p. induction rs as [|r rs IH] using rev_ind; intros p; [by intros ->|].
  rewrite reverse_snoc, wrap_snoc. cbn [chain]. intros (p' & Hp & Hc) Ht. destruct r as [op q e]. exists p'. auto.
Qed.

(** Filling in an argument does not change the redirections. *)
Lemma chain_exec N a b a' b' K p rs c :
  chain (N ++ EXEC a b :: K) p rs c -> chain (N ++ EXEC a' b' :: K) p rs c.
Proof.
  revert p. induction rs as [|r rs IH]; intros p; cbn; [done|].
  intros (p' & Hp & Hc). exists p'. split; [|auto].
  destruct (decide (p = length N)) as [->|Hne].
  - rewrite list_lookup_middle in Hp by done. by destruct r.
  - destruct (decide (p < length N)%nat).
    + rewrite lookup_app_l in Hp |- * by done. done.
    + rewrite lookup_app_r in Hp |- * by lia. destruct (p - length N)%nat eqn:E; [lia|done].
Qed.

(** A run of [&] ends in one place. *)
Lemma amps_unique n m T T' :
  replicate n (TSym CH_AMP) ++ T = replicate m (TSym CH_AMP) ++ T' ->
  head_in [CH_AMP; 0] T = false -> head_in [CH_AMP; 0] T' = false -> n = m /\ T = T'.
Proof.
  revert m. induction n as [|n IH]; intros [|m]; cbn [replicate app]; intros E HT HT'; [done|by subst|by subst|].
  injection E as E. by destruct (IH m E HT HT') as [-> ->].
Qed.

Lemma follow_amps n T : follow fol_pipe T -> follow fol_pipe (replicate n (TSym CH_AMP) ++ T).
Proof. intros H. destruct n; [done|by right]. Qed.

(** ** Items *)

Lemma omap_redirs rs : args_of (Red <$> rs) = [] /\ redirs_of (Red <$> rs) = rs.
Proof. induction rs as [|r rs [IH1 IH2]]; [done|]. unfold args_of, redirs_of in *. cbn. by rewrite IH1, IH2. Qed.

Lemma args_of_redirs rs its : args_of ((Red <$> rs) ++ its) = args_of its.
Proof. unfold args_of. rewrite omap_app. fold (args_of (Red <$> rs)). by rewrite (proj1 (omap_redirs rs)). Qed.

Lemma redirs_of_redirs rs its : redirs_of ((Red <$> rs) ++ its) = rs ++ redirs_of its.
Proof. unfold redirs_of. rewrite omap_app. fold (redirs_of (Red <$> rs)). by rewrite (proj2 (omap_redirs rs)). Qed.

Lemma pr_items_redirs rs its :
  mjoin (pr_item <$> (Red <$> rs) ++ its) = mjoin (pr_redir <$> rs) ++ mjoin (pr_item <$> its).
Proof.
  induction rs as [|r rs IH]; [done|]. change (pr_redir r ++ mjoin (pr_item <$> (Red <$> rs) ++ its) =
    (pr_redir r ++ mjoin (pr_redir <$> rs)) ++ mjoin (pr_item <$> its)). by rewrite IH, app_assoc.
Qed.

Lemma length_pr_redirs rs : (length rs <= length (mjoin (pr_redir <$> rs)))%nat.
Proof.
  induction rs as [|[op q e] rs IH]; [done|].
  change (S (length rs) <= S (S (length (mjoin (pr_redir <$> rs)))))%nat. lia.
Qed.

Lemma length_pr_items its : (length its <= length (mjoin (pr_item <$> its)))%nat.
Proof.
  induction its as [|[q e|[op q e]] its IH]; [done|..].
  - change (S (length its) <= S (length (mjoin (pr_item <$> its))))%nat. lia.
  - change (S (length its) <= S (S (length (mjoin (pr_item <$> its)))))%nat. lia.
Qed.

(** The redirections in front of the first argument. *)
Lemma items_split its : exists rs its', its = (Red <$> rs) ++ its' /\
  (its' = [] \/ exists q e its'', its' = Arg q e :: its'').
Proof.
  induction its as [|[q e|r] its (rs & its' & -> & IH)].
  - exists [], []. by split; [|left].
  - exists [], (Arg q e :: (Red <$> rs) ++ its'). split; [done|right]. eauto.
  - by exists (r :: rs), its'.
Qed.

Lemma exec_node_snoc args q e :
  (length args < MAXARGS)%nat ->
  match exec_node args with
  | EXEC argv eargv => EXEC (<[length args := Some q]> argv) (<[length args := Some e]> eargv)
  | n => n
  end = exec_node (args ++ [(q, e)]).
Proof.
  intros H. unfold exec_node. rewrite length_app, !fmap_app. cbn [length fmap list_fmap fst snd].
  replace (MAXARGS - length args)%nat with (S (MAXARGS - (length args + 1))) by lia. cbn [replicate].
  assert (forall l : list nat, length l = length args -> forall x : nat,
    <[length args := Some x]> ((Some <$> l) ++ None :: replicate (MAXARGS - (length args + 1)) None) =
    ((Some <$> l) ++ [Some x]) ++ replicate (MAXARGS - (length args + 1)) None) as Hi.
  { intros l Hl x. rewrite <- Hl, <- (length_fmap Some l), insert_app_r_alt, Nat.sub_diag by done. cbn.
    by rewrite <- app_assoc. }
  rewrite !Hi by by rewrite length_fmap. done.
Qed.

Lemma exec_node_end args :
  match exec_node args with
  | EXEC argv eargv => EXEC (<[length args := None]> argv) (<[length args := None]> eargv)
  | n => n
  end = exec_node args.
Proof.
  unfold exec_node. assert (forall l : list nat, length l = length args ->
    <[length args := None]> ((Some <$> l) ++ replicate (MAXARGS - length args) None) =
    (Some <$> l) ++ replicate (MAXARGS - length args) None) as Hi.
  { intros l Hl. rewrite insert_app_r_alt, length_fmap, Hl, Nat.sub_diag by (rewrite length_fmap; lia).
    by destruct (MAXARGS - length args)%nat. }
  by rewrite !Hi by by rewrite length_fmap.
Qed.

Section parser.
Context (es : nat) (B : list Z).
Context (Hnz : forall i, (i < es)%nat -> char_at B i <> 0) (Hz : char_at B es = 0).
#[local] Notation at_toks := (at_toks es B).
#[local] Notation peek_ok := (peek_spec es B Hnz Hz).
#[local] Notation gettoken_ok := (gettoken_spec es B Hnz Hz).

(** Taking a symbol that was seen. *)
Lemma take_sym c N T s :
  at_toks N (TSym c :: T) s -> wp (gettoken es) (fun r s' => r.1.1 = c /\ at_toks N T s') s.
Proof.
  intros H. eapply wp_mono; [by apply gettoken_ok|]. cbv beta.
  intros [[k q] e] s' (_ & Hk%mk_tok_sym & Hs). done.
Qed.

Lemma new_node_spec n N T s :
  at_toks N T s -> wp (new_node n) (fun p s' => p = length N /\ at_toks (N ++ [n]) T s') s.
Proof. intros [Hb Hn Hp Ht]. unfold new_node. wsteps. cbn. rewrite Hn. split; [done|]. split; cbn; by rewrite ?Hn. Qed.

(** ** Redirections *)

Lemma redir_step_spec cmd N T s :
  at_toks N T s ->
  wpe (redir_step es cmd) (fun r s' => match r with
    | inr p => p = cmd /\ at_toks N T s' /\ head_in [CH_LT; CH_GT; 0] T = false
    | inl p => exists rd T', T = pr_redir rd ++ T' /\ ok_redir rd /\ p = length N /\
        at_toks (N ++ [redir_node cmd rd]) T' s'
    end) (fun _ _ => head_in [CH_LT; CH_GT; 0] T = true /\ forall rd T', ok_redir rd -> T <> pr_redir rd ++ T') s.
Proof.
  intros H. unfold redir_step. wcall (peek_ok [CH_LT; CH_GT; 0] N T s H); [charset|]. cbv beta. intros b s1 (-> & H1 & _).
  destruct (head_in _ T) eqn:Eh; [|wstep; by split_and!].
  pose proof Eh as (op & T1 & -> & Hop)%head_in_redir. wcall (take_sym op N T1 s1); [done|]. cbv beta.
  intros [[k q0] e0] s2 (Ek & H2). cbn in Ek. subst k. wcall (gettoken_ok N T1 s2 H2). cbv beta.
  intros [[k q] e] s3 H3. destruct (Z.eqb_spec k CH_A) as [->|Hk]; cbn [negb].
  2: { apply wpe_panic. split; [done|]. intros [op' q' e'] T' Hop' [= -> ->]. destruct H3 as (_ & (-> & _)%mk_tok_word & _). done. }
  assert (exists T2, T1 = TWord q e :: T2 /\ at_toks N T2 s3) as (T2 & -> & H4).
  { destruct T1 as [|t T2]; [by destruct H3|]. destruct H3 as (_ & <- & H3). by exists T2. }
  assert (forall n, n = redir_node cmd (Redir op q e) -> wpe (let! p := new_node n in ret (inl p)) (fun r s' =>
    match r with
    | inr p => p = cmd /\ at_toks N (TSym op :: TWord q e :: T2) s' /\ head_in [CH_LT; CH_GT; 0] (TSym op :: TWord q e :: T2) = false
    | inl p => exists rd T', TSym op :: TWord q e :: T2 = pr_redir rd ++ T' /\ ok_redir rd /\ p = length N /\
        at_toks (N ++ [redir_node cmd rd]) T' s'
    end) (fun _ _ => head_in [CH_LT; CH_GT; 0] (TSym op :: TWord q e :: T2) = true /\
      forall rd T', ok_redir rd -> TSym op :: TWord q e :: T2 <> pr_redir rd ++ T') s3) as Hnew.
  { intros n ->. wcall (new_node_spec (redir_node cmd (Redir op q e)) N T2 s3 H4). cbv beta.
    intros p s4 [-> H5]. wstep. by exists (Redir op q e), T2. }
  destruct Hop as [-> | [-> | ->]]; cbn [Z.eqb]; by apply Hnew.
Qed.

Lemma parseredirs_sound n : forall cmd N T s,
  at_toks N T s -> (length T < n)%nat ->
  wpe (while_fuel n (redir_step es) cmd) (fun p s' => exists rs T' K,
    T = mjoin (pr_redir <$> rs) ++ T' /\ Forall ok_redir rs /\ head_in [CH_LT; CH_GT; 0] T' = false /\
    at_toks (N ++ K) T' s' /\ chain (N ++ K) p (reverse rs) cmd) (fun _ _ => True) s.
Proof.
  induction n as [|n IH]; intros cmd N T s H Hn; [lia|]. rewrite while_fuel_S. apply wpe_bind.
  eapply wpe_mono; [by apply redir_step_spec| |done]. cbv beta. intros [p|p] s1.
  - intros (rd & T1 & -> & Hrd & -> & H1). destruct rd as [op q e]. cbn in Hn.
    eapply wpe_mono; [apply (IH (length N) _ _ _ H1); lia| |done]. cbv beta.
    intros p s2 (rs & T2 & K & -> & Hrs & Hh & H2 & Hc). exists (Redir op q e :: rs), T2, (redir_node cmd (Redir op q e) :: K).
    rewrite cons_middle, (app_assoc N). split_and!; [done|by constructor|done|done|].
    rewrite reverse_cons. eapply chain_app; [exact Hc|]. exists cmd. split; [|done].
    rewrite <- app_assoc. by apply list_lookup_middle.
  - intros (-> & H1 & Hh). wstep. exists [], T, []. rewrite app_nil_r. by split_and!.
Qed.

Lemma redir_step_take cmd rd N T s :
  at_toks N (pr_redir rd ++ T) s -> ok_redir rd ->
  wp (redir_step es cmd) (fun r s' => r = inl (length N) /\ at_toks (N ++ [redir_node cmd rd]) T s') s.
Proof.
  intros H Hrd. apply (wpe_no_panic _ _ (fun _ _ => False)); [|tauto].
  eapply wpe_mono; [by apply redir_step_spec| |]; cbv beta.
  - intros [p|p] s1.
    + intros (rd' & T' & E & _ & -> & H1). destruct rd as [op q e], rd' as [op' q' e']. by injection E as <- <- <- <-.
    + intros (_ & _ & Hh). destruct rd as [op q e]. exfalso. revert Hh.
      rewrite (proj2 (head_in_redir _)); [done|]. by exists op, (TWord q e :: T).
  - intros msg s' [_ Hno]. exact (Hno rd T Hrd eq_refl).
Qed.

Lemma redir_step_stop cmd N T s :
  at_toks N T s -> head_in [CH_LT; CH_GT; 0] T = false ->
  wp (redir_step es cmd) (fun r s' => r = inr cmd /\ at_toks N T s') s.
Proof.
  intros H Hh. apply (wpe_no_panic _ _ (fun _ _ => False)); [|tauto].
  eapply wpe_mono; [by apply redir_step_spec| |]; cbv beta.
  - intros [p|p] s1; [|by intros (-> & H1 & _)]. intros ([op q e] & T' & -> & Hrd & _). exfalso. revert Hh.
    rewrite (proj2 (head_in_redir _)); [done|]. by exists op, (TWord q e :: T').
  - intros msg s' [Ht _]. by rewrite Hh in Ht.
Qed.

Lemma parseredirs_complete rs : forall n cmd N T s,
  Forall ok_redir rs -> at_toks N (mjoin (pr_redir <$> rs) ++ T) s -> head_in [CH_LT; CH_GT; 0] T = false ->
  (length rs < n)%nat ->
  wp (while_fuel n (redir_step es) cmd) (fun p s' => exists K,
    at_toks (N ++ K) T s' /\ chain (N ++ K) p (reverse rs) cmd) s.
Proof.
  induction rs as [|r rs IH]; intros n cmd N T s Hrs H Hh Hn; (destruct n as [|n]; [cbn in Hn; lia|]); rewrite while_fuel_S.
  - wcall (redir_step_stop cmd N T s H Hh). cbv beta. intros r s1 [-> H1]. wstep. exists []. by rewrite app_nil_r.
  - apply Forall_cons in Hrs as [Hr Hrs]. cbn [fmap list_fmap mjoin list_join] in H. rewrite <- app_assoc in H.
    wcall (redir_step_take cmd r N _ s H Hr). cbv beta. intros p s1 [-> H1].
    eapply wp_mono; [apply (IH n (length N) _ _ _ Hrs H1 Hh); cbn in Hn; lia|]. cbv beta.
    intros p s2 (K & H2 & Hc). exists (redir_node cmd r :: K). rewrite cons_middle, (app_assoc N). split; [done|].
    rewrite reverse_cons. eapply chain_app; [exact Hc|]. exists cmd. split; [|done].
    rewrite <- app_assoc. by apply list_lookup_middle.
Qed.

Lemma at_length N T s : at_toks N T s -> (length T <= es)%nat.
Proof. intros [_ _ Hp <-]. pose proof (tokens_length es B Hnz Hz (sh_ps s) Hp). lia. Qed.

(** ** Arguments *)

(** The node of the command is at [length N]. *)
Lemma set_arg_spec N args K q e T s :
  at_toks (N ++ exec_node args :: K) T s -> (length args < MAXARGS)%nat ->
  wp (set_arg (length N) (length args) (Some q) (Some e))
    (fun _ s' => at_toks (N ++ exec_node (args ++ [(q, e)]) :: K) T s') s.
Proof.
  intros [Hb Hn Hp Ht] Hl. unfold set_arg. wstep. split; cbn; [done| |done..].
  rewrite Hn, alter_app_r_alt, Nat.sub_diag by done. by rewrite <- exec_node_snoc.
Qed.

Lemma set_end_spec N args K T s :
  at_toks (N ++ exec_node args :: K) T s ->
  wp (set_arg (length N) (length args) None None) (fun _ s' => at_toks (N ++ exec_node args :: K) T s') s.
Proof.
  intros [Hb Hn Hp Ht]. unfold set_arg. wstep. split; cbn; [done| |done..].
  rewrite Hn, alter_app_r_alt, Nat.sub_diag by done. f_equal. exact (f_equal (fun n => n :: K) (exec_node_end args)).
Qed.

(** The loop of [parseexec] with the arguments [args] and the redirections
    [rs] so far, and [r] the outermost of these. *)
Record exec_at (N K : list node) (args : list (nat * nat)) (rs : list redir) (r : nat) (T : list tok) (s : shell) : Prop := {
  ea_at : at_toks (N ++ exec_node args :: K) T s;
  ea_args : (length args < MAXARGS)%nat;
  ea_chain : chain (N ++ exec_node args :: K) r (reverse rs) (length N);
}.

(** A new argument. *)
Lemma exec_arg N K args rs r q e T s :
  exec_at N K args rs r T s ->
  wp (set_arg (length N) (length args) (Some q) (Some e)) (fun _ s' =>
    at_toks (N ++ exec_node (args ++ [(q, e)]) :: K) T s' /\
    chain (N ++ exec_node (args ++ [(q, e)]) :: K) r (reverse rs) (length N)) s.
Proof.
  intros [H Hl Hc]. eapply wp_mono; [by apply set_arg_spec|]. cbv beta. intros _ s' H'. split; [done|]. by eapply chain_exec.
Qed.

(** The redirections after it. *)
Lemma exec_redirs N K K' args rs rs' r r' T s :
  chain (N ++ exec_node args :: K) r (reverse rs) (length N) -> (length args < MAXARGS)%nat ->
  at_toks ((N ++ exec_node args :: K) ++ K') T s -> chain ((N ++ exec_node args :: K) ++ K') r' (reverse rs') r ->
  exec_at N (K ++ K') args (rs ++ rs') r' T s.
Proof.
  intros Hc Hl H Hc'. pose proof (chain_mono _ K' _ _ _ Hc) as Hc2. rewrite <- app_assoc, <- app_comm_cons in H, Hc', Hc2.
  split; [done..|]. rewrite reverse_app. by eapply chain_app.
Qed.

Lemma exec_loop_sound n : forall N K args rs r T s,
  exec_at N K args rs r T s -> (length T < n)%nat ->
  wpe (while_fuel n (exec_step es (length N)) (length args, r)) (fun x s' => exists its T' K',
    T = mjoin (pr_item <$> its) ++ T' /\ x.1 = length (args ++ args_of its) /\ Forall ok_redir (redirs_of its) /\
    exec_at N K' (args ++ args_of its) (rs ++ redirs_of its) x.2 T' s') (fun _ _ => True) s.
Proof.
  induction n as [|n IH]; intros N K args rs r T s Hea Hn; [lia|]. rewrite while_fuel_S. apply wpe_bind.
  pose proof Hea as [H Hl Hc]. unfold exec_step at 1.
  wcall (peek_ok fol_simple _ T s H); [charset|]. cbv beta. intros b s1 (-> & H1 & _).
  assert (forall s', at_toks (N ++ exec_node args :: K) T s' -> exists its T' K',
    T = mjoin (pr_item <$> its) ++ T' /\ length args = length (args ++ args_of its) /\ Forall ok_redir (redirs_of its) /\
    exec_at N K' (args ++ args_of its) (rs ++ redirs_of its) r T' s') as Hstop.
  { intros s' H'. exists [], T, K. cbn. rewrite !app_nil_r. by split_and!. }
  destruct (head_in fol_simple T) eqn:Eh; [wstep; wstep; cbn [fst snd]; by apply Hstop|].
  wcall (gettoken_ok _ T s1 H1). cbv beta. intros [[k q] e] s2 H2.
  destruct T as [|t T]; [destruct H2 as [-> H2]; change (0 =? 0) with true; wstep; wstep; by apply Hstop|].
  destruct H2 as (Hk & Ht & H2). apply Z.eqb_neq in Hk as ->.
  destruct (Z.eqb_spec k CH_A) as [->|Hk]; cbn [negb]; [|by apply wpe_panic].
  cbn in Ht. subst t. wcall (exec_arg N K args rs r q e T s2); [by split|]. cbv beta. intros _ s3 [H3 Hc3].
  destruct (Nat.leb_spec MAXARGS (S (length args))) as [|Hl3]; [by apply wpe_panic|].
  assert (length (args ++ [(q, e)]) < MAXARGS)%nat as Hl4 by (rewrite length_app; cbn; lia).
  apply wpe_bind. eapply wpe_mono; [apply (parseredirs_sound (S es) r _ _ _ H3)| |done].
  { apply at_length in H3. lia. }
  cbv beta. intros r1 s4 (rs1 & T1 & K1 & -> & Hrs1 & _ & H4 & Hc4). wstep.
  replace (S (length args)) with (length (args ++ [(q, e)])) by (rewrite length_app; cbn; lia).
  eapply wpe_mono; [apply (IH N (K ++ K1) _ (rs ++ rs1) r1 T1)| |done].
  - by eapply exec_redirs.
  - cbn in Hn. rewrite length_app in Hn. lia.
  - cbv beta. intros x s5 (its & T2 & K2 & -> & Hx & Hrs & Hea').
    exists (Arg q e :: (Red <$> rs1) ++ its), T2, K2.
    change (args_of (Arg q e :: (Red <$> rs1) ++ its)) with ((q, e) :: args_of ((Red <$> rs1) ++ its)).
    change (redirs_of (Arg q e :: (Red <$> rs1) ++ its)) with (redirs_of ((Red <$> rs1) ++ its)).
    rewrite args_of_redirs, redirs_of_redirs, !(app_assoc rs). rewrite (cons_middle (q, e)), !(app_assoc args). split_and!; [|done|by apply Forall_app|done].
    change (TWord q e :: mjoin (pr_redir <$> rs1) ++ mjoin (pr_item <$> its) ++ T2 =
      TWord q e :: mjoin (pr_item <$> (Red <$> rs1) ++ its) ++ T2). by rewrite pr_items_redirs, app_assoc.
Qed.

(** What the items leave for the redirections to stop at. *)
Lemma items_head its T :
  its = [] \/ (exists q e its', its = Arg q e :: its') -> follow fol_simple T ->
  head_in [CH_LT; CH_GT; 0] (mjoin (pr_item <$> its) ++ T) = false.
Proof. intros [->|(q & e & its' & ->)] HT; [|done]. eapply follow_not; [|exact HT]. charset. Qed.

Lemma exec_loop_complete n : forall its N K args rs r T s,
  exec_at N K args rs r (mjoin (pr_item <$> its) ++ T) s ->
  its = [] \/ (exists q e its', its = Arg q e :: its') -> follow fol_simple T ->
  (length (args ++ args_of its) < MAXARGS)%nat -> Forall ok_redir (redirs_of its) -> (length its < n)%nat ->
  wp (while_fuel n (exec_step es (length N)) (length args, r)) (fun x s' => exists K',
    x.1 = length (args ++ args_of its) /\ exec_at N K' (args ++ args_of its) (rs ++ redirs_of its) x.2 T s') s.
Proof.
  induction n as [|n IH]; intros its N K args rs r T s Hea Hits HT Hl Hrs Hn; [lia|]. rewrite while_fuel_S. apply wp_bind.
  pose proof Hea as [H Hl0 Hc]. unfold exec_step at 1.
  wcall (peek_ok fol_simple _ _ s H); [charset|]. cbv beta. intros b s1 (-> & H1 & _).
  destruct Hits as [->|(q & e & its1 & ->)].
  - cbn [mjoin list_join fmap list_fmap app args_of omap redirs_of] in *. rewrite !app_nil_r in *.
    destruct HT as [->|HT].
    + cbn [head_in]. wcall (gettoken_ok _ [] s1 H1). cbv beta. intros [[k q] e] s2 [-> H2].
      change (0 =? 0) with true. do 2 wstep. exists K. by split.
    + rewrite HT. do 2 wstep. exists K. by split.
  - destruct (items_split its1) as (rs1 & its2 & -> & Hits2).
    change (args_of (Arg q e :: (Red <$> rs1) ++ its2)) with ((q, e) :: args_of ((Red <$> rs1) ++ its2)) in *.
    change (redirs_of (Arg q e :: (Red <$> rs1) ++ its2)) with (redirs_of ((Red <$> rs1) ++ its2)) in *.
    change (mjoin (pr_item <$> Arg q e :: (Red <$> rs1) ++ its2) ++ T) with
      (TWord q e :: mjoin (pr_item <$> (Red <$> rs1) ++ its2) ++ T) in *.
    rewrite pr_items_redirs, args_of_redirs, redirs_of_redirs, !(app_assoc rs), <- app_assoc in *. cbn [head_in].
    rewrite (cons_middle (q, e)), !(app_assoc args) in *.
    wcall (gettoken_ok _ _ s1 H1). cbv beta. intros [[k q'] e'] s2 (_ & (-> & -> & ->)%mk_tok_word & H2). change (CH_A =? 0) with false. change (CH_A =? CH_A) with true. cbv beta iota delta [negb].
    wcall (exec_arg N K args rs r q e _ s2); [by split|]. cbv beta. intros _ s3 [H3 Hc3].
    assert (length (args ++ [(q, e)]) < MAXARGS)%nat as Hl4 by (rewrite length_app in Hl; lia).
    assert ((MAXARGS <=? S (length args))%nat = false) as ->.
    { apply Nat.leb_gt. rewrite length_app in Hl4. cbn in Hl4. lia. }
    apply Forall_app in Hrs as [Hrs1 Hrs2]. apply wp_bind.
    wcall (parseredirs_complete rs1 (S es) r _ _ s3 Hrs1 H3 (items_head _ _ Hits2 HT)).
    { apply at_length in H3. rewrite length_app in H3. pose proof (length_pr_redirs rs1). lia. }
    cbv beta. intros r1 s4 (K1 & H4 & Hc4). wstep.
    replace (S (length args)) with (length (args ++ [(q, e)])) by (rewrite length_app; cbn; lia).
    apply (IH its2 N (K ++ K1) _ (rs ++ rs1) r1 T); [by eapply exec_redirs|done..|].
    cbn in Hn. rewrite length_app in Hn. lia.
Qed.

(** ** Background commands *)

Lemma back_loop n : forall cmd t N T s,
  at_toks N T s -> rep N cmd t -> (length T < n)%nat ->
  wp (while_fuel n (back_step es) cmd) (fun p s' => exists k T' K,
    T = replicate k (TSym CH_AMP) ++ T' /\ head_in [CH_AMP; 0] T' = false /\
    at_toks (N ++ K) T' s' /\ rep (N ++ K) p (Nat.iter k TBack t)) s.
Proof.
  induction n as [|n IH]; intros cmd t N T s H Ht Hn; [lia|]. rewrite while_fuel_S. unfold back_step at 1.
  wcall (peek_ok [CH_AMP; 0] _ T s H); [charset|]. cbv beta. intros b s1 (-> & H1 & _).
  destruct (head_in [CH_AMP; 0] T) eqn:Eh.
  2: { do 2 wstep. exists O, T, []. rewrite app_nil_r. by split_and!. }
  apply head_in_one in Eh as (T1 & ->); [|done]. wcall (take_sym CH_AMP N T1 s1 H1). cbv beta. intros _ s2 [_ H2].
  wcall (new_node_spec (BACK cmd) N T1 s2 H2). cbv beta. intros p s3 [-> H3]. wstep.
  eapply wp_mono; [apply (IH (length N) (TBack t) _ _ _ H3); [|cbn in Hn; lia]|].
  - exists cmd. split; [by apply list_lookup_middle|by apply rep_app].
  - cbv beta. intros p s4 (k & T' & K & -> & Hh & H4 & Hr). exists (S k), T', (BACK cmd :: K).
    rewrite cons_middle, (app_assoc N). split_and!; [done..|]. by rewrite Nat.iter_succ_r.
Qed.

(** ** What is accepted is a line of the grammar *)

Definition sound (X : Type) (pr : X -> list tok) (ok : X -> Prop) (tr : X -> tree) (m : M shell nat) (k : nat) (f : nat) : Prop :=
  forall N T s, at_toks N T s -> (4 * length T + k <= f)%nat ->
  wpe m (fun p s' => exists x T' K, T = pr x ++ T' /\ ok x /\ at_toks (N ++ K) T' s' /\ rep (N ++ K) p (tr x))
    (fun _ _ => True) s.

Definition sound_line f := sound line pr_line ok_line tree_line (parseline es f) 4 f.
Definition sound_pipe f := sound pipeline pr_pipe ok_pipe tree_pipe (parsepipe es f) 3 f.
Definition sound_exec f := sound simple pr_simple ok_simple tree_simple (parseexec es f) 2 f.
Definition sound_block f := sound simple pr_simple ok_simple tree_simple (parseblock es f) 1 f.

Lemma parseline_sound f : sound_pipe f -> sound_line f -> sound_line (S f).
Proof.
  intros IHp IHl N T s H Hf. cbn [parseline]. apply wpe_bind. eapply wpe_mono; [apply (IHp N T s H); lia| |done].
  cbv beta. intros p s1 (x & T1 & K & -> & Hx & H1 & Hr). rewrite length_app in Hf.
  wcall (back_loop (S es) p _ _ _ _ H1 Hr); [apply at_length in H1; lia|]. cbv beta.
  intros p2 s2 (k & T2 & K2 & -> & Hh & H2 & Hr2). rewrite length_app, length_replicate in Hf.
  wcall (peek_ok [CH_SEMI; 0] _ T2 s2 H2); [charset|]. cbv beta. intros b s3 (-> & H3 & _).
  destruct (head_in [CH_SEMI; 0] T2) eqn:Eh.
  - apply head_in_one in Eh as (T3 & ->); [|done]. cbn in Hf. wcall (take_sym CH_SEMI _ T3 s3 H3). cbv beta. intros _ s4 [_ H4].
    apply wpe_bind. eapply wpe_mono; [apply (IHl _ T3 s4 H4); lia| |done].
    cbv beta. intros p5 s5 (l & T5 & K5 & -> & Hl & H5 & Hr5).
    wcall (new_node_spec (LIST p2 p5) _ _ s5 H5). cbv beta. intros p6 s6 [-> H6].
    exists (LSeq x k l), T5, (K ++ K2 ++ K5 ++ [LIST p2 p5]). rewrite !app_assoc in *. split_and!; [|done..|].
    + cbn [pr_line]. by rewrite <- !app_assoc.
    + exists p2, p5. split_and!; [by apply list_lookup_middle|by apply rep_app, rep_app|by apply rep_app].
  - wstep. exists (LEnd x k), T2, (K ++ K2). rewrite !app_assoc in *. by split_and!.
Qed.

Lemma parsepipe_sound f : sound_exec f -> sound_pipe f -> sound_pipe (S f).
Proof.
  intros IHe IHp N T s H Hf. cbn [parsepipe]. apply wpe_bind. eapply wpe_mono; [apply (IHe N T s H); lia| |done].
  cbv beta. intros p s1 (x & T1 & K & -> & Hx & H1 & Hr). rewrite length_app in Hf.
  wcall (peek_ok [CH_BAR; 0] _ T1 s1 H1); [charset|]. cbv beta. intros b s3 (-> & H3 & _).
  destruct (head_in [CH_BAR; 0] T1) eqn:Eh.
  - apply head_in_one in Eh as (T3 & ->); [|done]. cbn in Hf. wcall (take_sym CH_BAR _ T3 s3 H3). cbv beta. intros _ s4 [_ H4].
    apply wpe_bind. eapply wpe_mono; [apply (IHp _ T3 s4 H4); lia| |done].
    cbv beta. intros p5 s5 (l & T5 & K5 & -> & Hl & H5 & Hr5).
    wcall (new_node_spec (PIPE p p5) _ _ s5 H5). cbv beta. intros p6 s6 [-> H6].
    exists (PBar x l), T5, (K ++ K5 ++ [PIPE p p5]). rewrite !app_assoc in *. split_and!; [|done..|].
    + cbn [pr_pipe]. by rewrite <- !app_assoc.
    + exists p, p5. split_and!; [by apply list_lookup_middle|by apply rep_app, rep_app|by apply rep_app].
  - wstep. exists (PEnd x), T1, K. by split_and!.
Qed.

(** The command without its redirections. *)
Lemma exec_rep N K args rs r T s : exec_at N K args rs r T s -> rep (N ++ exec_node args :: K) r (wrap rs (TExec args)).
Proof. intros [H Hl Hc]. eapply rep_chain; [exact Hc|]. split; [done|by apply list_lookup_middle]. Qed.

Lemma execcmd_spec N T s :
  at_toks N T s -> wp execcmd (fun p s' => p = length N /\ at_toks (N ++ [exec_node []]) T s') s.
Proof. apply new_node_spec. Qed.

Lemma parseexec_sound f : sound_block f -> sound_exec (S f).
Proof.
  intros IHb N T s H Hf. cbn [parseexec]. wcall (peek_ok [CH_LPAR; 0] _ T s H); [charset|]. cbv beta. intros b s1 (-> & H1 & _).
  destruct (head_in [CH_LPAR; 0] T); [apply IHb; [done|lia]|].
  wcall (execcmd_spec _ T s1 H1). cbv beta. intros c s2 [-> H2].
  apply wpe_bind. eapply wpe_mono; [apply (parseredirs_sound (S es) (length N) _ _ _ H2)| |done].
  { apply at_length in H2. lia. }
  cbv beta. intros r s3 (rs & T1 & K & -> & Hrs & _ & H3 & Hc3).
  pose proof (exec_redirs N [] K [] [] rs (length N) r T1 s3 eq_refl ltac:(unfold MAXARGS; cbn; lia) H3 Hc3) as Hea.
  apply wpe_bind. eapply wpe_mono; [apply (exec_loop_sound (S es) _ _ [] _ _ _ _ Hea)| |done].
  { pose proof (at_length _ _ _ H3). lia. }
  cbv beta. cbn [app]. intros [argc r'] s4 (its & T2 & K2 & -> & Hx & Hok & Hea2). cbn in Hx, Hea2. subst argc.
  wcall (set_end_spec N (args_of its) K2 T2 s4 (ea_at _ _ _ _ _ _ _ Hea2)). cbv beta. intros _ s5 H5. wstep.
  exists (SExec ((Red <$> rs) ++ its)), T2, (exec_node (args_of its) :: K2).
  cbn [pr_simple ok_simple tree_simple]. rewrite pr_items_redirs, args_of_redirs, redirs_of_redirs, <- app_assoc.
  split_and!; [done|apply Hea2|by apply Forall_app|done|by apply exec_rep in Hea2].
Qed.

Lemma parseblock_sound f : sound_line f -> sound_block (S f).
Proof.
  intros IHl N T s H Hf. cbn [parseblock]. wcall (peek_ok [CH_LPAR; 0] _ T s H); [charset|]. cbv beta. intros b s1 (-> & H1 & _).
  destruct (head_in [CH_LPAR; 0] T) eqn:Eh; cbn [negb]; [|by apply wpe_panic].
  apply head_in_one in Eh as (T1 & ->); [|done]. cbn in Hf. wcall (take_sym CH_LPAR _ T1 s1 H1). cbv beta. intros _ s2 [_ H2].
  apply wpe_bind. eapply wpe_mono; [apply (IHl _ T1 s2 H2); lia| |done].
  cbv beta. intros p s3 (l & T3 & K & -> & Hl & H3 & Hr).
  wcall (peek_ok [CH_RPAR; 0] _ T3 s3 H3); [charset|]. cbv beta. intros b s4 (-> & H4 & _).
  destruct (head_in [CH_RPAR; 0] T3) eqn:Eh; cbn [negb]; [|by apply wpe_panic].
  apply head_in_one in Eh as (T4 & ->); [|done]. wcall (take_sym CH_RPAR _ T4 s4 H4). cbv beta. intros _ s5 [_ H5].
  eapply wpe_mono; [apply (parseredirs_sound (S es) p _ _ _ H5)| |done].
  { apply at_length in H5. lia. }
  cbv beta. intros r s6 (rs & T6 & K6 & -> & Hrs & _ & H6 & Hc6).
  exists (SBlock l rs), T6, (K ++ K6). rewrite !app_assoc in *. split_and!; [|done..|].
  - cbn [pr_simple]. by rewrite <- !app_comm_cons, <- !app_assoc.
  - eapply rep_chain; [exact Hc6|]. by apply rep_app.
Qed.

Lemma parse_sound f : sound_line f /\ sound_pipe f /\ sound_exec f /\ sound_block f.
Proof.
  induction f as [|f (IHl & IHp & IHe & IHb)].
  - split_and!; intros N T s H Hf; lia.
  - split_and!; [by apply parseline_sound|by apply parsepipe_sound|by apply parseexec_sound|by apply parseblock_sound].
Qed.

(** ** A line of the grammar is accepted *)

Definition complete {X : Type} (pr : X -> list tok) (ok : X -> Prop) (tr : X -> tree) (fol : list Z)
    (m : nat -> M shell nat) (k : nat) (x : X) : Prop :=
  forall f N T s, ok x -> at_toks N (pr x ++ T) s -> follow fol T -> (4 * length (pr x) + k <= f)%nat ->
  wp (m f) (fun p s' => exists K, at_toks (N ++ K) T s' /\ rep (N ++ K) p (tr x)) s.

Definition complete_line := complete pr_line ok_line tree_line fol_line (parseline es) 4.
Definition complete_pipe := complete pr_pipe ok_pipe tree_pipe fol_pipe (parsepipe es) 3.
Definition complete_simple := complete pr_simple ok_simple tree_simple fol_simple (parseexec es) 2.

(** The part of [parseline] that two lines share. *)
Lemma line_head x n f N T s :
  complete_pipe x -> ok_pipe x -> at_toks N (pr_pipe x ++ replicate n (TSym CH_AMP) ++ T) s ->
  follow fol_pipe T -> head_in [CH_AMP; 0] T = false -> (4 * length (pr_pipe x) + 3 <= f)%nat ->
  wp (parsepipe es f) (fun cmd => wp (while_fuel (S es) (back_step es) cmd) (fun p s' => exists K,
    at_toks (N ++ K) T s' /\ rep (N ++ K) p (Nat.iter n TBack (tree_pipe x)))) s.
Proof.
  intros IH Hx H HT Hh Hf. wcall (IH f N _ s Hx H); [by apply follow_amps|done|]. cbv beta. intros p s1 (K & H1 & Hr).
  eapply wp_mono; [apply (back_loop (S es) p _ _ _ _ H1 Hr); apply at_length in H1; lia|]. cbv beta.
  intros p2 s2 (k & T2 & K2 & E & Hh2 & H2 & Hr2). apply amps_unique in E as [<- <-]; [|done..].
  exists (K ++ K2). by rewrite !app_assoc.
Qed.

Lemma lend_complete x n : complete_pipe x -> complete_line (LEnd x n).
Proof.
  intros IH f N T s Hok H HT Hf. destruct f as [|f]; [lia|]. cbn [pr_line ok_line tree_line] in *.
  rewrite <- app_assoc in H. rewrite length_app in Hf. cbn [parseline].
  assert (follow fol_pipe T) as HT' by (eapply follow_weaken; [|exact HT]; charset).
  wcall (line_head x n f N T s IH Hok H HT'); [eapply follow_not; [|exact HT]; charset|lia|].
  cbv beta. intros p s1 Hw. wcall Hw. cbv beta. intros p2 s2 (K & H2 & Hr).
  wcall (peek_ok [CH_SEMI; 0] _ T s2 H2); [charset|]. cbv beta. intros b s3 (-> & H3 & _).
  rewrite (follow_not fol_line); [|charset|done]. wstep. by exists K.
Qed.

Lemma lseq_complete x n l : complete_pipe x -> complete_line l -> complete_line (LSeq x n l).
Proof.
  intros IH IHl f N T s [Hx Hl] H HT Hf. destruct f as [|f]; [lia|]. cbn [pr_line tree_line] in *.
  rewrite <- !app_assoc in H. rewrite !length_app in Hf. cbn [length] in Hf. cbn [parseline].
  wcall (line_head x n f N _ s IH Hx H); [by right|done|lia|].
  cbv beta. intros p s1 Hw. wcall Hw. cbv beta. intros p2 s2 (K & H2 & Hr).
  wcall (peek_ok [CH_SEMI; 0] _ _ s2 H2); [charset|]. cbv beta. intros b s3 (-> & H3 & _).
  change (head_in _ _) with true. cbv iota. wcall (take_sym CH_SEMI _ _ s3 H3). cbv beta. intros _ s4 [_ H4].
  wcall (IHl f _ T s4 Hl H4 HT); [lia|]. cbv beta. intros p5 s5 (K5 & H5 & Hr5).
  eapply wp_mono; [apply (new_node_spec (LIST p2 p5) _ _ s5 H5)|]. cbv beta. intros p6 s6 [-> H6].
  exists (K ++ K5 ++ [LIST p2 p5]). rewrite !app_assoc in *. split; [done|].
  exists p2, p5. split_and!; [by apply list_lookup_middle|by apply rep_app, rep_app|by apply rep_app].
Qed.

Lemma pend_complete x : complete_simple x -> complete_pipe (PEnd x).
Proof.
  intros IH f N T s Hok H HT Hf. destruct f as [|f]; [lia|]. cbn [pr_pipe ok_pipe tree_pipe] in *. cbn [parsepipe].
  assert (follow fol_simple T) as HT' by (eapply follow_weaken; [|exact HT]; charset).
  wcall (IH f N T s Hok H HT'); [lia|]. cbv beta. intros p s1 (K & H1 & Hr).
  wcall (peek_ok [CH_BAR; 0] _ T s1 H1); [charset|]. cbv beta. intros b s3 (-> & H3 & _).
  rewrite (follow_not fol_pipe); [|charset|done]. wstep. by exists K.
Qed.

Lemma pbar_complete x l : complete_simple x -> complete_pipe l -> complete_pipe (PBar x l).
Proof.
  intros IH IHl f N T s [Hx Hl] H HT Hf. destruct f as [|f]; [lia|]. cbn [pr_pipe tree_pipe] in *.
  rewrite <- !app_assoc in H. rewrite !length_app in Hf. cbn [length] in Hf. cbn [parsepipe].
  wcall (IH f N _ s Hx H); [by right|lia|]. cbv beta. intros p s1 (K & H1 & Hr).
  wcall (peek_ok [CH_BAR; 0] _ _ s1 H1); [charset|]. cbv beta. intros b s3 (-> & H3 & _).
  change (head_in _ _) with true. cbv iota. wcall (take_sym CH_BAR _ _ s3 H3). cbv beta. intros _ s4 [_ H4].
  wcall (IHl f _ T s4 Hl H4 HT); [lia|]. cbv beta. intros p5 s5 (K5 & H5 & Hr5).
  eapply wp_mono; [apply (new_node_spec (PIPE p p5) _ _ s5 H5)|]. cbv beta. intros p6 s6 [-> H6].
  exists (K ++ K5 ++ [PIPE p p5]). rewrite !app_assoc in *. split; [done|].
  exists p, p5. split_and!; [by apply list_lookup_middle|by apply rep_app, rep_app|by apply rep_app].
Qed.

Lemma sexec_complete its : complete_simple (SExec its).
Proof.
  intros f N T s [Hl Hrs] H HT Hf. destruct f as [|f]; [lia|]. cbn [pr_simple tree_simple] in *. cbn [parseexec].
  wcall (peek_ok [CH_LPAR; 0] _ _ s H); [charset|]. cbv beta. intros b s1 (-> & H1 & _).
  assert (head_in [CH_LPAR; 0] (mjoin (pr_item <$> its) ++ T) = false) as ->.
  { destruct its as [|[q e|[op q e]] its]; [by eapply follow_not; [|exact HT]; charset|done|].
    apply Forall_cons in Hrs as [Hop _]. by destruct Hop as [-> | [-> | ->]]. }
  destruct (items_split its) as (rs & its' & -> & Hits). rewrite args_of_redirs in *. rewrite redirs_of_redirs in *.
  rewrite pr_items_redirs, <- app_assoc in H1. apply Forall_app in Hrs as [Hrs Hrs'].
  wcall (execcmd_spec _ _ s1 H1). cbv beta. intros c s2 [-> H2].
  wcall (parseredirs_complete rs (S es) (length N) _ _ s2 Hrs H2 (items_head _ _ Hits HT)).
  { apply at_length in H2. rewrite length_app in H2. pose proof (length_pr_redirs rs). lia. }
  cbv beta. intros r s3 (K & H3 & Hc3).
  pose proof (exec_redirs N [] K [] [] rs (length N) r _ s3 eq_refl ltac:(unfold MAXARGS; cbn; lia) H3 Hc3) as Hea.
  wcall (exec_loop_complete (S es) its' _ _ [] _ _ T _ Hea Hits HT Hl Hrs').
  { apply at_length in H3. rewrite length_app in H3. pose proof (length_pr_items its'). lia. }
  cbv beta. cbn [app]. intros [argc r'] s4 (K2 & Hx & Hea2). cbn in Hx, Hea2. subst argc.
  wcall (set_end_spec N (args_of its') K2 T s4 (ea_at _ _ _ _ _ _ _ Hea2)). cbv beta. intros _ s5 H5. wstep.
  exists (exec_node (args_of its') :: K2). split; [done|by apply exec_rep in Hea2].
Qed.

Lemma sblock_complete l rs : complete_line l -> complete_simple (SBlock l rs).
Proof.
  intros IH f N T s [Hl Hrs] H HT Hf. destruct f as [|f]; [lia|]. cbn [pr_simple tree_simple length] in *.
  rewrite length_app in Hf. cbn [length] in Hf. cbn [parseexec]. rewrite <- app_comm_cons, <- app_assoc, <- app_comm_cons in H.
  wcall (peek_ok [CH_LPAR; 0] _ _ s H); [charset|]. cbv beta. intros b s1 (-> & H1 & _).
  change (head_in _ _) with true. cbv iota. destruct f as [|f]; [lia|]. cbn [parseblock].
  wcall (peek_ok [CH_LPAR; 0] _ _ s1 H1); [charset|]. cbv beta. intros b s2 (-> & H2 & _).
  change (head_in _ _) with true. cbn [negb]. wcall (take_sym CH_LPAR _ _ s2 H2). cbv beta. intros _ s3 [_ H3].
  wcall (IH f _ _ s3 Hl H3); [by right|lia|]. cbv beta. intros p s4 (K & H4 & Hr).
  wcall (peek_ok [CH_RPAR; 0] _ _ s4 H4); [charset|]. cbv beta. intros b s5 (-> & H5 & _).
  change (head_in _ _) with true. cbn [negb]. wcall (take_sym CH_RPAR _ _ s5 H5). cbv beta. intros _ s6 [_ H6].
  wcall (parseredirs_complete rs (S es) p _ _ s6 Hrs H6); [eapply follow_not; [|exact HT]; charset| |].
  { apply at_length in H6. rewrite length_app in H6. pose proof (length_pr_redirs rs). lia. }
  cbv beta. intros r s7 (K7 & H7 & Hc7). exists (K ++ K7). rewrite !app_assoc in *. split; [done|].
  eapply rep_chain; [exact Hc7|]. by apply rep_app.
Qed.

Lemma parse_complete : (forall l, complete_line l) /\ (forall p, complete_pipe p) /\ (forall c, complete_simple c).
Proof.
  apply grammar_ind; auto using lend_complete, lseq_complete, pend_complete, pbar_complete, sexec_complete, sblock_complete.
Qed.
End parser.
