(* ===== verification/ShCmd.v ===== *)
(** * Parsing a command line

    [nulterminate] and [parsecmd] (user/sh.c): a line is accepted exactly if
    its tokens are a line of the grammar, the nodes are then its tree, and
    each word is a string of its own in the buffer. *)

From S2P Require Import Prelude Monad Params CString Ulib Sh ShSpec ShParse.

(** ** The words of a tree *)

Fixpoint words (t : tree) : list (nat * nat) :=
  match t with
  | TExec args => args
  | TRedir t q e _ _ => words t ++ [(q, e)]
  | TPipe l r => words l ++ words r
  | TList l r => words l ++ words r
  | TBack t => words t
  end.

Fixpoint depth (t : tree) : nat :=
  match t with
  | TExec _ => 1
  | TRedir t _ _ _ _ => S (depth t)
  | TPipe l r => S (depth l `max` depth r)
  | TList l r => S (depth l `max` depth r)
  | TBack t => S (depth t)
  end.

Lemma depth_wrap rs t : depth (wrap rs t) = (length rs + depth t)%nat.
Proof.
  induction rs as [|[op q e] rs IH] using rev_ind; [done|]. rewrite wrap_snoc, length_app. cbn. rewrite IH. lia.
Qed.

Lemma depth_back n t : depth (Nat.iter n TBack t) = (n + depth t)%nat.
Proof. induction n as [|n IH]; [done|]. change (S (depth (Nat.iter n TBack t)) = S (n + depth t))%nat. by rewrite IH. Qed.

Lemma length_redirs_of its : (length (redirs_of its) <= length its)%nat.
Proof.
  induction its as [|[q e|r] its IH]; [done|change (length (redirs_of its) <= S (length its))%nat; lia|].
  change (S (length (redirs_of its)) <= S (length its))%nat. lia.
Qed.

(** A tree is no deeper than its line is long. *)
Lemma depth_line :
  (forall l, (depth (tree_line l) <= S (length (pr_line l)))%nat) /\
  (forall p, (depth (tree_pipe p) <= S (length (pr_pipe p)))%nat) /\
  (forall c, (depth (tree_simple c) <= S (length (pr_simple c)))%nat).
Proof.
  apply grammar_ind; cbn [tree_line tree_pipe tree_simple pr_line pr_pipe pr_simple]; intros;
    rewrite ?depth_wrap, ?length_app, ?length_replicate; cbn [depth length];
    rewrite ?depth_back, ?length_app, ?length_replicate; cbn [length depth].
  - lia.
  - lia.
  - lia.
  - lia.
  - pose proof (length_redirs_of its). pose proof (length_pr_items its). lia.
  - pose proof (length_pr_redirs rs). lia.
Qed.

(** ** nulterminate *)

Definition nul_at (ns : list nat) (buf : list Z) : list Z := foldl (fun b i => <[i := 0]> b) buf ns.

Lemma nul_at_app ns ms buf : nul_at (ns ++ ms) buf = nul_at ms (nul_at ns buf).
Proof. apply foldl_app. Qed.

Lemma length_nul_at ns buf : length (nul_at ns buf) = length buf.
Proof. induction ns as [|i ns IH] using rev_ind; [done|]. rewrite nul_at_app. cbn. by rewrite length_insert. Qed.

Lemma char_nul_at ns buf i : char_at (nul_at ns buf) i = if decide (i ∈ ns) then 0 else char_at buf i.
Proof.
  induction ns as [|j ns IH] using rev_ind; [done|]. rewrite nul_at_app. cbn. unfold char_at in *.
  destruct (decide (i = j)) as [->|Hne].
  - rewrite decide_True by set_solver. destruct (decide (j < length (nul_at ns buf))%nat).
    + by rewrite list_lookup_insert_eq.
    + by rewrite lookup_ge_None_2 by (rewrite length_insert; lia).
  - rewrite list_lookup_insert_ne, IH by done. destruct (decide (i ∈ ns)); [by rewrite decide_True by set_solver|].
    by rewrite decide_False by set_solver.
Qed.

Lemma lookup_nul_at ns buf i : i ∉ ns -> nul_at ns buf !! i = buf !! i.
Proof.
  induction ns as [|j ns IH] using rev_ind; [done|]. intros H. rewrite nul_at_app. cbn.
  rewrite list_lookup_insert_ne by set_solver. apply IH. set_solver.
Qed.

Lemma deref_drop (buf : list Z) i : deref (drop i buf) = char_at buf i.
Proof. unfold deref, char_at. by rewrite head_lookup, lookup_drop, Nat.add_0_r. Qed.

Lemma cstr_stop l s : Forall (fun c => c <> 0) l -> deref s = 0 -> cstr (l ++ s) = l.
Proof.
  intros Hl Hs. induction Hl as [|c l Hc Hl IH]; [by apply cstr_empty|].
  rewrite <- app_comm_cons, cstr_char by done. by rewrite IH.
Qed.

Definition set_nuls (ns : list nat) (s : shell) : shell := set_buf (nul_at ns (sh_buf s)) s.

Lemma set_nuls_app ns ms s : set_nuls (ns ++ ms) s = set_nuls ms (set_nuls ns s).
Proof. unfold set_nuls. by rewrite nul_at_app. Qed.

Lemma nul_args_spec args pad s :
  nul_args ((Some <$> args.*1) ++ replicate pad None) ((Some <$> args.*2) ++ replicate pad None) s =
  Ret tt (set_nuls args.*2 s).
Proof.
  revert s. induction args as [|[q e] args IH]; intros s; cbn; [by destruct pad, s|].
  unfold bind, put_nul, modify. by rewrite IH.
Qed.

Lemma nulterminate_spec t : forall fuel p s,
  rep (sh_nodes s) p t -> (depth t <= fuel)%nat -> nulterminate fuel p s = Ret tt (set_nuls (words t).*2 s).
Proof.
  induction t as [args|t IH q e mode fd|l IHl r IHr|l IHl r IHr|t IH]; intros fuel p s Hr Hf;
    (destruct fuel as [|fuel]; [cbn in Hf; lia|]); cbn [nulterminate]; unfold bind at 1, gets; cbn in Hf.
  - destruct Hr as [_ ->]. apply nul_args_spec.
  - destruct Hr as (p' & -> & Hr). unfold bind. rewrite (IH fuel p' s) by (done || lia). cbn [words].
    by rewrite fmap_app, set_nuls_app.
  - destruct Hr as (pl & pr & -> & Hl & Hr). unfold bind. rewrite (IHl fuel pl s), (IHr fuel pr _) by (done || lia). cbn [words].
    by rewrite fmap_app, set_nuls_app.
  - destruct Hr as (pl & pr & -> & Hl & Hr). unfold bind. rewrite (IHl fuel pl s), (IHr fuel pr _) by (done || lia). cbn [words].
    by rewrite fmap_app, set_nuls_app.
  - destruct Hr as (p' & -> & Hr). by rewrite (IH fuel p' s) by (done || lia).
Qed.

(** ** The words of the tree are words of the line *)

Lemma words_wrap rs t w : w ∈ words (wrap rs t) <-> w ∈ words t \/ exists op, Redir op w.1 w.2 ∈ rs.
Proof.
  induction rs as [|[op q e] rs IH] using rev_ind.
  { split; [by left|]. intros [?|(op & ?%elem_of_nil)]; done. }
  rewrite wrap_snoc. cbn [words]. rewrite elem_of_app, IH, list_elem_of_singleton. split.
  - intros [[?|(op' & ?)]| ->]; [by left|right; exists op'; set_solver|right; exists op; set_solver].
  - intros [?|(op' & [?|E%list_elem_of_singleton]%elem_of_app)]; [by left; left|left; right; by exists op'|].
    right. destruct w. by injection E as -> -> ->.
Qed.

Lemma words_back n t : words (Nat.iter n TBack t) = words t.
Proof. by induction n. Qed.

Lemma redir_tokens rs op q e : Redir op q e ∈ rs -> TWord q e ∈ mjoin (pr_redir <$> rs).
Proof.
  intros H. apply list_elem_of_join. exists [TSym op; TWord q e]. split; [set_solver|].
  apply list_elem_of_fmap. by exists (Redir op q e).
Qed.

Lemma item_tokens its :
  (forall w, w ∈ args_of its -> TWord w.1 w.2 ∈ mjoin (pr_item <$> its)) /\
  (forall op q e, Redir op q e ∈ redirs_of its -> TWord q e ∈ mjoin (pr_item <$> its)).
Proof.
  unfold args_of, redirs_of. split.
  - intros w ([q e|r] & Hi & [= <-])%list_elem_of_omap. apply list_elem_of_join.
    exists [TWord q e]. split; [set_solver|]. apply list_elem_of_fmap. by exists (Arg q e).
  - intros op q e ([q' e'|r] & Hi & [= ->])%list_elem_of_omap. apply list_elem_of_join.
    exists [TSym op; TWord q e]. split; [set_solver|]. apply list_elem_of_fmap. by exists (Red (Redir op q e)).
Qed.

Lemma words_tokens :
  (forall l w, w ∈ words (tree_line l) -> TWord w.1 w.2 ∈ pr_line l) /\
  (forall p w, w ∈ words (tree_pipe p) -> TWord w.1 w.2 ∈ pr_pipe p) /\
  (forall c w, w ∈ words (tree_simple c) -> TWord w.1 w.2 ∈ pr_simple c).
Proof.
  apply grammar_ind; cbn [tree_line tree_pipe tree_simple pr_line pr_pipe pr_simple words].
  - intros p IH n w. rewrite words_back. set_solver.
  - intros p IH n l IHl w. rewrite words_back. set_solver.
  - intros c IH. done.
  - intros c IH p IHp w. set_solver.
  - intros its w. rewrite words_wrap. intros [H|(op & H)]; [by apply item_tokens|by eapply item_tokens].
  - intros l IH rs w. rewrite words_wrap. intros [?%IH|(op & ?%redir_tokens)]; set_solver.
Qed.

Section line.
Context (es : nat) (B : list Z).
Context (Hnz : forall i, (i < es)%nat -> char_at B i <> 0) (Hz : char_at B es = 0).

Lemma tokens_word q e s :
  (s <= es)%nat -> TWord q e ∈ tokens es B s ->
  (s <= q < e)%nat /\ (e <= es)%nat /\ (forall i, (q <= i < e)%nat -> word_char (char_at B i) = true) /\
  (word_char (char_at B e) = false \/ e = es).
Proof.
  unfold tokens. generalize (es - s)%nat as n. intros n. revert s.
  induction n as [|n IH]; intros s Hs; cbn [toks]; [by intros ?%elem_of_nil|].
  destruct (Nat.leb_spec es (skip_ws es B s)) as [|Hlt]; [by intros ?%elem_of_nil|].
  destruct (skip_ws_spec es B Hz s Hs) as (H1 & _ & H2). cbv zeta in H2.
  pose proof (token_at_spec es B Hnz Hz _ Hlt H2) as Ht. pose proof (token_end es B _ _ _ Hlt Ht) as He.
  destruct (token_at es B (skip_ws es B s)) as [k e']. cbn [fst snd] in *.
  intros [E|Hin]%elem_of_cons.
  - symmetry in E. apply mk_tok_word in E as (Ek & <- & <-).
    destruct Ht as [Ho| | |e1 Hr Hw Hend]; [by rewrite Ek in Ho|done..|]. split_and!; [lia..|done|done].
  - destruct (IH e') as (? & ? & ?); [lia|done|]. split_and!; [lia..|tauto|tauto].
Qed.

(** ** The text of the tokens *)

Definition tok_text (t : tok) : list Z :=
  match t with
  | TSym c => if c =? CH_PLUS then [CH_GT; CH_GT] else [c]
  | TWord q e => take (e - q) (drop q B)
  end.

(** The characters from [a] to [b]. *)
Definition chars (a b : nat) : list Z := char_at B <$> seq a (b - a).

Lemma chars_app a b c : (a <= b <= c)%nat -> chars a c = chars a b ++ chars b c.
Proof.
  intros H. unfold chars. rewrite <- fmap_app. f_equal. replace (c - a)%nat with ((b - a) + (c - b))%nat by lia.
  rewrite seq_app. do 2 f_equal. lia.
Qed.

Lemma chars_take a b : (a <= b <= length B)%nat -> chars a b = take (b - a) (drop a B).
Proof.
  intros H. apply list_eq. intros i. unfold chars. rewrite list_lookup_fmap.
  destruct (decide (i < b - a)%nat) as [Hi|Hi].
  - rewrite lookup_seq_lt, lookup_take_lt, lookup_drop by lia. cbn. unfold char_at.
    destruct (lookup_lt_is_Some_2 B (a + i)) as [x Hx]; [lia|]. by rewrite Hx.
  - by rewrite lookup_seq_ge, lookup_take_ge by lia.
Qed.

Definition visible (c : Z) : Prop := has_char whitespace c = false.
#[global] Instance visible_dec c : Decision (visible c).
Proof. unfold visible. apply _. Defined.

Lemma filter_keep (l : list Z) : Forall visible l -> filter visible l = l.
Proof. induction 1 as [|c l Hc Hl IH]; [done|]. rewrite filter_cons_True by done. by rewrite IH. Qed.

Lemma filter_drop (l : list Z) : Forall (fun c => ~ visible c) l -> filter visible l = [].
Proof. induction 1 as [|c l Hc Hl IH]; [done|]. by rewrite filter_cons_False. Qed.

Lemma Forall_chars (P : Z -> Prop) a b : (forall i, (a <= i < b)%nat -> P (char_at B i)) -> Forall P (chars a b).
Proof.
  intros H. apply Forall_fmap, Forall_forall. intros i Hi. apply H. apply elem_of_seq in Hi. lia.
Qed.

Lemma chars_one a : chars a (S a) = [char_at B a].
Proof. unfold chars. by replace (S a - a)%nat with 1%nat by lia. Qed.

Lemma op_visible c : is_op c = true \/ c = CH_GT -> visible c.
Proof.
  unfold visible. intros [H| ->]; [|done]. apply is_op_spec in H.
  repeat (apply elem_of_cons in H as [->|H]; [done|]). by apply elem_of_nil in H.
Qed.

(** A token's text is the characters it was read from, none of them white. *)
Lemma token_text q k e :
  (es <= length B)%nat -> (q < es)%nat -> token es B q k e ->
  tok_text (mk_tok k q e) = chars q e /\ Forall visible (chars q e).
Proof.
  intros HB Hq Ht. pose proof (token_end es B _ _ _ Hq Ht) as He. destruct Ht as [Ho|E1 E2|E1 E2 _|e Hr Hw _]; unfold mk_tok.
  - assert (char_at B q <> CH_A /\ char_at B q <> CH_PLUS) as [H1 H2].
    { apply is_op_spec in Ho. split; intros E; rewrite E in Ho; set_solver. }
    rewrite (proj2 (Z.eqb_neq _ _) H1). cbn [tok_text]. rewrite (proj2 (Z.eqb_neq _ _) H2), chars_one.
    split; [done|]. constructor; [|done]. apply op_visible. by left.
  - cbn. rewrite chars_one, E1. split; [done|]. by constructor.
  - cbn. rewrite (chars_app q (S q) (S (S q))), !chars_one, E1, E2 by lia. split; [done|]. by repeat constructor.
  - cbn [Z.eqb tok_text]. change (tok_text (TWord q e) = chars q e /\ Forall visible (chars q e)). cbn [tok_text].
    rewrite chars_take by lia. split; [done|]. rewrite <- chars_take by lia. apply Forall_chars. intros i Hi.
    specialize (Hw i Hi). unfold word_char in Hw. apply andb_prop in Hw as [Hw _]. unfold visible.
    by apply negb_true_iff in Hw.
Qed.

(** The texts of the tokens are the line without its white space. *)
Lemma tokens_text s :
  (es <= length B)%nat -> (s <= es)%nat ->
  mjoin (tok_text <$> tokens es B s) = filter visible (chars s es).
Proof.
  intros HB. remember (es - s)%nat as n eqn:En. revert s En.
  induction n as [n IH] using lt_wf_ind. intros s -> Hs. rewrite tokens_at by done.
  destruct (skip_ws_spec es B Hz s Hs) as (H1 & Hws & H2). cbv zeta in *. set (q := skip_ws es B s) in *.
  rewrite (chars_app s q es), filter_app, (filter_drop (chars s q)) by
    (lia || (apply Forall_chars; intros i Hi; unfold visible; by rewrite Hws)).
  destruct (Nat.leb_spec es q) as [|Hlt].
  { replace q with es by lia. unfold chars. by rewrite Nat.sub_diag. }
  pose proof (token_at_spec es B Hnz Hz _ Hlt H2) as Ht. pose proof (token_end es B _ _ _ Hlt Ht) as He.
  destruct (token_at es B q) as [k e]. cbn [fst snd] in *. destruct (token_text q k e HB Hlt Ht) as [E Hv].
  rewrite (chars_app q e es), filter_app, (filter_keep (chars q e)) by (done || lia).
  rewrite <- E, <- (IH (es - e)%nat) by lia. done.
Qed.

(** Every word ends up as a string of its own. *)
Lemma word_string ws q e :
  (forall w, w ∈ ws -> TWord w.1 w.2 ∈ tokens es B 0) -> (q, e) ∈ ws ->
  cstr (drop q (nul_at ws.*2 B)) = take (e - q) (drop q B).
Proof.
  intros Hws Hin. destruct (tokens_word q e 0) as (Hq & He & Hw & _); [lia|by apply (Hws (q, e))|].
  assert (forall i, (q <= i < e)%nat -> i ∉ ws.*2) as Hout.
  { intros i Hi ([q' e'] & -> & Hin')%list_elem_of_fmap. cbn in Hi.
    destruct (tokens_word q' e' 0) as (_ & _ & _ & [Hs| ->]); [lia|by apply (Hws (q', e'))| |lia].
    by rewrite (Hw e') in Hs. }
  assert (take (e - q) (drop q (nul_at ws.*2 B)) = take (e - q) (drop q B)) as Et.
  { apply list_eq. intros i. destruct (decide (i < e - q)%nat); [|by rewrite !lookup_take_ge by lia].
    rewrite !lookup_take_lt, !lookup_drop by done. apply lookup_nul_at, Hout. lia. }
  rewrite <- (take_drop (e - q) (drop q (nul_at ws.*2 B))) at 1. rewrite Et, drop_drop. apply cstr_stop.
  - apply Forall_lookup. intros i x. destruct (decide (i < e - q)%nat); [|by rewrite lookup_take_ge by lia].
    rewrite lookup_take_lt, lookup_drop by done. intros Hx.
    assert (char_at B (q + i) = x) as <- by (unfold char_at; by rewrite Hx). apply Hnz. lia.
  - rewrite deref_drop. replace (q + (e - q))%nat with e by lia. rewrite char_nul_at, decide_True; [done|].
    apply list_elem_of_fmap. by exists (q, e).
Qed.
End line.

(** ** parsecmd *)

Definition strend (B : list Z) : nat := Z.to_nat (strlen B).

Lemma strend_spec B : (forall i, (i < strend B)%nat -> char_at B i <> 0) /\ char_at B (strend B) = 0.
Proof.
  pose proof (strlen_nonneg B). destruct (strlen_spec B) as [H0 Hn]. unfold strend, char_at. split.
  - intros i Hi. specialize (Hn (Z.of_nat i) ltac:(lia)). unfold nthb in Hn. by rewrite Nat2Z.id in Hn.
  - done.
Qed.

(** The tokens of a line, and what the words of an accepted one are. *)
Definition line_tokens (B : list Z) : list tok := tokens (strend B) B 0.
Definition parsed (B : list Z) (l : line) (p : nat) (s : shell) : Prop :=
  rep (sh_nodes s) p (tree_line l) /\
  forall q e, (q, e) ∈ words (tree_line l) -> cstr (drop q (sh_buf s)) = take (e - q) (drop q B).

Lemma parse_end B l p s :
  at_toks (strend B) B (sh_nodes s) [] s -> line_tokens B = pr_line l -> rep (sh_nodes s) p (tree_line l) ->
  wp (peek (strend B) [0];;; let! ps := gets sh_ps in
      if decide (ps <> strend B) then panic "syntax" else nulterminate (S (strend B)) p;;; ret p)
    (fun r s' => r = p /\ parsed B l p s') s.
Proof.
  intros Hat Hl Hr. destruct (strend_spec B) as [Hnz Hz].
  wcall (peek_spec _ _ Hnz Hz [0] _ _ s Hat); [by intros c|]. cbv beta. intros _ s1 (_ & H1 & Hend).
  do 2 wstep. rewrite decide_False by (apply not_iff_compat in Hend; intros Hne; by apply Hend in Hne).
  unfold wp, bind. destruct H1 as [Hb Hn Hp Ht]. rewrite (nulterminate_spec (tree_line l)).
  - split; [done|]. split; [cbn; by rewrite Hn|]. intros q e Hin. cbn. rewrite Hb.
    apply (word_string (strend B) B Hnz Hz); [|done]. intros w Hw. change (TWord w.1 w.2 ∈ line_tokens B).
    rewrite Hl. by apply words_tokens.
  - by rewrite Hn.
  - destruct depth_line as [Hd _]. specialize (Hd l). rewrite <- Hl in Hd.
    pose proof (tokens_length (strend B) B Hnz Hz 0 ltac:(lia)). unfold line_tokens in Hd. lia.
Qed.

Lemma parsecmd_complete B l :
  ok_line l -> line_tokens B = pr_line l -> wp parsecmd (parsed B l) (sh_start B).
Proof.
  intros Hok Hl. destruct (strend_spec B) as [Hnz Hz]. unfold parsecmd. do 4 wstep. fold (strend B).
  pose proof (tokens_length (strend B) B Hnz Hz 0 ltac:(lia)) as Hlen. fold (line_tokens B) in Hlen.
  destruct (parse_complete (strend B) B Hnz Hz) as [Hc _].
  wcall (Hc l (4 * strend B + 4)%nat [] []); [done| |by left|rewrite <- Hl; lia|].
  { rewrite app_nil_r, <- Hl. split; cbn; (done || lia). }
  cbv beta. intros p s1 (K & H1 & Hr). pose proof (at_nodes _ _ _ _ _ H1) as Hn. cbn [app] in *. subst K.
  eapply wp_mono; [by apply (parse_end B l p s1)|]. by intros r s2 [-> ?].
Qed.

Lemma parsecmd_spec B :
  wpe parsecmd (fun p s' => exists l, ok_line l /\ line_tokens B = pr_line l /\ parsed B l p s')
    (fun _ _ => ~ exists l, ok_line l /\ line_tokens B = pr_line l) (sh_start B).
Proof.
  assert (wpe parsecmd (fun p s' => exists l, ok_line l /\ line_tokens B = pr_line l /\ parsed B l p s')
    (fun _ _ => True) (sh_start B)) as Hs.
  { destruct (strend_spec B) as [Hnz Hz]. unfold parsecmd. do 4 wstep. fold (strend B).
    pose proof (tokens_length (strend B) B Hnz Hz 0 ltac:(lia)) as Hlen. fold (line_tokens B) in Hlen.
    destruct (parse_sound (strend B) B Hnz Hz (4 * strend B + 4)) as [Hsd _].
    apply wpe_bind. eapply wpe_mono; [apply (Hsd [] (line_tokens B)); [split; cbn; (done || lia)|lia]| |done].
    cbv beta. intros p s1 (l & T & K & El & Hok & H1 & Hr). cbn [app] in *.
    pose proof (at_nodes _ _ _ _ _ H1) as Hn. subst K. destruct T as [|t T].
    - rewrite app_nil_r in El. apply wpe_wp. eapply wp_mono; [by apply (parse_end B l p s1)|].
      intros r s2 [-> ?]. by exists l.
    - wcall (peek_spec _ _ Hnz Hz [0] _ _ s1 H1); [by intros c|]. cbv beta. intros _ s2 (_ & H2 & Hend).
      do 2 wstep. rewrite decide_True by (intros Hps; by apply Hend in Hps). by apply wpe_panic. }
  unfold wpe in *. destruct (parsecmd (sh_start B)) as [p s|msg s|c s|s] eqn:E; [done| |done..].
  intros (l & Hok & Hl). pose proof (parsecmd_complete B l Hok Hl) as Hw. unfold wp in Hw. by rewrite E in Hw.
Qed.
