(* ===== verification/ShRun.v ===== *)
(** * Running commands (user/sh.c)

    [runcmd] sets up file descriptors with [close], [open], [dup] and [pipe]
    and forks the processes of a command; [main] reads lines and runs them.
    The model records each call of [exec] with the descriptors the process has
    then.  These are shown to be the plumbing the tree of the command asks
    for, with no other descriptor left open. *)

From S2P Require Import Prelude Monad Params CString Ulib Sh ShSpec ShParse ShCmd.

(** ** The system calls as the shell sees them *)

(** What a descriptor refers to: what the shell was started with, a file that
    was opened, or an end of a pipe (numbered in order of creation). *)
Inductive fobj :=
| Inherited (n : nat)
| Opened (name : list Z) (mode : Z)
| PipeR (k : nat)
| PipeW (k : nat).

(** The descriptors of the running process; the pipes and forks made so far;
    the programs started, with their arguments and descriptors; the
    directories changed to. *)
Record sh_sys := Sys {
  y_fds : list (option fobj);
  y_pipes : nat;
  y_forks : nat;
  y_execs : list (list (list Z) * list (option fobj));
  y_dirs : list (list Z);
}.
Definition y_set_fds v y := Sys v (y_pipes y) (y_forks y) (y_execs y) (y_dirs y).
Definition y_set_pipes v y := Sys (y_fds y) v (y_forks y) (y_execs y) (y_dirs y).
Definition y_set_forks v y := Sys (y_fds y) (y_pipes y) v (y_execs y) (y_dirs y).
Definition y_add_exec v y := Sys (y_fds y) (y_pipes y) (y_forks y) (y_execs y ++ [v]) (y_dirs y).
Definition y_add_dir v y := Sys (y_fds y) (y_pipes y) (y_forks y) (y_execs y) (y_dirs y ++ [v]).

(** The lowest free descriptor, as [fdalloc] of the kernel finds it. *)
Definition lowest (fds : list (option fobj)) : option nat := fst <$> list_find (fun x => x = None) fds.

Definition sys_install (f : fobj) : M sh_sys Z :=
  let! fds := gets y_fds in
  match lowest fds with
  | Some fd => modify (y_set_fds (<[fd := Some f]> fds));;; ret (Z.of_nat fd)
  | None => ret (-1)
  end.

Definition close (fd : Z) : M sh_sys unit := modify (fun y => y_set_fds (<[Z.to_nat fd := None]> (y_fds y)) y).

Definition dup (fd : Z) : M sh_sys Z :=
  let! fds := gets y_fds in
  match fds !! Z.to_nat fd with
  | Some (Some f) => sys_install f
  | _ => ret (-1)
  end.

Section run.
(** Whether [open] of a name succeeds, and whether the kernel grants the
    [n]-th fork. *)
Context (can_open : list Z -> Z -> bool) (can_fork : nat -> bool).

Definition open (name : list Z) (mode : Z) : M sh_sys Z :=
  if can_open name mode then sys_install (Opened name mode) else ret (-1).

(** The two descriptors of a new pipe. *)
Definition new_pipe : M sh_sys (option (Z * Z)) :=
  let! k := gets y_pipes in
  let! fds := gets y_fds in
  match lowest fds with
  | Some r =>
      match lowest (<[r := Some (PipeR k)]> fds) with
      | Some w =>
          modify (y_set_fds (<[w := Some (PipeW k)]> (<[r := Some (PipeR k)]> fds)));;;
          modify (y_set_pipes (S k));;;
          ret (Some (Z.of_nat r, Z.of_nat w))
      | None => ret None
      end
  | None => ret None
  end.

(** [if(fork1() == 0) child; parent]: the child runs on a copy of the
    descriptors and ends; without a child the process itself ends. *)
Definition fork1 (child parent : M sh_sys unit) : M sh_sys unit :=
  let! n := gets y_forks in
  modify (y_set_forks (S n));;;
  if can_fork n then
    let! fds := gets y_fds in
    child;;;
    modify (y_set_fds fds);;;
    parent
  else ret tt.

(** ** runcmd *)

(** The strings [argv] points to. *)
Fixpoint arg_strings (buf : list Z) (argv : list (option nat)) : list (list Z) :=
  match argv with
  | Some q :: argv => cstr (drop q buf) :: arg_strings buf argv
  | _ => []
  end.

(** The commands are at most [fuel] deep.  The end of the function is the end
    of the process. *)
Fixpoint runcmd (fuel : nat) (buf : list Z) (nodes : list node) (cmd : nat) : M sh_sys unit :=
  match fuel with
  | O => hang
  | S fuel =>
      match nodes !! cmd with
      | None => ret tt
      | Some (EXEC argv _) =>
          match arg_strings buf argv with
          | [] => ret tt
          | args => modify (fun y => y_add_exec (args, y_fds y) y)
          end
      | Some (REDIR c file _ mode fd) =>
          close fd;;;
          let! r := open (cstr (drop file buf)) mode in
          if r <? 0 then ret tt else runcmd fuel buf nodes c
      | Some (LIST l r) =>
          fork1 (runcmd fuel buf nodes l) (runcmd fuel buf nodes r)
      | Some (PIPE l r) =>
          let! p := new_pipe in
          match p with
          | None => ret tt
          | Some (p0, p1) =>
              fork1 (close 1;;; dup p1;;; close p0;;; close p1;;; runcmd fuel buf nodes l)
                (fork1 (close 0;;; dup p0;;; close p0;;; close p1;;; runcmd fuel buf nodes r)
                  (close p0;;; close p1))
          end
      | Some (BACK c) => fork1 (runcmd fuel buf nodes c) (ret tt)
      end
  end.

(** ** main *)

Definition BUFLEN : Z := 100.

(** [getcmd]: the buffer after the prompt, and the input left; an empty
    string is the end of the input. *)
Definition getcmd (input : list Z) : list Z * list Z :=
  let '(l, rest) := gets_line BUFLEN input in (splice 0 l (zeros BUFLEN), rest).

Definition cd_prefix : list Z := [99; 100; 32].

(** The body of the loop of [main] for a line, and the rest of the loop. *)
Definition run_line (buf : list Z) (next : M sh_sys unit) : M sh_sys unit :=
  if decide (take 3 buf = cd_prefix) then
    let buf := <[Z.to_nat (strlen buf - 1) := 0]> buf in
    modify (y_add_dir (cstr (drop 3 buf)));;;
    next
  else
    fork1
      (match parsecmd (sh_start buf) with
       | Ret p s => runcmd (S (length buf)) (sh_buf s) (sh_nodes s) p
       | _ => ret tt
       end)
      next.

(** At most [fuel] lines. *)
Fixpoint sh_main_loop (fuel : nat) (input : list Z) : M sh_sys unit :=
  match fuel with
  | O => hang
  | S fuel =>
      let '(buf, rest) := getcmd input in
      if nthb buf 0 =? 0 then ret tt else run_line buf (sh_main_loop fuel rest)
  end.

Definition console_name : list Z := [99; 111; 110; 115; 111; 108; 101].

(** The first loop of [main]. *)
Definition open_console (_ : unit) : M sh_sys (unit + unit) :=
  let! fd := open console_name O_RDWR in
  if fd <? 0 then ret (inr tt)
  else if 3 <=? fd then close fd;;; ret (inr tt)
  else ret (inl tt).

Definition sh_main (input : list Z) : M sh_sys unit :=
  while_fuel 4 open_console tt;;;
  sh_main_loop (S (length input)) input.
End run.

(** ** The plumbing a tree asks for *)

(** A program with its arguments, standard input and standard output. *)
Definition program : Type := list (list Z) * fobj * fobj.

Section flow.
(** The text of a word, and whether [open] succeeds. *)
Context (word : nat * nat -> list Z) (can_open : list Z -> Z -> bool).

(** The programs of a tree from left to right and the number of pipes after
    it, given its input, its output and the number of pipes before it. *)
Fixpoint flow (t : tree) (i o : fobj) (k : nat) : list program * nat :=
  match t with
  | TExec [] => ([], k)
  | TExec args => ([(word <$> args, i, o)], k)
  | TRedir t q e mode fd =>
      let f := Opened (word (q, e)) mode in
      if can_open (word (q, e)) mode then
        if fd =? 0 then flow t f o k else flow t i f k
      else ([], k)
  | TPipe l r =>
      let '(a, k1) := flow l i (PipeW k) (S k) in
      let '(b, k2) := flow r (PipeR k) o k1 in
      (a ++ b, k2)
  | TList l r =>
      let '(a, k1) := flow l i o k in
      let '(b, k2) := flow r i o k1 in
      (a ++ b, k2)
  | TBack t => flow t i o k
  end.
End flow.

(** Only the texts of the tree's own words matter. *)
Lemma flow_ext w1 w2 co t : forall i o k,
  (forall w, w ∈ words t -> w1 w = w2 w) -> flow w1 co t i o k = flow w2 co t i o k.
Proof.
  induction t as [args|t IH q e mode fd|l IHl r IHr|l IHl r IHr|t IH]; intros i o k H; cbn [flow words] in *.
  - destruct args as [|w args]; [done|]. enough (w1 <$> w :: args = w2 <$> w :: args) as -> by done. apply list_fmap_ext. intros n x Hx. apply H.
    by eapply list_elem_of_lookup_2.
  - rewrite (H (q, e)) by set_solver. by rewrite !IH by set_solver.
  - rewrite IHl by set_solver. destruct (flow w2 co l i (PipeW k) (S k)). by rewrite IHr by set_solver.
  - rewrite IHl by set_solver. destruct (flow w2 co l i o k). by rewrite IHr by set_solver.
  - by apply IH.
Qed.

(** Redirections are of standard input or standard output. *)
Fixpoint std_redirs (t : tree) : Prop :=
  match t with
  | TExec _ => True
  | TRedir t _ _ _ fd => (fd = 0 \/ fd = 1) /\ std_redirs t
  | TPipe l r | TList l r => std_redirs l /\ std_redirs r
  | TBack t => std_redirs t
  end.

Lemma std_wrap rs t : std_redirs t -> std_redirs (wrap rs t).
Proof.
  intros Ht. induction rs as [|[op q e] rs IH] using rev_ind; [done|]. rewrite wrap_snoc. split; [|done].
  unfold redir_fd. destruct (op =? CH_LT); [by left|by right].
Qed.

Lemma std_back n t : std_redirs t -> std_redirs (Nat.iter n TBack t).
Proof. by induction n. Qed.

Lemma std_line :
  (forall l, std_redirs (tree_line l)) /\ (forall p, std_redirs (tree_pipe p)) /\ (forall c, std_redirs (tree_simple c)).
Proof.
  apply grammar_ind; cbn [tree_line tree_pipe tree_simple std_redirs]; intros; try split; auto using std_back, std_wrap.
  by apply std_wrap.
Qed.

(** Descriptors 0, 1 and 2 and no others. *)
Definition stdfds (i o e : fobj) : list (option fobj) := [Some i; Some o; Some e] ++ replicate 13 None.
Definition with_fds (e : fobj) (p : program) : list (list Z) * list (option fobj) :=
  let '(args, i, o) := p in (args, stdfds i o e).

Lemma arg_strings_exec buf (args : list (nat * nat)) pad :
  arg_strings buf ((Some <$> args.*1) ++ replicate pad None) = (fun w => cstr (drop w.1 buf)) <$> args.
Proof. induction args as [|[q e] args IH]; cbn; [by destruct pad|]. by rewrite IH. Qed.

Section correct.
Context (can_open : list Z -> Z -> bool) (can_fork : nat -> bool).
Context (Hfork : forall n, can_fork n = true).

(** What running a command does to the system: the descriptors are those of
    a process that has ended. *)
Definition runs (y : sh_sys) (ex : list (list (list Z) * list (option fobj))) (k : nat) (y' : sh_sys) : Prop :=
  y_execs y' = y_execs y ++ ex /\ y_pipes y' = k /\ y_dirs y' = y_dirs y.

Lemma fork1_spec child parent y (Q : unit -> sh_sys -> Prop) :
  wp child (fun _ y' => wp parent Q (y_set_fds (y_fds y) y')) (y_set_forks (S (y_forks y)) y) ->
  wp (fork1 can_fork child parent) Q y.
Proof.
  intros H. unfold fork1. do 4 wstep. rewrite Hfork. do 3 wstep. eapply wp_mono; [exact H|]. cbv beta.
  intros [] y' H'. do 2 wstep. done.
Qed.

(** Descriptors: a redirection, and the two ends of a pipe. *)
Lemma redir_stdin f i o e y (k : Z -> M sh_sys unit) Q :
  y_fds y = stdfds i o e -> wp (k 0) Q (y_set_fds (stdfds f o e) y) -> wp (close 0;;; let! r := sys_install f in k r) Q y.
Proof. destruct y. cbn. by intros ->. Qed.

Lemma redir_stdout f i o e y (k : Z -> M sh_sys unit) Q :
  y_fds y = stdfds i o e -> wp (k 1) Q (y_set_fds (stdfds i f e) y) -> wp (close 1;;; let! r := sys_install f in k r) Q y.
Proof. destruct y. cbn. by intros ->. Qed.

Definition pipefds (i o e : fobj) (k : nat) : list (option fobj) :=
  [Some i; Some o; Some e; Some (PipeR k); Some (PipeW k)] ++ replicate 11 None.

Lemma pipe_spec i o e y (k : option (Z * Z) -> M sh_sys unit) Q :
  y_fds y = stdfds i o e ->
  wp (k (Some (3, 4))) Q (y_set_pipes (S (y_pipes y)) (y_set_fds (pipefds i o e (y_pipes y)) y)) ->
  wp (let! p := new_pipe in k p) Q y.
Proof. destruct y. cbn. by intros ->. Qed.

Lemma pipe_left i o e n y (k : M sh_sys unit) Q :
  y_fds y = pipefds i o e n -> wp k Q (y_set_fds (stdfds i (PipeW n) e) y) ->
  wp (close 1;;; dup 4;;; close 3;;; close 4;;; k) Q y.
Proof. destruct y. cbn. by intros ->. Qed.

Lemma pipe_right i o e n y (k : M sh_sys unit) Q :
  y_fds y = pipefds i o e n -> wp k Q (y_set_fds (stdfds (PipeR n) o e) y) ->
  wp (close 0;;; dup 3;;; close 3;;; close 4;;; k) Q y.
Proof. destruct y. cbn. by intros ->. Qed.

Lemma runs_nil y : runs y [] (y_pipes y) y.
Proof. unfold runs. by rewrite app_nil_r. Qed.

Lemma runs_fmap_app {A} (f : A -> list (list Z) * list (option fobj)) a b y k1 y1 k2 y2 :
  runs y (f <$> a) k1 y1 -> runs y1 (f <$> b) k2 y2 -> runs y (f <$> a ++ b) k2 y2.
Proof. intros (E1 & _ & D1) (E2 & P2 & D2). unfold runs. by rewrite E2, E1, fmap_app, app_assoc, D2, D1. Qed.

Lemma runcmd_flow buf nodes t : forall fuel p y i o e,
  rep nodes p t -> std_redirs t -> (depth t <= fuel)%nat -> y_fds y = stdfds i o e ->
  let fl := flow (fun w => cstr (drop w.1 buf)) can_open t i o (y_pipes y) in
  wp (runcmd can_open can_fork fuel buf nodes p) (fun _ => runs y (with_fds e <$> fl.1) fl.2) y.
Proof.
  induction t as [args|t IH q en mode fd|l IHl r IHr|l IHl r IHr|t IH]; intros fuel p y i o e Hr Hs Hd Hf;
    (destruct fuel as [|fuel]; [cbn in Hd; lia|]); cbn [depth] in Hd; cbv zeta in *; cbn [runcmd].
  - destruct Hr as [_ ->]. unfold exec_node. rewrite arg_strings_exec.
    destruct args as [|w args]; cbn [flow fmap list_fmap]; wstep; [apply runs_nil|].
    unfold runs. cbn. by rewrite Hf.
  - destruct Hr as (p' & -> & Hr), Hs as [Hfd Hs]. cbn [flow]. unfold open. cbn [fst].
    set (nm := cstr (drop q buf)). destruct (can_open nm mode).
    2: { unfold close. do 4 wstep. change (-1 <? 0) with true. wstep. unfold runs. cbn. by rewrite app_nil_r. }
    destruct Hfd as [-> | ->].
    + eapply redir_stdin; [exact Hf|]. apply (IH fuel p' (y_set_fds (stdfds (Opened nm mode) o e) y)); [done..|lia|done].
    + eapply redir_stdout; [exact Hf|]. apply (IH fuel p' (y_set_fds (stdfds i (Opened nm mode) e) y)); [done..|lia|done].
  - destruct Hr as (pl & pr & -> & Hl & Hr), Hs as [Hsl Hsr]. eapply pipe_spec; [exact Hf|]. set (k := y_pipes y).
    set (y0 := y_set_pipes _ _). cbn [flow].
    set (y1 := y_set_fds (stdfds i (PipeW k) e) (y_set_forks (S (y_forks y0)) y0)).
    specialize (IHl fuel pl y1 i (PipeW k) e Hl Hsl ltac:(lia) eq_refl). change (y_pipes y1) with (S k) in IHl.
    destruct (flow _ _ l i (PipeW k) (S k)) as [a k1].
    apply fork1_spec. eapply pipe_left; [done|]. eapply wp_mono; [exact IHl|]. cbv beta. intros _ y1' H1.
    apply fork1_spec. eapply (pipe_right i o e k); [done|]. pose proof H1 as (_ & Hk1 & _). cbn [snd] in Hk1.
    set (y2 := y_set_fds (stdfds (PipeR k) o e) _). specialize (IHr fuel pr y2 (PipeR k) o e Hr Hsr ltac:(lia) eq_refl).
    change (y_pipes y2) with (y_pipes y1') in IHr. rewrite Hk1 in IHr. destruct (flow _ _ r (PipeR k) o k1) as [b k2].
    eapply wp_mono; [exact IHr|]. cbv beta. intros _ y3 H3. unfold close. do 3 wstep.
    change (runs y (with_fds e <$> a ++ b) k2 y3). by eapply runs_fmap_app.
  - destruct Hr as (pl & pr & -> & Hl & Hr), Hs as [Hsl Hsr]. cbn [flow]. apply fork1_spec.
    specialize (IHl fuel pl (y_set_forks (S (y_forks y)) y) i o e Hl Hsl ltac:(lia) Hf). cbn [y_pipes y_set_forks] in IHl.
    destruct (flow _ _ l i o _) as [a k1]. eapply wp_mono; [exact IHl|]. cbv beta. intros _ y1 H1.
    pose proof H1 as (_ & Hk1 & _). cbn [snd] in Hk1. set (y2 := y_set_fds (y_fds y) y1).
    specialize (IHr fuel pr y2 i o e Hr Hsr ltac:(lia) Hf). change (y_pipes y2) with (y_pipes y1) in IHr. rewrite Hk1 in IHr.
    destruct (flow _ _ r i o k1) as [b k2]. eapply wp_mono; [exact IHr|]. cbv beta. intros _ y3 H3.
    by eapply runs_fmap_app.
  - destruct Hr as (p' & -> & Hr). apply fork1_spec.
    specialize (IH fuel p' (y_set_forks (S (y_forks y)) y) i o e Hr Hs ltac:(lia) Hf).
    eapply wp_mono; [exact IH|]. cbv beta. intros _ y1 H1. by wstep.
Qed.

(** ** Sessions *)

(** The buffer with a line in it. *)
Definition line_buf (ln : list Z) : list Z := splice 0 (ln ++ [10; 0]) (zeros BUFLEN).
Definition good_line (ln : list Z) : Prop :=
  Forall (fun c => c <> 0 /\ c <> 10 /\ c <> 13) ln /\ Z.of_nat (length ln) + 1 < BUFLEN.

(** What the lines of a session make the shell do: the programs it starts
    and the directories it changes to.  [k]: the pipes made before and
    after. *)
Inductive session (i o : fobj) : nat -> list (list Z) -> list program -> list (list Z) -> nat -> Prop :=
| session_end k : session i o k [] [] [] k
| session_cd k dir lns ps ds k' :
    session i o k lns ps ds k' -> session i o k ((cd_prefix ++ dir) :: lns) ps (dir :: ds) k'
| session_cmd k ln l lns ps ps' ds k1 k' :
    take 3 ln <> cd_prefix -> ok_line l -> line_tokens (line_buf ln) = pr_line l ->
    flow (fun w => take (w.2 - w.1) (drop w.1 (line_buf ln))) can_open (tree_line l) i o k = (ps, k1) ->
    session i o k1 lns ps' ds k' -> session i o k (ln :: lns) (ps ++ ps') ds k'
| session_bad k ln lns ps ds k' :
    take 3 ln <> cd_prefix -> ~ (exists l, ok_line l /\ line_tokens (line_buf ln) = pr_line l) ->
    session i o k lns ps ds k' -> session i o k (ln :: lns) ps ds k'.

Lemma line_buf_app ln : good_line ln -> exists n, line_buf ln = ln ++ 10 :: replicate (S n) 0.
Proof.
  intros [_ Hl]. exists (Z.to_nat BUFLEN - length ln - 2)%nat. unfold line_buf, BUFLEN in *.
  rewrite splice_prefix by (rewrite length_app, length_zeros; cbn; lia).
  rewrite <- app_assoc. f_equal. cbn [app replicate]. do 2 f_equal. unfold zeros. rewrite drop_replicate, length_app.
  f_equal. cbn. lia.
Qed.

Lemma getcmd_line ln input : good_line ln -> getcmd (ln ++ 10 :: input) = (line_buf ln, input).
Proof.
  intros [Hc Hl]. unfold getcmd. rewrite gets_line_spec; [done| |by left|done].
  eapply Forall_impl; [exact Hc|]. cbn. tauto.
Qed.

Lemma take_cd ln : good_line ln -> take 3 (line_buf ln) = cd_prefix <-> take 3 ln = cd_prefix.
Proof.
  intros Hg. destruct (line_buf_app ln Hg) as [n ->]. 
  destruct ln as [|a [|b [|c ln]]]; cbn; rewrite ?take_0; try done; split; by intros [=].
Qed.

(** The directory of a [cd] line. *)
Lemma cd_dir dir : good_line (cd_prefix ++ dir) ->
  let buf := line_buf (cd_prefix ++ dir) in
  cstr (drop 3 (<[Z.to_nat (strlen buf - 1) := 0]> buf)) = dir.
Proof.
  intros Hg. cbv zeta. destruct (line_buf_app _ Hg) as [n ->]. destruct Hg as [Hc _].
  assert (strlen ((cd_prefix ++ dir) ++ 10 :: replicate (S n) 0) = Z.of_nat (length (cd_prefix ++ dir)) + 1) as ->.
  { assert (forall l s, Forall (fun c => c <> 0) l -> strlen (l ++ s) = Z.of_nat (length l) + strlen s) as Ha.
    { intros l s. induction 1 as [|c l Hc' Hl IH]; [done|]. cbn [app strlen length]. apply Z.eqb_neq in Hc' as ->. lia. }
    rewrite Ha; [done|]. eapply Forall_impl; [exact Hc|]. cbn. tauto. }
  rewrite Z.add_simpl_r, Nat2Z.id, insert_app_r_alt, Nat.sub_diag by done. cbn [list_insert insert].
  rewrite <- app_assoc. change (drop 3 (cd_prefix ++ ?x)) with x.
  apply cstr_app. apply Forall_app in Hc as [_ Hc]. eapply Forall_impl; [exact Hc|]. cbn. tauto.
Qed.

(** A command line is run as its tree says. *)
Lemma run_parsed ln i o e y :
  y_fds y = stdfds i o e ->
  wp (match parsecmd (sh_start (line_buf ln)) with
      | Ret p s => runcmd can_open can_fork (S (length (line_buf ln))) (sh_buf s) (sh_nodes s) p
      | _ => ret tt
      end) (fun _ y' => exists ps k, runs y (with_fds e <$> ps) k y' /\
    ((exists l, ok_line l /\ line_tokens (line_buf ln) = pr_line l /\
       flow (fun w => take (w.2 - w.1) (drop w.1 (line_buf ln))) can_open (tree_line l) i o (y_pipes y) = (ps, k)) \/
     ~ (exists l, ok_line l /\ line_tokens (line_buf ln) = pr_line l) /\ ps = [] /\ k = y_pipes y)) y.
Proof.
  intros Hf. pose proof (parsecmd_spec (line_buf ln)) as Hp. unfold wpe in Hp. set (B := line_buf ln) in *.
  destruct (parsecmd (sh_start B)) as [p s|msg s|c s|s]; [|..|done|done].
  - destruct Hp as (l & Hok & Hl & Hr & Hw). destruct depth_line as [Hd _], (strend_spec B) as [Hnz Hz].
    pose proof (tokens_length (strend B) B Hnz Hz 0 ltac:(lia)) as Htl. fold (line_tokens B) in Htl. specialize (Hd l). rewrite <- Hl in Hd.
    assert (strend B <= length B)%nat as Hse by (unfold strend; pose proof (strlen_length B); lia).
    pose proof (runcmd_flow (sh_buf s) (sh_nodes s) (tree_line l) (S (length B)) p y i o e Hr
      (proj1 std_line l) ltac:(lia) Hf) as Hrun. cbv zeta in Hrun.
    rewrite (flow_ext _ (fun w => take (w.2 - w.1) (drop w.1 B))) in Hrun by (intros [q en] Hin; by apply Hw).
    eapply wp_mono; [exact Hrun|]. cbv beta. intros _ y' Hy. eexists _, _. split; [exact Hy|left].
    exists l. split_and!; [done..|]. by destruct (flow _ _ _ _ _ _).
  - wstep. exists [], (y_pipes y). split; [apply runs_nil|]. by right.
Qed.

(** The text of a session. *)
Definition unlines (lns : list (list Z)) : list Z := mjoin ((fun l => l ++ [10]) <$> lns).

Lemma unlines_cons ln lns : unlines (ln :: lns) = ln ++ 10 :: unlines lns.
Proof. change ((ln ++ [10]) ++ unlines lns = ln ++ 10 :: unlines lns). by rewrite <- app_assoc. Qed.

Lemma length_unlines lns : (length lns <= length (unlines lns))%nat.
Proof. induction lns as [|ln lns IH]; [done|]. rewrite unlines_cons, length_app. cbn. lia. Qed.

Lemma main_loop_spec i o e lns : forall fuel y,
  Forall good_line lns -> y_fds y = stdfds i o e -> (length lns < fuel)%nat ->
  wp (sh_main_loop can_open can_fork fuel (unlines lns)) (fun _ y' => exists ps ds k,
    session i o (y_pipes y) lns ps ds k /\ y_execs y' = y_execs y ++ (with_fds e <$> ps) /\ y_dirs y' = y_dirs y ++ ds) y.
Proof.
  induction lns as [|ln lns IH]; intros fuel y Hg Hf Hn; (destruct fuel as [|fuel]; [cbn in Hn; lia|]).
  { cbn. exists [], [], (y_pipes y). rewrite !app_nil_r. split_and!; [constructor|done..]. }
  apply Forall_cons in Hg as [Hg Hgs]. cbn [length] in Hn.
  rewrite unlines_cons. cbn [sh_main_loop]. rewrite getcmd_line by done.
  assert ((nthb (line_buf ln) 0 =? 0) = false) as ->.
  { apply Z.eqb_neq. destruct (line_buf_app ln Hg) as [n ->]. destruct Hg as [Hc _].
    destruct Hc as [|c l [Hc _] _]; [done|exact Hc]. }
  unfold run_line. destruct (decide (take 3 (line_buf ln) = cd_prefix)) as [Hcd|Hcd].
  - apply (proj1 (take_cd ln Hg)) in Hcd. rewrite <- (take_drop 3 ln), Hcd in Hg |- *. rewrite cd_dir by done. do 2 wstep.
    eapply wp_mono; [apply (IH fuel (y_add_dir (drop 3 ln) y)); [done..|lia]|]. cbv beta.
    intros _ y' (ps & ds & k & Hs & He & Hdr). exists ps, (drop 3 ln :: ds), k. split_and!; [by constructor|done|].
    rewrite Hdr. cbn. by rewrite <- app_assoc.
  - rewrite take_cd in Hcd by done. apply fork1_spec. eapply wp_mono; [apply (run_parsed ln i o e); exact Hf|].
    cbv beta. intros _ y1 (ps1 & k1 & (He1 & Hk1 & Hd1) & Hcase). cbn [y_pipes y_execs y_dirs y_set_forks] in *.
    eapply wp_mono; [apply (IH fuel (y_set_fds (y_fds y) y1)); [done..|lia]|]. cbv beta.
    cbn [y_pipes y_execs y_dirs y_set_fds]. rewrite He1, Hk1, Hd1.
    intros _ y' (ps & ds & k & Hs & He & Hdr). exists (ps1 ++ ps), ds, k. rewrite He, fmap_app, app_assoc. split_and!; [|done..].
    destruct Hcase as [(l & Hok & Hl & Hfl)|(Hno & -> & ->)]; [by eapply session_cmd|by apply session_bad].
Qed.

Lemma main_spec i o e lns y :
  Forall good_line lns -> y_fds y = stdfds i o e ->
  wp (sh_main can_open can_fork (unlines lns)) (fun _ y' => exists ps ds k,
    session i o (y_pipes y) lns ps ds k /\ y_execs y' = y_execs y ++ (with_fds e <$> ps) /\ y_dirs y' = y_dirs y ++ ds) y.
Proof.
  intros Hg Hf. unfold sh_main. apply wp_bind. eapply (wp_mono _ (fun _ y' => y' = y)).
  - rewrite while_fuel_S. unfold open_console at 1, open. destruct (can_open console_name O_RDWR); [|done].
    destruct y. cbn in Hf. subst. done.
  - intros _ y' ->. apply main_loop_spec; [done..|]. pose proof (length_unlines lns). lia.
Qed.
End correct.
