(* ===== verification/Mkfs.v ===== *)
(** * The image builder (tools/mkfs.c)

    [mkfs] writes an empty file system, [add_dir] copies a directory of the
    host into it with [ialloc] and [iappend], and [balloc] writes the bitmap.
    The image is the disk of device ROOTDEV.  A failed assertion and a read
    behind the end of the image end the program. *)

From S2P Require Import Prelude Monad Params CString Ulib Ide Inode.

(** ** State *)

Record mkst := Mkst {
  k_img : gmap (Z * Z) (list Z);
  k_freeblock : Z;
  k_usedblocks : Z;
  k_freeinode : Z;
}.
Definition k_set_img v s := Mkst v (k_freeblock s) (k_usedblocks s) (k_freeinode s).
Definition k_set_freeblock v s := Mkst (k_img s) v (k_usedblocks s) (k_freeinode s).
Definition k_set_usedblocks v s := Mkst (k_img s) (k_freeblock s) v (k_freeinode s).
Definition k_set_freeinode v s := Mkst (k_img s) (k_freeblock s) (k_usedblocks s) v.

Definition BLOCK_SIZE : Z := 512.
Definition k_nblocks : Z := 995.
Definition k_ninodes : Z := 200.
Definition k_size : Z := 1024.
Definition mk_start : mkst := Mkst ∅ 0 0 1.

(** ** Sectors *)

Definition wsect (sec : Z) (buf : list Z) : M mkst unit :=
  modify (fun s => k_set_img (<[(ROOTDEV, sec) := buf]> (k_img s)) s).

Definition rsect (sec : Z) : M mkst (list Z) :=
  let! img := gets k_img in
  match img !! (ROOTDEV, sec) with
  | Some buf => ret buf
  | None => panic "read"
  end.

(** ** Inodes *)

Definition i2b (inum : Z) : Z := inum / IPB + 2.

(** The 64 bytes of a [struct dinode]: the fields [iupdate] writes, and the
    tag block's address. *)
Definition dinode_image (di : dinode) : list Z :=
  dinode_bytes (i_load di zero_inode) ++ le_enc 4 (di_tags di).

Definition winode (inum : Z) (ip : dinode) : M mkst unit :=
  let bn := i2b inum in
  let! buf := rsect bn in
  wsect bn (splice (inum mod IPB * sizeof_dinode) (dinode_image ip) buf).

Definition rinode (inum : Z) : M mkst dinode :=
  let! buf := rsect (i2b inum) in
  ret (dinode_at (inum mod IPB) buf).

Definition mk_ialloc (type : Z) : M mkst Z :=
  let! inum := gets k_freeinode in
  modify (k_set_freeinode (inum + 1));;;
  winode inum (Dinode type 0 0 1 0 (zeros (NDIRECT + 1)) 0);;;
  ret inum.

(** ** The bitmap *)

(** [buf[i/8] = buf[i/8] | (0x1 << (i%8))] *)
Definition mark_bit (buf : list Z) (i : Z) : list Z :=
  <[Z.to_nat (i / 8) := Z.lor (nthb buf (i / 8)) (Z.shiftl 1 (i mod 8))]> buf.

Definition mk_balloc (used : Z) : M mkst unit :=
  if negb (used <? 512 * 8) then panic "used < 512*8"
  else wsect (k_ninodes / IPB + 3) (foldl mark_bit (zeros 512) (seqZ 0 used)).

(** ** Appending to a file *)

(** [freeblock++; usedblocks++] *)
Definition take_block : M mkst Z :=
  let! b := gets k_freeblock in
  modify (k_set_freeblock (b + 1));;;
  modify (fun s => k_set_usedblocks (k_usedblocks s + 1) s);;;
  ret b.

Definition di_set_addr (k v : Z) (di : dinode) : dinode :=
  Dinode (di_type di) (di_major di) (di_minor di) (di_nlink di) (di_size di)
    (<[Z.to_nat k := v]> (di_addrs di)) (di_tags di).
Definition di_set_size (v : Z) (di : dinode) : dinode :=
  Dinode (di_type di) (di_major di) (di_minor di) (di_nlink di) v (di_addrs di) (di_tags di).

(** [if(din.addrs[k] == 0) din.addrs[k] = freeblock++] *)
Definition need_addr (k : Z) (din : dinode) : M mkst dinode :=
  if nthb (di_addrs din) k =? 0 then
    let! b := take_block in ret (di_set_addr k b din)
  else ret din.

(** The entry [j] of the indirect block at sector [ind]. *)
Definition need_entry (ind j : Z) : M mkst Z :=
  let! indirect := rsect ind in
  if get32 (4 * j) indirect =? 0 then
    let! b := take_block in
    wsect ind (put32 (4 * j) b indirect);;;
    ret b
  else ret (get32 (4 * j) indirect).

(** The block for block [fbn] of the file. *)
Definition append_block (fbn : Z) (din : dinode) : M mkst (Z * dinode) :=
  if fbn <? NDIRECT then
    let! din := need_addr fbn din in
    ret (nthb (di_addrs din) fbn, din)
  else
    let! din := need_addr NDIRECT din in
    let! x := need_entry (nthb (di_addrs din) NDIRECT) (fbn - NDIRECT) in
    ret (x, din).

(** A round of the loop of [iappend], with the bytes [p] left. *)
Definition iappend_step '(off, p, din) : M mkst ((Z * list Z * dinode) + (Z * dinode)) :=
  match p with
  | [] => ret (inr (off, din))
  | _ =>
      let fbn := off / 512 in
      if negb (fbn <? MAXFILE) then panic "fbn < MAXFILE"
      else
        let! '(x, din) := append_block fbn din in
        let n1 := Z.min (Z.of_nat (length p)) ((fbn + 1) * 512 - off) in
        let! buf := rsect x in
        wsect x (splice (off - fbn * 512) (take (Z.to_nat n1) p) buf);;;
        ret (inl (off + n1, drop (Z.to_nat n1) p, din))
  end.

Definition iappend (inum : Z) (xp : list Z) : M mkst unit :=
  let! din := rinode inum in
  let! '(off, din) := while_fuel (S (length xp)) iappend_step (di_size din, xp, din) in
  winode inum (di_set_size off din).

(** ** Directories *)

(** A file of the host: what the calls of [read] return, or a directory with
    the names [readdir_r] gives. *)
Inductive hfile :=
| HFile (reads : list (list Z))
| HDir (entries : list (list Z * hfile)).

Definition mk_dot : list Z := [46; 0].
Definition mk_dotdot : list Z := [46; 46; 0].

(** An entry of the image with the name [name], a string. *)
Definition mk_dirent (inum : Z) (name : list Z) : list Z :=
  dirent_bytes (Dirent (u16 inum) (strncpy (Z.to_nat DIRSIZ) name)).

Definition is_dots (name : list Z) : bool := (strcmp name mk_dot =? 0) || (strcmp name mk_dotdot =? 0).

(** The size of the directory, up to a whole number of blocks. *)
Definition fix_dir_size (inum : Z) : M mkst unit :=
  let! din := rinode inum in
  winode inum (di_set_size ((di_size din / BSIZE + 1) * BSIZE) din).

(** The loop over the entries of the host's directory; [add] is [add_dir]. *)
Section add_entries.
Variable add : hfile -> Z -> Z -> M mkst unit.

Fixpoint add_entries (entries : list (list Z * hfile)) (cur_inode : Z) : M mkst unit :=
  match entries with
  | [] => ret tt
  | (name, child) :: entries =>
      (if is_dots name then ret tt
       else
         let! child_inode := mk_ialloc (match child with HDir _ => T_DIR | HFile _ => T_FILE end) in
         add child child_inode cur_inode;;;
         iappend cur_inode (mk_dirent child_inode name));;;
      add_entries entries cur_inode
  end.
End add_entries.

(** A directory with all below it; a plain file is read into its inode. *)
Fixpoint add_dir (f : hfile) (cur_inode parent_inode : Z) : M mkst unit :=
  match f with
  | HFile reads => for_each reads (iappend cur_inode)
  | HDir entries =>
      iappend cur_inode (mk_dirent cur_inode mk_dot);;;
      iappend cur_inode (mk_dirent parent_inode mk_dotdot);;;
      add_entries add_dir entries cur_inode;;;
      fix_dir_size cur_inode
  end.

(** ** main *)

Definition mkfs (nblocks ninodes size : Z) : M mkst unit :=
  let bitblocks := size / (512 * 8) + 1 in
  let used := ninodes / IPB + 3 + bitblocks in
  modify (k_set_usedblocks used);;;
  modify (k_set_freeblock used);;;
  if negb (nblocks + used =? size) then panic "nblocks + usedblocks == size"
  else
    for_each (seqZ 0 (nblocks + used)) (fun i => wsect i (zeros 512));;;
    wsect 1 (splice 0 (le_enc 4 size ++ le_enc 4 nblocks ++ le_enc 4 ninodes) (zeros BLOCK_SIZE)).

(** [root]: the directory given on the command line. *)
Definition mkfs_main (root : list (list Z * hfile)) : M mkst unit :=
  mkfs k_nblocks k_ninodes k_size;;;
  let! root_inode := mk_ialloc T_DIR in
  if negb (root_inode =? ROOTINO) then panic "root_inode == ROOTINO"
  else
    add_dir (HDir root) root_inode root_inode;;;
    let! used := gets k_usedblocks in
    mk_balloc used.
