(* ===== verification/MkfsSpec.v ===== *)
(** * Files in an image under construction

    The abstract state of the image builder (tools/mkfs.c) is a list of
    inodes, each a type and a content.  The invariant relates it to the bytes
    of the image: the slots of an inode, as the kernel's [bmap] reads them,
    name blocks of its own that hold the content.  [ialloc] and [iappend]
    act on it as their names say. *)

From S2P Require Import Prelude Monad Params CString Ulib ProcTable Ide Bio Block Alloc.
From S2P Require Import Inode Bmap Icache Content Mkfs.

(** ** Inodes in a block *)

Definition di_wf (di : dinode) : Prop := inode_wf (i_load di zero_inode) /\ is_uint (di_tags di).

Lemma length_dinode_image di : di_wf di -> length (dinode_image di) = 64%nat.
Proof. intros [Hw _]. unfold dinode_image. rewrite length_app, length_dinode_bytes, length_le_enc by done. done. Qed.

Lemma Forall_dinode_image di : Forall is_byte (dinode_image di).
Proof. apply Forall_app_2; [apply Forall_dinode_bytes|apply Forall_le_enc]. Qed.

Lemma splice_dinode k di d :
  di_wf di -> 0 <= k ->
  splice (k * sizeof_dinode) (dinode_image di) d =
  splice (k * 64 + 60) (le_enc 4 (di_tags di)) (put_dinode k (i_load di zero_inode) d).
Proof.
  intros [Hw _] Hk. unfold dinode_image, put_dinode, splice. change sizeof_dinode with 64.
  rewrite list_inserts_app_l, length_dinode_bytes by done. f_equal. lia.
Qed.

(** The inode written is the inode read. *)
Lemma dinode_at_image k di d :
  di_wf di -> 0 <= k < IPB -> is_block d -> dinode_at k (splice (k * sizeof_dinode) (dinode_image di) d) = di.
Proof.
  intros Hwf Hk Hd. rewrite splice_dinode by (done || lia). destruct Hwf as [Hw Ht]. set (X := put_dinode k _ d).
  pose proof (dinode_at_put k _ d Hw Hk Hd) as E. fold X in E.
  assert (is_block X) as HX by by apply is_block_put_dinode. pose proof (is_block_len _ HX) as Hl. change BSIZE with 512 in Hl.
  change IPB with 8 in Hk.
  assert (forall a n, 0 <= a -> 0 <= n -> a + n <= 60 ->
    slice (k * 64 + a) n (splice (k * 64 + 60) (le_enc 4 (di_tags di)) X) = slice (k * 64 + a) n X) as Hs.
  { intros. apply slice_splice_ne; lia. }
  assert (get32 (k * 64 + 60) (splice (k * 64 + 60) (le_enc 4 (di_tags di)) X) = di_tags di) as Et.
  { unfold get32. pose proof (slice_splice_eq (k * 64 + 60) (le_enc 4 (di_tags di)) X) as Eq.
    rewrite length_le_enc in Eq. change (Z.of_nat 4) with 4 in Eq. rewrite Eq by lia. apply le_dec_enc, Ht. }
  clearbody X. set (Y := splice _ _ X) in *. clearbody Y. unfold dinode_at in *. change sizeof_dinode with 64 in *. rewrite Et.
  injection E as E1 E2 E3 E4 E5 E6 _. destruct di as [ty ma mi nl sz ad tg].
  cbn [i_load i_type i_major i_minor i_nlink i_size i_addrs di_type di_major di_minor di_nlink di_size di_addrs di_tags] in *.
  unfold get16, get32, addrs_at in *. rewrite <- (Z.add_0_r (k * 64)) in E1 at 1. rewrite <- (Z.add_0_r (k * 64)) at 1.
  rewrite !Hs by lia. f_equal; try done. rewrite <- E6. apply list_fmap_ext. intros j x Hx.
  apply lookup_seqZ in Hx. change (NDIRECT + 1) with 12 in Hx. unfold get32. by rewrite <- !Z.add_assoc, Hs by lia.
Qed.

Lemma dinode_at_image_ne k k' di d :
  di_wf di -> 0 <= k -> 0 <= k' -> k <> k' ->
  dinode_at k' (splice (k * sizeof_dinode) (dinode_image di) d) = dinode_at k' d.
Proof.
  intros Hwf Hk Hk' Hne. pose proof (length_dinode_image di Hwf) as Hl. unfold dinode_at. change sizeof_dinode with 64.
  assert (forall a n, 0 <= a -> 0 <= n -> a + n <= 64 ->
    slice (k' * 64 + a) n (splice (k * 64) (dinode_image di) d) = slice (k' * 64 + a) n d) as Hs.
  { intros. apply slice_splice_ne; lia. }
  unfold get16, get32. rewrite <- (Z.add_0_r (k' * 64)) at 1. rewrite !Hs by lia.
  f_equal; [by rewrite Z.add_0_r|]. apply list_fmap_ext. intros j x Hx. apply lookup_seqZ in Hx. change (NDIRECT + 1) with 12 in Hx.
  unfold get32. by rewrite <- !Z.add_assoc, Hs by lia.
Qed.

(** ** The image *)

(** The first block that is not used by the file system itself. *)
Definition DATA : Z := 29.

Definition rd (d : gmap (Z * Z) (list Z)) (b : Z) : list Z := disk_read d (ROOTDEV, b).

Lemma rd_insert d b b' x : rd (<[(ROOTDEV, b) := x]> d) b' = if decide (b = b') then x else rd d b'.
Proof.
  unfold rd, disk_read. destruct (decide (b = b')) as [->|Hne]; [by rewrite lookup_insert_eq|].
  by rewrite lookup_insert_ne by congruence.
Qed.

(** The sectors of the image are there, and blocks from [F] on are empty. *)
Record img_ok (d : gmap (Z * Z) (list Z)) (F : Z) : Prop := {
  im_dom : forall b, is_Some (d !! (ROOTDEV, b)) <-> 0 <= b < k_size;
  im_block : forall b, 0 <= b < k_size -> is_block (rd d b);
  im_zero : forall b, F <= b -> rd d b = zeros BSIZE;
  im_F : DATA <= F;
  im_dev : forall dev b, dev <> ROOTDEV -> d !! (dev, b) = None;
}.

Lemma rd_some d F b x : img_ok d F -> d !! (ROOTDEV, b) = Some x -> 0 <= b < k_size /\ rd d b = x.
Proof.
  intros Hd Hx. split; [apply Hd; eauto|]. unfold rd, disk_read. by rewrite Hx.
Qed.

(** Writing a used block. *)
Lemma img_write d F b x :
  img_ok d F -> 0 <= b < k_size -> b < F -> is_block x -> img_ok (<[(ROOTDEV, b) := x]> d) F.
Proof.
  intros [H1 H2 H3 H4 H5] Hb HF Hx. split; [| | |done|].
  - intros b'. destruct (decide (b = b')) as [->|Hne].
    + rewrite lookup_insert_eq. split; [done|eauto].
    + by rewrite lookup_insert_ne by congruence.
  - intros b' Hb'. rewrite rd_insert. destruct (decide (b = b')); auto.
  - intros b' Hb'. rewrite rd_insert, decide_False by lia. auto.
  - intros dev b' Hd. rewrite lookup_insert_ne by congruence. auto.
Qed.

(** Some blocks from [F] on may be in use. *)
Lemma img_more d F F' : img_ok d F -> F <= F' -> img_ok d F'.
Proof. intros [H1 H2 H3 H4 H5] HF. split; [done..| |lia|done]. intros b Hb. apply H3. lia. Qed.

Section file.
(** The rest of the kernel's block layer does not matter here. *)
Context (s0 : bio).

Definition on (d : gmap (Z * Z) (list Z)) : bio := bio_set_disk d s0.
Definition ino (di : dinode) : inode := i_load di (i_set_dev ROOTDEV zero_inode).
#[local] Notation dslot d di := (slot (on d) (ino di)).

(** The inode names blocks of its own below [F] that hold the bytes [c]. *)
Record holds_bytes (d : gmap (Z * Z) (list Z)) (di : dinode) (F : Z) (c : list Z) : Prop := {
  hb_len : length (di_addrs di) = Z.to_nat (NDIRECT + 1);
  hb_slot : forall k, 0 <= k < NSLOT -> dslot d di k <> 0 -> DATA <= dslot d di k < F;
  hb_inj : forall k k', 0 <= k < NSLOT -> 0 <= k' < NSLOT -> dslot d di k <> 0 ->
    dslot d di k = dslot d di k' -> k = k';
  hb_bytes : forall o, 0 <= o < MAXFILE * BSIZE -> fbyte (on d) (ino di) o = nthb c o;
}.

Definition own (d : gmap (Z * Z) (list Z)) (di : dinode) (b : Z) : Prop :=
  b <> 0 /\ exists k, 0 <= k < NSLOT /\ b = dslot d di k.

Definition di_set_addrs (v : list Z) (di : dinode) : dinode :=
  Dinode (di_type di) (di_major di) (di_minor di) (di_nlink di) (di_size di) v (di_tags di).

(** A step of [iappend]: the file grows from [c] to [c'], and only blocks of
    the file and blocks that were free change. *)
Record grows d F di (c : list Z) d' F' di' (c' : list Z) : Prop := {
  gr_bytes : holds_bytes d' di' F' c';
  gr_img : img_ok d' F';
  gr_F : F <= F';
  gr_same : forall b, b < F -> ~ own d di b -> rd d' b = rd d b;
  gr_own : forall b, own d' di' b -> own d di b \/ F <= b;
  gr_inode : di' = di_set_addrs (di_addrs di') di;
}.

Lemma grows_refl d F di c : holds_bytes d di F c -> img_ok d F -> grows d F di c d F di c.
Proof. intros Hb Hi. split; [done..|lia|done|tauto|by destruct di]. Qed.

Lemma grows_trans d F di c d1 F1 di1 c1 d2 F2 di2 c2 :
  grows d F di c d1 F1 di1 c1 -> grows d1 F1 di1 c1 d2 F2 di2 c2 -> grows d F di c d2 F2 di2 c2.
Proof.
  intros [B1 I1 L1 S1 O1 E1] [B2 I2 L2 S2 O2 E2]. split; [done|done|lia| | |].
  - intros b Hb Hno. rewrite S2, S1; [done|done|done|lia|]. intros [Ho|Ho]%O1; [done|lia].
  - intros b [Ho|Ho]%O2; [|right; lia]. by apply O1.
  - by rewrite E2, E1.
Qed.

(** A fresh block [F] for the empty slot [k]. *)
Lemma grows_attach d F di c d' di' k :
  holds_bytes d di F c -> img_ok d' (F + 1) -> DATA <= F -> length (di_addrs di') = Z.to_nat (NDIRECT + 1) ->
  di' = di_set_addrs (di_addrs di') di -> 0 <= k < NSLOT -> dslot d di k = 0 ->
  (forall j, 0 <= j < NSLOT -> dslot d' di' j = if j =? k then F else dslot d di j) ->
  (k <> NDIRECT -> rd d' F = zeros BSIZE) ->
  (forall b, b < F -> (b <> 0 -> b <> dslot d di NDIRECT) -> rd d' b = rd d b) ->
  grows d F di c d' (F + 1) di' c.
Proof.
  intros [Hl Hsl Hinj Hby] Hi HF Hl' Edi Hk H0 Hs Hz Hsame. assert (F <> 0) as HFnz by (unfold DATA in HF; lia).
  split; [split|done|lia| | |done].
  - done.
  - intros j Hj. rewrite Hs by done. destruct (Z.eqb_spec j k); intros Hnz; [lia|]. specialize (Hsl j Hj Hnz). lia.
  - intros j j' Hj Hj'. rewrite !Hs by done.
    destruct (Z.eqb_spec j k) as [->|], (Z.eqb_spec j' k) as [->|]; intros Hnz Heq; [done|..].
    + assert (dslot d di j' <> 0) as Hnz' by congruence. specialize (Hsl j' Hj' Hnz'). lia.
    + specialize (Hsl j Hj Hnz). lia.
    + by apply Hinj.
  - intros o Ho. rewrite <- Hby by done. apply (attach_bytes (on d) (on d') (ino di) (ino di') k F); try done.
    intros j Hj Hne Hnz. change (rd d' (dslot d di j) = rd d (dslot d di j)). apply Hsame.
    + by apply Hsl.
    + intros _ E. apply Hne. apply Hinj; done.
  - intros b Hb Hno. apply Hsame; [done|]. intros Hnz ->. apply Hno. split; [done|]. by exists NDIRECT.
  - intros b (Hnz & j & Hj & ->). rewrite Hs by done. destruct (Z.eqb_spec j k) as [->|Hne]; [right; lia|left].
    rewrite Hs in Hnz by done. apply Z.eqb_neq in Hne. rewrite Hne in Hnz. split; [done|]. by exists j.
Qed.

(** The errors [iappend] reports: the image is full, or the file too large. *)
Definition mk_error (msg : string) (s : mkst) : Prop :=
  msg = "read"%string /\ k_size < k_freeblock s \/ msg = "fbn < MAXFILE"%string.

Lemma take_block_spec d F n (Q : Z -> mkst -> Prop) :
  Q F (Mkst d (F + 1) (F + 1) n) -> wp take_block Q (Mkst d F F n).
Proof. done. Qed.

(** An address of the inode. *)
Lemma need_addr_spec d F n di c k :
  holds_bytes d di F c -> img_ok d F -> 0 <= k < NDIRECT + 1 ->
  wp (need_addr k di) (fun di' s' => exists F', s' = Mkst d F' F' n /\ grows d F di c d F' di' c /\
    dslot d di' k <> 0 /\ (F' = F /\ di' = di \/ F' = F + 1 /\ dslot d di' k = F /\ dslot d di k = 0)) (Mkst d F F n).
Proof.
  intros Hb Hi Hk. pose proof (im_F _ _ Hi) as HF. unfold DATA in HF. unfold need_addr.
  assert (dslot d di k = nthb (di_addrs di) k) as Es.
  { unfold slot. rewrite (proj2 (Z.ltb_lt k (NDIRECT + 1))) by lia. done. }
  destruct (Z.eqb_spec (nthb (di_addrs di) k) 0) as [E0|E0].
  2: { wstep. exists F. split_and!; [done|by apply grows_refl|by rewrite Es|by left]. }
  wstep. apply take_block_spec. cbv beta. wstep. exists (F + 1). split; [done|].
  assert (0 <= k < NSLOT) as HkN by (change NSLOT with 140; change (NDIRECT + 1) with 12 in Hk; lia).
  assert (forall j, 0 <= j < NSLOT -> dslot d (di_set_addr k F di) j = if j =? k then F else dslot d di j) as Hs.
  { apply (slot_set_addr (on d) (on d) (ino di) k F); [apply Hb|done|by rewrite Es|lia|apply (im_zero _ _ Hi); lia|done]. }
  assert (dslot d (di_set_addr k F di) k = F) as Ek by (rewrite Hs, Z.eqb_refl by done; done).
  split_and!; [|rewrite Ek; lia|right; by rewrite Ek, Es].
  apply (grows_attach d F di c d _ k); try done; [by apply (img_more d F); [|lia]|cbn; rewrite length_insert; apply Hb|by rewrite Es|].
  intros _. apply (im_zero _ _ Hi). lia.
Qed.

Lemma rsect_spec d F F' n b (Q : list Z -> mkst -> Prop) :
  img_ok d F -> 0 <= b < F' -> (b < k_size -> Q (rd d b) (Mkst d F' F' n)) ->
  wpe (rsect b) Q mk_error (Mkst d F' F' n).
Proof.
  intros Hi Hb HQ. unfold rsect. do 2 wstep. cbn [k_img]. destruct (d !! (ROOTDEV, b)) as [x|] eqn:E.
  - wstep. destruct (rd_some d F b x Hi E) as [Hr Ex]. rewrite <- Ex. apply HQ. lia.
  - apply wpe_panic. left. split; [done|]. cbn. destruct (Z.lt_ge_cases b k_size) as [Hlt|]; [|lia].
    destruct (im_dom _ _ Hi b) as [_ Hx]. destruct Hx as [x Hx]; [lia|]. by rewrite Hx in E.
Qed.

(** An entry of the indirect block. *)
Lemma need_entry_spec d F n di c e (ind := dslot d di NDIRECT) :
  holds_bytes d di F c -> img_ok d F -> 0 <= e < NINDIRECT -> ind <> 0 -> F < 2 ^ 32 ->
  wpe (need_entry ind e) (fun x s' => exists d' F', s' = Mkst d' F' F' n /\ grows d F di c d' F' di c /\
    x = dslot d' di (NDIRECT + 1 + e) /\ x <> 0 /\
    (F' = F /\ dslot d di (NDIRECT + 1 + e) <> 0 \/ F' = F + 1 /\ x = F)) mk_error (Mkst d F F n).
Proof.
  intros Hb Hi He Hind HF2. pose proof (im_F _ _ Hi) as HF. destruct (hb_slot _ _ _ _ Hb NDIRECT) as [Hi1 Hi2]; [done|done|].
  fold ind in Hi1, Hi2. unfold DATA in *. unfold need_entry. apply wpe_bind, (rsect_spec d F); [done|lia|]. intros Hlt.
  assert (dslot d di (NDIRECT + 1 + e) = get32 (4 * e) (rd d ind)) as Es.
  { unfold slot. change NINDIRECT with 128 in He. change NDIRECT with 11. rewrite (proj2 (Z.ltb_ge (11 + 1 + e) (11 + 1))) by lia.
    change (nthb (i_addrs (ino di)) 11) with ind. rewrite (proj2 (Z.eqb_neq ind 0)) by done.
    replace (11 + 1 + e - (11 + 1)) with e by lia. done. }
  destruct (Z.eqb_spec (get32 (4 * e) (rd d ind)) 0) as [E0|E0].
  2: { wstep. exists d, F. split_and!; [done|by apply grows_refl|done|done|left; by rewrite Es]. }
  apply wpe_wp. wstep. apply take_block_spec. cbv beta. unfold wsect. do 3 wstep.
  set (d' := <[(ROOTDEV, ind) := put32 (4 * e) F (rd d ind)]> d). exists d', (F + 1). split; [done|].
  assert (is_block (rd d ind)) as Hblk by (apply (im_block _ _ Hi); lia).
  assert (forall j, 0 <= j < NSLOT -> dslot d' di j = if j =? NDIRECT + 1 + e then F else dslot d di j) as Hs.
  { apply (slot_put_entry (on d) (on d') (ino di) e F); [done..|lia|].
    change (rd d' ind = put32 (4 * e) F (rd d ind)). unfold d'. by rewrite rd_insert, decide_True. }
  assert (0 <= NDIRECT + 1 + e < NSLOT) as HeN by (change NSLOT with 140; change (NDIRECT + 1) with 12; change NINDIRECT with 128 in He; lia).
  split_and!; [|by rewrite Hs, Z.eqb_refl by done|lia|by right].
  apply (grows_attach d F di c d' di (NDIRECT + 1 + e)); try done.
  - apply img_write; [by apply (img_more d F); [|lia]|lia|lia|]. destruct Hblk as [Hl1 Hl2].
    split; [by rewrite length_put32|by apply Forall_put32].
  - apply Hb.
  - by destruct di.
  - by rewrite Es.
  - intros _. unfold d'. rewrite rd_insert, decide_False by lia. apply (im_zero _ _ Hi). lia.
  - intros b Hb' Hne. unfold d'. rewrite rd_insert, decide_False; [done|]. intros <-. by apply Hne.
Qed.

(** The block for the next bytes of the file. *)
Lemma append_block_spec d F n di c fbn :
  holds_bytes d di F c -> img_ok d F -> F <= k_size -> 0 <= fbn < MAXFILE ->
  wpe (append_block fbn di) (fun r s' => exists d' F', s' = Mkst d' F' F' n /\ grows d F di c d' F' r.2 c /\
    r.1 = dslot d' r.2 (pos fbn) /\ r.1 <> 0 /\ (F' = F \/ r.1 = F' - 1)) mk_error (Mkst d F F n).
Proof.
  intros Hb Hi HF Hf. change MAXFILE with 139 in Hf. unfold append_block, pos. change NDIRECT with 11.
  destruct (Z.ltb_spec fbn 11) as [Hd|Hd].
  - wcall (need_addr_spec d F n di c fbn Hb Hi); [change (NDIRECT + 1) with 12; lia|]. cbv beta.
    intros di' s' (F' & -> & Hg & Hnz & Hcase). wstep. exists d, F'. cbn [fst snd].
    assert (nthb (di_addrs di') fbn = dslot d di' fbn) as ->.
    { unfold slot. by rewrite (proj2 (Z.ltb_lt fbn (NDIRECT + 1))) by (change (NDIRECT + 1) with 12; lia). }
    split_and!; [done..|]. destruct Hcase as [[-> _]|(-> & -> & _)]; [by left|right; lia].
  - change 11 with NDIRECT. wcall (need_addr_spec d F n di c NDIRECT Hb Hi); [done|]. cbv beta.
    intros di' s' (F1 & -> & Hg & Hnz & Hcase). change (nthb (di_addrs di') NDIRECT) with (dslot d di' NDIRECT).
    apply wpe_bind. eapply wpe_mono; [apply (need_entry_spec d F1 n di' c (fbn - NDIRECT))|..]; [apply Hg|apply Hg| |done| | |done].
    { change NINDIRECT with 128. change NDIRECT with 11. lia. }
    { unfold k_size in HF. lia. }
    cbv beta. intros x s' (d' & F' & -> & Hg' & Hx & Hxnz & Hcase'). wstep. exists d', F'. cbn [fst snd].
    replace (NDIRECT + 1 + (fbn - NDIRECT)) with (fbn + 1) in * by lia.
    split_and!; [done|by eapply grows_trans|done|done|].
    destruct Hcase' as [[-> He]|[-> ->]]; [|right; lia]. destruct Hcase as [[-> ->]|(-> & EF & _)]; [by left|].
    exfalso. apply He. unfold slot. change NDIRECT with 11 in *. rewrite (proj2 (Z.ltb_ge (fbn + 1) (11 + 1))) by lia.
    change (nthb (i_addrs (ino di')) 11) with (dslot d di' 11). rewrite EF.
    assert (F <> 0) as HFz by (pose proof (im_F _ _ Hi); unfold DATA in *; lia). rewrite (proj2 (Z.eqb_neq F 0) HFz).
    change (sector_of (on d) (i_dev (ino di')) F) with (rd d F). rewrite (im_zero _ _ Hi) by lia. apply get32_zeros.
Qed.

(** Writing the bytes [q] behind the end. *)
Lemma grows_write d F di c q x (off := Z.of_nat (length c)) :
  holds_bytes d di F c -> img_ok d F -> off / BSIZE < MAXFILE -> x = dslot d di (pos (off / BSIZE)) -> x <> 0 ->
  x < k_size -> Z.of_nat (length q) <= BSIZE - off mod BSIZE -> Forall is_byte q ->
  grows d F di c (<[(ROOTDEV, x) := splice (off mod BSIZE) q (rd d x)]> d) F di (c ++ q).
Proof.
  intros Hb Hi Hf Ex Hx Hlt Hq Hby. set (d' := <[_ := _]> d). assert (0 <= off / BSIZE) as Hf0 by (apply Z.div_pos; [lia|done]).
  pose proof (Z.div_mod off BSIZE ltac:(done)) as Hdm. pose proof (off_mod off) as Hm.
  destruct (pos_range (off / BSIZE)) as [Hp HpN]; [lia|]. pose proof Hb as [Hl Hsl Hinj Hbytes].
  destruct (Hsl _ Hp ltac:(congruence)) as [Hx1 Hx2]. rewrite <- Ex in Hx1, Hx2. unfold DATA in Hx1.
  assert (is_block (rd d x)) as Hblk by (apply (im_block _ _ Hi); lia). pose proof (is_block_len _ Hblk) as Hlen.
  assert (forall b, x <> b -> rd d' b = rd d b) as Hne by (intros b ?; unfold d'; by rewrite rd_insert, decide_False).
  assert (forall k, 0 <= k < NSLOT -> dslot d' di k = dslot d di k) as Hs.
  { intros k Hk. unfold slot. destruct (k <? NDIRECT + 1); [done|]. destruct (Z.eqb_spec (nthb (i_addrs (ino di)) NDIRECT) 0); [done|].
    f_equal. apply Hne. intros E. apply HpN. symmetry. apply Hinj; [done..|]. rewrite <- Ex. symmetry. exact E. }
  split; [split| |lia| | |by destruct di].
  - done.
  - intros k Hk. rewrite Hs by done. by apply Hsl.
  - intros k k' Hk Hk'. rewrite !Hs by done. by apply Hinj.
  - intros o Ho. rewrite (fbyte_write (on d) (on d') (ino di) (off / BSIZE) x (splice (off mod BSIZE) q (rd d x)));
      [|lia|by symmetry|done|exact Hs|exact Hinj| |exact Hne|exact Ho].
    2: { change (rd d' x = splice (off mod BSIZE) q (rd d x)). unfold d'. by rewrite rd_insert, decide_True. }
    pose proof (Z.div_mod o BSIZE ltac:(done)) as Hdo. pose proof (off_mod o) as Hmo. rewrite nthb_app by lia. fold off.
    destruct (Z.eqb_spec (o / BSIZE) (off / BSIZE)) as [Eo|Eo].
    + rewrite Eo in Hdo. destruct (Z.ltb_spec o off).
      * rewrite nthb_splice_out by lia. rewrite <- Hbytes by lia. unfold fbyte. rewrite Eo, <- Ex, (proj2 (Z.eqb_neq x 0)) by done. done.
      * destruct (Z.lt_ge_cases (o - off) (Z.of_nat (length q))) as [Hin|Hout].
        -- rewrite nthb_splice_in by lia. f_equal. lia.
        -- rewrite nthb_splice_out, (nthb_ge q) by lia. transitivity (fbyte (on d) (ino di) o).
           ++ unfold fbyte. rewrite Eo, <- Ex, (proj2 (Z.eqb_neq x 0)) by done. done.
           ++ rewrite Hbytes by lia. apply nthb_ge. fold off. lia.
    + rewrite Hbytes by lia. destruct (Z.ltb_spec o off); [done|]. rewrite !nthb_ge; [done| |fold off; lia].
      assert (off / BSIZE < o / BSIZE). { assert (off / BSIZE <= o / BSIZE) by (apply Z.div_le_mono; [done|lia]). lia. }
      change BSIZE with 512 in *. lia.
  - apply img_write; [done|lia|lia|]. by apply is_block_splice.
  - intros b Hb' Hno. apply Hne. intros <-. apply Hno. split; [done|]. by exists (pos (off / BSIZE)).
  - intros b (Hnz & k & Hk & ->). rewrite Hs in Hnz |- * by done. left. split; [done|]. by exists k.
Qed.

Lemma iappend_loop n f : forall d F di c p,
  holds_bytes d di F c -> img_ok d F -> F <= k_size -> Forall is_byte p -> (length p < f)%nat ->
  wpe (while_fuel f iappend_step (Z.of_nat (length c), p, di)) (fun r s' => exists d' F',
    s' = Mkst d' F' F' n /\ F' <= k_size /\ r.1 = Z.of_nat (length (c ++ p)) /\
    r.1 <= Z.max (Z.of_nat (length c)) (MAXFILE * BSIZE) /\ grows d F di c d' F' r.2 (c ++ p)) mk_error (Mkst d F F n).
Proof.
  induction f as [|f IH]; intros d F di c p Hb Hi HF Hp Hlen; [lia|]. rewrite while_fuel_S. apply wpe_bind.
  destruct p as [|y p].
  { cbn [iappend_step]. do 2 wstep. exists d, F. cbn [fst snd]. rewrite app_nil_r. split_and!; [done|done|done|lia|by apply grows_refl]. }
  set (q := y :: p) in *. assert (0 < Z.of_nat (length q)) as Hq by (unfold q; cbn; lia). set (off := Z.of_nat (length c)).
  cbn [iappend_step]. fold q. change 512 with BSIZE. pose proof (Z.div_mod off BSIZE ltac:(done)) as Hdm. pose proof (off_mod off) as Hm.
  destruct (Z.ltb_spec (off / BSIZE) MAXFILE) as [Hf|Hf]; cbn [negb]; [|apply wpe_panic; by right].
  assert (0 <= off / BSIZE) as Hf0 by (apply Z.div_pos; [lia|done]).
  apply wpe_bind. eapply wpe_mono; [apply (append_block_spec d F n di c (off / BSIZE) Hb Hi HF); lia| |done].
  cbv beta. intros [x di1] s1 (d1 & F1 & -> & Hg & Ex & Hx & HF1). cbn [fst snd] in *.
  pose proof Hg as [Hb1 Hi1 HFF _ _ _]. destruct (pos_range (off / BSIZE)) as [Hps _]; [lia|].
  destruct (hb_slot _ _ _ _ Hb1 _ Hps ltac:(congruence)) as [Hx1 Hx2]. rewrite <- Ex in Hx1, Hx2. unfold DATA in Hx1.
  apply wpe_bind, (rsect_spec d1 F1); [done|lia|]. intros Hxk. apply wpe_wp. unfold wsect. do 3 wstep.
  set (n1 := Z.min (Z.of_nat (length q)) ((off / BSIZE + 1) * BSIZE - off)).
  assert (n1 = Z.min (Z.of_nat (length q)) (BSIZE - off mod BSIZE)) as En1 by (unfold n1; lia).
  replace (off - off / BSIZE * BSIZE) with (off mod BSIZE) by lia.
  assert (Z.of_nat (length (take (Z.to_nat n1) q)) = n1) as Elen by (rewrite length_take; lia).
  assert (grows d1 F1 di1 c (<[(ROOTDEV, x) := splice (off mod BSIZE) (take (Z.to_nat n1) q) (rd d1 x)]> d1) F1 di1 (c ++ take (Z.to_nat n1) q)) as Hg2.
  { apply grows_write; [done|done|exact Hf|exact Ex|done|done|fold off; lia|by apply Forall_take]. }
  set (d2 := <[_ := _]> d1) in *. set (c2 := c ++ take (Z.to_nat n1) q) in *.
  assert (off + n1 = Z.of_nat (length c2)) as -> by (unfold c2; rewrite length_app; lia).
  assert (c ++ q = c2 ++ drop (Z.to_nat n1) q) as -> by (unfold c2; by rewrite <- app_assoc, take_drop).
  change (wpe (while_fuel f iappend_step (Z.of_nat (length c2), drop (Z.to_nat n1) q, di1)) (fun r s' => exists d' F',
    s' = Mkst d' F' F' n /\ F' <= k_size /\ r.1 = Z.of_nat (length (c2 ++ drop (Z.to_nat n1) q)) /\
    r.1 <= Z.max off (MAXFILE * BSIZE) /\ grows d F di c d' F' r.2 (c2 ++ drop (Z.to_nat n1) q)) mk_error (Mkst d2 F1 F1 n)).
  eapply wpe_mono; [apply (IH d2 F1 di1 c2); [apply Hg2|apply Hg2|lia|by apply Forall_drop|rewrite length_drop; lia]| |done].
  cbv beta. intros r s' (d' & F' & -> & HF' & Er & Hmax & Hg3). exists d', F'. split_and!; [done..| |].
  - assert (Z.of_nat (length c2) <= MAXFILE * BSIZE); [|lia]. unfold c2. rewrite length_app.
    change BSIZE with 512 in *. change MAXFILE with 139 in *. lia.
  - eapply grows_trans; [exact Hg|]. by eapply grows_trans.
Qed.
End file.
