(* ===== verification/MkfsImage.v ===== *)
(** * The image builder on abstract inodes

    The state of [mkfs] (tools/mkfs.c) as a list of inodes with type and
    content: [ialloc] adds an empty inode, [iappend] appends to a content and
    [add_dir] builds a tree.  The finished image has the superblock, bitmap
    and inodes the kernel's file system expects. *)

From S2P Require Import Prelude Monad Params CString Ulib ProcTable Ide Bio Block Alloc.
From S2P Require Import Inode Bmap Icache Content Mkfs MkfsSpec.

Section image.
Context (s0 : bio).
#[local] Notation on := (on s0).
#[local] Notation own := (own s0).
#[local] Notation holds_bytes := (holds_bytes s0).
#[local] Notation grows := (grows s0).
#[local] Notation dslot d di := (slot (on d) (ino di)).

(** ** The abstract image *)

(** Inode [k + 1] is entry [k] of the list. *)
Definition inum (k : nat) : Z := Z.of_nat k + 1.
Definition dino (d : gmap (Z * Z) (list Z)) (k : nat) : dinode :=
  dinode_at (inum k mod IPB) (rd d (i2b (inum k))).

Definition sb_block : list Z :=
  splice 0 (le_enc 4 k_size ++ le_enc 4 k_nblocks ++ le_enc 4 k_ninodes) (zeros BLOCK_SIZE).

Definition MAXSIZE : Z := MAXFILE * BSIZE.

Record image (A : list (Z * list Z)) (d : gmap (Z * Z) (list Z)) (F : Z) : Prop := {
  ia_img : img_ok d F;
  ia_F : F <= k_size;
  ia_sb : rd d 1 = sb_block;
  ia_len : Z.of_nat (length A) < k_ninodes;
  ia_free : forall k, A !! k = None -> Z.of_nat k < k_ninodes -> di_type (dino d k) = 0;
  ia_type : forall k ty c, A !! k = Some (ty, c) -> is_short ty /\ Z.of_nat (length c) <= MAXSIZE;
  ia_ino : forall k ty c, A !! k = Some (ty, c) ->
    dino d k = Dinode ty 0 0 1 (Z.of_nat (length c)) (di_addrs (dino d k)) 0 /\ holds_bytes d (dino d k) F c;
  ia_apart : forall k k' b, (k < length A)%nat -> (k' < length A)%nat -> k <> k' ->
    own d (dino d k) b -> ~ own d (dino d k') b;
}.

(** ** Frames *)

Lemma slot_frame d d' di :
  (forall b, own d di b -> rd d' b = rd d b) -> forall k, 0 <= k < NSLOT -> dslot d' di k = dslot d di k.
Proof.
  intros H k Hk. unfold slot. destruct (k <? NDIRECT + 1); [done|].
  destruct (Z.eqb_spec (nthb (i_addrs (ino di)) NDIRECT) 0) as [|Hne]; [done|]. f_equal. apply H.
  split; [done|]. by exists NDIRECT.
Qed.

Lemma own_frame d d' di : (forall b, own d di b -> rd d' b = rd d b) -> forall b, own d' di b <-> own d di b.
Proof.
  intros H b. pose proof (slot_frame d d' di H) as Hs. unfold own.
  split; intros (Hb & k & Hk & ->); (split; [done|]); exists k; (split; [done|]); [|symmetry]; by apply Hs.
Qed.

Lemma bytes_frame d d' di F F' c :
  holds_bytes d di F c -> (forall b, own d di b -> rd d' b = rd d b) -> F <= F' -> holds_bytes d' di F' c.
Proof.
  intros [Hl Hsl Hinj Hby] H HF. pose proof (slot_frame d d' di H) as Hs. split; [done|..].
  - intros k Hk. rewrite Hs by done. intros Hnz. specialize (Hsl k Hk Hnz). lia.
  - intros k k' Hk Hk'. rewrite !Hs by done. by apply Hinj.
  - intros o Ho. rewrite <- Hby by done. destruct (pos_range _ (off_block o Ho)) as [Hp _]. unfold fbyte.
    rewrite Hs by done. destruct (Z.eqb_spec (dslot d di (pos (o / BSIZE))) 0) as [|Hne]; [done|].
    f_equal. apply H. split; [done|]. by exists (pos (o / BSIZE)).
Qed.

Lemma bytes_ext d di F c c' :
  holds_bytes d di F c -> (forall o, 0 <= o -> nthb c' o = nthb c o) -> holds_bytes d di F c'.
Proof. intros [Hl Hsl Hinj Hby] E. split; [done..|]. intros o Ho. rewrite E by lia. by apply Hby. Qed.

(** Blocks of a file lie behind the inodes. *)
Lemma own_data d di F c b : holds_bytes d di F c -> own d di b -> DATA <= b < F.
Proof. intros Hb (Hnz & k & Hk & ->). by apply (hb_slot _ _ _ _ _ Hb). Qed.

Lemma i2b_range k : Z.of_nat k < k_ninodes -> 2 <= i2b (inum k) < DATA - 1.
Proof.
  intros Hk. unfold i2b, inum, k_ninodes, DATA in *. change IPB with 8.
  assert (0 <= (Z.of_nat k + 1) / 8) by (apply Z.div_pos; lia).
  assert ((Z.of_nat k + 1) / 8 < 26) by (apply Z.div_lt_upper_bound; lia). lia.
Qed.

(** Two inodes are in different blocks or different places of a block. *)
Lemma inum_place k k' :
  k <> k' -> i2b (inum k) <> i2b (inum k') \/ inum k mod IPB <> inum k' mod IPB.
Proof.
  intros Hne. destruct (decide (inum k mod IPB = inum k' mod IPB)) as [E|]; [|by right]. left. unfold i2b. intros E2.
  apply Hne. pose proof (Z.div_mod (inum k) IPB ltac:(done)). pose proof (Z.div_mod (inum k') IPB ltac:(done)).
  unfold inum in *. lia.
Qed.

(** ** Writing an inode *)

(** The disk after [winode]. *)
Definition put_inode (k : nat) (di : dinode) (d : gmap (Z * Z) (list Z)) : gmap (Z * Z) (list Z) :=
  <[(ROOTDEV, i2b (inum k)) := splice (inum k mod IPB * sizeof_dinode) (dinode_image di) (rd d (i2b (inum k)))]> d.

Lemma rd_put k di d b : b <> i2b (inum k) -> rd (put_inode k di d) b = rd d b.
Proof. intros H. unfold put_inode. by rewrite rd_insert, decide_False. Qed.

Lemma dino_put k di d F :
  di_wf di -> img_ok d F -> Z.of_nat k < k_ninodes ->
  dino (put_inode k di d) k = di /\ forall k', k' <> k -> dino (put_inode k di d) k' = dino d k'.
Proof.
  intros Hw Hi Hk. pose proof (i2b_range k Hk) as Hr. unfold DATA in Hr.
  assert (is_block (rd d (i2b (inum k)))) as Hblk by (apply (im_block _ _ Hi); unfold k_size; lia).
  unfold dino, put_inode. split.
  - rewrite rd_insert, decide_True by done. apply dinode_at_image; [done|by apply Z.mod_pos_bound|done].
  - intros k' Hne. rewrite rd_insert. destruct (decide (i2b (inum k) = i2b (inum k'))) as [E|E]; [|done].
    rewrite <- E. destruct (inum_place k k') as [?|Hm]; [done|done|].
    apply dinode_at_image_ne; [done|by apply Z.mod_pos_bound|by apply Z.mod_pos_bound|done].
Qed.

Lemma img_put k di d F : di_wf di -> img_ok d F -> Z.of_nat k < k_ninodes -> img_ok (put_inode k di d) F.
Proof.
  intros Hw Hi Hk. pose proof (i2b_range k Hk) as Hr. pose proof (im_F _ _ Hi). unfold DATA in *.
  apply img_write; [done|unfold k_size; lia|lia|]. apply is_block_splice; [apply (im_block _ _ Hi); unfold k_size; lia|].
  apply Forall_dinode_image.
Qed.

Lemma winode_spec k di d F n :
  img_ok d F -> Z.of_nat k < k_ninodes ->
  wp (winode (inum k) di) (fun _ s' => s' = Mkst (put_inode k di d) F F n) (Mkst d F F n).
Proof.
  intros Hi Hk. pose proof (i2b_range k Hk) as Hr. unfold DATA in Hr. destruct (im_dom _ _ Hi (i2b (inum k))) as [_ Hx].
  destruct Hx as [x Hx]; [unfold k_size; lia|]. destruct (rd_some d F _ x Hi Hx) as [_ Ex].
  unfold winode, rsect, wsect. do 3 wstep. cbn [k_img]. rewrite Hx. do 2 wstep. cbn. unfold put_inode. by rewrite Ex.
Qed.

Lemma rinode_spec k d F n :
  img_ok d F -> Z.of_nat k < k_ninodes ->
  wp (rinode (inum k)) (fun di s' => di = dino d k /\ s' = Mkst d F F n) (Mkst d F F n).
Proof.
  intros Hi Hk. pose proof (i2b_range k Hk) as Hr. unfold DATA in Hr. destruct (im_dom _ _ Hi (i2b (inum k))) as [_ Hx].
  destruct Hx as [x Hx]; [unfold k_size; lia|]. destruct (rd_some d F _ x Hi Hx) as [_ Ex].
  unfold rinode, rsect. do 3 wstep. cbn [k_img]. rewrite Hx. do 2 wstep. unfold dino. by rewrite Ex.
Qed.

(** ** One inode changes *)

Lemma slot_low d di k : 0 <= k < NDIRECT + 1 -> dslot d di k = nthb (di_addrs di) k.
Proof. intros Hk. unfold slot. by rewrite (proj2 (Z.ltb_lt k (NDIRECT + 1))) by lia. Qed.

Lemma inode_ok d F ty c ad :
  is_short ty -> Z.of_nat (length c) <= MAXSIZE -> F <= k_size ->
  (forall z, holds_bytes d (Dinode ty 0 0 1 z ad 0) F c -> di_wf (Dinode ty 0 0 1 (Z.of_nat (length c)) ad 0)).
Proof.
  intros Hty Hc HF z Hb. pose proof (hb_len _ _ _ _ _ Hb) as Hl. cbn in Hl. split; [|split; cbn; lia].
  split; cbn; try (split; lia); [done| |done|].
  - unfold MAXSIZE in Hc. split; [lia|]. change (MAXFILE * BSIZE) with 71168 in Hc. lia.
  - apply Forall_lookup. intros j x Hx. pose proof (lookup_lt_Some _ _ _ Hx) as Hj. rewrite Hl in Hj. change (Z.to_nat (NDIRECT + 1)) with 12%nat in Hj.
    assert (dslot d (Dinode ty 0 0 1 z ad 0) (Z.of_nat j) = x) as E.
    { rewrite slot_low by (change (NDIRECT + 1) with 12; lia). cbn. unfold nthb. by rewrite Nat2Z.id, Hx. }
    destruct (decide (x = 0)) as [->|Hne]; [split; lia|].
    destruct (hb_slot _ _ _ _ _ Hb (Z.of_nat j)) as [H1 H2]; [change NSLOT with 140; lia|by rewrite E|].
    rewrite E in H1, H2. unfold DATA, k_size in *. split; lia.
Qed.

(** Inode [k] gets the content [c]: its own blocks and fresh blocks may
    change, the others do not. *)
Lemma image_set A A' d F k d1 F1 ad ty c z :
  image A d F -> Z.of_nat (length A') < k_ninodes -> A' !! k = Some (ty, c) ->
  (forall j, j <> k -> A' !! j = A !! j) -> is_short ty -> Z.of_nat (length c) <= MAXSIZE ->
  img_ok d1 F1 -> F <= F1 <= k_size -> holds_bytes d1 (Dinode ty 0 0 1 z ad 0) F1 c ->
  (forall b, b < F -> ((k < length A)%nat -> ~ own d (dino d k) b) -> rd d1 b = rd d b) ->
  (forall b, own d1 (Dinode ty 0 0 1 z ad 0) b -> (k < length A)%nat /\ own d (dino d k) b \/ F <= b) ->
  image A' (put_inode k (Dinode ty 0 0 1 (Z.of_nat (length c)) ad 0) d1) F1.
Proof.
  intros [Himg HF Hsb Hlen Hfree Hty Hino Hap] Hlen' Hk Hj Hst Hc Hi1 HF1 Hb1 Hsame Hown.
  set (di := Dinode ty 0 0 1 (Z.of_nat (length c)) ad 0).
  assert (Z.of_nat k < k_ninodes) as Hkn by (apply lookup_lt_Some in Hk; lia).
  assert (di_wf di) as Hw by by apply (inode_ok d1 F1 ty c ad Hst Hc (proj2 HF1) z).
  destruct (dino_put k di d1 F1 Hw Hi1 Hkn) as [Ek Ene]. pose proof (i2b_range k Hkn) as Hr. pose proof (im_F _ _ Himg) as HFD.
  set (d' := put_inode k di d1) in *.
  assert (holds_bytes d1 di F1 c) as Hbd by (by destruct Hb1; split).
  assert (forall b, DATA <= b -> rd d' b = rd d1 b) as Hput by (intros b Hb; apply rd_put; lia).
  assert (forall b, own d1 di b -> rd d' b = rd d1 b) as Hfk by (intros b Ho; apply Hput; by destruct (own_data _ _ _ _ _ Hbd Ho)).
  assert (forall b, (k < length A)%nat -> own d (dino d k) b -> DATA <= b < F) as Hok.
  { intros b [[ty0 c0] E]%lookup_lt_is_Some_2 Ho. destruct (Hino _ _ _ E) as [_ Hb]. by apply (own_data _ _ _ _ _ Hb). }
  assert (forall b, b < DATA -> rd d1 b = rd d b) as Hlow.
  { intros b Hb. apply Hsame; [lia|]. intros Hk' Ho. specialize (Hok b Hk' Ho). lia. }
  assert (forall j, j <> k -> Z.of_nat j < k_ninodes -> dino d' j = dino d j) as Hlo.
  { intros j Hne Hjn. rewrite Ene by done. unfold dino. rewrite Hlow; [done|]. destruct (i2b_range j); lia. }
  assert (forall j tj cj, j <> k -> A !! j = Some (tj, cj) -> dino d' j = dino d j /\ forall b, own d (dino d j) b -> rd d' b = rd d b) as Hoth.
  { intros j tj cj Hne E. pose proof (lookup_lt_Some _ _ _ E) as Hjl. split.
    - apply Hlo; [done|lia].
    - intros b Ho. destruct (Hino _ _ _ E) as [_ Hb]. pose proof (own_data _ _ _ _ _ Hb Ho) as Hr'. rewrite Hput by lia.
      apply Hsame; [lia|]. intros Hk'. by apply (Hap j k). }
  assert (forall j tj cj b, j <> k -> A !! j = Some (tj, cj) -> own d' (dino d' j) b -> ~ own d1 di b) as Hap'.
  { intros j tj cj b Hne E Ho Ho'. destruct (Hoth _ _ _ Hne E) as [Ed Hfr]. rewrite Ed, own_frame in Ho by done.
    destruct (Hino _ _ _ E) as [_ Hb]. pose proof (own_data _ _ _ _ _ Hb Ho). destruct (Hown b Ho') as [[Hk' Hok']|]; [|lia].
    apply (Hap j k b); try done. by eapply lookup_lt_Some. }
  split.
  - by apply img_put.
  - lia.
  - unfold d'. rewrite rd_put by lia. rewrite Hlow; [done|unfold DATA; lia].
  - done.
  - intros j Hjn Hjk. destruct (decide (j = k)) as [->|Hne]; [congruence|]. rewrite Hlo by done. apply Hfree; [|done]. by rewrite <- Hj.
  - intros j tj cj E. destruct (decide (j = k)) as [->|Hne]; [by simplify_eq|]. rewrite Hj in E by done. by eapply Hty.
  - intros j tj cj E. destruct (decide (j = k)) as [->|Hne].
    + assert (tj = ty /\ cj = c) as [-> ->] by (split; congruence). rewrite Ek. split; [done|]. by apply (bytes_frame d1 d' di F1 F1); [..|lia].
    + rewrite Hj in E by done. destruct (Hoth _ _ _ Hne E) as [Ed Hfr]. rewrite Ed. destruct (Hino _ _ _ E) as [E1 E2].
      split; [done|]. by apply (bytes_frame d d' _ F F1); [..|lia].
  - intros j j' b [[tj cj] Ej]%lookup_lt_is_Some_2 [[tj' cj'] Ej']%lookup_lt_is_Some_2 Hne Ho Ho'.
    destruct (decide (j = k)) as [->|Hjk]; [|destruct (decide (j' = k)) as [->|Hjk']].
    + rewrite Ek, own_frame in Ho by done. rewrite Hj in Ej' by done. by apply (Hap' j' tj' cj' b).
    + rewrite Ek, own_frame in Ho' by done. rewrite Hj in Ej by done. by apply (Hap' j tj cj b).
    + rewrite Hj in Ej, Ej' by done. destruct (Hoth _ _ _ Hjk Ej) as [E1 F1'], (Hoth _ _ _ Hjk' Ej') as [E2 F2].
      rewrite E1, own_frame in Ho by done. rewrite E2, own_frame in Ho' by done.
      apply (Hap j j' b); try done; by eapply lookup_lt_Some.
Qed.

(** An inode without blocks. *)
Lemma empty_slot d ty k : 0 <= k < NSLOT -> dslot d (Dinode ty 0 0 1 0 (zeros (NDIRECT + 1)) 0) k = 0.
Proof. intros Hk. unfold slot. cbn [ino i_load i_addrs di_addrs]. rewrite !nthb_zeros. cbn. by destruct (k <? _). Qed.

Lemma empty_holds d F ty : holds_bytes d (Dinode ty 0 0 1 0 (zeros (NDIRECT + 1)) 0) F [].
Proof.
  split; [done|..].
  - intros k Hk. by rewrite empty_slot.
  - intros k k' Hk Hk'. by rewrite empty_slot.
  - intros o Ho. destruct (pos_range _ (off_block o Ho)) as [Hp _]. unfold fbyte. rewrite empty_slot by done. cbn. rewrite nthb_ge by (cbn; lia). done.
Qed.

(** ** Operations *)

#[local] Notation st A d F := (Mkst d F F (inum (length A))).

Lemma mk_ialloc_spec A d F ty :
  image A d F -> is_short ty -> Z.of_nat (length A) + 1 < k_ninodes ->
  wp (mk_ialloc ty) (fun r s' => r = inum (length A) /\ exists d', s' = st (A ++ [(ty, [])]) d' F /\ image (A ++ [(ty, [])]) d' F)
    (st A d F).
Proof.
  intros Hi Hty Hlen. set (k := length A). set (A' := A ++ _). unfold mk_ialloc. do 5 wstep. cbn [k_freeinode].
  eapply wp_mono; [apply (winode_spec k _ d F); [apply Hi|lia]|]. cbv beta. intros _ s' ->. wstep. split; [done|]. eexists.
  split; [unfold A', inum; rewrite length_app; cbn [length]; do 2 f_equal; lia|].
  apply (image_set A A' d F k d F (zeros (NDIRECT + 1)) ty [] 0); try done.
  - unfold A'. rewrite length_app. cbn. lia.
  - unfold A', k. by rewrite lookup_app_r, Nat.sub_diag by lia.
  - intros j Hj. unfold A'. destruct (Nat.lt_ge_cases j k) as [?|?]; [by rewrite lookup_app_l|].
    rewrite !lookup_ge_None_2; [done|fold k; lia|rewrite length_app; fold k; cbn; lia].
  - apply Hi.
  - split; [lia|apply Hi].
  - apply empty_holds.
  - intros b (Hnz & j & Hj & ->). by rewrite empty_slot in Hnz.
Qed.

Lemma iappend_spec A d F k ty c p :
  image A d F -> A !! k = Some (ty, c) -> Forall is_byte p ->
  wpe (iappend (inum k) p) (fun _ s' => exists d' F', s' = st A d' F' /\ image (<[k := (ty, c ++ p)]> A) d' F')
    mk_error (st A d F).
Proof.
  intros Hi Hk Hp. pose proof (lookup_lt_Some _ _ _ Hk) as Hlt. pose proof (ia_len _ _ _ Hi) as Hlen.
  destruct (ia_ino _ _ _ Hi _ _ _ Hk) as [E Hb]. destruct (ia_type _ _ _ Hi _ _ _ Hk) as [Hty Hc].
  unfold iappend. apply wpe_bind. apply wpe_wp. eapply wp_mono; [apply (rinode_spec k d F); [apply Hi|lia]|]. cbv beta. intros di s' [-> ->].
  rewrite E at 1. cbn [di_size]. apply wpe_bind.
  eapply wpe_mono; [apply (iappend_loop s0 _ (S (length p)) d F (dino d k) c p Hb); [apply Hi|apply Hi|done|lia]| |done].
  cbv beta. intros [off di] s' (d1 & F1 & -> & HF1 & Eoff & Hmax & [Hb1 Hi1 HFF Hsame Hown Edi]). cbn [fst snd] in *.
  apply wpe_wp. eapply wp_mono; [apply (winode_spec k _ d1 F1); [done|lia]|]. cbv beta. intros _ s' ->. eexists _, F1. split; [done|].
  rewrite E in Edi. cbn in Edi. rewrite Edi in Hb1, Hown |- *. unfold di_set_size. cbn. rewrite Eoff.
  apply (image_set A _ d F k d1 F1 _ ty (c ++ p) (Z.of_nat (length c))); try done.
  - by rewrite length_insert.
  - by apply list_lookup_insert_eq.
  - intros j Hj. by rewrite list_lookup_insert_ne.
  - unfold MAXSIZE in *. lia.
  - intros b Hb' Hno. by apply Hsame; [|apply Hno].
  - intros b [Ho|Ho]%Hown; [by left|by right].
Qed.

(** The size of a directory is rounded up. *)
Definition pad (c : list Z) : list Z :=
  c ++ zeros ((Z.of_nat (length c) / BSIZE + 1) * BSIZE - Z.of_nat (length c)).

Lemma length_pad c : Z.of_nat (length (pad c)) = (Z.of_nat (length c) / BSIZE + 1) * BSIZE.
Proof.
  unfold pad. rewrite length_app, length_zeros. pose proof (Z.div_mod (Z.of_nat (length c)) BSIZE ltac:(done)).
  pose proof (off_mod (Z.of_nat (length c))). lia.
Qed.

Lemma fix_dir_size_spec A d F k ty c :
  image A d F -> A !! k = Some (ty, c) -> Z.of_nat (length (pad c)) <= MAXSIZE ->
  wp (fix_dir_size (inum k)) (fun _ s' => exists d', s' = st A d' F /\ image (<[k := (ty, pad c)]> A) d' F) (st A d F).
Proof.
  intros Hi Hk Hp. pose proof (lookup_lt_Some _ _ _ Hk) as Hlt. pose proof (ia_len _ _ _ Hi) as Hlen.
  destruct (ia_ino _ _ _ Hi _ _ _ Hk) as [E Hb]. destruct (ia_type _ _ _ Hi _ _ _ Hk) as [Hty Hc].
  unfold fix_dir_size. wstep. eapply wp_mono; [apply (rinode_spec k d F); [apply Hi|lia]|]. cbv beta. intros di s' [-> ->].
  eapply wp_mono; [apply (winode_spec k _ d F); [apply Hi|lia]|]. cbv beta. intros _ s' ->. eexists. split; [done|].
  rewrite E in Hb |- *. unfold di_set_size. cbn. rewrite <- length_pad.
  apply (image_set A _ d F k d F _ ty (pad c) (Z.of_nat (length c))); try done.
  - by rewrite length_insert.
  - by apply list_lookup_insert_eq.
  - intros j Hj. by rewrite list_lookup_insert_ne.
  - apply Hi.
  - split; [lia|apply Hi].
  - apply (bytes_ext _ _ _ c); [done|]. intros o Ho. unfold pad. rewrite nthb_app by done.
    destruct (Z.ltb_spec o (Z.of_nat (length c))); [done|]. rewrite nthb_zeros. by rewrite nthb_ge.
  - intros b Ho. left. split; [done|]. by rewrite E.
Qed.
End image.
