(* ===== verification/MkfsTree.v ===== *)
(** * The tree mkfs writes

    [layout] numbers the files of a host directory in the order [add_dir]
    (tools/mkfs.c) meets them and gives every inode's content.  The program
    [main] of mkfs builds exactly these inodes, and the image satisfies the
    invariants the kernel's file system starts from. *)

From S2P Require Import Prelude Monad Params CString Ulib ProcTable Ide Bio Block Alloc.
From S2P Require Import Lru Inode Bmap Icache Content Walk Mkfs MkfsSpec MkfsImage.

(** ** Reference *)

Definition kind (f : hfile) : Z := match f with HDir _ => T_DIR | HFile _ => T_FILE end.

(** The entries of directory [k] that are written for [es], and the inodes
    from number [n] on; [lay] is [layout]. *)
Section lay_entries.
Variable lay : hfile -> nat -> nat -> nat -> list Z * list (Z * list Z).

Fixpoint lay_entries (es : list (list Z * hfile)) (k n : nat) : list Z * list (Z * list Z) :=
  match es with
  | [] => ([], [])
  | (name, child) :: es =>
      if is_dots name then lay_entries es k n
      else
        let sub := lay child n k (S n) in
        let rest := lay_entries es k (S n + length sub.2)%nat in
        (mk_dirent (inum n) name ++ rest.1, (kind child, sub.1) :: sub.2 ++ rest.2)
  end.
End lay_entries.

(** The content of inode [k] for the file [f] of directory [p], and the
    inodes below it. *)
Fixpoint layout (f : hfile) (k p n : nat) : list Z * list (Z * list Z) :=
  match f with
  | HFile reads => (mjoin reads, [])
  | HDir es =>
      let r := lay_entries layout es k n in
      (pad (mk_dirent (inum k) mk_dot ++ mk_dirent (inum p) mk_dotdot ++ r.1), r.2)
  end.

(** Names and data are bytes. *)
Fixpoint host_ok (f : hfile) : Prop :=
  match f with
  | HFile reads => Forall (Forall is_byte) reads
  | HDir es =>
      (fix ok es := match es with [] => True | (name, child) :: es => (Forall is_byte name /\ host_ok child) /\ ok es end) es
  end.

Lemma host_ok_dir es : host_ok (HDir es) <-> Forall (fun e => Forall is_byte e.1 /\ host_ok e.2) es.
Proof.
  induction es as [|[name child] es IH]; [by split|]. rewrite Forall_cons. cbn [fst snd]. rewrite <- IH. done.
Qed.

(** Induction over a directory and all below it. *)
Lemma hfile_tree_ind (P : hfile -> Prop) :
  (forall reads, P (HFile reads)) -> (forall es, Forall (fun e => P e.2) es -> P (HDir es)) -> forall f, P f.
Proof.
  intros H1 H2. fix IH 1. intros [reads|es]; [apply H1|]. apply H2.
  induction es as [|[name child] es IHes]; constructor; [apply IH|done].
Qed.

(** ** Entries *)

Lemma length_mk_dirent i name : length (mk_dirent i name) = 16%nat.
Proof.
  unfold mk_dirent, dirent_bytes. cbn [de_inum de_name]. rewrite length_app, length_le_enc, length_slice. done.
Qed.

Lemma Forall_mk_dirent i name : Forall is_byte name -> Forall is_byte (mk_dirent i name).
Proof. intros H. apply Forall_app_2; [apply Forall_le_enc|by apply Forall_slice, Forall_strncpy]. Qed.

Lemma length_lay_entries es k n :
  (length (lay_entries layout es k n).1 <= 16 * length (lay_entries layout es k n).2)%nat.
Proof.
  revert n. induction es as [|[name child] es IH]; intros n; [done|]. cbn [lay_entries]. destruct (is_dots name); [apply IH|].
  cbn [fst snd length]. rewrite !length_app, length_mk_dirent. specialize (IH (S n + length (layout child n k (S n)).2)%nat). lia.
Qed.

Section tree.
Context (s0 : bio).
#[local] Notation image := (image s0).
#[local] Notation st A d F := (Mkst d F F (inum (length A))).

(** ** Building a tree *)

(** [m] appends [r.1] to the content [c] of inode [k] and adds the inodes
    [r.2]. *)
Definition builds (m : M mkst unit) (k : nat) (c : list Z) (A : list (Z * list Z)) (r : list Z * list (Z * list Z)) : Prop :=
  forall d F ty, image A d F -> A !! k = Some (ty, c) -> Z.of_nat (length A) + Z.of_nat (length r.2) < k_ninodes ->
  wpe m (fun _ s' => exists d' F', let A' := <[k := (ty, c ++ r.1)]> A ++ r.2 in s' = st A' d' F' /\ image A' d' F')
    mk_error (st A d F).

Lemma builds_seq m1 m2 k c A r1 r2 :
  builds m1 k c A r1 -> (forall ty, builds m2 k (c ++ r1.1) (<[k := (ty, c ++ r1.1)]> A ++ r1.2) r2) ->
  builds (m1;;; m2) k c A (r1.1 ++ r2.1, r1.2 ++ r2.2).
Proof.
  intros H1 H2 d F ty Hi Hk Hlen. cbn [fst snd] in *. rewrite length_app in Hlen. pose proof (lookup_lt_Some _ _ _ Hk) as Hlt.
  apply wpe_bind. eapply wpe_mono; [apply (H1 d F ty); [done|done|lia]| |done]. cbv beta zeta. intros _ s' (d1 & F1 & -> & Hi1).
  eapply wpe_mono; [apply (H2 ty d1 F1 ty Hi1)| |done].
  - rewrite lookup_app_l by (by rewrite length_insert). by apply list_lookup_insert_eq.
  - rewrite length_app, length_insert. lia.
  - cbv beta zeta. rewrite insert_app_l, list_insert_insert_eq, <- !app_assoc by (by rewrite length_insert). done.
Qed.

Lemma builds_ret k c A : builds (ret tt) k c A ([], []).
Proof.
  intros d F ty Hi Hk _. wstep. exists d, F. cbn [fst snd]. rewrite !app_nil_r, list_insert_id by done. done.
Qed.

Lemma builds_iappend k c A p : Forall is_byte p -> builds (iappend (inum k) p) k c A (p, []).
Proof.
  intros Hp d F ty Hi Hk _. cbn [fst snd]. rewrite app_nil_r. eapply wpe_mono; [by apply (iappend_spec s0 A d F k ty c p)| |done].
  cbv beta. intros _ s' (d' & F' & -> & Hi'). exists d', F'. cbv zeta. by rewrite length_insert.
Qed.

Lemma builds_reads k reads : forall c A,
  Forall (Forall is_byte) reads -> builds (for_each reads (iappend (inum k))) k c A (mjoin reads, []).
Proof.
  induction reads as [|x reads IH]; intros c A Hr; [apply builds_ret|]. apply Forall_cons in Hr as [Hx Hr].
  apply (builds_seq _ _ k c A (x, []) (mjoin reads, [])); [by apply builds_iappend|]. intros ty. by apply IH.
Qed.

(** A new file in directory [k]. *)
Lemma builds_child name child k c A (n := length A) (sub := layout child n k (S n)) :
  Forall is_byte name ->
  (forall A', length A' = S n -> builds (add_dir child (inum n) (inum k)) n [] A' sub) ->
  builds (let! i := mk_ialloc (kind child) in add_dir child i (inum k);;; iappend (inum k) (mk_dirent i name)) k c A
    (mk_dirent (inum n) name, (kind child, sub.1) :: sub.2).
Proof.
  intros Hn IH d F ty Hi Hk Hlen. cbn [fst snd length] in *. pose proof (lookup_lt_Some _ _ _ Hk) as Hlt. fold n in Hlt.
  set (A1 := A ++ [(kind child, [])]). assert (length A1 = S n) as El by (unfold A1; rewrite length_app; cbn; fold n; lia).
  apply wpe_bind, wpe_wp. eapply wp_mono; [apply (mk_ialloc_spec s0 A d F (kind child) Hi)|].
  { by destruct child. }
  { fold n. lia. }
  cbv beta. intros i s' (-> & d1 & -> & Hi1). fold A1 n in Hi1 |- *.
  apply wpe_bind. eapply wpe_mono; [apply (IH A1 El d1 F (kind child) Hi1)| |done].
  { unfold A1, n. by rewrite lookup_app_r, Nat.sub_diag by lia. }
  { rewrite El. fold n in Hlen. lia. }
  cbv beta zeta. intros _ s' (d2 & F2 & -> & Hi2). set (A2 := <[n := _]> A1 ++ sub.2) in *.
  assert (A2 = A ++ (kind child, sub.1) :: sub.2) as EA2.
  { unfold A2, A1. rewrite insert_app_r_alt by (fold n; lia). unfold n. rewrite Nat.sub_diag. cbn. by rewrite <- app_assoc. }
  eapply wpe_mono; [apply (iappend_spec s0 A2 d2 F2 k ty c (mk_dirent (inum n) name) Hi2)| |done].
  { rewrite EA2. by rewrite lookup_app_l. }
  { by apply Forall_mk_dirent. }
  cbv beta. intros _ s' (d3 & F3 & -> & Hi3). exists d3, F3. rewrite <- (insert_app_l A) by done. rewrite <- EA2.
  by rewrite length_insert.
Qed.

(** The entries of a directory. *)
Lemma builds_entries k es : forall c A,
  Forall (fun e => Forall is_byte e.1 /\ forall n A', length A' = S n -> builds (add_dir e.2 (inum n) (inum k)) n [] A' (layout e.2 n k (S n))) es ->
  builds (add_entries add_dir es (inum k)) k c A (lay_entries layout es k (length A)).
Proof.
  induction es as [|[name child] es IH]; intros c A Hes; [apply builds_ret|]. apply Forall_cons in Hes as [[Hn Hc] Hes].
  cbn [add_entries lay_entries fst snd] in *. destruct (is_dots name).
  - rewrite (surjective_pairing (lay_entries _ _ _ _)).
    apply (builds_seq (ret tt) _ k c A ([], [])); [apply builds_ret|]. intros ty. cbn [fst snd].
    replace (length A) with (length (<[k:=(ty, c ++ [])]> A ++ [])) by (by rewrite app_nil_r, length_insert). by apply IH.
  - set (n := length A). set (sub := layout child n k (S n)).
    eapply (builds_seq _ _ k c A (mk_dirent (inum n) name, (kind child, sub.1) :: sub.2)).
    + apply builds_child; [done|]. by apply Hc.
    + intros ty. cbn [fst snd]. eassert ((S n + length sub.2)%nat = length (<[k:=_]> A ++ _)) as ->; [|by apply IH].
      rewrite length_app, length_insert. cbn. fold n. lia.
Qed.

(** Directories and files: the inode was empty. *)
Lemma add_dir_builds f : host_ok f -> forall k p A,
  builds (add_dir f (inum k) (inum p)) k [] A (layout f k p (length A)).
Proof.
  induction f as [reads|es IH] using hfile_tree_ind; intros Hh k p A; [by apply builds_reads|].
  apply host_ok_dir in Hh. cbn [add_dir layout]. set (r := lay_entries layout es k (length A)).
  set (e1 := mk_dirent (inum k) mk_dot). set (e2 := mk_dirent (inum p) mk_dotdot).
  assert (builds ((iappend (inum k) e1;;; iappend (inum k) e2);;; add_entries add_dir es (inum k)) k [] A ((e1 ++ e2) ++ r.1, r.2)) as Hb.
  { apply (builds_seq _ _ k [] A (e1 ++ e2, []) r).
    - by apply (builds_seq _ _ k [] A (e1, []) (e2, [])); intros; apply builds_iappend, Forall_mk_dirent; repeat constructor.
    - intros ty. cbn [fst snd]. rewrite app_nil_r. unfold r. rewrite <- (length_insert A k (ty, [] ++ e1 ++ e2)). apply builds_entries.
      apply Forall_forall. intros e He. rewrite Forall_forall in Hh, IH. destruct (Hh e He) as [Hn Hc]. split; [done|].
      intros n A' <-. by apply IH. }
  intros d F ty Hi Hk Hlen. cbn [fst snd] in *. specialize (Hb d F ty Hi Hk Hlen).
  pose proof (lookup_lt_Some _ _ _ Hk) as Hlt. pose proof (length_lay_entries es k (length A)) as Hle. fold r in Hle.
  apply wpe_assoc, wpe_assoc, wpe_bind. eapply wpe_mono; [exact Hb| |done]. cbv beta zeta. intros _ s' (d1 & F1 & -> & Hi1).
  cbn [fst snd app] in *. rewrite <- app_assoc in Hi1 |- *. set (c := e1 ++ e2 ++ r.1) in *. set (A1 := <[k := _]> A ++ r.2) in *.
  apply wpe_wp. eapply wp_mono; [apply (fix_dir_size_spec s0 A1 d1 F1 k ty c Hi1)|].
  - unfold A1. rewrite lookup_app_l by (by rewrite length_insert). by apply list_lookup_insert_eq.
  - assert (length c = 32 + length r.1)%nat as Ec by (unfold c, e1, e2; rewrite !length_app, !length_mk_dirent; lia).
    rewrite length_pad. unfold MAXSIZE. change BSIZE with 512. change MAXFILE with 139. unfold k_ninodes in Hlen.
    assert (Z.of_nat (length c) / 512 < 7) by (apply Z.div_lt_upper_bound; lia). lia.
  - cbv beta. intros _ s' (d2 & -> & Hi2). exists d2, F1. unfold A1 in *. rewrite insert_app_l, list_insert_insert_eq in Hi2 by (by rewrite length_insert).
    by rewrite !length_app, !length_insert.
Qed.

(** ** The empty file system *)

Lemma get16_zeros off n : get16 off (zeros n) = 0.
Proof.
  unfold get16. replace (slice off 2 (zeros n)) with (zeros 2); [done|].
  apply nthb_ext; rewrite length_zeros, ?length_slice; [done|]. intros k Hk.
  rewrite nthb_slice by lia. by rewrite !nthb_zeros.
Qed.

Definition blank : gmap (Z * Z) (list Z) :=
  foldl (fun d i => <[(ROOTDEV, i) := zeros 512]> d) ∅ (seqZ 0 k_size).

Lemma blank_lookup dev b :
  blank !! (dev, b) = if decide (dev = ROOTDEV /\ 0 <= b < k_size) then Some (zeros BSIZE) else None.
Proof.
  unfold blank. assert (forall l d, (foldl (fun d i => <[(ROOTDEV, i) := zeros 512]> d) d l : gmap (Z * Z) (list Z)) !! (dev, b) =
    if decide (dev = ROOTDEV /\ b ∈ l) then Some (zeros BSIZE) else d !! (dev, b)) as H.
  { induction l as [|i l IH]; intros d; cbn [foldl].
    - rewrite decide_False; [done|]. by intros [_ ?%not_elem_of_nil].
    - rewrite IH. destruct (decide (dev = ROOTDEV /\ b ∈ l)) as [[-> Hin]|Hno].
      + rewrite decide_True; [done|]. split; [done|]. by right.
      + destruct (decide (dev = ROOTDEV /\ b ∈ i :: l)) as [[-> Hin]|Hno'].
        * apply elem_of_cons in Hin as [->|Hin]; [by rewrite lookup_insert_eq|tauto].
        * rewrite lookup_insert_ne; [done|]. intros [= <- <-]. apply Hno'. split; [done|]. by left. }
  rewrite H. apply decide_ext. rewrite elem_of_seqZ. split; intros [? ?]; split; (done || lia).
Qed.

Lemma blank_rd b : rd blank b = zeros BSIZE.
Proof. unfold rd, disk_read. rewrite blank_lookup. by destruct (decide _). Qed.

Lemma blank_ok : img_ok blank DATA.
Proof.
  split; [| |intros; apply blank_rd|done|].
  - intros b. rewrite blank_lookup. destruct (decide _) as [[_ ?]|Hno].
    + split; [done|]. by eexists.
    + split; [by intros [? ?]|]. intros Hb. by destruct Hno.
  - intros b _. rewrite blank_rd. apply is_block_zeros.
  - intros dev b Hd. rewrite blank_lookup, decide_False; [done|]. by intros [? _].
Qed.

Lemma mkfs_spec : wp (mkfs k_nblocks k_ninodes k_size) (fun _ s' => exists d, s' = Mkst d DATA DATA (inum 0) /\ image [] d DATA) mk_start.
Proof.
  unfold mkfs. change (k_ninodes / IPB + 3 + (k_size / (512 * 8) + 1)) with DATA. change (k_nblocks + DATA) with k_size.
  do 4 wstep. rewrite Z.eqb_refl. cbn [negb]. wstep.
  eapply (wp_for_each (fun l s => s = Mkst (foldl (fun d i => <[(ROOTDEV, i) := zeros 512]> d) ∅ l) DATA DATA 1)).
  - done.
  - intros pre x post s' _ ->. unfold wsect. wstep. rewrite foldl_app. done.
  - intros s' ->. fold blank. unfold wsect. wstep. eexists. split; [done|]. cbn [k_img]. fold sb_block.
    assert (forall b, b <> 1 -> rd (<[(ROOTDEV, 1) := sb_block]> blank) b = zeros BSIZE) as Hrd.
    { intros b Hb. by rewrite rd_insert, decide_False, blank_rd. }
    split.
    + apply img_write; [apply blank_ok|done|done|]. apply is_block_splice; [apply is_block_zeros|by repeat apply Forall_app_2; apply Forall_le_enc].
    + unfold DATA, k_size. lia.
    + rewrite rd_insert, decide_True by done. done.
    + cbn. unfold k_ninodes. lia.
    + intros k _ Hk. destruct (i2b_range k Hk). unfold dino. rewrite Hrd by lia. unfold dinode_at. cbn [di_type]. by rewrite get16_zeros.
    + intros k ty c Hk. rewrite lookup_nil in Hk. discriminate Hk.
    + intros k ty c Hk. rewrite lookup_nil in Hk. discriminate Hk.
    + intros k k' b Hk. cbn in Hk. lia.
Qed.

(** ** The bitmap *)

Lemma bitmap_bits n : Z.of_nat n <= BPB ->
  is_block (foldl mark_bit (zeros 512) (seqZ 0 (Z.of_nat n))) /\
  forall b, 0 <= b < BPB -> bit_of (foldl mark_bit (zeros 512) (seqZ 0 (Z.of_nat n))) b = (b <? Z.of_nat n).
Proof.
  induction n as [|n IH]; intros Hn.
  - split; [apply is_block_zeros|]. intros b Hb. unfold bit_of. cbn [seqZ foldl]. change (seqZ 0 (Z.of_nat 0)) with (@nil Z). cbn [foldl].
    rewrite nthb_zeros, Z.bits_0. symmetry. apply Z.ltb_ge. lia.
  - destruct IH as [IH1 IH2]; [lia|]. replace (Z.of_nat (S n)) with (Z.of_nat n + 1) by lia. rewrite seqZ_app by lia.
    rewrite foldl_app, seqZ_1. cbn [foldl]. set (B := foldl _ _ _) in *.
    change (mark_bit B (0 + Z.of_nat n)) with (set_bit (0 + Z.of_nat n) B). split; [apply is_block_set_bit; [done|lia]|].
    intros b Hb. rewrite bit_of_set_bit, IH2 by (done || lia).
    destruct (Z.eqb_spec (0 + Z.of_nat n) b), (Z.ltb_spec b (Z.of_nat n)), (Z.ltb_spec b (Z.of_nat n + 1)); (done || lia).
Qed.

Lemma mk_balloc_spec A d F n :
  image A d F -> wp (mk_balloc F) (fun _ s' => exists d', s' = Mkst d' F F n /\ image A d' F /\
    is_block (rd d' (DATA - 1)) /\ forall b, 0 <= b < BPB -> bit_of (rd d' (DATA - 1)) b = (b <? F)) (Mkst d F F n).
Proof.
  intros [Himg HF Hsb Hlen Hfree Hty Hino Hap]. unfold k_size in HF. pose proof (im_F _ _ Himg) as HD. unfold mk_balloc.
  rewrite (proj2 (Z.ltb_lt F _)) by lia. cbn [negb]. unfold wsect. wstep. change (k_ninodes / IPB + 3) with (DATA - 1).
  destruct (bitmap_bits (Z.to_nat F)) as [Hb1 Hb2]; [change BPB with 4096; unfold DATA in HD; lia|].
  rewrite Z2Nat.id in Hb1, Hb2 by (unfold DATA in HD; lia). set (B := foldl _ _ _) in *. cbn [k_set_img k_img k_freeblock].
  set (d' := <[_ := B]> d). assert (forall b, b <> DATA - 1 -> rd d' b = rd d b) as Hrd.
  { intros b Hb. unfold d'. by rewrite rd_insert, decide_False. }
  assert (rd d' (DATA - 1) = B) as EB by (unfold d'; by rewrite rd_insert, decide_True).
  assert (forall k, Z.of_nat k < k_ninodes -> dino d' k = dino d k) as Hdi.
  { intros k Hk. unfold dino. destruct (i2b_range k Hk). by rewrite Hrd by lia. }
  assert (forall k ty c, A !! k = Some (ty, c) -> forall b, own s0 d (dino d k) b -> rd d' b = rd d b) as Hown.
  { intros k ty c Hk b Ho. destruct (Hino _ _ _ Hk) as [_ Hb]. apply Hrd. destruct (own_data s0 _ _ _ _ _ Hb Ho). lia. }
  assert (forall k, (k < length A)%nat -> forall b, own s0 d' (dino d' k) b <-> own s0 d (dino d k) b) as Hown'.
  { intros k [[ty c] Hk]%lookup_lt_is_Some_2 b. pose proof (lookup_lt_Some _ _ _ Hk). rewrite Hdi by lia. apply own_frame. by eapply Hown. }
  exists d'. split; [done|]. rewrite EB. split_and!; [|done..]. split; try done.
  - apply img_write; [done|unfold DATA, k_size; lia|lia|done].
  - by rewrite Hrd.
  - intros k Hk Hkn. rewrite Hdi by done. by apply Hfree.
  - intros k ty c Hk. pose proof (lookup_lt_Some _ _ _ Hk). rewrite Hdi by lia. destruct (Hino _ _ _ Hk) as [E Hb]. split; [done|].
    apply (bytes_frame s0 d d' _ F F c Hb); [|lia]. by eapply Hown.
  - intros k k' b Hk Hk' Hne. rewrite !Hown' by done. by apply Hap.
Qed.

(** ** main *)

(** The inodes of an image of the host directory [root]. *)
Definition root_image (root : list (list Z * hfile)) : list (Z * list Z) :=
  let r := layout (HDir root) 0 0 1 in (T_DIR, r.1) :: r.2.

Lemma mkfs_main_image root :
  host_ok (HDir root) -> Z.of_nat (length (root_image root)) < k_ninodes ->
  wpe (mkfs_main root) (fun _ s' => image (root_image root) (k_img s') (k_freeblock s') /\
    forall b, 0 <= b < BPB -> bit_of (rd (k_img s') (DATA - 1)) b = (b <? k_freeblock s')) mk_error mk_start.
Proof.
  intros Hh Hlen. unfold mkfs_main. apply wpe_bind, wpe_wp. eapply wp_mono; [apply mkfs_spec|]. cbv beta. intros _ s' (d & -> & Hi).
  apply wpe_bind, wpe_wp. eapply wp_mono; [apply (mk_ialloc_spec s0 [] d DATA T_DIR Hi); done|]. cbv beta.
  intros r s' (-> & d1 & -> & Hi1). cbn [app length] in *. change (inum 0 =? ROOTINO) with true. cbn [negb].
  unfold root_image in *. set (r := layout (HDir root) 0 0 1) in *. cbn [length] in Hlen.
  apply wpe_bind. eapply wpe_mono; [apply (add_dir_builds (HDir root) Hh 0 0 [(T_DIR, [])] d1 DATA T_DIR Hi1)| |done].
  { done. }
  { change (layout (HDir root) 0 0 (length [(T_DIR, [])])) with r. cbn [length]. lia. }
  cbv beta zeta. intros _ s' (d2 & F & -> & Hi2). change (layout (HDir root) 0 0 (length [(T_DIR, [])])) with r in *.
  cbn [insert list_insert app] in Hi2 |- *. do 2 wstep. cbn [k_usedblocks]. apply wpe_wp.
  eapply wp_mono; [apply (mk_balloc_spec _ d2 F _ Hi2)|]. cbv beta. intros _ s' (d3 & -> & Hi3 & _ & Hb). done.
Qed.
End tree.

(** ** What the kernel finds *)

(** The root device holds the inodes [A], [F] blocks are in use, and the
    block allocator's invariant holds. *)
Record formatted (s : bio) (A : list (Z * list Z)) (F : Z) : Prop := {
  fm_sb : sb_of s ROOTDEV = Superblock k_size k_nblocks k_ninodes;
  fm_alloc : alloc_inv s ∅ ROOTDEV;
  fm_used : forall b, 0 <= b < nbits (sb_of s ROOTDEV) -> used s ROOTDEV (sb_of s ROOTDEV) b = (b <? F);
  fm_inode : forall k ty c, A !! k = Some (ty, c) ->
    let di := di_of s ROOTDEV (inum k) in
    di_type di = ty /\ di_nlink di = 1 /\ di_size di = Z.of_nat (length c) /\ Z.of_nat (length c) <= MAXFILE * BSIZE /\ di_tags di = 0 /\
    file_ok s (disk_inode s (inum k)) /\
    forall o, 0 <= o < MAXFILE * BSIZE -> fbyte s (disk_inode s (inum k)) o = nthb c o;
  fm_count : Z.of_nat (length A) < k_ninodes;
  fm_free : forall k, (length A <= k)%nat -> Z.of_nat k < k_ninodes -> di_type (di_of s ROOTDEV (inum k)) = 0;
  fm_apart : forall j k, (j < length A)%nat -> (k < length A)%nat -> j <> k ->
    forall x y, 0 <= x < NSLOT -> 0 <= y < NSLOT -> slot s (disk_inode s (inum j)) x <> 0 ->
      slot s (disk_inode s (inum j)) x <> slot s (disk_inode s (inum k)) y;
}.

Lemma slot_disk s0 s d di i k :
  bio_disk s = d -> i_addrs i = di_addrs di -> i_dev i = ROOTDEV -> slot s i k = slot (on s0 d) (ino di) k.
Proof. intros <- E1 E2. unfold slot, sector_of. rewrite E1, E2. done. Qed.

Lemma fbyte_disk s0 s d di i o :
  bio_disk s = d -> i_addrs i = di_addrs di -> i_dev i = ROOTDEV -> fbyte s i o = fbyte (on s0 d) (ino di) o.
Proof. intros E0 E1 E2. unfold fbyte, sector_of. rewrite (slot_disk s0 s d di i) by done. rewrite E2, <- E0. done. Qed.

Lemma sb_block_at : superblock_at sb_block = Superblock k_size k_nblocks k_ninodes.
Proof. by vm_compute. Qed.

Lemma image_formatted s0 s A F :
  image s0 A (bio_disk s) F -> (forall b, 0 <= b < BPB -> bit_of (rd (bio_disk s) (DATA - 1)) b = (b <? F)) ->
  holds s ∅ -> formatted s A F.
Proof.
  intros [Himg HF Hsb Hlen Hfree Hty Hino Hap] Hbits Hh. pose proof (im_F _ _ Himg) as HD. unfold k_size in HF.
  assert (sb_of s ROOTDEV = Superblock k_size k_nblocks k_ninodes) as Esb.
  { unfold sb_of. change (sector_of s ROOTDEV 1) with (rd (bio_disk s) 1). rewrite Hsb. apply sb_block_at. }
  assert (nbits (Superblock k_size k_nblocks k_ninodes) = 4096) as En by by vm_compute.
  assert (forall b, 0 <= b < 4096 -> used s ROOTDEV (Superblock k_size k_nblocks k_ninodes) b = (b <? F)) as Hu.
  { intros b Hb. unfold used, BBLOCK. change BPB with 4096 in *. cbn [sb_ninodes]. rewrite Z.div_small, Z.mod_small by lia.
    change (k_ninodes / IPB + 0 + 3) with (DATA - 1). rewrite <- Hbits by done. done. }
  assert (forall k x, slot s (disk_inode s (inum k)) x = slot (on s0 (bio_disk s)) (ino (dino (bio_disk s) k)) x) as Hs.
  { intros k x. by apply slot_disk. }
  split; rewrite ?Esb, ?En in *.
  - done.
  - split; [split| |]; rewrite ?Esb, ?En; try done.
    + by right.
    + rewrite map_size_empty. by vm_compute; lia.
    + intros b Hb Hm. rewrite Hu by done. change (last_meta _) with 28 in Hm. unfold DATA in HD. lia.
    + intros b Hb Hf. rewrite Hu in Hf by done. apply (im_zero _ _ Himg). lia.
  - done.
  - intros k ty c Hk di. destruct (Hino _ _ _ Hk) as [E Hb]. change di with (dino (bio_disk s) k). rewrite E at 1 2 3 4. split_and!; try done.
    + by apply (Hty _ _ _ Hk).
    + destruct Hb as [Hl Hsl Hinj _]. split; [done|..].
      * intros x Hx. rewrite Hs. intros Hnz. specialize (Hsl x Hx Hnz). change (i_dev _) with ROOTDEV. rewrite Esb.
        unfold DATA in Hsl. split; [unfold data_block; rewrite En; change (BBLOCK _ _) with 28; lia|]. rewrite Hu by lia. lia.
      * intros x y Hx Hy. rewrite !Hs. by apply Hinj.
    + intros o Ho. rewrite (fbyte_disk s0 s (bio_disk s) (dino (bio_disk s) k)) by done. by apply (hb_bytes _ _ _ _ _ Hb).
  - done.
  - intros k Hk. by apply Hfree, lookup_ge_None_2.
  - intros j k Hj Hk Hne x y Hx Hy. rewrite !Hs. intros Hnz E.
    apply (Hap j k (slot (on s0 (bio_disk s)) (ino (dino (bio_disk s) j)) x) Hj Hk Hne); (split; [done|]); [by exists x|by exists y].
Qed.

Lemma image_blocks s0 A d F : image s0 A d F -> forall k, is_block (disk_read d k).
Proof.
  intros Hi [dev b]. destruct (ia_img _ _ _ _ Hi) as [H1 H2 H3 _ H5]. unfold disk_read.
  destruct (d !! (dev, b)) as [x|] eqn:E; [|apply is_block_zeros]. destruct (decide (dev = ROOTDEV)) as [->|Hd].
  - assert (0 <= b < k_size) as Hb by (apply H1; eauto). specialize (H2 b Hb). unfold rd, disk_read in H2. by rewrite E in H2.
  - by rewrite H5 in E.
Qed.

(** A kernel that starts on the image finds the files of the host. *)
Lemma mkfs_main_formatted root :
  host_ok (HDir root) -> Z.of_nat (length (root_image root)) < k_ninodes ->
  wpe (mkfs_main root) (fun _ m => forall pt tf, has_cur pt ->
    wp binit (fun _ s => formatted s (root_image root) (k_freeblock m)) (bio_start pt tf (k_img m))) mk_error mk_start.
Proof.
  intros Hh Hlen. set (s0 := bio_start (Ptable [] 0 None None) zero_taskfile ∅).
  eapply wpe_mono; [by apply (mkfs_main_image s0)| |done]. cbv beta. intros _ m [Hi Hb] pt tf Hc.
  eapply wp_mono; [apply (binit_spec pt tf (k_img m) Hc); by eapply image_blocks|]. cbv beta. intros _ s (Hs & _ & Ed & _).
  apply (image_formatted s0); rewrite ?Ed; done.
Qed.
