(* ===== verification/MkfsPath.v ===== *)
(** * Paths in an image

    A kernel whose root device holds an image of mkfs (tools/mkfs.c) finds
    every file of the host directory: following its path with the entries
    [dirlookup] (kernel/fs.c) finds leads to an inode with its type and
    bytes. *)

From S2P Require Import Prelude Monad Params CString Ulib ProcTable Ide Bio Block Alloc.
From S2P Require Import Lru Inode Bmap Icache Content Dir Walk Mkfs MkfsSpec MkfsImage MkfsTree.

(** ** Paths on the host *)

(** The file called [name], all of the name counting.  mkfs skips the
    directory's entries for itself and its parent. *)
Fixpoint hfind (name : list Z) (es : list (list Z * hfile)) : option hfile :=
  match es with
  | [] => None
  | (nm, child) :: es =>
      if is_dots nm then hfind name es
      else if decide (cstr name = cstr nm) then Some child else hfind name es
  end.

Fixpoint hwalk (f : hfile) (path : list (list Z)) : option hfile :=
  match path, f with
  | [], _ => Some f
  | name :: path, HDir es => match hfind name es with Some child => hwalk child path | None => None end
  | _, HFile _ => None
  end.

(** The name as it is stored in an entry: the first 14 bytes. *)
Definition stored_name (nm : list Z) : list Z := strncpy (Z.to_nat DIRSIZ) nm.
Definition stored_names (es : list (list Z * hfile)) : list (list Z) :=
  (fun e => stored_name e.1) <$> filter (fun e => is_dots e.1 = false) es.

(** In no directory two names agree in their first 14 bytes. *)
Fixpoint names_apart (f : hfile) : Prop :=
  match f with
  | HFile _ => True
  | HDir es =>
      NoDup (stored_names es) /\
      (fix ok es := match es with [] => True | (_, child) :: es => names_apart child /\ ok es end) es
  end.

Lemma names_apart_dir es : names_apart (HDir es) <-> NoDup (stored_names es) /\ Forall (fun e => names_apart e.2) es.
Proof.
  cbn [names_apart]. apply and_iff_compat_l. induction es as [|[nm child] es IH]; [by split|].
  rewrite Forall_cons. cbn [snd]. by rewrite <- IH.
Qed.

(** Does a path element name the entry that was written for [nm]? *)
Definition same_name (name nm : list Z) : bool := namecmp name (stored_name nm) =? 0.

(** A path element other than the entries every directory has. *)
Definition proper_name (name : list Z) : Prop := same_name name mk_dot = false /\ same_name name mk_dotdot = false.

(** What the entries of the image lead to: the first file whose name agrees in
    14 bytes. *)
Fixpoint image_find (name : list Z) (es : list (list Z * hfile)) : option hfile :=
  match es with
  | [] => None
  | (nm, child) :: es =>
      if is_dots nm then image_find name es
      else if same_name name nm then Some child else image_find name es
  end.

(** Names agree for the kernel when they are stored as the same 14 bytes. *)
Lemma same_name_iff name nm :
  Forall is_byte name -> Forall is_byte nm -> same_name name nm = true <-> stored_name name = stored_name nm.
Proof.
  intros H1 H2. unfold same_name, namecmp, stored_name. rewrite Z.eqb_eq, strncmp_eq by (done || by apply Forall_strncpy).
  set (n := Z.to_nat DIRSIZ). destruct (strlen_spec name) as [E1 E2]. pose proof (strlen_nonneg name) as Hn.
  split.
  - intros Hk. apply nthb_ext; rewrite !length_strncpy; [done|]. intros k Hlt.
    destruct (Z.lt_ge_cases k (strlen name)) as [Hs|Hs].
    + rewrite <- Hk; [|lia|intros j Hj; apply E2; lia]. by rewrite strncpy_spec, (proj2 (Z.ltb_lt _ _) Hs) by lia.
    + rewrite strncpy_spec, (proj2 (Z.ltb_ge _ _) Hs) by lia.
      specialize (Hk (strlen name) ltac:(lia) E2). rewrite E1, strncpy_spec in Hk by lia. rewrite strncpy_spec by lia.
      destruct (strlen_spec nm) as [_ F2]. destruct (Z.ltb_spec (strlen name) (strlen nm)) as [Hl|Hl].
      * by destruct (F2 (strlen name)); [lia|].
      * by rewrite (proj2 (Z.ltb_ge k (strlen nm))) by lia.
  - intros E k Hlt Hj. rewrite <- E, strncpy_spec by done. destruct (Z.ltb_spec k (strlen name)) as [|Hs]; [done|].
    destruct (Z.eq_dec k (strlen name)) as [->|]; [done|]. by destruct (Hj (strlen name)); [lia|].
Qed.

Lemma stored_nth nm k : 0 <= k < DIRSIZ -> nthb (stored_name nm) k = nthb (cstr nm) k.
Proof. intros Hk. unfold stored_name. by rewrite strncpy_spec, nthb_cstr by lia. Qed.

Lemma stored_cstr name nm : cstr name = cstr nm -> stored_name name = stored_name nm.
Proof.
  intros E. apply nthb_ext; unfold stored_name; rewrite !length_strncpy; [done|]. intros k Hk.
  change (nthb (stored_name name) k = nthb (stored_name nm) k). rewrite !stored_nth by lia. by rewrite E.
Qed.

(** A short name is stored as a whole. *)
Lemma stored_short name nm : strlen nm < DIRSIZ -> stored_name name = stored_name nm -> cstr name = cstr nm.
Proof.
  intros Hs E. destruct (strlen_spec name) as [E1 E2]. destruct (strlen_spec nm) as [F1 F2].
  pose proof (strlen_nonneg nm) as Hn. pose proof (strlen_nonneg name) as Hn'.
  assert (forall k, 0 <= k <= strlen nm -> nthb (cstr name) k = nthb (cstr nm) k) as Hk.
  { intros k Hk. rewrite <- !stored_nth by lia. by rewrite E. }
  assert (strlen nm <= strlen name) as Hl.
  { destruct (Z.le_gt_cases (strlen nm) (strlen name)) as [|Hlt]; [done|]. specialize (Hk (strlen name) ltac:(lia)).
    rewrite !nthb_cstr, Z.ltb_irrefl, (proj2 (Z.ltb_lt _ _) Hlt) in Hk by lia. by destruct (F2 (strlen name)). }
  symmetry. apply cstr_eq. intros x Hx. specialize (Hk x Hx). rewrite !nthb_cstr in Hk by lia.
  destruct (Z.ltb_spec x (strlen nm)) as [Hlt|Hge].
  - by rewrite (proj2 (Z.ltb_lt x (strlen name))) in Hk by lia.
  - assert (x = strlen nm) as -> by lia. rewrite F1. destruct (Z.ltb_spec (strlen nm) (strlen name)); [done|].
    assert (strlen nm = strlen name) as -> by lia. done.
Qed.

(** The files of a directory whose stored names differ are found by their
    names. *)
Lemma hfind_image name es child :
  Forall is_byte name -> Forall (fun e => Forall is_byte e.1) es -> NoDup (stored_names es) ->
  hfind name es = Some child -> image_find name es = Some child /\ proper_name name.
Proof.
  intros Hname Hes. assert (forall nm, Forall is_byte nm -> cstr name = cstr nm -> is_dots nm = false -> proper_name name) as Hprop.
  { intros nm Hb E Hd. unfold is_dots in Hd. apply orb_false_iff in Hd as [H1%Z.eqb_neq H2%Z.eqb_neq].
    assert (Forall is_byte mk_dot /\ Forall is_byte mk_dotdot) as [B1 B2] by by repeat constructor.
    split; apply not_true_iff_false; rewrite same_name_iff by done; intros Es;
      apply stored_short in Es; try done.
    - apply H1, strcmp_eq; [done|done|congruence].
    - apply H2, strcmp_eq; [done|done|congruence]. }
  unfold stored_names. induction Hes as [|[nm c] es Hb Hes IH]; [done|]. cbn [hfind image_find fst] in *.
  rewrite filter_cons. cbn [fst]. destruct (is_dots nm) eqn:Ed; [rewrite decide_False by done; exact IH|].
  rewrite decide_True by done. rewrite fmap_cons. intros [Hnot Hnd]%NoDup_cons. cbn [fst] in Hnot.
  destruct (decide (cstr name = cstr nm)) as [E|E].
  - intros [= ->]. split; [|by eapply Hprop]. by rewrite (proj2 (same_name_iff name nm Hname Hb) (stored_cstr _ _ E)).
  - intros Hf. destruct (same_name name nm) eqn:Es; [|by apply IH]. exfalso. apply Hnot.
    rewrite same_name_iff in Es by done. rewrite <- Es. clear -Hf. induction es as [|[nm' c'] es IH]; [done|].
    cbn [hfind] in Hf. rewrite filter_cons. cbn [fst]. destruct (is_dots nm'); [rewrite decide_False by done; auto|].
    rewrite decide_True, fmap_cons by done. cbn [fst]. destruct (decide (cstr name = cstr nm')) as [E|_].
    + rewrite (stored_cstr _ _ E). by left.
    + right. auto.
Qed.

(** ** Entries of a directory *)

Definition entries_bytes (des : list (Z * list Z)) : list Z := mjoin ((fun e => mk_dirent e.1 e.2) <$> des).

Lemma entries_cons e des : entries_bytes (e :: des) = mk_dirent e.1 e.2 ++ entries_bytes des.
Proof. done. Qed.

Lemma length_entries des : length (entries_bytes des) = (16 * length des)%nat.
Proof. induction des as [|e des IH]; [done|]. rewrite entries_cons, length_app, length_mk_dirent, IH. cbn [length]. lia. Qed.

Lemma entries_nth des j e o :
  des !! j = Some e -> 0 <= o < 16 -> nthb (entries_bytes des) (16 * Z.of_nat j + o) = nthb (mk_dirent e.1 e.2) o.
Proof.
  intros Hj Ho. revert j Hj. induction des as [|x des IH]; intros j Hj; [done|]. rewrite entries_cons, nthb_app by lia.
  rewrite length_mk_dirent. destruct j as [|j].
  - injection Hj as ->. rewrite (proj2 (Z.ltb_lt _ _)) by lia. f_equal; lia.
  - cbn in Hj. rewrite (proj2 (Z.ltb_ge _ _)) by lia. rewrite <- (IH j Hj). f_equal; lia.
Qed.

(** The entry the kernel reads. *)
Lemma dent_entry s i des j e :
  (forall o, 0 <= o < MAXFILE * BSIZE -> fbyte s i o = nthb (pad (entries_bytes des)) o) ->
  16 * Z.of_nat (length des) <= MAXFILE * BSIZE -> des !! j = Some e ->
  dent s i (Z.of_nat j * sizeof_dirent) = Dirent (u16 e.1) (strncpy (Z.to_nat DIRSIZ) e.2).
Proof.
  intros Hb Hl Hj. pose proof (lookup_lt_Some _ _ _ Hj) as Hlt. unfold dent.
  replace (fbyte s i <$> seqZ (Z.of_nat j * sizeof_dirent) sizeof_dirent) with (mk_dirent e.1 e.2).
  - unfold mk_dirent. apply dirent_at_enc; [apply u16_range|apply length_strncpy].
  - change sizeof_dirent with 16. apply nthb_ext; rewrite length_mk_dirent; [by rewrite length_fmap, length_seqZ|]. intros o Ho.
    rewrite nthb_fmap_seqZ, Hb by lia. unfold pad. rewrite nthb_app, length_entries by lia.
    rewrite (proj2 (Z.ltb_lt _ _)) by lia. rewrite <- (entries_nth des j e o) by (done || lia). f_equal; lia.
Qed.

(** ** Where the layout puts a file *)

(** The file [f] of directory [p] is inode [k], and the files below it follow
    from [n] on. *)
Definition placed (A : list (Z * list Z)) (f : hfile) (k p n : nat) : Prop :=
  A !! k = Some (kind f, (layout f k p n).1) /\
  forall j x, (layout f k p n).2 !! j = Some x -> A !! (n + j)%nat = Some x.

Lemma lay_entries_des es k : forall n, exists des, (lay_entries layout es k n).1 = entries_bytes des.
Proof.
  induction es as [|[nm child] es IH]; intros n; [by exists []|]. cbn [lay_entries]. destruct (is_dots nm); [apply IH|]. cbn [fst snd].
  destruct (IH (S n + length (layout child n k (S n)).2)%nat) as [des ->]. by exists ((inum n, nm) :: des).
Qed.

(** The entry of the first file with the name. *)
Lemma entries_found A name k es : forall n child,
  image_find name es = Some child ->
  (forall j x, (lay_entries layout es k n).2 !! j = Some x -> A !! (n + j)%nat = Some x) ->
  exists pre nm post k', (lay_entries layout es k n).1 = entries_bytes (pre ++ (inum k', nm) :: post) /\
    Forall (fun e => same_name name e.2 = false) pre /\ Forall (fun e => exists j, e.1 = inum j /\ is_Some (A !! j)) pre /\
    same_name name nm = true /\ placed A child k' k (S k').
Proof.
  induction es as [|[nm child'] es IH]; intros n child Hf HA; [done|]. cbn [image_find lay_entries] in *.
  destruct (is_dots nm); [by apply (IH n)|]. set (sub := layout child' n k (S n)) in *. cbn [fst snd] in *.
  set (rest := lay_entries layout es k (S n + length sub.2)) in *.
  destruct (lay_entries_des es k (S n + length sub.2)) as [des Edes]. fold rest in Edes.
  destruct (same_name name nm) eqn:Enm.
  - injection Hf as ->. exists [], nm, des, n. split_and!; [cbn; by rewrite Edes|done|done|done|]. split.
    + specialize (HA 0%nat _ eq_refl). by rewrite Nat.add_0_r in HA.
    + intros j x Hx. replace (S n + j)%nat with (n + S j)%nat by lia. apply HA.
      change ((sub.2 ++ rest.2) !! j = Some x). by apply lookup_app_l_Some.
  - destruct (IH (S n + length sub.2)%nat child Hf) as (pre & nm' & post & k' & E & Hpre & Hin & Hnm & Hp).
    + intros j x Hx. replace (S n + length sub.2 + j)%nat with (n + S (length sub.2 + j))%nat by lia. apply HA.
      change ((sub.2 ++ rest.2) !! (length sub.2 + j)%nat = Some x). rewrite lookup_app_r by lia. rewrite <- Hx. f_equal. lia.
    + exists ((inum n, nm) :: pre), nm', post, k'. split_and!; [|by constructor| |done|done].
      2:{ constructor; [|done]. exists n. split; [done|]. specialize (HA 0%nat _ eq_refl). rewrite Nat.add_0_r in HA. by eexists. }
      fold rest in E. rewrite E. done.
Qed.

(** ** Looking up *)

Lemma same_name_match name e i :
  0 < i < 2 ^ 16 -> de_match name (Dirent (u16 i) (strncpy (Z.to_nat DIRSIZ) e)) = same_name name e.
Proof. intros Hi. unfold de_match. cbn [de_inum de_name]. rewrite u16_small by lia. rewrite (proj2 (Z.eqb_neq i 0)) by lia. done. Qed.

Lemma no_match name e i : same_name name e = false -> de_match name (Dirent i (strncpy (Z.to_nat DIRSIZ) e)) = false.
Proof. intros Hn. unfold de_match. cbn [de_inum de_name]. unfold same_name, stored_name in Hn. rewrite Hn. apply andb_false_r. Qed.

Lemma find_entry s i name pre nm post m :
  let des := pre ++ (m, nm) :: post in
  (forall o, 0 <= o < MAXFILE * BSIZE -> fbyte s i o = nthb (pad (entries_bytes des)) o) ->
  i_size i = Z.of_nat (length (pad (entries_bytes des))) -> i_size i <= MAXFILE * BSIZE ->
  Forall (fun e => same_name name e.2 = false) pre -> same_name name nm = true -> 0 < m < 2 ^ 16 ->
  first_match s i name (dir_end (i_size i)) (Some (m, Z.of_nat (length pre) * sizeof_dirent)).
Proof.
  intros des Hb Hsz Hmax Hpre Hnm Hm. pose proof (length_pad (entries_bytes des)) as Hpad. rewrite length_entries in Hpad.
  assert (length des = length pre + S (length post))%nat as El by (unfold des; by rewrite length_app).
  assert (16 * Z.of_nat (length des) < i_size i) as Hlt.
  { rewrite Hsz, Hpad. pose proof (Z.div_mod (Z.of_nat (16 * length des)) BSIZE ltac:(done)). pose proof (off_mod (Z.of_nat (16 * length des))). lia. }
  assert (forall j e, des !! j = Some e -> dent s i (Z.of_nat j * sizeof_dirent) = Dirent (u16 e.1) (strncpy (Z.to_nat DIRSIZ) e.2)) as Hd.
  { intros j e Hj. apply (dent_entry s i des); [done|lia|done]. }
  assert (i_size i <= dir_end (i_size i)) as Hend.
  { unfold dir_end. pose proof (Z.div_mod (i_size i + BSIZE - 1) BSIZE ltac:(done)). pose proof (off_mod (i_size i + BSIZE - 1)). change BSIZE with 512 in *. lia. }
  split.
  - unfold dent_match. rewrite (Hd _ (m, nm)) by (unfold des; by rewrite lookup_app_r, Nat.sub_diag).
    cbn [fst snd]. rewrite same_name_match, Hnm by done. cbn [de_inum]. by rewrite u16_small by lia.
  - exists (Z.of_nat (length pre)). split_and!; [lia|done|change sizeof_dirent with 16; lia|]. intros j Hj.
    destruct (lookup_lt_is_Some_2 pre (Z.to_nat j)) as [e He]; [lia|]. rewrite <- (Z2Nat.id j) by lia. unfold dent_match.
    rewrite (Hd _ e) by (unfold des; by apply lookup_app_l_Some). rewrite no_match; [done|]. by eapply (Forall_lookup_1 _ _ _ _ Hpre He).
Qed.

(** A block that is not there has no entry in use. *)
Lemma hole_entry s i bn : slot s i (pos bn) = 0 -> de_inum (dent s i (bn * BSIZE)) = 0.
Proof.
  intros Hz. assert (forall x, 0 <= x < 2 -> fbyte s i (bn * BSIZE + x) = 0) as Hb.
  { intros x Hx. unfold fbyte. replace ((bn * BSIZE + x) / BSIZE) with bn; [by rewrite Hz|].
    change BSIZE with 512. apply (Z.div_unique _ _ _ x); lia. }
  unfold dent, dirent_at, get16. cbn [de_inum]. change sizeof_dirent with 16.
  rewrite slice_fbytes by lia. replace (fbyte s i <$> seqZ (bn * BSIZE + 0) 2) with (zeros 2); [done|].
  symmetry. apply nthb_ext; rewrite length_fmap, length_seqZ; [done|]. intros x Hx. rewrite nthb_fmap_seqZ, <- Z.add_assoc, Hb by lia.
  by rewrite nthb_zeros.
Qed.

(** The blocks of a directory are there up to the last entry. *)
Lemma entries_present s i des n :
  (forall o, 0 <= o < MAXFILE * BSIZE -> fbyte s i o = nthb (pad (entries_bytes des)) o) ->
  16 * Z.of_nat (length des) <= MAXFILE * BSIZE ->
  (forall j, (j <= n)%nat -> exists e, des !! j = Some e /\ (j <> 1%nat -> 0 < e.1 < 2 ^ 16)) ->
  blocks_to s i (Z.of_nat n * sizeof_dirent).
Proof.
  intros Hb Hmax Hd bn Hbn Hle Hz. change BSIZE with 512 in Hle. change sizeof_dirent with 16 in Hle.
  destruct (Hd (Z.to_nat (32 * bn))) as (e & He & Hnz); [lia|]. apply hole_entry in Hz.
  replace (bn * BSIZE) with (Z.of_nat (Z.to_nat (32 * bn)) * sizeof_dirent) in Hz
    by (change BSIZE with 512; change sizeof_dirent with 16; lia).
  rewrite (dent_entry s i des _ e Hb Hmax He) in Hz. cbn [de_inum] in Hz. rewrite u16_small in Hz by lia. lia.
Qed.

(** ** Every file is found *)

Lemma hfind_in name es child : hfind name es = Some child -> exists nm, (nm, child) ∈ es.
Proof.
  induction es as [|[nm c] es IH]; [done|]. cbn [hfind]. destruct (is_dots nm).
  - intros (nm' & ?)%IH. exists nm'. by right.
  - destruct (decide _); [intros [= ->]; exists nm; by left|]. intros (nm' & ?)%IH. exists nm'. by right.
Qed.

Section find.
Context (s : bio) (A : list (Z * list Z)) (F : Z) (Hs : formatted s A F).

Lemma placed_inode f k p n :
  placed A f k p n -> let i := disk_inode s (inum k) in let c := (layout f k p n).1 in
  i_type i = kind f /\ (i_size i = Z.of_nat (length c) /\ Z.of_nat (length c) <= MAXFILE * BSIZE) /\ forall o, 0 <= o < MAXFILE * BSIZE -> fbyte s i o = nthb c o.
Proof.
  intros [Hk _] i c. destruct (fm_inode _ _ _ Hs k _ _ Hk) as (E1 & _ & E2 & E3 & _ & _ & Hb). done.
Qed.

(** One step of a path. *)
Lemma find_child es k p n name child :
  placed A (HDir es) k p n -> proper_name name -> image_find name es = Some child ->
  exists k', leads s (inum k) name (inum k') /\ placed A child k' k (S k').
Proof.
  intros Hp [Hd1 Hd2] Hf. destruct (placed_inode _ _ _ _ Hp) as (_ & [Hsz Hmax] & Hb). destruct Hp as [Hk Hrest]. cbn [layout fst snd] in *.
  destruct (entries_found A name k es n child Hf Hrest) as (pre & nm & post & k' & E & Hpre & Hin & Hnm & Hp'). rewrite E in *.
  set (dots := [(inum k, mk_dot); (inum p, mk_dotdot)]).
  change (mk_dirent (inum k) mk_dot ++ mk_dirent (inum p) mk_dotdot ++ entries_bytes (pre ++ (inum k', nm) :: post))
    with (entries_bytes ((dots ++ pre) ++ (inum k', nm) :: post)) in *.
  assert (forall j, is_Some (A !! j) -> 0 < inum j < 2 ^ 16) as Hnum.
  { intros j [x Hj%lookup_lt_Some]. pose proof (fm_count _ _ _ Hs). unfold inum, k_ninodes in *. lia. }
  assert (0 < inum k' < 2 ^ 16) as Hk' by (apply Hnum; destruct Hp' as [-> _]; by eexists).
  exists k'. split; [|done]. exists (Z.of_nat (length (dots ++ pre)) * sizeof_dirent). split.
  - apply (find_entry s _ name (dots ++ pre) nm post (inum k')); [done|done|by rewrite Hsz| |done|done].
    apply Forall_app_2; [by repeat constructor|done].
  - eapply entries_present; [exact Hb| |].
    + rewrite length_pad, length_entries in Hmax. pose proof (Z.div_mod (Z.of_nat (16 * length ((dots ++ pre) ++ (inum k', nm) :: post))) BSIZE ltac:(done)).
      pose proof (off_mod (Z.of_nat (16 * length ((dots ++ pre) ++ (inum k', nm) :: post)))). lia.
    + intros j Hj. destruct (decide (j = length (dots ++ pre))) as [->|Hne].
      { exists (inum k', nm). split; [by rewrite lookup_app_r, Nat.sub_diag|done]. }
      destruct (lookup_lt_is_Some_2 (dots ++ pre) j) as [e He]; [lia|]. exists e. split; [by apply lookup_app_l_Some|].
      intros Hj1. destruct j as [|[|j]]; [injection He as <-; apply Hnum; by eexists|done|].
      change (pre !! j = Some e) in He. destruct (Forall_lookup_1 _ _ _ _ Hin He) as (x & -> & Hx). by apply Hnum.
Qed.

Lemma placed_dir es k p n : placed A (HDir es) k p n -> dir_at s (inum k).
Proof.
  intros [Hk _]. destruct (fm_inode _ _ _ Hs k _ _ Hk) as (E1 & E2 & E3 & E4 & _ & Hf & _).
  pose proof (fm_count _ _ _ Hs) as Hc. apply lookup_lt_Some in Hk. split.
  - rewrite (fm_sb _ _ _ Hs). unfold inum_ok, inum. cbn [sb_ninodes]. lia.
  - exact E1.
  - change (di_nlink (di_of s ROOTDEV (inum k)) <> 0). lia.
  - exact Hf.
  - change (0 <= di_size (di_of s ROOTDEV (inum k)) <= MAXFILE * BSIZE). lia.
Qed.

Lemma walk_found path : forall f k p n g,
  placed A f k p n -> host_ok f -> names_apart f -> Forall (Forall is_byte) path -> hwalk f path = Some g ->
  exists k' p' n', reach s (inum k) path (inum k') /\ placed A g k' p' n'.
Proof.
  induction path as [|name path IH]; intros f k p n g Hp Hh Hna Hpath Hw.
  - cbn in Hw. injection Hw as ->. by exists k, p, n.
  - apply Forall_cons in Hpath as [Hn Hpath]. cbn [hwalk] in Hw. destruct f as [reads|es]; [done|].
    destruct (hfind name es) as [child|] eqn:Ef; [|done]. rewrite host_ok_dir in Hh. apply names_apart_dir in Hna as [Hnd Hna].
    destruct (hfind_image name es child) as [Ei Hprop]; [done| |done|done|].
    { eapply Forall_impl; [exact Hh|]. by intros e [? _]. }
    destruct (find_child es k p n name child Hp Hprop Ei) as (k1 & Hl & Hp1).
    destruct (hfind_in name es child Ef) as (nm & Hin). rewrite Forall_forall in Hh, Hna.
    destruct (IH child k1 k (S k1) g Hp1) as (k' & p' & n' & Hr & Hg); [by apply (Hh _ Hin)|by apply (Hna _ Hin)|done|done|].
    exists k', p', n'. split; [|done]. split; [by eapply placed_dir|]. by exists (inum k1).
Qed.
End find.

Lemma root_placed root : placed (root_image root) (HDir root) 0 0 1.
Proof. split; [done|]. intros j x Hx. exact Hx. Qed.
