(* ===== verification/Syscall.v ===== *)
(** * System calls and traps (kernel/syscall.c, kernel/sysproc.c, kernel/trap.c)

    The process system calls, the dispatch on the call number and the trap
    handler.  The result of a call goes into [eax] of the process that made
    it. *)

From S2P Require Import Prelude Monad Params CString Kalloc ProcTable Pipe Ide Bio Block Inode.
From S2P Require Import Content Itrunc Dir Path Vm File Tags Args Sysfile Exec Proc.

(** ** State: the kernel and the clock *)

Record sys := Sys { y_kern : kern; y_ticks : Z }.
Definition y_set_kern v s := Sys v (y_ticks s).
Definition y_set_ticks v s := Sys (y_kern s) v.
Definition kern_of_sys : lens sys kern := Lens y_kern y_set_kern.
Definition pt_of_sys : lens sys ptable := lens_comp kern_of_sys pt_of_kern.
Definition bio_of_sys : lens sys bio := lens_comp kern_of_sys bio_of_kern.

Definition scur (s : sys) : proc := curproc (y_kern s).

Section syscall.
Context {DV : Devsw} (kend kdata : Z).

(** ** sysproc.c *)

Definition sys_fork : M kern Z := fork kend kdata.

(** The process is a zombie and does not come back. *)
Definition exit_thread {A} : M kern A := exit kend;;; sleep_on ChNone.
Definition sys_exit : M kern Z := exit_thread.

Definition sys_wait : M kern Z := wait kend.

Definition sys_kill : M kern Z :=
  let! pid := argint 0 in
  match pid with
  | None => ret (-1)
  | Some pid => zoom pt_of_kern (kill pid)
  end.

Definition sys_getpid : M kern Z := gets (fun s => p_pid (curproc s)).

Definition sys_sbrk : M kern Z :=
  let! n := argint 0 in
  match n with
  | None => ret (-1)
  | Some n =>
      let! addr := gets (fun s => p_sz (curproc s)) in
      let! r := growproc kend n in
      if r <? 0 then ret (-1) else ret (s32 addr)
  end.

(** The loop of [sys_sleep], entered again after each wakeup.  [n] is compared
    as an unsigned number. *)
Definition sys_sleep_from (ticks0 n : Z) : M sys Z :=
  let! t := gets y_ticks in
  if u32 (t - ticks0) <? u32 n then
    let! p := gets scur in
    if negb (p_killed p =? 0) then ret (-1)
    else zoom pt_of_sys (sleep ChTicks)
  else ret 0.

Definition sys_sleep : M sys Z :=
  let! n := zoom kern_of_sys (argint 0) in
  match n with
  | None => ret (-1)
  | Some n => let! ticks0 := gets y_ticks in sys_sleep_from ticks0 n
  end.

Definition sys_uptime : M sys Z := gets (fun s => s32 (y_ticks s)).

(** ** syscall.c *)

(** The table: call numbers of include/syscall.h and their handlers. *)
Definition syscalls (num : Z) : option (M sys Z) :=
  let k (m : M kern Z) := Some (zoom kern_of_sys m) in
  match num with
  | 1 => k sys_fork
  | 2 => k sys_exit
  | 3 => k sys_wait
  | 4 => k (sys_pipe kend)
  | 5 => k sys_write
  | 6 => k sys_read
  | 7 => k (sys_close kend)
  | 8 => k sys_kill
  | 9 => k (sys_exec kend kdata)
  | 10 => k (sys_open kend)
  | 11 => k sys_mknod
  | 12 => k sys_unlink
  | 13 => k sys_fstat
  | 14 => k sys_link
  | 15 => k sys_mkdir
  | 16 => k sys_chdir
  | 17 => k sys_dup
  | 18 => k sys_getpid
  | 19 => k sys_sbrk
  | 20 => Some sys_sleep
  | 21 => Some sys_uptime
  | 22 => k sys_tagFile
  | 23 => k sys_removeFileTag
  | 24 => k sys_getFileTag
  | 25 => k sys_getAllTags
  | 26 => k sys_getFilesByTag
  | _ => None
  end.

Definition NSYSCALLS : Z := 27.

Definition set_eax (v : Z) : M sys unit :=
  zoom pt_of_sys (modify (upd_cur (fun p => p_set_tf (tf_set_eax (u32 v) (p_tf p)) p))).

Definition syscall : M sys unit :=
  let! p := gets scur in
  let num := s32 (tf_eax (p_tf p)) in
  match (if (0 <? num) && (num <? NSYSCALLS) then syscalls num else None) with
  | Some h => let! r := h in set_eax r
  | None => set_eax (-1)
  end.

(** ** trap.c *)

(** [exit] if the process has been killed and [user] holds. *)
Definition exit_if_killed (user : bool) : M sys unit :=
  let! t := gets (lget pt_of_sys) in
  match pt_cur t with
  | Some _ => if negb (p_killed (cur_proc t) =? 0) && user then zoom kern_of_sys exit_thread else ret tt
  | None => ret tt
  end.

Definition timer_tick (cpuid : Z) : M sys unit :=
  if cpuid =? 0 then
    modify (fun s => y_set_ticks (u32 (y_ticks s + 1)) s);;;
    zoom pt_of_sys (wakeup ChTicks)
  else ret tt.

(** The interrupts and exceptions.  The keyboard and the serial port are in
    Console and Kbd, whose state is not part of [sys]; [disk_ok] is the status
    of the disk controller. *)
Definition trap_cause (cpuid : Z) (disk_ok : bool) (tf : trapframe) : M sys unit :=
  let no := tf_trapno tf in
  if no =? T_IRQ0 + IRQ_TIMER then timer_tick cpuid
  else if no =? T_IRQ0 + IRQ_IDE then zoom bio_of_sys (ideintr disk_ok)
  else if (no =? T_IRQ0 + IRQ_IDE + 1) || (no =? T_IRQ0 + IRQ_KBD) || (no =? T_IRQ0 + IRQ_COM1)
    || (no =? T_IRQ0 + 7) || (no =? T_IRQ0 + IRQ_SPURIOUS) then ret tt
  else
    let! t := gets (lget pt_of_sys) in
    match pt_cur t with
    | None => panic "trap"
    | Some _ =>
        if Z.land (tf_cs tf) 3 =? 0 then panic "trap"
        else zoom pt_of_sys (modify (upd_cur (p_set_killed 1)))
    end.

(** The switch away of [yield]; the process goes on in [trap_yielded] when it
    is scheduled again. *)
Definition trap_yielded (tf : trapframe) : M sys unit :=
  exit_if_killed (Z.land (tf_cs tf) 3 =? DPL_USER).

Definition trap (cpuid : Z) (disk_ok : bool) (tf : trapframe) : M sys unit :=
  if tf_trapno tf =? T_SYSCALL then
    exit_if_killed true;;;
    zoom pt_of_sys (modify (upd_cur (p_set_tf tf)));;;
    syscall;;;
    exit_if_killed true
  else
    trap_cause cpuid disk_ok tf;;;
    exit_if_killed (Z.land (tf_cs tf) 3 =? DPL_USER);;;
    let! t := gets (lget pt_of_sys) in
    match pt_cur t with
    | Some _ =>
        if decide (p_state (cur_proc t) = RUNNING) then
          if tf_trapno tf =? T_IRQ0 + IRQ_TIMER then
            zoom pt_of_sys (modify yield_slot);;; sleep_on ChNone
          else trap_yielded tf
        else trap_yielded tf
    | None => trap_yielded tf
    end.

End syscall.

(** ** Lemmas *)

Section specs.
Context {DV : Devsw} (kend kdata : Z).

(** The table has a handler for exactly the numbers 1 to 26. *)
Lemma syscalls_some num : is_Some (syscalls kend kdata num) <-> 1 <= num <= 26.
Proof.
  split.
  - intros [m Hm]. destruct num as [|p|p]; [done| |done]. unfold syscalls in Hm.
    do 5 (destruct p as [p|p|]; try done; try lia).
  - intros Hn. assert (forall n, 1 <= n <= 26 -> n ∈ seqZ 1 26) as Hin by (intros; apply elem_of_seqZ; lia).
    apply Hin in Hn. repeat (apply elem_of_cons in Hn as [->|Hn]; [by eexists|]). by apply elem_of_nil in Hn.
Qed.

(** The call number decides, and the result is returned in [eax]. *)
Lemma syscall_spec s num h :
  s32 (tf_eax (p_tf (scur s))) = num -> syscalls kend kdata num = Some h ->
  syscall kend kdata s = bind h set_eax s.
Proof.
  intros Hn Hh. unfold syscall, bind at 1, gets. rewrite Hn.
  assert (1 <= num <= 26) as Hr by (apply syscalls_some; by eexists).
  rewrite (proj2 (Z.ltb_lt 0 num)), (proj2 (Z.ltb_lt num NSYSCALLS)) by (unfold NSYSCALLS; lia).
  cbn [andb]. by rewrite Hh.
Qed.

Lemma syscall_unknown s :
  ~ 1 <= s32 (tf_eax (p_tf (scur s))) <= 26 -> syscall kend kdata s = set_eax (-1) s.
Proof.
  intros Hn. unfold syscall, bind at 1, gets. set (num := s32 _) in *.
  destruct ((0 <? num) && (num <? NSYSCALLS)) eqn:E; [|done].
  destruct (syscalls kend kdata num) as [m|] eqn:Em; [|done]. exfalso. apply Hn. apply syscalls_some. by eexists.
Qed.

End specs.
