(* ===== verification/PropTags.v ===== *)
(** * Properties of the file tags

    What the tag system calls of kernel/fs.c promise: on a file's inode they
    are insertion, deletion, lookup and listing of a finite map from keys to
    values, whatever the buffer cache, the block allocator and the inode cache
    do underneath. *)

From S2P Require Import Prelude Monad Params CString Kalloc ProcTable Ide Bio Lru Block Alloc.
From S2P Require Import Inode Bmap Icache Content Dir File Tags TagSpec TagCalls Image.

(** ** Arguments *)

(** [fd] names the open file [f] of inode [ip], open in [mode], and [i] is its
    state in the inode cache. *)
Record tag_open (mode : file -> Z) (fd : Z) (ip : nat) (i : inode) (s : kern) : Prop := {
  oi_fd : exists f, fd_lookup fd s = Some f /\ inode_of mode (file_at f s) = Some ip;
  oi_cached : fs_inode (k_fs s) !! ip = Some i;
  oi_tags : tag_inode (fs_bio (k_fs s)) i;
}.

(** The tags of the file in a kernel state. *)
Definition ktags (s : kern) (i : inode) : gmap (list Z) (list Z) := tag_map (fs_bio (k_fs s)) i.


(** ** The calls *)

(** C1: [tagFile] on a file open for writing, with a key of 1 to 9 characters
    and a value of at most 18 bytes, returns 1 and the file's tags are what
    they were with the key bound to the value (zero-padded); or the file
    already has 16 tags and not this one, the result is -1 and the tags are
    unchanged.  Of the disk nothing changes but the file's tag block and, when
    the file had none, the one bit of the bitmap for the lowest free block,
    which becomes its tag block: no block is lost ([tag_done], [tag_disk]).
    The only panic is that of a full disk. *)
Theorem tagFile_correct s fd ip i key value n :
  tag_open f_writable fd ip i s -> bad_key key = false -> isnull value = false -> 0 <= n <= 18 ->
  Forall is_byte (c_mem key) -> Forall is_byte (c_mem value) ->
  wpe (tagFile fd key value n)
    (fun r s' =>
       (r = 1 /\ tag_done ip i (<[cstr (c_mem key) := pad18 (c_mem value) n]> (ktags s i)) s s') \/
       (r = -1 /\ size (ktags s i) = Z.to_nat NTAG /\ ktags s i !! cstr (c_mem key) = None /\
        tag_done ip i (ktags s i) s s'))
    (fun msg s' => msg = OOB /\ full (fs_bio (k_fs s')) (i_dev i)) s.
Proof. intros [(f & Hf & Hm) Hip Hi] ?????. by eapply tagFile_run. Qed.

(** The witnesses' arguments: strings at some user address. *)
Definition str_ptr (x : string) : cptr := Cptr 4096 (cbytes x).

Lemma img_open mode : mode img_ofile <> 0 -> tag_open mode 0 1 img_file img_kern.
Proof.
  intros Hm. split; [|done|exact img_tag_inode]. exists 0%nat. split.
  - unfold fd_lookup. destruct img_bio_ok as (_ & _ & Hp).
    change (lget pt_of_kern img_kern) with (bio_pt img_bio). by rewrite Hp.
  - unfold inode_of. change (file_at 0 img_kern) with img_ofile. rewrite decide_True by done.
    by rewrite (proj2 (Z.eqb_neq _ _) Hm).
Qed.

Lemma tagFile_correct_witness :
  wpe (tagFile 0 (str_ptr "owner") (str_ptr "ann") 3)
    (fun r s' =>
       (r = 1 /\ tag_done 1 img_file (<[bytes_of "owner" := pad18 (bytes_of "ann") 3]> (ktags img_kern img_file))
          img_kern s') \/
       (r = -1 /\ size (ktags img_kern img_file) = Z.to_nat NTAG /\
        ktags img_kern img_file !! bytes_of "owner" = None /\ tag_done 1 img_file (ktags img_kern img_file) img_kern s'))
    (fun msg s' => msg = OOB /\ full (fs_bio (k_fs s')) 1) img_kern.
Proof.
  apply (tagFile_correct img_kern 0 1 img_file (str_ptr "owner") (str_ptr "ann") 3);
    [by apply img_open|done|done|lia|by apply bytes_test|by apply bytes_test].
Defined.



(** C3: [removeFileTag] deletes the key from the file's tags and returns 1, or
    returns -1 because the file has no such tag, whose tags are then
    unchanged.  It never panics. *)
Theorem removeFileTag_correct s fd ip i key :
  tag_open f_writable fd ip i s -> bad_key key = false ->
  wpe (removeFileTag fd key)
    (fun r s' =>
       (r = 1 /\ is_Some (ktags s i !! cstr (c_mem key)) /\
        tag_done ip i (delete (cstr (c_mem key)) (ktags s i)) s s') \/
       (r = -1 /\ ktags s i !! cstr (c_mem key) = None /\
        (s' = s \/ tag_done ip i (ktags s i) s s')))
    (fun _ _ => False) s.
Proof. intros [(f & Hf & Hm) Hip Hi] ?. by eapply removeFileTag_run. Qed.

Lemma removeFileTag_correct_witness :
  wpe (removeFileTag 0 (str_ptr "color"))
    (fun r s' =>
       (r = 1 /\ is_Some (ktags img_kern img_file !! bytes_of "color") /\
        tag_done 1 img_file (delete (bytes_of "color") (ktags img_kern img_file)) img_kern s') \/
       (r = -1 /\ ktags img_kern img_file !! bytes_of "color" = None /\
        (s' = img_kern \/ tag_done 1 img_file (ktags img_kern img_file) img_kern s')))
    (fun _ _ => False) img_kern.
Proof. apply (removeFileTag_correct img_kern 0 1 img_file (str_ptr "color")); [by apply img_open|done]. Defined.

(** C4: [getAllTags] on a file open for reading and every [maxTag] from 0 on
    lists the keys of the file: with room for all of them it returns their
    number and the NUL-terminated keys, each once; otherwise -1, with the first
    [maxTag] keys copied out.  So [maxTag = 0] and [maxTag = 1] are accepted,
    and writing is not needed, against the comments in the code.  The tags do
    not change; the disk only by the tag block of a file that had none
    ([tag_done]), and if there is no free block for it the call panics. *)
Theorem getAllTags_correct s fd ip i keys maxTag :
  tag_open f_readable fd ip i s -> keys <> 0 -> 0 <= maxTag ->
  wpe (getAllTags fd keys maxTag)
    (fun r s' => exists names,
       NoDup names /\ list_to_set names = dom (ktags s i) /\
       (if Z.of_nat (size (ktags s i)) <=? maxTag
        then r = (Z.of_nat (size (ktags s i)), (fun n => n ++ [0]) <$> names)
        else r = (-1, take (Z.to_nat maxTag) ((fun n => n ++ [0]) <$> names))) /\
       tag_done ip i (ktags s i) s s')
    (fun msg s' => msg = OOB /\ full (fs_bio (k_fs s')) (i_dev i)) s.
Proof.
  intros [(f & Hf & Hm) Hip Hi] Hk Hmax. eapply wpe_mono; [by eapply getAllTags_run| |done].
  cbv beta. intros r s' (str & Hw & HT & -> & Hd). exists (t_names str).
  destruct (t_names_spec str Hw) as (Hn & _ & Hs). unfold ktags. rewrite <- HT.
  split_and!; [done|done| |by rewrite HT]. rewrite list_tags_names by done. by destruct (_ <=? _).
Qed.

Lemma getAllTags_correct_witness :
  wpe (getAllTags 0 8192 16)
    (fun r s' => exists names,
       NoDup names /\ list_to_set names = dom (ktags img_kern img_file) /\
       (if Z.of_nat (size (ktags img_kern img_file)) <=? 16
        then r = (Z.of_nat (size (ktags img_kern img_file)), (fun n => n ++ [0]) <$> names)
        else r = (-1, take (Z.to_nat 16) ((fun n => n ++ [0]) <$> names))) /\
       tag_done 1 img_file (ktags img_kern img_file) img_kern s')
    (fun msg s' => msg = OOB /\ full (fs_bio (k_fs s')) 1) img_kern.
Proof. apply (getAllTags_correct img_kern 0 1 img_file 8192 16); [by apply img_open|done|lia]. Defined.

(** ** Errors *)

(** C5: a call with a descriptor that is not open, a file not open in the
    right mode, a key of the wrong length or a value that is too long returns
    -1 and changes nothing. *)
Theorem tag_calls_reject s fd key value n keys maxTag :
  let ino mode := fd_lookup fd s ≫= fun f => inode_of mode (file_at f s) in
  (ino f_writable = None \/ bad_key key = true ->
     tagFile fd key value n s = Ret (-1) s /\ removeFileTag fd key s = Ret (-1) s /\
     getFileTag fd key n s = Ret (-1, []) s) /\
  (isnull value = true \/ n < 0 \/ 18 < n -> tagFile fd key value n s = Ret (-1) s) /\
  (ino f_readable = None \/ keys = 0 \/ maxTag < 0 -> getAllTags fd keys maxTag s = Ret (-1, []) s).
Proof.
  cbv zeta. split_and!.
  - unfold tagFile, removeFileTag, getFileTag, fd_file, bind, gets.
    destruct (fd_lookup fd s) as [f|]; [|done]. cbn [mbind option_bind].
    destruct (inode_of f_writable _) as [ip|]; [|done]. intros [|Hk]; [done|]. rewrite Hk.
    split_and!; [done| |done]. by destruct (_ =? 0).
  - unfold tagFile, fd_file, bind, gets. intros Hv.
    assert (isnull value || (n <? 0) || (18 <? n) = true) as ->
      by (rewrite !orb_true_iff, !Z.ltb_lt; tauto).
    destruct (fd_lookup fd s) as [f|]; [|done]. destruct (inode_of f_writable _) as [ip|]; [|done].
    by destruct (bad_key key).
  - unfold getAllTags, fd_file, bind, gets.
    destruct (fd_lookup fd s) as [f|]; [|done]. cbn [mbind option_bind].
    destruct (inode_of f_readable _) as [ip|]; [|done]. intros [|Hk]; [done|].
    assert ((keys =? 0) || (maxTag <? 0) = true) as -> by (rewrite orb_true_iff, Z.eqb_eq, Z.ltb_lt; tauto).
    done.
Qed.

(** ** Where the calls differ from what their callers expect *)

(** With a buffer longer than the value, [getFileTag] does not return the
    value's length: it returns the length of the buffer, at most 18, and
    copies the padding as well. *)
Theorem getFileTag_long_buffer s fd ip i key v m :
  tag_open f_writable fd ip i s -> bad_key key = false ->
  ktags s i !! cstr (c_mem key) = Some v -> 18 <= m ->
  wpe (getFileTag fd key m) (fun r _ => r = (18, slice 0 18 v)) (fun _ _ => False) s.
Proof.
  intros [(f & Hf & Hm) Hip Hi] Hk Hv Hl. eapply wpe_mono; [by eapply getFileTag_run| |done].
  cbv beta. intros r s' (-> & _). unfold ktags in Hv. rewrite Hv.
  destruct (value_len_spec 19 v m 0) as (H1 & H2 & _); [lia|lia|].
  assert (value_len 19 v m 0 = 18) as -> by lia. cbv zeta. by rewrite (proj2 (Z.ltb_ge m 18)) by lia.
Qed.

Lemma img_tag_color : ktags img_kern img_file !! bytes_of "color" = Some (pad18 (bytes_of "red") 3).
Proof.
  unfold ktags, tag_map. change (fs_bio (k_fs img_kern)) with img_bio. cbn [i_tags img_file Z.eqb i_dev].
  rewrite img_sector. by vm_compute.
Qed.

Lemma getFileTag_long_buffer_witness :
  wpe (getFileTag 0 (str_ptr "color") 32) (fun r _ => r = (18, bytes_of "red" ++ zeros 15))
    (fun _ _ => False) img_kern.
Proof.
  apply (getFileTag_long_buffer img_kern 0 1 img_file (str_ptr "color") (pad18 (bytes_of "red") 3) 32);
    [by apply img_open|done|exact img_tag_color|lia].
Defined.

(** C32: the tag block's address is not part of what [iget] and [ilock] set up:
    an inode that was not cached gets the address left in its cache slot by
    the inode that used the slot before, whatever its own disk inode says. *)
Theorem tags_of_previous_inode s dev inum :
  icache_ok (fs_inode s) -> Forall (fun x => ~ i_match dev inum x) (fs_inode s) ->
  holds (fs_bio s) ∅ -> dev = 0 \/ dev = 1 -> geom (sb_of (fs_bio s) dev) ->
  inum_ok (sb_of (fs_bio s) dev) inum ->
  wpe (let! ip := iget dev inum in ilock (Some ip);;; ret ip)
    (fun ip s' => exists old new, fs_inode s !! ip = Some old /\ i_ref old = 0 /\
       fs_inode s' !! ip = Some new /\ i_match dev inum new /\ i_locked new /\
       i_type new = di_type (di_of (fs_bio s) dev inum) /\ i_tags new = i_tags old)
    (fun msg s' => msg = "iget: no inodes" \/ msg = "ilock: no type") s.
Proof.
  intros Hc Hno Hh Hd Hg Hi. apply wpe_bind. eapply wpe_mono; [by apply iget_spec| |naive_solver].
  cbv beta. intros ip s1 (Eb & _ & old & i1 & Hold & Es & Hm & [(Hm' & _)|(_ & Hr & ->)]).
  { rewrite Forall_forall in Hno. by destruct (Hno old (list_elem_of_lookup_2 _ _ _ Hold)). }
  assert (fs_inode s1 !! ip = Some (i_fresh dev inum old)) as Hl
    by (rewrite Es; by apply (lookup_set_inode _ _ old)).
  apply wpe_bind. eapply wpe_mono.
  - apply (ilock_spec s1 ip (i_fresh dev inum old) Hl); rewrite ?Eb; [done..|by left].
  - cbv beta zeta. rewrite Eb. intros _ s2 (Es2 & _). apply wpe_wp, wp_ret.
    exists old, (i_set_flags (Z.lor I_BUSY I_VALID) (i_load (di_of (fs_bio s) dev inum) (i_fresh dev inum old))).
    split_and!; [done|done| |done|done|done|done].
    rewrite Es2, Es. change (i_flags (i_fresh dev inum old) =? 0) with true. cbv iota.
    rewrite list_insert_insert_eq. by apply (lookup_set_inode _ _ old).
  - cbv beta. intros msg s2 (-> & _). by right.
Qed.

Lemma tags_of_previous_inode_witness :
  wpe (let! ip := iget 1 3 in ilock (Some ip);;; ret ip)
    (fun ip s' => exists old new, fs_inode img_fs !! ip = Some old /\ i_ref old = 0 /\
       fs_inode s' !! ip = Some new /\ i_match 1 3 new /\ i_locked new /\
       i_type new = di_type (di_of img_bio 1 3) /\ i_tags new = i_tags old)
    (fun msg s' => msg = "iget: no inodes" \/ msg = "ilock: no type") img_fs.
Proof.
  apply (tags_of_previous_inode img_fs 1 3); [exact img_icache| |apply img_bio_ok|by right| |].
  - unfold img_fs. cbn [fs_inode]. do 2 (constructor; [by intros (_ & _ & Hn)|]).
    apply Forall_replicate. by intros (Hn & _).
  - exact (ao_geom _ _ _ (ai_ok _ _ _ img_alloc)).
  - change (fs_bio img_fs) with img_bio. by rewrite img_sb_of.
Defined.
