(* ===== verification/PropFs.v ===== *)
(** * Properties of the file system

    The contracts of kernel/bio.c and kernel/fs.c below the tags: the buffer
    cache, the block allocator, the inodes and their contents, directories and
    path names. *)

From S2P Require Import Prelude Monad Params CString Kalloc ProcTable Ide Bio Lru Block Alloc.
From S2P Require Import Inode Bmap Icache Content Itrunc Dir Path Ends TagCalls Image.

(** ** Inode contents *)

(** A cached inode that is a file or a directory, with its blocks in order. *)
Record plain_file (s : fs) (ip : nat) (i : inode) : Prop := {
  pf_cached : fs_inode s !! ip = Some i;
  pf_alloc : alloc_inv (fs_bio s) ∅ (i_dev i);
  pf_file : file_ok (fs_bio s) i;
  pf_type : i_type i <> T_DEV;
  pf_size : 0 <= i_size i <= MAXFILE * BSIZE;
  pf_inum : inum_ok (sb_of (fs_bio s) (i_dev i)) (i_inum i);
}.

Lemma plain_written s s' ip i i' src off n :
  plain_file s ip i -> fs_inode s' = <[ip := i']> (fs_inode s) ->
  written (fs_bio s) (fs_bio s') i i' src off n -> 0 <= off -> 0 <= n -> off + n <= MAXFILE * BSIZE ->
  plain_file s' ip i' /\ i_dev i' = i_dev i /\ i_size i' = Z.max (i_size i) (off + n).
Proof.
  intros [Hc Ha Hf Ht Hz Hi] E W Ho Hn Hm.
  assert (i_dev i' = i_dev i /\ i_size i' = Z.max (i_size i) (off + n) /\ i_type i' = i_type i /\
    i_inum i' = i_inum i) as (Ed & Es & Et & En) by (rewrite (wr_inode _ _ _ _ _ _ _ W); done).
  split; [|done]. split.
  - rewrite E. by apply (lookup_set_inode _ _ i).
  - rewrite Ed. apply W.
  - apply W.
  - by rewrite Et.
  - rewrite Es. lia.
  - by rewrite Ed, En, (wr_sb _ _ _ _ _ _ _ W).
Qed.

(** The bytes read at the place they were written to. *)
Lemma patched_bytes s s' i i' src off n :
  patched s s' i i' src 0 off n -> 0 <= off -> off + n <= MAXFILE * BSIZE -> 0 <= n ->
  fbyte s' i' <$> seqZ off n = slice 0 n src.
Proof.
  intros Hp Ho Hm Hn. apply nthb_ext.
  - by rewrite length_fmap, length_seqZ, length_slice.
  - rewrite length_fmap, length_seqZ. intros k Hk. rewrite nthb_fmap_seqZ, nthb_slice, Hp by lia.
    rewrite (proj2 (Z.leb_le off (off + k))), (proj2 (Z.ltb_lt (off + k) (off + n))) by lia. f_equal. lia.
Qed.

(** C6: what [writei] wrote, [readi] reads back: a write of [n] bytes anywhere
    up to the end of the file, within the maximal file size, followed by a
    read at the same place gives those bytes, across blocks, the indirect
    block included.  Only a full disk panics. *)
Theorem read_after_write {DV : Devsw} s ip i src off n :
  plain_file s ip i -> Forall is_byte src ->
  0 <= off <= i_size i -> 0 <= n -> off + n <= MAXFILE * BSIZE ->
  wpe (let! w := writei ip src off n in
       let! r := readi ip off n in ret (w, r))
    (fun x _ => x = (n, (n, slice 0 n src))) (no_space (i_dev i)) s.
Proof.
  intros Hp Hb Ho Hn Hm. assert (MAXFILE * BSIZE < 2 ^ 32) as Hmax by done.
  pose proof Hp as [Hc Ha Hf Ht Hz Hi]. apply wpe_bind.
  eapply wpe_mono; [apply (writei_spec s ip i); (done || lia)| |done]. cbv beta. intros w s1.
  rewrite (proj2 (Z.ltb_ge (i_size i) off)), (proj2 (Z.leb_gt (2 ^ 32) (off + n))) by lia. cbn [orb].
  cbv zeta. rewrite Z.min_l by lia. intros (-> & i1 & E1 & W).
  destruct (plain_written s s1 ip i i1 src off n) as (Hp1 & Ed & Es); [done..|lia|lia|lia|].
  apply wpe_bind. destruct Hp1 as [Hc1 Ha1 Hf1 Ht1 Hz1 Hi1].
  eapply wpe_mono; [apply (readi_spec s1 ip i1); (done || lia)| |by rewrite Ed].
  cbv beta. intros r s2 (-> & _). apply wpe_wp, wp_ret. f_equal. unfold read_result.
  rewrite (proj2 (Z.ltb_ge (i_size i1) off)), (proj2 (Z.leb_gt (2 ^ 32) (off + n))) by lia. cbn [orb].
  cbv zeta. rewrite Z.min_l by lia. f_equal. eapply patched_bytes; [apply W|lia..].
Qed.

Lemma img_plain : plain_file img_fs 1 img_file.
Proof.
  split; [done|exact img_alloc|exact img_file_ok|done|by split; vm_compute|]. by apply img_inum.
Qed.

(** No devices. *)
Definition no_devsw : Devsw := {| devsw_read := fun _ => None; devsw_write := fun _ => None |}.

Lemma read_after_write_witness :
  wpe (let! w := writei (DV := no_devsw) 1 (bytes_of "HELLO, disk") 5 11 in
       let! r := readi (DV := no_devsw) 1 5 11 in ret (w, r))
    (fun x _ => x = (11, (11, bytes_of "HELLO, disk"))) (no_space 1) img_fs.
Proof.
  apply (read_after_write (DV := no_devsw) img_fs 1 img_file (bytes_of "HELLO, disk") 5 11);
    [exact img_plain|by apply bytes_test|by split; vm_compute|lia|by vm_compute].
Defined.

(** Two files that share no block. *)
Definition disjoint_files (s : bio) (i j : inode) : Prop :=
  forall k k', 0 <= k < NSLOT -> 0 <= k' < NSLOT -> slot s j k' <> 0 -> slot s i k <> slot s j k'.

Lemma written_other s s' i i' j src off n :
  written s s' i i' src off n -> i_dev j = i_dev i -> file_ok s j -> disjoint_files s i j ->
  (forall k, 0 <= k < NSLOT -> slot s' j k = slot s j k) /\
  forall o, 0 <= o < MAXFILE * BSIZE -> fbyte s' j o = fbyte s j o.
Proof.
  intros W Ed Hj Hd.
  assert (forall k, 0 <= k < NSLOT -> slot s j k <> 0 ->
    sector_of s' (i_dev j) (slot s j k) = sector_of s (i_dev j) (slot s j k)) as Hs.
  { intros k Hk Hn. destruct (fo_block _ _ Hj k Hk Hn) as [Hdb Hu]. rewrite Ed in *.
    apply (wr_same _ _ _ _ _ _ _ W); [done..|]. intros k' Hk'. by apply Hd. }
  assert (forall k, 0 <= k < NSLOT -> slot s' j k = slot s j k) as Hsl.
  { intros k Hk. unfold slot. destruct (k <? NDIRECT + 1); [done|].
    destruct (Z.eqb_spec (nthb (i_addrs j) NDIRECT) 0) as [|Hn]; [done|].
    specialize (Hs NDIRECT ltac:(by split; vm_compute)). unfold slot in Hs. cbn -[nthb sector_of] in Hs.
    f_equal. by apply Hs. }
  split; [done|]. intros o Ho. pose proof (proj1 (pos_range _ (off_block _ Ho))) as Hp. unfold fbyte.
  rewrite Hsl by done. destruct (Z.eqb_spec (slot s j (pos (o / BSIZE))) 0) as [|Hn]; [done|].
  by rewrite Hs.
Qed.

(** C7: [writei] touches no other file: the bytes of any file on the device
    that shares no block with the written one are the same afterwards, and so
    are all disk inodes in other inode blocks. *)
Theorem writei_isolated {DV : Devsw} s ip i src off n j :
  plain_file s ip i -> Forall is_byte src -> 0 <= off < 2 ^ 32 -> 0 <= n < 2 ^ 32 ->
  i_dev j = i_dev i -> file_ok (fs_bio s) j -> disjoint_files (fs_bio s) i j ->
  wpe (writei ip src off n)
    (fun r s' => (forall o, 0 <= o < MAXFILE * BSIZE -> fbyte (fs_bio s') j o = fbyte (fs_bio s) j o) /\
       forall k, k < BBLOCK 0 (sb_ninodes (sb_of (fs_bio s) (i_dev i))) -> k <> IBLOCK (i_inum i) ->
         sector_of (fs_bio s') (i_dev i) k = sector_of (fs_bio s) (i_dev i) k)
    (no_space (i_dev i)) s.
Proof.
  intros [Hc Ha Hf Ht Hz Hi] Hb Ho Hn Ed Hj Hd.
  eapply wpe_mono; [by apply (writei_spec s ip i)| |done]. cbv beta. intros r s'.
  destruct (_ || _); [by intros (_ & ->)|]. cbv zeta. intros (_ & i' & _ & W). split.
  - by eapply written_other.
  - apply W.
Qed.

Lemma img_disjoint : disjoint_files img_bio img_file img_root.
Proof.
  intros k k' Hk Hk'. rewrite (one_block_slot _ img_file 7), (one_block_slot _ img_root 6) by (done || lia).
  by destruct (k =? 0), (k' =? 0).
Qed.

Lemma writei_isolated_witness :
  wpe (writei (DV := no_devsw) 1 (bytes_of "abc") 0 3)
    (fun r s' => (forall o, 0 <= o < MAXFILE * BSIZE -> fbyte (fs_bio s') img_root o = fbyte img_bio img_root o) /\
       forall k, k < BBLOCK 0 (sb_ninodes (sb_of img_bio 1)) -> k <> IBLOCK 2 ->
         sector_of (fs_bio s') 1 k = sector_of img_bio 1 k)
    (no_space 1) img_fs.
Proof.
  apply (writei_isolated (DV := no_devsw) img_fs 1 img_file (bytes_of "abc") 0 3 img_root);
    [exact img_plain|by apply bytes_test|lia|lia|done|exact img_root_ok|exact img_disjoint].
Defined.

(** [readi] on every branch: -1 when the offset is behind the end of the
    file or the range overflows, and otherwise the bytes of the file from the
    offset on, cut at the end of the file.  Reading changes no byte of the
    file. *)
Theorem readi_correct {DV : Devsw} s ip i off n :
  plain_file s ip i -> 0 <= off < 2 ^ 32 -> 0 <= n < 2 ^ 32 ->
  wpe (readi ip off n)
    (fun r s' =>
       r = (if (i_size i <? off) || (2 ^ 32 <=? off + n) then (-1, [])
            else let m := Z.min n (i_size i - off) in (m, fbyte (fs_bio s) i <$> seqZ off m)) /\
       exists i', fs_inode s' = <[ip := i']> (fs_inode s) /\
         forall o, 0 <= o < MAXFILE * BSIZE -> fbyte (fs_bio s') i' o = fbyte (fs_bio s) i o)
    (no_space (i_dev i)) s.
Proof.
  intros [Hc Ha Hf Ht Hz Hi] Ho Hn. eapply wpe_mono; [by apply (readi_spec s ip i)| |done].
  cbv beta. intros r s' (-> & i' & E & B). split; [done|]. exists i'. split; [done|apply B].
Qed.

Lemma readi_correct_witness :
  wpe (readi (DV := no_devsw) 1 3 100)
    (fun r s' => r = (2, fbyte img_bio img_file <$> [3; 4]) /\
       exists i', fs_inode s' = <[1%nat := i']> (fs_inode img_fs) /\
         forall o, 0 <= o < MAXFILE * BSIZE -> fbyte (fs_bio s') i' o = fbyte img_bio img_file o)
    (no_space 1) img_fs.
Proof. apply (readi_correct (DV := no_devsw) img_fs 1 img_file 3 100); [exact img_plain|lia|lia]. Defined.

(** C25: dropping the last reference to a file no directory names gives back
    every block of its contents, that is those its address slots name: direct,
    indirect and the indirect block itself.  They are zeroed and marked free,
    and no other block is; the other data blocks keep their contents; the disk
    inode is free again (type 0).  The tag block of the file is not among the
    blocks given back: it keeps its contents and stays marked in use, although
    after that no inode leads to it. *)
Theorem iput_frees s ip i :
  plain_file s ip i -> inode_wf i -> i_ref i = 1 -> i_flags i = I_VALID -> i_nlink i = 0 ->
  wp (iput ip) (fun _ s' =>
    let sb := sb_of (fs_bio s) (i_dev i) in
    let own b := b <> 0 /\ exists k, 0 <= k < NSLOT /\ slot (fs_bio s) i k = b in
    (forall b, 0 <= b < nbits sb ->
       used (fs_bio s') (i_dev i) sb b = true <->
       used (fs_bio s) (i_dev i) sb b = true /\ ~ own b) /\
    (forall b, own b -> sector_of (fs_bio s') (i_dev i) b = zeros BSIZE) /\
    (forall b, data_block sb b -> ~ own b -> sector_of (fs_bio s') (i_dev i) b = sector_of (fs_bio s) (i_dev i) b) /\
    di_type (di_of (fs_bio s') (i_dev i) (i_inum i)) = 0 /\
    (data_block sb (i_tags i) -> used (fs_bio s) (i_dev i) sb (i_tags i) = true -> ~ own (i_tags i) ->
     used (fs_bio s') (i_dev i) sb (i_tags i) = true /\
     sector_of (fs_bio s') (i_dev i) (i_tags i) = sector_of (fs_bio s) (i_dev i) (i_tags i))) s.
Proof.
  intros [Hc Ha Hf Ht Hz Hi] Hw Hr Hv Hl. eapply wp_mono; [by apply (iput_last s ip i)|].
  cbv beta zeta. intros _ s' (L & _ & HL & [_ Hu Hs _] & HZ & HT & _).
  assert (forall b, b ∈ L <-> b <> 0 /\ exists k, 0 <= k < NSLOT /\ slot (fs_bio s) i k = b) as HL'.
  { intros b. rewrite (HL b). naive_solver. }
  assert (forall b, 0 <= b < nbits (sb_of (fs_bio s) (i_dev i)) ->
    used (fs_bio s') (i_dev i) (sb_of (fs_bio s) (i_dev i)) b = true <->
    used (fs_bio s) (i_dev i) (sb_of (fs_bio s) (i_dev i)) b = true /\ b ∉ L) as Hu'.
  { intros b Hb. rewrite Hu, andb_true_iff, negb_true_iff, bool_decide_eq_false by done. tauto. }
  assert (forall b, data_block (sb_of (fs_bio s) (i_dev i)) b -> b ∉ L ->
    sector_of (fs_bio s') (i_dev i) b = sector_of (fs_bio s) (i_dev i) b) as Hs'.
  { intros b Hb HnL. apply Hs; [by apply data_not_bitmap|]. pose proof (iblock_range _ _ Hi).
    pose proof (ao_geom _ _ _ (ai_ok _ _ _ Ha)) as Hg. destruct (data_block_pos _ _ Hg Hb).
    pose proof (data_block_ne _ b 0 Hg Hb ltac:(lia)). intros [?|?]; [done|]. lia. }
  setoid_rewrite <- HL'. split_and!; [done|done|done|done|].
  intros Hd Hus Hn. split; [|by apply Hs']. apply Hu'; [|done].
  destruct (data_block_pos _ _ (ao_geom _ _ _ (ai_ok _ _ _ Ha)) Hd). unfold data_block in Hd. lia.
Qed.

(** The image's file after its last link was removed; its tag block is 8. *)
Definition img_unlinked : inode := i_set_nlink 0 img_file.
Definition img_unlinked_fs : fs := Fs img_bio (<[1%nat := img_unlinked]> (fs_inode img_fs)).

Lemma iput_frees_witness :
  wp (iput 1) (fun _ s' =>
    let sb := sb_of img_bio 1 in
    used (fs_bio s') 1 sb 7 <> true /\ used (fs_bio s') 1 sb 8 = true /\
    sector_of (fs_bio s') 1 7 = zeros BSIZE /\ di_type (di_of (fs_bio s') 1 2) = 0) img_unlinked_fs.
Proof.
  eapply wp_mono; [apply (iput_frees img_unlinked_fs 1 img_unlinked);
    [|destruct img_wf; split; try done; by split; vm_compute|done..]|].
  { split; [done|exact img_alloc|by apply (one_block_ok _ 7)|done|by split; vm_compute|by apply img_inum]. }
  cbv beta zeta. change (fs_bio img_unlinked_fs) with img_bio. change (i_dev img_unlinked) with 1.
  change (i_tags img_unlinked) with 8. change (i_inum img_unlinked) with 2.
  intros _ s' (Hu & Hz & _ & Ht & Htag). destruct (ti_tags _ _ img_tag_inode) as (Hd & Hus & _); [done|].
  split_and!; [|apply Htag; [exact Hd|exact Hus|]|apply Hz|done].
  - rewrite Hu by (rewrite img_sb_of; change (nbits _) with 4096; lia). intros [_ Hn]. destruct Hn.
    split; [done|]. by exists 0.
  - intros (_ & k & Hk & E). rewrite (one_block_slot _ _ 7) in E by (done || lia). by destruct (k =? 0).
  - split; [done|]. by exists 0.
Defined.

(** ** Blocks *)

(** C26: [balloc] marks and returns the lowest-numbered block the bitmap has
    free and changes nothing else on the disk; if no bit is clear it panics
    with the disk unchanged. *)
Theorem balloc_lowest s H dev :
  alloc_ok s H dev ->
  let sb := sb_of s dev in
  wpe (balloc dev)
    (fun b s' => keeps H s s' /\ first_free s dev sb b /\ bio_disk s' = mark_used s dev sb b)
    (fun msg s' => msg = "balloc: out of blocks" /\ bio_disk s' = bio_disk s /\
       forall k, 0 <= k < nbits sb -> used s dev sb k = true) s.
Proof. apply balloc_exact. Qed.

Lemma balloc_lowest_witness :
  let sb := sb_of img_bio 1 in
  wpe (balloc 1)
    (fun b s' => keeps ∅ img_bio s' /\ first_free img_bio 1 sb b /\ bio_disk s' = mark_used img_bio 1 sb b)
    (fun msg s' => msg = "balloc: out of blocks" /\ bio_disk s' = bio_disk img_bio /\
       forall k, 0 <= k < nbits sb -> used img_bio 1 sb k = true) img_bio.
Proof. apply (balloc_lowest img_bio ∅ 1). exact (ai_ok _ _ _ img_alloc). Defined.

(** A block taken with [balloc] and given back with [bfree] leaves the
    device's bitmap as it was, and every block's contents. *)
Theorem balloc_bfree s dev :
  alloc_inv s ∅ dev ->
  wpe (let! b := balloc dev in bfree dev b)
    (fun _ s' => alloc_inv s' ∅ dev /\
       (forall k, 0 <= k < nbits (sb_of s dev) ->
          used s' dev (sb_of s dev) k = used s dev (sb_of s dev) k) /\
       forall k, ~ is_bitmap (sb_of s dev) k -> sector_of s' dev k = sector_of s dev k)
    (fun msg s' => msg = OOB /\ full s' dev) s.
Proof.
  intros Ha. apply wpe_bind. eapply wpe_balloc; [done| |done].
  intros b s1 K1 G1 Ha1 Hz. pose proof G1 as (Hd & Hu & [Rsb Ru Rs _]).
  assert (geom (sb_of s dev)) as Hg by apply Ha. pose proof (data_block_pos _ _ Hg Hd) as [Hb Hnb].
  apply wpe_wp. eapply wp_bfree; [done|by rewrite Rsb|lia|done| |].
  { rewrite Rsb, Ru by (destruct Hd; lia). by rewrite Z.eqb_refl. }
  intros s2 K2 G2 Ha2. split; [done|]. split.
  - intros k Hk. by eapply grab_give.
  - intros k Hk. destruct G2 as [Gz [_ _ Gs _]]. rewrite Rsb in Gs.
    destruct (decide (k = b)) as [->|]; [by rewrite Gz, (ai_zero _ _ _ Ha) by (done || destruct Hd; lia)|].
    rewrite Gs by done. apply Rs; [done|tauto].
Qed.

Lemma balloc_bfree_witness :
  wpe (let! b := balloc 1 in bfree 1 b)
    (fun _ s' => alloc_inv s' ∅ 1 /\
       (forall k, 0 <= k < nbits (sb_of img_bio 1) ->
          used s' 1 (sb_of img_bio 1) k = used img_bio 1 (sb_of img_bio 1) k) /\
       forall k, ~ is_bitmap (sb_of img_bio 1) k -> sector_of s' 1 k = sector_of img_bio 1 k)
    (fun msg s' => msg = OOB /\ full s' 1) img_bio.
Proof. apply (balloc_bfree img_bio 1). exact img_alloc. Defined.

(** The bitmap has whole blocks of bits, and [balloc] does not compare
    what it finds with the size of the disk: when all blocks of the disk are
    in use and a bit behind them is clear, it returns a block number that is
    not on the disk. *)
Theorem balloc_past_end s H dev k :
  alloc_ok s H dev -> let sb := sb_of s dev in
  (forall b, 0 <= b < sb_size sb -> used s dev sb b = true) ->
  sb_size sb <= k < nbits sb -> used s dev sb k = false ->
  wp (balloc dev) (fun b _ => sb_size sb <= b) s.
Proof.
  intros Ho sb Hall Hk Hf. pose proof (ao_geom _ _ _ Ho) as Hg. fold sb in Hg.
  eapply wp_mono; [eapply (balloc_ok s H dev k); [done| |done]|].
  - destruct Hg. fold sb. lia.
  - cbv beta. intros b s' (_ & [Hb [Hu _]] & _). fold sb in Hu, Hb.
    destruct (Z.le_gt_cases (sb_size sb) b) as [|Hl]; [done|]. by rewrite Hall in Hu by lia.
Qed.

(** A disk of 9 blocks, all in use. *)
Definition img_full_disk : gmap (Z * Z) (list Z) :=
  <[(1, 1) := splice 0 (le_enc 4 9) img_sb]> img_disk.
Definition img_full : bio := bio_of_disk img_full_disk.

Lemma img_full_disk_ok k : is_block (disk_read img_full_disk k).
Proof. apply disk_insert; [apply block_test; by vm_compute|apply img_disk_ok]. Qed.

Lemma img_full_sector dev k : sector_of img_full dev k = disk_read img_full_disk (dev, k).
Proof.
  destruct (bio_of_disk_ok _ img_full_disk_ok) as (_ & E & _). unfold sector_of, img_full. by rewrite E.
Qed.

Lemma img_full_sb : sb_of img_full 1 = Superblock 9 1018 16.
Proof. unfold sb_of. rewrite img_full_sector. by vm_compute. Qed.

Lemma img_full_used b : 0 <= b < 4096 -> used img_full 1 (Superblock 9 1018 16) b = (b <? 9).
Proof.
  intros Hb. rewrite <- img_used by done. unfold used. rewrite img_sector, img_full_sector. f_equal.
  unfold BBLOCK. change BPB with 4096. by rewrite !Z.div_small by lia.
Qed.

Lemma img_full_ok : alloc_ok img_full ∅ 1.
Proof.
  split; rewrite ?img_full_sb; [apply bio_of_disk_ok, img_full_disk_ok|by right|by vm_compute| |done|done].
  rewrite map_size_empty. by vm_compute; lia.
Qed.

Lemma balloc_past_end_witness : wp (balloc 1) (fun b _ => 9 <= b) img_full.
Proof.
  assert (sb_size (sb_of img_full 1) = 9) as E by by rewrite img_full_sb.
  rewrite <- E. apply (balloc_past_end img_full ∅ 1 9); rewrite ?img_full_sb; [exact img_full_ok| |by split; vm_compute|].
  - intros b Hb. cbn [sb_size] in Hb. rewrite img_full_used by lia. lia.
  - by rewrite img_full_used.
Defined.

(** ** The buffer cache *)

(** C27: for drives that report no error (part of [holds]), [bread] returns a
    buffer nobody else has, with the sector's bytes; the buffers in use ([H])
    keep theirs, the disk does not change, and the invariant of the cache
    holds with one more buffer in use.  For a sector that is not cached and
    whose request fails it is different: [bread] returns as if nothing had
    happened, with a buffer marked valid for the sector that has the bytes it
    held before. *)
Theorem bread_exclusive s H dev sector :
  holds s H -> dev_sector_ok dev sector -> (size H < HEAD)%nat -> free_key H (dev, sector) ->
  wp (bread dev sector) (fun i s' =>
    H !! i = None /\ holds s' (<[i := (dev, sector)]> H) /\ bdata i s' = sector_of s dev sector /\
    bio_disk s' = bio_disk s /\ forall j, is_Some (H !! j) -> bdata j s' = bdata j s) s /\
  (forall bad, bad (dev, sector) = true -> (forall j, (j < HEAD)%nat -> caches s dev sector j = false) ->
   wp (bread dev sector) (fun i s' =>
     H !! i = None /\ b_flags (buf_at i s') = BV /\ caches s' dev sector i = true /\
     bdata i s' = bdata i s /\ bio_disk s' = bio_disk s) (bio_set_bad bad s)).
Proof.
  intros ????. split.
  - eapply wp_mono; [by apply bread_spec|]. naive_solver.
  - intros bad Hbad Hno. by apply bread_error.
Qed.

Lemma bread_exclusive_witness :
  wp (bread 1 7) (fun i s' =>
    (∅ : gmap nat (Z * Z)) !! i = None /\ holds s' (<[i := (1, 7)]> ∅) /\ bdata i s' = sector_of img_bio 1 7 /\
    bio_disk s' = bio_disk img_bio /\ forall j, is_Some ((∅ : gmap nat (Z * Z)) !! j) -> bdata j s' = bdata j img_bio)
    img_bio /\
  wp (bread 1 7) (fun i s' => b_flags (buf_at i s') = BV /\ bdata i s' = bdata i img_bio)
    (bio_set_bad (fun k => bool_decide (k = (1, 7))) img_bio).
Proof.
  destruct (bread_exclusive img_bio ∅ 1 7) as [H1 H2];
    [apply img_bio_ok|split; [by right|lia]|rewrite map_size_empty; by vm_compute; lia|done|].
  split; [exact H1|]. eapply wp_mono; [apply (H2 (fun k => bool_decide (k = (1, 7)))); [by apply bool_decide_eq_true|]|].
  2:{ intros i s' (_ & Hf & _ & Hd & _). exact (conj Hf Hd). }
  intros j Hj. assert (forallb (fun j => negb (caches img_bio 1 7 j)) (seq 0 HEAD) = true) as Hc by by vm_compute.
  rewrite forallb_forall in Hc. specialize (Hc j). rewrite in_seq in Hc.
  destruct (caches img_bio 1 7 j); [|done]. discriminate Hc. lia.
Defined.

(** A block written through the cache is read back, even after its
    buffer was released, and no other sector of either disk changes. *)
Theorem block_write_read s dev sector d :
  holds s ∅ -> dev_sector_ok dev sector -> is_block d ->
  wp (let! b := bread dev sector in
      set_bdata b d;;; bwrite b;;; brelse b;;;
      let! b := bread dev sector in gets (bdata b))
    (fun r s' => r = d /\ disk_read (bio_disk s') (dev, sector) = d /\
       forall k, k <> (dev, sector) -> disk_read (bio_disk s') k = disk_read (bio_disk s) k) s.
Proof.
  intros Hh Hk Hb. assert (size (∅ : gmap nat (Z * Z)) < HEAD)%nat as Hs
    by (rewrite map_size_empty; by vm_compute; lia).
  wsteps. eapply wp_bread; [done..|]. intros i s1 Ho _ D1.
  eapply wp_commit; [done..|]. intros s2 K2 D2. cbv beta. apply wp_bind.
  eapply wp_bread; [apply K2|done..|]. intros i2 s3 _ B3 D3. apply wp_gets.
  assert (sector_of s2 dev sector = d) as E by (unfold sector_of, disk_read; by rewrite D2, lookup_insert_eq).
  rewrite B3, E, D3, D2. unfold disk_read. split_and!; [done|by rewrite lookup_insert_eq|].
  intros k Hn. by rewrite lookup_insert_ne, D1.
Qed.

Lemma block_write_read_witness :
  wp (let! b := bread 1 7 in
      set_bdata b img_dir;;; bwrite b;;; brelse b;;;
      let! b := bread 1 7 in gets (bdata b))
    (fun r s' => r = img_dir /\ disk_read (bio_disk s') (1, 7) = img_dir /\
       forall k, k <> (1, 7) -> disk_read (bio_disk s') k = disk_read (bio_disk img_bio) k) img_bio.
Proof.
  apply (block_write_read img_bio 1 7 img_dir);
    [apply img_bio_ok|split; [by right|lia]|apply block_test; by vm_compute].
Defined.

(** [binit] establishes the invariant: all buffers are on the ring, none
    is in use and none claims a sector. *)
Theorem binit_establishes pt tf d :
  has_cur pt -> (forall k, is_block (disk_read d k)) ->
  wp binit (fun _ s' => holds s' ∅ /\ ring s' (reverse (seq 0 HEAD)) /\ bio_disk s' = d)
    (bio_start pt tf d).
Proof. intros. eapply wp_mono; [by apply binit_spec|]. naive_solver. Qed.

Lemma binit_establishes_witness :
  wp binit (fun _ s' => holds s' ∅ /\ ring s' (reverse (seq 0 HEAD)) /\ bio_disk s' = img_disk)
    (bio_start img_pt zero_taskfile img_disk).
Proof. apply (binit_establishes img_pt zero_taskfile img_disk); [exact img_has_cur|exact img_disk_ok]. Defined.

(** C28: the cache replaces the least recently used buffer.  With the ring in
    the order of use, [brelse] moves the buffer to the front of it.  [bget] of
    a cached sector whose buffer is not busy returns that buffer.  [bget] of a
    sector that is not cached returns the buffer that is not busy and has only
    busy buffers behind it, marked for the sector; if all buffers are busy it
    panics.  [bget] does not change the order. *)
Theorem lru_replacement s order :
  ring s order -> length (bio_buf s) = S HEAD ->
  (forall newer i older, order = newer ++ i :: older -> b_flags (buf_at i s) = BV ->
     wp (brelse i) (fun _ s' => ring s' (i :: newer ++ older)) s) /\
  forall dev sector,
    (forall newer i older, order = newer ++ i :: older ->
       Forall (fun j => caches s dev sector j = false) newer -> caches s dev sector i = true -> busy s i = false ->
       let s' := upd_buf i (fun b => b_set_flags (Z.lor (b_flags b) B_BUSY) b) s in
       bget dev sector s = Ret i s' /\ ring s' order) /\
    (Forall (fun j => caches s dev sector j = false) order ->
      (forall newer i older, order = newer ++ i :: older ->
         busy s i = false -> Forall (fun j => busy s j = true) older ->
         bget dev sector s = Ret i (recycle dev sector i s) /\ ring (recycle dev sector i s) order) /\
      (Forall (fun j => busy s j = true) order -> bget dev sector s = Panic "bget: no buffers" s)).
Proof.
  intros Hr Hl. split.
  - intros newer i older -> Hf. by apply brelse_front.
  - intros dev sector. split.
    + intros newer i older -> Hn Hc Hb. by apply bget_hit.
    + intros Hm. split.
      * intros newer i older -> Hb Ho. by apply bget_victim.
      * intros Hb. by eapply bget_none.
Qed.

(** The image's cache while sector 7 is in use, in buffer 0. *)
Definition img_reading : bio := match bread 1 7 img_bio with Ret _ s => s | _ => img_bio end.

Lemma lru_replacement_witness :
  wp (brelse 0) (fun _ s' => ring s' (0%nat :: reverse (seq 1 9))) img_reading /\
  bget 1 5 img_reading = Ret 1%nat (recycle 1 5 1 img_reading).
Proof.
  destruct (lru_replacement img_reading (reverse (seq 0 HEAD))) as [Hb Hg].
  - split; [apply reverse_Permutation|by vm_compute].
  - by vm_compute.
  - split.
    + eapply wp_mono; [apply (Hb (reverse (seq 1 9)) 0%nat []); by vm_compute|]. intros u s2 Hr. exact Hr.
    + destruct (Hg 1 5) as [_ Hm]. destruct Hm as [Hv _]; [apply (bool_decide_unpack _); by vm_compute|].
      apply (Hv (reverse (seq 2 8)) 1%nat [0%nat]); [by vm_compute|by vm_compute|].
      apply (bool_decide_unpack _). by vm_compute.
Defined.

(** ** Inodes *)

(** The inode [iupdate] writes is the inode [ilock] will read: every
    field of the copy in memory is found again on the disk (the tag block's
    address, which is not written, keeps its value there), and the other
    inodes on the disk, those in the same block included, do not change. *)
Theorem iupdate_roundtrip s ip i :
  plain_file s ip i -> inode_wf i ->
  wp (iupdate ip) (fun _ s' =>
    di_of (fs_bio s') (i_dev i) (i_inum i) =
      Dinode (i_type i) (i_major i) (i_minor i) (i_nlink i) (i_size i) (i_addrs i)
        (di_tags (di_of (fs_bio s) (i_dev i) (i_inum i))) /\
    forall inum, 0 <= inum -> inum <> i_inum i ->
      di_of (fs_bio s') (i_dev i) inum = di_of (fs_bio s) (i_dev i) inum) s.
Proof.
  intros [Hc Ha Hf Ht Hz Hi] Hw. pose proof (ai_ok _ _ _ Ha) as Hok.
  eapply wp_mono; [apply (iupdate_spec s ip i); [done|apply Hok..|done]|].
  cbv beta zeta. intros _ s' (_ & _ & D). unfold di_of. destruct Hi as [Hi _].
  assert (0 < IPB) as HI by done.
  assert (forall n, 0 <= n -> 0 <= n mod IPB < IPB) as Hr by (intros; by apply Z.mod_pos_bound).
  assert (is_block (sector_of (fs_bio s) (i_dev i) (IBLOCK (i_inum i)))) as Hb.
  { apply Hok. }
  split.
  - rewrite (sector_of_insert _ _ _ _ _ _ D), decide_True by done. apply dinode_at_put; auto.
  - intros inum H0 Hne. rewrite (sector_of_insert _ _ _ _ _ _ D). case_decide as E; [|done].
    rewrite <- E. apply dinode_at_put_ne; [done|apply Hr; lia|apply Hr; lia|].
    intros Em. apply Hne. unfold IBLOCK in E.
    pose proof (Z.div_mod (i_inum i) IPB). pose proof (Z.div_mod inum IPB). lia.
Qed.

Lemma iupdate_roundtrip_witness :
  wp (iupdate 1) (fun _ s' =>
    di_of (fs_bio s') 1 2 =
      Dinode T_FILE 0 0 1 5 (7 :: zeros 11) (di_tags (di_of img_bio 1 2)) /\
    forall inum, 0 <= inum -> inum <> 2 -> di_of (fs_bio s') 1 inum = di_of img_bio 1 inum) img_fs.
Proof. apply (iupdate_roundtrip img_fs 1 img_file); [exact img_plain|exact img_wf]. Defined.

(** C29: the inode cache never holds an inode twice.  [iget] returns the slot
    that holds the inode, with one more reference, or takes a slot with no
    references; it panics only when every slot is in use. *)
Theorem iget_unique s dev inum :
  icache_ok (fs_inode s) ->
  wpe (iget dev inum) (fun ip s' => fs_bio s' = fs_bio s /\ icache_ok (fs_inode s') /\
      exists i i', fs_inode s !! ip = Some i /\ fs_inode s' = <[ip := i']> (fs_inode s) /\
        i_match dev inum i' /\
        ((i_match dev inum i /\ i' = i_set_ref (i_ref i + 1) i) \/
         (Forall (fun x => ~ i_match dev inum x) (fs_inode s) /\ i_ref i = 0 /\ i_ref i' = 1)))
    (fun msg s' => msg = "iget: no inodes" /\ s' = s /\
       Forall (fun i => i_ref i <> 0 /\ ~ i_match dev inum i) (fs_inode s)) s.
Proof.
  intros Hc. eapply wpe_mono; [by apply iget_spec| |done]. cbv beta.
  intros ip s' (E & Hc' & i & i' & H1 & H2 & H3 & H4). split_and!; [done..|]. exists i, i'.
  split_and!; [done..|]. destruct H4 as [|(? & ? & ->)]; [by left|right; done].
Qed.

Lemma iget_unique_witness :
  wpe (iget 1 2) (fun ip s' => fs_bio s' = fs_bio img_fs /\ icache_ok (fs_inode s') /\
      exists i i', fs_inode img_fs !! ip = Some i /\ fs_inode s' = <[ip := i']> (fs_inode img_fs) /\
        i_match 1 2 i' /\
        ((i_match 1 2 i /\ i' = i_set_ref (i_ref i + 1) i) \/
         (Forall (fun x => ~ i_match 1 2 x) (fs_inode img_fs) /\ i_ref i = 0 /\ i_ref i' = 1)))
    (fun msg s' => msg = "iget: no inodes" /\ s' = img_fs /\
       Forall (fun i => i_ref i <> 0 /\ ~ i_match 1 2 i) (fs_inode img_fs)) img_fs.
Proof. apply (iget_unique img_fs 1 2). exact img_icache. Defined.

(** ** Directories *)

(** A cached directory of whole entries. *)
Record plain_dir (s : fs) (dp : nat) (i : inode) : Prop := {
  pd_file : plain_file s dp i;
  pd_type : i_type i = T_DIR;
  pd_whole : (sizeof_dirent | i_size i);
  pd_icache : icache_ok (fs_inode s);
  pd_refs : Forall (fun i => 0 <= i_ref i) (fs_inode s);
}.

(** [dirlookup] finds the first entry in use whose name is the given one
    up to DIRSIZ characters, and returns a reference to that entry's inode and
    the entry's offset; without such an entry it returns nothing.  Panics are
    those of a full disk and of a full inode cache. *)
Theorem dirlookup_first s dp i name :
  plain_dir s dp i ->
  wpe (dirlookup dp name) (fun r s' => exists i',
    match r with
    | None => first_match (fs_bio s) i name (dir_end (i_size i)) None /\
        fs_inode s' = <[dp := i']> (fs_inode s)
    | Some (ip, off) => exists inum,
        first_match (fs_bio s) i name (dir_end (i_size i)) (Some (inum, off)) /\
        got (i_dev i) inum (<[dp := i']> (fs_inode s)) (fs_inode s') ip
    end)
    (fun msg s' => no_space (i_dev i) msg s' \/
       msg = "iget: no inodes" /\ Forall (fun x => i_ref x <> 0) (fs_inode s')) s.
Proof.
  intros [[Hc Ha Hf _ Hz Hi] Ht _ Hok _]. eapply wpe_mono; [by apply dirlookup_spec| |done].
  cbv beta. intros r s' (i' & _ & Hr). by exists i'.
Qed.

Lemma img_dir_ok : plain_dir img_fs 0 img_root.
Proof.
  split; [|done|by exists 3|exact img_icache|exact img_refs].
  split; [done|exact img_alloc|exact img_root_ok|done|by split; vm_compute|by apply img_inum].
Qed.

Lemma dirlookup_first_witness :
  wpe (dirlookup 0 (cbytes "note")) (fun r s' => exists i',
    match r with
    | None => first_match img_bio img_root (cbytes "note") (dir_end 48) None /\
        fs_inode s' = <[0%nat := i']> (fs_inode img_fs)
    | Some (ip, off) => exists inum,
        first_match img_bio img_root (cbytes "note") (dir_end 48) (Some (inum, off)) /\
        got 1 inum (<[0%nat := i']> (fs_inode img_fs)) (fs_inode s') ip
    end)
    (fun msg s' => no_space 1 msg s' \/
       msg = "iget: no inodes" /\ Forall (fun x => i_ref x <> 0) (fs_inode s')) img_fs.
Proof. apply (dirlookup_first img_fs 0 img_root (cbytes "note")). exact img_dir_ok. Defined.

(** The first match of a name is one entry. *)
Lemma first_match_unique s i name lim n o n' o' :
  first_match s i name lim (Some (n, o)) -> first_match s i name lim (Some (n', o')) ->
  n = n' /\ o = o'.
Proof.
  intros (E1 & k & Hk & -> & _ & B1) (E2 & k' & Hk' & -> & _ & B2).
  assert (k = k') as ->; [|naive_solver].
  destruct (Z.lt_total k k') as [Hl|[->|Hl]]; [|done|].
  - by rewrite B2 in E1 by lia.
  - by rewrite B1 in E2 by lia.
Qed.

(** The directory after a link. *)
Lemma plain_linked s s' dp i i' name inum off :
  plain_dir s dp i -> fs_inode s' = <[dp := i']> (fs_inode s) ->
  linked (fs_bio s) (fs_bio s') i i' name inum off ->
  fs_inode s' !! dp = Some i' /\ alloc_inv (fs_bio s') ∅ (i_dev i') /\ file_ok (fs_bio s') i' /\
  0 <= i_size i' <= MAXFILE * BSIZE /\ i_type i' = T_DIR /\ icache_ok (fs_inode s') /\
  i_dev i' = i_dev i.
Proof.
  intros [[Hc Ha Hf _ Hz Hi] Ht _ Hok _] E L. pose proof (lk_inode _ _ _ _ _ _ _ L) as Ei.
  destruct (lk_free _ _ _ _ _ _ _ L) as (k & Hk & -> & _). pose proof (lk_room _ _ _ _ _ _ _ L).
  change sizeof_dirent with 16 in *.
  assert (i_dev i' = i_dev i /\ i_inum i' = i_inum i /\ i_ref i' = i_ref i /\ i_type i' = i_type i /\
    i_size i' = Z.max (i_size i) (k * 16 + 16)) as (Ed & En & Er & Et & Es) by (rewrite Ei; done).
  rewrite E, Ed, Et, Es. split_and!; [|apply L|apply L|lia|lia|done| |done].
  - by apply (lookup_set_inode _ _ i).
  - apply icache_ok_insert; [done|]. intros j x Hj Hx [Hr Hm]. apply Hj. symmetry.
    rewrite Ed, En, Er in *. by eapply Hok.
Qed.

(** C30: an entry added by [dirlink] is what [dirlookup] of the name then
    finds: the inode with that number.  If [dirlink] refuses, the directory
    had an entry with that name before. *)
Theorem dirlink_dirlookup {DV : Devsw} s dp i name inum :
  plain_dir s dp i -> Forall is_byte name -> 0 < inum < 2 ^ 16 ->
  wpe (let! r := dirlink dp name inum in
       if r =? 0 then dirlookup dp name else ret None)
    (fun r s' =>
       match r with
       | Some (ip, _) => exists i', fs_inode s' !! ip = Some i' /\ i_match (i_dev i) inum i'
       | None => exists m, first_match (fs_bio s) i name (dir_end (i_size i)) (Some m)
       end)
    (fun msg s' => no_space (i_dev i) msg s' \/ msg = "iget: no inodes" \/ msg = "dirlink") s.
Proof.
  intros Hp Hb Hn. pose proof Hp as [[Hc Ha Hf _ Hz Hi] Ht Hwh Hok Hr]. apply wpe_bind.
  eapply wpe_mono; [by apply (dirlink_spec s dp i name inum)| |naive_solver]. cbv beta.
  intros r s1 (i1 & [(-> & Hm & _)|(-> & Hno & E1 & off & L)]); [by apply wpe_wp, wp_ret|].
  destruct (plain_linked _ _ _ _ _ _ _ _ Hp E1 L) as (Hc1 & Ha1 & Hf1 & Hz1 & Ht1 & Hok1 & Ed).
  assert (u16 inum = inum) as Eu by (apply u16_small; lia).
  assert (first_match (fs_bio s1) i1 name (dir_end (i_size i1)) (Some (inum, off))) as Hm.
  { rewrite <- Eu. eapply linked_lookup; [done|done|lia|done|done]. }
  change (0 =? 0) with true. cbv iota.
  eapply wpe_mono; [by apply (dirlookup_spec s1 dp i1 name)| |rewrite Ed; naive_solver].
  cbv beta. intros r s2 (i2 & _ & H2). destruct r as [[ip o]|].
  - destruct H2 as (inum' & Hm' & _ & x & x' & Hx & Ex & Hx' & _).
    destruct (first_match_unique _ _ _ _ _ _ _ _ Hm Hm') as [<- <-].
    exists x'. rewrite Ex, <- Ed. split; [|done]. by apply (lookup_set_inode _ _ x).
  - destruct H2 as [Hnone _]. destruct Hm as (Hm & k & Hk & -> & Hlt & _).
    by rewrite Hnone in Hm.
Qed.

Lemma dirlink_dirlookup_witness :
  wpe (let! r := dirlink (DV := no_devsw) 0 (cbytes "todo") 3 in
       if r =? 0 then dirlookup 0 (cbytes "todo") else ret None)
    (fun r s' =>
       match r with
       | Some (ip, _) => exists i', fs_inode s' !! ip = Some i' /\ i_match 1 3 i'
       | None => exists m, first_match img_bio img_root (cbytes "todo") (dir_end 48) (Some m)
       end)
    (fun msg s' => no_space 1 msg s' \/ msg = "iget: no inodes" \/ msg = "dirlink") img_fs.
Proof.
  apply (dirlink_dirlookup (DV := no_devsw) img_fs 0 img_root (cbytes "todo") 3);
    [exact img_dir_ok|by apply bytes_test|lia].
Defined.

(** ** Path names *)

(** [skipelem] takes off the first of the path's elements, the nonempty
    strings between slashes: it copies the element (cut at DIRSIZ) and leaves
    a shorter path with the remaining elements that does not start with a
    slash; a path without elements gives the null pointer. *)
Theorem skipelem_elems path name :
  match elems path with
  | [] => skipelem path name = None
  | e :: es => exists rest, skipelem path name = Some (rest, put_name e name) /\
      elems rest = es /\ deref rest <> SLASH /\ (length rest < length path)%nat
  end.
Proof. apply skipelem_spec. Qed.


