(* ===== verification/PropKernel.v ===== *)
(** * Properties of memory, pipes, processes and system calls *)

From stdpp Require Import relations.
From S2P Require Import Prelude Monad Params CString Kalloc ProcTable Pipe Ide Bio Block Inode.
From S2P Require Import Content File Tags Vm Args Exec Proc ProcInv Sched Spinlock Syscall.

(** ** Pipes *)

(** C24: a pipe is a first-in first-out stream under every interleaving of
    writers and readers: at any time the bytes read, the bytes in the ring and
    the bytes still to be written are the data in order, across the
    wrap-around of the ring and of the 32-bit counters, and the ring never
    holds more than PIPESIZE bytes. *)
Theorem pipe_stream data p todo p' got :
  pipe_ok p -> contents p = [] -> rtc pipe_step (data, p, []) (todo, p', got) ->
  got ++ contents p' ++ todo = data /\ Z.of_nat (length (contents p')) <= PIPESIZE.
Proof.
  intros Hp Hc Hs. destruct (pipe_steps_inv (data, p, []) _ Hp Hs) as [Hp' Ho]. cbn [fst snd in_order] in *.
  rewrite Hc in Ho. split; [done|]. rewrite length_contents. pose proof (po_len _ Hp').
  pose proof (pipe_len_nonneg p'). lia.
Qed.

Lemma pipe_stream_witness :
  [] ++ contents (pipe_put 7 (Pipe (zeros PIPESIZE) (2 ^ 32 - 1) (2 ^ 32 - 1) 1 1)) ++ [8] = [7; 8] /\
  Z.of_nat (length (contents (pipe_put 7 (Pipe (zeros PIPESIZE) (2 ^ 32 - 1) (2 ^ 32 - 1) 1 1)))) <= PIPESIZE.
Proof.
  apply (pipe_stream [7; 8] (Pipe (zeros PIPESIZE) (2 ^ 32 - 1) (2 ^ 32 - 1) 1 1)).
  - split; [apply length_zeros|by split; vm_compute|by split; vm_compute|by vm_compute].
  - by vm_compute.
  - apply rtc_once. by apply step_write.
Defined.

(** [pipewrite] on every branch.  With room for all bytes they are
    appended, the readers are woken and the count is returned.  Otherwise the
    ring is filled, and then the call fails with -1 if the read end is closed
    or the process was killed, and else wakes the readers and sleeps. *)
Theorem pipewrite_correct a addr n s :
  pipe_ok (ps_pipe s) -> 0 <= n ->
  let p := ps_pipe s in let room := PIPESIZE - pipe_len p in
  exists p', holds_queue p p' (contents p ++ slice 0 (Z.min n room) addr) /\
    pipewrite a addr n s =
    if n <=? room then Ret n (Pst (wakeup1 (ChNread a) (ps_pt s)) p')
    else if (pp_readopen p =? 0) || negb (p_killed (cur_proc (ps_pt s)) =? 0)
    then Ret (-1) (Pst (ps_pt s) p')
    else zoom pt_of_pst (sleep (ChNwrite a)) (Pst (wakeup1 (ChNread a) (ps_pt s)) p').
Proof.
  intros Hp Hn p room. unfold pipewrite. destruct (Z.leb_spec n room) as [Hr|Hr].
  - destruct (pipewrite_fit a addr n 0 s) as (p' & Hq & E); [done|done|fold p; lia|].
    exists p'. rewrite Z.min_l by lia. by replace (n - 0) with n in Hq by lia.
  - destruct (pipewrite_block a addr n 0 s) as (p' & Hq & E); [done|lia|fold p; lia|].
    exists p'. rewrite Z.min_r by lia. done.
Qed.

Definition one_pipe : pipe := pipe_init (zeros PIPESIZE).

Lemma one_pipe_ok : pipe_ok one_pipe.
Proof. split; [apply length_zeros|by split; vm_compute|by split; vm_compute|by vm_compute]. Qed.

Lemma pipewrite_correct_witness :
  exists p', holds_queue one_pipe p' (contents one_pipe ++ slice 0 (Z.min 3 512) [1; 2; 3]) /\
    pipewrite 8192 [1; 2; 3] 3 (Pst ptable0 one_pipe) = Ret 3 (Pst (wakeup1 (ChNread 8192) ptable0) p').
Proof. apply (pipewrite_correct 8192 [1; 2; 3] 3 (Pst ptable0 one_pipe)); [exact one_pipe_ok|lia]. Defined.

(** [piperead] on every branch.  An empty pipe with a writer makes it
    fail with -1 if the process was killed and sleep otherwise; else it takes
    the first bytes of the queue, at most [n], returns their number (0 at the
    end of the stream) and wakes the writers. *)
Theorem piperead_correct a n s :
  pipe_ok (ps_pipe s) -> 0 <= n ->
  let p := ps_pipe s in let k := Nat.min (Z.to_nat n) (length (contents p)) in
  if bool_decide (contents p = []) && negb (pp_writeopen p =? 0)
  then piperead a n s = (if negb (p_killed (cur_proc (ps_pt s)) =? 0) then Ret (-1, []) s
                         else zoom pt_of_pst (sleep (ChNread a)) s)
  else exists p', holds_queue p p' (drop k (contents p)) /\
    piperead a n s = Ret (Z.of_nat k, take k (contents p)) (Pst (wakeup1 (ChNwrite a) (ps_pt s)) p').
Proof.
  intros Hp Hn p k. unfold p, k. case_bool_decide as Hc; cbn [andb].
  - destruct (Z.eqb_spec (pp_writeopen (ps_pipe s)) 0) as [Hw|Hw]; cbn [negb].
    + apply piperead_spec; [done|done|by right].
    + by apply piperead_wait.
  - apply piperead_spec; [done|done|by left].
Qed.

Lemma piperead_correct_witness :
  exists p', holds_queue (pipe_put 5 one_pipe) p' [] /\
    piperead 8192 10 (Pst ptable0 (pipe_put 5 one_pipe)) =
    Ret (1, [5]) (Pst (wakeup1 (ChNwrite 8192) ptable0) p').
Proof.
  apply (piperead_correct 8192 10 (Pst ptable0 (pipe_put 5 one_pipe))); [|lia].
  apply (contents_put one_pipe 5 one_pipe_ok). by vm_compute.
Defined.

(** ** Physical pages *)

(** After [kinit] the free list holds every whole page between the end of
    the kernel and PHYSTOP, each exactly once. *)
Theorem kinit_frees_all kend s :
  0 < kend -> kend <= PHYSTOP -> km_freelist s = 0 ->
  wp (kinit kend) (fun _ s' => exists l, free_list kend s' l /\
    forall p, p ∈ l <-> valid_page kend p) s.
Proof.
  intros Hk Hp Hf. eapply wp_mono; [by apply kinit_spec|]. cbv beta. intros _ s' Hl.
  eexists. split; [exact Hl|]. intros p. rewrite elem_of_reverse. by apply kinit_pages_spec.
Qed.

Lemma kinit_frees_all_witness :
  wp (kinit 0xfe0123) (fun _ s' => exists l, free_list 0xfe0123 s' l /\
    forall p, p ∈ l <-> valid_page 0xfe0123 p) (Kmem ∅ 0).
Proof. apply (kinit_frees_all 0xfe0123 (Kmem ∅ 0)); [lia|by vm_compute|done]. Defined.

(** [kalloc] gives a page that is on nobody else's hands: it leaves the
    free list, and 0 is returned only for an empty list.  [kfree] of that page
    puts it back, and no other page is touched. *)
Theorem kalloc_kfree kend s l :
  0 < kend -> free_list kend s l ->
  wp (let! p := kalloc in
      (if p =? 0 then ret tt else kfree kend p);;; ret p)
    (fun p s' => free_list kend s' l /\
       (p = 0 <-> l = []) /\ (p <> 0 -> valid_page kend p) /\
       forall q, q <> p -> page_at q s' = page_at q s) s.
Proof.
  intros Hk Hf. apply wp_bind. eapply wp_mono; [by eapply kalloc_spec|]. cbv beta.
  intros p s1 (Ep & Hf1 & ->). pose proof Hf as [Hc Hnd Hv]. destruct l as [|p l]; simpl.
  - wsteps. split_and!; [done|done|done|]. intros q _. unfold page_at. by rewrite Ep.
  - destruct Hc as (_ & Hp & _). rewrite (proj2 (Z.eqb_neq p 0)) by done.
    inversion_clear Hnd. inversion_clear Hv. wfocus.
    eapply wp_mono; [by eapply kfree_spec|]. cbv beta. intros _ s2 (Hf2 & _ & Hq). apply wp_ret.
    split_and!; [done|done|done|]. intros q Hne. rewrite Hq by done. unfold page_at. by rewrite Ep.
Qed.

Lemma kalloc_kfree_witness :
  wp (let! p := kalloc in (if p =? 0 then ret tt else kfree 4096 p);;; ret p)
    (fun p s' => free_list 4096 s' [8192] /\
       (p = 0 <-> [8192] = []) /\ (p <> 0 -> valid_page 4096 p) /\
       forall q, q <> p -> page_at q s' = page_at q (Kmem ∅ 8192)) (Kmem ∅ 8192).
Proof.
  apply (kalloc_kfree 4096 (Kmem ∅ 8192) [8192]); [lia|].
  split; [done|by apply NoDup_singleton|by repeat constructor].
Defined.

(** ** Processes and locks *)

(** C16: whatever any number of processors do, in any interleaving of their
    scheduling, sleep, wakeup, fork, exit, wait and kill, the process table
    stays consistent: exactly the processes of the processors are RUNNING, no
    process is on two of them, unused slots have no parent, every other
    process but the first has a living parent, and no process sleeps in [wait]
    while one of its children is a zombie, so that no wakeup is lost
    ([mp_inv]).  Moreover the pids in use are distinct and below [nextpid]
    ([pid_inv]) as long as [nextpid], a 32-bit integer that is never reset,
    does not wrap around: in a run that creates [n] processes, if it stays
    below 2^31. *)
Theorem proc_table_consistent n m m' :
  mp_inv m -> mp_runs n m m' ->
  mp_inv m' /\
  (pid_inv (mc_table m) -> pt_nextpid (mc_table m) + Z.of_nat n < 2 ^ 31 -> pid_inv (mc_table m')).
Proof. intros Hinv Hr. split; [by eapply mp_inv_runs|]. intros Hp Hlt. by eapply mp_pid_runs. Qed.

(** The first process, running. *)
Definition init_proc : proc :=
  Proc 4096 0 0 RUNNING 1 None zero_tf zero_context ChNone 0 (replicate 16 None) None (zeros 16).
Definition init_table : ptable :=
  Ptable (init_proc :: replicate 63 zero_proc) 2 (Some 0%nat) (Some 0%nat).

Lemma init_lookup i p :
  pt_proc init_table !! i = Some p -> (i = 0%nat /\ p = init_proc) \/ (i <> 0%nat /\ p = zero_proc).
Proof.
  destruct i as [|i]; [intros [= <-]; by left|]. intros Hl. right. split; [done|].
  by apply (lookup_replicate_1 63 zero_proc p i) in Hl as [-> _].
Qed.

(** Two processors, the first of which runs it. *)
Definition init_machine : machine := Machine init_table [Some 0%nat; None].

Lemma init_on_cpu k i : on_cpu init_machine k i <-> k = 0%nat /\ i = 0%nat.
Proof. unfold on_cpu. destruct k as [|[|k]]; cbn; naive_solver. Qed.

Lemma init_inv : mp_inv init_machine.
Proof.
  split; [intros k k' i [-> _]%init_on_cpu [-> _]%init_on_cpu; done|]. split.
  - intros i p [[-> ->]|[Hi ->]]%init_lookup; setoid_rewrite init_on_cpu; [naive_solver|]. split; [done|]. naive_solver.
  - done.
  - exists 0%nat, init_proc. split_and!; [done|done|]. split; [by intros [|]|done].
  - intros i p [[-> ->]|[Hi ->]]%init_lookup _; done.
  - intros i p [[-> ->]|[Hi ->]]%init_lookup Hn; [done|]. destruct Hn. by left.
  - intros i p c q _ _ _ [[-> ->]|[Hj ->]]%init_lookup _; done.
  - intros i p [[-> ->]|[Hi ->]]%init_lookup; done.
Qed.

Lemma init_pids : pid_inv init_table.
Proof.
  split; [done|..].
  - intros i p [[-> ->]|[Hi ->]]%init_lookup Hn; [done|]. by destruct Hn.
  - intros i j p q [[-> ->]|[Hi ->]]%init_lookup [[-> ->]|[Hj ->]]%init_lookup Hp Hq; done.
Qed.

(** The first process forks, and the other processor runs the child. *)
Definition embryo : ptable := match alloc_slot init_table with Some (_, t) => t | None => init_table end.
Definition forked : ptable := fork_slot 1 0 (replicate 16 None) embryo.
Definition forked_machine : machine := Machine (run_slot 1 (pt_set_cur None forked)) [Some 0%nat; Some 1%nat].

Lemma forked_runs : mp_runs 1 init_machine forked_machine.
Proof.
  set (m1 := Machine embryo [Some 0%nat; None]). set (m2 := Machine forked [Some 0%nat; None]).
  replace 1%nat with (created init_table embryo + (created embryo forked + (created forked (mc_table forked_machine) + 0)))%nat
    by by vm_compute.
  apply (Runs_step _ init_machine m1).
  { apply (Mp_step init_machine 0 (Some 0%nat) embryo); [done|]. apply (St_alloc _ 1). by vm_compute. }
  apply (Runs_step _ m1 m2).
  { apply (Mp_step m1 0 (Some 0%nat) forked); [done|].
    eapply (St_fork embryo 1); [exists 0%nat; split; [done|by vm_compute; lia]|done|done]. }
  apply (Runs_step _ m2 forked_machine); [|apply Runs_refl].
  apply (Mp_step m2 1 None (run_slot 1 (pt_set_cur None forked))); [done|]. by eapply St_run.
Qed.

Lemma proc_table_consistent_witness : mp_inv forked_machine /\ pid_inv (mc_table forked_machine).
Proof.
  destruct (proc_table_consistent 1 init_machine forked_machine init_inv forked_runs) as [Hm Hp].
  split; [exact Hm|]. apply Hp; [exact init_pids|done].
Defined.

(** C17: no process starves.  Whatever the processes do while they have the
    processor, as long as each gives it back (the timer sees to that), a pass
    of the scheduler ends, runs every process that was runnable when it
    started, and runs none twice; a process that sleeps is run in the pass
    after a wakeup on its channel. *)
Theorem scheduler_no_starvation slice t i :
  slice_ok slice -> (i < Z.to_nat NPROC)%nat ->
  (in_state t i RUNNABLE -> i ∈ (scheduler_pass slice t).2) /\
  (forall p, pt_proc t !! i = Some p -> p_state p = SLEEPING -> i ∈ (scheduler_pass slice (wakeup1 (p_chan p) t)).2) /\
  NoDup (scheduler_pass slice t).2.
Proof.
  intros Hs Hi. split_and!.
  - intros Hr. by apply pass_runs.
  - intros p Hp Hsl. apply pass_runs; [done|by eapply wakeup_runnable|done].
  - by apply pass_once.
Qed.

(** Every process yields at once. *)
Definition yields (i : nat) (t : ptable) : ptable :=
  if decide (i < length (pt_proc t))%nat then switch_out (yield_slot t) else t.

Lemma yields_ok : slice_ok yields.
Proof.
  intros i t Hc. unfold yields. destruct (decide _) as [Hi|]; [|done]. apply rtc_once. split; [done|].
  apply St_yield. by exists i.
Qed.

Lemma scheduler_no_starvation_witness : 0%nat ∈ (scheduler_pass yields (switch_out (yield_slot init_table))).2.
Proof.
  destruct (scheduler_no_starvation yields (switch_out (yield_slot init_table)) 0) as [H _]; [exact yields_ok|by vm_compute; lia|].
  apply H. by eexists.
Defined.

(** C18: mutual exclusion.  From a state in which no processor uses the lock,
    under every interleaving of the memory accesses of [acquire] and
    [release]: no panic of [acquire], [release] or [popcli] is ever reached;
    a processor in the critical section runs with interrupts off, the lock
    word is set and names it, and no other processor is in the critical
    section; it can always run [release] to the end, which leaves the lock
    free and undoes the [pushcli] of [acquire]; and a processor that starts
    [acquire] while the lock is free can run into the critical section. *)
Theorem spinlock_mutex cpus w :
  Forall (fun '(c, p) => p = Out /\ cpu_ok c Out) cpus -> rtc lock_step (World initlock cpus) w ->
  (forall k d msg, w_cpu w !! k <> Some (d, Panicked msg)) /\
  (forall i c, w_cpu w !! i = Some (c, Crit) ->
    c_if c = false /\ lk_locked (w_lock w) <> 0 /\ lk_cpu (w_lock w) = Some i /\
    (forall j c', w_cpu w !! j = Some (c', Crit) -> j = i) /\
    exists c', rtc lock_step w (World initlock (<[i := (c', Out)]> (w_cpu w))) /\
      c_ncli c' = c_ncli c - 1 /\ c_if c' = (c_ncli c =? 1) && c_intena c) /\
  (forall i c, w_cpu w !! i = Some (c, Out) -> lk_locked (w_lock w) = 0 ->
    rtc lock_step w (World (Spinlock 1 (Some i)) (<[i := (pushcli c, Crit)]> (w_cpu w)))).
Proof.
  intros Hf Hs. pose proof (lock_inv_steps _ _ (lock_inv_init _ Hf) Hs) as Hinv.
  pose proof Hinv as [Hword Hone Hname Hcpu].
  assert (owns Crit) as Ho by by apply owns_spec. split_and!.
  - intros k d msg Hk. exact (Hcpu _ _ _ Hk).
  - intros i c Hi. split_and!; [by apply (Hcpu _ _ _ Hi)| | |by intros; eapply Hone|by apply release_run].
    + apply Hword. by exists i, c, Crit.
    + apply (Hname _ _ _ Hi). by apply named_spec.
  - intros i c. apply acquire_run.
Qed.

(** Two processors; the first takes the lock. *)
Definition cpus2 : list (cpu * pc) := [(Cpu 0 false true, Out); (Cpu 0 false true, Out)].
Definition world_in : world := World (Spinlock 1 (Some 0%nat)) [(Cpu 1 true false, Crit); (Cpu 0 false true, Out)].

Lemma spinlock_mutex_witness :
  (forall k d msg, w_cpu world_in !! k <> Some (d, Panicked msg)) /\
  exists c', rtc lock_step world_in (World initlock [(c', Out); (Cpu 0 false true, Out)]) /\
    c_ncli c' = 0 /\ c_if c' = true.
Proof.
  destruct (spinlock_mutex cpus2 world_in) as (Hp & Hcrit & _).
  - by repeat constructor.
  - do 4 (eapply rtc_l; [by eapply (Lock_step _ 0)|]). apply rtc_refl.
  - split; [exact Hp|]. destruct (Hcrit 0%nat (Cpu 1 true false) eq_refl) as (_ & _ & _ & _ & Hr). exact Hr.
Defined.

(** ** System calls *)

(** [fetchstr] accepts exactly the strings that end inside the process's
    memory and returns their length; it looks at no byte beyond it. *)
Theorem fetchstr_correct addr s :
  mapped s -> 0 <= addr < 2 ^ 32 ->
  fetchstr addr s =
  Ret (if (addr <? p_sz (curproc s)) && (strlen (umem addr s) <? p_sz (curproc s) - addr)
       then Some (strlen (umem addr s)) else None) s.
Proof.
  intros Hm Ha. destruct (Z.ltb_spec addr (p_sz (curproc s))) as [Hl|Hl]; cbn [andb].
  - apply fetchstr_spec; [done|lia].
  - unfold fetchstr, bind, gets. by rewrite (proj2 (Z.leb_le _ _) Hl).
Qed.

(** A process of one page: its stack pointer is 0, so that the first argument
    is the word at 4, and there is a string at 4090. *)
Definition user_page : list Z := splice 4090 [97; 98; 0] (splice 4 (le_enc 4 4000) (zeros PGSIZE)).
Definition user_mem : kmem :=
  pte_set (0x2000, 0) (Z.lor 0x3000 7) (pte_set (0x1000, 0) (Z.lor 0x2000 7)
    (Kmem (<[0x1000 := zeros PGSIZE]> (<[0x2000 := zeros PGSIZE]> (<[0x3000 := user_page]> ∅))) 0)).
Definition user_proc : proc :=
  Proc 4096 0x1000 0 RUNNING 1 None zero_tf zero_context ChNone 0 (replicate 16 None) None (zeros 16).
Definition user_kern : kern :=
  Kern (Fs (Bio (Ptable [user_proc] 2 (Some 0%nat) (Some 0%nat)) [] None true zero_taskfile ∅ no_errors) [])
    [] ∅ user_mem.

Lemma user_mapped : mapped user_kern.
Proof.
  split; [by split; vm_compute|].
  assert (forallb (fun a => bool_decide (is_Some (ubyte a user_kern))) (seqZ 0 4096) = true) as Hf
    by by vm_compute.
  intros a Ha. rewrite forallb_forall in Hf.
  apply (bool_decide_eq_true (is_Some (ubyte a user_kern))), Hf, list_elem_of_In, elem_of_seqZ.
  change (p_sz (curproc user_kern)) with 4096 in Ha. lia.
Qed.

Lemma fetchstr_correct_witness : fetchstr 4090 user_kern = Ret (Some 2) user_kern.
Proof. apply (fetchstr_correct 4090 user_kern); [exact user_mapped|lia]. Defined.

(** [argptr] accepts a buffer that lies inside the process, and also one
    with a negative size whose end does not wrap below 0: the calls that take
    a length from the user must check its sign themselves. *)
Theorem argptr_correct n size s i :
  mapped s -> - 2 ^ 31 <= size < 2 ^ 31 -> argint n s = Ret (Some i) s ->
  argptr n size s =
  Ret (if (u32 i <? p_sz (curproc s)) && (0 <=? u32 i + size) && (u32 i + size <=? p_sz (curproc s))
       then Some (u32 i) else None) s.
Proof. apply argptr_spec. Qed.

Lemma argptr_correct_witness : argptr 0 (-3000) user_kern = Ret (Some 4000) user_kern.
Proof. apply (argptr_correct 0 (-3000) user_kern 4000); [exact user_mapped|lia|by vm_compute]. Defined.

(** The dispatch of [syscall]: numbers 1 to 26 run their handler and put
    its result in [eax] of the caller; any other number puts -1 there and
    changes nothing else. *)
Theorem syscall_dispatch {DV : Devsw} kend kdata s :
  let num := s32 (tf_eax (p_tf (scur s))) in
  (is_Some (syscalls kend kdata num) <-> 1 <= num <= 26) /\
  syscall kend kdata s =
    match syscalls kend kdata num with
    | Some h => bind h set_eax s
    | None => Ret tt (lset pt_of_sys
        (upd_cur (fun p => p_set_tf (tf_set_eax (2 ^ 32 - 1) (p_tf p)) p) (lget pt_of_sys s)) s)
    end.
Proof.
  intros num. split; [apply syscalls_some|]. destruct (syscalls kend kdata num) as [h|] eqn:E.
  - by apply (syscall_spec kend kdata s num h).
  - rewrite syscall_unknown; [done|]. intros Hn. apply (syscalls_some kend kdata) in Hn. fold num in Hn.
    rewrite E in Hn. by destruct Hn.
Qed.
