(* ===== verification/PropCpu.v ===== *)
(** * Properties: the entry into the kernel and context switches

    kernel/trapasm.S, kernel/vectors.pl, kernel/swtch.S and the descriptors of
    kernel/mmu.h, kernel/vm.c and kernel/trap.c. *)

From S2P Require Import Prelude Monad Params CString ProcTable Proc X86 Seg Entry.

(** ** Traps *)

(** C20: user code enters the kernel only where the kernel expects it.  On a
    processor set up by [seginit], [tvinit], [idtinit] and [switchuvm], the
    instruction [int $n] in user mode, for every [n] and all values of the
    registers, leads to a call of [trap]: through vector 64 for a system call
    and through the vector for protection faults otherwise.  [trap] runs in
    the kernel's code segment and on the kernel stack of the process, with
    interrupts off unless it is a system call; its argument points to a struct
    trapframe with the registers of the user program, and no other memory than
    the top of the kernel stack has changed. *)
Theorem user_enters_kernel c kstack idt vectors p alltraps_at trap_at trap_back n :
  kernel_ready c kstack idt vectors p -> user_mode (p_m p) -> is_word32 trap_back -> 0 <= n < 256 ->
  let k := int_vector n in
  let tf := kstack + KSTACKSIZE - sizeof_trapframe in
  exists p', int_n n p = Some p' /\ m_eip (p_m p') = vectors k /\
    let s' := run (alltraps trap_at trap_back) (run (vector alltraps_at k) (p_m p')) in
    m_eip s' = trap_at /\ words_at (m_reg s' ESP) [trap_back; tf] (m_mem s') /\ kstack <= m_reg s' ESP < tf /\
    m_seg s' CS = Z.shiftl SEG_KCODE 3 /\ m_seg s' SS = Z.shiftl SEG_KDATA 3 /\ m_seg s' GS = Z.shiftl SEG_KCPU 3 /\
    trapframe_in tf (m_mem s') = user_trapframe (p_m p) (kstack + KSTACKSIZE) k (int_err n) /\
    (n <> T_SYSCALL -> Z.land (m_eflags s') FL_IF = 0) /\
    same_outside kstack (kstack + KSTACKSIZE) (p_mem p) (m_mem s').
Proof.
  intros HK HU Hb Hn. destruct (int_user c kstack idt vectors p HK HU n Hn) as (p' & E & He).
  exists p'. split; [exact E|]. split; [apply (en_eip _ _ _ _ _ _ He)|].
  destruct (in_trap_entry c kstack idt vectors p alltraps_at trap_at trap_back HK HU Hb _ _ p' He)
    as ([T1 T2 T3 T4 T5 _] & Hf & Ho).
  { apply int_matches. }
  { unfold int_vector. by destruct (n =? T_SYSCALL). }
  { unfold int_err. destruct (n =? T_SYSCALL); [done|]. apply Forall_singleton. unfold is_word32. lia. }
  destruct (ky_kstack _ _ _ _ _ HK) as [Hk0 Hk1]. cbv zeta in *. set (s' := run _ _) in *.
  destruct T5 as (_ & _ & _ & Tg & Tc & Ts). rewrite T1. split_and!; try done.
  - destruct T2 as (W1 & W2 & _). by split_and!.
  - unfold sizeof_trapframe, KSTACKSIZE. lia.
  - lia.
  - rewrite Tc. apply (en_cs _ _ _ _ _ _ He).
  - rewrite Ts. apply (en_ss _ _ _ _ _ _ He).
  - intros Hne. rewrite T4, (en_eflags _ _ _ _ _ _ He). unfold int_vector. rewrite (proj2 (Z.eqb_neq n T_SYSCALL) Hne).
    unfold gate_flags. destruct (gate_facts _ _ _ _ _ HK T_GPFLT) as (_ & _ & _ & _ & ->).
    apply Z.bits_inj_0. intros i. rewrite Z.land_spec, Z.ldiff_spec, Z.lor_spec.
    change (if T_GPFLT =? T_SYSCALL then STS_TG32 else STS_IG32) with STS_IG32.
    change (if STS_IG32 =? STS_IG32 then FL_IF else 0) with FL_IF.
    destruct (Z.testbit (m_eflags (p_m p)) i), (Z.testbit FL_IF i); rewrite ?orb_true_r, ?andb_false_r; done.
  - eapply same_outside_weaken; [exact Ho|unfold KSTACKSIZE; lia..].
Qed.

(** A processor set up for its first process, and the process in user mode. *)
Definition ex_vectors (i : Z) : Z := u32 (0x100000 + 16 * i).
Definition cold : processor := Processor (Machine (fun _ => 0) (fun _ => 0) 0 2 (fun _ => 0)) (0, 0) (0, 0) 0 0 0.
Definition set_up : processor :=
  match (seginit 0x200000 0;;; tvinit 0x300000 ex_vectors;;; idtinit 0x300000;;; switchuvm 0x400000 0x500000) cold with
  | Ret _ p => p
  | _ => cold
  end.
Definition user_regs (m : mem) : machine :=
  Machine (fun _ => 11) (fun g => match g with CS => 35 | SS | DS | ES => 43 | _ => 0 end) 64 0x202 m.
Definition in_user : processor := set_m (user_regs (p_mem set_up)) set_up.

Lemma in_user_ready : kernel_ready 0x200000 0x400000 0x300000 ex_vectors in_user.
Proof.
  apply kernel_ready_regs; [done|]. unfold set_up.
  assert (wp (seginit 0x200000 0;;; tvinit 0x300000 ex_vectors;;; idtinit 0x300000;;; switchuvm 0x400000 0x500000)
    (fun _ p => kernel_ready 0x200000 0x400000 0x300000 ex_vectors p) cold) as H.
  { apply (kernel_ready_setup 0x200000 0 0x200000).
    - reflexivity.
    - by split.
    - by split.
    - by right.
    - intros i. apply u32_range.
    - lia.
    - lia.
    - reflexivity.
    - change (ldn _ 4 (p_mem cold)) with 0. lia.
    - reflexivity. }
  revert H. unfold wp. generalize ((seginit 0x200000 0;;; tvinit 0x300000 ex_vectors;;; idtinit 0x300000;;;
    switchuvm 0x400000 0x500000) cold). by intros [].
Qed.

Lemma in_user_mode : user_mode (p_m in_user).
Proof.
  split; [split|done|done|done].
  - by intros [].
  - by intros [].
  - change (byte_mem (p_mem set_up)). unfold set_up.
    assert (byte_mem (p_mem cold)) as H0 by (intros x; apply is_byte_0).
    pose proof (setup_bytes 0x200000 0 0x300000 ex_vectors 0x400000 0x500000 cold H0) as H.
    revert H. unfold wlp. generalize ((seginit 0x200000 0;;; tvinit 0x300000 ex_vectors;;; idtinit 0x300000;;;
      switchuvm 0x400000 0x500000) cold). by intros [].
Qed.

Lemma user_enters_kernel_witness :
  exists p', int_n 64 in_user = Some p' /\ m_eip (p_m p') = ex_vectors 64 /\
    let s' := run (alltraps 0x108000 0x107020) (run (vector 0x107000 64) (p_m p')) in
    m_eip s' = 0x108000 /\ m_seg s' CS = 8 /\ tf_eax (trapframe_in 0x400fb4 (m_mem s')) = 11.
Proof.
  destruct (user_enters_kernel 0x200000 0x400000 0x300000 ex_vectors in_user 0x107000 0x108000 0x107020 64)
    as (p' & E1 & E2 & E3 & _ & _ & E4 & _ & _ & E5 & _).
  - exact in_user_ready.
  - exact in_user_mode.
  - done.
  - done.
  - change (int_vector 64) with 64 in *. exists p'. split; [exact E1|]. split; [exact E2|]. split; [exact E3|]. split; [exact E4|].
    cbv zeta in E5. change (0x400000 + KSTACKSIZE - sizeof_trapframe) with 0x400fb4 in E5. by rewrite E5.
Defined.

(** C21: a trap is invisible to the program it interrupts.  When [trap] returns
    with the trap frame as it was built, but for the value [v] it has put into
    [eax], [alltraps] goes back to the program with every register, the stack
    pointer, the flags and the program counter as they were, and [v] in
    [eax]. *)
Theorem trap_returns c kstack idt vectors p n err v s :
  kernel_ready c kstack idt vectors p -> user_mode (p_m p) ->
  let ktop := kstack + KSTACKSIZE in
  let tf := ktop - sizeof_trapframe in
  m_reg s ESP = tf - 4 -> rpl (m_seg s CS) = 0 ->
  words_at tf (trapframe_words (tf_set_eax v (user_trapframe (p_m p) ktop n err))) (m_mem s) ->
  let s' := run alltraps_return s in
  (forall r, m_reg s' r = if decide (r = EAX) then v else m_reg (p_m p) r) /\
  (forall g, m_seg s' g = m_seg (p_m p) g) /\
  m_eip s' = m_eip (p_m p) /\ m_eflags s' = m_eflags (p_m p) /\ m_mem s' = m_mem s.
Proof.
  intros HK HU ktop tf Hsp Hcs Hw. destruct (ky_kstack _ _ _ _ _ HK) as [Hk0 Hk1]. pose proof (um_wf _ HU) as Hwf.
  unfold tf, ktop, KSTACKSIZE, sizeof_trapframe in *.
  destruct (return_user s (kstack + 4096 - 76) (tf_set_eax v (user_trapframe (p_m p) (kstack + 4096) n err)))
    as [Hl Hm]; [done|lia| |].
  { split; [unfold sizeof_trapframe; lia|done|done|]. cbn. rewrite u16_small by apply (wf_seg _ Hwf). apply (um_cpl _ HU). }
  cbv zeta. split_and!; [| | | |exact Hm].
  - intros r. rewrite (loaded_regs _ _ r Hl). by destruct r.
  - intros g. rewrite (loaded_segs _ _ g Hl). destruct g; apply u16_small, (wf_seg _ Hwf).
  - apply Hl.
  - apply Hl.
Qed.

(** The frame of a system call that returns 5, on the kernel stack. *)
Definition ex_frame : trapframe := tf_set_eax 5 (user_trapframe (p_m in_user) 0x401000 64 None).
Definition after_trap : machine :=
  Machine (fun r => if reg_eqb r ESP then 0x400fb0 else 3) (fun _ => 8) 0 2
    (store_bytes 0x400fb4 (concat (le_enc 4 <$> trapframe_words ex_frame)) (fun _ => 0)).

Lemma trap_returns_witness :
  let s' := run alltraps_return after_trap in
  m_reg s' EAX = 5 /\ m_reg s' EBX = 11 /\ m_seg s' CS = 35 /\ m_eip s' = 64.
Proof.
  destruct (trap_returns 0x200000 0x400000 0x300000 ex_vectors in_user 64 None 5 after_trap) as (E1 & E2 & E3 & _).
  - exact in_user_ready.
  - exact in_user_mode.
  - reflexivity.
  - reflexivity.
  - cbn [words_at trapframe_words]. split_and!; by vm_compute.
  - cbv zeta. split; [exact (E1 EAX)|]. split; [exact (E1 EBX)|]. split; [exact (E2 CS)|exact E3].
Defined.

(** ** Context switches *)

(** C22: a context switch is invisible to the kernel code that calls it.  The
    caller of [swtch(old, new)] with any registers goes on, when some later
    [swtch] is given the pointer stored in [*old] and the context is still in
    memory, after its call, with its stack pointer and the registers it may
    rely on as they were. *)
Theorem swtch_resumes s a ra old new ctx s2 a2 ra2 old2 :
  swtch_call s a ra old new -> context_at new (ctx 0) (ctx 1) (ctx 2) (ctx 3) (ctx 4) (m_mem s) ->
  let s1 := run swtch s in
  let saved := ld32 old (m_mem s1) in
  swtch_call s2 a2 ra2 old2 saved ->
  (forall x, saved <= x < saved + 20 -> m_mem s2 x = m_mem s1 x) ->
  let s3 := run swtch s2 in
  m_eip s1 = ctx 4 /\ m_reg s1 ESP = new + 20 /\
  m_eip s3 = ra /\ m_reg s3 ESP = a + 4 /\ (forall r, r ∈ saved_regs -> m_reg s3 r = m_reg s r).
Proof.
  intros Hc Hctx s1 saved Hc2 Hkeep s3.
  destruct (swtch_spec s a ra old new _ _ _ _ _ Hc Hctx) as (_ & E2 & E3 & E4 & E5 & _).
  destruct (sc_room _ _ _ _ _ Hc) as [Ha1 Ha2]. fold s1 in E2, E3, E4, E5. fold saved in E5.
  assert (context_at saved (m_reg s EDI) (m_reg s ESI) (m_reg s EBX) (m_reg s EBP) ra (m_mem s2)) as Hctx2.
  { rewrite E5 in Hkeep |- *. unfold context_at in *.
    apply (words_at_ext _ _ (m_mem s1)); [simpl; lia|simpl; lia| |exact E4]. intros x Hx. apply Hkeep. simpl in Hx. lia. }
  destruct (swtch_spec s2 a2 ra2 old2 saved _ _ _ _ _ Hc2 Hctx2) as (F1 & F2 & F3 & _). fold s3 in F1, F2, F3.
  split_and!; [exact E3|exact E2|exact F3|rewrite F2, E5; lia|].
  revert F1. generalize (m_reg s3). intros f F1 r Hr. cbn [fmap list_fmap saved_regs] in F1. injection F1 as G1 G2 G3 G4.
  unfold saved_regs in Hr. repeat (apply elem_of_cons in Hr as [->|Hr]; [done|]). by apply elem_of_nil in Hr.
Qed.

(** Two kernel threads: one on a stack at 0x401000 calls [swtch], the other on
    a stack at 0x501000 switches back. *)
Definition thread_mem : mem :=
  store_bytes 0x400f00 (concat (le_enc 4 <$> [0x100777; 0x600000; 0x500f00]))
    (store_bytes 0x500f00 (concat (le_enc 4 <$> [1; 2; 3; 4; 0x100888])) (fun _ => 0)).
Definition thread_a : machine :=
  Machine (fun r => match r with ESP => 0x400f00 | EDI => 21 | ESI => 22 | EBX => 23 | EBP => 24 | _ => 0 end)
    (fun _ => 8) 0 2 thread_mem.
Definition thread_b : machine :=
  Machine (fun r => match r with ESP => 0x500e00 | _ => 9 end) (fun _ => 8) 0 2
    (store_bytes 0x500e00 (concat (le_enc 4 <$> [0x100999; 0x600004; 0x400ef0])) (m_mem (run swtch thread_a))).

Lemma thread_call s a ra old new :
  m_reg s ESP = a -> words_at a [ra; old; new] (m_mem s) -> Forall is_word32 (m_reg s <$> saved_regs) ->
  16 <= a /\ a + 12 <= 2 ^ 32 -> 0 <= old /\ old + 4 <= 2 ^ 32 /\ (old + 4 <= a - 16 \/ a + 4 <= old) ->
  0 <= new /\ new + 20 < 2 ^ 32 /\ (new + 20 <= a - 16 \/ a <= new) /\ (new + 20 <= old \/ old + 4 <= new) ->
  swtch_call s a ra old new.
Proof. by split. Qed.

Lemma swtch_resumes_witness :
  m_eip (run swtch thread_b) = 0x100777 /\ m_reg (run swtch thread_b) ESP = 0x400f04 /\
  m_reg (run swtch thread_b) EBX = 23.
Proof.
  destruct (swtch_resumes thread_a 0x400f00 0x100777 0x600000 0x500f00
    (fun i => if i =? 4 then 0x100888 else i + 1) thread_b 0x500e00 0x100999 0x600004) as (_ & _ & E1 & E2 & E3).
  - apply thread_call; [reflexivity|cbn [words_at]; split_and!; by vm_compute| |lia|lia|lia].
    apply (bool_decide_unpack _). by vm_compute.
  - unfold context_at. cbn [words_at]. split_and!; by vm_compute.
  - replace (ld32 0x600000 (m_mem (run swtch thread_a))) with 0x400ef0 by (by vm_compute).
    apply thread_call; [reflexivity|cbn [words_at]; split_and!; by vm_compute| |lia|lia|lia].
    apply (bool_decide_unpack _). by vm_compute.
  - replace (ld32 0x600000 (m_mem (run swtch thread_a))) with 0x400ef0 by (by vm_compute).
    intros x Hx. apply store_out; cbn; lia.
  - split; [exact E1|]. split; [exact E2|]. apply E3. apply (bool_decide_unpack _). by vm_compute.
Defined.

(** C23: a new process starts in user mode.  On the stack that [allocproc] has
    prepared, the first [swtch] of the scheduler to the process enters
    [forkret]; when [forkret] returns it returns to [trapret], and [trapret]
    leaves for user code with the registers of the process's trap frame. *)
Theorem new_process_starts kstack trapret_at forkret_at m s a ra old t s2 :
  0 <= kstack -> kstack + KSTACKSIZE < 2 ^ 32 -> is_word32 trapret_at -> is_word32 forkret_at ->
  let ctx := (alloc_stack kstack trapret_at forkret_at m).1 in
  let m1 := (alloc_stack kstack trapret_at forkret_at m).2 in
  let tf := kstack + KSTACKSIZE - sizeof_trapframe in
  (forall x, ctx <= x < tf -> m_mem s x = m1 x) -> swtch_call s a ra old ctx ->
  a <= kstack \/ kstack + KSTACKSIZE <= a - 16 -> old + 4 <= kstack \/ kstack + KSTACKSIZE <= old ->
  let s1 := run swtch s in
  m_reg s2 ESP = m_reg s1 ESP -> (forall x, tf - 4 <= x < tf -> m_mem s2 x = m_mem s1 x) ->
  words_at tf (trapframe_words t) (m_mem s2) -> rpl (m_seg s2 CS) = 0 -> rpl (u16 (tf_cs t)) = 3 ->
  let s3 := run [Retl] s2 in
  m_eip s1 = forkret_at /\ m_eip s3 = trapret_at /\ loaded_from t (run trapret s3).
Proof.
  intros Hk0 Hk1 Ht Hf ctx m1 tf Hstk Hc Ha Ho s1 Hsp Hkeep Hw Hcs Hu s3.
  pose proof (alloc_stack_spec kstack trapret_at forkret_at m Hk0 Hk1 Ht Hf) as Hal.
  destruct (alloc_stack kstack trapret_at forkret_at m) as [cx mm] eqn:E. cbn [fst snd] in ctx, m1.
  destruct Hal as (Ecx & Hwords & _). unfold ctx, m1, tf, KSTACKSIZE, sizeof_trapframe in *. clear ctx m1 tf E.
  assert (words_at cx [0; 0; 0; 0; forkret_at; trapret_at] (m_mem s)) as Hws.
  { apply (words_at_ext _ _ mm); [lia|simpl; lia| |done]. intros x Hx. cbn [length] in Hx. apply Hstk. lia. }
  change [0; 0; 0; 0; forkret_at; trapret_at] with ([0; 0; 0; 0; forkret_at] ++ [trapret_at]) in Hws.
  apply words_at_app in Hws as [Hctx [Hret _]]. change (cx + 4 * Z.of_nat (length _)) with (cx + 20) in Hret.
  destruct (swtch_spec s a ra old cx _ _ _ _ _ Hc Hctx) as (_ & E2 & E3 & _ & _ & _ & _ & E8). fold s1 in E2, E3, E8.
  assert (top s2 = trapret_at) as Htop.
  { unfold top. rewrite Hsp, E2. rewrite <- Hret. unfold ld32. f_equal. apply load_bytes_ext. intros i Hi.
    rewrite u32_small by lia. rewrite Hkeep by lia. apply E8; lia. }
  assert (m_eip s3 = top s2) as E3' by done.
  split; [exact E3|]. split; [by rewrite E3'|].
  apply (trapret_spec s3 (kstack + 4096 - 76)).
  - change (m_reg s3 ESP) with (u32 (m_reg s2 ESP + 4)). rewrite Hsp, E2, u32_small by lia. lia.
  - split; [unfold sizeof_trapframe; lia|exact Hw|exact Hcs|exact Hu].
Qed.

(** The first process on its stack at 0x700000, started by the scheduler. *)
Definition sched_mem : mem :=
  store_bytes 0x400f00 (concat (le_enc 4 <$> [0x100777; 0x600000; 0x700f9c]))
    (alloc_stack 0x700000 0x107030 0x105000
      (store_bytes 0x700fb4 (concat (le_enc 4 <$> trapframe_words user_tf)) (fun _ => 0))).2.
Definition sched_thread : machine :=
  Machine (fun r => match r with ESP => 0x400f00 | _ => 6 end) (fun _ => 8) 0 2 sched_mem.

Lemma new_process_starts_witness :
  m_eip (run swtch sched_thread) = 0x105000 /\ loaded_from user_tf (run trapret (run [Retl] (run swtch sched_thread))).
Proof.
  destruct (new_process_starts 0x700000 0x107030 0x105000
    (store_bytes 0x700fb4 (concat (le_enc 4 <$> trapframe_words user_tf)) (fun _ => 0))
    sched_thread 0x400f00 0x100777 0x600000 user_tf (run swtch sched_thread)) as (E1 & _ & E2).
  - lia.
  - by vm_compute.
  - by vm_compute.
  - by vm_compute.
  - intros x Hx. change (0x700000 + KSTACKSIZE - sizeof_trapframe) with 0x700fb4 in Hx.
    change ((alloc_stack _ _ _ _).1) with 0x700f9c in Hx. apply store_out; cbn; lia.
  - apply thread_call; [reflexivity|cbn [words_at]; split_and!; by vm_compute| |lia|lia|].
    + apply (bool_decide_unpack _). by vm_compute.
    + change ((alloc_stack _ _ _ _).1) with 0x700f9c. lia.
  - left. lia.
  - left. lia.
  - reflexivity.
  - done.
  - cbn [words_at trapframe_words]. split_and!; by vm_compute.
  - by vm_compute.
  - by vm_compute.
  - split; [exact E1|exact E2].
Defined.
