(* ===== verification/PropBoot.v ===== *)
(** * Properties: the boot loader and the multiprocessor tables

    kernel/bootmain.c and kernel/mp.c. *)

From S2P Require Import Prelude Monad Params CString Ide Exec Boot Mp.

(** ** bootmain *)

(** C34: the boot loader loads the kernel.  For an ELF image that starts at
    sector 1 of the disk, with its program headers in the first page and its
    segments in increasing order, [bootmain] ends with a call of the entry
    point of the image; every segment then has its bytes of the file followed
    by zeros, although whole sectors are read around it, and memory below the
    scratch page, where the loader itself runs, is as before. *)
Theorem bootmain_loads img s :
  kernel_disk (bt_disk s) img -> kernel_image img ->
  wp bootmain (fun r s' => r = Some (elf_entry (img_elf img)) /\
    (forall i, 0 <= i < elf_phnum (img_elf img) -> seg_loaded img (img_ph img i) (bt_mem s')) /\
    forall x, 0 <= x < ELF_SCRATCH -> bt_mem s' x = bt_mem s x) s.
Proof.
  intros Hd HK. eapply wp_mono; [by apply (bootmain_spec img (bt_disk s))|].
  intros r s' (-> & _ & _ & Hlow & Hseg). done.
Qed.

(** A kernel of two segments: 300 bytes of text and, inside another sector,
    100 bytes of data with 60 bytes of zeros after them. *)
Definition two_segments : list Z :=
  put32 0 ELF_MAGIC (put32 24 0x100010 (put32 28 52 (put16 44 2
    (put32 56 512 (put32 60 0x100000 (put32 68 300 (put32 72 300
      (put32 88 900 (put32 92 0x100384 (put32 100 100 (put32 104 160
        (zeros 512)))))))))))) ++ ((fun i => i mod 251) <$> seqZ 0 488).

Lemma two_segments_ok : kernel_image two_segments.
Proof.
  assert (elf_phnum (img_elf two_segments) = 2) as En by by vm_compute.
  assert (forall i, 0 <= i < 2 -> i = 0 \/ i = 1) as H2 by lia.
  split; [|by vm_compute|by vm_compute|rewrite En|rewrite En].
  - apply (bool_decide_unpack _). by vm_compute.
  - intros i Hi. by destruct (H2 i Hi) as [->| ->]; vm_compute.
  - intros i j Hi Hj. replace i with 0 by lia. replace j with 1 by lia. by vm_compute.
Qed.

Lemma bootmain_loads_witness :
  wp bootmain (fun r s' => r = Some 0x100010 /\
    (forall i, 0 <= i < 2 -> seg_loaded two_segments (img_ph two_segments i) (bt_mem s')) /\
    forall x, 0 <= x < ELF_SCRATCH -> bt_mem s' x = 7)
    (Boot (fun _ => 7) (Taskfile 0 0 0 0 0 0) (image_disk two_segments)).
Proof.
  apply (bootmain_loads two_segments (Boot (fun _ => 7) (Taskfile 0 0 0 0 0 0) (image_disk two_segments))).
  - apply image_disk_ok.
  - apply two_segments_ok.
Defined.

(** ** mpinit *)

(** C35: [mpinit] reads the configuration of the machine from a table of known
    entries with at most NCPU processors.  When the APIC ids count the
    processors from 0, the globals describe the machine: a [cpus] entry per
    processor with its id, the boot processor, the I/O APIC, the address of
    the local APIC and, when the floating pointer asks for it, masked
    interrupts.  Otherwise the machine is run as one processor without APICs.
    The loop ends after one turn per entry. *)
Theorem mpinit_reads_table fuel m mp conf es :
  mpconfig m = Some (mp, conf) -> 0 <= conf -> conf + conf_length conf m < 2 ^ 32 ->
  table_holds conf es m -> table_ncpu es <= NCPU -> (length es < fuel)%nat ->
  mpinit fuel m mp_zero = Ret tt (mp_summary mp conf es m).
Proof. apply mpinit_spec. Qed.

Lemma mpinit_reads_table_witness :
  mpinit 5 (mp_memory 2) mp_zero = Ret tt (Mpstate [0; 1; 0; 0; 0; 0; 0; 0] 0 1 2 2 0xFEE00000 true).
Proof.
  apply (mpinit_reads_table 5 (mp_memory 2) 0xF0010 0x9000 [EProc 0 3; EProc 1 1; EBus; EIoapic 2]).
  - by vm_compute.
  - lia.
  - by vm_compute.
  - split; [repeat split; by vm_compute|by vm_compute].
  - by vm_compute.
  - simpl. lia.
Defined.

(** An entry of a type the code does not know stops the machine: the
    default case does not move on to the next entry, so that the loop of
    [mpinit] reads the same entry for ever, however many turns it is given. *)
Theorem mpinit_unknown_loops f m mp conf es (p := conf + sizeof_mpconf + entries_size es) :
  mpconfig m = Some (mp, conf) -> 0 <= conf -> conf + conf_length conf m < 2 ^ 32 ->
  entries_at es (conf + sizeof_mpconf) m -> table_ncpu es <= NCPU ->
  p < conf + conf_length conf m -> 4 < rd8 p m ->
  exists s', mpinit (length es + f) m mp_zero = Hang s'.
Proof. apply mpinit_hangs. Qed.

(** The table above with an entry of type 5 at its end. *)
Lemma mpinit_unknown_loops_witness : exists s', mpinit (3 + 1000) (mp_memory 5) mp_zero = Hang s'.
Proof.
  apply (mpinit_unknown_loops 1000 (mp_memory 5) 0xF0010 0x9000 [EProc 0 3; EProc 1 1; EBus]).
  - by vm_compute.
  - lia.
  - by vm_compute.
  - repeat split; by vm_compute.
  - by vm_compute.
  - by vm_compute.
  - by vm_compute.
Defined.
