(* ===== verification/PropStart.v ===== *)
(** * Properties: start-up

    kernel/main.c, kernel/lapic.c, kernel/bootother.S, kernel/picirq.c,
    kernel/ioapic.c, kernel/timer.c and kernel/uart.c. *)

From S2P Require Import Prelude Monad Params CString Kalloc ProcTable Pipe Ide Bio Block Inode.
From S2P Require Import Content Vm VmSpec UserMem File Proc X86 Seg BootAsm Mp Console Intr Smp Userinit Start.

(** ** main *)

(** C19: start-up.  On a multiprocessor with at most [NCPU] processors that the
    MP table lists from 0, at least 38 free pages and an image of bootother.S
    inside the kernel, [main] on the boot processor does not panic, loop or
    sleep, and reaches the call of the scheduler with
    - every processor of the table running: the boot processor takes
      interrupts and the others have reached [scheduler], with interrupts off, all
      with their own segments, task state, page table and interrupt table, and
      each on a stack of its own;
    - the 256 gates of the interrupt table pointing to the vectors;
    - exactly the lines of the keyboard, the disk and, if there is a serial
      port, of this port turned on;
    - the page table of the kernel and a buffer cache that satisfies the
      invariant of bio.c;
    - one process, runnable, with a kernel stack and a page directory whose
      first page is the program [initcode] followed by zeros.
    The pages used for all this are different ones. *)
Theorem main_starts_kernel kend kdata cpus idt vectors mainc_at mainc_back mpmain bootother_start bootother_size
    start32 gdt back initcode disk_status b mp conf es fuel S I tf d fi pi kd :
  smp_layout kend cpus mpmain bootother_start bootother_size gdt back ->
  idt_layout kend cpus idt bootother_start bootother_size ->
  kdata mod PGSIZE = 0 -> 0x100000 < kdata < PHYSTOP ->
  machine_cold cpus bootother_start gdt b mp conf es S -> devices_cold I ->
  Exists (fun r => r <> 0) (take 1000 disk_status) -> (forall k, is_block (disk_read d k)) ->
  Z.of_nat (length initcode) < PGSIZE -> (38 <= length (kinit_pages kend))%nat -> (length es < fuel)%nat ->
  wp (main kend kdata cpus idt vectors mainc_at mainc_back mpmain bootother_start bootother_size start32 gdt back
        initcode disk_status fuel b)
    (fun _ s' => NoDup (reverse (kinit_pages kend)) /\
       kernel_started kdata cpus idt vectors initcode b (table_ncpu es) (ua_present (io_com1 I)) (reverse (kinit_pages kend)) s')
    (Start S I (Fs (Bio ptable0 (replicate (Datatypes.S HEAD) zero_buf) None false tf d no_errors) inodes0) fi pi kd).
Proof.
  intros L LI Hkd Hkd2 Hc HD Hdisk Hblk Hinit Hpages Hfuel. eapply main_head; [done..| |].
  - intros S' kstack l El Hin. rewrite El. eapply wp_mono.
    + eapply mainc_spec; try done. rewrite <- length_reverse, El in Hpages. cbn in Hpages. lia.
    + cbv beta. intros _ s' Hs. split; [|exact Hs]. rewrite <- El. rewrite reverse_Permutation. apply kinit_pages_nodup.
  - intros E. rewrite E in Hpages. cbn in Hpages. lia.
Qed.

(** A machine of two processors, 48 free pages and a serial port, as the boot
    loader leaves it. *)
Definition ex_gdt : Z := 0x7080.
Definition ex_memory : mem := store_bytes (0x108000 + 0x80) (boot_tables ex_gdt) (mp_memory 2).
Definition ex_cpu : processor :=
  Processor (Machine (fun _ => 0) (fun _ => 0) 0 2 (fun _ => 0)) (0, 0) (0, 0) 0 1 0.
Definition ex_smp : smp :=
  Smp ex_memory (Kmem ∅ 0) mp_zero (fun _ => ex_cpu)
    (fun c => Lapic (fun r => if r =? LA_ID then Z.shiftl c 24 else 0) 0 0) (fun c => if c =? 0 then ApRuns else ApWaits)
    0 (fun _ => 0).
Definition ex_io : io :=
  Io (Pic 0 0 0 0 0 0 false 0) (Pic 0 0 0 0 0 0 false 0)
    (Ioapic 0 (fun r => if r =? REG_VER then Z.shiftl 23 16 else if r =? REG_ID then Z.shiftl 2 24 else 0))
    (Pit 0 []) (Uart true 0 0 0 0 0 0 [] [] 0 128) irqmask0 0 0 0 false.

Definition ex_table : list mpentry := [EProc 0 3; EProc 1 1; EBus; EIoapic 2].

Lemma ex_layout : smp_layout 0xfd0000 0x120000 0x101000 0x108000 0x100 ex_gdt 0x7044.
Proof. split; unfold is_word32; by vm_compute. Qed.

Lemma ex_idt_layout : idt_layout 0xfd0000 0x120000 0x110000 0x108000 0x100.
Proof. split; [by vm_compute|left|right|right]; by vm_compute. Qed.

Lemma ex_cold : machine_cold 0x120000 0x108000 ex_gdt 0 0xF0010 0x9000 ex_table ex_smp.
Proof.
  split; [done|by vm_compute|by vm_compute| |by vm_compute|by vm_compute|by vm_compute|by vm_compute| | |done| |by vm_compute].
  - split; [repeat split|]; by vm_compute.
  - intros c Hc. assert (c = 0 \/ c = 1) as [-> | ->] by (change (table_ncpu ex_table) with 2 in Hc; lia); by vm_compute.
  - intros j a. cbn. by destruct (j =? 0).
  - split; [|by vm_compute]. intros c Hc _. change NCPU with 8 in Hc.
    assert (c = 0 \/ c = 1 \/ c = 2 \/ c = 3 \/ c = 4 \/ c = 5 \/ c = 6 \/ c = 7) as Hd by lia.
    repeat destruct Hd as [-> | Hd]; [..|subst c]; by vm_compute.
Qed.

Lemma ex_devices : devices_cold ex_io.
Proof. split; [done|by vm_compute|cbn; lia..]. Qed.

Lemma ex_disk k : is_block (disk_read ∅ k).
Proof. unfold disk_read. rewrite lookup_empty. cbn. apply (bool_decide_unpack _). by vm_compute. Qed.

Lemma main_starts_kernel_witness :
  wp (main 0xfd0000 0x108000 0x120000 0x110000 (fun i => 0x101000 + 16 * i) 0x100100 0x100200 0x101000
        0x108000 0x100 0x7040 ex_gdt 0x7044 (zeros 44) [0x50] 10 0)
    (fun _ s' => NoDup (reverse (kinit_pages 0xfd0000)) /\
       kernel_started 0x108000 0x120000 0x110000 (fun i => 0x101000 + 16 * i) (zeros 44) 0 2 true
         (reverse (kinit_pages 0xfd0000)) s')
    (Start ex_smp ex_io (Fs (Bio ptable0 (replicate (S HEAD) zero_buf) None false (Taskfile 0 0 0 0 0 0) ∅ no_errors) inodes0) [] ∅ 0).
Proof.
  apply (main_starts_kernel 0xfd0000 0x108000 0x120000 0x110000 (fun i => 0x101000 + 16 * i) 0x100100 0x100200
    0x101000 0x108000 0x100 0x7040 ex_gdt 0x7044 (zeros 44) [0x50] 0 0xF0010 0x9000 ex_table 10 ex_smp ex_io).
  - apply ex_layout.
  - apply ex_idt_layout.
  - by vm_compute.
  - by vm_compute.
  - apply ex_cold.
  - apply ex_devices.
  - by constructor.
  - apply ex_disk.
  - by vm_compute.
  - apply (bool_decide_unpack _). by vm_compute.
  - cbn. lia.
Defined.

(** ** The interrupt controllers *)

(** C36: the interrupts of the devices arrive where [trap] expects them.  After
    the calls with which [mainc] sets up the controllers and the drivers, the
    8259A pair passes on exactly the lines of the keyboard, of the disk, of the
    serial port if there is one and, on a machine without an I/O APIC, of the
    timer, each with the vector [T_IRQ0] plus its number; on a multiprocessor
    the I/O APIC routes the same lines to the same vectors, the disk's to the
    last processor and the others to the first.  All other lines stay masked.
    The timer, where it is used, counts a hundredth of a second. *)
Theorem device_interrupts ncpu I :
  devices_cold I -> 1 <= ncpu <= NCPU ->
  wp (picinit;;; ioapicinit;;; consoleinit_irq;;; uartinit;;; ideinit_irq ncpu;;; if ismp I =? 0 then timerinit else ret tt)
    (fun _ I' =>
      let on i := i = IRQ_KBD \/ i = IRQ_IDE \/ (i = IRQ_COM1 /\ ua_present (io_com1 I) = true) \/ (i = IRQ_TIMER /\ ismp I = 0) in
      (forall i, 0 <= i < 16 -> on i ->
         pic_vector (io_pic1 I') (io_pic2 I') i = Some (T_IRQ0 + i) /\
         (ismp I <> 0 -> ioapic_route (io_apic I') i = Some (T_IRQ0 + i, if i =? IRQ_IDE then ncpu - 1 else 0))) /\
      (forall i, 0 <= i < 16 -> ~ on i ->
         pic_vector (io_pic1 I') (io_pic2 I') i = None /\ (ismp I <> 0 -> ioapic_route (io_apic I') i = None)) /\
      (ismp I = 0 -> pit_period (io_pit I') = Some (TIMER_DIV 100))) I.
Proof.
  intros HD Hn. change NCPU with 8 in Hn. apply lines_up; [done|lia|]. intros I' HE Et Em.
  pose proof (fun i Hi => lines_on_vector _ _ i HE Hi) as Hv. rewrite Em in Hv. clear HE. unfold main_lines, fupd in Hv.
  split_and!; [..|done]; intros i Hi Hon; destruct (Hv i Hi) as [-> Hr]; clear Hv; (split; [|intros Hmp; rewrite (Hr Hmp)]).
  all: clear Hr; unfold IRQ_KBD, IRQ_IDE, IRQ_COM1, IRQ_TIMER in *; destruct (ua_present _).
  all: repeat (match goal with |- context [?x =? ?y] => destruct (Z.eqb_spec x y) end; cbn [andb fmap option_fmap option_map]);
    try done; exfalso; naive_solver lia.
Qed.

Lemma device_interrupts_witness :
  wp (picinit;;; ioapicinit;;; consoleinit_irq;;; uartinit;;; ideinit_irq 2;;; timerinit)
    (fun _ I' => pic_vector (io_pic1 I') (io_pic2 I') IRQ_TIMER = Some 32 /\ pic_vector (io_pic1 I') (io_pic2 I') 3 = None) ex_io.
Proof.
  eapply wp_mono; [apply (device_interrupts 2 ex_io); [apply ex_devices|by vm_compute]|]. cbv beta zeta.
  intros _ I' (H1 & H2 & _). split.
  - apply H1; [by vm_compute|]. by repeat right.
  - apply H2; [lia|]. unfold IRQ_KBD, IRQ_IDE, IRQ_COM1, IRQ_TIMER. lia.
Defined.

(** ** The serial port *)

(** C37: no byte written to the serial port is lost.  If the port is there and
    sends a byte within 128 polls of its status, which is as long as
    [uartputc] waits, then after [uartinit] and any sequence of calls of
    [uartputc] it has sent "xv6..." with a newline and the low bytes of the
    arguments, in order; a port that is not there is left alone. *)
Theorem serial_lossless m cs I :
  pic_ready m I -> (ua_busy (io_com1 I) <= 128)%nat -> (ua_slow (io_com1 I) <= 128)%nat -> uart I = 0 ->
  wp (uartinit;;; for_each cs uartputc) (fun _ I' =>
    if ua_present (io_com1 I) then ua_sent (io_com1 I') = ua_sent (io_com1 I) ++ xv6_hello ++ (u8 <$> cs) else I' = I) I.
Proof.
  intros Hp Hb Hs Hu. apply wp_bind. destruct (ua_present (io_com1 I)) eqn:E.
  - eapply wp_mono; [by apply (uartinit_spec m)|]. cbv beta. intros _ I1 (_ & Hu1 & Hr & Es & _).
    eapply wp_mono; [apply uartputc_all; [by rewrite Hu1|done]|]. cbv beta.
    intros _ I2 (u & -> & _ & Es2 & _). cbn [io_com1 io_set_com1]. by rewrite Es2, Es, <- app_assoc.
  - unfold wp at 1. rewrite uartinit_absent by done. by apply uartputc_off.
Qed.

Definition ex_io_ready : io := io_set_pic1 (Pic 0 0x11 32 4 3 0xfb true 2) (io_set_pic2 (Pic 0 0x11 40 2 3 0xff true 2) ex_io).

Lemma serial_lossless_witness :
  wp (uartinit;;; for_each [111; 107] uartputc)
    (fun _ I' => ua_sent (io_com1 I') = [120; 118; 54; 46; 46; 46; 10; 111; 107]) ex_io_ready.
Proof.
  apply (serial_lossless irqmask0 [111; 107] ex_io_ready).
  - split_and!; by vm_compute.
  - cbn. lia.
  - cbn. lia.
  - done.
Defined.

(** The bound is sharp: a port that needs 129 polls loses bytes. *)
Lemma serial_slow_loses :
  match (uartinit;;; for_each [111; 107] uartputc) (io_set_com1 (Uart true 0 0 0 0 0 0 [] [] 0 129) ex_io_ready) with
  | Ret _ I' => ua_sent (io_com1 I') = [107]
  | _ => False
  end.
Proof. by vm_compute. Qed.
