(* ===== verification/PropVm.v ===== *)
(** * Properties: virtual memory

    What the kernel's memory management (kernel/vm.c) gives a process: the
    kernel's mappings, zeroed pages of its own, a faithful and separate copy
    for a child, and every page back in the end. *)

From S2P Require Import Prelude Monad Params Kalloc Vm VmSpec UserMem.

(** ** The kernel's mappings *)

Lemma no_user_frame kdata m d va :
  0x100000 < kdata < PHYSTOP -> (forall va, va_ok va -> pte_of m d va = kmap_pte (kmap kdata) va) ->
  0 <= va < USERTOP -> frame_of m d va = None.
Proof.
  intros Hk Hpte Hva. unfold frame_of. rewrite Hpte by (unfold va_ok, USERTOP in *; lia). by rewrite (kmap_user kdata Hk) by lia.
Qed.

(** C33: [setupkvm] builds the same kernel mappings for every process: with 13
    free pages it always succeeds, the directory and its tables are distinct
    pages off the free list, every virtual address has the entry the table of
    kernel regions gives it (none for user memory), and no other page is
    touched. *)
Theorem setupkvm_maps kend kdata m l :
  0 < kend -> kdata mod PGSIZE = 0 -> 0x100000 < kdata < PHYSTOP -> free_list kend m l -> (13 <= length l)%nat ->
  wp (setupkvm kdata) (fun d m' => exists k l',
    l = d :: k ++ l' /\ tabs m' d ≡ₚ k /\ pgdir_ok kend m' d l' /\ same_but (d :: k) m m' /\
    (forall va, va_ok va -> pte_of m' d va = kmap_pte (kmap kdata) va) /\
    forall va, 0 <= va < USERTOP -> frame_of m' d va = None) m.
Proof.
  intros Hk Ha Hb Hf Hlen. eapply wp_mono; [by apply (setupkvm_spec kend Hk kdata Ha Hb m l)|]. cbv beta.
  intros d m' [(_ & _ & _ & H)|(Hd & k & l' & -> & _ & Hp & Hok & Hs & Hpte)]; [lia|]. exists k, l'.
  split_and!; [done..|]. intros va. by apply (no_user_frame kdata).
Qed.

(** A small machine: 48 pages of memory behind the kernel. *)
Definition KEND : Z := 0xfd0000.
Definition KDATA : Z := 0x101000.
Definition empty_mem : kmem := Kmem ∅ 0.

Lemma small_boot : wp (kinit KEND) (fun _ m => exists l, free_list KEND m l /\ length l = 48%nat) empty_mem.
Proof.
  eapply wp_mono; [apply kinit_spec; [done|by vm_compute|done]|]. cbv beta. intros _ m Hf.
  eexists. split; [exact Hf|]. by vm_compute.
Qed.

Lemma setupkvm_maps_witness :
  wp (kinit KEND;;; setupkvm KDATA) (fun d m => exists l, pgdir_ok KEND m d l /\ frame_of m d 0 = None) empty_mem.
Proof.
  wstep. eapply wp_mono; [exact small_boot|]. cbv beta. intros _ m (l & Hf & Hl).
  eapply wp_mono; [apply (setupkvm_maps KEND KDATA m l); [done|done|by split; vm_compute|done|lia]|]. cbv beta.
  intros d m' (k & l' & _ & _ & Hok & _ & _ & Hn). exists l'. split; [done|]. by apply Hn.
Defined.

(** ** Growing a process *)

(** C14: [allocuvm] grows a process from [oldsz] to [newsz]: when the free
    pages suffice every new page is mapped to a zeroed page off the free list,
    owned by this process alone; otherwise it returns 0 and everything it took
    is back on the free list.  No other mapping and no page outside its tables
    and the free list changes. *)
Theorem allocuvm_grows kend m pgdir l oldsz newsz :
  0 < kend -> uspace kend m pgdir l -> 0 <= oldsz <= newsz -> newsz <= USERTOP ->
  (forall va, PGROUNDUP oldsz <= va < PGROUNDUP newsz -> frame_of m pgdir va = None) ->
  wp (allocuvm kend pgdir oldsz newsz) (fun r m' => exists l',
    uspace kend m' pgdir l' /\ tabs m' pgdir = tabs m pgdir /\ frames m' pgdir ++ l' ≡ₚ frames m pgdir ++ l /\
    same_but (tabs m pgdir ++ l) m m' /\
    (forall va, va_ok va -> ~ (PGROUNDUP oldsz <= va < PGROUNDUP newsz) ->
       pte_of m' pgdir va = pte_of m pgdir va) /\
    if decide (npages oldsz newsz <= length l)%nat
    then r = newsz /\ l' = drop (npages oldsz newsz) l /\
         forall va, PGROUNDUP oldsz <= va < PGROUNDUP newsz -> zero_page m' pgdir va
    else r = 0 /\ l' ≡ₚ l /\
         forall va, PGROUNDUP oldsz <= va < PGROUNDUP newsz -> frame_of m' pgdir va = None) m.
Proof. intros Hk. by apply allocuvm_spec. Qed.

Lemma present_entry pa perm : present (entry pa perm) = true.
Proof.
  unfold present, entry. rewrite Z.land_lor_distr_l, Z.land_diag. apply negb_true_iff, Z.eqb_neq.
  intros [_ H]%Z.lor_eq_0_iff. done.
Qed.

Lemma zero_page_frame m d va : zero_page m d va -> is_Some (frame_of m d va).
Proof. intros (fr & He & _). unfold frame_of. rewrite He, present_entry. by eexists. Qed.

(** A process without user memory, on the small machine. *)
Lemma small_process :
  wp (kinit KEND;;; setupkvm KDATA) (fun d m => exists l, uspace KEND m d l /\ (35 <= length l)%nat /\
     forall va, 0 <= va < USERTOP -> frame_of m d va = None) empty_mem.
Proof.
  wstep. eapply wp_mono; [exact small_boot|]. cbv beta. intros _ m (l & Hf & Hl).
  eapply wp_mono; [apply (setupkvm_spec KEND ltac:(done) KDATA ltac:(done) ltac:(by split; vm_compute) m l Hf)|]. cbv beta.
  intros d m' [(_ & _ & _ & H)|(_ & k & l' & -> & Hk & _ & Hok & _ & Hpte)]; [lia|].
  destruct (fresh_uspace KEND KDATA ltac:(by split; vm_compute) m' d l' Hok Hpte) as [Hu Hfr]. exists l'. split; [done|]. split.
  - cbn [length] in Hl. rewrite length_app in Hl. lia.
  - intros va. apply (no_user_frame KDATA); [by split; vm_compute|exact Hpte].
Qed.

Lemma small_free m d va :
  (forall va, 0 <= va < USERTOP -> frame_of m d va = None) -> PGROUNDUP 0 <= va < PGROUNDUP 5000 -> frame_of m d va = None.
Proof.
  intros H Hva. apply H. change (PGROUNDUP 0) with 0 in Hva. change (PGROUNDUP 5000) with 8192 in Hva. unfold USERTOP. lia.
Qed.

Lemma allocuvm_grows_witness :
  wp (kinit KEND;;; setupkvm KDATA) (fun d m =>
    wp (allocuvm KEND d 0 5000) (fun r m' => r = 5000 /\ zero_page m' d 4096) m) empty_mem.
Proof.
  eapply wp_mono; [exact small_process|]. cbv beta. intros d m (l & Hu & Hl & Hn).
  eapply wp_mono; [apply (allocuvm_grows KEND m d l 0 5000); [done|done|lia|by vm_compute|]|].
  - intros va. by apply small_free.
  - cbv beta. intros r m' (l' & _ & _ & _ & _ & _ & H). change (npages 0 5000) with 2%nat in H. rewrite decide_True in H by lia.
    destruct H as (-> & _ & Hz). split; [done|]. apply Hz. by vm_compute.
Defined.

(** ** Copying a process *)

(** C13: [copyuvm] gives a child its own copy of its parent's memory.  It
    fails only when the free pages are too few; otherwise every user page of
    the child holds the bytes of the parent's page, all pages of the child
    come off the free list (so none is shared), the rest of its address space
    has the kernel's mappings, and the parent's memory is unchanged. *)
Theorem copyuvm_copies kend kdata m pgdir l sz :
  0 < kend -> kdata mod PGSIZE = 0 -> 0x100000 < kdata < PHYSTOP ->
  uspace kend m pgdir l -> 0 <= sz <= USERTOP ->
  (forall va, 0 <= va < sz -> is_Some (frame_of m pgdir va)) ->
  wp (copyuvm kend kdata pgdir sz) (fun d m' => exists l', free_list kend m' l' /\ same_but l m m' /\
    (d = 0 /\ (length l < 13 + npages 0 sz)%nat \/
     d <> 0 /\ uspace kend m' d l' /\ d :: tabs m' d ++ frames m' d ++ l' ≡ₚ l /\
     (forall va, va_ok va -> va < PGROUNDUP sz -> page_copied m pgdir m' d va) /\
     (forall va, va_ok va -> PGROUNDUP sz <= va -> pte_of m' d va = kmap_pte (kmap kdata) va))) m.
Proof.
  intros Hk Ha Hb Hu Hsz Hp. eapply wp_mono; [by apply (copyuvm_spec kend Hk kdata Ha Hb m pgdir l sz)|]. cbv beta.
  intros d m' (l' & Hf & Hs & H). exists l'. split_and!; [done..|]. destruct H as [(E & Hl & _)|H]; [by left|by right].
Qed.

(** The same process with two pages. *)
Lemma small_grown :
  wp (kinit KEND;;; setupkvm KDATA) (fun d m => wp (allocuvm KEND d 0 5000) (fun r m' => exists l,
    uspace KEND m' d l /\ (33 <= length l)%nat /\ forall va, 0 <= va < 5000 -> is_Some (frame_of m' d va)) m) empty_mem.
Proof.
  eapply wp_mono; [exact small_process|]. cbv beta. intros d m (l & Hu & Hl & Hn).
  eapply wp_mono; [apply (allocuvm_spec KEND ltac:(done) m d l 0 5000); [done|lia|by vm_compute|]|].
  - intros va. by apply small_free.
  - cbv beta. intros r m' (l' & Hu' & _ & _ & _ & _ & H). change (npages 0 5000) with 2%nat in H. rewrite decide_True in H by lia.
    destruct H as (_ & -> & Hz). exists (drop 2 l). split; [done|]. split; [rewrite length_drop; lia|]. intros va Hva.
    apply zero_page_frame, Hz. change (PGROUNDUP 0) with 0. change (PGROUNDUP 5000) with 8192. lia.
Qed.

Lemma copyuvm_copies_witness :
  wp (kinit KEND;;; setupkvm KDATA) (fun d m0 => wp (allocuvm KEND d 0 5000) (fun _ m =>
    wp (copyuvm KEND KDATA d 5000) (fun c m' => c <> 0 /\ page_copied m d m' c 4096) m) m0) empty_mem.
Proof.
  eapply wp_mono; [exact small_grown|]. cbv beta. intros d m0 H. eapply wp_mono; [exact H|]. cbv beta. intros _ m (l & Hu & Hl & Hf).
  eapply wp_mono; [apply (copyuvm_copies KEND KDATA m d l 5000); [done|done|by split; vm_compute|done|by split; vm_compute|exact Hf]|].
  cbv beta. intros c m' (l' & _ & _ & Hc). change (npages 0 5000) with 2%nat in Hc.
  destruct Hc as [[_ Hc]|(Hc & _ & _ & Hcp & _)]; [lia|]. split; [done|]. by apply Hcp.
Defined.

(** ** The life of an address space *)

(** C15: an address space gives back all its memory.  A process that is set
    up, grown to [sz] bytes (or refused them) and torn down by [freevm] leaves
    the free list with exactly the pages it had: the user pages, the page
    tables and the directory, each once. *)
Theorem address_space_no_leak kend kdata m l sz :
  0 < kend -> kdata mod PGSIZE = 0 -> 0x100000 < kdata < PHYSTOP ->
  free_list kend m l -> (13 <= length l)%nat -> 0 <= sz <= USERTOP ->
  wp (let! d := setupkvm kdata in
      let! r := allocuvm kend d 0 sz in
      freevm kend d;;; ret r)
    (fun r m' => (r = sz \/ r = 0) /\ exists l', free_list kend m' l' /\ l' ≡ₚ l /\ same_but l m m') m.
Proof.
  intros Hk Ha Hb Hf Hlen Hsz. wstep. eapply wp_mono; [by apply (setupkvm_spec kend Hk kdata Ha Hb m l)|]. cbv beta.
  intros d m1 [(_ & _ & _ & H)|(_ & k & l1 & -> & _ & Hp & Hok & Hs & Hpte)]; [lia|].
  destruct (fresh_uspace kend kdata Hb m1 d l1 Hok Hpte) as [Hu Hfr]. wstep.
  eapply wp_mono; [apply (allocuvm_spec kend Hk m1 d l1 0 sz Hu); [lia|lia|]|].
  { intros va Hva. apply (no_user_frame kdata); [done|done|]. change (PGROUNDUP 0) with 0 in Hva.
    destruct (PGROUNDUP_spec sz) as (H1 & _ & H2); [lia|unfold USERTOP, PGSIZE in *; lia|].
    pose proof (Z.div_mod (PGROUNDUP sz) PGSIZE ltac:(done)). unfold USERTOP, PGSIZE in *. lia. }
  cbv beta. intros r m2 (l2 & Hu2 & Et & Hp2 & Hs2 & _ & Hr). wstep.
  eapply wp_mono; [by apply (freevm_spec kend Hk m2 d l2)|]. cbv beta. intros _ m3 (l3 & Hf3 & Hp3 & Hs3). wstep.
  split; [destruct (decide _); naive_solver|]. exists l3.
  assert (l3 ≡ₚ d :: k ++ l1) as Hl3 by (rewrite Hp3, Et, Hp, Hp2, Hfr; done).
  split_and!; [done|done|]. intros p Hpp. rewrite not_elem_of_cons, not_elem_of_app in Hpp. destruct Hpp as (H1 & H2 & H3).
  rewrite Hfr in Hp2. rewrite Hs3, Hs2, Hs; [done|..].
  - by rewrite not_elem_of_cons.
  - by rewrite not_elem_of_app, Hp.
  - rewrite not_elem_of_cons, not_elem_of_app, Et, Hp. split_and!; [done|done|]. intros Hin. apply H3.
    rewrite <- (app_nil_l l1), <- Hp2. apply elem_of_app. by left.
Qed.

Lemma address_space_no_leak_witness :
  wp (kinit KEND) (fun _ m => exists l, free_list KEND m l /\
    wp (let! d := setupkvm KDATA in let! r := allocuvm KEND d 0 5000 in freevm KEND d;;; ret r)
      (fun r m' => (r = 5000 \/ r = 0) /\ exists l', free_list KEND m' l' /\ l' ≡ₚ l /\ same_but l m m') m) empty_mem.
Proof.
  eapply wp_mono; [exact small_boot|]. cbv beta. intros _ m (l & Hf & Hl). exists l. split; [done|].
  apply (address_space_no_leak KEND KDATA m l 5000); [done|done|by split; vm_compute|done|lia|by split; vm_compute].
Defined.
