(* ===== verification/PropIo.v ===== *)
(** * Properties of the console, the keyboard and the memory functions *)

From S2P Require Import Prelude Monad Params CString ProcTable Ide Bio Block Inode Icache.
From S2P Require Import Console Kbd.

(** ** The console *)

(** C39: the line discipline.  A keyboard interrupt with any scan codes edits
    the input like the specification [type_char] does on a queue of finished
    bytes and a line: characters are appended, backspace removes the last one,
    [^U] the line, and an end of line or [^D] finishes it, with the ring and
    its wrapping indices underneath. *)
Theorem keyboard_edits_line s shift ports :
  input_ok (cn_in s) -> 0 <= shift < 128 -> Forall is_byte ports ->
  wp (kbdintr shift ports) (fun shift' s' =>
    0 <= shift' < 128 /\ input_ok (cn_in s') /\
    (finished (cn_in s'), editing (cn_in s')) =
      foldl (fun q c => type_char c q) (finished (cn_in s), editing (cn_in s)) (kbd_chars shift ports).1) s.
Proof. intros. eapply wp_mono; [by apply kbdintr_spec|]. naive_solver. Qed.

Definition empty_fs : fs := Fs (Bio ptable0 [] None true zero_taskfile ∅ no_errors) [].
Definition empty_con : con := Con empty_fs input0 [].

Lemma input0_ok : input_ok input0.
Proof.
  split; [apply length_zeros|by split; vm_compute..|]. by vm_compute; constructor.
Qed.

Lemma keyboard_edits_line_witness :
  wp (kbdintr 0 [0x23; 0x17; 0x1c]) (fun shift' s' =>
    0 <= shift' < 128 /\ input_ok (cn_in s') /\
    (finished (cn_in s'), editing (cn_in s')) = ([104; 105; 10], [])) empty_con.
Proof.
  apply (keyboard_edits_line empty_con 0 [0x23; 0x17; 0x1c]);
    [exact input0_ok|lia|by repeat constructor].
Defined.

(** C40: [consoleread] hands out the finished input in order: up to [n] bytes,
    at most one line, stopping before a [^D] unless it comes first, which is
    the end of file; the rest stays for the next call, and so does the line
    being edited. *)
Theorem consoleread_lines ip b l i0 n i out f r :
  l !! ip = Some i0 -> i_flags i0 = Z.lor I_BUSY I_VALID -> 1 <= i_ref i0 -> input_ok i ->
  read_line n false (finished i) = Some (f, r) ->
  wp (consoleread ip (Z.of_nat n)) (fun res s' =>
    res = (Z.of_nat (length f), f) /\ input_ok (cn_in s') /\
    finished (cn_in s') = r /\ editing (cn_in s') = editing i /\ fs_inode (cn_fs s') = l)
    (Con (Fs b l) i out).
Proof. intros. eapply wp_mono; [by eapply consoleread_spec|]. naive_solver. Qed.

(** "hi", an end of line and "x" typed. *)
Definition typed : input := Input (splice 0 [104; 105; 10; 120] (zeros INPUT_BUF)) 0 3 4.
Definition locked_con : inode := Inode 1 3 1 (Z.lor I_BUSY I_VALID) T_DEV 1 1 1 0 (zeros 12) 0.

Lemma typed_ok : input_ok typed.
Proof.
  split; [by vm_compute|by split; vm_compute..|]. by vm_compute; repeat constructor.
Qed.

Lemma consoleread_lines_witness :
  wp (consoleread 0 (Z.of_nat 10)) (fun res s' =>
    res = (3, [104; 105; 10]) /\ input_ok (cn_in s') /\
    finished (cn_in s') = [] /\ editing (cn_in s') = editing typed /\ fs_inode (cn_fs s') = [locked_con])
    (Con (Fs (fs_bio empty_fs) [locked_con]) typed []).
Proof.
  apply (consoleread_lines 0 (fs_bio empty_fs) [locked_con] locked_con 10 typed [] [104; 105; 10] []);
    [done|done|by vm_compute|exact typed_ok|by vm_compute].
Defined.

(** The characters [printint] puts out, read as a number in the base, are
    the argument: with its sign for a signed conversion, as an unsigned 32-bit
    number otherwise; they fit its 16-character buffer in the bases the kernel
    uses (10 and 16). *)
Theorem printint_roundtrip xx base sign :
  base = 10 \/ base = 16 -> - 2 ^ 31 <= xx < 2 ^ 31 ->
  parse_int base (printint xx base sign) = (if sign then xx else u32 xx) /\
  (length (printint xx base sign) <= 16)%nat.
Proof.
  intros Hb Hx. destruct (printint_spec xx base sign 9) as [Hp Hl]; [lia|done| |lia|].
  - destruct Hb as [-> | ->]; by vm_compute.
  - split; [done|lia].
Qed.

Lemma printint_roundtrip_witness :
  parse_int 10 (printint (- 2 ^ 31) 10 true) = - 2 ^ 31 /\ (length (printint (- 2 ^ 31) 10 true) <= 16)%nat.
Proof. apply (printint_roundtrip (- 2 ^ 31) 10 true); [by left|lia]. Defined.

(** ** Memory *)

(** [memmove] copies as if through a temporary buffer, however the two
    ranges overlap, and changes nothing outside the destination. *)
Theorem memmove_overlap d s n m x :
  memmove d s n m x = if (d <=? x) && (x <? d + Z.of_nat n) then m (s + (x - d)) else m x.
Proof. apply memmove_spec. Qed.
