(* ===== verification/PropUser.v ===== *)
(** * Properties: user programs

    The allocator (user/umalloc.c), the matcher of grep (user/grep.c) and wc
    (user/wc.c). *)

From S2P Require Import Prelude Monad Params CString Image Ulib Grep Utils Umalloc HeapUse.

(** C12: memory handed out by [malloc] is the program's own.  For requests
    below 2^31 - 15 bytes, after any sequence of calls of [malloc] and [free]
    by a program that frees what it holds, every allocation lies in memory the
    kernel added to the process, and no two of them overlap, their headers
    included.  Every call ends.  The bound on the requests is exact: from
    2^31 - 15 bytes on the number of bytes that [morecore] gives to [sbrk] is
    negative ([Umalloc.units_negative]), and [sbrk] then shrinks the process. *)
Theorem malloc_free_safe base sbrk_to h cs :
  (forall b m b', 0 <= m < 2 ^ 31 -> sbrk_to b m = Some b' -> b' = b + m /\ b' < 2 ^ 32) ->
  h_freep h = 0 -> 0 < base < h_brk h -> h_brk h < 2 ^ 32 ->
  (forall nbytes, Malloc nbytes ∈ cs -> 0 <= nbytes < 2 ^ 31 - 15) ->
  wp (do_calls base sbrk_to cs) (fun _ u' =>
    (forall p, p ∈ us_held u' -> h_brk h + HEADER <= p.1 /\ p.1 + p.2 <= h_brk (us_heap u')) /\
    forall i j p q, i <> j -> us_held u' !! i = Some p -> us_held u' !! j = Some q ->
      p.1 + p.2 <= q.1 - HEADER \/ q.1 + q.2 <= p.1 - HEADER) (User h []).
Proof.
  intros Hs Hf Hb Hl Hcs. apply do_calls_spec; [done..|].
  apply Forall_forall. intros [nbytes|i] Hin; [by apply Hcs|done].
Qed.

(** A kernel that grants memory up to USERTOP. *)
Definition grant (b m : Z) : option Z := if b + m <=? USERTOP then Some (b + m) else None.

Lemma malloc_free_safe_witness :
  wp (do_calls 4096 grant [Malloc 100; Malloc 40000; Free 1; Malloc 24])
    (fun _ u' => (forall p, p ∈ us_held u' -> 8192 + HEADER <= p.1 /\ p.1 + p.2 <= h_brk (us_heap u')) /\
       forall i j p q, i <> j -> us_held u' !! i = Some p -> us_held u' !! j = Some q ->
         p.1 + p.2 <= q.1 - HEADER \/ q.1 + q.2 <= p.1 - HEADER) (User (Heap ∅ 0 8192) []).
Proof.
  apply (malloc_free_safe 4096 grant (Heap ∅ 0 8192) [Malloc 100; Malloc 40000; Free 1; Malloc 24]); [|done|cbn; lia|cbn; lia|].
  - intros b m b' Hm. unfold grant. destruct (Z.leb_spec (b + m) USERTOP); intros [= <-]. unfold USERTOP in *. lia.
  - intros nbytes. rewrite !elem_of_cons, elem_of_nil. intros [[= ->]|[[= ->]|[?|[[= ->]|?]]]]; done || lia.
Defined.

(** C38: the matcher of grep computes the regular expressions it documents:
    it accepts a text exactly when the pattern (characters, [.], [*] after a
    character, [^] at the beginning and [$] at the end) occurs in it. *)
Theorem match_re_decides re text : match_re re text = true <-> pattern_in (cstr re) (cstr text).
Proof. apply match_re_spec. Qed.

(** [wc] counts what it says: for a text however it is cut into reads,
    written as words separated by white space, it prints the number of
    newlines, of words and of bytes.  Every text can be written in that way
    ([Utils.weave_exists]). *)
Theorem wc_counts i name lead ws (t := weave lead ws) :
  concat (in_reads i) = t -> in_error i = false -> Forall is_space lead -> weave_ok ws ->
  Z.of_nat (length t) < 2 ^ 31 ->
  wc i name = (printf (bytes_of "%d %d %d %s" ++ [10; 0])
    [Uint (newlines t); Uint (Z.of_nat (length ws)); Uint (Z.of_nat (length t)); Ustr (Some name)], false).
Proof. apply wc_spec. Qed.

(** Three words in two reads, the second word cut in the middle. *)
Lemma wc_counts_witness :
  wc (Stream [bytes_of " a b"; bytes_of "c" ++ [10] ++ bytes_of "de"] false) (cbytes "f") =
  (bytes_of "1 3 8 f" ++ [10], false).
Proof.
  apply (wc_counts (Stream [bytes_of " a b"; bytes_of "c" ++ [10] ++ bytes_of "de"] false) (cbytes "f")
    [32] [([97], [32]); ([98; 99], [10]); ([100; 101], [])]).
  - done.
  - done.
  - apply (bool_decide_unpack _). by vm_compute.
  - repeat split; try done; try (apply (bool_decide_unpack _); by vm_compute); try (by right); by left.
  - done.
Defined.
