(* ===== verification/PropSh.v ===== *)
(** * Properties: the shell

    The parser of the shell (user/sh.c) accepts its language, and a session
    starts the programs its lines describe with the right files. *)

From S2P Require Import Prelude Monad Params CString Ulib Sh ShSpec ShParse ShCmd ShRun.
From S2P Require Import Image.

Lemma chars_cstr B : chars B 0 (strend B) = cstr B.
Proof.
  unfold chars, cstr. fold (strend B). rewrite Nat.sub_0_r. apply list_eq. intros i. rewrite list_lookup_fmap.
  pose proof (strlen_nonneg B). pose proof (strlen_length B). destruct (decide (i < strend B)%nat) as [Hi|Hi].
  - rewrite lookup_seq_lt, lookup_take_lt by done. cbn. unfold char_at. unfold strend in Hi.
    by destruct (lookup_lt_is_Some_2 B i ltac:(lia)) as [c ->].
  - rewrite lookup_seq_ge, lookup_take_ge by lia. done.
Qed.

(** C11: the parser of the shell decides the grammar of command lines.  The
    tokens of a line are its characters without the white space.  When they
    are the tokens of a line of the grammar (lists, pipelines, blocks,
    redirections, background, fewer than [MAXARGS] arguments) [parsecmd]
    builds the tree of that line and leaves each word in the buffer as a
    string of its own; otherwise it ends with an error.  It always ends. *)
Theorem parsecmd_decides B :
  mjoin (tok_text B <$> line_tokens B) = filter visible (cstr B) /\
  wpe parsecmd (fun p s' => exists l, ok_line l /\ line_tokens B = pr_line l /\ parsed B l p s')
    (fun _ _ => ~ exists l, ok_line l /\ line_tokens B = pr_line l) (sh_start B).
Proof.
  split; [|apply parsecmd_spec]. destruct (strend_spec B) as [Hnz Hz]. rewrite <- chars_cstr. unfold line_tokens.
  apply tokens_text; [done|done| |lia]. pose proof (strlen_length B). unfold strend. lia.
Qed.

(** C10: a session of the shell.  When the kernel grants its forks, the shell
    reads the lines to the end of its input, changes directory for each line
    that starts with cd, ignores lines outside the grammar, and starts the
    programs of all others, listed in the order of their forks.  Each program
    has the words of its command as arguments and exactly three open files:
    the standard ones or the redirections and pipes the line asks for. *)
Theorem shell_session can_open can_fork i o e lns y :
  (forall n, can_fork n = true) -> Forall good_line lns -> y_fds y = stdfds i o e ->
  wp (sh_main can_open can_fork (unlines lns)) (fun _ y' => exists ps ds k,
    session can_open i o (y_pipes y) lns ps ds k /\
    y_execs y' = y_execs y ++ (with_fds e <$> ps) /\ y_dirs y' = y_dirs y ++ ds) y.
Proof. intros Hf. by apply main_spec. Qed.

Definition tty : fobj := Inherited 0.

Lemma shell_session_witness :
  wp (sh_main (fun _ _ => true) (fun _ => true) (unlines [bytes_of "ls < in | wc > out"; bytes_of "cd tmp"]))
    (fun _ y' => exists ps ds k, session (fun _ _ => true) tty tty 0 [bytes_of "ls < in | wc > out"; bytes_of "cd tmp"] ps ds k /\
       y_execs y' = [] ++ (with_fds tty <$> ps) /\ y_dirs y' = [] ++ ds) (Sys (stdfds tty tty tty) 0 0 [] []).
Proof.
  apply (shell_session (fun _ _ => true) (fun _ => true) tty tty tty [bytes_of "ls < in | wc > out"; bytes_of "cd tmp"]
    (Sys (stdfds tty tty tty) 0 0 [] [])); [done| |done].
  repeat constructor; by vm_compute.
Defined.
