(* ===== verification/PropMkfs.v ===== *)
(** * Properties: the image builder

    What mkfs (tools/mkfs.c) writes is a file system in the sense of the
    kernel, with the files of the host directory. *)

From S2P Require Import Prelude Monad Params CString ProcTable Ide Bio Block Alloc Lru.
From S2P Require Import Inode Bmap Icache Content Dir Path Walk Image Mkfs MkfsSpec MkfsImage MkfsTree MkfsPath.

(** C8: mkfs formats a disk.  For a host directory of fewer than 199 files
    the program either reports that the image is full or a file too large, or
    writes an image on which the kernel's buffer cache starts with a
    superblock, a bitmap that marks exactly the blocks in use, and the inodes
    of the reference layout: type, size and every byte, no block shared
    between two files, and all other inodes free. *)
Theorem mkfs_formats root :
  host_ok (HDir root) -> Z.of_nat (length (root_image root)) < k_ninodes ->
  wpe (mkfs_main root) (fun _ m => forall pt tf, has_cur pt ->
    wp binit (fun _ s => formatted s (root_image root) (k_freeblock m)) (bio_start pt tf (k_img m))) mk_error mk_start.
Proof. apply mkfs_main_formatted. Qed.

(** A host directory with a subdirectory. *)
Definition small_root : list (list Z * hfile) :=
  [(cbytes ".", HDir []); (cbytes "README", HFile [bytes_of "hello, "; bytes_of "world"]);
   (cbytes "bin", HDir [(cbytes "sh", HFile [zeros 600])])].

Lemma small_root_ok : host_ok (HDir small_root).
Proof. repeat split; repeat (apply Forall_cons_2; [|]); try apply Forall_nil_2; by vm_compute || (apply bytes_test; by vm_compute). Qed.

Lemma mkfs_formats_witness :
  wpe (mkfs_main small_root) (fun _ m => forall pt tf, has_cur pt ->
    wp binit (fun _ s => formatted s (root_image small_root) (k_freeblock m)) (bio_start pt tf (k_img m))) mk_error mk_start.
Proof. apply (mkfs_formats small_root); [exact small_root_ok|by vm_compute]. Defined.

(** C9: the kernel finds every file of the host directory in the image.  mkfs
    either reports that the image is full or a file too large, or writes an
    image on which, once the buffer cache is started, the file's absolute path
    leads [namei] to an inode that is a plain file with the bytes of the host's
    file.  [namei] returns a slot of the inode cache for that inode, with one
    reference more there and everywhere else as many as before, and changes
    nothing on the disk.  The host has fewer than 199 files, and no two names
    in one of its directories agree in their first 14 bytes, which is all of a
    name that an entry holds; on the host the path is followed by full names.
    No other process has locked an inode of the root device, the inodes cached
    for it are those of the disk, and two slots of the cache are free. *)
Theorem mkfs_paths root p reads :
  host_ok (HDir root) -> Z.of_nat (length (root_image root)) < k_ninodes -> names_apart (HDir root) ->
  Forall is_byte p -> deref p = SLASH -> hwalk (HDir root) (elems p) = Some (HFile reads) ->
  wpe (mkfs_main root) (fun _ m => forall pt tf, has_cur pt ->
    wp binit (fun _ s => exists n, (let i := disk_inode s n in i_type i = T_FILE /\ i_size i = Z.of_nat (length (mjoin reads)) /\
        forall o, 0 <= o < MAXFILE * BSIZE -> fbyte s i o = nthb (mjoin reads) o) /\
      forall l, quiet s l None -> two_free l ->
      wp (namei p) (fun r s' => exists ip i, r = Some ip /\ fs_inode s' !! ip = Some i /\ i_match ROOTDEV n i /\
        held l (fs_inode s') (one ip) /\ bio_disk (fs_bio s') = bio_disk s) (Fs s l)) (bio_start pt tf (k_img m)))
    mk_error mk_start.
Proof.
  intros Hh Hl Ha Hp Hd Hw. eapply wpe_mono; [by apply mkfs_main_formatted| |done]. cbv beta. intros _ m Hm pt tf Hc.
  eapply wp_mono; [by apply Hm|]. cbv beta. intros _ s Hs.
  destruct (walk_found s _ _ Hs (elems p) (HDir root) 0 0 1 (HFile reads) (root_placed root) Hh Ha (elems_bytes p Hp) Hw)
    as (k & p' & n & Hr & Hk).
  exists (inum k). split.
  - destruct (placed_inode s _ _ Hs _ _ _ _ Hk) as (H1 & [H2 _] & H3). split; [exact H1|]. split; [exact H2|exact H3].
  - intros l Hq Hf. eapply wp_mono; [by apply (namei_walk s l p (inum k)); [apply Hs|..]|].
    cbv beta. intros r s' (ip & i & Hr' & Hi & Hi' & Hheld & _ & _ & Hdisk). exists ip, i. exact (conj Hr' (conj Hi (conj Hi' (conj Hheld Hdisk)))).
Qed.

Lemma small_root_apart : names_apart (HDir small_root).
Proof. repeat split; apply (bool_decide_unpack _); by vm_compute. Qed.

(** The cache after the start of the kernel. *)
Lemma empty_cache s : quiet s (replicate 50 zero_inode) None /\ two_free (replicate 50 zero_inode).
Proof.
  assert (forall k i, replicate 50 zero_inode !! k = Some i -> i_ref i = 0) as Hr by (intros k i [-> _]%lookup_replicate; done).
  split; [split|by exists 0%nat, 1%nat, zero_inode, zero_inode].
  - intros j k i i' Hj _ Hp. specialize (Hr _ _ Hj). lia.
  - intros k i Hk _ Hp. specialize (Hr _ _ Hk). lia.
Qed.

Lemma mkfs_paths_witness :
  wpe (mkfs_main small_root) (fun _ m => forall pt tf, has_cur pt ->
    wp binit (fun _ s => exists n, i_size (disk_inode s n) = 600 /\
      wp (namei (cbytes "/bin/sh")) (fun r s' => exists ip i, r = Some ip /\ fs_inode s' !! ip = Some i /\ i_match ROOTDEV n i)
        (Fs s (replicate 50 zero_inode))) (bio_start pt tf (k_img m)))
    mk_error mk_start.
Proof.
  eapply wpe_mono; [apply (mkfs_paths small_root (cbytes "/bin/sh") [zeros 600]);
    [exact small_root_ok|by vm_compute|exact small_root_apart|apply bytes_test; by vm_compute|done|by vm_compute]| |done].
  cbv beta. intros _ m Hm pt tf Hc. eapply wp_mono; [by apply Hm|]. cbv beta. intros _ s (n & (_ & Hsz & _) & Hn). exists n.
  split; [exact Hsz|]. destruct (empty_cache s) as [Hq Hf]. eapply wp_mono; [by apply Hn|]. cbv beta.
  intros r s' (ip & i & Hr & Hi & Hm' & _). exists ip, i. exact (conj Hr (conj Hi Hm')).
Defined.
